(* ===== verification/_CoqProject ===== *)
-Q . S2P
Prelude.v
Bytes.v
Padding.v
Crypto.v
Pq.v
Identity.v
Mls.v
KtError.v
Merkle.v
SframeWire.v
SframeReplay.v
Sframe.v
Postman.v
KtWitness.v
BackupError.v
DeviceAuth.v
KtCodec.v
KtLogState.v
KtEntry.v
ThresholdIdentity.v
PlatformVerifier.v
CloudRequest.v
OprfRequest.v
Dkg.v
CloudWire.v
CloudTransport.v
SealedSender.v
Snapshot.v
DeviceTransfer.v
Hpke.v
MaxRatchet.v
GroupMedia.v
RatchetGroup.v
ClientError.v
Client.v
Calls.v
Transport.v
Pinning.v
Gateway.v
RowStore.v
Account.v
Services.v
DiscoveryBudget.v
DiscoveryWire.v
DiscoveryLookup.v
Unlock.v
Ffi.v
Onboarding.v
FfiChat.v
Attest.v
Primitives.v
Mlocked.v
Shamir.v
CloudUnwrap.v
OprfClient.v
DiscoveryPsi.v
