(* ===== verification/Prelude.v ===== *)
(** * Verification of the Umbrella protocol library

    This library models and verifies the core of the Umbrella messenger protocol, a Rust
    workspace under [src/crates/].  The models are shallow embeddings: each Rust function is a
    Rocq function with the same branches in the same order, structs are records, enums are
    inductive types, fallible functions return [res] ([Ok], [Err], or [Panic] for an
    out-of-range slice, index or failed assertion), methods with [&mut self] or interior
    mutability are written in the state monad [st] or return the new state.

    ** The system and its parts

    Clients exchange MLS-encrypted messages and SFrame-protected media through servers that
    see only opaque bytes.  An account is an identity key with a set of device keys; both are
    published in a key-transparency (KT) log whose epoch roots several witnesses co-sign.
    - [umbrella-padding] rounds payloads to bucket sizes before encryption.
    - [umbrella-pq], [umbrella-identity], [umbrella-sealed-sender]: post-quantum and hybrid
      primitives, the keys of an account and its devices, envelopes that hide the sender.
    - [umbrella-mls] wraps openmls groups and adds a ratchet with a post-quantum extension.
    - [umbrella-calls] protects media frames (SFrame) and fixes the routing policy of calls.
    - [umbrella-server-blind-postman] classifies, rate-limits, de-duplicates and routes messages.
    - [umbrella-kt] holds the Merkle log, the witnesses, the observations clients compare, the
      published entries, and each client's mirror of an account's devices.
    - [umbrella-backup] authorizes and revokes devices, recovers wrapped message keys from
      shares of five servers, and transfers an account from an old device to a new one;
      [umbrella-oprf] evaluates an oblivious PRF with the same kind of quorum, and
      [umbrella-platform-verifier] checks the platform attestations both ask for.
    - [umbrella-discovery] finds contacts and usernames without revealing them.
    - [umbrella-threshold-identity] keeps, on each of five servers, the share of an account
      behind a PIN, with escalating recovery, a time lock and a dead-man switch.
    - [umbrella-client] composes all of these: chats, calls, registration and unlocking, the
      account's identity, the message store and the network transports.

    ** Files

    - [Prelude]: results, the state monad, fixed-width integers, bytes, list lengths, tactics
      and hint databases shared by all files.  [Bytes]: big-endian integers, slices, the
      interface [Codec] of a canonical wire format and the tactics that read and write fields.
      [Crypto]: the interface [Ed25519].  [KtError], [BackupError], [ClientError]: error enums.
    - [Padding]: [umbrella-padding/src/lib.rs].
    - [SframeWire], [SframeReplay], [Sframe]: [umbrella-calls/src/sframe/]: header codec, the
      64-bit replay window and the media context with its epochs.  [GroupMedia]: the base key
      of an epoch from its MLS group, and a rekey followed through groups and media.
    - [Postman]: [umbrella-server-blind-postman/src/]: limiter, replay guard, router.
    - [Merkle], [KtWitness], [KtCodec], [KtLogState], [KtEntry]: [umbrella-kt/src/]: tree and
      proofs, witnesses and observations, wire formats, the mirror of an account as a state
      machine, published entries and self-monitoring.
    - [DeviceAuth]: the signed records of [umbrella-backup/src/cloud_wrap/authorization.rs] and
      [identity_rotation.rs].  [CloudRequest], [CloudWire], [CloudTransport], [CloudUnwrap]:
      [cloud_wrap/]: signed unwrap requests and the checks of a server, formats of shares and
      wrapped keys, the in-memory servers, and recovery by trying subsets of the shares.
    - [PlatformVerifier], [OprfRequest], [OprfClient]: [umbrella-platform-verifier/src/] and
      [umbrella-oprf/src/]: attestation checks, signed OPRF requests, blinding and batches.
    - [Pq], [Identity], [SealedSender]: [umbrella-pq/src/], [umbrella-identity/src/] (paths,
      derivation, attestations, recovery phrases, rotation, the key store with its mutex) and
      [umbrella-sealed-sender/src/] (both envelope versions).
    - [Snapshot], [DeviceTransfer]: [umbrella-backup/src/device_transfer/]: the transferred
      state, the pairing code, the Noise handshake, the identity bind and the frames.
    - [Mls], [MaxRatchet], [RatchetGroup], [Hpke]: [umbrella-mls/src/]: groups, policies,
      parsing; ratchet state, envelopes and the text path of the client; the ratchet that owns
      its group; HPKE over X-Wing as the provider offers it to openmls.
    - [ThresholdIdentity], [Dkg]: [umbrella-threshold-identity/src/]: the account one server
      keeps; distributed key generation and threshold signing.
    - [DiscoveryBudget], [DiscoveryWire], [DiscoveryLookup], [DiscoveryPsi]:
      [umbrella-discovery/src/]: budgets and nonces, wire formats and pseudonyms, username
      lookup with its log bind, private set intersection.
    - [Shamir]: threshold combination of [umbrella-oprf] and [umbrella-backup] over an
      arbitrary field and vector space.  [Shamir], [CloudUnwrap], [OprfClient] and
      [DiscoveryPsi] use MathComp; they require only each other.
    - [Client]: chats of [umbrella-client/src/core.rs] and [facade/].  [Calls]: call policy,
      fingerprints and sessions ([umbrella-calls/src/policy.rs], [umbrella-client/src/call/]).
      [Transport]: retries, gateway fallback and channel choice.  [Gateway]: the QUIC and
      WebSocket connections.  [Pinning]: certificate pins and the production endpoints.
      [Services]: the HTTP calls and the request to all sealed servers.  [RowStore]: the
      encrypted message table.  [Unlock]: registration, unlocking and the life of a session.
      [Account]: hardware keys, enrolment, identity rotation and self-monitoring.  [Attest]:
      sealing of unwrap requests on the device ([attestation/]).
    - [Ffi], [Onboarding], [FfiChat]: [umbrella-ffi/src/]: values and errors that cross to the
      platforms, the closed production constructors; the onboarding handle with its sessions
      over [Unlock]; the chat handles over [Client].
    - [Primitives], [Mlocked]: [umbrella-crypto-primitives/src/]: labelled hashes, HKDF, the two
      AEAD interfaces and nonces; secrets in locked pages.

    ** Interfaces

    Components meet at type classes; the client of an interface is proved against its laws and
    the implementation discharges them, with the exceptions named below.  Inside the workspace:
    [Codec] (log codecs over the records), [RateLimiter] and [QuotaLimiter] (router over the fixed
    window), [NonceGuard] (request checks over the nonce stores), [HwKeystore] with [HwLaws]
    (rotation and enrolment over the hardware callback, with the source's mock as an instance),
    [GatewayOps] (chats over a connection, implemented by the two wires).  Two interfaces stand for code of the workspace that is modelled apart, over MathComp,
    which cannot be loaded beside the stdpp models: [OprfOps] (lookup and unlocking over the OPRF,
    modelled in [Shamir] and [OprfClient]) and [CloudKeys] (history over wrapped message keys,
    modelled in [CloudUnwrap]).  No instance connects the two sides; their laws are assumptions of
    the theorems that use them.  For code outside the workspace: [Hex], [Generator], [ChaCha],
    [MemLock], [Ed25519], [SframeCrypto], [PqBackend], [Rng], [IdBackend], [EnvelopeCrypto],
    [CloudCrypto], [Curve], [PinCrypto], [WebCodec], [Noise], [Base32], [OpenMls], [ClientMls],
    [SpqrCrypto], [FrostLib], [Hkdf], [Aead], [Inner], [XWingSeed], [Prost], [Tls], [Urls], [Web],
    [LookupCrypto], [IceLib], [SrtpLib], [Jitter], [ScalarField], [RowCrypto], [HwCrypto]; what a theorem needs of them is a class of laws named after them (decryption
    inverts encryption, a signature verifies, a handshake agrees, a digest has its length), and
    every theorem's witness instantiates them with concrete functions.

    ** What the theorems show

    - Merkle log: every honest proof verifies, every accepted proof is the honest one or
      exhibits a collision.  End to end: an owner who accepts its own entry and a peer who
      verifies an entry at the same index agree on keys and devices.
    - Account mirror and witnesses: a revoked device stays revoked, a device becomes active only
      through an approval by an active device or an allowed bootstrap, failed operations change
      nothing; threshold verification counts exactly the distinct signers, a witness never signs
      two heads.
    - Account: what a client publishes is always well formed and signed, whatever the hardware
      does; rotation and enrolment work from the hardware to the mirror of the log, rotation
      exactly when the MLS key store names the hardware key.
    - Chats: in a classical chat a client in step with the sender reads exactly the texts sent, in order; sealed
      texts reach every member with the sender named by the seal; the published history comes
      back; a group and its ratchet exist together and history numbers never repeat.  The same
      holds over the real wires: a QUIC stream cut anywhere or WebSocket frames.
    - Groups: network input keeps a group's policy, and it panics exactly where a panic of openmls
      is not caught, which depends on the build.  Keys: what is sealed to an X-Wing key opens, only under the same context; the two
      forms of the ratchet agree over any run; generated threshold keys sign exactly with
      enough different signers.
    - Media and calls: frames are delivered once along any run, the bitmap window refines the
      set of accepted counters; when the group rekeys in the middle of a call both sides derive
      one key, new frames open and late ones still do; calls of secret chats are always relayed, a session is
      connected only when keyed, packets arrive in order under mirrored keys.
    - Keys and envelopes: signatures of devices are certified along every run of the key store,
      revocation is final, the rotation seed is HKDF of both factors, sealed messages open.
    - Recovery: unwrapping finds the key among corrupt shares, the subset loop lists exactly the
      subsets, any three servers unlock an account, three wrong PINs in a row lock it, a
      recovery respects its time lock; server-side requests are accepted exactly under their
      conditions and a nonce once.
    - Discovery: lookups return the published key, intersections are exact, budgets hold while
      the clock does not step back.
    - Storage and transport: the encrypted table refines a map from ids to messages; the retry
      loop ends within its limit; the life of a session ends exactly at its first ending event;
      production TLS accepts exactly the pinned certificates; answers of services are read
      exactly, epochs are accepted over HTTP exactly when genuine, and a request to the sealed
      servers gives the first three valid shares in any order of answers.
    - Boundary: an application reaches only states of the client's own operations and reads
      exactly the decrypted messages; errors stay apart; an account created through the boundary
      unlocks from the stored state exactly with its PIN, and no result depends on session keys.
      A request sealed on a device is accepted by the server exactly under its policy.
    - Locked memory: secrets on pages of their own stay locked as long as they live and are wiped
      before they are unlocked; secrets that share a page do not.
    - Wire formats: every codec decodes what was encoded, accepts only encodings and never
      panics, or the exact panicking inputs are given.
    Theorems that record a defect of the code say so in their comments.

    ** Bounds and fuel

    Integers are [Z] with explicit ranges ([is_u8] ... [is_u64]); wrapping, saturating and
    checked operations are written out where the source uses them.  The two loops of the
    inclusion check that halve a [u64] get 64 rounds, the width of the index.  The subset loop
    has the source's own bound [MAX_RETRY_SUBSETS] and is proved to finish below it.  The retry
    loop gets one round more than its limit, proved enough.  The receive loop of the client gets
    fuel, and its theorems hold for every fuel above the number of frames the connection
    delivers.  The recursive tree hash is defined by well-founded recursion on the number of
    leaves; eviction loops run over the list they consume.  The parser of length-prefixed
    lists gets the length of its input, proved enough.  Loops that wait for the network run over
    the list of events the network gives.  Except for the receive loop no theorem is conditional
    on fuel.

    ** Not modelled

    Zeroizing and page locking are modelled in [Mlocked] only; the other models have no memory, and
    constant-time comparison is comparison.  Left out as input and output or as glue: the network
    libraries under the transports (their events and results are inputs), the native attestation
    providers, debugger detection, the SQL of the schema and its migrations, the generated Kotlin
    and Swift bindings, the vendored HPKE crate, the catalogue of external models, and test, fuzz
    and lint tooling.  Panics inside openmls are modelled in the path of network input only; its
    other calls return a result.  The operations of a component run one after the other:
    interleavings of concurrent calls within one operation are not modelled. *)

From stdpp Require Export base decidable countable list gmap strings.
From Stdlib Require Export ZArith Lia.
From Stdlib Require Import Strings.Byte.

Declare Scope umb_scope.
Delimit Scope umb_scope with umb.
Global Open Scope Z_scope.

(** ** Fallible Rust code

    [Ok] and [Err] are the two constructors of [core::result::Result];
    [Panic] is the abnormal exit of an out-of-range index, slice or failed
    [assert!].  Keeping [Panic] apart from [Err] lets the theorems say that a
    parser rejects an input instead of aborting on it. *)
Inductive res (E A : Type) : Type :=
| Ok (a : A)
| Err (e : E)
| Panic.
Arguments Ok {_ _} _.
Arguments Err {_ _} _.
Arguments Panic {_ _}.

Definition rbind {E A B} (m : res E A) (k : A -> res E B) : res E B :=
  match m with
  | Ok a => k a
  | Err e => Err e
  | Panic => Panic
  end.

(** [Result::map_err]. *)
Definition rmap_err {E F A} (f : E -> F) (m : res E A) : res F A :=
  match m with
  | Ok a => Ok a
  | Err e => Err (f e)
  | Panic => Panic
  end.

(** [Result::map]. *)
Definition rmap {E A B} (f : A -> B) (m : res E A) : res E B :=
  match m with
  | Ok a => Ok (f a)
  | Err e => Err e
  | Panic => Panic
  end.

(** [Option::ok_or]. *)
Definition ok_or {E A} (o : option A) (e : E) : res E A :=
  match o with Some a => Ok a | None => Err e end.

(** [if c { return Err(e) }; k]. *)
Definition rguard {E A} (c : bool) (e : E) (k : res E A) : res E A :=
  if c then Err e else k.

Notation "'let?' x ':=' m 'in' k" := (rbind m (fun x => k))
  (at level 10, x pattern, m at level 100, k at level 200)
  : umb_scope.
Notation "'reject' c 'with' e ';;' k" := (rguard c e k)
  (at level 10, c at level 99, e at level 99, k at level 200)
  : umb_scope.
Global Open Scope umb_scope.

Section res_lemmas.
Context {E A B : Type}.

Lemma Ok_inj (a b : A) : Ok (E := E) a = Ok b -> a = b.
Proof. by intros [= ->]. Qed.

Lemma rbind_Ok (m : res E A) (k : A -> res E B) b :
  rbind m k = Ok b <-> exists a, m = Ok a /\ k a = Ok b.
Proof. destruct m; simpl; naive_solver. Qed.

Lemma rbind_Panic (m : res E A) (k : A -> res E B) :
  rbind m k = Panic <-> m = Panic \/ exists a, m = Ok a /\ k a = Panic.
Proof. destruct m; simpl; naive_solver. Qed.

Lemma rguard_Ok c e (k : res E A) a :
  rguard c e k = Ok a <-> c = false /\ k = Ok a.
Proof. destruct c; simpl; naive_solver. Qed.

Lemma rguard_Panic c e (k : res E A) :
  rguard c e k = Panic <-> c = false /\ k = Panic.
Proof. destruct c; simpl; naive_solver. Qed.
End res_lemmas.

(** ** Stateful fallible code

    A method on [&mut self] that returns a [Result] is a function from the state
    to a result and the state left behind; the state after an [Err] is kept, since
    Rust does not roll back what was written before the early return. *)
Definition st (S E A : Type) : Type := S -> res E A * S.

Definition sbind {S E A B} (m : st S E A) (k : A -> st S E B) : st S E B :=
  fun s => match m s with
           | (Ok a, s') => k a s'
           | (Err e, s') => (Err e, s')
           | (Panic, s') => (Panic, s')
           end.
Definition sret {S E A} (a : A) : st S E A := fun s => (Ok a, s).
Definition slift {S E A} (r : res E A) : st S E A := fun s => (r, s).
Definition sget {S E} : st S E S := fun s => (Ok s, s).
Definition sput {S E} (s : S) : st S E unit := fun _ => (Ok tt, s).
Definition sguard {S E A} (c : bool) (e : E) (k : st S E A) : st S E A :=
  if c then slift (Err e) else k.

Notation "'let!' x ':=' m 'in' k" := (sbind m (fun x => k))
  (at level 10, x pattern, m at level 100, k at level 200)
  : umb_scope.
Notation "'fail_if' c 'with' e ';;' k" := (sguard c e k)
  (at level 10, c at level 99, e at level 99, k at level 200)
  : umb_scope.

Section st_lemmas.
Context {S E A B : Type}.

Lemma sbind_Ok (m : st S E A) (k : A -> st S E B) s b s' :
  sbind m k s = (Ok b, s') <-> exists a s1, m s = (Ok a, s1) /\ k a s1 = (Ok b, s').
Proof. unfold sbind. destruct (m s) as [[]]; naive_solver. Qed.

Lemma sbind_Err (m : st S E A) (k : A -> st S E B) s e s' :
  sbind m k s = (Err e, s') <->
    m s = (Err e, s') \/ exists a s1, m s = (Ok a, s1) /\ k a s1 = (Err e, s').
Proof. unfold sbind. destruct (m s) as [[]]; naive_solver. Qed.

Lemma sguard_Ok c e (k : st S E A) s a s' :
  sguard c e k s = (Ok a, s') <-> c = false /\ k s = (Ok a, s').
Proof. unfold sguard, slift. destruct c; naive_solver. Qed.

Lemma slift_Ok (r : res E A) (s : S) a s' : slift r s = (Ok a, s') <-> r = Ok a /\ s' = s.
Proof. unfold slift. naive_solver. Qed.

Lemma ok_or_Ok (o : option A) (e : E) a : ok_or o e = Ok a <-> o = Some a.
Proof. destruct o; naive_solver. Qed.
End st_lemmas.

(** ** Machine integers

    Unsigned integers are [Z] with their width written out where the code can
    leave the range: the release profile of the workspace has no overflow
    checks, so [+], [-] and [<<] wrap. *)
Definition U8_MAX : Z := 255.
Definition U16_MAX : Z := 65535.
Definition U32_MAX : Z := 4294967295.
Definition U64_MAX : Z := 18446744073709551615.

Definition is_u8 (z : Z) : Prop := 0 <= z <= U8_MAX.
Definition is_u16 (z : Z) : Prop := 0 <= z <= U16_MAX.
Definition is_u32 (z : Z) : Prop := 0 <= z <= U32_MAX.
Definition is_u64 (z : Z) : Prop := 0 <= z <= U64_MAX.

Definition wrap32 (z : Z) : Z := z mod 2 ^ 32.
Definition wrap64 (z : Z) : Z := z mod 2 ^ 64.

(** [u64::saturating_sub], [uN::saturating_add]. *)
Definition sat_sub (a b : Z) : Z := Z.max 0 (a - b).
Definition sat_add (maxv a b : Z) : Z := Z.min maxv (a + b).
Definition sat_mul (maxv a b : Z) : Z := Z.min maxv (a * b).

Lemma wrap64_id z : is_u64 z -> wrap64 z = z.
Proof. unfold is_u64, wrap64, U64_MAX. intros. apply Z.mod_small. lia. Qed.

Lemma wrap32_id z : is_u32 z -> wrap32 z = z.
Proof. unfold is_u32, wrap32, U32_MAX. intros. apply Z.mod_small. lia. Qed.

Lemma wrap64_range z : is_u64 (wrap64 z).
Proof.
  unfold is_u64, wrap64, U64_MAX.
  pose proof (Z.mod_pos_bound z (2 ^ 64)). lia.
Qed.

(** ** Bytes *)
Abbreviation byte := Byte.byte.

Definition u8 (b : byte) : Z := Z.of_N (Byte.to_N b).

(** [z as u8]. *)
Definition as_u8 (z : Z) : byte :=
  default Byte.x00 (Byte.of_N (Z.to_N (z mod 256))).

#[global] Instance byte_eq_dec : EqDecision byte := Byte.byte_eq_dec.

Lemma u8_range b : 0 <= u8 b < 256.
Proof. unfold u8. pose proof (Byte.to_N_bounded b). lia. Qed.

Lemma as_u8_u8 b : as_u8 (u8 b) = b.
Proof.
  unfold as_u8. rewrite Z.mod_small by apply u8_range.
  unfold u8. by rewrite N2Z.id, Byte.of_to_N.
Qed.

Lemma u8_as_u8 z : u8 (as_u8 z) = z mod 256.
Proof.
  unfold as_u8. pose proof (Z.mod_pos_bound z 256 ltac:(lia)) as Hr.
  destruct (Byte.of_N (Z.to_N (z mod 256))) as [b|] eqn:Hb; simpl.
  - unfold u8. apply Byte.to_of_N in Hb. rewrite Hb, Z2N.id; lia.
  - apply Byte.of_N_None_iff in Hb. lia.
Qed.

Lemma u8_inj b c : u8 b = u8 c -> b = c.
Proof. intros H. by rewrite <- (as_u8_u8 b), <- (as_u8_u8 c), H. Qed.

#[global] Instance u8_injective : Inj (=) (=) u8.
Proof. exact u8_inj. Qed.

#[global] Program Instance byte_countable : Countable byte :=
  inj_countable u8 (fun z => Some (as_u8 z)) _.
Next Obligation. intros b. simpl. by rewrite as_u8_u8. Qed.

(** Length of a byte slice as a [usize]. *)
Definition len {A} (l : list A) : Z := Z.of_nat (length l).

Lemma len_nonneg {A} (l : list A) : 0 <= len l.
Proof. unfold len. lia. Qed.
Lemma len_nil {A} : len (@nil A) = 0.
Proof. reflexivity. Qed.
Lemma len_cons {A} (x : A) l : len (x :: l) = 1 + len l.
Proof. unfold len. simpl. lia. Qed.
Lemma len_app {A} (l k : list A) : len (l ++ k) = len l + len k.
Proof. unfold len. rewrite length_app. lia. Qed.
Lemma len_replicate {A} n (x : A) : len (replicate n x) = Z.of_nat n.
Proof. unfold len. by rewrite length_replicate. Qed.
Lemma len_take {A} n (l : list A) : len (take n l) = Z.min (Z.of_nat n) (len l).
Proof. unfold len. rewrite length_take. lia. Qed.
Lemma len_drop {A} n (l : list A) : len (drop n l) = Z.max 0 (len l - Z.of_nat n).
Proof. unfold len. rewrite length_drop. lia. Qed.
Lemma len_fmap {A B} (f : A -> B) l : len (f <$> l) = len l.
Proof. unfold len. by rewrite length_fmap. Qed.
Lemma len_reverse {A} (l : list A) : len (reverse l) = len l.
Proof. unfold len. by rewrite length_reverse. Qed.
Lemma len_zero_nil {A} (l : list A) : len l = 0 -> l = [].
Proof. destruct l; [done|]. rewrite len_cons. pose proof (len_nonneg l). lia. Qed.

(** [retain] with a predicate that holds everywhere. *)
Lemma list_filter_all {A} (P : A -> Prop) `{!forall x, Decision (P x)} (l : list A) :
  Forall P l -> filter P l = l.
Proof. induction 1 as [|x l Hx _ IH]; [done|]. by rewrite filter_cons_True, IH. Qed.

(** [iter().find] over a concatenation. *)
Lemma find_app {A} (f : A -> bool) l k :
  List.find f (l ++ k) = match List.find f l with Some x => Some x | None => List.find f k end.
Proof. induction l as [|x l IH]; simpl; [done|]. by destruct (f x). Qed.

Create HintDb umb.
Create Rewrite HintDb umb_len.
#[export] Hint Rewrite @len_nil @len_cons @len_app @len_replicate @len_fmap
  @len_reverse @len_take @len_drop : umb_len.

(** Normalise lengths of concatenations, then linear arithmetic. *)
Ltac solve_len := autorewrite with umb_len in *; unfold len in *; lia.
Ltac len_lia := autorewrite with umb_len; lia.

(** Destruct the head of the result monad in a hypothesis. *)
Ltac res_step H :=
  first
    [ apply rbind_Ok in H; let x := fresh "x" in let Hx := fresh "Hx" in
      destruct H as (x & Hx & H)
    | apply rguard_Ok in H; let Hg := fresh "Hg" in destruct H as [Hg H] ].
Ltac res_inv H := repeat res_step H.

(** Destruct a successful run of a stateful method, head first. *)
Ltac st_step H :=
  first
    [ apply sbind_Ok in H; let x := fresh "x" in let s := fresh "s" in let Hx := fresh "Hx" in
      destruct H as (x & s & Hx & H)
    | apply sguard_Ok in H; let Hg := fresh "Hg" in destruct H as [Hg H]
    | apply slift_Ok in H; let Hr := fresh "Hr" in destruct H as [Hr ->] ].
Ltac st_inv H := repeat st_step H.

(** Turn boolean tests on [Z] into propositions. *)
Ltac zbool :=
  repeat match goal with
  | H : (_ =? _) = true |- _ => apply Z.eqb_eq in H
  | H : (_ =? _) = false |- _ => apply Z.eqb_neq in H
  | H : (_ <? _) = true |- _ => apply Z.ltb_lt in H
  | H : (_ <? _) = false |- _ => apply Z.ltb_ge in H
  | H : (_ <=? _) = true |- _ => apply Z.leb_le in H
  | H : (_ <=? _) = false |- _ => apply Z.leb_gt in H
  | H : negb _ = true |- _ => apply negb_true_iff in H
  | H : negb _ = false |- _ => apply negb_false_iff in H
  | H : _ && _ = true |- _ => apply andb_true_iff in H as [? ?]
  | H : _ || _ = false |- _ => apply orb_false_iff in H as [? ?]
  | H : bool_decide _ = true |- _ => apply bool_decide_eq_true_1 in H
  | H : bool_decide _ = false |- _ => apply bool_decide_eq_false_1 in H
  end.
