(* ===== verification/Bytes.v ===== *)
(** * Byte strings: big-endian integers, slices and cursors

    What the wire code of every crate uses of the language: [to_be_bytes],
    [from_be_bytes], indexing [bytes[i]], slicing [bytes[a..b]] and
    [copy_from_slice].  Indexing and slicing out of range panic. *)
From S2P Require Import Prelude.

(** ** Big-endian integers *)

(** [z.to_be_bytes()] for an [n]-byte unsigned integer. *)
Fixpoint to_be (n : nat) (z : Z) : list byte :=
  match n with
  | O => []
  | S n => as_u8 (z / 256 ^ Z.of_nat n) :: to_be n z
  end.

(** [uN::from_be_bytes(l)]. *)
Fixpoint from_be (l : list byte) : Z :=
  match l with
  | [] => 0
  | b :: l => u8 b * 256 ^ len l + from_be l
  end.

Lemma length_to_be n z : length (to_be n z) = n.
Proof. induction n; simpl; congruence. Qed.

Lemma len_to_be n z : len (to_be n z) = Z.of_nat n.
Proof. unfold len. by rewrite length_to_be. Qed.
#[export] Hint Rewrite len_to_be : umb_len.

Lemma pow256_pos n : 0 < 256 ^ Z.of_nat n.
Proof. apply Z.pow_pos_nonneg; lia. Qed.

Lemma pow256_S n : 256 ^ Z.of_nat (S n) = 256 * 256 ^ Z.of_nat n.
Proof. rewrite Nat2Z.inj_succ, Z.pow_succ_r; lia. Qed.

Lemma from_be_range l : 0 <= from_be l < 256 ^ len l.
Proof.
  induction l as [|b l IH]; [done|]. unfold len in *. cbn [length from_be].
  rewrite pow256_S. unfold len.
  pose proof (u8_range b). pose proof (pow256_pos (length l)). nia.
Qed.

Lemma from_be_to_be_mod n z : from_be (to_be n z) = z mod 256 ^ Z.of_nat n.
Proof.
  induction n as [|n IH]; [by rewrite Z.mod_1_r|].
  cbn [to_be from_be]. rewrite IH, u8_as_u8, len_to_be, pow256_S.
  pose proof (pow256_pos n).
  rewrite (Z.mul_comm 256), Z.rem_mul_r by lia. lia.
Qed.

Lemma from_be_to_be n z : 0 <= z < 256 ^ Z.of_nat n -> from_be (to_be n z) = z.
Proof. intros H. by rewrite from_be_to_be_mod, Z.mod_small. Qed.

Lemma to_be_add_high n a z :
  to_be n (a * 256 ^ Z.of_nat n + z) = to_be n z.
Proof.
  revert a z; induction n as [|n IH]; intros a z; [done|]. cbn [to_be].
  rewrite pow256_S, Z.mul_assoc. pose proof (pow256_pos n). f_equal.
  - rewrite Z.div_add_l by lia. apply u8_inj. rewrite !u8_as_u8.
    by rewrite Z.add_comm, Z.mod_add.
  - apply IH.
Qed.

Lemma to_be_from_be l : to_be (length l) (from_be l) = l.
Proof.
  induction l as [|b l IH]; [done|]. cbn [length to_be from_be]. unfold len. f_equal.
  - pose proof (from_be_range l) as Hr. unfold len in Hr.
    rewrite Z.div_add_l, (Z.div_small (from_be l)) by lia.
    by rewrite Z.add_0_r, as_u8_u8.
  - by rewrite to_be_add_high.
Qed.

Lemma to_be_from_be_n n l : len l = Z.of_nat n -> to_be n (from_be l) = l.
Proof. intros H. replace n with (length l) by (unfold len in H; lia). apply to_be_from_be. Qed.

Lemma from_be_inj l k : len l = len k -> from_be l = from_be k -> l = k.
Proof.
  intros Hl He. rewrite <- (to_be_from_be l), <- (to_be_from_be k), He.
  f_equal. unfold len in Hl. lia.
Qed.

Lemma to_be_inj n a b :
  0 <= a < 256 ^ Z.of_nat n -> 0 <= b < 256 ^ Z.of_nat n ->
  to_be n a = to_be n b -> a = b.
Proof. intros Ha Hb H. by rewrite <- (from_be_to_be n a), H, from_be_to_be. Qed.

Lemma from_be_singleton b : from_be [b] = u8 b.
Proof. unfold from_be, len. simpl. lia. Qed.

(** The accumulating loop [v = (v << 8) | b] reads a big-endian integer. *)
Lemma from_be_app l k : from_be (l ++ k) = from_be l * 256 ^ len k + from_be k.
Proof.
  induction l as [|b l IH]; [done|]. cbn [app from_be].
  rewrite IH, len_app, Z.pow_add_r, Z.mul_assoc by apply len_nonneg. lia.
Qed.

(** [u64] and [u32] instances. *)
Lemma from_be_to_be_u64 z : is_u64 z -> from_be (to_be 8 z) = z.
Proof. intros H. apply from_be_to_be. unfold is_u64, U64_MAX in H. change (256 ^ Z.of_nat 8) with (2^64). lia. Qed.
Lemma to_be_u64_inj a b : is_u64 a -> is_u64 b -> to_be 8 a = to_be 8 b -> a = b.
Proof. intros Ha Hb Heq. by rewrite <- (from_be_to_be_u64 a), Heq, from_be_to_be_u64. Qed.
Lemma from_be_to_be_u32 z : is_u32 z -> from_be (to_be 4 z) = z.
Proof. intros H. apply from_be_to_be. unfold is_u32, U32_MAX in H. change (256 ^ Z.of_nat 4) with (2^32). lia. Qed.
Lemma from_be_to_be_u16 z : is_u16 z -> from_be (to_be 2 z) = z.
Proof. intros H. apply from_be_to_be. unfold is_u16, U16_MAX in H. change (256 ^ Z.of_nat 2) with (2^16). lia. Qed.

Lemma from_be_u64 l : len l = 8 -> is_u64 (from_be l).
Proof. intros H. pose proof (from_be_range l) as Hr. rewrite H in Hr. unfold is_u64, U64_MAX. change (256 ^ 8) with (2^64) in Hr. lia. Qed.
Lemma from_be_u32 l : len l = 4 -> is_u32 (from_be l).
Proof. intros H. pose proof (from_be_range l) as Hr. rewrite H in Hr. unfold is_u32, U32_MAX. change (256 ^ 4) with (2^32) in Hr. lia. Qed.
Lemma from_be_u16 l : len l = 2 -> is_u16 (from_be l).
Proof. intros H. pose proof (from_be_range l) as Hr. rewrite H in Hr. unfold is_u16, U16_MAX. change (256 ^ 2) with (2^16) in Hr. lia. Qed.

(** The exclusive or of two bytes is a byte. *)
Lemma lxor_u8_range x y : 0 <= Z.lxor (u8 x) (u8 y) < 256.
Proof.
  pose proof (u8_range x). pose proof (u8_range y). assert (0 <= Z.lxor (u8 x) (u8 y)) by (apply Z.lxor_nonneg; lia). split; [done|].
  destruct (Z.eq_dec (Z.lxor (u8 x) (u8 y)) 0) as [->|]; [lia|]. change 256 with (2 ^ 8). apply Z.log2_lt_pow2; [lia|].
  eapply Z.le_lt_trans; [apply Z.log2_lxor; lia|]. apply Z.max_lub_lt.
  - destruct (Z.eq_dec (u8 x) 0) as [->|]; [simpl; lia|]. apply Z.log2_lt_pow2; lia.
  - destruct (Z.eq_dec (u8 y) 0) as [->|]; [simpl; lia|]. apply Z.log2_lt_pow2; lia.
Qed.

(** A byte-string literal [b"..."]. *)
Definition bytes_of_string (s : string) : list byte := String.list_byte_of_string s.

(** ** Indexing and slicing *)
Section slices.
Context {E : Type}.

(** [l[i]] *)
Definition index (i : Z) (l : list byte) : res E byte :=
  if (0 <=? i) then match l !! Z.to_nat i with Some b => Ok b | None => Panic end
  else Panic.

(** [l[a..b]] *)
Definition slice {A} (a b : Z) (l : list A) : res E (list A) :=
  if (0 <=? a) && (a <=? b) && (b <=? len l)
  then Ok (take (Z.to_nat (b - a)) (drop (Z.to_nat a) l))
  else Panic.

(** [l[a..]] *)
Definition slice_from {A} (a : Z) (l : list A) : res E (list A) := slice a (len l) l.

Lemma slice_in_range {A} a b (l : list A) :
  0 <= a <= b -> b <= len l ->
  slice a b l = Ok (take (Z.to_nat (b - a)) (drop (Z.to_nat a) l)).
Proof. intros. unfold slice. repeat (rewrite (proj2 (Z.leb_le _ _)) by lia). done. Qed.

Lemma slice_Ok_inv {A} a b (l : list A) x :
  slice a b l = Ok x ->
  0 <= a <= b /\ b <= len l /\ len x = b - a /\
  x = take (Z.to_nat (b - a)) (drop (Z.to_nat a) l).
Proof.
  unfold slice. destruct (_ && _) eqn:Hc; [|done]. zbool. intros [= <-].
  repeat split; try lia. autorewrite with umb_len. lia.
Qed.

Lemma slice_not_Err {A} a b (l : list A) e : slice a b l <> Err e.
Proof. unfold slice. by destruct (_ && _). Qed.

Lemma slice_ok_len {A} a b (l : list A) x : slice a b l = Ok x -> len x = b - a.
Proof. intros H. apply slice_Ok_inv in H. tauto. Qed.

Lemma slice_hit {A} a b (x y : list A) : a = 0 -> b = len x -> slice a b (x ++ y) = Ok x.
Proof.
  intros -> ->. rewrite slice_in_range by (pose proof (len_nonneg y); pose proof (len_nonneg x); solve_len).
  f_equal. simpl. unfold len. rewrite drop_0, Z.sub_0_r, Nat2Z.id. by rewrite take_app_length.
Qed.

Lemma slice_skip {A} n a b (x y : list A) :
  len x = n -> n <= a -> slice a b (x ++ y) = slice (a - n) (b - n) y.
Proof.
  intros <- Ha. unfold slice. rewrite len_app. pose proof (len_nonneg x).
  replace (a - len x <=? b - len x) with (a <=? b) by (apply Bool.eq_true_iff_eq; rewrite !Z.leb_le; lia).
  replace (b - len x <=? len y) with (b <=? len x + len y) by (apply Bool.eq_true_iff_eq; rewrite !Z.leb_le; lia).
  replace (0 <=? a) with true by (symmetry; apply Z.leb_le; lia).
  replace (0 <=? a - len x) with true by (symmetry; apply Z.leb_le; lia). simpl.
  destruct (_ && _); [|done]. f_equal. f_equal; [f_equal; lia|].
  replace (Z.to_nat a) with (length x + Z.to_nat (a - len x))%nat by (unfold len in *; lia).
  by rewrite drop_app_add.
Qed.

Lemma slice_skip_len {A} a b (x y : list A) :
  len x <= a -> slice a b (x ++ y) = slice (a - len x) (b - len x) y.
Proof. by apply slice_skip. Qed.

Lemma slice_skip_cons {A} a b (x : A) y :
  1 <= a -> slice a b (x :: y) = slice (a - 1) (b - 1) y.
Proof. intros. change (x :: y) with ([x] ++ y). by rewrite (slice_skip 1). Qed.

Lemma slice_all {A} (l : list A) : slice 0 (len l) l = Ok l.
Proof. rewrite <- (app_nil_r l) at 2. by apply slice_hit. Qed.

Lemma slice_full {A} a b (l : list A) : a = 0 -> b = len l -> slice a b l = Ok l.
Proof. intros -> ->. apply slice_all. Qed.

(** Consecutive slices concatenate. *)
Lemma slice_glue {A} a b c (l : list A) x y :
  slice a b l = Ok x -> slice b c l = Ok y -> slice a c l = Ok (x ++ y).
Proof.
  intros Hx Hy. apply slice_Ok_inv in Hx as (Ha & Hb & _ & ->).
  apply slice_Ok_inv in Hy as (Hb' & Hc & _ & ->).
  rewrite slice_in_range by lia. f_equal.
  replace (Z.to_nat (c - a)) with (Z.to_nat (b - a) + Z.to_nat (c - b))%nat by lia.
  rewrite <- take_take_drop, drop_drop. do 3 f_equal. lia.
Qed.

Lemma index_0 b l : index 0 (b :: l) = Ok b.
Proof. done. Qed.

Lemma index_skip n a (x y : list byte) :
  len x = n -> n <= a -> index a (x ++ y) = index (a - n) y.
Proof.
  intros <- Ha. unfold index. pose proof (len_nonneg x).
  rewrite !(proj2 (Z.leb_le _ _)) by lia.
  rewrite lookup_app_r by (unfold len in *; lia).
  by replace (Z.to_nat (a - len x)) with (Z.to_nat a - length x)%nat by (unfold len in *; lia).
Qed.

Lemma index_skip_len a (x y : list byte) :
  len x <= a -> index a (x ++ y) = index (a - len x) y.
Proof. by apply index_skip. Qed.

Lemma index_hit i b (y : list byte) : i = 0 -> index i ([b] ++ y) = Ok b.
Proof. by intros ->. Qed.

Lemma index_in_range i l : 0 <= i < len l -> exists b, index i l = Ok b.
Proof.
  intros Hi. unfold index. rewrite (proj2 (Z.leb_le _ _)) by lia.
  destruct (lookup_lt_is_Some_2 l (Z.to_nat i)) as [b ->]; [unfold len in *; lia|eauto].
Qed.

Lemma index_Ok_slice i l b : index i l = Ok b -> slice i (i + 1) l = Ok [b].
Proof.
  unfold index. destruct (0 <=? i) eqn:Hi; [|done]. zbool.
  destruct (l !! Z.to_nat i) as [c|] eqn:Hl; [|done]. intros [= ->].
  pose proof (lookup_lt_Some _ _ _ Hl).
  rewrite slice_in_range by (unfold len; lia). f_equal.
  replace (Z.to_nat (i + 1 - i)) with 1%nat by lia.
  by rewrite (drop_S _ _ _ Hl).
Qed.

Lemma index_not_Err i l e : index i l <> Err e.
Proof. unfold index. destruct (0 <=? i); [|done]. by destruct (_ !! _). Qed.

(** [dst[a..b].copy_from_slice(src)] *)
Definition copy_into (a b : Z) (src dst : list byte) : res E (list byte) :=
  if (0 <=? a) && (a <=? b) && (b <=? len dst) && (len src =? b - a)
  then Ok (take (Z.to_nat a) dst ++ src ++ drop (Z.to_nat b) dst)
  else Panic.

Lemma copy_into_in_range a b src dst :
  0 <= a <= b -> b <= len dst -> len src = b - a ->
  copy_into a b src dst = Ok (take (Z.to_nat a) dst ++ src ++ drop (Z.to_nat b) dst).
Proof.
  intros. unfold copy_into. rewrite (proj2 (Z.eqb_eq _ _)) by lia.
  repeat (rewrite (proj2 (Z.leb_le _ _)) by lia). done.
Qed.

Lemma slice_no_panic {A} a b (l : list A) :
  0 <= a <= b -> b <= len l -> exists x, slice a b l = Ok x.
Proof. intros. rewrite slice_in_range by lia. eauto. Qed.

Lemma slice_Panic_range {A} a b (l : list A) :
  slice a b l = Panic -> 0 <= a <= b -> b <= len l -> False.
Proof. intros H Ha Hb. rewrite slice_in_range in H; done. Qed.

Lemma rbind_slice_Panic {A B} a b (l : list A) (k : list A -> res E B) :
  rbind (slice a b l) k = Panic -> 0 <= a <= b -> b <= len l ->
  exists x, slice a b l = Ok x /\ len x = b - a /\ k x = Panic.
Proof.
  intros H Ha Hb. destruct (slice_no_panic a b l) as [x Hx]; [done|done|].
  rewrite Hx in H. exists x. split; [done|]. split; [by eapply slice_ok_len|done].
Qed.

Lemma rbind_index_Panic {B} i l (k : byte -> res E B) :
  rbind (index i l) k = Panic -> 0 <= i < len l ->
  exists b, index i l = Ok b /\ k b = Panic.
Proof.
  intros H Hi. destruct (index_in_range i l) as [b Hb]; [done|].
  rewrite Hb in H. eauto.
Qed.
End slices.

(** One step of a proof that a parser does not panic: push the hypothesis
    [m = Panic] through guards, in-range slices and in-range indices. *)
Ltac no_panic_step H :=
  first
    [ apply rguard_Panic in H; let Hg := fresh "Hg" in destruct H as [Hg H]; zbool
    | apply rbind_slice_Panic in H; [|lia|lia];
      let x := fresh "x" in let Hx := fresh "Hx" in let Hl := fresh "Hl" in
      destruct H as (x & Hx & Hl & H);
      pose proof (from_be_range x)
    | apply rbind_index_Panic in H; [|lia];
      let b := fresh "b" in let Hb := fresh "Hb" in
      destruct H as (b & Hb & H);
      pose proof (u8_range b)
    | solve [exfalso; apply slice_Panic_range in H; lia]
    | discriminate H ].
Ltac no_panic H := repeat (cbn zeta in H; no_panic_step H).

(** Find a field of a concatenation: skip the fields before it, then take it. *)
Ltac slice_find :=
  first
    [ apply slice_hit; len_lia
    | apply slice_full; len_lia
    | rewrite slice_skip_len by len_lia; slice_find ].
Ltac index_find :=
  first
    [ apply index_hit; len_lia
    | rewrite index_skip_len by len_lia; index_find ].
Arguments index : simpl never.
Arguments slice : simpl never.
Arguments copy_into : simpl never.

(** ** Canonical wire codecs

    What a wire format promises: decoding inverts encoding on well-formed values,
    every accepted byte string is the encoding of the well-formed value it decodes
    to, and no byte string makes the decoder panic. *)
Class Codec (E A : Type) := {
  enc : A -> list byte;
  dec : list byte -> res E A;
  wf : A -> Prop;
  dec_enc : forall a, wf a -> dec (enc a) = Ok a;
  enc_dec : forall b a, dec b = Ok a -> enc a = b /\ wf a;
  dec_total : forall b, dec b <> Panic
}.

Lemma enc_inj `{Codec E A} a1 a2 : wf a1 -> wf a2 -> enc a1 = enc a2 -> a1 = a2.
Proof. intros H1 H2 He. apply dec_enc in H1, H2. rewrite He in H1. congruence. Qed.

(** Splitting equal concatenations whose heads have one length. *)
Lemma app_inj_len {A} (x1 x2 y1 y2 : list A) : len x1 = len x2 -> x1 ++ y1 = x2 ++ y2 -> x1 = x2 /\ y1 = y2.
Proof. intros Hl. apply app_inj_1. unfold len in Hl. lia. Qed.
(** Peel the leading field off both sides of an equation between concatenations. *)
Ltac peel H E := apply app_inj_len in H as [E H]; [|rewrite ?len_to_be; solve [done | congruence | lia]].

(** Reading the next field while decoding an encoded value. *)
Ltac rd_slice x :=
  match goal with |- rbind ?m _ = _ =>
    let Hs := fresh in assert (Hs : m = Ok x) by slice_find; rewrite Hs; clear Hs end; cbn [rbind].
Ltac rd_index x :=
  match goal with |- rbind ?m _ = _ =>
    let Hs := fresh in assert (Hs : m = Ok x) by index_find; rewrite Hs; clear Hs end; cbn [rbind].

(** Inverting a successful read: the slice of the input and its length. *)
Ltac inv_slice H x S L :=
  apply rbind_Ok in H as (x & S & H); pose proof (slice_ok_len _ _ _ _ S) as L.
Ltac inv_index H x S :=
  apply rbind_Ok in H as (x & S & H); apply index_Ok_slice in S.

(** The whole input is the concatenation of the consecutive slices read from it. *)
Ltac glue_slices :=
  repeat first [eassumption | eapply slice_glue; [eassumption|]].

Lemma slices_cover {E A} n (b x : list A) :
  slice (E := E) 0 n b = Ok x -> n = len b -> x = b.
Proof. intros Hs ->. rewrite slice_all in Hs. by injection Hs. Qed.
