(* ===== verification/Padding.v ===== *)
(** * Bucketed padding ([crates/umbrella-padding/src/lib.rs])

    A payload is framed as [len (4 bytes, big endian) || payload || zeros] and
    the frame has one of seven sizes.  The model follows the source: the output
    buffer is a zero vector that is overwritten, the strip function checks the
    size, the declared length and the zero tail, in that order. *)
From S2P Require Import Prelude Bytes.

Module Padding.

(** ** Data *)
Definition LENGTH_HEADER_LEN : Z := 4.
Definition BUCKETS : list Z :=
  [256; 1024; 4096; 16384; 65536; 262144; 1048576].
Definition MAX_BUCKET : Z := 1048576.
Definition MAX_PAYLOAD : Z := MAX_BUCKET - LENGTH_HEADER_LEN.

Inductive PaddingError :=
| PayloadTooLarge (payload_len max : Z)
| InvalidBucketSize (actual : Z)
| LengthPrefixExceedsBucket (declared bucket_max : Z)
| NonZeroPadding
| MalformedTooShort (actual minimum : Z).

(** ** Operations *)

(** [checked_add] on [usize] (64 bits), then the first bucket that fits. *)
Definition chosen_bucket (payload_len : Z) : option Z :=
  let needed := payload_len + LENGTH_HEADER_LEN in
  if U64_MAX <? needed then None
  else List.find (fun b => needed <=? b) BUCKETS.

Definition pad_to_bucket (payload : list byte) : res PaddingError (list byte) :=
  let? bucket := ok_or (chosen_bucket (len payload))
                       (PayloadTooLarge (len payload) MAX_PAYLOAD) in
  let out := replicate (Z.to_nat bucket) Byte.x00 in
  let len_be := to_be 4 (wrap32 (len payload)) in
  let? out := copy_into 0 LENGTH_HEADER_LEN len_be out in
  copy_into LENGTH_HEADER_LEN (LENGTH_HEADER_LEN + len payload) payload out.

(** [padded[payload_end..].iter().fold(0u8, |acc, &b| acc | b)] *)
Definition or_reduce (l : list byte) : Z :=
  fold_left (fun acc b => Z.lor acc (u8 b)) l 0.

Definition strip_padding (padded : list byte) : res PaddingError (list byte) :=
  reject len padded <? LENGTH_HEADER_LEN
    with MalformedTooShort (len padded) LENGTH_HEADER_LEN ;;
  reject negb (bool_decide (len padded ∈ BUCKETS))
    with InvalidBucketSize (len padded) ;;
  let? len_bytes := slice 0 LENGTH_HEADER_LEN padded in
  let declared := from_be len_bytes in
  let bucket_max := len padded - LENGTH_HEADER_LEN in
  reject bucket_max <? declared with LengthPrefixExceedsBucket declared bucket_max ;;
  let payload_end := LENGTH_HEADER_LEN + declared in
  let? tail := slice_from payload_end padded in
  reject negb (or_reduce tail =? 0) with NonZeroPadding ;;
  slice LENGTH_HEADER_LEN payload_end padded.

(** ** Specification

    The frames the format allows for a payload: any bucket that fits. *)
Definition zeros (n : Z) : list byte := replicate (Z.to_nat n) Byte.x00.

Definition frame (bucket : Z) (payload : list byte) : list byte :=
  to_be 4 (len payload) ++ payload ++ zeros (bucket - LENGTH_HEADER_LEN - len payload).

(** ** Lemmas *)
Lemma or_reduce_acc acc l :
  0 <= acc ->
  fold_left (fun acc b => Z.lor acc (u8 b)) l acc = 0 <->
  acc = 0 /\ Forall (eq Byte.x00) l.
Proof.
  revert acc. induction l as [|b l IH]; intros acc Hacc; simpl.
  - split; [intros ->; auto|tauto].
  - pose proof (u8_range b). rewrite IH by (apply Z.lor_nonneg; lia).
    rewrite Z.lor_eq_0_iff, Forall_cons. split.
    + intros [[-> Hb] Hl]. repeat split; auto. by apply u8_inj.
    + intros [-> [<- Hl]]. auto.
Qed.

Lemma or_reduce_zero l : or_reduce l = 0 <-> l = replicate (length l) Byte.x00.
Proof.
  unfold or_reduce. rewrite or_reduce_acc by lia. split.
  - intros [_ Hl]. symmetry. by apply replicate_as_Forall_2.
  - intros ->. split; [done|]. by apply Forall_replicate.
Qed.

Lemma chosen_bucket_Some n b :
  0 <= n -> chosen_bucket n = Some b ->
  b ∈ BUCKETS /\ n + LENGTH_HEADER_LEN <= b.
Proof.
  unfold chosen_bucket. intros Hn. case_match; [done|]. intros Hf.
  apply List.find_some in Hf as [Hin Hle]. zbool.
  split; [by apply list_elem_of_In|lia].
Qed.

Lemma chosen_bucket_least n b b' :
  chosen_bucket n = Some b -> b' ∈ BUCKETS -> n + LENGTH_HEADER_LEN <= b' -> b <= b'.
Proof.
  unfold chosen_bucket, BUCKETS. case_match; [done|]. cbn [List.find].
  rewrite !elem_of_cons, elem_of_nil. intros Hf Hin Hle.
  repeat (case_match; zbool; [simplify_eq; lia|]). done.
Qed.

Lemma chosen_bucket_None n :
  0 <= n -> chosen_bucket n = None <-> MAX_PAYLOAD < n.
Proof.
  intros Hn. unfold chosen_bucket, BUCKETS, MAX_PAYLOAD, MAX_BUCKET, LENGTH_HEADER_LEN, U64_MAX.
  case_match; zbool; [split; [lia|done]|]. cbn [List.find].
  repeat (case_match; zbool; [split; [done|lia]|]). split; [lia|done].
Qed.

Lemma buckets_bounds b : b ∈ BUCKETS -> 256 <= b <= MAX_BUCKET.
Proof. unfold BUCKETS, MAX_BUCKET. rewrite !elem_of_cons, elem_of_nil. lia. Qed.

Lemma len_zeros n : 0 <= n -> len (zeros n) = n.
Proof. intros. unfold zeros. rewrite len_replicate. lia. Qed.

Lemma len_frame b p :
  len p + LENGTH_HEADER_LEN <= b -> len (frame b p) = b.
Proof.
  unfold LENGTH_HEADER_LEN. intros. unfold frame, LENGTH_HEADER_LEN.
  rewrite !len_app, len_to_be, len_zeros; lia.
Qed.

(** Overwriting the zero buffer builds the frame. *)
Lemma pad_to_bucket_frame p b :
  chosen_bucket (len p) = Some b -> pad_to_bucket p = Ok (frame b p).
Proof.
  intros Hb. pose proof (len_nonneg p) as Hp.
  destruct (chosen_bucket_Some _ _ Hp Hb) as [Hin Hfit].
  pose proof (buckets_bounds _ Hin). unfold LENGTH_HEADER_LEN, MAX_BUCKET in *.
  unfold pad_to_bucket. rewrite Hb. cbn [ok_or rbind].
  rewrite wrap32_id by (unfold is_u32, U32_MAX; lia).
  unfold LENGTH_HEADER_LEN.
  rewrite copy_into_in_range by (rewrite ?len_replicate, ?len_to_be; lia). cbn [rbind].
  rewrite copy_into_in_range
    by (rewrite ?len_app, ?len_to_be, ?len_take, ?len_drop, ?len_replicate; lia).
  f_equal. unfold frame, zeros, LENGTH_HEADER_LEN. cbn [take app].
  change (Z.to_nat 0) with 0%nat. rewrite take_0, app_nil_l.
  rewrite take_app_length' by (rewrite length_to_be; lia).
  do 2 f_equal. rewrite drop_app_ge by (rewrite length_to_be; lia).
  rewrite length_to_be, drop_replicate, drop_replicate. f_equal. lia.
Qed.

Lemma strip_padding_frame p b :
  b ∈ BUCKETS -> len p + LENGTH_HEADER_LEN <= b -> strip_padding (frame b p) = Ok p.
Proof.
  intros Hin Hfit. pose proof (buckets_bounds _ Hin). pose proof (len_nonneg p).
  unfold strip_padding. rewrite len_frame by done.
  unfold LENGTH_HEADER_LEN, MAX_BUCKET in *.
  rewrite (proj2 (Z.ltb_ge _ _)) by lia. cbn [rguard].
  rewrite bool_decide_true by done. cbn [rguard negb]. unfold frame.
  rewrite slice_hit by len_lia. cbn [rbind].
  rewrite from_be_to_be_u32 by (unfold is_u32, U32_MAX; lia).
  rewrite (proj2 (Z.ltb_ge _ _)) by lia. cbn [rguard].
  unfold slice_from. rewrite !len_app, len_to_be, len_zeros by (unfold LENGTH_HEADER_LEN; lia).
  rewrite (slice_skip 4) by (rewrite ?len_to_be; lia).
  rewrite (slice_skip (len p)) by lia.
  rewrite slice_full by (rewrite ?len_zeros; unfold LENGTH_HEADER_LEN; lia). cbn [rbind].
  replace (or_reduce _ =? 0) with true; cbn [rguard negb].
  - rewrite (slice_skip 4) by (rewrite ?len_to_be; lia). apply slice_hit; lia.
  - symmetry. apply Z.eqb_eq, or_reduce_zero. unfold zeros. by rewrite length_replicate.
Qed.

Lemma strip_padding_Ok_inv l p :
  strip_padding l = Ok p ->
  len l ∈ BUCKETS /\ len p + LENGTH_HEADER_LEN <= len l /\ l = frame (len l) p.
Proof.
  unfold strip_padding, LENGTH_HEADER_LEN, slice_from. intros H. res_inv H. zbool.
  pose proof (slice_ok_len _ _ _ _ Hx) as Hl4. pose proof (slice_ok_len _ _ _ _ H) as Hp.
  pose proof (slice_ok_len _ _ _ _ Hx0) as Ht.
  split; [done|]. split; [lia|].
  pose proof (slice_glue _ _ _ _ _ _ (slice_glue _ _ _ _ _ _ Hx H) Hx0) as Hall.
  rewrite slice_all in Hall. injection Hall as Hall.
  rewrite Hall at 1. unfold frame, LENGTH_HEADER_LEN.
  replace (len p) with (from_be x) by lia.
  rewrite (to_be_from_be_n 4) by lia. rewrite <- app_assoc. do 2 f_equal.
  apply or_reduce_zero in Hg2. rewrite Hg2. unfold zeros. f_equal.
  unfold len in *. lia.
Qed.

(** ** Theorems *)

(** Round trip: a payload of at most [MAX_PAYLOAD] bytes is padded
    successfully and [strip_padding] returns exactly that payload. *)
Theorem pad_strip_roundtrip (p : list byte) (H : len p <= MAX_PAYLOAD) :
  exists f, pad_to_bucket p = Ok f /\ strip_padding f = Ok p.
Proof.
  pose proof (len_nonneg p) as Hp.
  destruct (chosen_bucket (len p)) as [b|] eqn:Hb.
  - exists (frame b p). split; [by apply pad_to_bucket_frame|].
    apply chosen_bucket_Some in Hb as [Hin Hfit]; [|done]. by apply strip_padding_frame.
  - apply chosen_bucket_None in Hb; lia.
Qed.

Lemma pad_strip_roundtrip_witness :
  len [Byte.x68; Byte.x69] <= MAX_PAYLOAD /\
  exists f, pad_to_bucket [Byte.x68; Byte.x69] = Ok f /\
            strip_padding f = Ok [Byte.x68; Byte.x69].
Proof.
  assert (H : len [Byte.x68; Byte.x69] <= MAX_PAYLOAD) by (vm_compute; discriminate).
  exact (conj H (pad_strip_roundtrip _ H)).
Defined.

(** Size hiding and errors of [pad_to_bucket]: it fails with
    [PayloadTooLarge] exactly above [MAX_PAYLOAD]; otherwise the output has the
    size of the least bucket that holds the payload and its four-byte header,
    so the size reveals the bucket and nothing else. *)
Theorem pad_to_bucket_size (p : list byte) :
  match pad_to_bucket p with
  | Ok f => len p <= MAX_PAYLOAD /\ len f ∈ BUCKETS /\ len p + LENGTH_HEADER_LEN <= len f /\
            (forall b, b ∈ BUCKETS -> len p + LENGTH_HEADER_LEN <= b -> len f <= b)
  | Err e => MAX_PAYLOAD < len p /\ e = PayloadTooLarge (len p) MAX_PAYLOAD
  | Panic => False
  end.
Proof.
  pose proof (len_nonneg p) as Hp. destruct (chosen_bucket (len p)) as [b|] eqn:Hb.
  - rewrite (pad_to_bucket_frame _ _ Hb).
    destruct (chosen_bucket_Some _ _ Hp Hb) as [Hin Hfit]. rewrite len_frame by done.
    pose proof (buckets_bounds _ Hin). repeat split; auto.
    + unfold MAX_PAYLOAD. lia.
    + intros b' Hb' Hle. by eapply chosen_bucket_least.
  - unfold pad_to_bucket. rewrite Hb. simpl. split; [|done]. by apply chosen_bucket_None.
Qed.

Lemma strip_padding_total (l : list byte) : strip_padding l <> Panic.
Proof.
  unfold strip_padding, slice_from, LENGTH_HEADER_LEN. intros H. no_panic H.
Qed.

(** Exact acceptance of [strip_padding]: it returns [p] if and only if the
    blob has a bucket size, holds the header and [p], and is the big-endian
    length, [p] and zeros; every other blob is refused with an error, never by a
    panic. *)
Theorem strip_padding_accepts (l p : list byte) :
  (strip_padding l = Ok p <->
   len l ∈ BUCKETS /\ len p + LENGTH_HEADER_LEN <= len l /\ l = frame (len l) p) /\
  strip_padding l <> Panic.
Proof.
  split; [|apply strip_padding_total]. split; [apply strip_padding_Ok_inv|]. intros (Hin & Hfit & Hl).
  rewrite Hl. by apply strip_padding_frame.
Qed.

End Padding.
