(* ===== verification/Crypto.v ===== *)
(** * Cryptographic primitives the components call

    The signature scheme and the hash function of [umbrella-crypto-primitives] wrap
    external crates (ed25519-dalek, sha2); they are parameters of the model. *)
From S2P Require Import Prelude Bytes.

(** [PublicVerifyingKey::from_bytes(pk).is_ok()] and
    [vk.verify(message, signature).is_ok()]. *)
Class Ed25519 := {
  vk_valid : list byte -> bool;
  ed_verify : list byte -> list byte -> list byte -> bool   (* key, message, signature *)
}.

Definition PUBLIC_KEY_LEN : Z := 32.
Definition SIGNATURE_LEN : Z := 64.

(** Both steps of a verification from raw bytes. *)
Definition sig_ok `{Ed25519} (pk msg sig : list byte) : bool :=
  vk_valid pk && ed_verify pk msg sig.

(** A toy scheme for the witnesses: the signature of a message under a key is the
    key followed by the last 32 bytes of the message. *)
Definition toy_ed25519 : Ed25519 := {|
  vk_valid pk := len pk =? 32;
  ed_verify pk msg sig := bool_decide (sig = pk ++ drop (length msg - 32) msg)
|}.
