(* ===== verification/Pq.v ===== *)
(** * Post-quantum primitives ([crates/umbrella-pq/src/])

    The byte-level logic of the crate: length-checked keys, ciphertexts and signatures, X-Wing
    key generation, encapsulation with a fresh or a hedged seed and decapsulation, ML-KEM-768,
    ML-DSA-65, SLH-DSA verification and the hybrid Ed25519 + ML-DSA signature.  The backends
    (libcrux, fips205, ed25519-dalek, hkdf, sha2) are the class [PqBackend]; what the crate
    relies on of them is the class [PqBackendLaws].  A random generator is a state with the
    operation [fill_bytes]. *)
From S2P Require Import Prelude Bytes Crypto.
From stdpp Require Import pretty.
Local Open Scope string_scope.
Local Open Scope list_scope.
Local Open Scope Z_scope.

Module Pq.

(** ** Sizes and errors ([constants.rs], [error.rs]) *)
Definition ML_KEM_768_PUBLIC_KEY_LEN : Z := 1184.
Definition ML_KEM_768_SECRET_KEY_LEN : Z := 2400.
Definition ML_KEM_768_CIPHERTEXT_LEN : Z := 1088.
Definition ML_KEM_768_SHARED_SECRET_LEN : Z := 32.
Definition ML_KEM_768_KEYGEN_SEED_LEN : Z := 64.
Definition ML_KEM_768_ENCAPS_SEED_LEN : Z := 32.
Definition XWING_PUBLIC_KEY_LEN : Z := 1216.
Definition XWING_SECRET_SEED_LEN : Z := 32.
Definition XWING_CIPHERTEXT_LEN : Z := 1120.
Definition XWING_SHARED_SECRET_LEN : Z := 32.
Definition XWING_KEYGEN_SEED_LEN : Z := 32.
Definition XWING_ENCAPS_SEED_LEN : Z := 64.
Definition ML_DSA_65_PUBLIC_KEY_LEN : Z := 1952.
Definition ML_DSA_65_SECRET_KEY_LEN : Z := 4032.
Definition ML_DSA_65_SIGNATURE_LEN : Z := 3309.
Definition ML_DSA_65_KEYGEN_RANDOMNESS_LEN : Z := 32.
Definition ML_DSA_65_SIGNING_RANDOMNESS_LEN : Z := 32.
Definition SLH_DSA_128F_PUBLIC_KEY_LEN : Z := 32.
Definition SLH_DSA_128F_SIGNATURE_LEN : Z := 17088.
Definition ED25519_SIGNATURE_LEN : Z := 64.
Definition SECRET_KEY_LENGTH : Z := 32.
Definition HYBRID_SIGNATURE_LEN : Z := ED25519_SIGNATURE_LEN + ML_DSA_65_SIGNATURE_LEN.
Definition HYBRID_CONTEXT : list byte := bytes_of_string "umbrellax-hybrid-sig-v1".
Definition HEDGED_WITNESS_LEN : Z := 32.
Definition HEDGED_WITNESS_HKDF_SALT : list byte := bytes_of_string "umbrellax-hedged-witness-v1".
Definition HEDGED_ENCAPS_HKDF_SALT : list byte := bytes_of_string "umbrellax-xwing-hedged-encaps-v1".
Definition HEDGED_RNG_INPUT_LEN : Z := 64.

Inductive PqError :=
| MlKemDecapsulationFailed
| MlKemInvalidPublicKey (got : Z)
| MlKemInvalidCiphertext (got : Z)
| MlKemInvalidSecretKey (got : Z)
| XWingDecapsulationFailed
| XWingInvalidPublicKey (got : Z)
| XWingInvalidCiphertext (got : Z)
| XWingInvalidSecretSeed (got : Z)
| MlDsaSignatureVerificationFailed
| MlDsaInvalidPublicKey (got : Z)
| MlDsaInvalidSignature (got : Z)
| SlhDsaSignatureVerificationFailed
| SlhDsaInvalidPublicKey (got : Z)
| SlhDsaInvalidSignature (got : Z)
| HybridSignatureVerificationFailed (ed25519_ok ml_dsa_ok : bool)
| HybridInvalidSignature (got : Z)
| BackendError (what : string).

(** [if bytes.len() != N { return Err(..) }; copy]. *)
Definition fixed (n : Z) (e : Z -> PqError) (bytes : list byte) : res PqError (list byte) :=
  reject negb (len bytes =? n) with e (len bytes) ;;
  Ok bytes.

(** [RngCore::fill_bytes] on a buffer of [n] bytes. *)
Class Rng (R : Type) := { fill_bytes : Z -> R -> list byte * R }.

(** The external crates, at the level of encoded keys. *)
Class PqBackend := {
  hkdf_sha256 : list byte -> list byte -> list byte -> Z -> list byte;   (* salt, ikm, info, length *)
  hkdf_sha512 : list byte -> list byte -> list byte -> Z -> list byte;
  sha256 : list byte -> list byte;
  kem_key_gen : list byte -> res string (list byte * list byte);         (* seed -> sk, pk *)
  kem_pk_decode : list byte -> option string;                            (* None when it decodes *)
  kem_encapsulate : list byte -> list byte -> res string (list byte * list byte);  (* pk, seed -> ss, ct *)
  kem_sk_decode : list byte -> option string;
  kem_ct_decode : list byte -> option string;
  kem_decapsulate : list byte -> list byte -> res string (list byte);    (* sk, ct -> ss *)
  mlkem_generate : list byte -> list byte * list byte;                   (* seed -> pk, sk *)
  mlkem_encapsulate : list byte -> list byte -> list byte * list byte;   (* pk, seed -> ct, ss *)
  mlkem_decapsulate : list byte -> list byte -> list byte;
  mlkem_validate : list byte -> bool;
  mldsa_generate : list byte -> list byte * list byte;                   (* randomness -> pk, sk *)
  mldsa_sign : list byte -> list byte -> list byte -> list byte -> res string (list byte);
  mldsa_verify : list byte -> list byte -> list byte -> list byte -> bool;
  slh_pk_decode : list byte -> option string;
  slh_verify : list byte -> list byte -> list byte -> list byte -> bool; (* pk, msg, sig, ctx *)
  ed_public : list byte -> list byte;
  ed_sign : list byte -> list byte -> list byte                          (* secret, message *)
}.

(** [hk.expand(..)] fails only beyond 255 hash blocks; every expansion of this crate is of 32 or
    64 bytes, so the error branch of that call is not represented. *)
Section Functions.
Context `{PqBackend} `{Ed25519} {R : Type} `{Rng R}.

Definition decoded (prefix : string) (o : option string) : res PqError unit :=
  match o with None => Ok tt | Some e => Err (BackendError (prefix +:+ e)) end.
Definition length_mismatch (what : string) (got expected : Z) : PqError :=
  BackendError (what +:+ " length mismatch: got " +:+ pretty got +:+ ", expected " +:+ pretty expected).
Definition backend {A} (prefix : string) (r : res string A) : res PqError A :=
  rmap_err (fun e => BackendError (prefix +:+ e)) r.

(** ** Hedged encapsulation seed ([hedged.rs]) *)
Definition derive_from_identity_seed (identity_seed_bytes : list byte) (account : Z) : list byte :=
  hkdf_sha256 HEDGED_WITNESS_HKDF_SALT identity_seed_bytes (to_be 4 account) HEDGED_WITNESS_LEN.

Definition derive_hedged_encaps_seed (rng_input witness transcript recipient_pk_hash : list byte) : list byte :=
  let ikm := rng_input ++ witness in
  let info := transcript ++ recipient_pk_hash in
  hkdf_sha512 HEDGED_ENCAPS_HKDF_SALT ikm info XWING_ENCAPS_SEED_LEN.

(** ** X-Wing ([xwing.rs]) *)
Definition xwing_public_from_bytes : list byte -> res PqError (list byte) :=
  fixed XWING_PUBLIC_KEY_LEN XWingInvalidPublicKey.

Definition xwing_keygen_from_seed (seed : list byte) : res PqError (list byte * list byte) :=
  let? (sk, pk) := backend "xwing keygen: " (kem_key_gen seed) in
  reject negb (len pk =? XWING_PUBLIC_KEY_LEN)
    with length_mismatch "xwing pk" (len pk) XWING_PUBLIC_KEY_LEN ;;
  reject len sk <? XWING_SECRET_SEED_LEN
    with BackendError ("xwing sk too short: " +:+ pretty (len sk) +:+ " < " +:+ pretty XWING_SECRET_SEED_LEN) ;;
  let? seed_buf := slice 0 XWING_SECRET_SEED_LEN sk in
  Ok (pk, seed_buf).

Definition xwing_keygen : st R PqError (list byte * list byte) := fun rng =>
  let '(seed, rng) := fill_bytes XWING_KEYGEN_SEED_LEN rng in
  (xwing_keygen_from_seed seed, rng).

Definition xwing_encaps_derand_internal (pk eseed : list byte) : res PqError (list byte * list byte) :=
  let? _ := decoded "xwing pk decode: " (kem_pk_decode pk) in
  let? (ss, ct) := backend "xwing encaps: " (kem_encapsulate pk eseed) in
  reject negb (len ct =? XWING_CIPHERTEXT_LEN)
    with length_mismatch "xwing ct" (len ct) XWING_CIPHERTEXT_LEN ;;
  reject negb (len ss =? XWING_SHARED_SECRET_LEN)
    with length_mismatch "xwing ss" (len ss) XWING_SHARED_SECRET_LEN ;;
  Ok (ct, ss).

Definition xwing_encaps (pk : list byte) : st R PqError (list byte * list byte) := fun rng =>
  let '(seed, rng) := fill_bytes XWING_ENCAPS_SEED_LEN rng in
  (xwing_encaps_derand_internal pk seed, rng).

Definition xwing_encaps_hedged (pk hedged_witness transcript : list byte) : st R PqError (list byte * list byte) :=
  fun rng =>
  let '(rng_input, rng) := fill_bytes HEDGED_RNG_INPUT_LEN rng in
  let pk_hash := sha256 pk in
  let seed := derive_hedged_encaps_seed rng_input hedged_witness transcript pk_hash in
  (xwing_encaps_derand_internal pk seed, rng).

Definition xwing_decaps (seed ct : list byte) : res PqError (list byte) :=
  let? _ := decoded "xwing sk decode: " (kem_sk_decode seed) in
  let? _ := decoded "xwing ct decode: " (kem_ct_decode ct) in
  let? ss := rmap_err (fun _ => XWingDecapsulationFailed) (kem_decapsulate seed ct) in
  reject negb (len ss =? XWING_SHARED_SECRET_LEN)
    with length_mismatch "xwing ss" (len ss) XWING_SHARED_SECRET_LEN ;;
  Ok ss.

Definition xwing_decaps_raw (seed_bytes ct_bytes : list byte) : res PqError (list byte) :=
  reject negb (len seed_bytes =? XWING_SECRET_SEED_LEN) with XWingInvalidSecretSeed (len seed_bytes) ;;
  reject negb (len ct_bytes =? XWING_CIPHERTEXT_LEN) with XWingInvalidCiphertext (len ct_bytes) ;;
  xwing_decaps seed_bytes ct_bytes.

(** ** ML-KEM-768 ([ml_kem.rs]) *)
Definition ml_kem_public_from_bytes : list byte -> res PqError (list byte) :=
  fixed ML_KEM_768_PUBLIC_KEY_LEN MlKemInvalidPublicKey.
Definition ml_kem_secret_from_bytes : list byte -> res PqError (list byte) :=
  fixed ML_KEM_768_SECRET_KEY_LEN MlKemInvalidSecretKey.
Definition ml_kem_768_keygen (rng : R) : (list byte * list byte) * R :=
  let '(seed, rng) := fill_bytes ML_KEM_768_KEYGEN_SEED_LEN rng in
  (mlkem_generate seed, rng).
Definition ml_kem_768_encaps (pk : list byte) (rng : R) : (list byte * list byte) * R :=
  let '(seed, rng) := fill_bytes ML_KEM_768_ENCAPS_SEED_LEN rng in
  (mlkem_encapsulate pk seed, rng).
Definition ml_kem_768_decaps (sk ct : list byte) : list byte := mlkem_decapsulate sk ct.

(** ** ML-DSA-65 ([ml_dsa.rs]) *)
Definition ml_dsa_signature_from_bytes : list byte -> res PqError (list byte) :=
  fixed ML_DSA_65_SIGNATURE_LEN MlDsaInvalidSignature.
Definition ml_dsa_65_keygen (rng : R) : (list byte * list byte) * R :=
  let '(randomness, rng) := fill_bytes ML_DSA_65_KEYGEN_RANDOMNESS_LEN rng in
  (mldsa_generate randomness, rng).
Definition ml_dsa_65_sign (sk message context : list byte) : st R PqError (list byte) := fun rng =>
  let '(randomness, rng) := fill_bytes ML_DSA_65_SIGNING_RANDOMNESS_LEN rng in
  (backend "ml_dsa_65 sign: " (mldsa_sign sk message context randomness), rng).
Definition ml_dsa_65_verify (pk message context sig : list byte) : res PqError unit :=
  if mldsa_verify pk message context sig then Ok tt else Err MlDsaSignatureVerificationFailed.

(** ** SLH-DSA ([slh_dsa.rs]) *)
Definition slh_dsa_public_from_bytes : list byte -> res PqError (list byte) :=
  fixed SLH_DSA_128F_PUBLIC_KEY_LEN SlhDsaInvalidPublicKey.
Definition slh_dsa_signature_from_bytes : list byte -> res PqError (list byte) :=
  fixed SLH_DSA_128F_SIGNATURE_LEN SlhDsaInvalidSignature.
Definition slh_dsa_128f_verify (pk message context sig : list byte) : res PqError unit :=
  let? _ := decoded "slh_dsa pk decode: " (slh_pk_decode pk) in
  if slh_verify pk message sig context then Ok tt else Err SlhDsaSignatureVerificationFailed.

(** ** Hybrid signature ([hybrid_signature.rs]) *)
Record HybridPublicKey := { hp_ed25519 : list byte; hp_ml_dsa : list byte }.
Record HybridSecretKey := { hs_ed25519 : list byte; hs_ml_dsa : list byte }.

Definition hybrid_signature_from_bytes : list byte -> res PqError (list byte) :=
  fixed HYBRID_SIGNATURE_LEN HybridInvalidSignature.
Definition ed25519_part (sig : list byte) : res PqError (list byte) := slice 0 ED25519_SIGNATURE_LEN sig.
Definition ml_dsa_part (sig : list byte) : res PqError (list byte) := slice_from ED25519_SIGNATURE_LEN sig.

Definition hybrid_keygen (rng : R) : (HybridPublicKey * HybridSecretKey) * R :=
  let '(ed_seed, rng) := fill_bytes SECRET_KEY_LENGTH rng in
  let '((ml_pk, ml_sk), rng) := ml_dsa_65_keygen rng in
  (({| hp_ed25519 := ed_public ed_seed; hp_ml_dsa := ml_pk |},
    {| hs_ed25519 := ed_seed; hs_ml_dsa := ml_sk |}), rng).

Definition hybrid_sign (sk : HybridSecretKey) (message : list byte) : st R PqError (list byte) :=
  let ed_input := HYBRID_CONTEXT ++ message in
  let ed_sig_bytes := ed_sign (hs_ed25519 sk) ed_input in
  let! ml_dsa_sig := ml_dsa_65_sign (hs_ml_dsa sk) message HYBRID_CONTEXT in
  slift (
    let buf := replicate (Z.to_nat HYBRID_SIGNATURE_LEN) Byte.x00 in
    let? buf := copy_into 0 ED25519_SIGNATURE_LEN ed_sig_bytes buf in
    copy_into ED25519_SIGNATURE_LEN HYBRID_SIGNATURE_LEN ml_dsa_sig buf).

Definition hybrid_verify (pk : HybridPublicKey) (message sig : list byte) : res PqError unit :=
  let ed_input := HYBRID_CONTEXT ++ message in
  let? ed_sig := ed25519_part sig in
  let ed25519_ok := ed_verify (hp_ed25519 pk) ed_input ed_sig in
  let? ml_part := ml_dsa_part sig in
  let? ml_dsa_sig := match ml_dsa_signature_from_bytes ml_part with Ok s => Ok s | _ => Panic end in
  let ml_dsa_ok :=
    match ml_dsa_65_verify (hp_ml_dsa pk) message HYBRID_CONTEXT ml_dsa_sig with Ok _ => true | _ => false end in
  if ed25519_ok && ml_dsa_ok then Ok tt
  else Err (HybridSignatureVerificationFailed ed25519_ok ml_dsa_ok).
End Functions.

(** ** What the crate relies on *)
Class PqBackendLaws `{PqBackend} `{Ed25519} := {
  kem_correct seed sk pk e ss ct :
    kem_key_gen seed = Ok (sk, pk) -> kem_encapsulate pk e = Ok (ss, ct) ->
    kem_sk_decode (take 32 sk) = None /\ kem_ct_decode ct = None /\ kem_decapsulate (take 32 sk) ct = Ok ss;
  ed_correct k m : ed_verify (ed_public k) m (ed_sign k m) = true;
  ed_sign_len k m : len (ed_sign k m) = ED25519_SIGNATURE_LEN;
  mldsa_correct r m ctx rnd sg :
    mldsa_sign (mldsa_generate r).2 m ctx rnd = Ok sg -> mldsa_verify (mldsa_generate r).1 m ctx sg = true;
  mldsa_sign_len k m ctx rnd sg : mldsa_sign k m ctx rnd = Ok sg -> len sg = ML_DSA_65_SIGNATURE_LEN
}.

Section Laws.
Context `{PqBackendLaws} {R : Type} `{Rng R}.

Lemma xwing_keygen_Ok seed pk s :
  xwing_keygen_from_seed seed = Ok (pk, s) ->
  exists sk, kem_key_gen seed = Ok (sk, pk) /\ s = take 32 sk /\ len s = 32 /\ len pk = XWING_PUBLIC_KEY_LEN.
Proof.
  unfold xwing_keygen_from_seed, backend. intros Hk. apply rbind_Ok in Hk as ([sk pk'] & Hg & Hk).
  destruct (kem_key_gen seed) as [[sk' pk'']|e|]; [|done..]. injection Hg as <- <-.
  apply rguard_Ok in Hk as [Hp Hk]. apply rguard_Ok in Hk as [Hs Hk]. inv_slice Hk b Sb L. injection Hk as <- <-.
  zbool. apply slice_Ok_inv in Sb as (_ & _ & Hl & ->). exists sk'. cbn in *. rewrite drop_0 in *. eauto.
Qed.

Lemma xwing_encaps_Ok pk e ct ss :
  xwing_encaps_derand_internal pk e = Ok (ct, ss) ->
  kem_encapsulate pk e = Ok (ss, ct) /\ len ct = XWING_CIPHERTEXT_LEN /\ len ss = XWING_SHARED_SECRET_LEN.
Proof.
  unfold xwing_encaps_derand_internal, backend. intros He. apply rbind_Ok in He as (_ & _ & He).
  apply rbind_Ok in He as ([ss' ct'] & Hb & He). destruct (kem_encapsulate pk e) as [[a b]|x|]; [|done..].
  injection Hb as <- <-. apply rguard_Ok in He as [Hc He]. apply rguard_Ok in He as [Hs He]. zbool.
  injection He as <- <-. done.
Qed.

(** Decapsulation with the generated seed inverts encapsulation under the generated key. *)
Lemma xwing_roundtrip seed pk s e ct ss :
  xwing_keygen_from_seed seed = Ok (pk, s) -> xwing_encaps_derand_internal pk e = Ok (ct, ss) ->
  xwing_decaps s ct = Ok ss.
Proof.
  intros (sk & Hg & -> & _ & _)%xwing_keygen_Ok (He & _ & Hl)%xwing_encaps_Ok.
  destruct (kem_correct _ _ _ _ _ _ Hg He) as (Hs & Hc & Hd).
  unfold xwing_decaps. rewrite Hs, Hc, Hd. cbn [decoded rbind rmap_err]. by rewrite Hl.
Qed.

(** Reading the two parts back out of the buffer they were copied into. *)
Lemma hybrid_buffer (a b : list byte) :
  len a = ED25519_SIGNATURE_LEN -> len b = ML_DSA_65_SIGNATURE_LEN ->
  (let? buf := copy_into (E := PqError) 0 ED25519_SIGNATURE_LEN a
                 (replicate (Z.to_nat HYBRID_SIGNATURE_LEN) Byte.x00) in
   copy_into ED25519_SIGNATURE_LEN HYBRID_SIGNATURE_LEN b buf) = Ok (a ++ b).
Proof.
  unfold ED25519_SIGNATURE_LEN, ML_DSA_65_SIGNATURE_LEN, HYBRID_SIGNATURE_LEN. intros Ha Hb.
  rewrite copy_into_in_range by (rewrite ?len_replicate; unfold ED25519_SIGNATURE_LEN, ML_DSA_65_SIGNATURE_LEN; lia).
  cbn [rbind]. change (Z.to_nat 0) with 0%nat. rewrite take_0, app_nil_l.
  unfold ED25519_SIGNATURE_LEN, ML_DSA_65_SIGNATURE_LEN.
  rewrite copy_into_in_range by (try rewrite len_app, len_drop, len_replicate; lia).
  f_equal. rewrite take_app_length' by (unfold len in Ha; lia). f_equal.
  rewrite drop_ge, app_nil_r; [done|]. rewrite length_app, length_drop, length_replicate. unfold len in Ha. lia.
Qed.

Lemma hybrid_verify_eq pk m a b :
  len a = ED25519_SIGNATURE_LEN -> len b = ML_DSA_65_SIGNATURE_LEN ->
  hybrid_verify pk m (a ++ b) =
    let x := ed_verify (hp_ed25519 pk) (HYBRID_CONTEXT ++ m) a in
    let y := mldsa_verify (hp_ml_dsa pk) m HYBRID_CONTEXT b in
    if x && y then Ok tt else Err (HybridSignatureVerificationFailed x y).
Proof.
  intros Ha Hb. unfold hybrid_verify, ed25519_part, ml_dsa_part, slice_from. pose proof (len_app a b) as Hl.
  rd_slice a. rd_slice b. unfold ml_dsa_signature_from_bytes, fixed. rewrite Hb. cbn [Z.eqb Pos.eqb negb rguard].
  rewrite Z.eqb_refl. cbn [negb rguard rbind]. unfold ml_dsa_65_verify. by destruct (mldsa_verify _ _ _ _).
Qed.

(** X-Wing keys agree: a secret encapsulated to a generated public key, with a fresh or a
    hedged seed, is the one the generated secret seed decapsulates, whatever the random
    generator, hedging witness and transcript; ciphertext and secret have their fixed sizes. *)
Theorem xwing_agreement (rng rng' rng1 rng2 : R) (pk s witness transcript ct ss ct' ss' : list byte)
    (Hkey : xwing_keygen rng = (Ok (pk, s), rng'))
    (Hfresh : xwing_encaps pk rng' = (Ok (ct, ss), rng1))
    (Hhedged : xwing_encaps_hedged pk witness transcript rng' = (Ok (ct', ss'), rng2)) :
  xwing_decaps_raw s ct = Ok ss /\ xwing_decaps_raw s ct' = Ok ss' /\
  len ct = XWING_CIPHERTEXT_LEN /\ len ss = XWING_SHARED_SECRET_LEN /\
  len ct' = XWING_CIPHERTEXT_LEN /\ len ss' = XWING_SHARED_SECRET_LEN.
Proof.
  unfold xwing_keygen, xwing_encaps, xwing_encaps_hedged in *.
  destruct (fill_bytes _ rng), (fill_bytes XWING_ENCAPS_SEED_LEN rng'), (fill_bytes HEDGED_RNG_INPUT_LEN rng').
  injection Hkey as Hkey <-. injection Hfresh as Hfresh <-. injection Hhedged as Hhedged <-.
  pose proof (xwing_roundtrip _ _ _ _ _ _ Hkey Hfresh) as D1.
  pose proof (xwing_roundtrip _ _ _ _ _ _ Hkey Hhedged) as D2.
  apply xwing_keygen_Ok in Hkey as (_ & _ & _ & Hs & _).
  apply xwing_encaps_Ok in Hfresh as (_ & C1 & S1), Hhedged as (_ & C2 & S2).
  unfold xwing_decaps_raw. rewrite Hs, C1, C2. by split_and!.
Qed.

(** Hybrid signatures: a signature made with a generated key verifies, for every message
    and every state of the random generator; and a signature of the right size verifies exactly
    when both halves verify, so breaking one scheme is not enough to forge. *)
Theorem hybrid_signature_correct (rng rng' : R) (pk : HybridPublicKey) (sk : HybridSecretKey) (m sig : list byte) :
  ((exists r, hybrid_keygen r = ((pk, sk), rng)) -> hybrid_sign sk m rng = (Ok sig, rng') ->
     len sig = HYBRID_SIGNATURE_LEN /\ hybrid_verify pk m sig = Ok tt) /\
  (forall a b, len a = ED25519_SIGNATURE_LEN -> len b = ML_DSA_65_SIGNATURE_LEN ->
     hybrid_verify pk m (a ++ b) = Ok tt <->
     ed_verify (hp_ed25519 pk) (HYBRID_CONTEXT ++ m) a = true /\
     mldsa_verify (hp_ml_dsa pk) m HYBRID_CONTEXT b = true).
Proof.
  split.
  - intros [r Hk] Hs. unfold hybrid_keygen, ml_dsa_65_keygen in Hk.
    destruct (fill_bytes _ r) as [ed_seed r1], (fill_bytes _ r1) as [rnd r2].
    destruct (mldsa_generate rnd) as [mpk msk] eqn:Hg. injection Hk as <- <- <-.
    unfold hybrid_sign, ml_dsa_65_sign, sbind, backend in Hs. destruct (fill_bytes _ r2) as [rd r3].
    cbn [hs_ml_dsa hs_ed25519] in Hs. destruct (mldsa_sign msk m HYBRID_CONTEXT rd) as [ml|e|] eqn:Hm; [|done..].
    cbn [rmap_err] in Hs. pose proof (mldsa_sign_len _ _ _ _ _ Hm) as Hml.
    pose proof (ed_sign_len ed_seed (HYBRID_CONTEXT ++ m)) as Hel.
    unfold slift in Hs. rewrite hybrid_buffer in Hs by done.
    apply (f_equal fst), Ok_inj in Hs as <-.
    split; [rewrite len_app, Hel, Hml; done|]. rewrite hybrid_verify_eq by done. cbn [hp_ed25519 hp_ml_dsa].
    rewrite ed_correct. change mpk with (mpk, msk).1. rewrite <- Hg. rewrite (mldsa_correct _ _ _ rd); [done|]. by rewrite Hg.
  - intros a b Ha Hb. rewrite hybrid_verify_eq by done. cbn zeta.
    destruct (ed_verify _ _ _), (mldsa_verify _ _ _ _); simpl; naive_solver.
Qed.
End Laws.

(** ** A concrete backend for the witnesses *)
Definition pad_take (n : nat) (l : list byte) : list byte := take n (l ++ replicate n Byte.x00).

Lemma pad_take_len n l : len (pad_take n l) = Z.of_nat n.
Proof. unfold pad_take. rewrite len_take, len_app, len_replicate. pose proof (len_nonneg l). lia. Qed.

#[export] Instance toy_pq : PqBackend := {|
  hkdf_sha256 salt ikm info n := pad_take (Z.to_nat n) (ikm ++ info);
  hkdf_sha512 salt ikm info n := pad_take (Z.to_nat n) (ikm ++ info);
  sha256 m := pad_take 32 m;
  kem_key_gen seed := Ok (seed, pad_take 1216 seed);
  kem_pk_decode _ := None;
  kem_encapsulate pk e := Ok (take 32 (pad_take 1120 e), pad_take 1120 e);
  kem_sk_decode _ := None;
  kem_ct_decode _ := None;
  kem_decapsulate _ ct := Ok (take 32 ct);
  mlkem_generate seed := (seed, seed);
  mlkem_encapsulate pk seed := (seed, seed);
  mlkem_decapsulate _ ct := ct;
  mlkem_validate _ := true;
  mldsa_generate r := (r, r);
  mldsa_sign k m ctx _ := Ok (pad_take 3309 (k ++ m ++ ctx));
  mldsa_verify k m ctx sg := bool_decide (sg = pad_take 3309 (k ++ m ++ ctx));
  slh_pk_decode _ := None;
  slh_verify _ _ _ _ := true;
  ed_public k := k;
  ed_sign k m := pad_take 64 (k ++ m)
|}.
#[export] Instance toy_pq_ed : Ed25519 := {|
  vk_valid pk := len pk =? 32;
  ed_verify pk m sg := bool_decide (sg = pad_take 64 (pk ++ m))
|}.
#[export] Instance toy_rng : Rng Z := {| fill_bytes n r := (replicate (Z.to_nat n) (as_u8 r), r + 1) |}.

#[export] Instance toy_pq_laws : PqBackendLaws.
Proof.
  split.
  - by intros seed sk pk e ss ct [= <- <-] [= <- <-].
  - intros k m. by apply bool_decide_eq_true_2.
  - intros k m. apply pad_take_len.
  - intros r m ctx rnd sg [= <-]. by apply bool_decide_eq_true_2.
  - intros k m ctx rnd sg [= <-]. apply pad_take_len.
Defined.

Lemma xwing_agreement_witness :
  xwing_decaps_raw (replicate 32 Byte.x01) (pad_take 1120 (replicate 64 Byte.x02)) = Ok (replicate 32 Byte.x02).
Proof.
  eapply (xwing_agreement (R := Z) 1 2 3 3 (pad_take 1216 (replicate 32 Byte.x01)) (replicate 32 Byte.x01) [] []).
  - vm_compute. reflexivity.
  - vm_compute. reflexivity.
  - vm_compute. reflexivity.
Defined.

(** The toy key pair signs and verifies. *)
Example hybrid_runs :
  let '((pk, sk), r) := hybrid_keygen (R := Z) 1 in
  match hybrid_sign sk [Byte.x05] r with (Ok s, _) => hybrid_verify pk [Byte.x05] s = Ok tt | _ => False end.
Proof. by vm_compute. Qed.

End Pq.
