(* ===== verification/Identity.v ===== *)
(** * Identity keys and the key store ([crates/umbrella-identity/src/])

    [path.rs] (hardened derivation paths), [derive.rs] (the HMAC chain), [identity_key.rs],
    [device_key.rs], [identity_x25519.rs], [hybrid_device_key.rs], [hybrid_identity.rs],
    [slh_dsa_backup.rs], [cloud_wrap_recovery.rs] (keys of each role), [attestation.rs] (device
    certificates), [seed.rs] and [code_recovery.rs] (phrases and rotation) and [keystore.rs] (the
    store of one account behind a mutex, whose poisoning is part of the state).  HMAC, HKDF, the
    signature schemes, X25519, BIP-39 and ChaCha20 as generator are parameters. *)
From stdpp Require Import sorting.
From S2P Require Import Prelude Bytes Crypto Pq.
Local Open Scope string_scope.
Local Open Scope list_scope.
Local Open Scope Z_scope.

Module Identity.

Inductive CryptoError :=
| InvalidSignature | AeadAuthFailure | InvalidLength (expected got : Z) | InvalidKey | BackendFailure.

Inductive IdentityError :=
| InvalidMnemonic
| InvalidWordCount (expected got : Z)
| CryptoErr (e : CryptoError)
| InvalidDerivationPath (reason : string)
| NonHardenedIndex (index : Z)
| AttestationExpired (expires_at now : Z)
| UnsupportedAttestationVersion (version : Z)
| UnknownDevice (index : Z)
| DuplicateDevice (index : Z)
| RevokedDevice (index : Z)
| InvalidCodeRecoveryWordCount (expected got : Z)
| InvalidCodeRecoveryMnemonic
| OldIdentityMismatch
| PqErr (e : Pq.PqError)
| HwBackedUnsupported (method reason : string).

(** ** Derivation paths ([path.rs]) *)
Definition HARDENED_BIT : Z := 2147483648.
Definition UMBRELLA_COIN_TYPE : Z := 21837.
Definition MAX_PATH_DEPTH : Z := 4.

Inductive KeyRole := RoleIdentity | RoleDevice | RoleProfile | RoleBackup | RoleSealedIdentity.
Definition role_number (r : KeyRole) : Z :=
  match r with RoleIdentity => 0 | RoleDevice => 1 | RoleProfile => 2 | RoleBackup => 3 | RoleSealedIdentity => 4 end.

(** A [HardenedIndex] is its raw [u32]. *)
Definition from_raw (raw : Z) : res IdentityError Z :=
  reject raw <? HARDENED_BIT with NonHardenedIndex raw ;; Ok raw.
(** [assert!(human < HARDENED_BIT)]. *)
Definition from_human (h : Z) : res IdentityError Z :=
  if h <? HARDENED_BIT then Ok (Z.lor h HARDENED_BIT) else Panic.
Definition from_role (role : Z) : Z := Z.lor role HARDENED_BIT.
Definition as_hardened_index (r : KeyRole) : Z := from_role (role_number r).
Definition human (raw : Z) : Z := Z.land raw (Z.lxor U32_MAX HARDENED_BIT).

(** Pushing onto a vector of capacity [MAX_PATH_DEPTH]. *)
Fixpoint push_indices (indices path : list Z) : res IdentityError (list Z) :=
  match indices with
  | [] => Ok path
  | idx :: indices =>
      reject MAX_PATH_DEPTH <=? len path with InvalidDerivationPath "internal capacity exceeded" ;;
      push_indices indices (path ++ [idx])
  end.
Definition from_indices (indices : list Z) : res IdentityError (list Z) :=
  reject MAX_PATH_DEPTH <? len indices with InvalidDerivationPath "path depth exceeds MAX_PATH_DEPTH" ;;
  push_indices indices [].

Definition role_path (account : Z) (r : KeyRole) : res IdentityError (list Z) :=
  let? coin := from_human UMBRELLA_COIN_TYPE in
  let? acc := from_human account in
  from_indices [coin; acc; as_hardened_index r].
Definition path_identity (account : Z) : res IdentityError (list Z) := role_path account RoleIdentity.
Definition path_profile (account : Z) : res IdentityError (list Z) := role_path account RoleProfile.
Definition path_backup (account : Z) : res IdentityError (list Z) := role_path account RoleBackup.
Definition path_sealed_identity (account : Z) : res IdentityError (list Z) := role_path account RoleSealedIdentity.
Definition path_device (account device_index : Z) : res IdentityError (list Z) :=
  let? coin := from_human UMBRELLA_COIN_TYPE in
  let? acc := from_human account in
  let? dev := from_human device_index in
  from_indices [coin; acc; as_hardened_index RoleDevice; dev].

(** ** Parameters *)
Class IdBackend (R : Type) := {
  hmac_sha512 : list byte -> list byte -> list byte;          (* key, data *)
  x25519_public : list byte -> list byte;
  x25519_dh : list byte -> list byte -> list byte;            (* secret, public *)
  chacha_from_seed : list byte -> R;
  slh_keygen : R -> res string (list byte * list byte) * R;   (* pk, sk *)
  slh_sk_decode : list byte -> option string;
  slh_sign : R -> list byte -> list byte -> list byte -> res string (list byte) * R; (* sk, message, context *)
  phrase_words : list byte -> Z;                              (* split_whitespace().count() *)
  phrase_trim : list byte -> list byte;
  mnemonic_parse : list byte -> option (list byte);           (* phrase -> entropy *)
  mnemonic_phrase : list byte -> list byte;                   (* entropy -> phrase *)
  mnemonic_seed : list byte -> list byte                      (* entropy -> 64-byte seed *)
}.

Section Keys.
Context {R : Type} {PB : Pq.PqBackend} {Ed : Ed25519} {RG : Pq.Rng R} {IB : IdBackend R}.

(** ** The HMAC chain ([derive.rs]) *)
Definition MASTER_HMAC_KEY : list byte := bytes_of_string "ed25519 seed".

Record MasterKey := { secret : list byte; chain_code : list byte }.

(** The two halves of a 64-byte HMAC output. *)
Definition split_node (i : list byte) : MasterKey :=
  {| secret := take 32 i; chain_code := take 32 (drop 32 i) |}.

Definition master_from_seed (seed : list byte) : MasterKey := split_node (hmac_sha512 MASTER_HMAC_KEY seed).

Definition child_data (m : MasterKey) (index : Z) : list byte := [Byte.x00] ++ secret m ++ to_be 4 index.
Definition derive_child (m : MasterKey) (index : Z) : MasterKey :=
  split_node (hmac_sha512 (chain_code m) (child_data m index)).
Fixpoint derive_path (m : MasterKey) (path : list Z) : MasterKey :=
  match path with
  | [] => m
  | index :: path => derive_path (derive_child m index) path
  end.
Definition derive_from_seed (seed : list byte) (path : list Z) : res IdentityError MasterKey :=
  let master := master_from_seed seed in
  Ok (derive_path master path).

(** ** Signing keys of an account and of a device *)

(** [PrivateSigningKey] is its seed. *)
Record IdentityKey := { ik_signing : list byte; ik_public : list byte; ik_account : Z }.
Definition identity_derive_from_seed_bytes (seed_bytes : list byte) (account : Z) : res IdentityError IdentityKey :=
  let? path := path_identity account in
  let? master := derive_from_seed seed_bytes path in
  let signing := secret master in
  Ok {| ik_signing := signing; ik_public := Pq.ed_public signing; ik_account := account |}.

Record DeviceKey := { dk_signing : list byte; dk_public : list byte; dk_account : Z; dk_device_index : Z }.
Definition device_derive (seed : list byte) (account device_index : Z) : res IdentityError DeviceKey :=
  let? path := path_device account device_index in
  let? master := derive_from_seed seed path in
  let signing := secret master in
  Ok {| dk_signing := signing; dk_public := Pq.ed_public signing; dk_account := account; dk_device_index := device_index |}.

Definition public_from_bytes (bytes : list byte) : res IdentityError (list byte) :=
  if vk_valid bytes then Ok bytes else Err (CryptoErr InvalidKey).
Definition public_verify (pk message signature : list byte) : res IdentityError unit :=
  if ed_verify pk message signature then Ok tt else Err (CryptoErr InvalidSignature).

Record IdentityX25519Key := { xk_secret : list byte; xk_public : list byte; xk_account : Z }.
Definition x25519_derive_from_seed_bytes (seed_bytes : list byte) (account : Z) : res IdentityError IdentityX25519Key :=
  let? path := path_sealed_identity account in
  let? master := derive_from_seed seed_bytes path in
  let sec := secret master in
  Ok {| xk_secret := sec; xk_public := x25519_public sec; xk_account := account |}.

(** ** Hybrid and post-quantum keys *)
Definition HYBRID_DEVICE_MLDSA_HKDF_INFO : list byte := bytes_of_string "umbrellax-hybrid-device-mldsa-v1".
Definition HYBRID_IDENTITY_MLDSA_HKDF_INFO : list byte := bytes_of_string "umbrellax-hybrid-identity-mldsa-v1".
Definition SLH_DSA_BACKUP_HKDF_INFO : list byte := bytes_of_string "umbrellax-slh-dsa-backup-v1".
Definition SLH_DSA_BACKUP_ROTATION_CONTEXT : list byte := bytes_of_string "umbrellax-slh-dsa-backup-rotation-v1".
Definition CLOUD_WRAP_RECOVERY_HKDF_INFO : list byte := bytes_of_string "umbrellax-cloud-wrap-recovery-xwing-v1".
Definition CHACHA20_SEED_LEN : Z := 32.

(** [HybridDeviceKey] and [HybridIdentityKey] without the indices they repeat from their caller. *)
Record HybridKey := { hk_inner : Pq.HybridSecretKey; hk_public : Pq.HybridPublicKey }.

(** [derive_mldsa_rng_seed] of the device and of the identity. *)
Definition device_mldsa_rng_seed (seed_bytes : list byte) (account device_index : Z) : list byte :=
  let salt := to_be 4 account ++ to_be 4 device_index in
  Pq.hkdf_sha256 salt seed_bytes HYBRID_DEVICE_MLDSA_HKDF_INFO CHACHA20_SEED_LEN.
Definition identity_mldsa_rng_seed (seed_bytes : list byte) (account : Z) : list byte :=
  Pq.hkdf_sha256 (to_be 4 account) seed_bytes HYBRID_IDENTITY_MLDSA_HKDF_INFO CHACHA20_SEED_LEN.

Definition hybrid_from_parts (signing rng_seed : list byte) : HybridKey :=
  let '((ml_pk, ml_sk), _) := Pq.ml_dsa_65_keygen (chacha_from_seed rng_seed) in
  {| hk_inner := {| Pq.hs_ed25519 := signing; Pq.hs_ml_dsa := ml_sk |};
     hk_public := {| Pq.hp_ed25519 := Pq.ed_public signing; Pq.hp_ml_dsa := ml_pk |} |}.

Definition hybrid_device_derive (seed : list byte) (account device_index : Z) : res IdentityError HybridKey :=
  let? path := path_device account device_index in
  let? master := derive_from_seed seed path in
  Ok (hybrid_from_parts (secret master) (device_mldsa_rng_seed seed account device_index)).
Definition hybrid_identity_derive (seed_bytes : list byte) (account : Z) : res IdentityError HybridKey :=
  let? path := path_identity account in
  let? master := derive_from_seed seed_bytes path in
  Ok (hybrid_from_parts (secret master) (identity_mldsa_rng_seed seed_bytes account)).

(** [sign] and [verify] of both hybrid keys. *)
Definition hybrid_key_sign (k : HybridKey) (message : list byte) : st R IdentityError (list byte) := fun rng =>
  let '(r, rng) := Pq.hybrid_sign (hk_inner k) message rng in (rmap_err PqErr r, rng).
Definition hybrid_key_verify (pk : Pq.HybridPublicKey) (message sig : list byte) : res IdentityError unit :=
  rmap_err PqErr (Pq.hybrid_verify pk message sig).

Definition HYBRID_DEVICE_PUBLIC_KEY_LEN : Z := 32 + Pq.ML_DSA_65_PUBLIC_KEY_LEN.
Definition hybrid_public_to_bytes (pk : Pq.HybridPublicKey) : list byte := Pq.hp_ed25519 pk ++ Pq.hp_ml_dsa pk.
Definition hybrid_public_from_bytes (bytes : list byte) : res IdentityError Pq.HybridPublicKey :=
  reject negb (len bytes =? HYBRID_DEVICE_PUBLIC_KEY_LEN) with PqErr (Pq.HybridInvalidSignature (len bytes)) ;;
  let? ed_bytes := slice 0 32 bytes in
  reject negb (vk_valid ed_bytes) with PqErr (Pq.BackendError "ed25519 verifying-key bytes invalid (curve point)") ;;
  let? rest := slice_from 32 bytes in
  let? ml_dsa := rmap_err PqErr (Pq.fixed Pq.ML_DSA_65_PUBLIC_KEY_LEN Pq.MlDsaInvalidPublicKey rest) in
  Ok {| Pq.hp_ed25519 := ed_bytes; Pq.hp_ml_dsa := ml_dsa |}.

(** [slh_dsa_128f_keygen] and [slh_dsa_128f_sign] of [umbrella-pq]. *)
Definition slh_dsa_128f_keygen (rng : R) : res Pq.PqError (list byte * list byte) * R :=
  let '(r, rng) := slh_keygen rng in (Pq.backend "slh_dsa keygen: " r, rng).
Definition slh_dsa_128f_sign (sk message context : list byte) : st R Pq.PqError (list byte) := fun rng =>
  match Pq.decoded "slh_dsa sk decode: " (slh_sk_decode sk) with
  | Ok _ => let '(r, rng) := slh_sign rng sk message context in (Pq.backend "slh_dsa sign: " r, rng)
  | Err e => (Err e, rng)
  | Panic => (Panic, rng)
  end.

Record SlhDsaBackupKey := { sb_secret : list byte; sb_public : list byte; sb_account : Z }.
Definition derive_slh_dsa_rng_seed (seed_bytes : list byte) (account : Z) : list byte :=
  Pq.hkdf_sha256 (to_be 4 account) seed_bytes SLH_DSA_BACKUP_HKDF_INFO CHACHA20_SEED_LEN.
Definition slh_backup_derive (seed_bytes : list byte) (account : Z) : res IdentityError SlhDsaBackupKey :=
  let '(r, _) := slh_dsa_128f_keygen (chacha_from_seed (derive_slh_dsa_rng_seed seed_bytes account)) in
  let? (pk, sk) := rmap_err PqErr r in
  Ok {| sb_secret := sk; sb_public := pk; sb_account := account |}.
Definition sign_rotation_proof (k : SlhDsaBackupKey) (message : list byte) : st R IdentityError (list byte) := fun rng =>
  let '(r, rng) := slh_dsa_128f_sign (sb_secret k) message SLH_DSA_BACKUP_ROTATION_CONTEXT rng in (rmap_err PqErr r, rng).
Definition verify_rotation_proof (pk message sig : list byte) : res IdentityError unit :=
  rmap_err PqErr (Pq.slh_dsa_128f_verify pk message SLH_DSA_BACKUP_ROTATION_CONTEXT sig).

Record CloudWrapRecoveryKey := { cw_secret : list byte; cw_public : list byte; cw_account : Z }.
Definition derive_xwing_keygen_seed (seed_bytes : list byte) (account : Z) : list byte :=
  Pq.hkdf_sha256 (to_be 4 account) seed_bytes CLOUD_WRAP_RECOVERY_HKDF_INFO Pq.XWING_KEYGEN_SEED_LEN.
Definition cloud_wrap_recovery_derive (seed_bytes : list byte) (account : Z) : res IdentityError CloudWrapRecoveryKey :=
  let? (pk, sk) := rmap_err PqErr (Pq.xwing_keygen_from_seed (derive_xwing_keygen_seed seed_bytes account)) in
  Ok {| cw_secret := sk; cw_public := pk; cw_account := account |}.
Definition decapsulate (k : CloudWrapRecoveryKey) (ct : list byte) : res IdentityError (list byte) :=
  rmap_err PqErr (Pq.xwing_decaps (cw_secret k) ct).

(** ** Device attestations ([attestation.rs]) *)
Definition ATTESTATION_DOMAIN_SEPARATOR : list byte := bytes_of_string "umbrellax-device-attestation-v1".
Definition ATTESTATION_VERSION : Z := 1.
Definition NEVER_EXPIRES : Z := U64_MAX.
Definition ATTESTATION_SERIALIZED_LEN : Z := 1 + 4 + 4 + 8 + 8 + 32 + 64.

Record DeviceAttestation := {
  version : Z; account : Z; device_index : Z; issued_at : Z; expires_at : Z;
  device_pubkey : list byte; signature : list byte
}.

(** The fields of [build_transcript], written into an array from its start to its end. *)
Definition build_transcript (version account device_index issued_at expires_at : Z) (device_pubkey : list byte) : list byte :=
  ATTESTATION_DOMAIN_SEPARATOR ++ [Byte.x00] ++ [as_u8 version] ++ to_be 4 account ++ to_be 4 device_index ++
  to_be 8 issued_at ++ to_be 8 expires_at ++ device_pubkey.

Definition issue (identity : IdentityKey) (account device_index : Z) (device_pubkey : list byte)
  (issued_at expires_at : Z) : DeviceAttestation :=
  let transcript := build_transcript ATTESTATION_VERSION account device_index issued_at expires_at device_pubkey in
  {| version := ATTESTATION_VERSION; account := account; device_index := device_index; issued_at := issued_at;
     expires_at := expires_at; device_pubkey := device_pubkey; signature := Pq.ed_sign (ik_signing identity) transcript |}.

Definition verify (a : DeviceAttestation) (identity_pubkey : list byte) (now : Z) : res IdentityError unit :=
  reject negb (version a =? ATTESTATION_VERSION) with UnsupportedAttestationVersion (version a) ;;
  reject negb (expires_at a =? NEVER_EXPIRES) && (expires_at a <? now) with AttestationExpired (expires_at a) now ;;
  let transcript := build_transcript (version a) (account a) (device_index a) (issued_at a) (expires_at a) (device_pubkey a) in
  public_verify identity_pubkey transcript (signature a).

Definition to_bytes (a : DeviceAttestation) : list byte :=
  [as_u8 (version a)] ++ to_be 4 (account a) ++ to_be 4 (device_index a) ++ to_be 8 (issued_at a) ++
  to_be 8 (expires_at a) ++ device_pubkey a ++ signature a.

(** The argument is a 121-byte array. *)
Definition from_bytes (bytes : list byte) : res IdentityError DeviceAttestation :=
  let? version := index 0 bytes in
  let? account_bytes := slice 1 5 bytes in
  let? device_index_bytes := slice 5 9 bytes in
  let? issued_at_bytes := slice 9 17 bytes in
  let? expires_at_bytes := slice 17 25 bytes in
  let? device_pubkey_bytes := slice 25 57 bytes in
  let? device_pubkey := public_from_bytes device_pubkey_bytes in
  let? signature := slice 57 121 bytes in
  Ok {| version := u8 version; account := from_be account_bytes; device_index := from_be device_index_bytes;
        issued_at := from_be issued_at_bytes; expires_at := from_be expires_at_bytes;
        device_pubkey := device_pubkey; signature := signature |}.

(** ** Phrases and rotation ([seed.rs], [code_recovery.rs]) *)
Definition ENTROPY_LEN : Z := 32.
Definition MNEMONIC_WORD_COUNT : Z := 24.
Definition SEED_LEN : Z := 64.
Definition CODE_RECOVERY_ENTROPY_LEN : Z := 16.
Definition CODE_RECOVERY_WORD_COUNT : Z := 12.
Definition ROTATION_DOMAIN_SEPARATOR : list byte := bytes_of_string "umbrellax-identity-rotation-v1".
Definition PUBLIC_HALF_HKDF_SALT : list byte := bytes_of_string "umbrellax-12words-public-half-v1".
Definition ROTATION_BIND_HKDF_SALT : list byte := bytes_of_string "umbrellax-12words-rotation-bind-v1".

Record IdentitySeed := { entropy : list byte; seed : list byte }.

Definition seed_from_mnemonic (phrase : list byte) : res IdentityError IdentitySeed :=
  let trimmed := phrase_trim phrase in
  let word_count := phrase_words trimmed in
  reject negb (word_count =? MNEMONIC_WORD_COUNT) with InvalidWordCount MNEMONIC_WORD_COUNT word_count ;;
  let? e := ok_or (mnemonic_parse trimmed) InvalidMnemonic in
  reject negb (len e =? ENTROPY_LEN) with InvalidWordCount MNEMONIC_WORD_COUNT word_count ;;
  Ok {| entropy := e; seed := mnemonic_seed e |}.
Definition seed_to_mnemonic (sd : IdentitySeed) : list byte := mnemonic_phrase (entropy sd).

Record CodeRecoveryMnemonic := { phrase : list byte; code_entropy : list byte }.
Definition code_generate (rng : R) : CodeRecoveryMnemonic * R :=
  let '(e, rng) := Pq.fill_bytes CODE_RECOVERY_ENTROPY_LEN rng in
  ({| phrase := mnemonic_phrase e; code_entropy := e |}, rng).
Definition code_from_phrase (p : list byte) : res IdentityError CodeRecoveryMnemonic :=
  let trimmed := phrase_trim p in
  let word_count := phrase_words trimmed in
  reject negb (word_count =? CODE_RECOVERY_WORD_COUNT) with InvalidCodeRecoveryWordCount CODE_RECOVERY_WORD_COUNT word_count ;;
  let? e := ok_or (mnemonic_parse trimmed) InvalidCodeRecoveryMnemonic in
  reject negb (len e =? CODE_RECOVERY_ENTROPY_LEN) with InvalidCodeRecoveryWordCount CODE_RECOVERY_WORD_COUNT word_count ;;
  Ok {| phrase := mnemonic_phrase e; code_entropy := e |}.
Definition public_half_proof (c : CodeRecoveryMnemonic) (account : Z) : list byte :=
  Pq.hkdf_sha512 PUBLIC_HALF_HKDF_SALT (code_entropy c) (to_be 4 account) 32.
Definition rotation_commitment (c : CodeRecoveryMnemonic) (old_identity_pubkey new_identity_pubkey : list byte) : list byte :=
  Pq.hkdf_sha512 ROTATION_BIND_HKDF_SALT (code_entropy c) (old_identity_pubkey ++ new_identity_pubkey) 32.

Definition compose_rotation_ikm (sd : IdentitySeed) (c : CodeRecoveryMnemonic) : list byte := seed sd ++ code_entropy c.
(** HKDF written out: extract with the domain as key, one expansion block. *)
Definition derive_rotation_seed (ikm info : list byte) : list byte :=
  let prk := hmac_sha512 ROTATION_DOMAIN_SEPARATOR ikm in
  take (Z.to_nat SEED_LEN) (hmac_sha512 prk (info ++ [Byte.x01])).
Definition derive_rotated_identity_material (sd : IdentitySeed) (c : CodeRecoveryMnemonic)
  (old_identity_pubkey : list byte) : res IdentityError (list byte) :=
  let? derived := identity_derive_from_seed_bytes (seed sd) 0 in
  reject negb (bool_decide (ik_public derived = old_identity_pubkey)) with OldIdentityMismatch ;;
  Ok (derive_rotation_seed (compose_rotation_ikm sd c) old_identity_pubkey).

(** ** The key store ([keystore.rs]) *)
Record DeviceRecord := { private : DeviceKey; public : list byte; attestation : DeviceAttestation; revoked : bool }.

(** [poisoned] is the state of the mutex around [devices]: set when a thread panics while
    holding it, after which every [lock().expect(..)] panics. *)
Record InMemoryKeyStore := {
  ks_seed : list byte; ks_identity : IdentityKey; ks_x25519 : IdentityX25519Key; ks_account : Z;
  devices : gmap Z DeviceRecord; poisoned : bool;
  ks_hybrid_identity : HybridKey; ks_slh_backup : SlhDsaBackupKey; hybrid_devices : gmap Z HybridKey;
  ks_recovery : CloudWrapRecoveryKey; ks_hedged_witness : list byte
}.
Definition set_devices (k : InMemoryKeyStore) (d : gmap Z DeviceRecord) : InMemoryKeyStore :=
  {| ks_seed := ks_seed k; ks_identity := ks_identity k; ks_x25519 := ks_x25519 k; ks_account := ks_account k;
     devices := d; poisoned := poisoned k; ks_hybrid_identity := ks_hybrid_identity k; ks_slh_backup := ks_slh_backup k;
     hybrid_devices := hybrid_devices k; ks_recovery := ks_recovery k; ks_hedged_witness := ks_hedged_witness k |}.
Definition set_hybrid (k : InMemoryKeyStore) (h : gmap Z HybridKey) : InMemoryKeyStore :=
  {| ks_seed := ks_seed k; ks_identity := ks_identity k; ks_x25519 := ks_x25519 k; ks_account := ks_account k;
     devices := devices k; poisoned := poisoned k; ks_hybrid_identity := ks_hybrid_identity k; ks_slh_backup := ks_slh_backup k;
     hybrid_devices := h; ks_recovery := ks_recovery k; ks_hedged_witness := ks_hedged_witness k |}.
Definition poison (k : InMemoryKeyStore) : InMemoryKeyStore :=
  {| ks_seed := ks_seed k; ks_identity := ks_identity k; ks_x25519 := ks_x25519 k; ks_account := ks_account k;
     devices := devices k; poisoned := true; ks_hybrid_identity := ks_hybrid_identity k; ks_slh_backup := ks_slh_backup k;
     hybrid_devices := hybrid_devices k; ks_recovery := ks_recovery k; ks_hedged_witness := ks_hedged_witness k |}.

Definition open_store (sd : IdentitySeed) (account : Z) : res IdentityError InMemoryKeyStore :=
  let? identity := identity_derive_from_seed_bytes (seed sd) account in
  let? x := x25519_derive_from_seed_bytes (seed sd) account in
  let? hybrid := hybrid_identity_derive (seed sd) account in
  let? slh := slh_backup_derive (seed sd) account in
  let? rec := cloud_wrap_recovery_derive (seed sd) account in
  let witness := Pq.derive_from_identity_seed (seed sd) account in
  Ok {| ks_seed := seed sd; ks_identity := identity; ks_x25519 := x; ks_account := account; devices := ∅;
        poisoned := false; ks_hybrid_identity := hybrid; ks_slh_backup := slh; hybrid_devices := ∅;
        ks_recovery := rec; ks_hedged_witness := witness |}.

(** Run [body] while holding the device mutex: a panic inside leaves it poisoned. *)
Definition locked {A} (body : st InMemoryKeyStore IdentityError A) : st InMemoryKeyStore IdentityError A := fun k =>
  if poisoned k then (Panic, k)
  else match body k with
       | (Panic, k) => (Panic, poison k)
       | r => r
       end.

Definition sign_with_identity (k : InMemoryKeyStore) (message : list byte) : list byte :=
  Pq.ed_sign (ik_signing (ks_identity k)) message.
Definition x25519_dh_with_identity (k : InMemoryKeyStore) (peer : list byte) : list byte :=
  x25519_dh (xk_secret (ks_x25519 k)) peer.

(** Ordered by index, as [BTreeMap] iterates. *)
Definition sorted_indices (m : gmap Z DeviceRecord) : list Z := merge_sort Z.le (map_to_list m).*1.
Definition active_device_indices : st InMemoryKeyStore IdentityError (list Z) :=
  locked (let! k := sget in sret (sorted_indices (filter (fun p => revoked p.2 = false) (devices k)))).
Definition all_known_device_indices : st InMemoryKeyStore IdentityError (list Z) :=
  locked (let! k := sget in sret (sorted_indices (devices k))).
Definition device_count : st InMemoryKeyStore IdentityError Z :=
  locked (let! k := sget in sret (Z.of_nat (size (devices k)))).

Definition device_public (index : Z) : st InMemoryKeyStore IdentityError (option (list byte)) :=
  locked (let! k := sget in sret (public <$> devices k !! index)).
Definition device_attestation (index : Z) : st InMemoryKeyStore IdentityError (option DeviceAttestation) :=
  locked (let! k := sget in sret (attestation <$> devices k !! index)).

Definition sign_with_device (index : Z) (message : list byte) : st InMemoryKeyStore IdentityError (list byte) :=
  locked (
    let! k := sget in
    let! rec := slift (ok_or (devices k !! index) (UnknownDevice index)) in
    fail_if revoked rec with RevokedDevice index ;;
    sret (Pq.ed_sign (dk_signing (private rec)) message)).

(** [now] is the reading of the clock. *)
Definition add_device (now : Z) (index : Z) (ttl_secs : option Z) : st InMemoryKeyStore IdentityError DeviceAttestation :=
  locked (
    let! k := sget in
    fail_if bool_decide (is_Some (devices k !! index)) with DuplicateDevice index ;;
    let! device := slift (device_derive (ks_seed k) (ks_account k) index) in
    let public := dk_public device in
    let issued_at := now in
    let expires_at := match ttl_secs with Some ttl => sat_add U64_MAX issued_at ttl | None => NEVER_EXPIRES end in
    let att := issue (ks_identity k) (ks_account k) index public issued_at expires_at in
    let! _ := sput (set_devices k (<[index := {| private := device; public := public; attestation := att; revoked := false |}]> (devices k))) in
    let! hybrid := slift (hybrid_device_derive (ks_seed k) (ks_account k) index) in
    let! k := sget in
    let! _ := sput (set_hybrid k (<[index := hybrid]> (hybrid_devices k))) in
    sret att).

Definition revoke_device (index : Z) : st InMemoryKeyStore IdentityError unit :=
  locked (
    let! k := sget in
    let! rec := slift (ok_or (devices k !! index) (UnknownDevice index)) in
    sput (set_devices k (<[index := {| private := private rec; public := public rec;
                                       attestation := attestation rec; revoked := true |}]> (devices k)))).

(** [rng] is the system generator; it is not part of the store. *)
Definition hybrid_device_public (k : InMemoryKeyStore) (index : Z) : option Pq.HybridPublicKey :=
  hk_public <$> hybrid_devices k !! index.
Definition sign_with_hybrid_identity (k : InMemoryKeyStore) (message : list byte) : st R IdentityError (list byte) :=
  hybrid_key_sign (ks_hybrid_identity k) message.
Definition sign_slh_dsa_backup_proof (k : InMemoryKeyStore) (message : list byte) : st R IdentityError (list byte) :=
  sign_rotation_proof (ks_slh_backup k) message.
Definition cloud_wrap_recovery_decapsulate (k : InMemoryKeyStore) (ct : list byte) : res IdentityError (list byte) :=
  decapsulate (ks_recovery k) ct.
Definition sign_with_hybrid_device (index : Z) (message : list byte) (rng : R) : st InMemoryKeyStore IdentityError (list byte * R) :=
  let! _ := locked (
    let! k := sget in
    let! rec := slift (ok_or (devices k !! index) (UnknownDevice index)) in
    fail_if revoked rec with RevokedDevice index ;;
    sret tt) in
  let! k := sget in
  let! hybrid := slift (ok_or (hybrid_devices k !! index) (UnknownDevice index)) in
  let '(r, rng) := hybrid_key_sign hybrid message rng in
  let! sig := slift r in
  sret (sig, rng).
End Keys.

(** ** Paths: proofs *)
Lemma lor_hardened h : 0 <= h < HARDENED_BIT -> Z.lor h HARDENED_BIT = h + HARDENED_BIT.
Proof.
  intros Hh. rewrite <- Z.add_lor_land. unfold HARDENED_BIT in *.
  assert (Hz : Z.land h 2147483648 = 0); [|lia].
  change 2147483648 with (2 ^ 31) in *. apply Z.bits_inj'. intros n Hn.
  rewrite Z.land_spec, Z.bits_0, Z.pow2_bits_eqb by lia.
  destruct (Z.eqb_spec 31 n) as [<-|]; [|apply andb_false_r]. rewrite andb_true_r.
  destruct (Z.eq_dec h 0) as [->|]; [done|].
  apply Z.bits_above_log2; [lia|]. apply Z.log2_lt_pow2; lia.
Qed.

Definition is_u31 (z : Z) : Prop := 0 <= z < HARDENED_BIT.

Lemma from_human_Ok h : is_u31 h -> from_human h = Ok (h + HARDENED_BIT).
Proof. intros Hh. unfold from_human. rewrite (proj2 (Z.ltb_lt _ _)) by apply Hh. by rewrite lor_hardened. Qed.

Lemma from_human_Panic h : HARDENED_BIT <= h -> from_human h = Panic.
Proof. intros Hh. unfold from_human. by rewrite (proj2 (Z.ltb_ge _ _)). Qed.

Lemma human_from_human h i : is_u31 h -> from_human h = Ok i -> human i = h /\ from_raw i = Ok i.
Proof.
  intros Hh. rewrite from_human_Ok by done. intros Hi. apply Ok_inj in Hi as <-. unfold is_u31, HARDENED_BIT in *. split.
  - unfold human. change (Z.lxor U32_MAX HARDENED_BIT) with (Z.ones 31). rewrite Z.land_ones by lia.
    symmetry. apply Z.mod_unique with 1; unfold HARDENED_BIT in *; lia.
  - unfold from_raw, rguard, HARDENED_BIT. by rewrite (proj2 (Z.ltb_ge _ _)) by lia.
Qed.

(** The keys an account derives. *)
Inductive KeyUse :=
| UseIdentity (account : Z) | UseDevice (account device_index : Z) | UseProfile (account : Z)
| UseBackup (account : Z) | UseSealedIdentity (account : Z).
Definition path_of (u : KeyUse) : res IdentityError (list Z) :=
  match u with
  | UseIdentity a => path_identity a
  | UseDevice a d => path_device a d
  | UseProfile a => path_profile a
  | UseBackup a => path_backup a
  | UseSealedIdentity a => path_sealed_identity a
  end.
Definition use_ok (u : KeyUse) : Prop :=
  match u with
  | UseDevice a d => is_u31 a /\ is_u31 d
  | UseIdentity a | UseProfile a | UseBackup a | UseSealedIdentity a => is_u31 a
  end.
Definition use_path (u : KeyUse) : list Z :=
  let b := HARDENED_BIT in
  match u with
  | UseIdentity a => [UMBRELLA_COIN_TYPE + b; a + b; 0 + b]
  | UseDevice a d => [UMBRELLA_COIN_TYPE + b; a + b; 1 + b; d + b]
  | UseProfile a => [UMBRELLA_COIN_TYPE + b; a + b; 2 + b]
  | UseBackup a => [UMBRELLA_COIN_TYPE + b; a + b; 3 + b]
  | UseSealedIdentity a => [UMBRELLA_COIN_TYPE + b; a + b; 4 + b]
  end.

Lemma coin_u31 : is_u31 UMBRELLA_COIN_TYPE.
Proof. unfold is_u31. by vm_compute. Qed.

Lemma role_path_Ok a r : is_u31 a ->
  role_path a r = Ok [UMBRELLA_COIN_TYPE + HARDENED_BIT; a + HARDENED_BIT; role_number r + HARDENED_BIT].
Proof.
  intros Ha. unfold role_path. rewrite (from_human_Ok _ coin_u31). cbn [rbind]. rewrite from_human_Ok by done. cbn [rbind].
  unfold as_hardened_index, from_role. rewrite lor_hardened by (destruct r; vm_compute; split; congruence). done.
Qed.

Lemma path_device_Ok a d : is_u31 a -> is_u31 d -> path_device a d = Ok (use_path (UseDevice a d)).
Proof.
  intros Ha Hd. unfold path_device. rewrite (from_human_Ok _ coin_u31). cbn [rbind].
  rewrite (from_human_Ok a), (from_human_Ok d) by done. done.
Qed.

Lemma path_of_Ok u : use_ok u -> path_of u = Ok (use_path u).
Proof.
  destruct u; cbn [path_of use_ok]; [| intros [? ?]; by apply path_device_Ok | | |];
    intros; unfold path_identity, path_profile, path_backup, path_sealed_identity; by rewrite role_path_Ok.
Qed.

Lemma use_path_inj u v : use_path u = use_path v -> u = v.
Proof. destruct u, v; cbn [use_path]; intros Hp; injection Hp; intros; f_equal; lia. Qed.

Lemma use_path_u32 u : use_ok u -> Forall is_u32 (use_path u).
Proof.
  destruct u; cbn [use_ok use_path]; unfold is_u31, HARDENED_BIT, UMBRELLA_COIN_TYPE; intros;
    repeat constructor; unfold U32_MAX; lia.
Qed.

(** A device index of 2^31 or more panics. *)
Lemma path_device_Panic a d : is_u31 a -> HARDENED_BIT <= d -> path_device a d = Panic.
Proof.
  intros Ha Hd. unfold path_device. rewrite (from_human_Ok _ coin_u31). cbn [rbind].
  rewrite from_human_Ok by done. cbn [rbind]. by rewrite from_human_Panic.
Qed.

(** ** Key derivation: proofs *)
Class IdBackendLaws (R : Type) {IB : IdBackend R} := {
  hmac_len : forall k d, len (hmac_sha512 k d) = 64;
  (* BIP-39: the phrase of an entropy parses back to it, with three words for four bytes *)
  phrase_of_entropy : forall e, len e = 16 \/ len e = 32 ->
    phrase_trim (mnemonic_phrase e) = mnemonic_phrase e /\ phrase_words (mnemonic_phrase e) = len e * 3 / 4 /\
    mnemonic_parse (mnemonic_phrase e) = Some e
}.

Section Derivation.
Context {R : Type} {PB : Pq.PqBackend} {Ed : Ed25519} {RG : Pq.Rng R} {IB : IdBackend R} {IL : IdBackendLaws R} {PL : Pq.PqBackendLaws}.

(** The HMAC calls (key and data) of a derivation, in order. *)
Fixpoint path_calls (m : MasterKey) (path : list Z) : list (list byte * list byte) :=
  match path with
  | [] => []
  | i :: path => (chain_code m, child_data m i) :: path_calls (derive_child m i) path
  end.
Definition seed_calls (sd : list byte) (path : list Z) : list (list byte * list byte) :=
  (MASTER_HMAC_KEY, sd) :: path_calls (master_from_seed sd) path.

(** Two different HMAC calls of the derivations of [p] and [q] whose outputs agree on the 32
    bytes that become a secret. *)
Definition hmac_collision (sd : list byte) (p q : list Z) : Prop :=
  exists c1 c2, c1 ∈ seed_calls sd p ++ seed_calls sd q /\ c2 ∈ seed_calls sd p ++ seed_calls sd q /\ c1 <> c2 /\
    take 32 (hmac_sha512 c1.1 c1.2) = take 32 (hmac_sha512 c2.1 c2.2).

Lemma derive_path_snoc m p i : derive_path m (p ++ [i]) = derive_child (derive_path m p) i.
Proof. revert m. induction p as [|j p IH]; intros m; [done|]. cbn [app derive_path]. apply IH. Qed.

Lemma path_calls_snoc m p i :
  path_calls m (p ++ [i]) = path_calls m p ++ [(chain_code (derive_path m p), child_data (derive_path m p) i)].
Proof. revert m. induction p as [|j p IH]; intros m; [done|]. cbn [app path_calls derive_path]. by rewrite IH. Qed.

Definition last_call (sd : list byte) (p : list Z) : list byte * list byte :=
  match reverse p with
  | [] => (MASTER_HMAC_KEY, sd)
  | i :: r => (chain_code (derive_path (master_from_seed sd) (reverse r)), child_data (derive_path (master_from_seed sd) (reverse r)) i)
  end.

Lemma last_call_snoc sd p i :
  last_call sd (p ++ [i]) = (chain_code (derive_path (master_from_seed sd) p), child_data (derive_path (master_from_seed sd) p) i).
Proof. unfold last_call. by rewrite reverse_snoc, reverse_involutive. Qed.

Lemma last_call_in sd p : last_call sd p ∈ seed_calls sd p.
Proof.
  destruct p as [|i p _] using rev_ind; [apply list_elem_of_here|]. rewrite last_call_snoc. unfold seed_calls.
  rewrite path_calls_snoc. apply list_elem_of_further, elem_of_app. right. by apply list_elem_of_singleton.
Qed.

Lemma secret_last_call sd p :
  secret (derive_path (master_from_seed sd) p) = take 32 (hmac_sha512 (last_call sd p).1 (last_call sd p).2).
Proof. destruct p as [|i p _] using rev_ind; [done|]. by rewrite last_call_snoc, derive_path_snoc. Qed.

Lemma secret_len sd p : len (secret (derive_path (master_from_seed sd) p)) = 32.
Proof. rewrite secret_last_call, len_take, hmac_len. done. Qed.

Lemma child_data_inj m m' i j :
  len (secret m) = 32 -> len (secret m') = 32 -> is_u32 i -> is_u32 j ->
  child_data m i = child_data m' j -> secret m = secret m' /\ i = j.
Proof.
  intros Hm Hm' Hi Hj He. unfold child_data in He. peel He E0. peel He E1. split; [done|].
  apply (to_be_inj 4); [| |done]; unfold is_u32, U32_MAX in *; change (256 ^ Z.of_nat 4) with (2 ^ 32); lia.
Qed.

Lemma seed_calls_snoc sd p i c : c ∈ seed_calls sd p -> c ∈ seed_calls sd (p ++ [i]).
Proof.
  unfold seed_calls. rewrite path_calls_snoc, !elem_of_cons, elem_of_app. tauto.
Qed.

Lemma collision_snoc sd p q i j : hmac_collision sd p q -> hmac_collision sd (p ++ [i]) (q ++ [j]).
Proof.
  intros (c1 & c2 & H1 & H2 & Hne & He). exists c1, c2.
  repeat split; try done; rewrite elem_of_app in *; intuition auto using seed_calls_snoc.
Qed.

Lemma calls_collide sd p q :
  last_call sd p <> last_call sd q ->
  secret (derive_path (master_from_seed sd) p) = secret (derive_path (master_from_seed sd) q) -> hmac_collision sd p q.
Proof.
  intros Hne He. rewrite !secret_last_call in He. exists (last_call sd p), (last_call sd q).
  rewrite !elem_of_app. auto using last_call_in.
Qed.

Lemma root_call_differs sd p i :
  len sd <> 37 -> last_call sd [] <> last_call sd (p ++ [i]).
Proof.
  intros Hs He. rewrite last_call_snoc in He. apply (f_equal snd), (f_equal len) in He. cbn [last_call snd reverse] in He.
  unfold child_data in He. rewrite !len_app, secret_len, len_to_be in He. by apply Hs.
Qed.

(** Different paths lead to different secrets, or HMAC collides on the calls made. *)
Lemma secrets_differ sd p q :
  len sd <> 37 -> Forall is_u32 p -> Forall is_u32 q ->
  secret (derive_path (master_from_seed sd) p) = secret (derive_path (master_from_seed sd) q) ->
  p = q \/ hmac_collision sd p q.
Proof.
  intros Hs. revert q. induction p as [|i p IH] using rev_ind; intros q Hp Hq He.
  - destruct q as [|j q _] using rev_ind; [by left|]. right. apply calls_collide; [|done]. by apply root_call_differs.
  - destruct q as [|j q _] using rev_ind.
    { right. apply calls_collide; [|done]. intros Hl. symmetry in Hl. by apply root_call_differs in Hl. }
    apply Forall_app in Hp as [Hp Hi], Hq as [Hq Hj]. rewrite Forall_singleton in Hi, Hj.
    destruct (decide (last_call sd (p ++ [i]) = last_call sd (q ++ [j]))) as [Hl|Hl]; [|right; by apply calls_collide].
    rewrite !last_call_snoc in Hl. apply (f_equal snd) in Hl as Hd. cbn [snd] in Hd.
    apply child_data_inj in Hd as [Hsec ->]; [|apply secret_len..|done|done].
    destruct (IH q Hp Hq Hsec) as [->|]; [by left|]. right. by apply collision_snoc.
Qed.

(** The secrets of two different uses (an account's identity, profile, backup and sealed-sender
    keys, the keys of its devices, and those of other accounts of the seed) are different,
    unless two of the HMAC calls their derivations make agree on the 32 bytes of a secret. *)
Theorem key_uses_separated sd u v p q m n :
  len sd = SEED_LEN -> use_ok u -> use_ok v -> u <> v ->
  path_of u = Ok p -> path_of v = Ok q ->
  derive_from_seed sd p = Ok m -> derive_from_seed sd q = Ok n ->
  secret m <> secret n \/ hmac_collision sd p q.
Proof.
  intros Hs Hu Hv Hne Hp Hq Hm Hn. rewrite path_of_Ok in Hp, Hq by done.
  apply Ok_inj in Hp as <-, Hq as <-, Hm as <-, Hn as <-.
  destruct (decide (secret (derive_path (master_from_seed sd) (use_path u)) = secret (derive_path (master_from_seed sd) (use_path v)))) as [He|];
    [|by left].
  right. apply secrets_differ in He as [He|]; [by apply use_path_inj in He|done| |by apply use_path_u32..].
  rewrite Hs. done.
Qed.

(** ** Attestations: proofs *)
Record att_wf (a : DeviceAttestation) : Prop := {
  awf_version : is_u8 (version a); awf_account : is_u32 (account a); awf_index : is_u32 (device_index a);
  awf_issued : is_u64 (issued_at a); awf_expires : is_u64 (expires_at a);
  awf_key : len (device_pubkey a) = 32 /\ vk_valid (device_pubkey a) = true; awf_sig : len (signature a) = 64
}.

Lemma transcript_inj v v' a a' d d' i i' e e' k k' :
  is_u8 v -> is_u8 v' -> is_u32 a -> is_u32 a' -> is_u32 d -> is_u32 d' -> is_u64 i -> is_u64 i' -> is_u64 e -> is_u64 e' ->
  build_transcript v a d i e k = build_transcript v' a' d' i' e' k' ->
  v = v' /\ a = a' /\ d = d' /\ i = i' /\ e = e' /\ k = k'.
Proof.
  intros Hv Hv' Ha Ha' Hd Hd' Hi Hi' He He' Ht. unfold build_transcript in Ht.
  peel Ht E0. peel Ht E1. peel Ht Ev. peel Ht Ea. peel Ht Ed'. peel Ht Ei. peel Ht Ee.
  assert (Hu : forall x y, is_u32 x -> is_u32 y -> to_be 4 x = to_be 4 y -> x = y).
  { intros x y Hx Hy. apply to_be_inj; unfold is_u32, U32_MAX in *; change (256 ^ Z.of_nat 4) with (2 ^ 32); lia. }
  repeat split; auto using to_be_u64_inj.
  injection Ev as Ev. apply (f_equal u8) in Ev. rewrite !u8_as_u8 in Ev.
  unfold is_u8, U8_MAX in *. by rewrite !Z.mod_small in Ev by lia.
Qed.

Lemma att_dec_enc a : att_wf a -> from_bytes (to_bytes a) = Ok a.
Proof.
  destruct a as [v ac di iss ex k sg]. intros [Hv Ha Hd Hi He [Hk Hkv] Hs].
  cbn [version account device_index issued_at expires_at device_pubkey signature] in *.
  unfold from_bytes, to_bytes. cbn [version account device_index issued_at expires_at device_pubkey signature].
  rd_index (as_u8 v). rd_slice (to_be 4 ac). rd_slice (to_be 4 di). rd_slice (to_be 8 iss). rd_slice (to_be 8 ex). rd_slice k.
  unfold public_from_bytes. rewrite Hkv. cbn [rbind]. rd_slice sg.
  rewrite !from_be_to_be_u32, !from_be_to_be_u64, u8_as_u8 by done.
  unfold is_u8, U8_MAX in Hv. by rewrite Z.mod_small by lia.
Qed.

Lemma att_enc_dec b a : len b = ATTESTATION_SERIALIZED_LEN -> from_bytes b = Ok a -> to_bytes a = b /\ att_wf a.
Proof.
  intros Hl. unfold from_bytes, public_from_bytes. change ATTESTATION_SERIALIZED_LEN with 121 in Hl. intros Hd.
  inv_index Hd v S0. inv_slice Hd ac S1 L1. inv_slice Hd di S2 L2. inv_slice Hd iss S3 L3. inv_slice Hd xp S4 L4.
  inv_slice Hd k S5 L5. destruct (vk_valid k) eqn:Hk; [|done]. cbn [rbind] in Hd. inv_slice Hd sg S6 L6. apply Ok_inj in Hd as <-.
  pose proof (u8_range v). split.
  - unfold to_bytes. cbn [version account device_index issued_at expires_at device_pubkey signature].
    rewrite as_u8_u8, !to_be_from_be_n by lia. eapply (slices_cover (E := IdentityError)); [glue_slices|lia].
  - split; cbn [version account device_index issued_at expires_at device_pubkey signature]; auto;
      first [apply from_be_u32; lia|apply from_be_u64; lia|unfold is_u8, U8_MAX; lia|lia|split; [lia|done]].
Qed.

(** An attestation verifies under the key that issued it exactly until it expires. *)
Lemma issue_verify identity acc d k iss e now :
  ik_public identity = Pq.ed_public (ik_signing identity) ->
  verify (issue identity acc d k iss e) (ik_public identity) now =
  if negb (e =? NEVER_EXPIRES) && (e <? now) then Err (AttestationExpired e now) else Ok tt.
Proof.
  intros Hp. unfold verify, issue, rguard. cbn [version account device_index issued_at expires_at device_pubkey signature].
  rewrite Z.eqb_refl. cbn [negb]. destruct (_ && _); [done|]. unfold public_verify. by rewrite Hp, Pq.ed_correct.
Qed.

(** ** The key store: proofs *)

(** Calls on a store, with their arguments; [sys] is the state of the system generator. *)
Inductive ks_op :=
| OpAdd (now index : Z) (ttl : option Z) | OpRevoke (index : Z) | OpSign (index : Z) (message : list byte)
| OpSignHybrid (index : Z) (message : list byte) (sys : R) | OpPublic (index : Z) | OpAttestation (index : Z)
| OpActive | OpKnown | OpCount.
Definition forget {A} (r : res IdentityError A * InMemoryKeyStore) : res IdentityError unit * InMemoryKeyStore :=
  (rmap (fun _ => tt) r.1, r.2).
Definition run_op (op : ks_op) (k : InMemoryKeyStore) : res IdentityError unit * InMemoryKeyStore :=
  match op with
  | OpAdd now i ttl => forget (add_device now i ttl k)
  | OpRevoke i => forget (revoke_device i k)
  | OpSign i m => forget (sign_with_device i m k)
  | OpSignHybrid i m sys => forget (sign_with_hybrid_device i m sys k)
  | OpPublic i => forget (device_public i k)
  | OpAttestation i => forget (device_attestation i k)
  | OpActive => forget (active_device_indices k)
  | OpKnown => forget (all_known_device_indices k)
  | OpCount => forget (device_count k)
  end.
Definition ks_step (k k' : InMemoryKeyStore) : Prop := exists op, k' = (run_op op k).2.

Definition device_record (k : InMemoryKeyStore) (i : Z) (r : DeviceRecord) : Prop :=
  is_u31 i /\ device_derive (ks_seed k) (ks_account k) i = Ok (private r) /\ public r = dk_public (private r) /\
  exists iss e, attestation r = issue (ks_identity k) (ks_account k) i (public r) iss e.
Record ks_wf (k : InMemoryKeyStore) : Prop := {
  kwf_account : is_u31 (ks_account k);
  kwf_identity : identity_derive_from_seed_bytes (ks_seed k) (ks_account k) = Ok (ks_identity k);
  kwf_devices : forall i r, devices k !! i = Some r -> device_record k i r;
  kwf_hybrid : forall i, is_Some (devices k !! i) <-> is_Some (hybrid_devices k !! i)
}.

(** What a store never changes. *)
Definition same_account (k k' : InMemoryKeyStore) : Prop :=
  ks_seed k' = ks_seed k /\ ks_account k' = ks_account k /\ ks_identity k' = ks_identity k.
#[global] Instance same_account_pre : PreOrder same_account.
Proof. split; [done|]. intros a b c (? & ? & ?) (? & ? & ?). unfold same_account. intuition congruence. Qed.

Lemma device_derive_Ok sd a d : is_u31 a -> is_u31 d ->
  exists k, device_derive sd a d = Ok k /\ dk_public k = Pq.ed_public (dk_signing k).
Proof. intros Ha Hd. unfold device_derive. rewrite path_device_Ok by done. cbn. by eexists. Qed.

Lemma hybrid_device_derive_Ok sd a d : is_u31 a -> is_u31 d -> exists h, hybrid_device_derive sd a d = Ok h.
Proof. intros Ha Hd. unfold hybrid_device_derive. rewrite path_device_Ok by done. cbn. by eexists. Qed.

(** Every outcome of [add_device]. *)
Lemma add_device_cases now i ttl k :
  is_u31 (ks_account k) -> 0 <= i ->
  (poisoned k = true /\ add_device now i ttl k = (Panic, k)) \/
  (poisoned k = false /\ is_Some (devices k !! i) /\ add_device now i ttl k = (Err (DuplicateDevice i), k)) \/
  (poisoned k = false /\ devices k !! i = None /\ HARDENED_BIT <= i /\ add_device now i ttl k = (Panic, poison k)) \/
  (poisoned k = false /\ devices k !! i = None /\ i < HARDENED_BIT /\ exists d h e,
     let att := issue (ks_identity k) (ks_account k) i (dk_public d) now e in
     device_derive (ks_seed k) (ks_account k) i = Ok d /\
     e = match ttl with Some t => sat_add U64_MAX now t | None => NEVER_EXPIRES end /\
     add_device now i ttl k = (Ok att,
       set_hybrid (set_devices k (<[i := {| private := d; public := dk_public d; attestation := att; revoked := false |}]> (devices k)))
                  (<[i := h]> (hybrid_devices k)))).
Proof.
  intros Ha Hi. unfold add_device, locked. destruct (poisoned k) eqn:Hp; [by left|right].
  unfold sbind, slift, sput, sget, sret, sguard. destruct (decide (is_Some (devices k !! i))) as [Hd|Hd].
  { left. by rewrite bool_decide_eq_true_2. }
  right. rewrite bool_decide_eq_false_2 by done. apply eq_None_not_Some in Hd.
  destruct (Z.le_gt_cases HARDENED_BIT i) as [Hh|Hh]; [left|right]; repeat split; try done.
  - assert (Hdd : device_derive (ks_seed k) (ks_account k) i = Panic) by (unfold device_derive; by rewrite path_device_Panic).
    by rewrite Hdd.
  - destruct (device_derive_Ok (ks_seed k) (ks_account k) i) as (d & Hdd & _); [done|split; done|].
    destruct (hybrid_device_derive_Ok (ks_seed k) (ks_account k) i) as (h & Hh'); [done|split; done|].
    exists d, h, (match ttl with Some t => sat_add U64_MAX now t | None => NEVER_EXPIRES end).
    split; [done|]. split; [done|]. by rewrite Hdd, Hh'.
Qed.

Lemma locked_read {A} (f : InMemoryKeyStore -> A) k :
  locked (sbind sget (fun k => sret (f k))) k = (if poisoned k then Panic else Ok (f k), k).
Proof. unfold locked. by destruct (poisoned k). Qed.

Lemma sign_with_device_cases i m k :
  sign_with_device i m k =
  (if poisoned k then Panic else match devices k !! i with
     | None => Err (UnknownDevice i)
     | Some r => if revoked r then Err (RevokedDevice i) else Ok (Pq.ed_sign (dk_signing (private r)) m)
     end, k).
Proof.
  unfold sign_with_device, locked. destruct (poisoned k); [done|]. unfold sbind, sget, slift, ok_or, sguard.
  destruct (devices k !! i) as [r|]; [|done]. by destruct (revoked r).
Qed.

Lemma revoke_device_cases i k :
  revoke_device i k =
  if poisoned k then (Panic, k) else match devices k !! i with
    | None => (Err (UnknownDevice i), k)
    | Some r => (Ok tt, set_devices k (<[i := {| private := private r; public := public r;
                                              attestation := attestation r; revoked := true |}]> (devices k)))
    end.
Proof.
  unfold revoke_device, locked. destruct (poisoned k); [done|]. unfold sbind, sget, slift, ok_or.
  by destruct (devices k !! i) as [r|].
Qed.

(** Signing with a hybrid device key never changes the store. *)
Lemma sign_hybrid_cases i m sys k :
  exists r, sign_with_hybrid_device i m sys k = (r, k) /\
  (poisoned k = true -> r = Panic) /\
  (forall d, poisoned k = false -> devices k !! i = Some d -> revoked d = true -> r = Err (RevokedDevice i)).
Proof.
  unfold sign_with_hybrid_device, locked. unfold sbind at 1. destruct (poisoned k) eqn:Hp.
  { exists Panic. by repeat split. }
  unfold sbind at 1, sget at 1. unfold sbind at 1, slift at 1, ok_or at 1.
  destruct (devices k !! i) as [d|] eqn:Hd; [|eexists; repeat split; done].
  unfold sguard. destruct (revoked d) eqn:Hr.
  { eexists. repeat split; try done. }
  unfold sret at 1. unfold sbind at 1, sget at 1. unfold sbind at 1, slift at 1, ok_or.
  destruct (hybrid_devices k !! i) as [h|]; [|eexists; split; [done|]; split; [congruence|intros; congruence]].
  destruct (hybrid_key_sign h m sys) as [q sys']. unfold sbind, slift, sret.
  destruct q; eexists; (split; [done|]; split; [congruence|intros; congruence]).
Qed.

(** What one call can do to a store: nothing, poison it, add a device or revoke one. *)
Lemma run_op_cases op k :
  is_u31 (ks_account k) -> (match op with OpAdd _ i _ => 0 <= i | _ => True end) ->
  let k' := (run_op op k).2 in
  k' = k \/ (poisoned k = false /\ k' = poison k) \/
  (poisoned k = false /\ exists i d h r, devices k !! i = None /\ device_record k i r /\ private r = d /\ revoked r = false /\
     k' = set_hybrid (set_devices k (<[i := r]> (devices k))) (<[i := h]> (hybrid_devices k))) \/
  (poisoned k = false /\ exists i r, devices k !! i = Some r /\
     k' = set_devices k (<[i := {| private := private r; public := public r;
                                   attestation := attestation r; revoked := true |}]> (devices k))).
Proof.
  intros Ha Hop. cbv zeta. destruct op as [now i ttl|i|i m|i m sys|i|i| | |]; cbn [run_op forget snd].
  - destruct (add_device_cases now i ttl k Ha Hop) as [[_ ->]|[(_ & _ & ->)|[(Hp & _ & _ & ->)|(Hp & Hd & Hi & d & h & e & Hdd & -> & ->)]]];
      cbn [snd]; [by left|by left|by right; left|]. right; right; left. split; [done|].
    eexists i, d, h, {| private := d; public := dk_public d; attestation := _; revoked := false |}.
    split; [done|]. split; [|done]. split; [by split|]. split; [done|]. split; [done|]. cbn [attestation public]. by eexists _, _.
  - rewrite revoke_device_cases. destruct (poisoned k) eqn:Hp; [by left|].
    destruct (devices k !! i) as [r|] eqn:Hd; [|by left]. right; right; right. split; [done|]. by exists i, r.
  - rewrite sign_with_device_cases. by left.
  - destruct (sign_hybrid_cases i m sys k) as (r & -> & _). by left.
  - left. unfold device_public. by rewrite locked_read.
  - left. unfold device_attestation. by rewrite locked_read.
  - left. unfold active_device_indices. by rewrite locked_read.
  - left. unfold all_known_device_indices. by rewrite locked_read.
  - left. unfold device_count. by rewrite locked_read.
Qed.

(** Calls with [u32] indices. *)
Definition op_ok (op : ks_op) : Prop := match op with OpAdd _ i _ => 0 <= i | _ => True end.
Inductive ks_run : InMemoryKeyStore -> InMemoryKeyStore -> Prop :=
| run_refl k : ks_run k k
| run_step k k' op : ks_run k k' -> op_ok op -> ks_run k (run_op op k').2.

Lemma insert_dom_iff {A B} (m : gmap Z A) (n : gmap Z B) i x y :
  (forall j, is_Some (m !! j) <-> is_Some (n !! j)) ->
  forall j, is_Some (<[i := x]> m !! j) <-> is_Some (<[i := y]> n !! j).
Proof. intros H j. rewrite !lookup_insert_is_Some. specialize (H j). tauto. Qed.

Lemma run_op_wf op k : op_ok op -> ks_wf k -> ks_wf (run_op op k).2 /\ same_account k (run_op op k).2.
Proof.
  intros Ho [Ha Hi Hd Hh].
  destruct (run_op_cases op k Ha Ho) as [->|[[_ ->]|[(_ & i & d & h & r & Hn & Hr & _ & _ & ->)|(_ & i & r & Hs & ->)]]].
  - split; [by constructor|done].
  - split; [by constructor|done].
  - split; [split; cbn; [done|done| |by apply insert_dom_iff]|done].
    intros j rj. rewrite lookup_insert_Some. intros [[<- <-]|[_ Hj]]; [done|by apply Hd].
  - split; [split; cbn; [done|done| |]|done].
    + intros j rj. rewrite lookup_insert_Some. intros [[<- <-]|[_ Hj]]; [|by apply Hd]. apply Hd in Hs. done.
    + intros j. rewrite <- Hh, lookup_insert_is_Some. split; [|destruct (decide (i = j)); auto].
      intros [<-|[_ ?]]; [by rewrite Hs|done].
Qed.

Lemma open_store_wf sd acc k : is_u31 acc -> open_store sd acc = Ok k -> ks_wf k /\ ks_account k = acc /\ poisoned k = false.
Proof.
  intros Ha Ho. unfold open_store in Ho. apply rbind_Ok in Ho as (idk & Hi & Ho).
  apply rbind_Ok in Ho as (x & _ & Ho). apply rbind_Ok in Ho as (hy & _ & Ho). apply rbind_Ok in Ho as (slh & _ & Ho).
  apply rbind_Ok in Ho as (rc & _ & Ho). apply Ok_inj in Ho as <-. split; [|done].
  split; cbn; [done|done|by intros i r; rewrite lookup_empty|].
  intros i. rewrite !lookup_empty. done.
Qed.

Lemma run_wf k k' : ks_wf k -> ks_run k k' -> ks_wf k' /\ same_account k k'.
Proof.
  intros Hw Hr. induction Hr as [k|k k' op _ IH Ho]; [by split|].
  destruct (IH Hw) as [Hw' Hs]. destruct (run_op_wf op k' Ho Hw') as [Hw2 Hs2]. split; [done|]. by etrans.
Qed.

(** A device marked revoked stays so, and a poisoned store stays poisoned. *)
Definition is_revoked (k : InMemoryKeyStore) (i : Z) : Prop := exists r, devices k !! i = Some r /\ revoked r = true.
Lemma run_op_mono op k i :
  ks_wf k -> op_ok op -> (is_revoked k i -> is_revoked (run_op op k).2 i) /\ (poisoned k = true -> poisoned (run_op op k).2 = true).
Proof.
  intros [Ha _ _ _] Ho.
  destruct (run_op_cases op k Ha Ho) as [->|[[_ ->]|[(Hp & j & d & h & r & Hn & _ & _ & _ & ->)|(Hp & j & r & Hs & ->)]]];
    [done|done| |]; (split; [|intros; cbn; congruence]); intros (ri & Hl & Hv).
  - exists ri. cbn. rewrite lookup_insert_ne; [done|]. intros ->. congruence.
  - destruct (decide (j = i)) as [->|Hne]; unfold is_revoked; cbn [devices set_devices].
    + rewrite lookup_insert_eq. by eexists.
    + exists ri. by rewrite lookup_insert_ne.
Qed.

Lemma run_mono k k' i :
  ks_wf k -> ks_run k k' -> (is_revoked k i -> is_revoked k' i) /\ (poisoned k = true -> poisoned k' = true).
Proof.
  intros Hw Hr. induction Hr as [k|k k' op Hr IH Ho]; [done|]. destruct (run_wf k k' Hw Hr) as [Hw' _].
  destruct (run_op_mono op k' i Hw' Ho), (IH Hw). split; auto.
Qed.

(** C11. In every store reached from a fresh one: whatever a device signs verifies under the key in
    its attestation, which is issued by the account's identity for that device and verifies
    until it expires. *)
Theorem device_signatures_certified sd acc k0 k i m sig k' :
  is_u31 acc -> open_store sd acc = Ok k0 -> ks_run k0 k ->
  sign_with_device i m k = (Ok sig, k') ->
  k' = k /\ exists att, device_attestation i k = (Ok (Some att), k) /\ device_public i k = (Ok (Some (device_pubkey att)), k) /\
    account att = acc /\ device_index att = i /\ ed_verify (device_pubkey att) m sig = true /\
    forall now, verify att (ik_public (ks_identity k)) now =
      if negb (expires_at att =? NEVER_EXPIRES) && (expires_at att <? now) then Err (AttestationExpired (expires_at att) now) else Ok tt.
Proof.
  intros Ha Ho Hr Hs. destruct (open_store_wf sd acc k0 Ha Ho) as (Hw0 & Hacc & _).
  destruct (run_wf k0 k Hw0 Hr) as [Hw (_ & Hacc' & _)]. rewrite sign_with_device_cases in Hs.
  destruct (poisoned k) eqn:Hp; [done|]. destruct (devices k !! i) as [r|] eqn:Hd; [|done].
  destruct (revoked r); [done|]. injection Hs as <- <-. split; [done|].
  destruct (kwf_devices k Hw i r Hd) as (Hi & Hdd & Hpub & iss & e & Hatt). exists (attestation r).
  unfold device_attestation, device_public. rewrite !locked_read, Hp, Hd. cbn [fmap option_fmap option_map].
  rewrite Hatt. cbn [account device_index device_pubkey expires_at issue]. split; [done|]. split; [done|].
  split; [congruence|]. split; [done|]. split.
  - destruct (device_derive_Ok (ks_seed k) (ks_account k) i (kwf_account k Hw) Hi) as (d & Hd2 & Hpk).
    rewrite Hdd in Hd2. apply Ok_inj in Hd2 as <-. by rewrite Hpub, Hpk, Pq.ed_correct.
  - intros now. change e with (expires_at (issue (ks_identity k) (ks_account k) i (public r) iss e)). apply issue_verify.
    pose proof (kwf_identity k Hw) as Hid. unfold identity_derive_from_seed_bytes in Hid.
    apply rbind_Ok in Hid as (pt & _ & Hid). cbn in Hid. by apply Ok_inj in Hid as <-.
Qed.

(** A revoked device never signs again, classically or with its hybrid key, and its index is
    never reused, whatever is called on the store afterwards. *)
Theorem revocation_is_final sd acc k0 k k' i m sys now ttl :
  is_u31 acc -> open_store sd acc = Ok k0 -> ks_run k0 k -> 0 <= i ->
  (revoke_device i k).1 = Ok tt -> ks_run (revoke_device i k).2 k' -> poisoned k' = false ->
  sign_with_device i m k' = (Err (RevokedDevice i), k') /\
  sign_with_hybrid_device i m sys k' = (Err (RevokedDevice i), k') /\
  add_device now i ttl k' = (Err (DuplicateDevice i), k').
Proof.
  intros Ha Ho Hr Hi Hrev Hr' Hp'. destruct (open_store_wf sd acc k0 Ha Ho) as (Hw0 & _).
  destruct (run_wf k0 k Hw0 Hr) as [Hw _]. pose proof (run_op_wf (OpRevoke i) k I Hw) as [Hw1 _]. cbn [run_op forget snd] in Hw1.
  assert (Hir : is_revoked (revoke_device i k).2 i).
  { rewrite revoke_device_cases in *. destruct (poisoned k); [done|]. destruct (devices k !! i) as [r|]; [|done].
    unfold is_revoked. cbn [snd devices set_devices]. rewrite lookup_insert_eq. by eexists. }
  destruct (run_mono _ _ i Hw1 Hr') as [Hm _]. destruct (Hm Hir) as (r & Hd & Hv).
  split; [by rewrite sign_with_device_cases, Hp', Hd, Hv|]. split.
  - destruct (sign_hybrid_cases i m sys k') as (q & -> & _ & Hq). by rewrite (Hq r).
  - destruct (run_wf _ _ Hw1 Hr') as [[Ha' _ _ _] _].
    destruct (add_device_cases now i ttl k' Ha' Hi) as [[? _]|[(_ & _ & ->)|[(_ & ? & _)|(_ & ? & _)]]]; [congruence|done|congruence..].
Qed.

(** An index of 2^31 or more makes [add_device] panic while it holds the mutex: no device is
    added, and from then on every operation on the devices of the store panics, also for
    devices that were usable before. *)
Theorem large_index_bricks_store sd acc k0 k now i ttl :
  is_u31 acc -> open_store sd acc = Ok k0 -> ks_run k0 k -> poisoned k = false -> HARDENED_BIT <= i ->
  exists k1, add_device now i ttl k = (Panic, k1) /\ devices k1 = devices k /\
  forall k2 op, ks_run k1 k2 -> op_ok op -> (run_op op k2).1 = Panic.
Proof.
  intros Ha Ho Hr Hp Hi. destruct (open_store_wf sd acc k0 Ha Ho) as (Hw0 & _).
  destruct (run_wf k0 k Hw0 Hr) as [Hw _]. assert (H0 : 0 <= i) by (unfold HARDENED_BIT in Hi; lia).
  destruct (add_device_cases now i ttl k (kwf_account k Hw) H0) as [[? _]|[(_ & [r Hd] & _)|[(_ & _ & _ & He)|(_ & _ & ? & _)]]];
    [congruence| |exists (poison k)|lia].
  { apply (kwf_devices k Hw) in Hd as [[_ ?] _]. lia. }
  split; [done|]. split; [done|]. intros k2 op Hr2 Hop.
  pose proof (run_op_wf (OpAdd now i ttl) k H0 Hw) as [Hw1 _]. cbn [run_op forget snd] in Hw1. rewrite He in Hw1. cbn [snd] in Hw1.
  destruct (run_mono _ k2 i Hw1 Hr2) as [_ Hm]. specialize (Hm eq_refl).
  destruct op as [now' j t|j|j ms|j ms sys|j|j| | |]; cbn [run_op forget fst]; unfold device_public, device_attestation,
    active_device_indices, all_known_device_indices, device_count; rewrite ?locked_read, ?sign_with_device_cases, ?revoke_device_cases, ?Hm; try done.
  - unfold add_device, locked. by rewrite Hm.
  - destruct (sign_hybrid_cases j ms sys k2) as (q & -> & Hq & _). by rewrite (Hq Hm).
Qed.

(** ** Rotation: proofs *)

(** HKDF of RFC 5869 over HMAC-SHA-512: [T(i) = HMAC(PRK, T(i-1) || info || i)]. *)
Fixpoint hkdf_blocks (n : nat) (prk info prev : list byte) (i : Z) : list byte :=
  match n with
  | O => []
  | S n => let t := hmac_sha512 prk (prev ++ info ++ [as_u8 i]) in t ++ hkdf_blocks n prk info t (i + 1)
  end.
Definition hkdf_rfc5869 (salt ikm info : list byte) (l : Z) : list byte :=
  take (Z.to_nat l) (hkdf_blocks (Z.to_nat ((l + 63) / 64)) (hmac_sha512 salt ikm) info [] 1).

(** The rotated seed is HKDF-SHA-512 of the two factors with the old key as info, as the
    documentation says, and it is given only for the public key derived from the seed. *)
Theorem rotation_is_hkdf sd c old idk :
  identity_derive_from_seed_bytes (seed sd) 0 = Ok idk ->
  derive_rotated_identity_material sd c old =
    (if bool_decide (ik_public idk = old)
     then Ok (hkdf_rfc5869 ROTATION_DOMAIN_SEPARATOR (seed sd ++ code_entropy c) old SEED_LEN)
     else Err OldIdentityMismatch) /\
  (forall r, derive_rotated_identity_material sd c old = Ok r -> len r = SEED_LEN).
Proof.
  intros Hi. unfold derive_rotated_identity_material, rguard. rewrite Hi. cbn [rbind].
  assert (Heq : derive_rotation_seed (compose_rotation_ikm sd c) old =
                hkdf_rfc5869 ROTATION_DOMAIN_SEPARATOR (seed sd ++ code_entropy c) old SEED_LEN).
  { unfold hkdf_rfc5869, derive_rotation_seed, compose_rotation_ikm. change (Z.to_nat ((SEED_LEN + 63) / 64)) with 1%nat.
    cbn [hkdf_blocks]. by rewrite app_nil_r. }
  rewrite Heq. destruct (bool_decide (ik_public idk = old)); cbn [negb]; (split; [done|]); intros r Hr; [|done].
  apply Ok_inj in Hr as <-. rewrite <- Heq. unfold derive_rotation_seed. rewrite len_take, hmac_len. done.
Qed.

(** Both phrases read back to what they were generated from. *)
Theorem recovery_phrases_roundtrip sd e rng c rng' :
  len e = ENTROPY_LEN -> sd = {| entropy := e; seed := mnemonic_seed e |} ->
  (forall n r, 0 <= n -> len (Pq.fill_bytes n r).1 = n) -> code_generate rng = (c, rng') ->
  seed_from_mnemonic (seed_to_mnemonic sd) = Ok sd /\ code_from_phrase (phrase c) = Ok c /\
  seed_from_mnemonic (phrase c) = Err (InvalidWordCount MNEMONIC_WORD_COUNT CODE_RECOVERY_WORD_COUNT) /\
  code_from_phrase (seed_to_mnemonic sd) = Err (InvalidCodeRecoveryWordCount CODE_RECOVERY_WORD_COUNT MNEMONIC_WORD_COUNT).
Proof.
  intros He -> Hf Hc. unfold code_generate in Hc. specialize (Hf CODE_RECOVERY_ENTROPY_LEN rng ltac:(done)).
  destruct (Pq.fill_bytes CODE_RECOVERY_ENTROPY_LEN rng) as [ce r]. injection Hc as <- <-. cbn [fst] in Hf.
  unfold ENTROPY_LEN, CODE_RECOVERY_ENTROPY_LEN in *.
  destruct (phrase_of_entropy e) as (T1 & W1 & P1); [auto|]. destruct (phrase_of_entropy ce) as (T2 & W2 & P2); [auto|].
  unfold seed_from_mnemonic, code_from_phrase, seed_to_mnemonic, rguard. cbn [entropy phrase].
  rewrite T1, T2, W1, W2, P1, P2, He, Hf. cbn [ok_or rbind]. rewrite He, Hf. done.
Qed.
End Derivation.

(** ** A concrete backend for the witnesses *)
#[local] Existing Instances Pq.toy_pq Pq.toy_pq_ed Pq.toy_rng Pq.toy_pq_laws.
#[export] Instance toy_id : IdBackend Z := {|
  hmac_sha512 k d := Pq.pad_take 64 (reverse d ++ k);
  x25519_public k := k; x25519_dh a b := a; chacha_from_seed sd := from_be sd;
  slh_keygen r := (Ok ([], []), r); slh_sk_decode _ := None; slh_sign r _ _ _ := (Ok [], r);
  phrase_words p := len p * 3 / 4; phrase_trim p := p;
  mnemonic_parse p := Some p; mnemonic_phrase e := e; mnemonic_seed e := Pq.pad_take 64 e
|}.
#[export] Instance toy_id_laws : IdBackendLaws Z.
Proof. split; [intros; apply Pq.pad_take_len|by repeat split]. Defined.

Definition toy_seed : IdentitySeed := {| entropy := replicate 32 Byte.x05; seed := Pq.pad_take 64 (replicate 32 Byte.x05) |}.
Definition toy_store : InMemoryKeyStore :=
  match open_store (R := Z) toy_seed 0 with Ok k => k | _ => poison {|
    ks_seed := []; ks_identity := {| ik_signing := []; ik_public := []; ik_account := 0 |};
    ks_x25519 := {| xk_secret := []; xk_public := []; xk_account := 0 |}; ks_account := 0; devices := ∅; poisoned := true;
    ks_hybrid_identity := {| hk_inner := {| Pq.hs_ed25519 := []; Pq.hs_ml_dsa := [] |}; hk_public := {| Pq.hp_ed25519 := []; Pq.hp_ml_dsa := [] |} |};
    ks_slh_backup := {| sb_secret := []; sb_public := []; sb_account := 0 |}; hybrid_devices := ∅;
    ks_recovery := {| cw_secret := []; cw_public := []; cw_account := 0 |}; ks_hedged_witness := [] |} end.
Lemma toy_store_open : open_store (R := Z) toy_seed 0 = Ok toy_store.
Proof. vm_compute. reflexivity. Qed.
Definition toy_added : InMemoryKeyStore := (run_op (R := Z) (OpAdd 100 3 (Some 50)) toy_store).2.
Lemma toy_store_run : ks_run (R := Z) toy_store toy_added.
Proof. apply run_step; [apply run_refl|]. cbn. lia. Qed.

Definition toy_sig : list byte := Eval vm_compute in match (sign_with_device 3 [Byte.x07] toy_added).1 with Ok sg => sg | _ => [] end.
Lemma device_signatures_certified_witness :
  exists att, device_attestation 3 toy_added = (Ok (Some att), toy_added) /\ ed_verify (device_pubkey att) [Byte.x07] toy_sig = true.
Proof.
  destruct (device_signatures_certified (R := Z) toy_seed 0 toy_store toy_added 3 [Byte.x07] toy_sig toy_added)
    as [_ (att & Ha & _ & _ & _ & Hv & _)];
    [split; [lia|reflexivity]|apply toy_store_open|apply toy_store_run|vm_compute; reflexivity|].
  exists att. split; assumption.
Defined.

Lemma revocation_is_final_witness :
  sign_with_device 3 [Byte.x07] (revoke_device 3 toy_added).2 = (Err (RevokedDevice 3), (revoke_device 3 toy_added).2).
Proof.
  apply (revocation_is_final (R := Z) toy_seed 0 toy_store toy_added (revoke_device 3 toy_added).2 3 [Byte.x07] 0 0 None);
    [split; [lia|reflexivity]|apply toy_store_open|apply toy_store_run|lia|vm_compute; reflexivity|apply run_refl|vm_compute; reflexivity].
Defined.

Lemma large_index_bricks_store_witness :
  exists k1, add_device 100 HARDENED_BIT None toy_added = (Panic, k1) /\ (sign_with_device 3 [Byte.x07] k1).1 = Panic.
Proof.
  destruct (large_index_bricks_store (R := Z) toy_seed 0 toy_store toy_added 100 HARDENED_BIT None) as (k1 & Ha & _ & Hp);
    [split; [lia|reflexivity]|apply toy_store_open|apply toy_store_run|vm_compute; reflexivity|lia|].
  exists k1. split; [exact Ha|]. specialize (Hp k1 (OpSign 3 [Byte.x07]) (run_refl k1) I).
  cbn [run_op forget fst] in Hp. destruct (sign_with_device 3 [Byte.x07] k1) as [[|e|] k2]; [discriminate Hp|discriminate Hp|reflexivity].
Defined.

Lemma key_uses_separated_witness :
  exists m n, derive_from_seed (replicate 64 Byte.x05) (use_path (UseDevice 0 1)) = Ok m /\
    derive_from_seed (replicate 64 Byte.x05) (use_path (UseDevice 0 2)) = Ok n /\
    (secret m <> secret n \/ hmac_collision (R := Z) (replicate 64 Byte.x05) (use_path (UseDevice 0 1)) (use_path (UseDevice 0 2))).
Proof.
  eexists _, _. split; [reflexivity|]. split; [reflexivity|].
  eapply (key_uses_separated (R := Z) (replicate 64 Byte.x05) (UseDevice 0 1) (UseDevice 0 2)); try reflexivity;
    [repeat split; reflexivity || lia|repeat split; reflexivity || lia|congruence].
Defined.

Lemma rotation_is_hkdf_witness :
  exists r, derive_rotated_identity_material (R := Z) toy_seed {| phrase := []; code_entropy := replicate 16 Byte.x06 |}
              (ik_public (ks_identity toy_store)) = Ok r /\ len r = SEED_LEN.
Proof.
  destruct (rotation_is_hkdf (R := Z) toy_seed {| phrase := []; code_entropy := replicate 16 Byte.x06 |}
    (ik_public (ks_identity toy_store)) (ks_identity toy_store)) as [He Hl]; [vm_compute; reflexivity|].
  rewrite bool_decide_eq_true_2 in He by reflexivity. eexists. split; [exact He|]. exact (Hl _ He).
Defined.

Lemma recovery_phrases_roundtrip_witness :
  code_from_phrase (R := Z) (replicate 16 Byte.x09) = Ok {| phrase := replicate 16 Byte.x09; code_entropy := replicate 16 Byte.x09 |}.
Proof.
  apply (recovery_phrases_roundtrip (R := Z) toy_seed (replicate 32 Byte.x05) 9
    {| phrase := replicate 16 Byte.x09; code_entropy := replicate 16 Byte.x09 |} 10);
    [reflexivity|vm_compute; reflexivity| |vm_compute; reflexivity].
  intros n r Hn. cbn [Pq.fill_bytes Pq.toy_rng fst]. rewrite len_replicate. lia.
Defined.
End Identity.
