(* ===== verification/Mls.v ===== *)
(** * MLS groups ([crates/umbrella-mls/src/])

    [ciphersuite.rs], [group_policy.rs], [caps.rs], [credential.rs], [signer.rs],
    [key_package.rs], [parser.rs], [group.rs] and [screenshot_policy.rs]: the wrapper that
    restricts openmls to the allowed suites and policies, with the group's own state.  The
    library openmls is a parameter: an operation returns its result and the changed group.  In
    the path of network input a panic inside the library is the result [Panic]: the wrapper
    catches it where the source does and only when the build unwinds ([panic_unwinds]), and
    merging a commit and storing a proposal run outside [catch_unwind], as in the source. *)
From S2P Require Import Prelude Bytes Crypto Pq Identity.
Local Open Scope string_scope.
Local Open Scope list_scope.
Local Open Scope Z_scope.

Module Mls.

Inductive MlsError :=
| DisallowedCiphersuite (raw_id : Z)
| CiphersuiteRequiresPqFeature (raw_id : Z)
| ExternalOperationForbidden
| InvalidGroupConfig (reason : string)
| GroupOperation (kind : string)
| KeyPackageError (kind : string)
| WelcomeError (kind : string)
| Codec (kind : string)
| ParserPanic (kind : string)
| ProcessingPanic (kind : string)
| CryptoFailed (e : Identity.CryptoError)
| IdentityFailed (e : Identity.IdentityError).

(** ** Ciphersuites ([ciphersuite.rs]), with the feature [pq] *)
Inductive UmbrellaCiphersuite :=
| Mls128X25519AesGcmSha256Ed25519 | Mls128X25519ChaChaSha256Ed25519
| Mls256X448AesGcmSha512Ed448 | Mls256X448ChaChaSha512Ed448 | Mls256XWingChaChaSha256Ed25519.
#[global] Instance UmbrellaCiphersuite_eq_dec : EqDecision UmbrellaCiphersuite.
Proof. solve_decision. Defined.

Definition UMBRELLA_DEFAULT_CIPHERSUITE : UmbrellaCiphersuite := Mls128X25519ChaChaSha256Ed25519.
Definition raw_id (c : UmbrellaCiphersuite) : Z :=
  match c with
  | Mls128X25519AesGcmSha256Ed25519 => 1
  | Mls128X25519ChaChaSha256Ed25519 => 3
  | Mls256X448AesGcmSha512Ed448 => 4
  | Mls256X448ChaChaSha512Ed448 => 6
  | Mls256XWingChaChaSha256Ed25519 => 77
  end.
Definition is_256_bit (c : UmbrellaCiphersuite) : bool :=
  match c with Mls128X25519AesGcmSha256Ed25519 | Mls128X25519ChaChaSha256Ed25519 => false | _ => true end.
Definition is_post_quantum_hybrid (c : UmbrellaCiphersuite) : bool :=
  match c with Mls256XWingChaChaSha256Ed25519 => true | _ => false end.
Definition uses_chacha20 (c : UmbrellaCiphersuite) : bool :=
  match c with Mls128X25519AesGcmSha256Ed25519 | Mls256X448AesGcmSha512Ed448 => false | _ => true end.
Definition from_raw_id (raw : Z) : res MlsError UmbrellaCiphersuite :=
  if raw =? 1 then Ok Mls128X25519AesGcmSha256Ed25519
  else if raw =? 3 then Ok Mls128X25519ChaChaSha256Ed25519
  else if raw =? 4 then Ok Mls256X448AesGcmSha512Ed448
  else if raw =? 6 then Ok Mls256X448ChaChaSha512Ed448
  else if raw =? 77 then Ok Mls256XWingChaChaSha256Ed25519
  else Err (DisallowedCiphersuite raw).
(** [to_openmls] and [from_openmls]: openmls numbers its suites by the same ids. *)
Definition to_openmls (c : UmbrellaCiphersuite) : Z := raw_id c.
Definition from_openmls (suite : Z) : res MlsError UmbrellaCiphersuite := from_raw_id suite.

(** [caps.rs]: version MLS 1.0, the allowed suites, basic credentials. *)
Definition umbrella_supported_openmls_ciphersuites : list Z :=
  to_openmls <$> [Mls128X25519AesGcmSha256Ed25519; Mls128X25519ChaChaSha256Ed25519; Mls256X448AesGcmSha512Ed448;
                  Mls256X448ChaChaSha512Ed448; Mls256XWingChaChaSha256Ed25519].

(** ** Policies ([group_policy.rs], [screenshot_policy.rs]) *)
Definition KEY_PACKAGE_LIFETIME_SECS : Z := 60 * 60 * 24 * 28.
Definition PRIVATE_GROUP_MAX_LIFETIME_SECS : Z := 60 * 60 * 24.
Inductive GroupPolicy := Private | PublicBroadcast.
Definition allows_external_operations (p : GroupPolicy) : bool := match p with PublicBroadcast => true | Private => false end.
Definition requires_psk_for_external_join (p : GroupPolicy) : bool := match p with PublicBroadcast => true | Private => false end.
Definition is_private (p : GroupPolicy) : bool := match p with Private => true | PublicBroadcast => false end.

Inductive ScreenshotPolicy := Allow | Block | BlockAndNotify.
Record MessageRetention := {
  ttl_after_view : option Z;      (* nanoseconds *)
  one_time_view : bool; mr_notify_on_screenshot : bool; anonymous_watermark : option (list byte)
}.
Inductive ReceiverViewState := NotViewed | Viewed (at_secs : Z) | Expired.
Record ReceiverMessageTracker := { rt_policy : MessageRetention; rt_state : ReceiverViewState }.
Definition NANOS : Z := 1000000000.
(** [duration_since(UNIX_EPOCH)] in whole seconds, zero before the epoch; [now] in nanoseconds. *)
Definition unix_secs (now : Z) : Z := if now <? 0 then 0 else now / NANOS.
Definition tracker_new (p : MessageRetention) : ReceiverMessageTracker := {| rt_policy := p; rt_state := NotViewed |}.
Definition with_view_state (t : ReceiverMessageTracker) (s : ReceiverViewState) : ReceiverMessageTracker :=
  {| rt_policy := rt_policy t; rt_state := s |}.
Definition is_expired (t : ReceiverMessageTracker) : bool := match rt_state t with Expired => true | _ => false end.
Definition record_view (now : Z) (t : ReceiverMessageTracker) : bool * ReceiverMessageTracker :=
  let viewed_at := unix_secs now in
  let was_first := match rt_state t with NotViewed => true | _ => false end in
  let t := if was_first then with_view_state t (Viewed viewed_at) else t in
  if was_first && one_time_view (rt_policy t) then (true, with_view_state t Expired) else (false, t).
Definition check_ttl (now : Z) (t : ReceiverMessageTracker) : bool * ReceiverMessageTracker :=
  match rt_state t, ttl_after_view (rt_policy t) with
  | Viewed at_secs, Some ttl =>
      if ttl / NANOS <=? sat_sub (unix_secs now) at_secs then (true, with_view_state t Expired) else (false, t)
  | _, _ => (false, t)
  end.
Definition screen_capture_hidden (p : ScreenshotPolicy) : bool := match p with Allow => false | Block | BlockAndNotify => true end.
Definition should_notify_on_screenshot (p : ScreenshotPolicy) : bool := match p with BlockAndNotify => true | _ => false end.

(** ** What the wrapper uses of a key store and of openmls *)
Record KeyStore := {
  identity_public : list byte;
  device_public : Z -> option (list byte);
  sign_with_device : Z -> list byte -> option (list byte)
}.
Record Credential := { cred_content : list byte; cred_signature_key : list byte }.
Definition Signer : Type := list byte -> option (list byte).

Inductive Sender := Member (i : Z) | NewMemberCommit | OtherSender.
Inductive ProcessMessageError :=
| UnauthorizedExternalApplicationMessage | UnauthorizedExternalCommitMessage | UnsupportedProposalType | OtherProcessError.

Class OpenMls := {
  MlsGroup : Type; Provider : Type; MlsMessageOut : Type; MlsMessageIn : Type; ProtocolMessage : Type; WelcomeMsg : Type;
  StagedWelcome : Type; StagedCommit : Type; QueuedProposal : Type; KeyPackage : Type; KeyPackageIn : Type; KeyPackageBundle : Type;
  supports : Provider -> Z -> bool;
  new_with_group_id : Provider -> Signer -> Z -> list byte -> Credential -> option MlsGroup;
  mls_add_members : MlsGroup -> Provider -> Signer -> list KeyPackage -> option (MlsMessageOut * MlsMessageOut) * MlsGroup;
  mls_remove_members : MlsGroup -> Provider -> Signer -> list Z -> option (MlsMessageOut * option MlsMessageOut) * MlsGroup;
  self_update : MlsGroup -> Provider -> Signer -> option MlsMessageOut * MlsGroup;
  merge_pending_commit : MlsGroup -> Provider -> bool * MlsGroup;
  create_message : MlsGroup -> Provider -> Signer -> list byte -> option MlsMessageOut * MlsGroup;
  tls_serialize : MlsMessageOut -> option (list byte);
  message_deserialize : list byte -> res unit MlsMessageIn;
  key_package_deserialize : list byte -> res unit KeyPackageIn;
  msg_body : MlsMessageIn -> WelcomeMsg + (ProtocolMessage + bool);      (* bool: key package or group info *)
  process_message : MlsGroup -> Provider -> ProtocolMessage ->
    res ProcessMessageError (Sender * (list byte + (StagedCommit + option QueuedProposal))) * MlsGroup;
  staged_self_removed : StagedCommit -> bool;
  merge_staged_commit : MlsGroup -> Provider -> StagedCommit -> res unit unit * MlsGroup;
  store_pending_proposal : MlsGroup -> Provider -> QueuedProposal -> res unit unit * MlsGroup;
  mls_epoch : MlsGroup -> Z;
  mls_own_leaf : MlsGroup -> Z;
  mls_members : MlsGroup -> list (list byte);                             (* serialized credentials *)
  export_secret : MlsGroup -> Provider -> string -> list byte -> Z -> option (list byte);
  new_from_welcome : Provider -> WelcomeMsg -> option StagedWelcome;
  staged_ciphersuite : StagedWelcome -> Z;
  staged_has_external_pub : StagedWelcome -> bool;
  staged_into_group : StagedWelcome -> Provider -> option MlsGroup;
  key_package_build : Provider -> Signer -> Z -> Credential -> option KeyPackageBundle;
  panic_unwinds : bool                  (* the build's [panic]: "unwind", or "abort" as in the release profile *)
}.

Section Groups.
Context {O : OpenMls}.

(** ** Credentials, signers, key packages, parsing *)
Definition DEVICE_CREDENTIAL_LEN : Z := 32 + 4.
Definition build_credential_for_identity (ks : KeyStore) : Credential :=
  {| cred_content := identity_public ks; cred_signature_key := identity_public ks |}.
Definition build_credential_for_device (ks : KeyStore) (device_index : Z) : res MlsError Credential :=
  let? device_pub := ok_or (device_public ks device_index) (IdentityFailed (Identity.UnknownDevice device_index)) in
  let payload := identity_public ks ++ to_be 4 device_index in
  Ok {| cred_content := payload; cred_signature_key := device_pub |}.

Definition device_signer_new (ks : KeyStore) (device_index : Z) : res MlsError Signer :=
  match device_public ks device_index with
  | None => Err (IdentityFailed (Identity.UnknownDevice device_index))
  | Some _ => Ok (sign_with_device ks device_index)
  end.

Record UmbrellaKeyPackageBundle := { kb_inner : KeyPackageBundle; kb_ciphersuite : UmbrellaCiphersuite; kb_device_index : Z }.
Definition build_device_key_package (provider : Provider) (ks : KeyStore) (device_index : Z) (c : UmbrellaCiphersuite)
  : res MlsError UmbrellaKeyPackageBundle :=
  let? signer := device_signer_new ks device_index in
  let? credential := build_credential_for_device ks device_index in
  let? bundle := ok_or (key_package_build provider signer (to_openmls c) credential)
                       (KeyPackageError "openmls KeyPackageBuilder::build failed") in
  Ok {| kb_inner := bundle; kb_ciphersuite := c; kb_device_index := device_index |}.

Definition MLS_MESSAGE_MIN_BYTES : Z := 8.
Definition KEY_PACKAGE_MIN_BYTES : Z := 64.
(** The [Err] arm of [catch_unwind]: reached when panics unwind, otherwise the process ends. *)
Definition on_panic {A} (e : MlsError) : res MlsError A := if panic_unwinds then Err e else Panic.
Definition parse_mls_message_safe (bytes : list byte) : res MlsError MlsMessageIn :=
  reject len bytes <? MLS_MESSAGE_MIN_BYTES with Codec "input shorter than MLS_MESSAGE_MIN_BYTES (RFC 9420 §6 framing)" ;;
  match message_deserialize bytes with
  | Ok m => Ok m
  | Err _ => Err (Codec "MlsMessageIn::tls_deserialize_exact returned Err")
  | Panic => on_panic (ParserPanic "MlsMessageIn::tls_deserialize_exact panicked")
  end.
Definition parse_key_package_safe (bytes : list byte) : res MlsError KeyPackageIn :=
  reject len bytes <? KEY_PACKAGE_MIN_BYTES with Codec "input shorter than KEY_PACKAGE_MIN_BYTES (RFC 9420 §10.1 framing)" ;;
  match key_package_deserialize bytes with
  | Ok m => Ok m
  | Err _ => Err (KeyPackageError "KeyPackageIn::tls_deserialize returned Err")
  | Panic => on_panic (ParserPanic "KeyPackageIn::tls_deserialize panicked")
  end.
(** The error mapping of both callers. *)
Definition parse_or (kind : string) (bytes : list byte) : res MlsError MlsMessageIn :=
  rmap_err (fun e => match e with ParserPanic k => ParserPanic k | _ => Codec kind end) (parse_mls_message_safe bytes).

(** ** Groups ([group.rs]) *)
Record MemberChangeOutcome := { mc_commit : list byte; mc_welcome : option (list byte); mc_epoch : Z }.
Inductive IncomingMessage :=
| Application (sender_index : Z) (payload : list byte)
| CommitApplied (epoch : Z) (self_removed : bool)
| ProposalQueued.

Record UmbrellaGroup := {
  inner : MlsGroup; policy : GroupPolicy; ciphersuite : UmbrellaCiphersuite; device_index : Z; last_rekey_at_unix : Z
}.
Definition set_inner (g : UmbrellaGroup) (i : MlsGroup) : UmbrellaGroup :=
  {| inner := i; policy := policy g; ciphersuite := ciphersuite g; device_index := device_index g; last_rekey_at_unix := last_rekey_at_unix g |}.
Definition set_last_rekey (g : UmbrellaGroup) (t : Z) : UmbrellaGroup :=
  {| inner := inner g; policy := policy g; ciphersuite := ciphersuite g; device_index := device_index g; last_rekey_at_unix := t |}.
Definition epoch (g : UmbrellaGroup) : Z := mls_epoch (inner g).

(** A call on [self.inner]. *)
Definition on_inner {A} (f : MlsGroup -> A * MlsGroup) : st UmbrellaGroup MlsError A := fun g =>
  let '(a, i) := f (inner g) in (Ok a, set_inner g i).

Definition create_private (provider : Provider) (ks : KeyStore) (device_index : Z) (c : UmbrellaCiphersuite)
  (group_id : list byte) (now_unix : Z) : res MlsError UmbrellaGroup :=
  reject negb (supports provider (to_openmls c)) with GroupOperation "provider does not support requested ciphersuite" ;;
  let? signer := device_signer_new ks device_index in
  let? credential := build_credential_for_device ks device_index in
  let? i := ok_or (new_with_group_id provider signer (to_openmls c) group_id credential)
                  (GroupOperation "MlsGroup::new_with_group_id failed") in
  Ok {| inner := i; policy := Private; ciphersuite := c; device_index := device_index; last_rekey_at_unix := now_unix |}.

Definition join_from_welcome (provider : Provider) (ks : KeyStore) (device_index : Z) (welcome_bytes : list byte)
  (expected_policy : GroupPolicy) (now_unix : Z) : res MlsError UmbrellaGroup :=
  reject negb (bool_decide (is_Some (device_public ks device_index))) with IdentityFailed (Identity.UnknownDevice device_index) ;;
  let? message := parse_or "welcome decode failed" welcome_bytes in
  let? welcome := match msg_body message with
                  | inl w => Ok w
                  | inr _ => Err (WelcomeError "expected Welcome body, got another MLS message type")
                  end in
  let? staged := ok_or (new_from_welcome provider welcome) (WelcomeError "StagedWelcome::new_from_welcome failed") in
  let? c := from_openmls (staged_ciphersuite staged) in
  reject negb (supports provider (to_openmls c)) with WelcomeError "provider does not support Welcome's ciphersuite" ;;
  reject is_private expected_policy && staged_has_external_pub staged with ExternalOperationForbidden ;;
  let? i := ok_or (staged_into_group staged provider) (WelcomeError "StagedWelcome::into_group failed") in
  Ok {| inner := i; policy := expected_policy; ciphersuite := c; device_index := device_index; last_rekey_at_unix := now_unix |}.

Definition slift_opt {A} (o : option A) (e : MlsError) : st UmbrellaGroup MlsError A := slift (ok_or o e).

Definition add_members (provider : Provider) (ks : KeyStore) (key_packages : list KeyPackage) (now_unix : Z)
  : st UmbrellaGroup MlsError MemberChangeOutcome :=
  let! g := sget in
  let! signer := slift (device_signer_new ks (device_index g)) in
  let! r := on_inner (fun i => mls_add_members i provider signer key_packages) in
  let! (commit, welcome) := slift_opt r (GroupOperation "add_members failed") in
  let! ok := on_inner (fun i => merge_pending_commit i provider) in
  fail_if negb ok with GroupOperation "merge_pending_commit after add failed" ;;
  let! g := sget in
  let! _ := sput (set_last_rekey g now_unix) in
  let! cb := slift_opt (tls_serialize commit) (Codec "commit serialize failed") in
  let! wb := slift_opt (tls_serialize welcome) (Codec "welcome serialize failed") in
  let! g := sget in
  sret {| mc_commit := cb; mc_welcome := Some wb; mc_epoch := epoch g |}.

Definition remove_members (provider : Provider) (ks : KeyStore) (member_indices : list Z) (now_unix : Z)
  : st UmbrellaGroup MlsError MemberChangeOutcome :=
  let! g := sget in
  let! signer := slift (device_signer_new ks (device_index g)) in
  let! r := on_inner (fun i => mls_remove_members i provider signer member_indices) in
  let! (commit, welcome_opt) := slift_opt r (GroupOperation "remove_members failed") in
  let! ok := on_inner (fun i => merge_pending_commit i provider) in
  fail_if negb ok with GroupOperation "merge_pending_commit after remove failed" ;;
  let! g := sget in
  let! _ := sput (set_last_rekey g now_unix) in
  let! wb := match welcome_opt with
             | None => sret None
             | Some w => let! b := slift_opt (tls_serialize w) (Codec "welcome serialize (after remove) failed") in sret (Some b)
             end in
  let! cb := slift_opt (tls_serialize commit) (Codec "commit serialize (after remove) failed") in
  let! g := sget in
  sret {| mc_commit := cb; mc_welcome := wb; mc_epoch := epoch g |}.

Definition force_rekey (provider : Provider) (ks : KeyStore) (now_unix : Z) : st UmbrellaGroup MlsError (list byte) :=
  let! g := sget in
  let! signer := slift (device_signer_new ks (device_index g)) in
  let! r := on_inner (fun i => self_update i provider signer) in
  let! bundle := slift_opt r (GroupOperation "self_update (force_rekey) failed") in
  let! commit_bytes := slift_opt (tls_serialize bundle) (Codec "rekey commit serialize failed") in
  let! ok := on_inner (fun i => merge_pending_commit i provider) in
  fail_if negb ok with GroupOperation "merge_pending_commit after rekey failed" ;;
  let! g := sget in
  let! _ := sput (set_last_rekey g now_unix) in
  sret commit_bytes.

(** The 64-byte buffer whose first [n] bytes are the exported secret. *)
Definition MAX_EXPORTER_LEN : Z := 64.
Definition exporter_secret (g : UmbrellaGroup) (provider : Provider) (label : string) (context : list byte) (n : Z)
  : res MlsError (list byte) :=
  reject negb ((1 <=? n) && (n <=? MAX_EXPORTER_LEN)) with GroupOperation "exporter_secret length out of range (1..=64)" ;;
  let? raw := ok_or (export_secret (inner g) provider label context n) (GroupOperation "MlsGroup::export_secret failed") in
  copy_into 0 n raw (replicate (Z.to_nat MAX_EXPORTER_LEN) Byte.x00).

Definition force_rekey_with_pq (provider : Provider) (ks : KeyStore) (now_unix : Z)
  : st UmbrellaGroup MlsError (list byte * list byte) :=
  let! commit := force_rekey provider ks now_unix in
  let! g := sget in
  let! wrapped := slift (exporter_secret g provider "umbrellax-max-ratchet-pq-shared-v1" [] 32) in
  let! out := slift (slice 0 32 wrapped) in
  sret (commit, out).

Definition encrypt_application (provider : Provider) (ks : KeyStore) (plaintext : list byte)
  : st UmbrellaGroup MlsError (list byte) :=
  let! g := sget in
  let! signer := slift (device_signer_new ks (device_index g)) in
  let! r := on_inner (fun i => create_message i provider signer plaintext) in
  let! msg := slift_opt r (GroupOperation "create_message failed") in
  slift_opt (tls_serialize msg) (Codec "application message serialize failed").

Definition process_error (e : ProcessMessageError) : MlsError :=
  match e with
  | UnauthorizedExternalApplicationMessage | UnauthorizedExternalCommitMessage | UnsupportedProposalType => ExternalOperationForbidden
  | OtherProcessError => GroupOperation "process_message failed"
  end.

Definition protocol_message (m : MlsMessageIn) : res MlsError ProtocolMessage :=
  match msg_body m with
  | inr (inl p) => Ok p
  | inl _ => Err (WelcomeError "welcome arrived at process_incoming (not an active-group input)")
  | inr (inr _) => Err (Codec "unexpected MlsMessage body on process_incoming")
  end.

Definition process_incoming (provider : Provider) (bytes : list byte) : st UmbrellaGroup MlsError IncomingMessage :=
  let! message := slift (parse_or "incoming MlsMessage decode failed" bytes) in
  let! pm := slift (protocol_message message) in
  let! processed := on_inner (fun i => process_message i provider pm) in
  let! (sender, content) := slift (match processed with
                                   | Ok p => Ok p
                                   | Err e => Err (process_error e)
                                   | Panic => on_panic (ProcessingPanic "MlsGroup::process_message panicked")
                                   end) in
  match content with
  | inl app =>
      match sender with
      | Member idx => sret (Application idx app)
      | _ => slift (Err ExternalOperationForbidden)
      end
  | inr (inl staged) =>
      let! g := sget in
      fail_if is_private (policy g) && match sender with NewMemberCommit => true | _ => false end with ExternalOperationForbidden ;;
      let self_removed := staged_self_removed staged in
      let! merged := on_inner (fun i => merge_staged_commit i provider staged) in
      let! _ := slift (rmap_err (fun _ => GroupOperation "merge_staged_commit failed") merged) in
      let! g := sget in
      let! _ := sput (set_last_rekey g 0) in
      let! g := sget in
      sret (CommitApplied (epoch g) self_removed)
  | inr (inr (Some proposal)) =>
      let! stored := on_inner (fun i => store_pending_proposal i provider proposal) in
      let! _ := slift (rmap_err (fun _ => GroupOperation "store_pending_proposal failed") stored) in
      sret ProposalQueued
  | inr (inr None) => slift (Err ExternalOperationForbidden)
  end.

Definition mark_rekey_observed (now_unix : Z) (g : UmbrellaGroup) : UmbrellaGroup := set_last_rekey g now_unix.
Definition needs_rekey (g : UmbrellaGroup) (now_unix : Z) : bool :=
  PRIVATE_GROUP_MAX_LIFETIME_SECS <=? sat_sub now_unix (last_rekey_at_unix g).
Definition own_leaf_index (g : UmbrellaGroup) : Z := mls_own_leaf (inner g).
Definition member_count (g : UmbrellaGroup) : Z := len (mls_members (inner g)).
Definition member_identities (g : UmbrellaGroup) : list (list byte) :=
  omap (fun cred_bytes => if 32 <=? len cred_bytes then Some (take 32 cred_bytes) else None) (mls_members (inner g)).

(** ** Proofs *)

(** The suites the library negotiates are exactly those of the enumeration, under distinct ids. *)
Lemma raw_id_roundtrip c : from_raw_id (raw_id c) = Ok c.
Proof. by destruct c. Qed.
Lemma from_raw_id_Ok raw c : from_raw_id raw = Ok c <-> raw = raw_id c.
Proof.
  split; [|intros ->; apply raw_id_roundtrip]. unfold from_raw_id.
  repeat match goal with |- context [if raw =? ?n then _ else _] => destruct (Z.eqb_spec raw n) end;
    intros Hc; first [discriminate Hc|apply Ok_inj in Hc as <-; done].
Qed.

Lemma on_inner_eq {A} (f : MlsGroup -> A * MlsGroup) g : on_inner f g = (Ok (f (inner g)).1, set_inner g (f (inner g)).2).
Proof. unfold on_inner. by destruct (f (inner g)). Qed.

Lemma on_panic_eq {A} e : on_panic (A := A) e = Panic <-> panic_unwinds = false.
Proof. unfold on_panic. by destruct panic_unwinds. Qed.

Lemma parse_or_panic k b :
  parse_or k b = Panic <-> panic_unwinds = false /\ MLS_MESSAGE_MIN_BYTES <= len b /\ message_deserialize b = Panic.
Proof.
  unfold parse_or, parse_mls_message_safe, rguard. destruct (Z.ltb_spec (len b) MLS_MESSAGE_MIN_BYTES); [naive_solver lia|].
  destruct (message_deserialize b); [naive_solver..|]. unfold on_panic. destruct panic_unwinds; naive_solver.
Qed.

Lemma protocol_message_no_panic m : protocol_message m <> Panic.
Proof. unfold protocol_message. by destruct (msg_body m) as [?|[?|?]]. Qed.

(** What [process_incoming] does once the message is decoded. *)
Lemma process_incoming_decoded provider bytes m pm g :
  parse_or "incoming MlsMessage decode failed" bytes = Ok m -> protocol_message m = Ok pm ->
  process_incoming provider bytes g =
  let '(processed, i) := process_message (inner g) provider pm in
  let g := set_inner g i in
  match processed with
  | Panic => (on_panic (ProcessingPanic "MlsGroup::process_message panicked"), g)
  | Err e => (Err (process_error e), g)
  | Ok (Member idx, inl app) => (Ok (Application idx app), g)
  | Ok (_, inl app) => (Err ExternalOperationForbidden, g)
  | Ok (sender, inr (inl staged)) =>
      if is_private (policy g) && match sender with NewMemberCommit => true | _ => false end then (Err ExternalOperationForbidden, g)
      else match merge_staged_commit i provider staged with
           | (Ok _, i) => (Ok (CommitApplied (mls_epoch i) (staged_self_removed staged)), set_last_rekey (set_inner g i) 0)
           | (Err _, i) => (Err (GroupOperation "merge_staged_commit failed"), set_inner g i)
           | (Panic, i) => (Panic, set_inner g i)
           end
  | Ok (_, inr (inr (Some proposal))) =>
      match store_pending_proposal i provider proposal with
      | (Ok _, i) => (Ok ProposalQueued, set_inner g i)
      | (Err _, i) => (Err (GroupOperation "store_pending_proposal failed"), set_inner g i)
      | (Panic, i) => (Panic, set_inner g i)
      end
  | Ok (_, inr (inr None)) => (Err ExternalOperationForbidden, g)
  end.
Proof.
  intros Hp Hm. unfold process_incoming, sbind, slift, sget, sput, sret, sguard. rewrite Hp, Hm, on_inner_eq.
  destruct (process_message (inner g) provider pm) as [processed i]. cbn [fst snd].
  destruct processed as [[sender [app|[staged|[pr|]]]]|e|]; try done.
  - by destruct sender.
  - cbn [policy set_inner]. destruct (is_private (policy g)), sender; cbn [andb]; try done;
      rewrite on_inner_eq; cbn [inner set_inner]; destruct (merge_staged_commit i provider staged) as [[] i']; reflexivity.
  - rewrite on_inner_eq. cbn [inner set_inner]. destruct sender, (store_pending_proposal i provider pr) as [[] i']; reflexivity.
  - by destruct sender.
  - by unfold on_panic; destruct panic_unwinds.
Qed.

Lemma process_incoming_undecoded provider bytes g :
  (forall m pm, parse_or "incoming MlsMessage decode failed" bytes = Ok m -> protocol_message m <> Ok pm) ->
  (parse_or "incoming MlsMessage decode failed" bytes <> Panic /\ exists e, process_incoming provider bytes g = (Err e, g)) \/
  (parse_or "incoming MlsMessage decode failed" bytes = Panic /\ process_incoming provider bytes g = (Panic, g)).
Proof.
  intros Hn. unfold process_incoming, sbind, slift.
  destruct (parse_or _ bytes) as [m|e|] eqn:Hb; [|left; split; [done|by eexists]|by right].
  pose proof (protocol_message_no_panic m). left. split; [done|].
  destruct (protocol_message m) as [pm|e|] eqn:Hm; [|by eexists|congruence]. by destruct (Hn m pm).
Qed.

(** The library calls whose panic no [catch_unwind] stops. *)
Definition processing_panics (provider : Provider) (g : UmbrellaGroup) (pm : ProtocolMessage) : Prop :=
  match process_message (inner g) provider pm with
  | (Panic, _) => panic_unwinds = false
  | (Ok (sender, inr (inl staged)), i) =>
      is_private (policy g) && match sender with NewMemberCommit => true | _ => false end = false /\
      (merge_staged_commit i provider staged).1 = Panic
  | (Ok (_, inr (inr (Some proposal))), i) => (store_pending_proposal i provider proposal).1 = Panic
  | _ => False
  end.
Definition incoming_panics (provider : Provider) (g : UmbrellaGroup) (bytes : list byte) : Prop :=
  (panic_unwinds = false /\ MLS_MESSAGE_MIN_BYTES <= len bytes /\ message_deserialize bytes = Panic) \/
  exists m pm, parse_or "incoming MlsMessage decode failed" bytes = Ok m /\ protocol_message m = Ok pm /\
    processing_panics provider g pm.

(** What a result of [process_incoming] says of the two groups. *)
Definition contained (provider : Provider) (pm : ProtocolMessage) (g : UmbrellaGroup) (r : res MlsError IncomingMessage) (g' : UmbrellaGroup) : Prop :=
  policy g' = policy g /\ ciphersuite g' = ciphersuite g /\ device_index g' = device_index g /\
  (forall e sr, r = Ok (CommitApplied e sr) ->
     e = epoch g' /\ last_rekey_at_unix g' = 0 /\ (forall now, PRIVATE_GROUP_MAX_LIFETIME_SECS <= now -> needs_rekey g' now = true)) /\
  ((forall e sr, r <> Ok (CommitApplied e sr)) -> last_rekey_at_unix g' = last_rekey_at_unix g) /\
  (r = Panic <-> processing_panics provider g pm) /\
  (forall st i, is_private (policy g) = true -> process_message (inner g) provider pm = (Ok (NewMemberCommit, inr (inl st)), i) ->
     r = Err ExternalOperationForbidden /\ inner g' = i).

Lemma needs_rekey_reset g now : PRIVATE_GROUP_MAX_LIFETIME_SECS <= now -> needs_rekey (set_last_rekey g 0) now = true.
Proof. intros Hn. unfold needs_rekey, sat_sub. cbn [last_rekey_at_unix set_last_rekey]. apply Z.leb_le. lia. Qed.

Lemma process_incoming_contained provider bytes m pm g r g' :
  parse_or "incoming MlsMessage decode failed" bytes = Ok m -> protocol_message m = Ok pm ->
  process_incoming provider bytes g = (r, g') -> contained provider pm g r g'.
Proof.
  intros Hb Hm Hr. rewrite (process_incoming_decoded _ _ _ _ _ Hb Hm) in Hr. unfold contained, processing_panics.
  pose proof needs_rekey_reset as Hneed.
  destruct (process_message (inner g) provider pm) as [processed i] eqn:Hpm.
  destruct processed as [[sender [app|[st|[pr|]]]]|e|]; [destruct sender..| |].
  all: cbn [policy set_inner] in Hr; rewrite ?andb_false_r, ?andb_true_r in *.
  all: repeat match type of Hr with
         | (if ?c then _ else _) = _ => destruct c eqn:?
         | match ?c with _ => _ end = _ => destruct c as [[] ?] eqn:?
         end; injection Hr as <- <-.
  all: rewrite ?on_panic_eq.
  all: try (unfold on_panic; destruct panic_unwinds).
  all: (repeat split; try done; intros; simplify_eq; try solve [auto|exfalso; naive_solver|cbn [inner set_inner]; congruence]).
Qed.

(** C26. Whatever arrives and however openmls behaves on it: processing keeps policy, suite and
    device, and changes the time of the last rekey only by resetting it when a commit was
    merged, after which a rekey is due; a private group never merges an external commit.  It
    panics exactly when the library panics where nothing catches it: while merging a commit or
    storing a proposal, or, in a build whose panics abort instead of unwinding, also while
    decoding or processing the message.  Otherwise it returns a value. *)
Theorem incoming_contained provider bytes g r g' :
  process_incoming provider bytes g = (r, g') ->
  (r = Panic <-> incoming_panics provider g bytes) /\
  policy g' = policy g /\ ciphersuite g' = ciphersuite g /\ device_index g' = device_index g /\
  (forall e sr, r = Ok (CommitApplied e sr) ->
     e = epoch g' /\ last_rekey_at_unix g' = 0 /\ (forall now, PRIVATE_GROUP_MAX_LIFETIME_SECS <= now -> needs_rekey g' now = true)) /\
  ((forall e sr, r <> Ok (CommitApplied e sr)) -> last_rekey_at_unix g' = last_rekey_at_unix g) /\
  (forall m pm st i, is_private (policy g) = true ->
     parse_or "incoming MlsMessage decode failed" bytes = Ok m -> protocol_message m = Ok pm ->
     process_message (inner g) provider pm = (Ok (NewMemberCommit, inr (inl st)), i) ->
     r = Err ExternalOperationForbidden /\ inner g' = i).
Proof.
  intros Hr. unfold incoming_panics. rewrite <- (parse_or_panic "incoming MlsMessage decode failed").
  destruct (parse_or "incoming MlsMessage decode failed" bytes) as [m|e|] eqn:Hb.
  1: destruct (protocol_message m) as [pm|e|] eqn:Hm.
  1: { destruct (process_incoming_contained _ _ _ _ _ _ _ Hb Hm Hr) as (Hp & Hc & Hd & Ha & Hk & Hpan & Hx).
       split; [rewrite Hpan; split; [right; by exists m, pm|intros [Hx'|(m' & pm' & E1 & E2 & H3)]; [done|congruence]]|]. repeat (split; [done|]). intros m' pm' st i Hpr Hbm Hmm.
       replace pm' with pm by congruence. by apply Hx. }
  all: destruct (process_incoming_undecoded provider bytes g) as [[Hn [e' He]]|[Hn He]]; [intros ? ?; congruence|..];
    rewrite He in Hr; injection Hr as <- <-; repeat split; try done; try congruence.
  all: try (intros [Hx|(m' & pm' & E1 & E2 & H3)]; congruence). all: try by left. all: intros; congruence.
Qed.
End Groups.

(** ** What openmls promises to a wrapper

    [synced s ps r pr]: the group [s] of a sender with provider [ps] and the group [r] of a
    receiver with provider [pr] are in the same state of one MLS group. *)
Class OpenMlsLaws (O : OpenMls) := {
  synced : MlsGroup -> Provider -> MlsGroup -> Provider -> Prop;
  commit_received : forall s ps r pr sg m s1 b s2, synced s ps r pr -> self_update s ps sg = (Some m, s1) ->
    tls_serialize m = Some b -> merge_pending_commit s1 ps = (true, s2) ->
    8 <= len b /\ mls_epoch s2 = mls_epoch s + 1 /\ exists mi pm i c r1 r2, message_deserialize b = Ok mi /\ msg_body mi = inr (inl pm) /\
      process_message r pr pm = (Ok (Member i, inr (inl c)), r1) /\ merge_staged_commit r1 pr c = (Ok tt, r2) /\ synced s2 ps r2 pr;
  message_received : forall s ps r pr sg p m s1 b, synced s ps r pr -> create_message s ps sg p = (Some m, s1) ->
    tls_serialize m = Some b ->
    8 <= len b /\ mls_epoch s1 = mls_epoch s /\ exists mi pm i r1, message_deserialize b = Ok mi /\ msg_body mi = inr (inl pm) /\
      process_message r pr pm = (Ok (Member i, inl p), r1) /\ synced s1 ps r1 pr;
  synced_epoch : forall s ps r pr, synced s ps r pr -> mls_epoch s = mls_epoch r;
  export_agrees : forall s ps r pr l c n, synced s ps r pr -> export_secret s ps l c n = export_secret r pr l c n;
  export_len : forall g p l c n x, export_secret g p l c n = Some x -> len x = n
}.

(** A toy group that is only its epoch, for the witnesses. *)
Definition toy_mls : OpenMls := {|
  MlsGroup := Z; Provider := unit; MlsMessageOut := list byte; MlsMessageIn := list byte; ProtocolMessage := list byte;
  WelcomeMsg := unit; StagedWelcome := unit; StagedCommit := unit; QueuedProposal := unit; KeyPackage := unit;
  KeyPackageIn := unit; KeyPackageBundle := unit;
  supports _ _ := true; new_with_group_id _ _ _ _ _ := Some 0;
  mls_add_members g _ _ _ := (Some ([], []), g); mls_remove_members g _ _ _ := (Some ([], None), g);
  self_update g _ _ := (Some (Byte.x00 :: to_be 8 (g + 1)), g);
  merge_pending_commit g _ := (true, g + 1);
  create_message g _ _ p := (Some (Byte.x01 :: to_be 8 g ++ p), g);
  tls_serialize m := Some m; message_deserialize b := Ok b; key_package_deserialize _ := Ok tt;
  msg_body b := inr (inl b);
  process_message g _ m := match m with
    | Byte.x00 :: e => (if bool_decide (e = to_be 8 (g + 1)) then Ok (Member 0, inr (inl tt)) else Err OtherProcessError, g)
    | Byte.x01 :: b => (if bool_decide (take 8 b = to_be 8 g) then Ok (Member 0, inl (drop 8 b)) else Err OtherProcessError, g)
    | Byte.x02 :: _ => (Ok (NewMemberCommit, inr (inl tt)), g)
    | _ => (Panic, g)
    end;
  staged_self_removed _ := false; merge_staged_commit g _ _ := (Ok tt, g + 1);
  store_pending_proposal g _ _ := (Ok tt, g); mls_epoch g := g; mls_own_leaf _ := 0; mls_members _ := [replicate 36 Byte.x01; replicate 36 Byte.x02];
  export_secret g _ _ _ n := if 0 <=? n then Some (Pq.pad_take (Z.to_nat n) (to_be 8 g)) else None;
  new_from_welcome _ _ := Some tt; staged_ciphersuite _ := 3; staged_has_external_pub _ := false;
  staged_into_group _ _ := Some 0; key_package_build _ _ _ _ := Some tt; panic_unwinds := true
|}.

#[global] Instance toy_mls_laws : OpenMlsLaws toy_mls.
Proof.
  refine (Build_OpenMlsLaws toy_mls (fun (s : Z) _ (r : Z) _ => s = r) _ _ _ _ _).
  - intros s ps r pr sg m s1 b s2 -> [= <- <-] [= <-] [= <-]. split; [done|]. split; [done|].
    exists (Byte.x00 :: to_be 8 (r + 1)), (Byte.x00 :: to_be 8 (r + 1)), 0, tt, r, (r + 1).
    cbn [message_deserialize msg_body process_message merge_staged_commit toy_mls]. by rewrite bool_decide_eq_true_2.
  - intros s ps r pr sg p m s1 b -> [= <- <-] [= <-]. split.
    { change (8 <= len (Byte.x01 :: to_be 8 r ++ p)). rewrite len_cons, len_app, len_to_be. pose proof (len_nonneg p). lia. }
    split; [done|]. exists (Byte.x01 :: to_be 8 r ++ p), (Byte.x01 :: to_be 8 r ++ p), 0, r.
    cbn [message_deserialize msg_body process_message toy_mls].
    rewrite take_app_length', drop_app_length' by by rewrite length_to_be. by rewrite bool_decide_eq_true_2.
  - by intros s ps r pr ->.
  - by intros s ps r pr l c n ->.
  - intros g p l c n x. cbn [export_secret toy_mls]. destruct (Z.leb_spec 0 n); [|done]. intros [= <-]. rewrite Pq.pad_take_len. lia.
Defined.

Definition toy_group (e : Z) : UmbrellaGroup (O := toy_mls) :=
  {| inner := e : @MlsGroup toy_mls; policy := Private; ciphersuite := Mls256XWingChaChaSha256Ed25519; device_index := 0; last_rekey_at_unix := 5 |}.

(** A private toy group refuses an external commit. *)
Lemma incoming_contained_witness :
  (process_incoming (O := toy_mls) tt (replicate 8 Byte.x02) (toy_group 7)).1 = Err ExternalOperationForbidden.
Proof.
  destruct (process_incoming (O := toy_mls) tt (replicate 8 Byte.x02) (toy_group 7)) as [r g'] eqn:Hp.
  destruct (incoming_contained (O := toy_mls) tt (replicate 8 Byte.x02) (toy_group 7) r g' Hp) as (_ & _ & _ & _ & _ & _ & Hx).
  apply (Hx (replicate 8 Byte.x02) (replicate 8 Byte.x02) tt (7 : @MlsGroup toy_mls)); reflexivity.
Defined.
End Mls.
