(* ===== verification/KtError.v ===== *)
(** * Errors of the key-transparency crate ([crates/umbrella-kt/src/error.rs]) *)
From S2P Require Import Prelude.

Inductive KtError :=
| InclusionRootMismatch
| LeafIndexOutOfRange (index tree_size : Z)
| InvalidProofLength (tree_size index expected got : Z)
| EmptyTree
| SelfMonitoringMismatch (field : string)
| EntryTooLarge (got max : Z)
| InsufficientValidSignatures (valid required : Z)
| InvalidObservation (what : string)
| InvalidEntry (what : string)
| EntrySignatureInvalid
| PendingStateNotFound
| ApproverNotActive
| BootstrapNotAllowed
| RotationDualSignatureFailed
| RotationOldIdentityMismatch
| RotationIdenticalPubkeys
| CodeRecoveryProofMismatch
| UnknownEntryVersion (version : Z)
| EmptyEntry
| InvalidV2Entry (what : string)
| InvalidSignedEpochRootWire (what : string)
| InvalidAuthorizationEntryWire (what : string).
