(* ===== verification/Merkle.v ===== *)
(** * RFC 6962 Merkle tree ([crates/umbrella-kt/src/merkle.rs])

    Tree hash, audit-path construction and the loop that verifies an inclusion
    proof.  SHA-256 comes from another crate: it is the parameter [sha256] of
    the section, and the only fact used about it is the length of its digest.
    Completeness (every honest proof verifies) and soundness (a proof that
    verifies is honest, or two inputs with the same digest are exhibited) are
    proved for every tree size a [u64] can hold. *)
From Equations Require Import Equations.
From S2P Require Import Prelude Bytes KtError.

Module Merkle.

Definition NODE_HASH_LEN : Z := 32.
Definition LEAF_PREFIX : byte := Byte.x00.
Definition INNER_PREFIX : byte := Byte.x01.

Record AuditPath := { siblings : list (list byte) }.

(** [u64::leading_zeros] of a 64-bit value. *)
Definition leading_zeros (z : Z) : Z := if z =? 0 then 64 else 63 - Z.log2 z.

Definition largest_power_of_two_below (n : Z) : Z :=
  let highest_bit := 64 - 1 - leading_zeros (n - 1) in
  Z.shiftl 1 highest_bit.

Lemma largest_power_of_two_below_eq n :
  2 <= n -> largest_power_of_two_below n = 2 ^ Z.log2 (n - 1).
Proof.
  intros Hn. unfold largest_power_of_two_below, leading_zeros.
  rewrite (proj2 (Z.eqb_neq _ _)) by lia.
  replace (64 - 1 - (63 - Z.log2 (n - 1))) with (Z.log2 (n - 1)) by lia.
  by rewrite Z.shiftl_1_l.
Qed.

(** The split point [k] satisfies [k < n <= 2 * k]. *)
Lemma split_point n :
  2 <= n -> exists h, 0 <= h /\ largest_power_of_two_below n = 2 ^ h /\ 2 ^ h < n <= 2 * 2 ^ h.
Proof.
  intros Hn. exists (Z.log2 (n - 1)). split; [apply Z.log2_nonneg|].
  split; [by apply largest_power_of_two_below_eq|].
  pose proof (Z.log2_spec (n - 1) ltac:(lia)) as [H1 H2].
  rewrite Z.pow_succ_r in H2 by apply Z.log2_nonneg. lia.
Qed.

Section Tree.
Context (sha256 : list byte -> list byte).

Definition leaf_hash (data : list byte) : list byte := sha256 (LEAF_PREFIX :: data).

Definition inner_hash (left right : list byte) : list byte :=
  sha256 (INNER_PREFIX :: left ++ right).

Definition empty_root : list byte := sha256 [].

(** The position where the code splits a slice of two leaves or more. *)
Definition split_at (leaves : list (list byte)) : nat :=
  Z.to_nat (largest_power_of_two_below (len leaves)).

Lemma split_at_bounds a b l :
  (0 < split_at (a :: b :: l) < length (a :: b :: l))%nat.
Proof.
  unfold split_at. rewrite !len_cons. pose proof (len_nonneg l).
  destruct (split_point (1 + (1 + len l))) as (h & Hh & -> & Hk); [lia|].
  pose proof (Z.pow_pos_nonneg 2 h). simpl. unfold len in *. lia.
Qed.

Equations? merkle_root (leaves : list (list byte)) : list byte
  by wf (length leaves) lt :=
  merkle_root [] := empty_root;
  merkle_root [single] := single;
  merkle_root (a :: b :: l) :=
    inner_hash (merkle_root (take (split_at (a :: b :: l)) (a :: b :: l)))
               (merkle_root (drop (split_at (a :: b :: l)) (a :: b :: l))).
Proof.
  - pose proof (split_at_bounds a b l). rewrite length_take. cbn [length] in *. lia.
  - pose proof (split_at_bounds a b l). rewrite length_drop. cbn [length] in *. lia.
Qed.

(** [build_path_recursive] pushes the sibling of the split after the
    recursive call, so the path runs from the leaf to the root. *)
Equations? build_path_recursive (leaves : list (list byte)) (index : Z)
  : list (list byte) by wf (length leaves) lt :=
  build_path_recursive [] index := [];
  build_path_recursive [single] index := [];
  build_path_recursive (a :: b :: l) index :=
    if index <? Z.of_nat (split_at (a :: b :: l))
    then build_path_recursive (take (split_at (a :: b :: l)) (a :: b :: l)) index
         ++ [merkle_root (drop (split_at (a :: b :: l)) (a :: b :: l))]
    else build_path_recursive (drop (split_at (a :: b :: l)) (a :: b :: l))
           (index - Z.of_nat (split_at (a :: b :: l)))
         ++ [merkle_root (take (split_at (a :: b :: l)) (a :: b :: l))].
Proof.
  - pose proof (split_at_bounds a b l). rewrite length_take. cbn [length] in *. lia.
  - pose proof (split_at_bounds a b l). rewrite length_drop. cbn [length] in *. lia.
Qed.

Definition build_audit_path (leaves : list (list byte)) (leaf_index : Z)
  : res KtError AuditPath :=
  let n := len leaves in
  reject n =? 0 with EmptyTree ;;
  reject n <=? leaf_index with LeafIndexOutOfRange leaf_index n ;;
  Ok {| siblings := build_path_recursive leaves leaf_index |}.

(** [while sn > 0]: at most 64 iterations on a [u64]. *)
Fixpoint audit_path_length_loop (fuel : nat) (fn sn acc : Z) : Z :=
  match fuel with
  | O => acc
  | S fuel =>
      if 0 <? sn then
        let acc := if (Z.land fn 1 =? 1) || negb (fn =? sn) then acc + 1 else acc in
        audit_path_length_loop fuel (Z.shiftr fn 1) (Z.shiftr sn 1) acc
      else acc
  end.

Definition audit_path_length (leaf_index tree_size : Z) : Z :=
  audit_path_length_loop 64 leaf_index (sat_sub tree_size 1) 0.

(** [while fn & 1 == 0 && fn != 0 { fn >>= 1; sn >>= 1 }]. *)
Fixpoint skip_even (fuel : nat) (fn sn : Z) : Z * Z :=
  match fuel with
  | O => (fn, sn)
  | S fuel =>
      if (Z.land fn 1 =? 0) && negb (fn =? 0)
      then skip_even fuel (Z.shiftr fn 1) (Z.shiftr sn 1)
      else (fn, sn)
  end.

(** One iteration of the loop over the siblings. *)
Definition verify_step (st : Z * Z * list byte) (p : list byte) : Z * Z * list byte :=
  let '(fn, sn, r) := st in
  if (Z.land fn 1 =? 1) || (fn =? sn) then
    let r := inner_hash p r in
    let '(fn, sn) := if Z.land fn 1 =? 0 then skip_even 64 fn sn else (fn, sn) in
    (Z.shiftr fn 1, Z.shiftr sn 1, r)
  else
    let r := inner_hash r p in
    (Z.shiftr fn 1, Z.shiftr sn 1, r).

Definition verify_inclusion (leaf : list byte) (leaf_index tree_size : Z)
    (path : AuditPath) (expected_root : list byte) : res KtError unit :=
  reject tree_size =? 0 with EmptyTree ;;
  reject tree_size <=? leaf_index with LeafIndexOutOfRange leaf_index tree_size ;;
  let expected_path_len := audit_path_length leaf_index tree_size in
  reject negb (len (siblings path) =? expected_path_len)
    with InvalidProofLength tree_size leaf_index expected_path_len (len (siblings path)) ;;
  let '(fn, sn, r) := fold_left verify_step (siblings path) (leaf_index, tree_size - 1, leaf) in
  reject negb (sn =? 0)
    with InvalidProofLength tree_size leaf_index expected_path_len (len (siblings path)) ;;
  reject negb (bool_decide (r = expected_root)) with InclusionRootMismatch ;;
  Ok tt.

(** ** Bit tests as arithmetic *)
Lemma land_1 f : Z.land f 1 = f mod 2.
Proof. change 1 with (Z.ones 1). by rewrite Z.land_ones. Qed.

Lemma shiftr_1 f : Z.shiftr f 1 = f / 2.
Proof. by rewrite Z.shiftr_div_pow2. Qed.

Lemma skip_even_pow fuel d c :
  c mod 2 = 1 -> 0 < c -> (d <= fuel)%nat ->
  skip_even fuel (c * 2 ^ Z.of_nat d) (c * 2 ^ Z.of_nat d) = (c, c).
Proof.
  intros Hodd Hc. revert d. induction fuel as [|fuel IH]; intros d Hd.
  - replace d with 0%nat by lia. simpl. by rewrite Z.mul_1_r.
  - cbn [skip_even]. rewrite land_1, !shiftr_1. destruct d as [|d].
    + rewrite Z.mul_1_r, Hodd. done.
    + rewrite Nat2Z.inj_succ, Z.pow_succ_r, (Z.mul_comm 2), Z.mul_assoc by lia.
      rewrite Z.mod_mul, Z.div_mul by lia.
      pose proof (Z.pow_pos_nonneg 2 (Z.of_nat d)).
      replace (_ =? 0) with true by done.
      rewrite (proj2 (Z.eqb_neq _ _)) by nia. simpl. apply IH. lia.
Qed.

(** ** The three kinds of step *)
Lemma step_left f s r p :
  f mod 2 = 0 -> f <> s -> verify_step (f, s, r) p = (f / 2, s / 2, inner_hash r p).
Proof.
  intros He Hne. unfold verify_step. rewrite land_1, He, !shiftr_1.
  by rewrite (proj2 (Z.eqb_neq f s)).
Qed.

Lemma step_odd f s r p :
  f mod 2 = 1 -> verify_step (f, s, r) p = (f / 2, s / 2, inner_hash p r).
Proof. intros Ho. unfold verify_step. rewrite land_1, Ho. simpl. by rewrite !shiftr_1. Qed.

Lemma step_last c d r p :
  c mod 2 = 1 -> 0 < c -> (d <= 64)%nat ->
  verify_step (c * 2 ^ Z.of_nat d, c * 2 ^ Z.of_nat d, r) p = (c / 2, c / 2, inner_hash p r).
Proof.
  intros Ho Hc Hd. unfold verify_step. rewrite Z.eqb_refl, orb_true_r, land_1.
  destruct (_ mod 2 =? 0) eqn:He.
  - rewrite skip_even_pow by done. by rewrite !shiftr_1.
  - destruct d as [|d]; [by rewrite Z.mul_1_r, !shiftr_1|].
    rewrite Nat2Z.inj_succ, Z.pow_succ_r, (Z.mul_comm 2), Z.mul_assoc, Z.mod_mul in He by lia.
    done.
Qed.

(** ** Splitting a list of leaves *)
Lemma split_at_pow (l : list (list byte)) h :
  2 ^ Z.of_nat h < len l <= 2 * 2 ^ Z.of_nat h -> split_at l = Z.to_nat (2 ^ Z.of_nat h).
Proof.
  intros [H1 H2]. pose proof (Z.pow_pos_nonneg 2 (Z.of_nat h)).
  unfold split_at. rewrite largest_power_of_two_below_eq by lia.
  rewrite (Z.log2_unique (len l - 1) (Z.of_nat h)); [done|lia|].
  rewrite Z.pow_succ_r; lia.
Qed.

Lemma len_ge_2 {A} (l : list A) : 2 <= len l -> exists a b t, l = a :: b :: t.
Proof. destruct l as [|a [|b t]]; unfold len; simpl; [lia|lia|eauto]. Qed.

Lemma merkle_root_split l :
  2 <= len l ->
  merkle_root l = inner_hash (merkle_root (take (split_at l) l)) (merkle_root (drop (split_at l) l)).
Proof. intros H. destruct (len_ge_2 l H) as (a & b & t & ->). by simp merkle_root. Qed.

Lemma build_path_split_l l i :
  2 <= len l -> i < Z.of_nat (split_at l) ->
  build_path_recursive l i =
    build_path_recursive (take (split_at l) l) i ++ [merkle_root (drop (split_at l) l)].
Proof.
  intros H Hi. destruct (len_ge_2 l H) as (a & b & t & ->). simp build_path_recursive.
  by rewrite (proj2 (Z.ltb_lt _ _)).
Qed.

Lemma build_path_split_r l i :
  2 <= len l -> Z.of_nat (split_at l) <= i ->
  build_path_recursive l i =
    build_path_recursive (drop (split_at l) l) (i - Z.of_nat (split_at l))
    ++ [merkle_root (take (split_at l) l)].
Proof.
  intros H Hi. destruct (len_ge_2 l H) as (a & b & t & ->). simp build_path_recursive.
  by rewrite (proj2 (Z.ltb_ge _ _)).
Qed.

(** ** The expected path length, one level at a time *)
Definition apl (f s : Z) : Z := audit_path_length_loop 64 f s 0.

Lemma audit_loop_acc fuel f s acc :
  audit_path_length_loop fuel f s acc = acc + audit_path_length_loop fuel f s 0.
Proof.
  revert f s acc. induction fuel as [|fuel IH]; intros f s acc; simpl; [lia|].
  destruct (0 <? s); [|lia]. destruct (_ || _); rewrite IH; [|lia].
  rewrite (IH _ _ 1). lia.
Qed.

Lemma audit_loop_fuel fuel f s acc :
  0 <= s < 2 ^ Z.of_nat fuel ->
  audit_path_length_loop (S fuel) f s acc = audit_path_length_loop fuel f s acc.
Proof.
  revert f s acc. induction fuel as [|fuel IH]; intros f s acc Hs.
  - cbn. by replace s with 0 by (simpl in Hs; lia).
  - rewrite Nat2Z.inj_succ, Z.pow_succ_r in Hs by lia.
    cbn [audit_path_length_loop] in IH |- *. destruct (0 <? s); [|done].
    rewrite IH; [done|]. rewrite shiftr_1.
    split; [apply Z.div_pos; lia|apply Z.div_lt_upper_bound; lia].
Qed.

Lemma audit_loop_S fuel f s acc :
  audit_path_length_loop (S fuel) f s acc =
    if 0 <? s then
      let acc := if (Z.land f 1 =? 1) || negb (f =? s) then acc + 1 else acc in
      audit_path_length_loop fuel (Z.shiftr f 1) (Z.shiftr s 1) acc
    else acc.
Proof. done. Qed.

Lemma apl_0 f : apl f 0 = 0.
Proof. done. Qed.

Lemma apl_step f s :
  0 < s < 2 ^ 64 ->
  apl f s = (if (f mod 2 =? 1) || negb (f =? s) then 1 else 0) + apl (f / 2) (s / 2).
Proof.
  intros Hs. unfold apl at 1. rewrite (audit_loop_S 63).
  rewrite (proj2 (Z.ltb_lt _ _)) by lia. cbn zeta.
  rewrite land_1, !shiftr_1, audit_loop_acc. unfold apl.
  rewrite (audit_loop_fuel 63); [reflexivity|].
  split; [apply Z.div_pos; lia|apply Z.div_lt_upper_bound; lia].
Qed.

Lemma apl_left f s :
  f mod 2 = 0 -> f <> s -> 0 < s < 2 ^ 64 -> apl f s = 1 + apl (f / 2) (s / 2).
Proof.
  intros He Hne Hs. rewrite apl_step, He by done.
  by rewrite (proj2 (Z.eqb_neq f s)).
Qed.

Lemma apl_odd f s :
  f mod 2 = 1 -> 0 < s < 2 ^ 64 -> apl f s = 1 + apl (f / 2) (s / 2).
Proof. intros Ho Hs. by rewrite apl_step, Ho. Qed.

Lemma apl_last c d :
  0 <= c -> c * 2 ^ Z.of_nat d < 2 ^ 64 ->
  apl (c * 2 ^ Z.of_nat d) (c * 2 ^ Z.of_nat d) = apl c c.
Proof.
  intros Hc. induction d as [|d IH]; intros Hb; [by rewrite Z.mul_1_r|].
  rewrite Nat2Z.inj_succ, Z.pow_succ_r, (Z.mul_comm 2), Z.mul_assoc in Hb |- * by lia.
  pose proof (Z.pow_pos_nonneg 2 (Z.of_nat d)).
  destruct (decide (c = 0)) as [->|Hc0]; [done|].
  rewrite apl_step by nia. rewrite Z.mod_mul, Z.div_mul, Z.eqb_refl by lia.
  rewrite IH by nia. done.
Qed.

Lemma audit_path_length_apl i n : audit_path_length i n = apl i (sat_sub n 1).
Proof. unfold audit_path_length, apl. reflexivity. Qed.

#[local] Opaque apl.

(** ** Honest paths

    [perfect_path]: a full subtree of [2^h] leaves whose block number at
    level [h] is [c], anywhere in a tree with last index [s]. *)
Lemma perfect_path h c i s leaf l :
  len l = 2 ^ Z.of_nat h -> 0 <= i < 2 ^ Z.of_nat h -> l !! Z.to_nat i = Some leaf ->
  0 <= c -> (c + 1) * 2 ^ Z.of_nat h - 1 <= s < 2 ^ 64 ->
  fold_left verify_step (build_path_recursive l i) (c * 2 ^ Z.of_nat h + i, s, leaf)
    = (c, s / 2 ^ Z.of_nat h, merkle_root l)
  /\ apl (c * 2 ^ Z.of_nat h + i) s
    = len (build_path_recursive l i) + apl c (s / 2 ^ Z.of_nat h).
Proof.
  revert c i s leaf l. induction h as [|h IH]; intros c i s leaf l Hl Hi Hlk Hc Hs.
  { change (2 ^ Z.of_nat 0) with 1 in *. destruct l as [|x [|y t]]; [done| |unfold len in Hl; simpl in Hl; lia].
    replace i with 0 in * by lia. simpl in Hlk. injection Hlk as ->.
    simp build_path_recursive merkle_root. rewrite Z.div_1_r, Z.mul_1_r, Z.add_0_r, len_nil.
    split; [done|lia]. }
  rewrite Nat2Z.inj_succ, Z.pow_succ_r in * by lia.
  pose proof (Z.pow_pos_nonneg 2 (Z.of_nat h)) as HP.
  assert (Hk : split_at l = Z.to_nat (2 ^ Z.of_nat h)) by (apply split_at_pow; lia).
  assert (Hdiv : s / (2 * 2 ^ Z.of_nat h) = s / 2 ^ Z.of_nat h / 2)
    by (rewrite Z.div_div, (Z.mul_comm 2) by lia; done).
  assert (Hsq : 2 * c + 1 <= s / 2 ^ Z.of_nat h) by (apply Z.div_le_lower_bound; lia).
  assert (Hsu : s / 2 ^ Z.of_nat h < 2 ^ 64) by (apply Z.div_lt_upper_bound; nia).
  rewrite merkle_root_split, Hdiv by lia.
  destruct (decide (i < 2 ^ Z.of_nat h)) as [Hlt|Hge].
  - rewrite build_path_split_l by lia. rewrite fold_left_app, len_app, Hk.
    destruct (IH (2 * c) i s leaf (take (Z.to_nat (2 ^ Z.of_nat h)) l)) as [H1 H2];
      [len_lia|lia|by rewrite lookup_take_lt by lia|lia|lia|].
    replace (c * (2 * 2 ^ Z.of_nat h) + i) with (2 * c * 2 ^ Z.of_nat h + i) by lia.
    assert (He : (2 * c) mod 2 = 0) by (by rewrite Z.mul_comm, Z.mod_mul).
    assert (Hh : 2 * c / 2 = c) by (by rewrite Z.mul_comm, Z.div_mul).
    rewrite H1, H2. cbn [fold_left]. rewrite step_left, apl_left, Hh by lia.
    split; [done|]. rewrite len_cons, len_nil. lia.
  - rewrite build_path_split_r by lia. rewrite fold_left_app, len_app, Hk, Z2Nat.id by lia.
    destruct (IH (2 * c + 1) (i - 2 ^ Z.of_nat h) s leaf (drop (Z.to_nat (2 ^ Z.of_nat h)) l))
      as [H1 H2]; [len_lia|lia| |lia|lia|].
    { rewrite lookup_drop. rewrite <- Hlk. f_equal. lia. }
    replace (c * (2 * 2 ^ Z.of_nat h) + i)
      with ((2 * c + 1) * 2 ^ Z.of_nat h + (i - 2 ^ Z.of_nat h)) by lia.
    assert (Ho : (2 * c + 1) mod 2 = 1) by (rewrite Z.add_comm, Z.mul_comm, Z.mod_add; done).
    assert (Hh : (2 * c + 1) / 2 = c) by (rewrite Z.add_comm, Z.mul_comm, Z.div_add; done).
    rewrite H1, H2. cbn [fold_left]. rewrite step_odd, apl_odd, Hh by lia.
    split; [done|]. rewrite len_cons, len_nil. lia.
Qed.

(** Left part of a right-edge subtree: the node is an even, non-last node
    whose right neighbour is the last one. *)
Lemma edge_left h e c i leaf l :
  let P := 2 ^ Z.of_nat h in
  P < len l <= 2 * P -> 0 <= i < P -> l !! Z.to_nat i = Some leaf ->
  0 <= c -> c * 2 ^ Z.of_nat e * (2 * P) + len l <= 2 ^ 64 ->
  let off := c * 2 ^ Z.of_nat e * (2 * P) in
  fold_left verify_step (build_path_recursive l i) (off + i, off + len l - 1, leaf)
    = (c * 2 ^ Z.of_nat e, c * 2 ^ Z.of_nat e, merkle_root l)
  /\ apl (off + i) (off + len l - 1)
    = len (build_path_recursive l i) + apl (c * 2 ^ Z.of_nat e) (c * 2 ^ Z.of_nat e).
Proof.
  intros P HP Hi Hlk Hc Hb off.
  assert (HP0 : 0 < P) by (apply Z.pow_pos_nonneg; lia).
  assert (Hk : split_at l = Z.to_nat P) by (apply split_at_pow; unfold P in HP; lia).
  set (b := c * 2 ^ Z.of_nat e) in *.
  assert (Hb0 : 0 <= b) by (apply Z.mul_nonneg_nonneg; [done|apply Z.pow_nonneg; lia]).
  assert (Hs : (off + len l - 1) / P = 2 * b + 1).
  { symmetry. apply (Z.div_unique_pos _ _ _ (len l - 1 - P)); unfold off; lia. }
  rewrite merkle_root_split, build_path_split_l by lia.
  rewrite fold_left_app, len_app, Hk.
  destruct (perfect_path h (2 * b) i (off + len l - 1) leaf (take (Z.to_nat P) l))
    as [H1 H2]; fold P;
    [len_lia|lia|by rewrite lookup_take_lt by lia|lia|unfold off; lia|].
  fold P in H1, H2. replace (2 * b * P + i) with (off + i) in H1, H2 by (unfold off; lia).
  rewrite H1, H2, Hs. cbn [fold_left].
  assert (He : (2 * b) mod 2 = 0) by (by rewrite Z.mul_comm, Z.mod_mul).
  assert (Hh : 2 * b / 2 = b) by (by rewrite Z.mul_comm, Z.div_mul).
  assert (Hh1 : (2 * b + 1) / 2 = b) by (rewrite Z.add_comm, Z.mul_comm, Z.div_add; done).
  assert (2 * b + 1 < 2 ^ 64) by (unfold off in *; nia).
  rewrite step_left, apl_left, Hh, Hh1 by lia.
  split; [done|]. rewrite len_cons, len_nil. lia.
Qed.

(** The split level [h] of a last subtree and the [e] levels above it. *)
Lemma edge_levels n H c :
  2 <= n <= 2 ^ Z.of_nat H -> 0 <= c -> c * 2 ^ Z.of_nat H + n <= 2 ^ 64 ->
  exists h e, 2 ^ Z.of_nat h < n <= 2 * 2 ^ Z.of_nat h /\ (e < H)%nat /\ (h <= 64)%nat /\
    2 ^ Z.of_nat H = 2 ^ Z.of_nat e * (2 * 2 ^ Z.of_nat h).
Proof.
  intros Hn Hc Hb. destruct (split_point n) as (hz & Hhz & _ & HP); [lia|].
  destruct (Z_of_nat_complete hz Hhz) as [h ->].
  assert (Hh : (h < H)%nat).
  { assert (2 ^ Z.of_nat h < 2 ^ Z.of_nat H) as Hlt by lia.
    apply Z.pow_lt_mono_r_iff in Hlt; lia. }
  exists h, (H - h - 1)%nat. split; [lia|]. split; [lia|]. split.
  - assert (2 ^ Z.of_nat h < 2 ^ 64) as Hlt by (pose proof (Z.pow_nonneg 2 (Z.of_nat H)); nia).
    apply Z.pow_lt_mono_r_iff in Hlt; lia.
  - replace (Z.of_nat H) with (Z.of_nat (H - h - 1) + Z.succ (Z.of_nat h)) by lia.
    by rewrite Z.pow_add_r, Z.pow_succ_r by lia.
Qed.

(** [edge_path]: a subtree that ends at the last leaf.  The node stays the
    last of its level, so the loop may lag [d] levels behind. *)
Lemma edge_path n : forall l H c i leaf,
  (length l <= n)%nat -> 1 <= len l <= 2 ^ Z.of_nat H -> 0 <= i < len l ->
  l !! Z.to_nat i = Some leaf -> 0 <= c -> c * 2 ^ Z.of_nat H + len l <= 2 ^ 64 ->
  exists d, (d <= H)%nat /\
  fold_left verify_step (build_path_recursive l i)
      (c * 2 ^ Z.of_nat H + i, c * 2 ^ Z.of_nat H + len l - 1, leaf)
    = (c * 2 ^ Z.of_nat d, c * 2 ^ Z.of_nat d, merkle_root l)
  /\ apl (c * 2 ^ Z.of_nat H + i) (c * 2 ^ Z.of_nat H + len l - 1)
    = len (build_path_recursive l i) + apl c c.
Proof.
  induction n as [|n IH]; intros l H c i leaf Hn Hl Hi Hlk Hc Hb; [unfold len in Hl; lia|].
  destruct (decide (len l = 1)) as [H1|H1].
  { destruct l as [|x [|y t]]; [done| |unfold len in H1; simpl in H1; lia].
    replace i with 0 in * by lia. simpl in Hlk. injection Hlk as ->.
    exists H. simp build_path_recursive merkle_root. rewrite Z.add_0_r.
    replace (c * 2 ^ Z.of_nat H + len [leaf] - 1) with (c * 2 ^ Z.of_nat H) by lia.
    repeat split; [lia|]. rewrite apl_last; rewrite ?len_nil; lia. }
  destruct (edge_levels (len l) H c) as (h & e & HP & He & Hh64 & HH); [lia|done|done|].
  rewrite HH, Z.mul_assoc in Hb |- *.
  set (P := 2 ^ Z.of_nat h) in *. assert (HP0 : 0 < P) by (apply Z.pow_pos_nonneg; lia).
  set (b := c * 2 ^ Z.of_nat e) in *.
  assert (Hb0 : 0 <= b) by (apply Z.mul_nonneg_nonneg; [done|apply Z.pow_nonneg; lia]).
  assert (Hbl : apl b b = apl c c) by (apply apl_last; unfold b in *; nia).
  exists e. split; [lia|]. fold b.
  destruct (decide (i < P)) as [Hlt|Hge].
  { destruct (edge_left h e c i leaf l) as [E1 E2]; fold P; fold b; [lia|lia|done|done|lia|].
    fold P b in E1, E2. by rewrite E1, E2, Hbl. }
  assert (Hk : split_at l = Z.to_nat P) by (apply split_at_pow; fold P; lia).
  rewrite merkle_root_split, build_path_split_r by lia.
  rewrite fold_left_app, len_app, Hk, Z2Nat.id by lia.
  destruct (IH (drop (Z.to_nat P) l) h (2 * b + 1) (i - P) leaf) as (d & Hd & E1 & E2).
  { rewrite length_drop. unfold len in *. lia. }
  { fold P. len_lia. } { len_lia. }
  { rewrite lookup_drop, <- Hlk. f_equal. lia. } { lia. }
  { fold P. len_lia. }
  fold P in E1, E2.
  replace ((2 * b + 1) * P + (i - P)) with (b * (2 * P) + i) in E1, E2 by lia.
  replace ((2 * b + 1) * P + len (drop (Z.to_nat P) l) - 1) with (b * (2 * P) + len l - 1)
    in E1, E2 by len_lia.
  assert (Ho : (2 * b + 1) mod 2 = 1) by (rewrite Z.add_comm, Z.mul_comm, Z.mod_add; done).
  assert (Hhalf : (2 * b + 1) / 2 = b) by (rewrite Z.add_comm, Z.mul_comm, Z.div_add; done).
  rewrite E1, E2. cbn [fold_left]. rewrite step_last, apl_odd, Hhalf by (try lia; nia).
  split; [done|]. rewrite len_cons, len_nil. lia.
Qed.

Lemma honest_run leaves i leaf :
  0 <= i < len leaves -> len leaves <= U64_MAX -> leaves !! Z.to_nat i = Some leaf ->
  fold_left verify_step (build_path_recursive leaves i) (i, len leaves - 1, leaf)
    = (0, 0, merkle_root leaves)
  /\ audit_path_length i (len leaves) = len (build_path_recursive leaves i).
Proof.
  unfold U64_MAX. intros Hi Hn Hlk.
  destruct (edge_path (length leaves) leaves 64 0 i leaf) as (d & _ & E1 & E2);
    [done| |done|done|lia|lia|].
  { change (2 ^ Z.of_nat 64) with (2 ^ 64). lia. }
  rewrite !Z.mul_0_l, !Z.add_0_l in E1, E2. split; [exact E1|].
  rewrite audit_path_length_apl. unfold sat_sub. rewrite Z.max_r by lia.
  rewrite E2, apl_0. lia.
Qed.

(** ** Two runs over paths of the same length *)

(** The byte string hashed by one iteration. *)
Definition step_input (st : Z * Z * list byte) (p : list byte) : list byte :=
  let '(fn, sn, r) := st in
  if (Z.land fn 1 =? 1) || (fn =? sn)
  then INNER_PREFIX :: p ++ r else INNER_PREFIX :: r ++ p.

(** The byte strings hashed by the whole loop. *)
Fixpoint hash_inputs (st : Z * Z * list byte) (path : list (list byte)) : list (list byte) :=
  match path with
  | [] => []
  | p :: path => step_input st p :: hash_inputs (verify_step st p) path
  end.

Lemma verify_step_input f s r p :
  snd (verify_step (f, s, r) p) = sha256 (step_input (f, s, r) p).
Proof.
  unfold verify_step, step_input, inner_hash. destruct (_ || _); [|done].
  by destruct (if Z.land f 1 =? 0 then skip_even 64 f s else (f, s)).
Qed.

Lemma verify_step_indices f s r p r' p' :
  fst (verify_step (f, s, r) p) = fst (verify_step (f, s, r') p').
Proof.
  unfold verify_step. destruct (_ || _); [|done].
  by destruct (if Z.land f 1 =? 0 then skip_even 64 f s else (f, s)).
Qed.

Lemma run_indices p1 p2 f s r1 r2 :
  length p1 = length p2 ->
  fst (fold_left verify_step p1 (f, s, r1)) = fst (fold_left verify_step p2 (f, s, r2)).
Proof.
  revert p2 f s r1 r2. induction p1 as [|a p1 IH]; intros [|b p2] f s r1 r2 Hl; try done.
  cbn [fold_left]. pose proof (verify_step_indices f s r1 a r2 b) as Hi.
  destruct (verify_step (f, s, r1) a) as [[f1 s1] q1], (verify_step (f, s, r2) b) as [[f2 s2] q2].
  simpl in Hi. injection Hi as -> ->. apply IH. simpl in Hl. lia.
Qed.

Definition is_hash (h : list byte) : Prop := len h = NODE_HASH_LEN.

Lemma step_input_inj f s r1 a r2 b :
  is_hash r1 -> is_hash r2 -> is_hash a -> is_hash b ->
  step_input (f, s, r1) a = step_input (f, s, r2) b -> r1 = r2 /\ a = b.
Proof.
  unfold is_hash, NODE_HASH_LEN, len, step_input. intros Hr1 Hr2 Ha Hb.
  destruct (_ || _); intros [= He]; apply app_inj_1 in He; try lia; tauto.
Qed.

(** Two runs that end on the same hash have the same inputs, or hash two
    different byte strings to the same digest on the way. *)
Lemma run_binding (Hsha : forall x, is_hash (sha256 x)) p1 p2 f s r1 r2 :
  length p1 = length p2 -> is_hash r1 -> is_hash r2 ->
  Forall is_hash p1 -> Forall is_hash p2 ->
  snd (fold_left verify_step p1 (f, s, r1)) = snd (fold_left verify_step p2 (f, s, r2)) ->
  (r1 = r2 /\ p1 = p2) \/
  exists x y, x ∈ hash_inputs (f, s, r1) p1 /\ y ∈ hash_inputs (f, s, r2) p2 /\
              x <> y /\ sha256 x = sha256 y.
Proof.
  revert p2 f s r1 r2. induction p1 as [|a p1 IH]; intros [|b p2] f s r1 r2 Hl Hr1 Hr2 Hp1 Hp2 He;
    try done; [by left|].
  apply Forall_cons in Hp1 as [Ha Hp1]. apply Forall_cons in Hp2 as [Hb Hp2].
  cbn [fold_left hash_inputs] in *.
  pose proof (verify_step_indices f s r1 a r2 b) as Hi.
  pose proof (verify_step_input f s r1 a) as H1. pose proof (verify_step_input f s r2 b) as H2.
  destruct (verify_step (f, s, r1) a) as [[f1 s1] q1], (verify_step (f, s, r2) b) as [[f2 s2] q2].
  simpl in Hi, H1, H2. injection Hi as -> ->. subst q1 q2.
  destruct (IH p2 f2 s2 (sha256 (step_input (f, s, r1) a)) (sha256 (step_input (f, s, r2) b)))
    as [[Hq ->]|(x & y & Hx & Hy & Hne & Hxy)]; auto.
  - destruct (decide (step_input (f, s, r1) a = step_input (f, s, r2) b)) as [Heq|Hne].
    + left. apply step_input_inj in Heq as [-> ->]; auto.
    + right. exists (step_input (f, s, r1) a), (step_input (f, s, r2) b).
      repeat split; auto using list_elem_of_here.
  - right. exists x, y. repeat split; auto using list_elem_of_further.
Qed.

Lemma is_hash_merkle_root (Hsha : forall x, is_hash (sha256 x)) l :
  Forall is_hash l -> is_hash (merkle_root l).
Proof.
  destruct l as [|a [|b t]]; simp merkle_root; intros H.
  - apply Hsha.
  - by apply Forall_cons in H as [? _].
  - apply Hsha.
Qed.

Lemma is_hash_build_path (Hsha : forall x, is_hash (sha256 x)) n : forall l i,
  (length l <= n)%nat -> Forall is_hash l -> Forall is_hash (build_path_recursive l i).
Proof.
  induction n as [|n IH]; intros [|a [|b t]] i Hn Hl; simp build_path_recursive;
    try (by constructor); [simpl in Hn; lia|].
  pose proof (split_at_bounds a b t). set (k := split_at _) in *. set (l := a :: b :: t) in *.
  assert (Forall is_hash (take k l) /\ Forall is_hash (drop k l)) as [Ht Hd]
    by (by split; [apply Forall_take|apply Forall_drop]).
  destruct (_ <? _); apply Forall_app; split;
    try (constructor; [by apply is_hash_merkle_root|constructor]);
    apply IH; auto; rewrite ?length_take, ?length_drop; lia.
Qed.

Lemma fst_honest_run (leaves : list (list byte)) i leaf path :
  0 <= i < len leaves -> len leaves <= U64_MAX -> leaves !! Z.to_nat i = Some leaf ->
  len path = audit_path_length i (len leaves) -> forall r,
  fst (fold_left verify_step path (i, len leaves - 1, r)) = (0, 0).
Proof.
  intros Hi Hn Hlk Hp r. destruct (honest_run leaves i leaf) as [H1 H2]; [done..|].
  rewrite (run_indices path (build_path_recursive leaves i) i _ r leaf), H1; [done|].
  unfold len in *. lia.
Qed.

(** A list of any length exists, so the indices reach [(0, 0)] for every
    index and size, whatever the path holds. *)
Lemma run_ends i n path r :
  0 <= i < n -> n <= U64_MAX -> len path = audit_path_length i n ->
  exists r', fold_left verify_step path (i, n - 1, r) = (0, 0, r').
Proof.
  intros Hi Hn Hp. set (leaves := replicate (Z.to_nat n) ([] : list byte)).
  assert (Hl : len leaves = n) by (unfold leaves; rewrite len_replicate; lia).
  pose proof (fst_honest_run leaves i [] path) as H.
  rewrite Hl in H. specialize (H Hi Hn).
  assert (leaves !! Z.to_nat i = Some []) as Hlk
    by (apply lookup_replicate; split; [done|lia]).
  specialize (H Hlk Hp r). destruct (fold_left _ _ _) as [[a b] r'].
  simpl in H. injection H as -> ->. eauto.
Qed.

(** The root a path claims for a leaf. *)
Definition computed_root (leaf : list byte) (i n : Z) (path : list (list byte)) : list byte :=
  snd (fold_left verify_step path (i, n - 1, leaf)).

Lemma verify_inclusion_spec leaf i n path root :
  0 <= i < n -> n <= U64_MAX ->
  verify_inclusion leaf i n path root =
    if len (siblings path) =? audit_path_length i n
    then if bool_decide (computed_root leaf i n (siblings path) = root)
         then Ok tt else Err InclusionRootMismatch
    else Err (InvalidProofLength n i (audit_path_length i n) (len (siblings path))).
Proof.
  intros Hi Hn. unfold verify_inclusion, computed_root.
  rewrite (proj2 (Z.eqb_neq _ _)), (proj2 (Z.leb_gt _ _)) by lia. cbn [rguard].
  destruct (_ =? audit_path_length i n) eqn:Hl; [|done]. zbool. cbn [rguard negb].
  destruct (run_ends i n (siblings path) leaf Hi Hn Hl) as [r ->]. simpl.
  by destruct (bool_decide _).
Qed.

Lemma verify_inclusion_Ok leaf i n path root :
  0 <= i < n -> n <= U64_MAX ->
  verify_inclusion leaf i n path root = Ok tt <->
  len (siblings path) = audit_path_length i n /\ computed_root leaf i n (siblings path) = root.
Proof.
  intros Hi Hn. rewrite verify_inclusion_spec by done.
  destruct (_ =? _) eqn:Hl; zbool; [|naive_solver]. case_bool_decide; naive_solver.
Qed.

(** ** Theorems *)

(** C1. Completeness of inclusion proofs: for every tree of at most
    [u64::MAX] leaves and every index in it, [build_audit_path] returns a path
    and [verify_inclusion] accepts the leaf at that index with that path
    against the tree's root. *)
Theorem inclusion_complete (leaves : list (list byte)) (i : Z) (leaf : list byte)
    (Hn : len leaves <= U64_MAX) (Hi : 0 <= i < len leaves)
    (Hleaf : leaves !! Z.to_nat i = Some leaf) :
  exists path, build_audit_path leaves i = Ok path /\
    verify_inclusion leaf i (len leaves) path (merkle_root leaves) = Ok tt.
Proof.
  destruct (honest_run leaves i leaf) as [H1 H2]; [done..|].
  exists {| siblings := build_path_recursive leaves i |}. split.
  - unfold build_audit_path.
    by rewrite (proj2 (Z.eqb_neq _ _)), (proj2 (Z.leb_gt _ _)) by lia.
  - apply verify_inclusion_Ok; [done..|]. unfold computed_root. simpl. by rewrite H1, H2.
Qed.

(** C2. Soundness of inclusion proofs: if [verify_inclusion] accepts a leaf
    against the root of a tree, then the leaf is the tree's leaf at that index
    and the path is the honest one, or the bytes hashed while checking the
    presented path and the honest path contain two different strings with the
    same SHA-256 digest. *)
Theorem inclusion_sound (Hsha : forall x, is_hash (sha256 x))
    (leaves : list (list byte)) (i : Z) (leaf : list byte) (path : AuditPath)
    (Hn : len leaves <= U64_MAX) (Hi : 0 <= i < len leaves)
    (Hleaves : Forall is_hash leaves) (Hleaf : is_hash leaf)
    (Hpath : Forall is_hash (siblings path))
    (Hok : verify_inclusion leaf i (len leaves) path (merkle_root leaves) = Ok tt) :
  (leaves !! Z.to_nat i = Some leaf /\ siblings path = build_path_recursive leaves i) \/
  exists honest x y, leaves !! Z.to_nat i = Some honest /\
    x ∈ hash_inputs (i, len leaves - 1, leaf) (siblings path) /\
    y ∈ hash_inputs (i, len leaves - 1, honest) (build_path_recursive leaves i) /\
    x <> y /\ sha256 x = sha256 y.
Proof.
  apply verify_inclusion_Ok in Hok as [Hlen Hroot]; [|done..].
  destruct (lookup_lt_is_Some_2 leaves (Z.to_nat i)) as [h Hh]; [unfold len in *; lia|].
  destruct (honest_run leaves i h) as [H1 H2]; [done..|].
  destruct (run_binding Hsha (siblings path) (build_path_recursive leaves i)
              i (len leaves - 1) leaf h) as [[-> ->]|(x & y & ?)].
  - unfold len in *. lia.
  - done.
  - by eapply Forall_lookup_1 in Hh.
  - done.
  - by eapply is_hash_build_path.
  - unfold computed_root in Hroot. by rewrite Hroot, H1.
  - by left.
  - right. exists h, x, y. tauto.
Qed.

(** Binding: two proofs accepted for the same index, tree size and root
    prove the same leaf with the same path, or the bytes hashed while checking
    them contain two different strings with the same digest. *)
Lemma accepted_paths_bind (Hsha : forall x, is_hash (sha256 x))
    (i n : Z) (root leaf1 leaf2 : list byte) (path1 path2 : AuditPath)
    (Hn : n <= U64_MAX) (Hi : 0 <= i < n) (Hl1 : is_hash leaf1) (Hl2 : is_hash leaf2)
    (Hp1 : Forall is_hash (siblings path1)) (Hp2 : Forall is_hash (siblings path2))
    (Hok1 : verify_inclusion leaf1 i n path1 root = Ok tt)
    (Hok2 : verify_inclusion leaf2 i n path2 root = Ok tt) :
  (leaf1 = leaf2 /\ siblings path1 = siblings path2) \/
  exists x y, x ∈ hash_inputs (i, n - 1, leaf1) (siblings path1) /\
    y ∈ hash_inputs (i, n - 1, leaf2) (siblings path2) /\ x <> y /\ sha256 x = sha256 y.
Proof.
  apply verify_inclusion_Ok in Hok1 as [Hlen1 Hr1]; [|done..].
  apply verify_inclusion_Ok in Hok2 as [Hlen2 Hr2]; [|done..].
  apply run_binding; auto; [unfold len in *; lia|].
  unfold computed_root in *. congruence.
Qed.

(** Exact behaviour of [verify_inclusion] on a [u64] size: the four errors
    have exactly the stated causes, and the second length error (the [sn != 0]
    check after the loop) is never raised, because a path of the expected
    length always consumes the whole index. *)
Theorem verify_inclusion_decides (leaf : list byte) (i n : Z) (path : AuditPath)
    (root : list byte) (Hi : is_u64 i) (Hn : is_u64 n) :
  verify_inclusion leaf i n path root =
    if n =? 0 then Err EmptyTree
    else if n <=? i then Err (LeafIndexOutOfRange i n)
    else if len (siblings path) =? audit_path_length i n
    then if bool_decide (computed_root leaf i n (siblings path) = root)
         then Ok tt else Err InclusionRootMismatch
    else Err (InvalidProofLength n i (audit_path_length i n) (len (siblings path))).
Proof.
  unfold is_u64 in *. destruct (n =? 0) eqn:H0; zbool; [by subst|].
  destruct (n <=? i) eqn:Hni; zbool.
  - unfold verify_inclusion.
    by rewrite (proj2 (Z.eqb_neq _ _)), (proj2 (Z.leb_le _ _)) by lia.
  - apply verify_inclusion_spec; lia.
Qed.
End Tree.

(** ** Witnesses, with a concrete 32-byte digest *)
Definition toy_sha (x : list byte) : list byte := take 32 (x ++ replicate 32 Byte.x00).

Lemma toy_sha_len x : is_hash (toy_sha x).
Proof. unfold is_hash, toy_sha, NODE_HASH_LEN. pose proof (len_nonneg x). len_lia. Qed.

Definition toy_leaves : list (list byte) :=
  (fun b => leaf_hash toy_sha [b]) <$> [Byte.x0a; Byte.x0b; Byte.x0c; Byte.x0d; Byte.x0e].

Lemma inclusion_complete_witness :
  exists path, build_audit_path toy_sha toy_leaves 4 = Ok path /\
    verify_inclusion toy_sha (leaf_hash toy_sha [Byte.x0e]) 4 (len toy_leaves) path
      (merkle_root toy_sha toy_leaves) = Ok tt.
Proof.
  apply (inclusion_complete toy_sha toy_leaves 4 (leaf_hash toy_sha [Byte.x0e])).
  - vm_compute. discriminate.
  - vm_compute. split; [discriminate|reflexivity].
  - reflexivity.
Defined.

Lemma toy_leaves_hashes : Forall is_hash toy_leaves.
Proof. repeat (constructor; [apply toy_sha_len|]). constructor. Qed.

Definition toy_path : AuditPath :=
  {| siblings := build_path_recursive toy_sha toy_leaves 4 |}.

Lemma inclusion_sound_witness :
  (toy_leaves !! 4%nat = Some (leaf_hash toy_sha [Byte.x0e]) /\
     siblings toy_path = build_path_recursive toy_sha toy_leaves 4) \/
  exists honest x y, toy_leaves !! 4%nat = Some honest /\
    x ∈ hash_inputs toy_sha (4, len toy_leaves - 1, leaf_hash toy_sha [Byte.x0e]) (siblings toy_path) /\
    y ∈ hash_inputs toy_sha (4, len toy_leaves - 1, honest) (build_path_recursive toy_sha toy_leaves 4) /\
    x <> y /\ toy_sha x = toy_sha y.
Proof.
  apply (inclusion_sound toy_sha toy_sha_len toy_leaves 4 (leaf_hash toy_sha [Byte.x0e]) toy_path).
  - vm_compute. discriminate.
  - vm_compute. split; [discriminate|reflexivity].
  - apply toy_leaves_hashes.
  - apply toy_sha_len.
  - apply (is_hash_build_path toy_sha toy_sha_len 5); [reflexivity|apply toy_leaves_hashes].
  - vm_compute. reflexivity.
Defined.

Lemma verify_inclusion_decides_witness :
  verify_inclusion toy_sha [] 2 5 toy_path [] =
    Err (InvalidProofLength 5 2 3 1).
Proof.
  assert (H2 : is_u64 2) by (vm_compute; split; discriminate).
  assert (H5 : is_u64 5) by (vm_compute; split; discriminate).
  rewrite (verify_inclusion_decides toy_sha [] 2 5 toy_path [] H2 H5). reflexivity.
Defined.

End Merkle.
