(* ===== verification/SframeWire.v ===== *)
(** * SFrame header and key id ([crates/umbrella-calls/src/sframe/wire.rs],
    [error.rs], and the key-id functions of [frame.rs])

    [parse] and [serialize] are translated with their bit fields, the
    accumulating [u64] loops and the 17-byte output buffer.  The round trip holds
    for every pair of 64-bit values; parsing is total. *)
From S2P Require Import Prelude Bytes Mls.

Module SframeWire.

Inductive CallError :=
| WireVersionMismatch (expected found : Z)
| InvalidHeader (what : string)
| UnknownKid (kid : Z)
| StaleEpoch (frame_epoch oldest_cached : Z)
| AeadAuthFailure
| Replay (sender counter : Z)
| OutOfReplayWindow (sender counter window_start : Z)
| FrameTooLarge (limit actual : Z)
| MlsExporterUnavailable
| UnsupportedCiphersuite (cs : Z)
| IdentityBindingFailed
| Mls (e : Mls.MlsError).

Definition MAX_HEADER_LEN : Z := 17.

Record SframeHeader := { kid : Z; counter : Z; header_len : Z }.

(** [for &b in s { v = (v << 8) | u64::from(b) }] on a [u64]. *)
Definition read_be_u64 (s : list byte) : Z :=
  fold_left (fun v b => Z.lor (wrap64 (Z.shiftl v 8)) (u8 b)) s 0.

Definition parse (bytes : list byte) : res CallError (SframeHeader * list byte) :=
  reject len bytes =? 0 with InvalidHeader "empty input" ;;
  let? config_b := index 0 bytes in
  let config := u8 config_b in
  let x_bit := Z.land (Z.shiftr config 7) 1 in
  let k_field := Z.land (Z.shiftr config 4) 7 in
  let y_bit := Z.land (Z.shiftr config 3) 1 in
  let c_field := Z.land config 7 in
  let cursor := 1 in
  let? (kid, kid_bytes, cursor) :=
    (if x_bit =? 0 then Ok (k_field, 0, cursor)
     else
       let kid_len := k_field + 1 in
       reject len bytes <? cursor + kid_len with InvalidHeader "truncated KID" ;;
       let? s := slice cursor (cursor + kid_len) bytes in
       Ok (read_be_u64 s, kid_len, cursor + kid_len)) in
  let? (counter, ctr_bytes, cursor) :=
    (if y_bit =? 0 then Ok (c_field, 0, cursor)
     else
       let ctr_len := c_field + 1 in
       reject len bytes <? cursor + ctr_len with InvalidHeader "truncated CTR" ;;
       let? s := slice cursor (cursor + ctr_len) bytes in
       Ok (read_be_u64 s, ctr_len, cursor + ctr_len)) in
  let header_len := 1 + kid_bytes + ctr_bytes in
  let? rest := slice_from cursor bytes in
  Ok ({| kid := kid; counter := counter; header_len := header_len |}, rest).

(** [64 - v.leading_zeros()] bits, rounded up to bytes. *)
Definition minimal_be_len (v : Z) : Z :=
  if v =? 0 then 1
  else let bits := Z.log2 v + 1 in (bits + 7) / 8.

(** Field value and extension length of a key id or a counter. *)
Definition field_of (v : Z) : Z * Z * Z :=
  if v <? 8 then (0, v, 0) else let kl := minimal_be_len v in (1, kl - 1, kl).

(** The caller passes the buffer; the result is the written length and the
    buffer after the writes. *)
Definition serialize (kid counter : Z) (out : list byte) : res CallError (Z * list byte) :=
  let '(x_bit, k_field, kid_bytes) := field_of kid in
  let '(y_bit, c_field, ctr_bytes) := field_of counter in
  let config := Z.lor (Z.lor (Z.lor (Z.shiftl x_bit 7) (Z.shiftl k_field 4))
                             (Z.shiftl y_bit 3)) c_field in
  let? out := copy_into 0 1 [as_u8 config] out in
  let pos := 1 in
  let? (pos, out) :=
    (if 0 <? kid_bytes then
       let? be := slice_from (8 - kid_bytes) (to_be 8 kid) in
       let? out := copy_into pos (pos + kid_bytes) be out in
       Ok (pos + kid_bytes, out)
     else Ok (pos, out)) in
  if 0 <? ctr_bytes then
    let? be := slice_from (8 - ctr_bytes) (to_be 8 counter) in
    let? out := copy_into pos (pos + ctr_bytes) be out in
    Ok (pos + ctr_bytes, out)
  else Ok (pos, out).

(** ** Key ids ([frame.rs]) *)
Definition compute_kid (sender_leaf_index epoch : Z) : Z :=
  Z.lor (wrap64 (Z.shiftl sender_leaf_index 16)) (Z.land epoch 65535).

(** [(kid >> 16) as u32] and [(kid & 0xFFFF) as u16]. *)
Definition parse_kid (kid : Z) : Z * Z :=
  (wrap32 (Z.shiftr kid 16), Z.land kid 65535).

(** ** Lemmas *)

(** Or-ing below the low bit of a shifted value is addition. *)
Lemma lor_shiftl_add a b k :
  0 <= k -> 0 <= b < 2 ^ k -> Z.lor (Z.shiftl a k) b = a * 2 ^ k + b.
Proof.
  intros Hk Hb. rewrite Z.shiftl_mul_pow2 by lia.
  apply Z.bits_inj'. intros n Hn. rewrite Z.lor_spec.
  destruct (Z.ltb_spec n k) as [Hlt|Hge].
  - rewrite Z.mul_pow2_bits_low by lia. simpl.
    rewrite <- (Z.mod_pow2_bits_low (a * 2 ^ k + b) k n) by lia.
    by rewrite Z.add_comm, Z.mod_add, Z.mod_small by lia.
  - assert (Z.testbit b n = false) as ->.
    { destruct (Z.eq_dec b 0) as [->|]; [apply Z.bits_0|].
      apply Z.bits_above_log2; [lia|].
      apply Z.lt_le_trans with k; [apply Z.log2_lt_pow2; lia|lia]. }
    rewrite Z.mul_pow2_bits, orb_false_r by lia. replace n with ((n - k) + k) at 2 by lia.
    rewrite <- Z.div_pow2_bits by lia. f_equal.
    apply (Z.div_unique_pos _ _ _ b); lia.
Qed.

Lemma u8_lt_256 b : 0 <= u8 b < 2 ^ 8.
Proof. pose proof (u8_range b). lia. Qed.

Lemma read_be_u64_acc s v :
  0 <= v -> v * 256 ^ len s + from_be s <= U64_MAX ->
  fold_left (fun v b => Z.lor (wrap64 (Z.shiftl v 8)) (u8 b)) s v = v * 256 ^ len s + from_be s.
Proof.
  revert v. induction s as [|b s IH]; intros v Hv Hb; simpl.
  - rewrite len_nil. lia.
  - rewrite len_cons, Z.pow_add_r in Hb |- * by (pose proof (len_nonneg s); lia).
    cbn [from_be] in Hb.
    pose proof (Z.pow_pos_nonneg 256 (len s) ltac:(lia) (len_nonneg s)).
    pose proof (u8_range b). pose proof (from_be_range s).
    assert (wrap64 (Z.shiftl v 8) = Z.shiftl v 8) as ->.
    { apply wrap64_id. rewrite Z.shiftl_mul_pow2 by lia. unfold is_u64. nia. }
    rewrite lor_shiftl_add by (try apply u8_lt_256; lia).
    rewrite IH by nia. lia.
Qed.

Lemma read_be_u64_from_be s : len s <= 8 -> read_be_u64 s = from_be s.
Proof.
  intros Hs. unfold read_be_u64. rewrite read_be_u64_acc; [lia|lia|].
  pose proof (from_be_range s). pose proof (len_nonneg s).
  assert (256 ^ len s <= 256 ^ 8) by (apply Z.pow_le_mono_r; lia).
  unfold U64_MAX. change (256 ^ 8) with (2 ^ 64) in *. lia.
Qed.

Lemma minimal_be_len_spec v :
  8 <= v <= U64_MAX -> 1 <= minimal_be_len v <= 8 /\ v < 256 ^ minimal_be_len v.
Proof.
  intros Hv. unfold minimal_be_len, U64_MAX in *. rewrite (proj2 (Z.eqb_neq _ _)) by lia.
  assert (Hl : Z.log2 v < 64) by (apply Z.log2_lt_pow2; lia).
  pose proof (Z.log2_nonneg v).
  pose proof (Z.div_le_lower_bound (Z.log2 v + 1 + 7) 8 1 ltac:(lia) ltac:(lia)).
  pose proof (Z.div_lt_upper_bound (Z.log2 v + 1 + 7) 8 9 ltac:(lia) ltac:(lia)).
  split; [lia|].
  change 256 with (2 ^ 8). rewrite <- Z.pow_mul_r by lia.
  apply Z.lt_le_trans with (2 ^ Z.succ (Z.log2 v)); [apply Z.log2_spec; lia|].
  apply Z.pow_le_mono_r; [lia|].
  pose proof (Z.div_mod (Z.log2 v + 1 + 7) 8 ltac:(lia)).
  pose proof (Z.mod_pos_bound (Z.log2 v + 1 + 7) 8 ltac:(lia)). lia.
Qed.

(** The low [n] bytes of an integer below [256^n] are its big-endian form. *)
Lemma to_be_high_zeros n m z :
  0 <= z < 256 ^ Z.of_nat n -> to_be (m + n) z = replicate m Byte.x00 ++ to_be n z.
Proof.
  intros Hz. induction m as [|m IH]; [done|]. cbn [Nat.add to_be replicate app].
  rewrite IH. f_equal. apply u8_inj. rewrite u8_as_u8.
  rewrite Z.div_small; [done|]. split; [lia|].
  apply Z.lt_le_trans with (256 ^ Z.of_nat n); [lia|]. apply Z.pow_le_mono_r; lia.
Qed.

Lemma slice_be_tail {E} v k :
  1 <= k <= 8 -> 0 <= v < 256 ^ k ->
  @slice_from E _ (8 - k) (to_be 8 v) = Ok (to_be (Z.to_nat k) v).
Proof.
  intros Hk Hv. unfold slice_from. rewrite len_to_be.
  replace (to_be 8 v) with (to_be (Z.to_nat (8 - k) + Z.to_nat k) v) by (f_equal; lia).
  rewrite to_be_high_zeros by (rewrite Z2Nat.id; lia).
  rewrite (slice_skip (8 - k)) by len_lia. apply slice_full; len_lia.
Qed.

(** ** The encoding of one field *)

(** The bytes that follow the configuration byte. *)
Definition ext (v : Z) : list byte :=
  if v <? 8 then [] else to_be (Z.to_nat (minimal_be_len v)) v.

Lemma field_of_bounds v x f k :
  is_u64 v -> field_of v = (x, f, k) ->
  0 <= x <= 1 /\ 0 <= f <= 7 /\ 0 <= k <= 8 /\ len (ext v) = k /\
  ((v < 8 /\ x = 0 /\ f = v /\ k = 0) \/ (8 <= v /\ x = 1 /\ f = k - 1 /\ 1 <= k)).
Proof.
  unfold field_of, ext, is_u64. intros Hv. destruct (v <? 8) eqn:Hlt; zbool; intros [= <- <- <-].
  - unfold len. simpl. lia.
  - destruct (minimal_be_len_spec v) as [Hk _]; [lia|]. rewrite len_to_be. lia.
Qed.

Lemma config_fields x k y c :
  0 <= x <= 1 -> 0 <= k <= 7 -> 0 <= y <= 1 -> 0 <= c <= 7 ->
  let config := u8 (as_u8 (Z.lor (Z.lor (Z.lor (Z.shiftl x 7) (Z.shiftl k 4)) (Z.shiftl y 3)) c)) in
  Z.land (Z.shiftr config 7) 1 = x /\ Z.land (Z.shiftr config 4) 7 = k /\
  Z.land (Z.shiftr config 3) 1 = y /\ Z.land config 7 = c.
Proof.
  intros Hx Hk Hy Hc.
  assert (x = 0 \/ x = 1) as Hx' by lia. assert (y = 0 \/ y = 1) as Hy' by lia.
  assert (k = 0 \/ k = 1 \/ k = 2 \/ k = 3 \/ k = 4 \/ k = 5 \/ k = 6 \/ k = 7) as Hk' by lia.
  assert (c = 0 \/ c = 1 \/ c = 2 \/ c = 3 \/ c = 4 \/ c = 5 \/ c = 6 \/ c = 7) as Hc' by lia.
  clear Hx Hk Hy Hc.
  destruct Hx' as [-> | ->], Hy' as [-> | ->];
    repeat (destruct Hk' as [-> | Hk']); subst;
    repeat (destruct Hc' as [-> | Hc']); subst; vm_compute; auto.
Qed.

Definition config_byte (kid counter : Z) : byte :=
  let '(x, k, _) := field_of kid in
  let '(y, c, _) := field_of counter in
  as_u8 (Z.lor (Z.lor (Z.lor (Z.shiftl x 7) (Z.shiftl k 4)) (Z.shiftl y 3)) c).

(** The header as one byte string. *)
Definition header_bytes (kid counter : Z) : list byte :=
  config_byte kid counter :: ext kid ++ ext counter.

(** Writing one extension into the buffer. *)
Lemma write_ext v pos pre post :
  is_u64 v -> len pre = pos -> len (ext v) <= len post ->
  (let '(_, _, k) := field_of v in
   if 0 <? k then
     let? be := slice_from (8 - k) (to_be 8 v) in
     let? out := copy_into pos (pos + k) be (pre ++ post) in
     Ok (pos + k, out)
   else Ok (pos, pre ++ post)) =
  Ok (E := CallError) (pos + len (ext v), (pre ++ ext v) ++ drop (length (ext v)) post).
Proof.
  intros Hv <- Hfit. destruct (field_of v) as [[x f] k] eqn:Hf.
  destruct (field_of_bounds _ _ _ _ Hv Hf) as (Hx & Hfr & Hk & Hlen & Hc).
  rewrite Hlen in *. pose proof (len_nonneg pre). unfold is_u64 in Hv.
  destruct Hc as [(Hlt & -> & -> & ->)|(Hge & -> & -> & Hk1)].
  - unfold ext. rewrite (proj2 (Z.ltb_lt v 8)) by lia. cbn.
    by rewrite Z.add_0_r, app_nil_r.
  - rewrite (proj2 (Z.ltb_lt 0 k)) by lia.
    destruct (minimal_be_len_spec v) as [Hm Hb]; [lia|].
    assert (Hkm : k = minimal_be_len v)
      by (unfold field_of in Hf; rewrite (proj2 (Z.ltb_ge _ _)) in Hf by lia; by injection Hf).
    rewrite slice_be_tail by (rewrite <- ?Hkm in *; lia). cbn [rbind].
    assert (He : ext v = to_be (Z.to_nat k) v)
      by (unfold ext; by rewrite (proj2 (Z.ltb_ge _ _)), Hkm by lia).
    rewrite <- He. rewrite copy_into_in_range by (rewrite ?len_app; lia). cbn [rbind].
    do 2 f_equal. rewrite <- app_assoc.
    rewrite take_app_length' by (unfold len; lia). do 2 f_equal.
    rewrite drop_app_ge by (unfold len in *; lia). f_equal. unfold len in *. lia.
Qed.

Lemma len_header_bytes kid counter :
  len (header_bytes kid counter) = 1 + len (ext kid) + len (ext counter).
Proof. unfold header_bytes. rewrite len_cons, len_app. lia. Qed.

Lemma len_ext v : is_u64 v -> 0 <= len (ext v) <= 8.
Proof.
  intros Hv. destruct (field_of v) as [[x f] k] eqn:Hf.
  destruct (field_of_bounds _ _ _ _ Hv Hf) as (_ & _ & Hk & -> & _). done.
Qed.

Lemma serialize_spec kid counter out :
  is_u64 kid -> is_u64 counter -> len out = MAX_HEADER_LEN ->
  serialize kid counter out =
    Ok (len (header_bytes kid counter),
        header_bytes kid counter ++ drop (length (header_bytes kid counter)) out).
Proof.
  unfold MAX_HEADER_LEN. intros Hk Hc Hout.
  pose proof (len_ext _ Hk). pose proof (len_ext _ Hc).
  rewrite len_header_bytes. unfold serialize, header_bytes, config_byte.
  destruct (field_of kid) as [[x f] k] eqn:Hfk, (field_of counter) as [[y g] c] eqn:Hfc.
  set (cfg := as_u8 _). destruct out as [|b0 out]; [done|]. rewrite len_cons in Hout.
  rewrite copy_into_in_range by (rewrite ?len_cons, ?len_nil; lia). cbn [rbind].
  change (take (Z.to_nat 0) (b0 :: out) ++ [cfg] ++ drop (Z.to_nat 1) (b0 :: out))
    with ([cfg] ++ out).
  pose proof (write_ext kid 1 [cfg] out Hk eq_refl ltac:(lia)) as W1.
  rewrite Hfk in W1. rewrite W1. cbn [rbind].
  pose proof (write_ext counter (1 + len (ext kid)) ([cfg] ++ ext kid)
                (drop (length (ext kid)) out) Hc
                ltac:(rewrite len_app; unfold len; simpl; lia)
                ltac:(rewrite len_drop; unfold len in *; lia)) as W2.
  rewrite Hfc in W2. rewrite W2. f_equal. f_equal.
  rewrite drop_drop. cbn [app length drop]. by rewrite length_app.
Qed.

(** Reading back one field. *)
Lemma read_ext msg v pos bytes pre post :
  is_u64 v -> bytes = pre ++ ext v ++ post -> pos = len pre ->
  (let '(x, f, _) := field_of v in
   if x =? 0 then Ok (f, 0, pos)
   else
     rguard (len bytes <? pos + (f + 1)) (InvalidHeader msg)
      (let? s := slice pos (pos + (f + 1)) bytes in
       Ok (read_be_u64 s, f + 1, pos + (f + 1)))) =
  Ok (E := CallError) (v, len (ext v), pos + len (ext v)).
Proof.
  intros Hv -> ->. destruct (field_of v) as [[x f] k] eqn:Hf.
  destruct (field_of_bounds _ _ _ _ Hv Hf) as (Hx & Hfr & Hk & Hlen & Hc).
  rewrite Hlen. unfold is_u64 in Hv.
  destruct Hc as [(Hlt & -> & -> & ->)|(Hge & -> & -> & Hk1)].
  - cbn. by rewrite Z.add_0_r.
  - replace (k - 1 + 1) with k by lia. cbn [Z.eqb].
    pose proof (len_nonneg post).
    rewrite (proj2 (Z.ltb_ge _ _)) by (rewrite !len_app; lia). cbn [rguard].
    rewrite (slice_skip (len pre)) by lia. rewrite slice_hit by lia. cbn [rbind].
    do 3 f_equal. rewrite read_be_u64_from_be by lia. unfold ext.
    rewrite (proj2 (Z.ltb_ge _ _)) by lia.
    destruct (minimal_be_len_spec v) as [Hm Hb]; [lia|].
    apply from_be_to_be. rewrite Z2Nat.id; lia.
Qed.

Lemma parse_header_bytes k c rest :
  is_u64 k -> is_u64 c ->
  parse (header_bytes k c ++ rest) =
    Ok ({| kid := k; counter := c; header_len := len (header_bytes k c) |}, rest).
Proof.
  intros Hk Hc. pose proof (len_header_bytes k c) as Hl.
  pose proof (read_ext "truncated KID" k 1 (header_bytes k c ++ rest) [config_byte k c] (ext c ++ rest) Hk) as R1.
  pose proof (read_ext "truncated CTR" c (1 + len (ext k)) (header_bytes k c ++ rest)
                (config_byte k c :: ext k) rest Hc) as R2.
  assert (Hb1 : header_bytes k c ++ rest = [config_byte k c] ++ ext k ++ ext c ++ rest)
    by (unfold header_bytes; simpl; by rewrite <- app_assoc).
  specialize (R1 Hb1 eq_refl). specialize (R2 Hb1 ltac:(rewrite len_cons; lia)).
  unfold parse. pose proof (len_ext _ Hk). pose proof (len_ext _ Hc).
  pose proof (len_nonneg rest).
  rewrite (proj2 (Z.eqb_neq _ _)) by (rewrite len_app; lia). cbn [rguard].
  assert (Hi : index 0 (header_bytes k c ++ rest) = Ok (E := CallError) (config_byte k c)) by done.
  rewrite Hi. cbn [rbind].
  destruct (field_of k) as [[x f] kb] eqn:Hfk, (field_of c) as [[y g] cb] eqn:Hfc.
  destruct (field_of_bounds _ _ _ _ Hk Hfk) as (Hx & Hf & _).
  destruct (field_of_bounds _ _ _ _ Hc Hfc) as (Hy & Hg & _).
  assert (Hcfg : config_byte k c =
    as_u8 (Z.lor (Z.lor (Z.lor (Z.shiftl x 7) (Z.shiftl f 4)) (Z.shiftl y 3)) g))
    by (unfold config_byte; by rewrite Hfk, Hfc).
  destruct (config_fields x f y g Hx Hf Hy Hg) as (E1 & E2 & E3 & E4).
  rewrite <- Hcfg in E1, E2, E3, E4. rewrite E1, E2, E3, E4.
  cbn zeta. rewrite R1. cbn [rbind]. rewrite R2. cbn [rbind]. unfold slice_from.
  rewrite (slice_skip (len (header_bytes k c))) by lia.
  rewrite slice_full by (rewrite ?len_app; lia). cbn [rbind].
  do 3 f_equal. lia.
Qed.

Lemma land_bound z m n : 0 <= z -> 0 <= n -> m = Z.ones n -> 0 <= Z.land z m <= m.
Proof.
  intros Hz Hn ->. rewrite Z.land_ones by lia.
  pose proof (Z.mod_pos_bound z (2 ^ n)). rewrite Z.ones_equiv.
  pose proof (Z.pow_pos_nonneg 2 n). lia.
Qed.

(** One optional extension field of [parse]: it is refused as truncated, or the
    value is a [u64] and the cursor moves by the number of bytes read, inside the
    input. *)
Lemma parse_field_cases bytes cur bit f msg :
  0 <= f <= 7 -> 0 <= cur <= len bytes ->
  let r := (if bit =? 0 then Ok (f, 0, cur)
   else rguard (len bytes <? cur + (f + 1)) (InvalidHeader msg)
     (let? s := slice cur (cur + (f + 1)) bytes in
      Ok (read_be_u64 s, f + 1, cur + (f + 1)))) in
  r = Err (InvalidHeader msg) \/
  exists v n, r = Ok (v, n, cur + n) /\ is_u64 v /\ 0 <= n <= 8 /\ cur + n <= len bytes.
Proof.
  intros Hf Hcur r. subst r. destruct (bit =? 0).
  { right. exists f, 0. rewrite Z.add_0_r. unfold is_u64, U64_MAX. auto with lia. }
  destruct (len bytes <? cur + (f + 1)) eqn:Hl; [by left|]. zbool. right.
  destruct (slice_no_panic (E := CallError) cur (cur + (f + 1)) bytes) as [x Hx]; [lia..|].
  rewrite Hx. exists (read_be_u64 x), (f + 1). cbn. split; [done|].
  apply slice_ok_len in Hx. rewrite read_be_u64_from_be by lia. split; [|lia].
  pose proof (from_be_range x) as Hr. rewrite Hx in Hr.
  assert (256 ^ (cur + (f + 1) - cur) <= 256 ^ 8) by (apply Z.pow_le_mono_r; lia).
  unfold is_u64, U64_MAX. change (256 ^ 8) with (2 ^ 64) in *. lia.
Qed.

(** A 32-bit leaf index and the low 16 bits of the epoch survive the key id. *)
Lemma parse_compute_kid (sender epoch : Z) (Hs : is_u32 sender) (He : is_u64 epoch) :
  parse_kid (compute_kid sender epoch) = (sender, epoch mod 65536) /\
  0 <= compute_kid sender epoch < 2 ^ 48.
Proof.
  unfold is_u32, U32_MAX, is_u64, U64_MAX in *. unfold parse_kid, compute_kid.
  change 65535 with (Z.ones 16). rewrite !Z.land_ones by lia. change 65536 with (2 ^ 16).
  pose proof (Z.mod_pos_bound epoch (2 ^ 16) ltac:(lia)) as Hm.
  rewrite wrap64_id by (rewrite Z.shiftl_mul_pow2 by lia; unfold is_u64, U64_MAX; lia).
  rewrite lor_shiftl_add by lia. split; [|lia]. f_equal.
  - rewrite Z.shiftr_div_pow2 by lia.
    rewrite Z.div_add_l, (Z.div_small (epoch mod 2 ^ 16)), Z.add_0_r by lia.
    apply wrap32_id. unfold is_u32, U32_MAX. lia.
  - by rewrite Z.add_comm, Z.mod_add, Z.mod_small by lia.
Qed.


(** Every outcome of [parse]. *)
Lemma parse_outcome (bytes : list byte) :
  match parse bytes with
  | Ok (h, rest) => 1 <= header_len h <= MAX_HEADER_LEN /\ is_u64 (kid h) /\ is_u64 (counter h) /\
      rest = drop (Z.to_nat (header_len h)) bytes /\ len bytes = header_len h + len rest
  | Err e => exists msg, e = InvalidHeader msg
  | Panic => False
  end.
Proof.
  unfold parse. destruct (len bytes =? 0) eqn:H0; simpl; [eauto|]. zbool.
  pose proof (len_nonneg bytes).
  destruct (index_in_range (E := CallError) 0 bytes) as [b Hb]; [lia|].
  rewrite Hb. cbn [rbind]. cbn zeta. pose proof (u8_range b).
  pose proof (land_bound (Z.shiftr (u8 b) 4) 7 3 ltac:(apply Z.shiftr_nonneg; lia) ltac:(lia) eq_refl) as Hkf.
  pose proof (land_bound (u8 b) 7 3 ltac:(lia) ltac:(lia) eq_refl) as Hcf.
  destruct (parse_field_cases bytes 1 (Z.land (Z.shiftr (u8 b) 7) 1) _ "truncated KID" Hkf)
    as [->|(v1 & n1 & -> & Hv1 & Hn1 & Hb1)]; [lia|simpl; eauto|]. cbn [rbind].
  destruct (parse_field_cases bytes (1 + n1) (Z.land (Z.shiftr (u8 b) 3) 1) _ "truncated CTR" Hcf)
    as [->|(v2 & n2 & -> & Hv2 & Hn2 & Hb2)]; [lia|simpl; eauto|]. cbn [rbind].
  unfold slice_from. rewrite slice_in_range by lia. cbn. unfold MAX_HEADER_LEN.
  rewrite take_ge by (rewrite length_drop; unfold len in *; lia).
  repeat split; try (apply Hv1 || apply Hv2 || lia). rewrite len_drop. lia.
Qed.

(** ** Theorems *)

(** Header codec: for all 64-bit key ids and counters, [serialize]
    fills at most 17 bytes of the buffer without panicking, and [parse] of those
    bytes followed by any ciphertext returns the same key id, the same counter,
    the written length and exactly the ciphertext; on arbitrary bytes [parse]
    never panics, and what it accepts is a header of 1 to 17 bytes with both values
    in range, followed by exactly the returned rest. *)
Theorem header_roundtrip (k c : Z) (out rest : list byte)
    (Hk : is_u64 k) (Hc : is_u64 c) (Hout : len out = MAX_HEADER_LEN) :
  (exists n buf, serialize k c out = Ok (n, buf) /\ 1 <= n <= MAX_HEADER_LEN /\
    parse (take (Z.to_nat n) buf ++ rest) =
      Ok ({| kid := k; counter := c; header_len := n |}, rest)) /\
  match parse rest with
  | Ok (h, tail) => 1 <= header_len h <= MAX_HEADER_LEN /\ is_u64 (kid h) /\ is_u64 (counter h) /\
      tail = drop (Z.to_nat (header_len h)) rest /\ len rest = header_len h + len tail
  | Err e => exists msg, e = InvalidHeader msg
  | Panic => False
  end.
Proof.
  split; [|exact (parse_outcome rest)]. do 2 eexists. split; [by apply serialize_spec|].
  pose proof (len_ext _ Hk). pose proof (len_ext _ Hc).
  split; [rewrite len_header_bytes; unfold MAX_HEADER_LEN; lia|].
  rewrite take_app_length' by (unfold len; lia). by apply parse_header_bytes.
Qed.

Lemma header_roundtrip_witness :
  exists n buf, serialize 131071 9 (replicate 17 Byte.xff) = Ok (n, buf) /\ 1 <= n <= MAX_HEADER_LEN /\
    parse (take (Z.to_nat n) buf ++ [Byte.x2a]) =
      Ok ({| kid := 131071; counter := 9; header_len := n |}, [Byte.x2a]).
Proof.
  apply (header_roundtrip 131071 9 (replicate 17 Byte.xff) [Byte.x2a]);
    [vm_compute; split; discriminate | vm_compute; split; discriminate | reflexivity].
Defined.

End SframeWire.
