(* ===== verification/SframeReplay.v ===== *)
(** * SFrame anti-replay window ([crates/umbrella-calls/src/sframe/replay.rs])

    The 64-bit sliding bitmap is translated with its shifts at [u64] width and
    refined to a specification that remembers every accepted counter. *)
From S2P Require Import Prelude Bytes SframeWire.
Import SframeWire.

Module SframeReplay.

Definition REPLAY_WINDOW_WIDTH : Z := 64.

Record ReplayWindow := {
  highest_seen : Z;
  bitmap : Z;
  initialized : bool;
  sender : Z
}.

Definition new (sender : Z) : ReplayWindow :=
  {| highest_seen := 0; bitmap := 0; initialized := false; sender := sender |}.

(** The result and the window left behind by [check_and_update]. *)
Definition check_and_update (w : ReplayWindow) (counter : Z) : res CallError unit * ReplayWindow :=
  if negb (initialized w) then
    (Ok tt, {| highest_seen := counter; bitmap := 1; initialized := true; sender := sender w |})
  else if highest_seen w <? counter then
    let shift := counter - highest_seen w in
    let bm := if REPLAY_WINDOW_WIDTH <=? shift then 1
              else Z.lor (wrap64 (Z.shiftl (bitmap w) shift)) 1 in
    (Ok tt, {| highest_seen := counter; bitmap := bm; initialized := initialized w; sender := sender w |})
  else
    let delta := highest_seen w - counter in
    if REPLAY_WINDOW_WIDTH <=? delta then
      let window_start := highest_seen w - (REPLAY_WINDOW_WIDTH - 1) in
      (Err (OutOfReplayWindow (sender w) counter window_start), w)
    else
      let mask := wrap64 (Z.shiftl 1 delta) in
      if negb (Z.land (bitmap w) mask =? 0) then (Err (Replay (sender w) counter), w)
      else (Ok tt, {| highest_seen := highest_seen w; bitmap := Z.lor (bitmap w) mask;
                      initialized := initialized w; sender := sender w |}).

(** ** Specification: the set of accepted counters

    [seen] lists every counter accepted so far, newest first. *)
Definition top (seen : list Z) : Z := foldr Z.max 0 seen.

Definition spec_step (sender : Z) (seen : list Z) (counter : Z) : res CallError unit * list Z :=
  if bool_decide (seen = []) || (top seen <? counter) then (Ok tt, counter :: seen)
  else if REPLAY_WINDOW_WIDTH <=? top seen - counter then
    (Err (OutOfReplayWindow sender counter (top seen - 63)), seen)
  else if bool_decide (counter ∈ seen) then (Err (Replay sender counter), seen)
  else (Ok tt, counter :: seen).

(** The window represents the accepted counters: the newest 64 positions. *)
Record represents (w : ReplayWindow) (seen : list Z) : Prop := {
  rep_init : initialized w = negb (bool_decide (seen = []));
  rep_high : highest_seen w = top seen;
  rep_bits : seen <> [] -> forall i, 0 <= i < 64 ->
    Z.testbit (bitmap w) i = bool_decide (highest_seen w - i ∈ seen);
  rep_u64 : Forall is_u64 seen;
  rep_bitmap : is_u64 (bitmap w)
}.

(** Running a sequence of counters; the accepted ones, newest first. *)
Fixpoint run (w : ReplayWindow) (cs : list Z) (acc : list Z) : ReplayWindow * list Z :=
  match cs with
  | [] => (w, acc)
  | c :: cs =>
      let '(r, w') := check_and_update w c in
      run w' cs (match r with Ok _ => c :: acc | _ => acc end)
  end.

(** ** Lemmas *)

Lemma top_nonneg seen : 0 <= top seen.
Proof. induction seen; simpl; lia. Qed.

Lemma top_ge seen c : c ∈ seen -> c <= top seen.
Proof. induction 1; simpl; lia. Qed.

Lemma top_in seen : seen <> [] -> Forall is_u64 seen -> top seen ∈ seen.
Proof.
  induction seen as [|a seen IH]; [done|]. intros _ Hf. apply Forall_cons in Hf as [Ha Hf].
  simpl. destruct (decide (seen = [])) as [->|Hne].
  - simpl. unfold is_u64 in Ha. rewrite Z.max_l by lia. by left.
  - destruct (Z.max_spec a (top seen)) as [[_ Hm]|[_ Hm]]; rewrite Hm; [right; auto|by left].
Qed.

Lemma testbit_wrap64 z i : 0 <= i < 64 -> Z.testbit (wrap64 z) i = Z.testbit z i.
Proof. intros. unfold wrap64. rewrite Z.mod_pow2_bits_low by lia. done. Qed.

Lemma testbit_one i : 0 <= i -> Z.testbit 1 i = (i =? 0).
Proof.
  intros Hi. destruct (Z.eqb_spec i 0) as [->|]; [done|].
  apply Z.bits_above_log2; simpl; lia.
Qed.

Lemma testbit_mask d i : 0 <= d < 64 -> 0 <= i < 64 ->
  Z.testbit (wrap64 (Z.shiftl 1 d)) i = (i =? d).
Proof.
  intros Hd Hi. rewrite testbit_wrap64 by done. rewrite Z.shiftl_spec by lia.
  destruct (Z.ltb_spec i d).
  - rewrite Z.testbit_neg_r by lia. symmetry. apply Z.eqb_neq. lia.
  - rewrite testbit_one by lia. apply Bool.eq_true_iff_eq. rewrite !Z.eqb_eq. lia.
Qed.

Lemma u64_bits z : is_u64 z <-> 0 <= z /\ forall i, 64 <= i -> Z.testbit z i = false.
Proof.
  unfold is_u64, U64_MAX. split.
  - intros Hz. split; [lia|]. intros i Hi. destruct (Z.eq_dec z 0) as [->|]; [apply Z.bits_0|].
    apply Z.bits_above_log2; [lia|].
    apply Z.lt_le_trans with 64; [apply Z.log2_lt_pow2; lia|done].
  - intros [Hz Hi]. split; [done|]. assert (z = z mod 2 ^ 64) as ->.
    { apply Z.bits_inj'. intros n Hn. destruct (Z.ltb_spec n 64).
      - rewrite Z.mod_pow2_bits_low by lia. done.
      - rewrite Z.mod_pow2_bits_high by lia. auto. }
    pose proof (Z.mod_pos_bound z (2 ^ 64)). lia.
Qed.

Lemma u64_lor a b : is_u64 a -> is_u64 b -> is_u64 (Z.lor a b).
Proof.
  rewrite !u64_bits. intros [Ha Ia] [Hb Ib]. split; [by apply Z.lor_nonneg|].
  intros i Hi. by rewrite Z.lor_spec, Ia, Ib.
Qed.

(** [bitmap & (1 << delta) != 0] tests bit [delta]. *)
Lemma land_mask_test b d : is_u64 b -> 0 <= d < 64 ->
  negb (Z.land b (wrap64 (Z.shiftl 1 d)) =? 0) = Z.testbit b d.
Proof.
  intros Hb Hd. destruct (Z.testbit b d) eqn:Ht.
  - apply negb_true_iff, Z.eqb_neq. intros Hz. assert (Hf : Z.testbit 0 d = true).
    { rewrite <- Hz, Z.land_spec, Ht, testbit_mask, Z.eqb_refl by lia. done. }
    by rewrite Z.bits_0 in Hf.
  - apply negb_false_iff, Z.eqb_eq, Z.bits_inj'. intros n Hn. rewrite Z.land_spec, Z.bits_0.
    destruct (Z.ltb_spec n 64).
    + rewrite testbit_mask by lia. destruct (Z.eqb_spec n d) as [->|]; [by rewrite Ht|apply andb_false_r].
    + apply u64_bits in Hb as [_ Hb]. by rewrite Hb.
Qed.

Lemma represents_new s : represents (new s) [].
Proof. split; simpl; done. Qed.

(** A larger counter shifts the window. *)
Lemma represents_advance w seen c :
  represents w seen -> seen <> [] -> is_u64 c -> top seen < c ->
  represents (check_and_update w c).2 (c :: seen).
Proof.
  intros [Hi Hh Hb Hf Hm] Hne Hc Hlt. unfold check_and_update.
  rewrite Hi, bool_decide_false by done. simpl. rewrite Hh, (proj2 (Z.ltb_lt _ _)) by done.
  assert (Hd : forall i, c - i ∈ c :: seen <-> i = 0 \/ c - i ∈ seen).
  { intros i. rewrite elem_of_cons. split; intros [?|?]; auto; left; lia. }
  pose proof (top_nonneg seen). unfold REPLAY_WINDOW_WIDTH. split; simpl; try done.
  - lia.
  - intros _ i Hir. rewrite (bool_decide_ext _ _ (Hd i)).
    destruct (Z.leb_spec 64 (c - top seen)).
    + rewrite testbit_one by lia. apply Bool.eq_true_iff_eq. rewrite Z.eqb_eq, bool_decide_eq_true.
      split; [auto|]. intros [?|Hs]; [done|]. apply top_ge in Hs. lia.
    + rewrite Z.lor_spec, testbit_wrap64, testbit_one, Z.shiftl_spec by lia.
      apply Bool.eq_true_iff_eq. rewrite orb_true_iff, Z.eqb_eq, bool_decide_eq_true.
      destruct (Z.ltb_spec i (c - top seen)).
      * rewrite Z.testbit_neg_r by lia. split; [naive_solver|].
        intros [?|Hs]; [auto|]. apply top_ge in Hs. lia.
      * rewrite Hb by (done || lia). rewrite bool_decide_eq_true, Hh.
        replace (top seen - (i - (c - top seen))) with (c - i) by lia. tauto.
  - by constructor.
  - destruct (_ <=? _); [unfold is_u64, U64_MAX; lia|].
    apply u64_lor; [apply wrap64_range|unfold is_u64, U64_MAX; lia].
Qed.

(** An older counter inside the window sets its bit. *)
Lemma represents_fill w seen c :
  represents w seen -> seen <> [] -> is_u64 c -> c <= top seen -> top seen - c < 64 -> c ∉ seen ->
  represents {| highest_seen := highest_seen w;
                bitmap := Z.lor (bitmap w) (wrap64 (Z.shiftl 1 (highest_seen w - c)));
                initialized := initialized w; sender := sender w |} (c :: seen).
Proof.
  intros [Hi Hh Hb Hf Hm] Hne Hc Hle Hd Hnew. split; simpl; try done.
  - by rewrite Hi, !bool_decide_false.
  - lia.
  - intros _ i Hir. rewrite Z.lor_spec, testbit_mask, Hb by (done || lia).
    apply Bool.eq_true_iff_eq. rewrite orb_true_iff, Z.eqb_eq, !bool_decide_eq_true, elem_of_cons.
    split; intros [?|?]; auto; [left; lia|right; lia].
  - by constructor.
  - apply u64_lor; [done|apply wrap64_range].
Qed.

Lemma step_refines w seen c :
  represents w seen -> is_u64 c ->
  (check_and_update w c).1 = (spec_step (sender w) seen c).1 /\
  represents (check_and_update w c).2 (spec_step (sender w) seen c).2 /\
  sender (check_and_update w c).2 = sender w.
Proof.
  intros Hr Hc. pose proof Hr as [Hi Hh Hb Hf Hm]. unfold spec_step.
  destruct (decide (seen = [])) as [->|Hne].
  { unfold check_and_update. rewrite Hi. simpl. split_and!; [done| |done].
    split; simpl; try done; unfold is_u64, U64_MAX in *; try lia.
    - intros _ i Hir. rewrite testbit_one by lia. apply Bool.eq_true_iff_eq.
      rewrite Z.eqb_eq, bool_decide_eq_true, list_elem_of_singleton. lia.
    - by apply Forall_singleton. }
  rewrite (bool_decide_false (seen = [])) by done. simpl.
  destruct (Z.ltb_spec (top seen) c) as [Hlt|Hge].
  { pose proof (represents_advance _ _ _ Hr Hne Hc Hlt) as Ha. revert Ha. unfold check_and_update.
    rewrite Hi, bool_decide_false, Hh, (proj2 (Z.ltb_lt _ _)) by done. done. }
  assert (initialized w = true) as Hi' by (by rewrite Hi, bool_decide_false).
  unfold check_and_update. rewrite Hi', Hh. simpl.
  rewrite (proj2 (Z.ltb_ge _ _)) by done. unfold REPLAY_WINDOW_WIDTH.
  destruct (Z.leb_spec 64 (top seen - c)) as [Hold|Hin]; [done|].
  rewrite land_mask_test, Hb by (done || lia). rewrite Hh.
  replace (top seen - (top seen - c)) with c by lia.
  destruct (bool_decide (c ∈ seen)) eqn:Hs; zbool; [done|].
  split_and!; [done| |done]. rewrite <- Hi', <- Hh. apply represents_fill; try done; lia.
Qed.

(** One check seen from the history: it only grows, an accepted counter is new
    and is remembered. *)
Lemma step_history w seen c r w' :
  represents w seen -> is_u64 c -> check_and_update w c = (r, w') ->
  exists seen', represents w' seen' /\ seen ⊆ seen' /\ (r = Ok tt -> c ∉ seen /\ c ∈ seen').
Proof.
  intros Hr Hc Hu. destruct (step_refines w seen c Hr Hc) as (He & Hr' & _).
  rewrite Hu in He, Hr'. simpl in *. exists (spec_step (sender w) seen c).2.
  split; [done|]. rewrite He. unfold spec_step.
  destruct (_ || _) eqn:Ho; simpl.
  - split; [set_solver|]. intros _. split; [|by left]. intros Hin.
    apply orb_true_iff in Ho as [Ho|Ho]; zbool; [set_solver|]. apply top_ge in Hin. lia.
  - repeat case_match; zbool; simpl; split; try set_solver; done.
Qed.

(** The specification never accepts a counter twice. *)
Lemma spec_step_nodup s seen c : NoDup seen -> NoDup (spec_step s seen c).2.
Proof.
  intros Hn. unfold spec_step. destruct (_ || _) eqn:Hc.
  - simpl. constructor; [|done]. intros Hin. apply orb_true_iff in Hc as [Hc|Hc]; zbool.
    + subst. by apply elem_of_nil in Hin.
    + apply top_ge in Hin. lia.
  - repeat case_match; zbool; try done. by constructor.
Qed.

Lemma run_represents w cs acc :
  represents w acc -> NoDup acc -> Forall is_u64 cs ->
  represents (run w cs acc).1 (run w cs acc).2 /\ NoDup (run w cs acc).2.
Proof.
  revert w acc. induction cs as [|c cs IH]; intros w acc Hr Hn Hf; [done|].
  apply Forall_cons in Hf as [Hc Hf]. cbn [run].
  destruct (check_and_update w c) as [r w'] eqn:Hw.
  destruct (step_refines w acc c Hr Hc) as (Heq & Hr' & _). rewrite Hw in Heq, Hr'. simpl in *.
  assert (Ha : (spec_step (sender w) acc c).2 = match r with Ok _ => c :: acc | _ => acc end).
  { rewrite Heq. unfold spec_step. by repeat case_match. }
  rewrite <- Ha. apply IH; [done|by apply spec_step_nodup|done].
Qed.

(** ** Theorems *)

(** C36. Refinement: whatever sequence of counters a fresh window has processed,
    the next [check_and_update] answers exactly as the specification that keeps
    every accepted counter: accept the first or a larger one, refuse one 64 or
    more behind as [OutOfReplayWindow], refuse one already accepted as [Replay],
    accept any other one; a refused counter leaves the window as it was. *)
Theorem replay_refines_spec (s : Z) (cs : list Z) (c : Z)
    (Hcs : Forall is_u64 cs) (Hc : is_u64 c) :
  let '(w, seen) := run (new s) cs [] in
  (check_and_update w c).1 = (spec_step s seen c).1 /\
  (forall e, (check_and_update w c).1 = Err e -> (check_and_update w c).2 = w).
Proof.
  assert (Hs : forall w cs acc, sender (run w cs acc).1 = sender w).
  { intros w cs'. revert w. induction cs' as [|a cs' IH]; intros w acc; [done|]. simpl.
    unfold check_and_update. repeat case_match; simplify_eq; rewrite IH; done. }
  pose proof (run_represents (new s) cs [] (represents_new s) (NoDup_nil_2) Hcs) as [Hr _].
  specialize (Hs (new s) cs []). destruct (run (new s) cs []) as [w seen]. simpl in *.
  split.
  - destruct (step_refines w seen c Hr Hc) as [H1 _]. by rewrite H1, Hs.
  - intros e. unfold check_and_update. repeat case_match; naive_solver.
Qed.

Lemma replay_refines_spec_witness :
  let '(w, seen) := run (new 3) [5; 80; 79; 5; 80] [] in
  (check_and_update w 79).1 = (spec_step 3 seen 79).1 /\
  (forall e, (check_and_update w 79).1 = Err e -> (check_and_update w 79).2 = w).
Proof.
  apply (replay_refines_spec 3 [5; 80; 79; 5; 80] 79).
  - repeat constructor; vm_compute; discriminate.
  - vm_compute; split; discriminate.
Defined.

End SframeReplay.
