(* ===== verification/Sframe.v ===== *)
(** * SFrame media context ([crates/umbrella-calls/src/sframe/frame.rs],
    [derive.rs], [aead.rs], [ciphersuite.rs])

    The per-participant context: up to three epoch base keys, a cache of derived
    per-KID keys and one replay window per (sender, epoch).  HKDF-SHA512 and
    AES-256-GCM are parameters ([SframeCrypto]); what the theorems need of them
    is the class [SframeCryptoLaws]. *)
From stdpp Require Import sorting.
From S2P Require Import Prelude Bytes SframeWire SframeReplay.
Import SframeWire.

(** ** The cryptographic library behind the context *)
Class SframeCrypto := {
  hkdf_extract : list byte -> list byte;                  (* Hkdf::<Sha512>::extract(None, ikm) *)
  hkdf_expand : list byte -> list byte -> Z -> list byte; (* prk, info, length *)
  gcm_encrypt : list byte -> list byte -> list byte -> list byte -> option (list byte);
  gcm_decrypt : list byte -> list byte -> list byte -> list byte -> option (list byte)
}.

(** Documented behaviour of the crates: HKDF-Expand returns the requested number
    of bytes; AES-GCM encrypts every message below its length limit, appends a
    16-byte tag, and decryption inverts it under the same key, nonce and AAD. *)
Class SframeCryptoLaws `{SframeCrypto} : Prop := {
  expand_len : forall prk info n, 0 <= n -> len (hkdf_expand prk info n) = n;
  gcm_total : forall k n a m, len m < 2 ^ 36 - 32 ->
    exists c, gcm_encrypt k n a m = Some c;
  gcm_len : forall k n a m c, gcm_encrypt k n a m = Some c -> len c = len m + 16;
  gcm_roundtrip : forall k n a m c, gcm_encrypt k n a m = Some c -> gcm_decrypt k n a c = Some m
}.

Module Sframe.

(** ** Ciphersuite *)
Definition BASE_KEY_LEN : Z := 64.
Definition SFRAME_KEY_LEN : Z := 32.
Definition SFRAME_SALT_LEN : Z := 12.
Definition AEAD_TAG_LEN : Z := 16.

Inductive SframeCiphersuite := Aes256GcmSha512.

Definition try_from_u16 (value : Z) : res CallError SframeCiphersuite :=
  if value =? 5 then Ok Aes256GcmSha512 else Err (UnsupportedCiphersuite value).

Definition as_u16 (cs : SframeCiphersuite) : Z :=
  match cs with Aes256GcmSha512 => 5 end.

(** ** Constants of the context *)
Definition MAX_FRAME_PLAINTEXT_LEN : Z := 1024 * 1024.
Definition EPOCH_CACHE_SIZE : Z := 3.
Definition MAX_FRAME_WIRE_LEN : Z := MAX_FRAME_PLAINTEXT_LEN + MAX_HEADER_LEN + AEAD_TAG_LEN.

Definition SFRAME_KEY_LABEL : list byte := bytes_of_string "SFrame 1.0 Secret key ".
Definition SFRAME_SALT_LABEL : list byte := bytes_of_string "SFrame 1.0 Secret salt ".

(** ** Keys *)
Record SframeBaseKey := { prk : list byte; ciphersuite : SframeCiphersuite; epoch : Z }.
Record PerKidKey := { pk_kid : Z; sframe_key : list byte; sframe_salt : list byte }.

Definition info_bytes (label : list byte) (kid : Z) (cs : SframeCiphersuite) : list byte :=
  label ++ to_be 8 kid ++ to_be 2 (as_u16 cs).

(** The nonce XORs the big-endian counter into the last eight bytes of the salt. *)
Definition xor_byte (a b : byte) : byte := as_u8 (Z.lxor (u8 a) (u8 b)).
Definition build_nonce (salt : list byte) (counter : Z) : list byte :=
  take 4 salt ++ zip_with xor_byte (drop 4 salt) (to_be 8 counter).

Section Context_.
Context `{SframeCrypto}.

Definition from_ikm (ikm : list byte) (cs : SframeCiphersuite) (epoch : Z) : SframeBaseKey :=
  {| prk := hkdf_extract ikm; ciphersuite := cs; epoch := epoch |}.

Definition from_mls_exporter (out : list byte) (cs : SframeCiphersuite) (epoch : Z) : SframeBaseKey :=
  from_ikm out cs epoch.

Definition derive_per_kid (bk : SframeBaseKey) (kid : Z) : PerKidKey :=
  let info_key := info_bytes SFRAME_KEY_LABEL kid (ciphersuite bk) in
  let info_salt := info_bytes SFRAME_SALT_LABEL kid (ciphersuite bk) in
  {| pk_kid := kid;
     sframe_key := hkdf_expand (prk bk) info_key SFRAME_KEY_LEN;
     sframe_salt := hkdf_expand (prk bk) info_salt SFRAME_SALT_LEN |}.

Definition aes256gcm_encrypt (key nonce aad plaintext : list byte) : res CallError (list byte) :=
  ok_or (gcm_encrypt key nonce aad plaintext) AeadAuthFailure.

Definition aes256gcm_decrypt (key nonce aad ct : list byte) : res CallError (list byte) :=
  reject len ct <? AEAD_TAG_LEN with AeadAuthFailure ;;
  ok_or (gcm_decrypt key nonce aad ct) AeadAuthFailure.

(** ** The context *)
Record SframeContext := {
  epochs : list SframeBaseKey;                                (* front first *)
  per_kid_cache : gmap Z PerKidKey;
  replay : gmap (Z * Z) SframeReplay.ReplayWindow
}.

Record DecryptedFrame := {
  plaintext : list byte; df_kid : Z; df_counter : Z; sender_leaf : Z; df_epoch : Z
}.

Definition new : SframeContext := {| epochs := []; per_kid_cache := ∅; replay := ∅ |}.

(** [(e & 0xFFFF) as u16] *)
Definition e16 (e : Z) : Z := Z.land e 65535.

(** The body of the eviction loop: [pop_back] and the cleanup. *)
Definition evict_oldest (c : SframeContext) : SframeContext :=
  match last (epochs c) with
  | None => c
  | Some evicted =>
      let rest := removelast (epochs c) in
      let evicted_full := epoch evicted in
      let evicted_e16 := e16 evicted_full in
      let replay' := filter (fun kv => kv.1.2 <> evicted_full) (replay c) in
      let collision := existsb (fun bk => e16 (epoch bk) =? evicted_e16) rest in
      let cache' := if negb collision
                    then filter (fun kv => e16 kv.1 <> evicted_e16) (per_kid_cache c)
                    else per_kid_cache c in
      {| epochs := rest; per_kid_cache := cache'; replay := replay' |}
  end.

(** [while self.epochs.len() > EPOCH_CACHE_SIZE], at most one round per epoch. *)
Fixpoint evict_loop (fuel : nat) (c : SframeContext) : SframeContext :=
  match fuel with
  | O => c
  | S fuel => if EPOCH_CACHE_SIZE <? len (epochs c) then evict_loop fuel (evict_oldest c) else c
  end.

Definition advance_epoch (base_key : SframeBaseKey) (c : SframeContext) : SframeContext :=
  let c' := {| epochs := base_key :: epochs c; per_kid_cache := per_kid_cache c; replay := replay c |} in
  evict_loop (length (epochs c')) c'.

Definition current_epoch (c : SframeContext) : option Z := epoch <$> head (epochs c).

Definition epoch_count (c : SframeContext) : Z := len (epochs c).

Definition find_epoch (epoch16 : Z) (c : SframeContext) : option SframeBaseKey :=
  List.find (fun bk => e16 (epoch bk) =? epoch16) (epochs c).

Definition oldest_epoch (c : SframeContext) : Z := default 0 (epoch <$> last (epochs c)).

Definition get_or_derive (kid : Z) : st SframeContext CallError PerKidKey := fun c =>
  let r :=
    match per_kid_cache c !! kid with
    | Some _ => Ok c
    | None =>
        match find_epoch (e16 kid) c with
        | Some bk =>
            Ok {| epochs := epochs c;
                  per_kid_cache := <[kid := derive_per_kid bk kid]> (per_kid_cache c);
                  replay := replay c |}
        | None => Err (StaleEpoch (e16 kid) (oldest_epoch c))
        end
    end in
  match r with
  | Ok c' => (ok_or (per_kid_cache c' !! kid) (UnknownKid kid), c')
  | Err e => (Err e, c)
  | Panic => (Panic, c)
  end.

Definition encrypt_frame (sender_leaf counter : Z) (plaintext : list byte)
  : st SframeContext CallError (list byte) :=
  fail_if MAX_FRAME_PLAINTEXT_LEN <? len plaintext
    with FrameTooLarge MAX_FRAME_PLAINTEXT_LEN (len plaintext) ;;
  let! c := sget in
  let! epoch := slift (ok_or (current_epoch c) MlsExporterUnavailable) in
  let kid := compute_kid sender_leaf epoch in
  let! per_kid := get_or_derive kid in
  let! (hdr_len, hdr_buf) := slift (serialize kid counter (replicate (Z.to_nat MAX_HEADER_LEN) Byte.x00)) in
  let! aad := slift (slice 0 hdr_len hdr_buf) in
  let nonce := build_nonce (sframe_salt per_kid) counter in
  let! ct_tag := slift (aes256gcm_encrypt (sframe_key per_kid) nonce aad plaintext) in
  sret (aad ++ ct_tag).

(** [self.replay.entry(..).or_insert_with(..)] followed by [check_and_update]:
    the window is stored back whether or not the counter is accepted. *)
Definition check_replay (sender epoch counter : Z) : st SframeContext CallError unit := fun c =>
  let w := default (SframeReplay.new sender) (replay c !! (sender, epoch)) in
  let '(r, w') := SframeReplay.check_and_update w counter in
  (r, {| epochs := epochs c; per_kid_cache := per_kid_cache c;
         replay := <[(sender, epoch) := w']> (replay c) |}).

Definition decrypt_frame (bytes : list byte) : st SframeContext CallError DecryptedFrame :=
  fail_if MAX_FRAME_WIRE_LEN <? len bytes with FrameTooLarge MAX_FRAME_WIRE_LEN (len bytes) ;;
  let! (header, rest) := slift (parse bytes) in
  fail_if len rest <? AEAD_TAG_LEN with InvalidHeader "ciphertext shorter than AEAD tag" ;;
  let '(sender_leaf, epoch16) := parse_kid (kid header) in
  let! c := sget in
  let! bk := slift (ok_or (find_epoch epoch16 c) (StaleEpoch epoch16 (oldest_epoch c))) in
  let full_epoch := epoch bk in
  let! _ := check_replay sender_leaf full_epoch (counter header) in
  let! per_kid := get_or_derive (kid header) in
  let nonce := build_nonce (sframe_salt per_kid) (counter header) in
  let! aad := slift (slice 0 (header_len header) bytes) in
  let! ct_with_tag := slift (slice_from (header_len header) bytes) in
  let! plaintext := slift (aes256gcm_decrypt (sframe_key per_kid) nonce aad ct_with_tag) in
  sret {| plaintext := plaintext; df_kid := kid header; df_counter := counter header;
          sender_leaf := sender_leaf; df_epoch := full_epoch |}.

(** ** Lemmas: nonces and derivation labels *)

Lemma length_build_nonce salt ctr : len salt = SFRAME_SALT_LEN -> len (build_nonce salt ctr) = SFRAME_SALT_LEN.
Proof.
  unfold SFRAME_SALT_LEN, build_nonce, len. intros Hs.
  rewrite length_app, length_zip_with, length_take, length_drop, length_to_be. lia.
Qed.

Lemma xor_byte_inj a b c : xor_byte a b = xor_byte a c -> b = c.
Proof.
  unfold xor_byte. intros Hx.
  apply (f_equal u8) in Hx. rewrite !u8_as_u8, !Z.mod_small in Hx by apply lxor_u8_range.
  apply u8_inj. apply (f_equal (Z.lxor (u8 a))) in Hx.
  by rewrite <- !Z.lxor_assoc, Z.lxor_nilpotent, !Z.lxor_0_l in Hx.
Qed.

Lemma zip_xor_inj s a b :
  length s = length a -> length s = length b ->
  zip_with xor_byte s a = zip_with xor_byte s b -> a = b.
Proof.
  revert a b. induction s as [|x s IH]; intros [|y a] [|z b]; simpl; try done.
  intros Ha Hb [= Hx Ht]. f_equal; [by eapply xor_byte_inj|]. apply IH; lia || done.
Qed.

Lemma build_nonce_inj salt c1 c2 :
  len salt = SFRAME_SALT_LEN -> is_u64 c1 -> is_u64 c2 ->
  build_nonce salt c1 = build_nonce salt c2 -> c1 = c2.
Proof.
  unfold SFRAME_SALT_LEN, build_nonce, len. intros Hs H1 H2 Heq.
  apply app_inj_1 in Heq as [_ Heq]; [|done].
  apply zip_xor_inj in Heq; try (rewrite length_to_be, length_drop; lia).
  by rewrite <- (from_be_to_be_u64 c1), <- (from_be_to_be_u64 c2), Heq.
Qed.

Lemma info_bytes_inj label k1 k2 cs1 cs2 :
  is_u64 k1 -> is_u64 k2 -> info_bytes label k1 cs1 = info_bytes label k2 cs2 -> k1 = k2.
Proof.
  unfold info_bytes. intros H1 H2 Heq. apply app_inv_head in Heq.
  apply app_inj_1 in Heq as [Heq _]; [|by rewrite !length_to_be].
  by rewrite <- (from_be_to_be_u64 k1), <- (from_be_to_be_u64 k2), Heq.
Qed.

Lemma info_bytes_labels k1 k2 cs1 cs2 :
  info_bytes SFRAME_KEY_LABEL k1 cs1 <> info_bytes SFRAME_SALT_LABEL k2 cs2.
Proof. unfold info_bytes. intros Heq. apply (f_equal (fun l => l !! 18%nat)) in Heq. discriminate. Qed.

(** ** Lemmas: eviction *)

Lemma evict_oldest_snoc c rest ev :
  epochs c = rest ++ [ev] ->
  epochs (evict_oldest c) = rest /\
  replay (evict_oldest c) = filter (fun kv => kv.1.2 <> epoch ev) (replay c) /\
  per_kid_cache (evict_oldest c) =
    (if existsb (fun bk => e16 (epoch bk) =? e16 (epoch ev)) rest then per_kid_cache c
     else filter (fun kv => e16 kv.1 <> e16 (epoch ev)) (per_kid_cache c)).
Proof.
  intros He. unfold evict_oldest. rewrite He, last_snoc, removelast_last. simpl.
  split_and!; try done. by destruct (existsb _ _).
Qed.

Lemma evict_loop_inv (P : SframeContext -> Prop) fuel c :
  (forall c rest ev, P c -> epochs c = rest ++ [ev] -> P (evict_oldest c)) ->
  P c -> P (evict_loop fuel c).
Proof.
  intros Hp. revert c. induction fuel as [|fuel IH]; intros c Hc; [done|]. cbn [evict_loop].
  destruct (_ <? _) eqn:Hl; [|done]. zbool. apply IH.
  destruct (epochs c) as [|ev rest _] eqn:He using rev_ind; [unfold EPOCH_CACHE_SIZE in Hl; simpl in Hl; done|].
  by eapply Hp.
Qed.

Lemma evict_loop_len fuel c :
  len (epochs c) <= Z.of_nat fuel -> len (epochs (evict_loop fuel c)) <= EPOCH_CACHE_SIZE.
Proof.
  unfold EPOCH_CACHE_SIZE. revert c. induction fuel as [|fuel IH]; intros c Hl; cbn [evict_loop]; [lia|].
  unfold EPOCH_CACHE_SIZE. destruct (3 <? len (epochs c)) eqn:H3; zbool; [|lia].
  apply IH. destruct (epochs c) as [|ev rest _] eqn:He using rev_ind; [unfold len in H3; simpl in H3; lia|].
  destruct (evict_oldest_snoc c rest ev He) as [-> _]. rewrite len_app in Hl. simpl in Hl.
  unfold len in *. simpl in Hl. lia.
Qed.

Lemma advance_epoch_len bk c : len (epochs (advance_epoch bk c)) <= EPOCH_CACHE_SIZE.
Proof. unfold advance_epoch. apply evict_loop_len. by unfold len. Qed.

(** ** Lemmas: lookups that do not touch the state *)

Lemma get_or_derive_frame kid c r c' :
  get_or_derive kid c = (r, c') -> epochs c' = epochs c /\ replay c' = replay c.
Proof. unfold get_or_derive. intros Hg. repeat (case_match; simplify_eq/=; try done). Qed.

Lemma check_replay_frame s e k c r c' :
  check_replay s e k c = (r, c') ->
  epochs c' = epochs c /\ per_kid_cache c' = per_kid_cache c.
Proof. unfold check_replay. intros Hg. repeat (case_match; simplify_eq/=; try done). Qed.

Lemma find_epoch_In e c bk : find_epoch e c = Some bk -> bk ∈ epochs c /\ e16 (epoch bk) = e.
Proof.
  unfold find_epoch. intros Hf. apply List.find_some in Hf as [Hi He]. zbool.
  split; [by apply list_elem_of_In|done].
Qed.

Lemma find_epoch_unique c bk :
  NoDup ((fun b => e16 (epoch b)) <$> epochs c) -> bk ∈ epochs c ->
  find_epoch (e16 (epoch bk)) c = Some bk.
Proof.
  unfold find_epoch. induction (epochs c) as [|b l IH]; intros Hn Hin; [by apply elem_of_nil in Hin|].
  rewrite fmap_cons in Hn. apply NoDup_cons in Hn as [Hb Hn]. simpl.
  apply elem_of_cons in Hin as [->|Hin]; [by rewrite Z.eqb_refl|].
  destruct (Z.eqb_spec (e16 (epoch b)) (e16 (epoch bk))) as [He|_]; [|auto].
  exfalso. apply Hb. rewrite He. by apply (list_elem_of_fmap_2 (fun b => e16 (epoch b))).
Qed.

(** ** The key-cache invariant

    At most three epochs; the truncated epochs are pairwise distinct (the
    intended use: no 65536-commit wrap inside the cache); every cached per-KID
    key is the one derived from the epoch its KID names; replay windows exist
    only for cached epochs and represent a history of accepted counters. *)
Record wf (c : SframeContext) : Prop := {
  wf_len : len (epochs c) <= EPOCH_CACHE_SIZE;
  wf_e16 : NoDup ((fun b => e16 (epoch b)) <$> epochs c);
  wf_cache : forall kid k, per_kid_cache c !! kid = Some k ->
    exists bk, find_epoch (e16 kid) c = Some bk /\ k = derive_per_kid bk kid;
  wf_replay : forall s e w, replay c !! (s, e) = Some w ->
    e ∈ epoch <$> epochs c /\ exists seen, SframeReplay.represents w seen
}.

(** [wf] without the bound on the number of epochs, which the loop restores. *)
Definition wf_unbounded (c : SframeContext) : Prop :=
  NoDup ((fun b => e16 (epoch b)) <$> epochs c) /\
  (forall kid k, per_kid_cache c !! kid = Some k ->
    exists bk, find_epoch (e16 kid) c = Some bk /\ k = derive_per_kid bk kid) /\
  (forall s e w, replay c !! (s, e) = Some w ->
    e ∈ epoch <$> epochs c /\ exists seen, SframeReplay.represents w seen).

Lemma evict_oldest_wf c rest ev :
  wf_unbounded c -> epochs c = rest ++ [ev] -> wf_unbounded (evict_oldest c).
Proof.
  intros (Hn & Hc & Hr) He. destruct (evict_oldest_snoc c rest ev He) as (He' & Hr' & Hc').
  rewrite He, fmap_app in Hn. apply NoDup_app in Hn as (Hn & Hd & _).
  assert (Hnew : existsb (fun bk => e16 (epoch bk) =? e16 (epoch ev)) rest = false).
  { apply not_true_iff_false. intros Hex. apply existsb_exists in Hex as (b & Hb & Heq). zbool.
    apply (Hd (e16 (epoch b))).
    - apply (list_elem_of_fmap_2 (fun b => e16 (epoch b))). by apply list_elem_of_In.
    - rewrite Heq. by left. }
  rewrite Hnew in Hc'. split_and!.
  - by rewrite He'.
  - intros kid k Hk. rewrite Hc' in Hk. apply map_lookup_filter_Some in Hk as [Hk Hne]. simpl in Hne.
    destruct (Hc _ _ Hk) as (bk & Hf & ->). exists bk. split; [|done].
    unfold find_epoch in *. rewrite He' , He in *. rewrite find_app in Hf.
    destruct (List.find _ rest) as [b|]; [done|]. simpl in Hf.
    destruct (_ =? _) eqn:Heq in Hf; [|done]. zbool. congruence.
  - intros s e w Hw. rewrite Hr' in Hw. apply map_lookup_filter_Some in Hw as [Hw Hne]. simpl in Hne.
    destruct (Hr _ _ _ Hw) as [Hin Hs]. split; [|done]. rewrite He'. rewrite He, fmap_app in Hin.
    apply elem_of_app in Hin as [Hin|Hin]; [done|]. by apply list_elem_of_singleton in Hin.
Qed.

Lemma advance_epoch_wf bk c :
  wf c -> e16 (epoch bk) ∉ ((fun b => e16 (epoch b)) <$> epochs c) -> wf (advance_epoch bk c).
Proof.
  intros [Hl Hn Hc Hr] Hnew.
  assert (Hu : wf_unbounded (advance_epoch bk c)).
  { apply (evict_loop_inv wf_unbounded); [intros; by eapply evict_oldest_wf|]. split_and!; simpl.
    - by constructor.
    - intros kid k Hk. destruct (Hc _ _ Hk) as (b & Hf & ->). exists b. split; [|done].
      unfold find_epoch in *. simpl. destruct (_ =? _) eqn:Heq; [|done]. zbool. exfalso.
      apply Hnew. rewrite Heq. apply find_epoch_In in Hf as [Hb <-].
      by apply (list_elem_of_fmap_2 (fun b => e16 (epoch b))).
    - intros s e w Hw. destruct (Hr _ _ _ Hw) as [Hin Hs]. split; [by right|done]. }
  destruct Hu as (? & ? & ?). split; try done. apply advance_epoch_len.
Qed.

Lemma new_wf : wf new.
Proof. split; simpl; try done; [constructor|..]; intros *; by rewrite lookup_empty. Qed.

Lemma get_or_derive_wf kid c r c' : wf c -> get_or_derive kid c = (r, c') -> wf c'.
Proof.
  intros [Hl Hn Hc Hr]. unfold get_or_derive. destruct (_ !! kid) as [k|] eqn:Hk.
  - intros [= <- <-]. done.
  - destruct (find_epoch (e16 kid) c) as [bk|] eqn:Hf; intros [= <- <-]; [|done].
    split; simpl; try done. intros kid' k' Hk'. apply lookup_insert_Some in Hk' as [[<- <-]|[Hne Hk']].
    + by exists bk.
    + destruct (Hc _ _ Hk') as (b & Hb & ->). by exists b.
Qed.

Lemma get_or_derive_found kid c bk :
  wf c -> find_epoch (e16 kid) c = Some bk ->
  exists c', get_or_derive kid c = (Ok (derive_per_kid bk kid), c') /\ wf c'.
Proof.
  intros Hw Hf. destruct (get_or_derive kid c) as [r c'] eqn:Hg.
  pose proof (get_or_derive_wf _ _ _ _ Hw Hg) as Hw'. revert Hg. unfold get_or_derive.
  destruct (_ !! kid) as [k|] eqn:Hk.
  - destruct (wf_cache _ Hw _ _ Hk) as (b & Hb & ->). simplify_eq. rewrite Hk. simpl. intros [= <- <-]. eauto.
  - rewrite Hf. simpl. rewrite lookup_insert_eq. intros [= <- <-]. eauto.
Qed.

Lemma parse_counter_u64 bytes h rest : parse bytes = Ok (h, rest) -> is_u64 (kid h) /\ is_u64 (counter h).
Proof. intros Hp. pose proof (parse_outcome bytes) as Ht. rewrite Hp in Ht. tauto. Qed.

(** Every run of [decrypt_frame]: it stops before the replay check with the state
    untouched, is refused by the replay window, or passes it and then only the
    key cache changes. *)
Lemma decrypt_cases bytes c r c' :
  decrypt_frame bytes c = (r, c') ->
  (c' = c /\ (forall d, r <> Ok d) /\ r <> Err AeadAuthFailure) \/
  exists h rest bk rr cr,
    parse bytes = Ok (h, rest) /\ find_epoch (parse_kid (kid h)).2 c = Some bk /\
    check_replay (parse_kid (kid h)).1 (epoch bk) (counter h) c = (rr, cr) /\
    ((exists e, rr = Err e /\ e <> AeadAuthFailure /\ r = Err e /\ c' = cr) \/
     (rr = Ok tt /\ (exists rk, get_or_derive (kid h) cr = (rk, c')) /\
      forall d, r = Ok d ->
        sender_leaf d = (parse_kid (kid h)).1 /\ df_epoch d = epoch bk /\ df_counter d = counter h)).
Proof.
  intros Hd. unfold decrypt_frame, sguard in Hd.
  destruct (_ <? len bytes); [left; unfold slift in Hd; naive_solver|].
  unfold sbind at 1, slift at 1 in Hd.
  pose proof (parse_outcome bytes) as Ho.
  destruct (parse bytes) as [[h rest]|e|] eqn:Hp; [|left; naive_solver..].
  destruct (len rest <? _); [left; unfold slift in Hd; naive_solver|].
  destruct (parse_kid (kid h)) as [s ep] eqn:Hk. unfold sbind at 1, sget in Hd.
  unfold sbind at 1, slift at 1 in Hd.
  destruct (find_epoch ep c) as [bk|] eqn:Hf; [|left; simpl in Hd; naive_solver]. cbn [ok_or] in Hd.
  right. exists h, rest, bk. unfold sbind at 1 in Hd.
  destruct (check_replay s (epoch bk) (counter h) c) as [rr cr] eqn:Hr.
  exists rr, cr. rewrite Hk. split_and!; [done..|].
  destruct rr as [[]|e|].
  2:{ left. exists e. split_and!; try naive_solver.
      unfold check_replay, SframeReplay.check_and_update in Hr. repeat case_match; naive_solver. }
  2:{ exfalso. unfold check_replay, SframeReplay.check_and_update in Hr. repeat case_match; naive_solver. }
  right. split; [done|]. unfold sbind at 1 in Hd.
  destruct (get_or_derive (kid h) cr) as [rk cg]. unfold sbind, slift, sret in Hd.
  split; repeat (case_match; simplify_eq/=); eauto; naive_solver.
Qed.

(** The window stored for (sender, epoch) after a check of its counter. *)
Lemma check_replay_represents s e k c r c' :
  check_replay s e k c = (r, c') -> is_u64 k ->
  (forall w, replay c !! (s, e) = Some w -> exists seen, SframeReplay.represents w seen) ->
  exists w seen, replay c' = <[(s, e) := w]> (replay c) /\ SframeReplay.represents w seen.
Proof.
  unfold check_replay. intros Hc Hk Hw. destruct (replay c !! (s, e)) as [w|] eqn:Hl; cbn [from_option id] in Hc.
  - destruct (Hw w eq_refl) as [seen Hs]. destruct (SframeReplay.check_and_update w k) as [r' w'] eqn:Hu.
    simplify_eq. destruct (SframeReplay.step_refines w seen k Hs Hk) as (_ & Hs' & _). rewrite Hu in Hs'. exists w'. eexists. split; [done|exact Hs'].
  - destruct (SframeReplay.check_and_update (SframeReplay.new s) k) as [r' w'] eqn:Hu. simplify_eq.
    destruct (SframeReplay.step_refines _ [] k (SframeReplay.represents_new s) Hk) as (_ & Hs' & _).
    rewrite Hu in Hs'. exists w'. eexists. split; [done|exact Hs'].
Qed.

Lemma check_replay_wf s e k c r c' :
  wf c -> is_u64 k -> e ∈ epoch <$> epochs c -> check_replay s e k c = (r, c') -> wf c'.
Proof.
  intros [Hl Hn Hc Hr] Hk He Hcr.
  destruct (check_replay_represents _ _ _ _ _ _ Hcr Hk) as (w & seen & Hw & Hs).
  { intros w Hw. by destruct (Hr _ _ _ Hw). }
  apply check_replay_frame in Hcr as [He' Hc']. split.
  - by rewrite He'.
  - by rewrite He'.
  - rewrite Hc'. unfold find_epoch. rewrite He'. done.
  - intros s' e' w'. rewrite Hw, He'. intros [[[= <- <-] <-]|[_ Hl']]%lookup_insert_Some; eauto.
Qed.

Lemma decrypt_frame_wf bytes c r c' : wf c -> decrypt_frame bytes c = (r, c') -> wf c'.
Proof.
  intros Hw Hd. destruct (decrypt_cases _ _ _ _ Hd) as [[-> _]|(h & rest & bk & rr & cr & Hp & Hf & Hr & Ho)]; [done|].
  assert (Hwr : wf cr).
  { eapply check_replay_wf; [done|apply (parse_counter_u64 _ _ _ Hp)| |exact Hr].
    apply find_epoch_In in Hf as [Hb _]. by apply (list_elem_of_fmap_2 epoch). }
  destruct Ho as [(e & _ & _ & _ & ->)|(_ & [rk Hg] & _)]; [done|]. by eapply get_or_derive_wf.
Qed.

(** [encrypt_frame] changes the key cache only. *)
Lemma encrypt_cases sl k m c r c' :
  encrypt_frame sl k m c = (r, c') ->
  c' = c \/ exists kid rk, get_or_derive kid c = (rk, c').
Proof.
  intros Hd. unfold encrypt_frame, sguard in Hd.
  destruct (_ <? _); [unfold slift in Hd; naive_solver|].
  unfold sbind at 1, sget in Hd. unfold sbind at 1, slift at 1 in Hd.
  destruct (current_epoch c) as [e|]; [|simpl in Hd; naive_solver]. cbn [ok_or] in Hd.
  unfold sbind at 1 in Hd. destruct (get_or_derive _ c) as [rk cg] eqn:Hg. right.
  unfold sbind, slift, sret in Hd. repeat (case_match; simplify_eq/=); eauto.
Qed.

Lemma encrypt_frame_wf sl k m c r c' : wf c -> encrypt_frame sl k m c = (r, c') -> wf c'.
Proof.
  intros Hw He. destruct (encrypt_cases _ _ _ _ _ _ He) as [->|(kid & rk & Hg)]; [done|].
  by eapply get_or_derive_wf.
Qed.

(** ** Sequences of operations on one context *)
Inductive event :=
| Advance (bk : SframeBaseKey)
| Encrypt (sender_leaf counter : Z) (plaintext : list byte)
| Decrypt (bytes : list byte).

(** The context after an event, and the frame it delivers, if any. *)
Definition step (c : SframeContext) (ev : event) : SframeContext * option DecryptedFrame :=
  match ev with
  | Advance bk => (advance_epoch bk c, None)
  | Encrypt s k m => ((encrypt_frame s k m c).2, None)
  | Decrypt b => match decrypt_frame b c with
                 | (Ok d, c') => (c', Some d)
                 | (_, c') => (c', None)
                 end
  end.

Fixpoint run_events (c : SframeContext) (evs : list event) : SframeContext * list DecryptedFrame :=
  match evs with
  | [] => (c, [])
  | ev :: evs => let '(c1, o) := step c ev in
                 let '(c2, ds) := run_events c1 evs in
                 (c2, match o with Some d => d :: ds | None => ds end)
  end.

(** Contexts reachable by advancing to epochs whose low 16 bits are not cached. *)
Inductive reachable : SframeContext -> Prop :=
| reach_new : reachable new
| reach_step c ev : reachable c ->
    match ev with
    | Advance bk => e16 (epoch bk) ∉ ((fun b => e16 (epoch b)) <$> epochs c)
    | _ => True
    end ->
    reachable (step c ev).1.

(** Epochs only grow, as MLS commits do: each advanced epoch exceeds [m] and all
    earlier ones. *)
Fixpoint epochs_increase (m : Z) (evs : list event) : Prop :=
  match evs with
  | [] => True
  | Advance bk :: evs => m < epoch bk /\ epochs_increase (epoch bk) evs
  | _ :: evs => epochs_increase m evs
  end.

Definition frame_id (d : DecryptedFrame) : Z * Z * Z := (sender_leaf d, df_epoch d, df_counter d).

(** What the context remembers of the frames delivered so far. *)
Record remembers (c : SframeContext) (m : Z) (ids : list (Z * Z * Z)) : Prop := {
  rm_sorted : StronglySorted Z.gt (epoch <$> epochs c);
  rm_max : Forall (fun b => epoch b <= m) (epochs c);
  rm_past : forall s e k, (s, e, k) ∈ ids -> e <= m;
  rm_seen : forall s e k, (s, e, k) ∈ ids -> e ∈ epoch <$> epochs c ->
    exists w seen, replay c !! (s, e) = Some w /\ SframeReplay.represents w seen /\ k ∈ seen;
  rm_rep : forall s e w, replay c !! (s, e) = Some w -> exists seen, SframeReplay.represents w seen
}.

Lemma evict_oldest_remembers m ids c rest ev :
  remembers c m ids -> epochs c = rest ++ [ev] -> remembers (evict_oldest c) m ids.
Proof.
  intros [Hs Hm Hp Hr Hw] He. destruct (evict_oldest_snoc c rest ev He) as (He' & Hr' & _).
  rewrite He, fmap_app in Hs.
  assert (Hlt : forall e, e ∈ epoch <$> rest -> e <> epoch ev).
  { intros e Hin Heq. pose proof (StronglySorted_app_1_elem_of Z.gt _ _ e (epoch ev) Hs Hin) as Hgt; simpl in Hgt; ospecialize (Hgt _); [by left|lia]. }
  split.
  - rewrite He'. by apply StronglySorted_app_1_l in Hs.
  - rewrite He'. rewrite He in Hm. by apply Forall_app in Hm as [].
  - done.
  - intros s e k Hin He0. rewrite He' in He0.
    destruct (Hr s e k Hin) as (w & seen & Hl & Hrep & Hk).
    { rewrite He, fmap_app. apply elem_of_app. by left. }
    exists w, seen. split_and!; [|done..]. rewrite Hr'. apply map_lookup_filter_Some. split; [done|]. simpl. auto.
  - intros s e w. rewrite Hr'. intros [Hl _]%map_lookup_filter_Some. eauto.
Qed.

Lemma advance_remembers m ids c bk :
  remembers c m ids -> m < epoch bk -> remembers (advance_epoch bk c) (epoch bk) ids.
Proof.
  intros [Hs Hm Hp Hr Hw] Hlt.
  apply (evict_loop_inv (fun c => remembers c (epoch bk) ids)); [intros; by eapply evict_oldest_remembers|].
  rewrite Forall_forall in Hm. split; simpl; try done.
  - constructor; [done|]. apply Forall_forall. intros e He.
    apply list_elem_of_fmap in He as (b & -> & Hb). apply Hm in Hb. lia.
  - constructor; [lia|]. apply Forall_forall. intros b Hb. apply Hm in Hb. lia.
  - intros s e k Hin. specialize (Hp _ _ _ Hin). lia.
  - intros s e k Hin He. apply (Hr s e k Hin).
    apply elem_of_cons in He as [->|He]; [|done]. specialize (Hp _ _ _ Hin). lia.
Qed.

Lemma frame_remembers m ids c c' :
  epochs c' = epochs c -> replay c' = replay c -> remembers c m ids -> remembers c' m ids.
Proof. intros He Hr [????]. split; rewrite ?He, ?Hr; done. Qed.

(** The same for a stored or fresh window of the context. *)
Lemma check_replay_history s e k c r c' seen :
  check_replay s e k c = (r, c') -> is_u64 k ->
  SframeReplay.represents (default (SframeReplay.new s) (replay c !! (s, e))) seen ->
  exists w seen', replay c' = <[(s, e) := w]> (replay c) /\ SframeReplay.represents w seen' /\
    seen ⊆ seen' /\ (r = Ok tt -> k ∉ seen /\ k ∈ seen').
Proof.
  unfold check_replay. intros Hc Hk Hr.
  destruct (SframeReplay.check_and_update _ k) as [r' w'] eqn:Hu in Hc. simplify_eq/=.
  destruct (SframeReplay.step_history _ _ _ _ _ Hr Hk Hu) as (seen' & ? & ? & ?). by exists w', seen'.
Qed.

Lemma stored_window c s e :
  (forall w, replay c !! (s, e) = Some w -> exists seen, SframeReplay.represents w seen) ->
  exists seen, SframeReplay.represents (default (SframeReplay.new s) (replay c !! (s, e))) seen.
Proof.
  intros Hw. destruct (replay c !! (s, e)) as [w|] eqn:Hl; [by apply Hw|].
  exists []. apply SframeReplay.represents_new.
Qed.

(** A counter the window accepts was not delivered before; afterwards it is
    remembered together with the old ones. *)
Lemma check_replay_remembers m ids c s e k r c' :
  remembers c m ids -> is_u64 k -> e ∈ epoch <$> epochs c -> check_replay s e k c = (r, c') ->
  remembers c' m ids /\ (r = Ok tt -> (s, e, k) ∉ ids /\ remembers c' m ((s, e, k) :: ids)).
Proof.
  intros [Hs Hm Hp Hr Hw] Hk He Hc.
  pose proof (check_replay_frame _ _ _ _ _ _ Hc) as [He' _].
  destruct (check_replay_represents _ _ _ _ _ _ Hc Hk ltac:(eauto)) as (w & seen & Hins & Hrep).
  assert (Hold : forall s' e' k', (s', e', k') ∈ ids -> e' ∈ epoch <$> epochs c ->
    exists w seen, replay c' !! (s', e') = Some w /\ SframeReplay.represents w seen /\ k' ∈ seen).
  { intros s' e' k' Hin Hin'. destruct (Hr _ _ _ Hin Hin') as (w0 & seen0 & Hl & Hrep0 & Hk0).
    destruct (decide ((s', e') = (s, e))) as [[= -> ->]|Hne].
    - destruct (check_replay_history _ _ _ _ _ _ seen0 Hc Hk) as (w1 & seen1 & -> & ? & Hsub & _); [by rewrite Hl|].
      exists w1, seen1. rewrite lookup_insert_eq. auto.
    - exists w0, seen0. by rewrite Hins, lookup_insert_ne. }
  assert (Hrem : remembers c' m ids).
  { split; rewrite ?He'; try done.
    intros s' e' w'. rewrite Hins. intros [[[= <- <-] <-]|[_ Hl]]%lookup_insert_Some; eauto. }
  split; [done|]. intros ->. split.
  - intros Hin. destruct (Hr _ _ _ Hin He) as (w0 & seen0 & Hl & Hrep0 & Hk0).
    destruct (check_replay_history _ _ _ _ _ _ seen0 Hc Hk) as (w1 & seen1 & _ & _ & _ & Hn); [by rewrite Hl|].
    by destruct (Hn eq_refl).
  - destruct Hrem as [Hs2 Hm2 Hp2 Hr2 Hw2]. split; try done.
    + intros s' e' k' [[= -> -> ->]|Hin]%elem_of_cons; [|by eauto].
      apply list_elem_of_fmap in He as (b & -> & Hb). rewrite Forall_forall in Hm. by apply Hm.
    + intros s' e' k' [[= -> -> ->]|Hin]%elem_of_cons; [|by eauto]. intros _.
      destruct (stored_window c s e (Hw s e)) as [seen0 Hrep0].
      destruct (check_replay_history _ _ _ _ _ _ seen0 Hc Hk Hrep0) as (w1 & seen1 & -> & ? & _ & Hn).
      exists w1, seen1. rewrite lookup_insert_eq. naive_solver.
Qed.

Lemma decrypt_remembers m ids c bytes r c' :
  remembers c m ids -> decrypt_frame bytes c = (r, c') ->
  match r with
  | Ok d => frame_id d ∉ ids /\ remembers c' m (frame_id d :: ids)
  | _ => remembers c' m ids
  end.
Proof.
  intros Hrem Hd.
  destruct (decrypt_cases _ _ _ _ Hd) as [(-> & Hn & _)|(h & rest & bk & rr & cr & Hp & Hf & Hr & Ho)].
  { destruct r; [by destruct (Hn a)|done..]. }
  destruct (parse_counter_u64 _ _ _ Hp) as [_ Hk].
  apply find_epoch_In in Hf as [Hb _]. apply (list_elem_of_fmap_2 epoch) in Hb.
  destruct (check_replay_remembers _ _ _ _ _ _ _ _ Hrem Hk Hb Hr) as [H1 H2].
  destruct Ho as [(e & _ & _ & -> & ->)|(-> & [rk Hg] & Hd')]; [done|].
  apply get_or_derive_frame in Hg as [Hge Hgr]. destruct (H2 eq_refl) as [Hnew Hrem2].
  destruct r as [d|e|]; [|by eapply frame_remembers..].
  unfold frame_id. destruct (Hd' d eq_refl) as (-> & -> & ->).
  split; [done|by eapply frame_remembers].
Qed.

Lemma run_events_nodup evs c m ids :
  remembers c m ids -> epochs_increase m evs ->
  NoDup (frame_id <$> (run_events c evs).2) /\
  forall i, i ∈ frame_id <$> (run_events c evs).2 -> i ∉ ids.
Proof.
  revert c m ids. induction evs as [|ev evs IH]; intros c m ids Hr Hi.
  { simpl. split; [constructor|]. intros i Hin. by apply elem_of_nil in Hin. }
  cbn [run_events]. destruct ev as [bk|s k p|b]; cbn [step].
  - destruct Hi as [Hlt Hi]. specialize (IH _ _ _ (advance_remembers _ _ _ _ Hr Hlt) Hi).
    by destruct (run_events _ evs).
  - destruct (encrypt_frame s k p c) as [r c'] eqn:He. simpl.
    assert (Hr' : remembers c' m ids).
    { destruct (encrypt_cases _ _ _ _ _ _ He) as [->|(kid & rk & Hg)]; [done|].
      apply get_or_derive_frame in Hg as []. by eapply frame_remembers. }
    specialize (IH _ _ _ Hr' Hi). by destruct (run_events _ evs).
  - destruct (decrypt_frame b c) as [r c'] eqn:Hd.
    pose proof (decrypt_remembers _ _ _ _ _ _ Hr Hd) as Hdr.
    destruct r as [d|e|]; cycle 1.
    1,2: specialize (IH _ _ _ Hdr Hi); by destruct (run_events _ evs).
    destruct Hdr as [Hnew Hr']. specialize (IH _ _ _ Hr' Hi).
    destruct (run_events c' evs) as [c2 ds]. simpl in *. destruct IH as [Hn Hs]. split.
    + constructor; [|done]. intros Hin. apply (Hs _ Hin). by left.
    + intros i [->|Hin]%elem_of_cons; [done|]. intros Hi2. apply (Hs _ Hin). by right.
Qed.

(** ** Theorems *)

Lemma e16_mod e : e16 e = e mod 65536.
Proof. unfold e16. change 65535 with (Z.ones 16). by rewrite Z.land_ones. Qed.

Lemma e16_compute_kid s e : is_u32 s -> is_u64 e -> e16 (compute_kid s e) = e16 e.
Proof.
  intros Hs He. destruct (parse_compute_kid s e Hs He) as [Hp _].
  rewrite !e16_mod. unfold parse_kid in Hp. injection Hp as _ Hp.
  change 65535 with (Z.ones 16) in Hp. by rewrite Z.land_ones in Hp.
Qed.

(** What [encrypt_frame] sends, when the context is well formed. *)
Lemma encrypt_frame_wire `{!SframeCryptoLaws} c leaf ctr msg bk :
  wf c -> head (epochs c) = Some bk -> is_u32 leaf -> is_u64 (epoch bk) -> is_u64 ctr ->
  len msg <= MAX_FRAME_PLAINTEXT_LEN ->
  let kid := compute_kid leaf (epoch bk) in
  let key := derive_per_kid bk kid in
  exists ct c', gcm_encrypt (sframe_key key) (build_nonce (sframe_salt key) ctr) (header_bytes kid ctr) msg = Some ct /\
    encrypt_frame leaf ctr msg c = (Ok (header_bytes kid ctr ++ ct), c') /\ wf c'.
Proof.
  intros Hw Hh Hl He Hc Hm kid key. destruct (epochs c) as [|b l] eqn:Hes; simplify_eq/=.
  assert (Hin : bk ∈ epochs c) by (rewrite Hes; by left).
  pose proof (find_epoch_unique c bk (wf_e16 _ Hw) Hin) as Hf.
  rewrite <- (e16_compute_kid leaf (epoch bk)) in Hf by done. fold kid in Hf.
  destruct (get_or_derive_found kid c bk Hw Hf) as (c' & Hg & Hw').
  destruct (gcm_total (sframe_key key) (build_nonce (sframe_salt key) ctr) (header_bytes kid ctr) msg) as [ct Hct].
  { unfold MAX_FRAME_PLAINTEXT_LEN in Hm. lia. }
  exists ct, c'. split_and!; [done| |done]. unfold encrypt_frame, sguard.
  rewrite (proj2 (Z.ltb_ge _ _)) by lia. unfold sbind, sget, slift, sret, current_epoch.
  rewrite Hes. cbn. fold kid. rewrite Hg.
  destruct (parse_compute_kid leaf (epoch bk) Hl He) as [_ Hk].
  rewrite serialize_spec by (try done; unfold is_u64, U64_MAX; lia).
  rewrite slice_hit by done. unfold aes256gcm_encrypt. fold key. by rewrite Hct.
Qed.

(** Media round trip: a frame encrypted by one participant is decrypted by
    any participant that holds the same epoch base key among its cached epochs and
    has not yet accepted the counter, whatever else is in the two contexts; the
    receiver gets the plaintext, counter, sender leaf and the full 64-bit epoch,
    although the wire carries only 16 bits of it. *)
Theorem encrypt_decrypt_frame `{!SframeCryptoLaws} (s r : SframeContext) (bk : SframeBaseKey)
    (leaf ctr : Z) (msg : list byte)
    (Hs : wf s) (Hr : wf r) (Hbk : head (epochs s) = Some bk) (Hbk' : bk ∈ epochs r)
    (Hl : is_u32 leaf) (He : is_u64 (epoch bk)) (Hc : is_u64 ctr)
    (Hm : len msg <= MAX_FRAME_PLAINTEXT_LEN)
    (Hfresh : (SframeReplay.check_and_update
                (default (SframeReplay.new leaf) (replay r !! (leaf, epoch bk))) ctr).1 = Ok tt) :
  exists wire s' r', encrypt_frame leaf ctr msg s = (Ok wire, s') /\
    decrypt_frame wire r = (Ok {| plaintext := msg; df_kid := compute_kid leaf (epoch bk);
                                  df_counter := ctr; sender_leaf := leaf; df_epoch := epoch bk |}, r').
Proof.
  destruct (encrypt_frame_wire s leaf ctr msg bk) as (ct & s' & Hct & Hwire & _); try done.
  set (kid0 := compute_kid leaf (epoch bk)) in *. set (key := derive_per_kid bk kid0) in *.
  destruct (parse_compute_kid leaf (epoch bk) Hl He) as [Hpk Hk]. fold kid0 in Hpk, Hk.
  assert (Hku : is_u64 kid0) by (unfold is_u64, U64_MAX; lia).
  pose proof (gcm_len _ _ _ _ _ Hct) as Hctl. pose proof (len_nonneg msg).
  pose proof (len_header_bytes kid0 ctr) as Hhl. pose proof (len_ext _ Hku). pose proof (len_ext _ Hc).
  destruct (check_replay leaf (epoch bk) ctr r) as [rr r1] eqn:Hcr.
  assert (rr = Ok tt) as ->.
  { unfold check_replay in Hcr. destruct (SframeReplay.check_and_update _ _) in *. by simplify_eq/=. }
  assert (Hw1 : wf r1).
  { eapply check_replay_wf; [exact Hr|exact Hc| |exact Hcr]. by apply (list_elem_of_fmap_2 epoch). }
  pose proof (find_epoch_unique r bk (wf_e16 _ Hr) Hbk') as Hf.
  assert (Hf1 : find_epoch (e16 kid0) r1 = Some bk).
  { unfold kid0. rewrite e16_compute_kid by done. unfold find_epoch in *.
    by rewrite (proj1 (check_replay_frame _ _ _ _ _ _ Hcr)). }
  destruct (get_or_derive_found kid0 r1 bk Hw1 Hf1) as (r2 & Hg & _).
  exists (header_bytes kid0 ctr ++ ct), s', r2. split; [done|].
  unfold decrypt_frame, sguard, MAX_FRAME_WIRE_LEN, MAX_HEADER_LEN, AEAD_TAG_LEN in *.
  rewrite (proj2 (Z.ltb_ge _ _)) by (rewrite len_app; lia). unfold sbind, sget, slift, sret.
  rewrite parse_header_bytes by done. cbn [kid counter header_len].
  rewrite (proj2 (Z.ltb_ge _ _)) by lia. rewrite Hpk. rewrite <- e16_mod, Hf. cbn [ok_or]. rewrite Hcr, Hg.
  rewrite slice_hit by done. unfold slice_from. rewrite (slice_skip (len (header_bytes kid0 ctr))) by lia.
  rewrite slice_full by (rewrite ?len_app; lia). unfold aes256gcm_decrypt.
  rewrite (proj2 (Z.ltb_ge _ _)) by (unfold AEAD_TAG_LEN; lia). cbn [rguard].
  unfold key in Hct. by rewrite (gcm_roundtrip _ _ _ _ _ Hct).
Qed.

(** C14. No frame is delivered twice: along any sequence of epoch advances with
    growing epochs, encryptions and decryptions of arbitrary bytes, starting from a
    new context, the (sender, epoch, counter) triples of the delivered frames are
    pairwise different, also across the eviction of old epochs and their windows. *)
Theorem frames_delivered_once (evs : list event) (Hinc : epochs_increase (-1) evs) :
  NoDup (frame_id <$> (run_events new evs).2).
Proof.
  apply (run_events_nodup evs new (-1) []); [|done]. split; simpl; try constructor; try done.
  all: intros ??? Hin; by apply elem_of_nil in Hin.
Qed.

(** The replay window is updated before the tag is verified: once a frame has
    passed the window, even one that then fails authentication, every frame with the
    same KID and counter is refused.  An unauthenticated frame can therefore use up
    the counter of a genuine one. *)
Theorem counter_consumed_before_auth (c c1 : SframeContext) (b1 b2 rest1 rest2 : list byte)
    (h1 h2 : SframeHeader) (r1 : res CallError DecryptedFrame)
    (Hw : wf c) (Hd : decrypt_frame b1 c = (r1, c1))
    (Hr1 : r1 = Err AeadAuthFailure \/ exists d, r1 = Ok d)
    (Hp1 : parse b1 = Ok (h1, rest1)) (Hp2 : parse b2 = Ok (h2, rest2))
    (Hkid : kid h2 = kid h1) (Hctr : counter h2 = counter h1) (d : DecryptedFrame) :
  (decrypt_frame b2 c1).1 <> Ok d.
Proof.
  destruct (parse_counter_u64 _ _ _ Hp1) as [_ Hk].
  destruct (decrypt_cases _ _ _ _ Hd) as [(_ & Hn & Ha)|(h & rest & bk & rr & cr & Hp & Hf & Hcr & Ho)];
    [naive_solver|]. rewrite Hp1 in Hp. injection Hp as <- <-.
  destruct Ho as [(e & -> & He & -> & ->)|(-> & [rk Hg] & _)]; [naive_solver|].
  destruct (stored_window c (parse_kid (kid h1)).1 (epoch bk)) as [seen0 Hs0];
    [intros; by eapply wf_replay|].
  destruct (check_replay_history _ _ _ _ _ _ seen0 Hcr Hk Hs0) as (w & seen & Hins & Hrep & _ & Hin).
  destruct (Hin eq_refl) as [_ Hkin]. apply get_or_derive_frame in Hg as [Hge Hgr].
  apply check_replay_frame in Hcr as [Hce _].
  destruct (decrypt_frame b2 c1) as [r2 c2] eqn:Hd2. intros Heq. simpl in Heq. subst r2.
  destruct (decrypt_cases _ _ _ _ Hd2) as [(_ & Hn & _)|(h & rest & bk' & rr & cr2 & Hp & Hf2 & Hcr2 & Ho)];
    [by destruct (Hn d)|]. rewrite Hp2 in Hp. injection Hp as <- <-.
  rewrite Hkid, Hctr in *. assert (bk' = bk) as ->.
  { unfold find_epoch in Hf, Hf2. rewrite Hge, Hce in Hf2. congruence. }
  destruct Ho as [(e & -> & He & ? & ->)|(-> & _)]; [done|].
  destruct (check_replay_history _ _ _ _ _ _ seen Hcr2 Hk) as (? & ? & _ & _ & _ & Hn).
  { by rewrite Hgr, Hins, lookup_insert_eq. }
  by destruct (Hn eq_refl).
Qed.

(** C37. The context invariant holds in every context reachable by advancing to
    epochs whose low 16 bits are not cached, encrypting and decrypting: at most three
    epochs, cached per-KID keys are those of the epoch the KID names, and replay
    windows exist for cached epochs only. *)
Theorem reachable_wf (c : SframeContext) (Hc : reachable c) : wf c.
Proof.
  induction Hc as [|c ev Hc IH Hf]; [apply new_wf|].
  destruct ev as [bk|s k m|b]; simpl.
  - by apply advance_epoch_wf.
  - destruct (encrypt_frame s k m c) eqn:He. by eapply encrypt_frame_wf.
  - destruct (decrypt_frame b c) as [r c'] eqn:Hd.
    pose proof (decrypt_frame_wf _ _ _ _ IH Hd). by destruct r.
Qed.

(** Nonce and key separation: under one per-KID key, different counters give
    different GCM nonces; the HKDF info strings of different KIDs differ, and the
    key string of a KID is never the salt string of any KID. *)
Theorem nonce_and_info_unique `{!SframeCryptoLaws} (bk : SframeBaseKey) (k1 k2 c1 c2 : Z)
    (Hk1 : is_u64 k1) (Hk2 : is_u64 k2) (Hc1 : is_u64 c1) (Hc2 : is_u64 c2) :
  (c1 <> c2 -> build_nonce (sframe_salt (derive_per_kid bk k1)) c1 <>
               build_nonce (sframe_salt (derive_per_kid bk k1)) c2) /\
  (k1 <> k2 -> info_bytes SFRAME_KEY_LABEL k1 (ciphersuite bk) <> info_bytes SFRAME_KEY_LABEL k2 (ciphersuite bk) /\
               info_bytes SFRAME_SALT_LABEL k1 (ciphersuite bk) <> info_bytes SFRAME_SALT_LABEL k2 (ciphersuite bk)) /\
  info_bytes SFRAME_KEY_LABEL k1 (ciphersuite bk) <> info_bytes SFRAME_SALT_LABEL k2 (ciphersuite bk).
Proof.
  split_and!.
  - intros Hne Heq. apply Hne. eapply build_nonce_inj; [|done..|exact Heq]. by apply expand_len.
  - intros Hne. split; intros Heq; apply Hne; by eapply info_bytes_inj.
  - apply info_bytes_labels.
Qed.

(** A per-KID key cached for one epoch is reused, not replaced, when a later epoch
    with the same low 16 bits is advanced while the first one is still cached. *)
Lemma wraparound_keeps_stale_key (c : SframeContext) (old new_bk : SframeBaseKey) (kid : Z) :
  len (epochs c) < EPOCH_CACHE_SIZE -> per_kid_cache c !! kid = Some (derive_per_kid old kid) ->
  (get_or_derive kid (advance_epoch new_bk c)).1 = Ok (derive_per_kid old kid).
Proof.
  intros Hl Hk. assert (Ha : per_kid_cache (advance_epoch new_bk c) = per_kid_cache c).
  { unfold advance_epoch. cbn [evict_loop length epochs].
    rewrite (proj2 (Z.ltb_ge _ _)); [done|]. rewrite len_cons. lia. }
  unfold get_or_derive. rewrite Ha, Hk. simpl. by rewrite Ha, Hk.
Qed.

End Context_.

(** ** A concrete instance for the witnesses: XOR checksum as tag *)
Definition toy_sum (l : list byte) : byte := as_u8 (foldr (fun b z => u8 b + z) 0 l).
Definition toy_tag (k n a m : list byte) : list byte := replicate 16 (toy_sum (k ++ n ++ a ++ m)).

#[export] Instance toy_crypto : SframeCrypto := {
  hkdf_extract ikm := ikm;
  hkdf_expand prk info n := replicate (Z.to_nat n) (toy_sum (prk ++ info));
  gcm_encrypt k n a m := Some (m ++ toy_tag k n a m);
  gcm_decrypt k n a c := let m := take (length c - 16) c in
                         if bool_decide (drop (length c - 16) c = toy_tag k n a m) then Some m else None
}.

#[export] Instance toy_laws : SframeCryptoLaws.
Proof.
  split; simpl.
  - intros. rewrite len_replicate. lia.
  - eauto.
  - intros k n a m c [= <-]. rewrite len_app. unfold toy_tag. by rewrite len_replicate.
  - intros k n a m c [= <-].
    assert (length (m ++ toy_tag k n a m) - 16 = length m)%nat as ->
      by (rewrite length_app; unfold toy_tag; rewrite length_replicate; lia).
    rewrite take_app_length, drop_app_length. by rewrite bool_decide_true.
Qed.

Definition toy_base : SframeBaseKey := from_ikm [Byte.x07] Aes256GcmSha512 65537.
Definition toy_ctx : SframeContext := advance_epoch toy_base new.
Definition toy_kid : Z := compute_kid 3 65537.
Definition toy_forged : list byte := header_bytes toy_kid 9 ++ replicate 20 Byte.x00.
Definition toy_wire : list byte :=
  match (encrypt_frame 3 9 [Byte.x2a] toy_ctx).1 with Ok w => w | _ => [] end.
Definition toy_frame : DecryptedFrame :=
  {| plaintext := [Byte.x2a]; df_kid := toy_kid; df_counter := 9; sender_leaf := 3; df_epoch := 65537 |}.

Lemma toy_ctx_wf : wf toy_ctx.
Proof. apply advance_epoch_wf; [apply new_wf|]. by apply not_elem_of_nil. Qed.

Lemma encrypt_decrypt_frame_witness :
  exists wire s' r', encrypt_frame 3 9 [Byte.x2a] toy_ctx = (Ok wire, s') /\
    decrypt_frame wire toy_ctx = (Ok {| plaintext := [Byte.x2a]; df_kid := compute_kid 3 (epoch toy_base);
      df_counter := 9; sender_leaf := 3; df_epoch := epoch toy_base |}, r').
Proof.
  apply (encrypt_decrypt_frame toy_ctx toy_ctx toy_base 3 9 [Byte.x2a]);
    try apply toy_ctx_wf; try (vm_compute; split; discriminate); try (vm_compute; discriminate); try reflexivity.
  by left.
Defined.

Lemma frames_delivered_once_witness :
  NoDup (frame_id <$> (run_events new [Advance toy_base; Decrypt toy_wire; Decrypt toy_wire;
    Advance (from_ikm [Byte.x08] Aes256GcmSha512 65538); Decrypt toy_wire]).2).
Proof. apply frames_delivered_once. vm_compute. split_and!; reflexivity. Defined.

Lemma counter_consumed_before_auth_witness :
  (decrypt_frame toy_wire toy_ctx).1 = Ok toy_frame /\
  (decrypt_frame toy_wire (decrypt_frame toy_forged toy_ctx).2).1 <> Ok toy_frame.
Proof.
  split; [vm_compute; reflexivity|].
  eapply (counter_consumed_before_auth toy_ctx _ toy_forged toy_wire);
    [apply toy_ctx_wf | vm_compute; reflexivity | left; reflexivity | vm_compute; reflexivity
    | vm_compute; reflexivity | vm_compute; reflexivity | vm_compute; reflexivity].
Defined.

Lemma reachable_wf_witness : wf (step (step new (Advance toy_base)).1 (Decrypt toy_forged)).1.
Proof.
  apply reachable_wf. apply (reach_step _ (Decrypt toy_forged)); [|exact I].
  apply (reach_step new (Advance toy_base)); [constructor|]. by apply not_elem_of_nil.
Defined.

Lemma nonce_and_info_unique_witness :
  build_nonce (sframe_salt (derive_per_kid toy_base toy_kid)) 1 <>
  build_nonce (sframe_salt (derive_per_kid toy_base toy_kid)) 2.
Proof.
  apply (nonce_and_info_unique toy_base toy_kid 5 1 2); try discriminate; vm_compute; split; discriminate.
Defined.

End Sframe.
