(* ===== verification/Postman.v ===== *)
(** * Blind postman ([crates/umbrella-server-blind-postman/src/])

    The server side that routes opaque MLS messages: [envelope.rs] classifies a
    message with the MLS parser (a parameter), [replay.rs] remembers the hashes of
    the last [window_secs] seconds, [ratelimit.rs] counts messages per sender, and
    [router.rs] composes them.  The rate limiter is an interface in the source (a
    trait) and here (the class [RateLimiter]); the router's quota theorem is proved
    against [QuotaLimiter], which the fixed-window limiter implements. *)
From stdpp Require Import sorting.
From S2P Require Import Prelude Bytes.

(** [trait RateLimiter] *)
Class RateLimiter (L : Type) := allow : list byte -> Z -> L -> bool * L.

Module Postman.

(** ** Rate limiting *)
Definition AllowAll : Type := unit.
#[export] Instance allow_all : RateLimiter AllowAll := fun _ _ l => (true, l).

Definition MAX_TRACKED_SENDERS : Z := 100000.

Record FixedWindow := {
  window_secs : Z;
  per_window : Z;
  buckets : gmap (list byte) (Z * Z)     (* window start, count in window *)
}.

Definition fixed_window_new (window_secs per_window : Z) : res Empty_set FixedWindow :=
  if (0 <? per_window) && (0 <? window_secs)
  then Ok {| window_secs := window_secs; per_window := per_window; buckets := ∅ |}
  else Panic.

Definition active_senders (l : FixedWindow) : Z := Z.of_nat (size (buckets l)).

Definition with_buckets (l : FixedWindow) (b : gmap (list byte) (Z * Z)) : FixedWindow :=
  {| window_secs := window_secs l; per_window := per_window l; buckets := b |}.

(** The tail of [allow]: the entry of the sender, its reset and its increment. *)
Definition take_slot (sender : list byte) (window_start : Z) (l : FixedWindow) : bool * FixedWindow :=
  let entry := default (window_start, 0) (buckets l !! sender) in
  let entry := if negb (entry.1 =? window_start) then (window_start, 0) else entry in
  if per_window l <=? entry.2 then (false, with_buckets l (<[sender := entry]> (buckets l)))
  else (true, with_buckets l (<[sender := (entry.1, wrap32 (entry.2 + 1))]> (buckets l))).

#[export] Instance fixed_window_allow : RateLimiter FixedWindow := fun sender now_unix l =>
  let window_start := now_unix / window_secs l * window_secs l in
  if bool_decide (buckets l !! sender = None) && (MAX_TRACKED_SENDERS <=? active_senders l) then
    let l' := with_buckets l (filter (fun kv => kv.2.1 = window_start) (buckets l)) in
    if MAX_TRACKED_SENDERS <=? active_senders l' then (false, l')
    else take_slot sender window_start l'
  else take_slot sender window_start l.

(** ** Anti-replay *)
Definition DEFAULT_REPLAY_WINDOW_SECS : Z := 60.

Inductive ReplayDecision := RAccept | RDuplicate.

Record ReplayGuard := {
  rg_window : Z;
  active : gset (list byte);
  queue : list (Z * list byte)           (* arrival time, hash; oldest first *)
}.

Definition replay_new (window_secs : Z) : ReplayGuard :=
  {| rg_window := window_secs; active := ∅; queue := [] |}.
Definition with_default_window : ReplayGuard := replay_new DEFAULT_REPLAY_WINDOW_SECS.
Definition active_entries (g : ReplayGuard) : Z := Z.of_nat (size (active g)).

(** [while let Some(&(ts, hash)) = self.queue.front()] *)
Fixpoint evict_loop (cutoff : Z) (q : list (Z * list byte)) (a : gset (list byte))
  : list (Z * list byte) * gset (list byte) :=
  match q with
  | [] => ([], a)
  | (ts, hash) :: q' => if ts <? cutoff then evict_loop cutoff q' (a ∖ {[ hash ]}) else (q, a)
  end.

Definition evict_expired (now_unix : Z) (g : ReplayGuard) : ReplayGuard :=
  let cutoff := sat_sub now_unix (rg_window g) in
  let '(q, a) := evict_loop cutoff (queue g) (active g) in
  {| rg_window := rg_window g; active := a; queue := q |}.

Definition is_duplicate (hash : list byte) (now_unix : Z) (g : ReplayGuard) : bool * ReplayGuard :=
  let g := evict_expired now_unix g in
  (bool_decide (hash ∈ active g), g).

Definition record (hash : list byte) (now_unix : Z) (g : ReplayGuard) : ReplayGuard :=
  let g := evict_expired now_unix g in
  if bool_decide (hash ∈ active g) then g
  else {| rg_window := rg_window g; active := {[ hash ]} ∪ active g;
          queue := queue g ++ [(now_unix, hash)] |}.

Definition check_and_record (hash : list byte) (now_unix : Z) (g : ReplayGuard)
  : ReplayDecision * ReplayGuard :=
  let '(dup, g) := is_duplicate hash now_unix g in
  if dup then (RDuplicate, g) else (RAccept, record hash now_unix g).

(** ** Envelopes *)
Definition MLS_MESSAGE_MIN_BYTES : Z := 8.

Inductive EnvelopeKind := PrivateMessage | PublicMessage | Welcome | GroupInfo | KeyPackage.
#[global] Instance EnvelopeKind_eq_dec : EqDecision EnvelopeKind.
Proof. solve_decision. Defined.

Record ParsedEnvelope := {
  ekind : EnvelopeKind;
  group_id : option (list byte);
  env_epoch : option Z;
  wire_len : Z;
  message_hash : list byte
}.

Inductive EnvelopeError := Malformed | UnsupportedKind | ParserPanic (kind : string).

(** The message type of the MLS library: what the envelope code reads of it. *)
Inductive MlsMessageIn :=
| MlsPrivate (group_id : list byte) (epoch : Z)
| MlsPublic (group_id : list byte) (epoch : Z)
| MlsWelcome
| MlsGroupInfo
| MlsKeyPackage.

Definition wire_format (m : MlsMessageIn) : EnvelopeKind :=
  match m with
  | MlsPrivate _ _ => PrivateMessage
  | MlsPublic _ _ => PublicMessage
  | MlsWelcome => Welcome
  | MlsGroupInfo => GroupInfo
  | MlsKeyPackage => KeyPackage
  end.

(** ** Correctness of the replay guard

    [guard_at g t h]: at time [t] the guard remembers exactly the recorded
    (time, hash) pairs of the history [h] that are still inside the window. *)
Record guard_at (g : ReplayGuard) (t : Z) (h : list (Z * list byte)) : Prop := {
  ga_sorted : StronglySorted Z.le h.*1;
  ga_past : Forall (fun x => 0 <= x.1 <= t) h;
  ga_queue : queue g = filter (fun x => sat_sub t (rg_window g) <= x.1) h;
  ga_active : active g = list_to_set (queue g).*2;
  ga_nodup : NoDup (queue g).*2
}.

(** On a queue sorted by time the loop drops exactly the expired prefix. *)
Lemma evict_loop_spec cutoff q a :
  StronglySorted Z.le q.*1 -> NoDup q.*2 -> a = list_to_set q.*2 ->
  evict_loop cutoff q a =
    (filter (fun x => cutoff <= x.1) q, list_to_set (filter (fun x => cutoff <= x.1) q).*2).
Proof.
  revert a. induction q as [|[ts hash] q IH]; intros a Hs Hn ->; [done|].
  simpl in Hs. apply StronglySorted_cons in Hs as [Hle Hs].
  rewrite fmap_cons in Hn. apply NoDup_cons in Hn as [Hh Hn]. simpl in Hh.
  cbn [evict_loop]. destruct (ts <? cutoff) eqn:Hc; zbool.
  - rewrite filter_cons_False by (simpl; lia). apply IH; try done.
    simpl. apply set_eq. intros x. rewrite elem_of_difference, elem_of_union, elem_of_singleton, !elem_of_list_to_set.
    split; [tauto|]. intros Hx. split; [auto|]. intros ->. done.
  - assert (Hall : filter (fun x : Z * list byte => cutoff <= x.1) ((ts, hash) :: q) = (ts, hash) :: q).
    { apply list_filter_all. constructor; [done|]. rewrite Forall_fmap in Hle.
      eapply Forall_impl; [exact Hle|]. intros x Hx. simpl in Hx. lia. }
    by rewrite Hall.
Qed.

Lemma filter_sorted (P : Z * list byte -> Prop) `{!forall x, Decision (P x)} h :
  StronglySorted Z.le h.*1 -> StronglySorted Z.le (filter P h).*1.
Proof.
  induction h as [|x h IH]; intros Hs; [done|]. simpl in Hs. apply StronglySorted_cons in Hs as [Hle Hs].
  destruct (decide (P x)); [rewrite filter_cons_True by done|by rewrite filter_cons_False; auto].
  rewrite fmap_cons. apply StronglySorted_cons. split; [|auto].
  rewrite Forall_fmap in Hle |- *. rewrite Forall_forall in Hle |- *.
  intros y Hy. apply Hle. by apply list_elem_of_filter in Hy as [_ Hy].
Qed.

Lemma filter_fmap_nodup (P : Z * list byte -> Prop) `{!forall x, Decision (P x)} h :
  NoDup h.*2 -> NoDup (filter P h).*2.
Proof.
  induction h as [|x h IH]; intros Hn; [constructor|]. rewrite fmap_cons in Hn. apply NoDup_cons in Hn as [Hx Hn].
  destruct (decide (P x)); [rewrite filter_cons_True by done|by rewrite filter_cons_False; auto].
  rewrite fmap_cons. constructor; [|auto]. intros Hin. apply Hx.
  apply list_elem_of_fmap in Hin as (y & -> & Hy). apply list_elem_of_filter in Hy as [_ Hy].
  by apply list_elem_of_fmap_2.
Qed.

(** Time passing: eviction brings the guard to the new time. *)
Lemma evict_expired_at g t h now :
  guard_at g t h -> t <= now ->
  guard_at (evict_expired now g) now h /\ rg_window (evict_expired now g) = rg_window g.
Proof.
  intros [Hs Hp Hq Ha Hn] Ht. unfold evict_expired.
  rewrite evict_loop_spec; [|rewrite Hq; by apply filter_sorted|done|done]. simpl. split; [|done].
  split; simpl; try done.
  - eapply Forall_impl; [exact Hp|]. simpl. lia.
  - rewrite Hq. rewrite list_filter_filter. apply list_filter_iff. intros x. unfold sat_sub. lia.
  - by apply filter_fmap_nodup.
Qed.

Lemma guard_at_active g t h hash :
  guard_at g t h ->
  hash ∈ active g <-> exists ts, (ts, hash) ∈ h /\ sat_sub t (rg_window g) <= ts.
Proof.
  intros [Hs Hp Hq Ha Hn]. rewrite Ha, elem_of_list_to_set, list_elem_of_fmap, Hq. split.
  - intros ([ts x] & -> & Hin). apply list_elem_of_filter in Hin as [Hc Hin]. simpl in *. eauto.
  - intros (ts & Hin & Hc). exists (ts, hash). split; [done|]. by apply list_elem_of_filter.
Qed.

Lemma evict_idempotent g t h : guard_at g t h -> evict_expired t g = g.
Proof.
  intros [Hs Hp Hq Ha Hn]. unfold evict_expired.
  rewrite evict_loop_spec; [|rewrite Hq; by apply filter_sorted|done|done].
  assert (Hf : filter (fun x => sat_sub t (rg_window g) <= x.1) (queue g) = queue g).
  { apply list_filter_all. rewrite Hq. apply Forall_forall. intros x Hx. by apply list_elem_of_filter in Hx as []. }
  rewrite Hf, <- Ha. by destruct g.
Qed.

(** Recording a hash that is not a duplicate extends the history. *)
Lemma record_at g t h hash :
  guard_at g t h -> hash ∉ active g -> 0 <= t -> 0 <= rg_window g ->
  guard_at (record hash t g) t (h ++ [(t, hash)]) /\ rg_window (record hash t g) = rg_window g.
Proof.
  intros Hg Hnew Ht Hw. unfold record. rewrite (evict_idempotent _ _ _ Hg), bool_decide_false by done.
  simpl. split; [|done]. destruct Hg as [Hs Hp Hq Ha Hn]. split; simpl.
  - rewrite fmap_app. apply StronglySorted_app. split_and!; [|done|repeat constructor].
    intros x y Hx Hy. apply list_elem_of_singleton in Hy as ->.
    apply list_elem_of_fmap in Hx as (z & -> & Hz). rewrite Forall_forall in Hp. by apply Hp in Hz as [].
  - apply Forall_app. split; [done|]. by repeat constructor.
  - rewrite filter_app, Hq. f_equal. rewrite filter_cons_True; [done|]. simpl. unfold sat_sub. lia.
  - rewrite fmap_app, list_to_set_app_L, Ha. simpl. set_solver.
  - rewrite fmap_app. apply NoDup_app. split_and!; [done| |repeat constructor; by apply not_elem_of_nil].
    intros x Hx Hin. apply list_elem_of_singleton in Hin as ->. apply Hnew. rewrite Ha. by apply elem_of_list_to_set.
Qed.

Lemma replay_new_at w : guard_at (replay_new w) 0 [].
Proof. split; simpl; try done; constructor. Qed.

(** ** Correctness of the fixed-window limiter *)

(** Grants of a sender inside the window that starts at [w]. *)
Definition granted (window : Z) (s : list byte) (w : Z) (h : list (list byte * Z)) : Z :=
  len (filter (fun x => x.1 = s /\ x.2 / window * window = w) h).

Lemma granted_nil window s w : granted window s w [] = 0.
Proof. done. Qed.

Lemma granted_cons window s w s' t h :
  granted window s w ((s', t) :: h) =
    (if bool_decide (s' = s /\ t / window * window = w) then 1 else 0) + granted window s w h.
Proof.
  unfold granted. rewrite filter_cons. simpl.
  destruct (decide (s' = s /\ t / window * window = w)); [|by rewrite bool_decide_false].
  by rewrite bool_decide_true, len_cons.
Qed.

(** Interface: what a limiter with a quota per window promises its clients.
    [qinv l t h] relates the limiter at time [t] to the grants made so far. *)
Class QuotaLimiter (L : Type) `{RateLimiter L} (window quota : Z) := {
  qinv : L -> Z -> list (list byte * Z) -> Prop;
  qinv_allow : forall l t h s now, qinv l t h -> t <= now -> 0 <= t ->
    qinv (allow s now l).2 now (if (allow s now l).1 then (s, now) :: h else h);
  qinv_tick : forall l t h now, qinv l t h -> t <= now -> 0 <= t -> qinv l now h;
  qinv_quota : forall l t h s w, qinv l t h -> granted window s w h <= quota
}.

Definition wstart (window t : Z) : Z := t / window * window.

Lemma wstart_mono window a b : 0 < window -> a <= b -> wstart window a <= wstart window b.
Proof. intros. unfold wstart. pose proof (Z.div_le_mono a b window). nia. Qed.

Record fw_inv (window quota : Z) (l : FixedWindow) (t : Z) (h : list (list byte * Z)) : Prop := {
  fw_params : window_secs l = window /\ per_window l = quota /\ 0 < window /\ 0 <= quota <= U32_MAX;
  fw_past : Forall (fun x => x.2 <= t) h;
  fw_bucket : forall s w k, buckets l !! s = Some (w, k) -> w <= wstart window t /\ 0 <= k <= quota;
  fw_count : forall s, granted window s (wstart window t) h =
    match buckets l !! s with
    | Some (w, k) => if w =? wstart window t then k else 0
    | None => 0
    end;
  fw_quota : forall s w, granted window s w h <= quota
}.

(** No grant lies in a window later than the current time. *)
Lemma granted_future window s w t h :
  0 < window -> Forall (fun x => x.2 <= t) h -> wstart window t < w -> granted window s w h = 0.
Proof.
  intros Hw Hp Hlt. induction Hp as [|[s' t'] h Ht _ IH]; [done|].
  rewrite granted_cons, IH, bool_decide_false; [done|]. simpl in Ht. intros [_ He].
  pose proof (wstart_mono window t' t Hw Ht). unfold wstart in *. lia.
Qed.

Lemma fw_tick window quota l t h now :
  fw_inv window quota l t h -> t <= now -> fw_inv window quota l now h.
Proof.
  intros [Hpar Hp Hb Hc Hq] Ht. destruct Hpar as (Hw1 & Hw2 & Hw & Hqr).
  pose proof (wstart_mono window t now Hw Ht) as Hm. split; try done.
  - eapply Forall_impl; [exact Hp|]. simpl. lia.
  - intros s w k Hs. apply Hb in Hs. lia.
  - intros s. destruct (Z.eq_dec (wstart window now) (wstart window t)) as [->|Hne]; [apply Hc|].
    rewrite (granted_future _ _ _ t) by (done || lia).
    destruct (buckets l !! s) as [[w k]|] eqn:Hs; [|done]. apply Hb in Hs.
    destruct (Z.eqb_spec w (wstart window now)); [lia|done].
Qed.

(** The retain step forgets only buckets of other windows. *)
Lemma fw_retain window quota l t h :
  fw_inv window quota l t h ->
  fw_inv window quota (with_buckets l (filter (fun kv => kv.2.1 = wstart window t) (buckets l))) t h.
Proof.
  intros [Hpar Hp Hb Hc Hq]. split; simpl; try done.
  - intros s w k [Hs _]%map_lookup_filter_Some. by apply Hb in Hs.
  - intros s. rewrite Hc, map_lookup_filter. destruct (buckets l !! s) as [[w k]|]; simpl; [|done].
    destruct (Z.eqb_spec w (wstart window t)); simpl; case_guard; simpl in *; try done.
    by rewrite (proj2 (Z.eqb_eq _ _)).
Qed.

Lemma fw_take_slot window quota l t h s :
  fw_inv window quota l t h ->
  fw_inv window quota (take_slot s (wstart window t) l).2 t
    (if (take_slot s (wstart window t) l).1 then (s, t) :: h else h).
Proof.
  intros [Hpar Hp Hb Hc Hq]. destruct Hpar as (Hw1 & Hw2 & Hw & Hqr). unfold take_slot.
  set (W := wstart window t) in *.
  set (e0 := default (W, 0) (buckets l !! s)). set (e := if negb (e0.1 =? W) then (W, 0) else e0).
  assert (He : e.1 = W /\ 0 <= e.2 <= quota /\ granted window s W h = e.2).
  { pose proof (Hc s) as Hcs. unfold e, e0. destruct (buckets l !! s) as [[w k]|] eqn:Hs; simpl.
    - apply Hb in Hs. destruct (Z.eqb_spec w W); simpl in *; subst; simpl; lia.
    - rewrite Z.eqb_refl. simpl in *. lia. }
  destruct He as (He1 & He2 & He3). rewrite Hw2.
  destruct (quota <=? e.2) eqn:Hfull; zbool; simpl.
  - split; simpl; try done.
    + intros s' w k [[_ Heq]|[_ Hs']]%lookup_insert_Some; [rewrite Heq in *; simpl in *; lia|by apply Hb in Hs'].
    + intros s'. fold W. destruct (decide (s' = s)) as [->|Hne].
      * rewrite lookup_insert_eq, He3. destruct e as [w k]. simpl in *. by rewrite He1, Z.eqb_refl.
      * rewrite lookup_insert_ne by done. apply Hc.
  - assert (wrap32 (e.2 + 1) = e.2 + 1) as -> by (apply wrap32_id; unfold is_u32; lia).
    assert (Hme : t / window * window = W) by done. split; simpl; try done.
    + constructor; [simpl; lia|done].
    + intros s' w k [[_ [= <- <-]]|[_ Hs']]%lookup_insert_Some; [rewrite He1; fold W; lia|by apply Hb in Hs'].
    + intros s'. fold W. rewrite granted_cons, Hme. destruct (decide (s' = s)) as [->|Hne].
      * rewrite lookup_insert_eq, He3, bool_decide_true, He1, Z.eqb_refl by done. lia.
      * rewrite lookup_insert_ne, bool_decide_false by naive_solver. apply Hc.
    + intros s' w. rewrite granted_cons, Hme. case_bool_decide as Hx; [|apply Hq].
      destruct Hx as [-> <-]. rewrite He3. lia.
Qed.

#[export] Instance fixed_window_quota window quota : QuotaLimiter FixedWindow window quota.
Proof.
  refine {| qinv := fw_inv window quota |}.
  - intros l t h s now Hi Ht _. apply (fw_tick _ _ _ _ _ now) in Hi; [|done].
    pose proof (fw_retain _ _ _ _ _ Hi) as Hr. pose proof Hi as [(Hw1 & _) _ _ _ _].
    unfold allow, fixed_window_allow. rewrite Hw1. fold (wstart window now).
    destruct (_ && _); [|by apply fw_take_slot].
    destruct (_ <=? _); [exact Hr|by apply fw_take_slot].
  - intros l t h now Hi Ht _. by eapply fw_tick.
  - intros l t h s w Hi. by eapply fw_quota.
Defined.

Lemma fixed_window_new_inv window quota l t :
  fixed_window_new window quota = Ok l -> quota <= U32_MAX -> fw_inv window quota l t [].
Proof.
  unfold fixed_window_new. destruct (_ && _) eqn:Hc; [|done]. zbool. intros [= <-] Hq. split; simpl.
  - lia.
  - constructor.
  - intros s w k. by rewrite lookup_empty.
  - intros s. by rewrite lookup_empty.
  - intros s w. rewrite granted_nil. lia.
Qed.

Inductive RoutingDecision :=
| Accept (e : ParsedEnvelope)
| RejectMalformed
| RejectUnsupportedKind (k : EnvelopeKind)
| RejectReplay
| RejectRateLimit
| RejectParserPanic (kind : string).

Record Router (L : Type) := {
  replay : ReplayGuard;
  rate_limiter : L;
  accept_welcomes : bool;
  accept_key_packages : bool;
  accept_group_info : bool
}.
Arguments replay {_} _.
Arguments rate_limiter {_} _.
Arguments accept_welcomes {_} _.
Arguments accept_key_packages {_} _.
Arguments accept_group_info {_} _.

Section Router_.
(** SHA-256 and [MlsMessageIn::tls_deserialize_exact], which may panic. *)
Context (sha256 : list byte -> list byte).
Context (tls_deserialize_exact : list byte -> res unit MlsMessageIn).
Context {L : Type} `{RateLimiter L}.

Definition compute_hash (bytes : list byte) : list byte := sha256 bytes.

Definition parse_mls_envelope (bytes : list byte) : res EnvelopeError ParsedEnvelope :=
  let wire_len := len bytes in
  reject wire_len <? MLS_MESSAGE_MIN_BYTES with Malformed ;;
  let message_hash := compute_hash bytes in
  let? message :=
    match tls_deserialize_exact bytes with      (* under catch_unwind *)
    | Ok msg => Ok msg
    | Err _ => Err Malformed
    | Panic => Err (ParserPanic "MlsMessageIn::tls_deserialize_exact panicked")
    end in
  let kind := wire_format message in
  let '(group_id, epoch) :=
    match message with
    | MlsPrivate g e => (Some g, Some e)
    | MlsPublic g e => (Some g, Some e)
    | MlsWelcome | MlsGroupInfo | MlsKeyPackage => (None, None)
    end in
  Ok {| ekind := kind; group_id := group_id; env_epoch := epoch;
        wire_len := wire_len; message_hash := message_hash |}.

Definition router_new (replay : ReplayGuard) (rl : L) : Router L :=
  {| replay := replay; rate_limiter := rl; accept_welcomes := false;
     accept_key_packages := false; accept_group_info := false |}.
Definition with_welcomes (r : Router L) : Router L :=
  {| replay := replay r; rate_limiter := rate_limiter r; accept_welcomes := true;
     accept_key_packages := accept_key_packages r; accept_group_info := accept_group_info r |}.
Definition with_key_packages (r : Router L) : Router L :=
  {| replay := replay r; rate_limiter := rate_limiter r; accept_welcomes := accept_welcomes r;
     accept_key_packages := true; accept_group_info := accept_group_info r |}.
Definition with_group_info (r : Router L) : Router L :=
  {| replay := replay r; rate_limiter := rate_limiter r; accept_welcomes := accept_welcomes r;
     accept_key_packages := accept_key_packages r; accept_group_info := true |}.

Definition set_parts (r : Router L) (g : ReplayGuard) (rl : L) : Router L :=
  {| replay := g; rate_limiter := rl; accept_welcomes := accept_welcomes r;
     accept_key_packages := accept_key_packages r; accept_group_info := accept_group_info r |}.

Definition kind_allowed (r : Router L) (k : EnvelopeKind) : bool :=
  match k with
  | PrivateMessage | PublicMessage => true
  | Welcome => accept_welcomes r
  | KeyPackage => accept_key_packages r
  | GroupInfo => accept_group_info r
  end.

Definition dispatch (bytes sender_id : list byte) (now_unix : Z) (r : Router L)
  : RoutingDecision * Router L :=
  match parse_mls_envelope bytes with
  | Err Malformed => (RejectMalformed, r)
  | Err UnsupportedKind => (RejectUnsupportedKind PrivateMessage, r)
  | Err (ParserPanic kind) => (RejectParserPanic kind, r)
  | Panic => (RejectMalformed, r)               (* not reached: parse_no_panic *)
  | Ok envelope =>
      if negb (kind_allowed r (ekind envelope)) then (RejectUnsupportedKind (ekind envelope), r)
      else
        let '(dup, g) := is_duplicate (message_hash envelope) now_unix (replay r) in
        if dup then (RejectReplay, set_parts r g (rate_limiter r))
        else
          let '(ok, rl) := allow sender_id now_unix (rate_limiter r) in
          if negb ok then (RejectRateLimit, set_parts r g rl)
          else (Accept envelope, set_parts r (record (message_hash envelope) now_unix g) rl)
  end.

(** A run of the router over requests (bytes, sender, time): the log of decisions. *)
Fixpoint run (r : Router L) (ms : list (list byte * list byte * Z))
  : list (Z * list byte * RoutingDecision) * Router L :=
  match ms with
  | [] => ([], r)
  | (b, s, t) :: ms =>
      let '(d, r1) := dispatch b s t r in
      let '(log, r2) := run r1 ms in ((t, s, d) :: log, r2)
  end.

(** ** The router over time *)

Lemma parse_no_panic bytes : parse_mls_envelope bytes <> Panic.
Proof.
  unfold parse_mls_envelope. destruct (_ <? _); simpl; [done|].
  destruct (tls_deserialize_exact bytes) as [[]| |]; done.
Qed.

Lemma parse_hash bytes e : parse_mls_envelope bytes = Ok e -> message_hash e = sha256 bytes.
Proof.
  unfold parse_mls_envelope. intros Hp. res_inv Hp. destruct x; by injection Hp as <-.
Qed.

(** Requests arrive with times that do not decrease. *)
Fixpoint times_from (t : Z) (ms : list (list byte * list byte * Z)) : Prop :=
  match ms with
  | [] => True
  | (_, _, now) :: ms => t <= now /\ times_from now ms
  end.

Lemma times_from_le t t' ms : t' <= t -> times_from t ms -> times_from t' ms.
Proof. destruct ms as [|[[b s] now] ms]; simpl; [done|]. intros ? []. split; [lia|done]. Qed.

(** The (time, hash) pairs of the accepted messages of a log. *)
Definition accepted (log : list (Z * list byte * RoutingDecision)) : list (Z * list byte) :=
  omap (fun x => match x with (t, _, Accept e) => Some (t, message_hash e) | _ => None end) log.

Lemma accepted_cons t s d log :
  accepted ((t, s, d) :: log) =
    match d with Accept e => [(t, message_hash e)] | _ => [] end ++ accepted log.
Proof. by destruct d. Qed.

(** One dispatch, seen from the replay history: the history grows exactly by an
    accepted message, which was not in the window. *)
Lemma dispatch_guard r t h b s now d r' :
  guard_at (replay r) t h -> 0 <= rg_window (replay r) -> 0 <= t <= now ->
  dispatch b s now r = (d, r') ->
  rg_window (replay r') = rg_window (replay r) /\
  match d with
  | Accept e => message_hash e = sha256 b /\ guard_at (replay r') now (h ++ [(now, message_hash e)]) /\
      forall ts, (ts, message_hash e) ∈ h -> ts + rg_window (replay r) < now
  | RejectReplay => guard_at (replay r') now h
  | RejectRateLimit => guard_at (replay r') now h
  | _ => r' = r
  end.
Proof.
  intros Hg Hw Ht Hd. unfold dispatch in Hd.
  destruct (parse_mls_envelope b) as [e|[]|] eqn:Hp; simplify_eq; try done.
  destruct (negb (kind_allowed r (ekind e))); simplify_eq; [done|].
  unfold is_duplicate in Hd.
  destruct (evict_expired_at _ _ _ now Hg ltac:(lia)) as [Hg' Hw']. rewrite <- Hw' in Hw.
  set (g := evict_expired now (replay r)) in *.
  destruct (bool_decide (message_hash e ∈ active g)) eqn:Hdup; zbool; simplify_eq/=; [done|].
  destruct (allow s now (rate_limiter r)) as [ok rl]. destruct ok; simplify_eq/=; [|done].
  destruct (record_at g now h (message_hash e) Hg' Hdup ltac:(lia) Hw) as [Hr Hrw].
  split; [by rewrite Hrw|]. split_and!; [by apply parse_hash|done|]. intros ts Hin.
  destruct (decide (ts + rg_window (replay r) < now)) as [|Hge]; [done|]. exfalso. apply Hdup.
  apply (guard_at_active _ _ _ _ Hg'). exists ts. split; [done|].
  pose proof (ga_past _ _ _ Hg) as Hpast. rewrite Forall_forall in Hpast. apply Hpast in Hin. simpl in Hin.
  unfold sat_sub. lia.
Qed.

(** Later accepted messages are out of the window of every earlier one. *)
Lemma run_accepted_spaced ms r t h :
  guard_at (replay r) t h -> 0 <= rg_window (replay r) -> 0 <= t -> times_from t ms ->
  let acc := accepted (run r ms).1 in
  (forall t1 t2 x, (t1, x) ∈ h -> (t2, x) ∈ acc -> t1 + rg_window (replay r) < t2) /\
  (forall i j t1 t2 x, (i < j)%nat -> acc !! i = Some (t1, x) -> acc !! j = Some (t2, x) ->
     t1 + rg_window (replay r) < t2).
Proof.
  revert r t h. induction ms as [|[[b s] now] ms IH]; intros r t h Hg Hw Ht Hm; cbn [run].
  { split; [intros ??? _ Hin; by apply elem_of_nil in Hin|]. done. }
  destruct Hm as [Hle Hm]. destruct (dispatch b s now r) as [d r1] eqn:Hd.
  destruct (dispatch_guard _ _ _ _ _ _ _ _ Hg Hw (conj Ht Hle) Hd) as [Hwin Hcase].
  destruct (run r1 ms) as [log r2] eqn:Hr. cbn [fst]. rewrite accepted_cons.
  assert (Hgen : forall t' h', guard_at (replay r1) t' h' -> 0 <= t' <= now ->
    (forall t1 t2 x, (t1, x) ∈ h' -> (t2, x) ∈ accepted log -> t1 + rg_window (replay r) < t2) /\
    (forall i j t1 t2 x, (i < j)%nat -> accepted log !! i = Some (t1, x) ->
       accepted log !! j = Some (t2, x) -> t1 + rg_window (replay r) < t2)).
  { intros t' h' Hg' Ht'. specialize (IH r1 t' h' Hg'). rewrite Hr, Hwin in IH. simpl in IH. apply IH; try lia.
    eapply times_from_le; [|exact Hm]. lia. }
  destruct d as [e| |k| | |k]; simpl;
    try (rewrite Hcase in Hgen; apply (Hgen t h); [done|lia]); try (apply (Hgen now h); [done|lia]).
  destruct Hcase as (_ & Hg' & Hnew). destruct (Hgen _ _ Hg' ltac:(lia)) as [H1 H2]. split.
  - intros t1 t2 x Hin [[= -> ->]|Hin2]%elem_of_cons; [by apply Hnew|].
    eapply H1; [|done]. apply elem_of_app. by left.
  - intros [|i] [|j] t1 t2 x Hij Hi Hj; try lia; simpl in *.
    + simplify_eq. eapply H1; [apply elem_of_app; right; by left|]. by eapply list_elem_of_lookup_2.
    + eapply (H2 i j); [lia|done..].
Qed.

(** Requests of one sender accepted in the window that starts at [w]. *)
Definition accepted_in (window : Z) (s : list byte) (w : Z)
    (log : list (Z * list byte * RoutingDecision)) : Z :=
  granted window s w
    (omap (fun x => match x with (t, s', Accept _) => Some (s', t) | _ => None end) log).

Lemma accepted_in_cons window s w t s' e log :
  accepted_in window s w ((t, s', Accept e) :: log) =
    (if bool_decide (s' = s /\ t / window * window = w) then 1 else 0) + accepted_in window s w log.
Proof. unfold accepted_in. cbn [omap list_omap]. apply granted_cons. Qed.

Lemma dispatch_limiter b s now r d r' :
  dispatch b s now r = (d, r') ->
  match d with
  | Accept _ => (allow s now (rate_limiter r)) = (true, rate_limiter r')
  | RejectRateLimit => (allow s now (rate_limiter r)) = (false, rate_limiter r')
  | _ => rate_limiter r' = rate_limiter r
  end.
Proof.
  unfold dispatch. intros Hd. destruct (parse_mls_envelope b) as [e|[]|]; simplify_eq; try done.
  destruct (negb _); simplify_eq; [done|]. destruct (is_duplicate _ _ _) as [dup g].
  destruct dup; simplify_eq; [done|]. destruct (allow s now (rate_limiter r)) as [[] rl] eqn:Ha; simplify_eq/=; done.
Qed.

Lemma run_quota window quota `{!QuotaLimiter L window quota} ms r t h s w :
  qinv (rate_limiter r) t h -> 0 <= t -> times_from t ms ->
  exists h', granted window s w h' <= quota /\
    granted window s w h' = accepted_in window s w (run r ms).1 + granted window s w h.
Proof.
  revert r t h. induction ms as [|[[b s'] now] ms IH]; intros r t h Hi Ht Hm.
  { exists h. split; [by eapply qinv_quota|]. done. }
  destruct Hm as [Hle Hm]. cbn [run]. destruct (dispatch b s' now r) as [d r1] eqn:Hd.
  pose proof (dispatch_limiter _ _ _ _ _ _ Hd) as Hl.
  pose proof (qinv_allow _ _ _ s' now Hi Hle Ht) as Hallow.
  pose proof (qinv_tick _ _ _ now Hi Hle Ht) as Htick.
  destruct (run r1 ms) as [log r2] eqn:Hr. cbn [fst].
  assert (Hgen : forall h', qinv (rate_limiter r1) now h' -> exists h'',
    granted window s w h'' <= quota /\
    granted window s w h'' = accepted_in window s w log + granted window s w h').
  { intros h' Hi'. specialize (IH r1 now h' Hi'). rewrite Hr in IH. apply IH; [lia|done]. }
  destruct d as [e| |k| | |k]; try (apply Hgen; by rewrite Hl).
  - rewrite Hl in Hallow. simpl in Hallow. destruct (Hgen _ Hallow) as (h' & H1 & H2).
    exists h'. split; [done|]. rewrite H2, accepted_in_cons, granted_cons. lia.
  - rewrite Hl in Hallow. simpl in Hallow. by apply Hgen.
Qed.

(** ** Theorems *)

(** C23. Replay safety of the router: starting from an empty guard, under any rate
    limiter, any senders and any requests with times that do not decrease, two
    acceptances of the same message hash are more than [window_secs] apart. *)
Theorem router_rejects_replays (window : Z) (rl : L) (ms : list (list byte * list byte * Z))
    (i j : nat) (t1 t2 : Z) (x : list byte)
    (Hw : 0 <= window) (Hms : times_from 0 ms) (Hij : (i < j)%nat)
    (Hi : accepted (run (router_new (replay_new window) rl) ms).1 !! i = Some (t1, x))
    (Hj : accepted (run (router_new (replay_new window) rl) ms).1 !! j = Some (t2, x)) :
  t1 + window < t2.
Proof.
  destruct (run_accepted_spaced ms (router_new (replay_new window) rl) 0 []) as [_ H2]; try done.
  - apply replay_new_at.
  - by apply (H2 i j t1 t2 x).
Qed.

(** Quota of the router: with any limiter that implements the quota interface,
    no sender gets more than [quota] messages accepted inside one aligned window. *)
Theorem router_quota (window quota : Z) `{!QuotaLimiter L window quota} (g : ReplayGuard) (rl : L)
    (ms : list (list byte * list byte * Z)) (s : list byte) (w : Z)
    (Hl : qinv rl 0 []) (Hms : times_from 0 ms) :
  accepted_in window s w (run (router_new g rl) ms).1 <= quota.
Proof.
  destruct (run_quota window quota ms (router_new g rl) 0 [] s w) as (h & H1 & H2); [done|lia|done|].
  rewrite granted_nil in H2. lia.
Qed.

(** Rejections leave no trace beyond eviction: a malformed, unsupported or
    panicking message changes nothing; a replay is refused without charging the
    sender's quota; a rate-limited message is not recorded, so its retry is not taken
    for a replay. *)
Theorem dispatch_rejections (r : Router L) (t : Z) (h : list (Z * list byte))
    (b s : list byte) (now : Z)
    (Hg : guard_at (replay r) t h) (Hw : 0 <= rg_window (replay r)) (Ht : 0 <= t <= now) :
  match dispatch b s now r with
  | (Accept e, r') => guard_at (replay r') now (h ++ [(now, message_hash e)]) /\
      (allow s now (rate_limiter r)).1 = true
  | (RejectReplay, r') => rate_limiter r' = rate_limiter r /\ guard_at (replay r') now h
  | (RejectRateLimit, r') => (allow s now (rate_limiter r)).1 = false /\ guard_at (replay r') now h
  | (_, r') => r' = r
  end.
Proof.
  destruct (dispatch b s now r) as [d r'] eqn:Hd.
  destruct (dispatch_guard _ _ _ _ _ _ _ _ Hg Hw Ht Hd) as [_ Hc].
  pose proof (dispatch_limiter _ _ _ _ _ _ Hd) as Hl.
  destruct d; try done.
  - split; [apply Hc|by rewrite Hl].
  - split; [by rewrite Hl|done].
Qed.

End Router_.

(** The guard is exact: under non-decreasing times [check_and_record] reports a
    duplicate if and only if the hash was recorded at most [window_secs] seconds ago,
    and otherwise records it. *)
Theorem check_and_record_exact (g : ReplayGuard) (t : Z) (h : list (Z * list byte))
    (hash : list byte) (now : Z)
    (Hg : guard_at g t h) (Hw : 0 <= rg_window g) (Ht : 0 <= t <= now) :
  let dup := exists ts, (ts, hash) ∈ h /\ now - rg_window g <= ts in
  match check_and_record hash now g with
  | (RDuplicate, g') => dup /\ guard_at g' now h
  | (RAccept, g') => ~ dup /\ guard_at g' now (h ++ [(now, hash)])
  end.
Proof.
  destruct (evict_expired_at _ _ _ now Hg ltac:(lia)) as [Hg' Hw'].
  pose proof (guard_at_active _ _ _ hash Hg') as Hact. rewrite Hw' in Hact.
  assert (Heq : hash ∈ active (evict_expired now g) <-> exists ts, (ts, hash) ∈ h /\ now - rg_window g <= ts).
  { rewrite Hact. pose proof (ga_past _ _ _ Hg) as Hp. rewrite Forall_forall in Hp.
    split; intros (ts & Hin & Hc); exists ts; split; try done; apply Hp in Hin; simpl in Hin; unfold sat_sub in *; lia. }
  unfold check_and_record, is_duplicate.
  destruct (bool_decide _) eqn:Hd; zbool; rewrite <- Heq; [done|]. split; [done|].
  assert (Hev : evict_expired now (evict_expired now g) = evict_expired now g) by (by eapply evict_idempotent).
  apply record_at; [done|done|lia|lia].
Qed.

(** Memory bound of the limiter: whatever senders and times it is called with,
    [allow] never lets the table exceed [MAX_TRACKED_SENDERS] entries. *)
Lemma fixed_window_capped (l : FixedWindow) (s : list byte) (now : Z)
    (Hl : active_senders l <= MAX_TRACKED_SENDERS) :
  active_senders (allow s now l).2 <= MAX_TRACKED_SENDERS.
Proof.
  assert (Hslot : forall l w, active_senders l <= MAX_TRACKED_SENDERS ->
    (buckets l !! s = None -> active_senders l < MAX_TRACKED_SENDERS) ->
    active_senders (take_slot s w l).2 <= MAX_TRACKED_SENDERS).
  { intros l0 w H1 H2. unfold take_slot, active_senders in *.
    assert (forall e, Z.of_nat (size (<[s:=e]> (buckets l0))) <= MAX_TRACKED_SENDERS).
    { intros e. rewrite map_size_insert. destruct (buckets l0 !! s); [done|]. specialize (H2 eq_refl). lia. }
    cbv zeta. destruct (per_window l0 <=? _); simpl; auto. }
  unfold allow, fixed_window_allow. destruct (_ && _) eqn:Hc.
  - destruct (MAX_TRACKED_SENDERS <=? active_senders (with_buckets _ _)) eqn:Hfull; zbool; simpl.
    + unfold active_senders in *. simpl in *.
      etransitivity; [|exact Hl]. apply Nat2Z.inj_le, map_size_filter.
    + apply Hslot; [lia|]. intros _. lia.
  - apply Hslot; [done|]. intros Hn. rewrite bool_decide_true in Hc by done. simpl in Hc. zbool. lia.
Qed.

(** ** Witnesses: a toy parser that reads the first byte as the message kind *)
Definition toy_hash (b : list byte) : list byte := take 32 b.
Definition toy_mls (b : list byte) : res unit MlsMessageIn :=
  match b with
  | Byte.x01 :: _ => Ok (MlsPrivate [Byte.x05] 7)
  | Byte.x02 :: _ => Panic
  | _ => Err tt
  end.
Definition toy_msg (n : byte) : list byte := Byte.x01 :: replicate 9 n.
Definition toy_limiter : FixedWindow := {| window_secs := 60; per_window := 2; buckets := ∅ |}.
Definition toy_run : list (list byte * list byte * Z) :=
  [(toy_msg Byte.x07, [], 10); (toy_msg Byte.x07, [], 50); (toy_msg Byte.x07, [], 71); (toy_msg Byte.x08, [], 80);
   (toy_msg Byte.x09, [], 81)].

Lemma router_rejects_replays_witness :
  accepted (run toy_hash toy_mls (router_new (replay_new 60) toy_limiter) toy_run).1 =
    [(10, toy_msg Byte.x07); (71, toy_msg Byte.x07); (80, toy_msg Byte.x08)] /\ 10 + 60 < 71.
Proof.
  split; [vm_compute; reflexivity|].
  apply (router_rejects_replays toy_hash toy_mls 60 toy_limiter toy_run 0 1 10 71 (toy_msg Byte.x07));
    [lia | vm_compute; split_and!; discriminate || exact I | lia | vm_compute; reflexivity | vm_compute; reflexivity].
Defined.

Lemma router_quota_witness :
  accepted_in 60 [] 60 (run toy_hash toy_mls (router_new (replay_new 60) toy_limiter) toy_run).1 <= 2.
Proof.
  apply (router_quota toy_hash toy_mls 60 2 (replay_new 60) toy_limiter toy_run [] 60).
  - apply (fixed_window_new_inv 60 2); [reflexivity | vm_compute; discriminate].
  - vm_compute; split_and!; discriminate || exact I.
Defined.

Lemma dispatch_rejections_witness :
  match dispatch toy_hash toy_mls (toy_msg Byte.x07) [] 10 (router_new (replay_new 60) toy_limiter) with
  | (Accept e, r') => guard_at (replay r') 10 ([] ++ [(10, message_hash e)]) /\
      (allow [] 10 toy_limiter).1 = true
  | (RejectReplay, r') => rate_limiter r' = toy_limiter /\ guard_at (replay r') 10 []
  | (RejectRateLimit, r') => (allow [] 10 toy_limiter).1 = false /\ guard_at (replay r') 10 []
  | (_, r') => r' = router_new (replay_new 60) toy_limiter
  end.
Proof.
  apply (dispatch_rejections toy_hash toy_mls (router_new (replay_new 60) toy_limiter) 0 [] (toy_msg Byte.x07) [] 10);
    [apply replay_new_at | vm_compute; discriminate | lia].
Defined.

Lemma check_and_record_exact_witness :
  let dup := exists ts, (ts, [Byte.x01]) ∈ ([] : list (Z * list byte)) /\ 5 - 60 <= ts in
  match check_and_record [Byte.x01] 5 (replay_new 60) with
  | (RDuplicate, g') => dup /\ guard_at g' 5 []
  | (RAccept, g') => ~ dup /\ guard_at g' 5 ([] ++ [(5, [Byte.x01])])
  end.
Proof.
  apply (check_and_record_exact (replay_new 60) 0 [] [Byte.x01] 5);
    [apply replay_new_at | vm_compute; discriminate | lia].
Defined.

End Postman.
