(* ===== verification/KtWitness.v ===== *)
(** * Key transparency: witnesses and observations
    ([crates/umbrella-kt/src/witness.rs], [witness_state.rs], [observation.rs])

    Witnesses co-sign epoch roots of the key-transparency log.  The file models the
    witness set, the signed payload and the threshold check, the ledger a witness
    keeps against signing two heads for one epoch, and the observations clients
    exchange to detect a log that shows different heads to different clients.
    Ed25519 is a parameter. *)
From S2P Require Import Prelude Bytes Crypto KtError.

Module KtWitness.

Definition NODE_HASH_LEN : Z := 32.
Definition WITNESS_VERSION : byte := Byte.x01.
Definition WITNESS_DOMAIN_SEP : list byte := bytes_of_string "umbrellax-kt-witness-v1".

(** ** Witness set *)
Definition WitnessPublic : Type := list byte.
Definition WitnessSet : Type := list WitnessPublic.

Definition ws_new : WitnessSet := [].
Definition ws_contains (w : WitnessPublic) (s : WitnessSet) : bool := bool_decide (w ∈ s).
Definition ws_add (w : WitnessPublic) (s : WitnessSet) : WitnessSet :=
  if negb (ws_contains w s) then s ++ [w] else s.

Record WitnessSignature := { witness : WitnessPublic; signature : list byte }.

Record SignedEpochRoot := {
  epoch : Z;
  root : list byte;
  log_size : Z;
  timestamp_unix_millis : Z;
  signatures : list WitnessSignature
}.

#[global] Instance WitnessSignature_eq_dec : EqDecision WitnessSignature.
Proof. solve_decision. Defined.
#[global] Instance SignedEpochRoot_eq_dec : EqDecision SignedEpochRoot.
Proof. solve_decision. Defined.

Definition canonical_sign_payload (epoch : Z) (root : list byte) (log_size ts : Z) : list byte :=
  WITNESS_DOMAIN_SEP ++ [WITNESS_VERSION] ++ to_be 8 epoch ++ root ++ to_be 8 log_size ++ to_be 8 ts.

Section Verify.
Context `{Ed25519}.

(** One round of the loop over the signatures. *)
Definition count_step (ws : WitnessSet) (payload : list byte) (counted : list WitnessPublic)
    (sig : WitnessSignature) : list WitnessPublic :=
  if negb (ws_contains (witness sig) ws) then counted
  else if bool_decide (witness sig ∈ counted) then counted
  else if negb (vk_valid (witness sig)) then counted
  else if ed_verify (witness sig) payload (signature sig) then counted ++ [witness sig]
  else counted.

Definition payload_of (s : SignedEpochRoot) : list byte :=
  canonical_sign_payload (epoch s) (root s) (log_size s) (timestamp_unix_millis s).

Definition verify_signed_epoch (signed : SignedEpochRoot) (witness_set : WitnessSet) (threshold : Z)
  : res KtError unit :=
  reject threshold =? 0 with InsufficientValidSignatures 0 threshold ;;
  let counted := fold_left (count_step witness_set (payload_of signed)) (signatures signed) [] in
  let valid := len counted in
  reject valid <? threshold with InsufficientValidSignatures valid threshold ;;
  Ok tt.

End Verify.

(** ** The witness's own ledger *)
Record WitnessLedgerEntry := { le_log_id : list byte; le_epoch : Z; le_root : list byte; le_log_size : Z }.
Inductive WitnessSigningDecision := FirstSignature | RepeatedSameHead.
Definition WitnessSigningLedger : Type := list WitnessLedgerEntry.

(** The loop over the entries: the first one for this log and epoch decides. *)
Fixpoint ledger_scan (log_id : list byte) (signed : SignedEpochRoot) (l : WitnessSigningLedger)
  : option (res KtError WitnessSigningDecision) :=
  match l with
  | [] => None
  | e :: l =>
      if bool_decide (le_log_id e = log_id) && (le_epoch e =? epoch signed) then
        if bool_decide (le_root e = root signed) && (le_log_size e =? log_size signed)
        then Some (Ok RepeatedSameHead)
        else Some (Err (InvalidEntry "witness equivocation attempt"))
      else ledger_scan log_id signed l
  end.

Definition record_or_reject (log_id : list byte) (signed : SignedEpochRoot)
  : st WitnessSigningLedger KtError WitnessSigningDecision := fun l =>
  match ledger_scan log_id signed l with
  | Some r => (r, l)
  | None => (Ok FirstSignature,
             l ++ [{| le_log_id := log_id; le_epoch := epoch signed; le_root := root signed;
                      le_log_size := log_size signed |}])
  end.

(** ** Observations *)
Definition KT_OBSERVATION_VERSION : Z := 1.
Definition MAX_OBSERVATION_SIGNATURES : Z := 64.

Record KtObservation := {
  version : Z;
  log_id : list byte;
  previous_root : list byte;
  signed : SignedEpochRoot
}.
#[global] Instance KtObservation_eq_dec : EqDecision KtObservation.
Proof. solve_decision. Defined.

Definition obs_new (log_id previous_root : list byte) (signed : SignedEpochRoot) : KtObservation :=
  {| version := KT_OBSERVATION_VERSION; log_id := log_id; previous_root := previous_root; signed := signed |}.

Definition same_log_epoch (a b : KtObservation) : bool :=
  bool_decide (log_id a = log_id b) && (epoch (signed a) =? epoch (signed b)).

Definition conflicts_with (a b : KtObservation) : bool :=
  same_log_epoch a b &&
  (negb (bool_decide (previous_root a = previous_root b)) ||
   negb (bool_decide (root (signed a) = root (signed b))) ||
   negb (log_size (signed a) =? log_size (signed b))).

Definition encode_sig (sig : WitnessSignature) : list byte := witness sig ++ signature sig.

Definition encode_public (o : KtObservation) : list byte :=
  let count := Z.min (len (signatures (signed o))) U16_MAX in
  [as_u8 (version o)] ++ log_id o ++ previous_root o ++ to_be 8 (epoch (signed o)) ++
  root (signed o) ++ to_be 8 (log_size (signed o)) ++ to_be 8 (timestamp_unix_millis (signed o)) ++
  to_be 2 count ++ concat (encode_sig <$> signatures (signed o)).

(** [take::<N>(bytes, &mut offset)]: the bytes and the new offset. *)
Definition take_n (n : Z) (bytes : list byte) (offset : Z) : res KtError (list byte * Z) :=
  let fin := offset + n in
  reject U64_MAX <? fin with InvalidObservation "observation offset overflow" ;;
  reject len bytes <? fin with InvalidObservation "truncated observation" ;;
  let? x := slice offset fin bytes in
  Ok (x, fin).

Fixpoint take_sigs (n : nat) (bytes : list byte) (offset : Z)
  : res KtError (list WitnessSignature * Z) :=
  match n with
  | O => Ok ([], offset)
  | S n =>
      let? (w, offset) := take_n PUBLIC_KEY_LEN bytes offset in
      let? (sg, offset) := take_n SIGNATURE_LEN bytes offset in
      let? (sigs, offset) := take_sigs n bytes offset in
      Ok ({| witness := w; signature := sg |} :: sigs, offset)
  end.

Definition decode_public (bytes : list byte) : res KtError KtObservation :=
  let? (v, offset) := take_n 1 bytes 0 in
  let? vb := index 0 v in
  reject negb (u8 vb =? KT_OBSERVATION_VERSION) with InvalidObservation "unsupported observation version" ;;
  let? (log_id, offset) := take_n 32 bytes offset in
  let? (previous_root, offset) := take_n NODE_HASH_LEN bytes offset in
  let? (epoch_b, offset) := take_n 8 bytes offset in
  let? (root, offset) := take_n NODE_HASH_LEN bytes offset in
  let? (log_size_b, offset) := take_n 8 bytes offset in
  let? (ts_b, offset) := take_n 8 bytes offset in
  let? (count_b, offset) := take_n 2 bytes offset in
  let signature_count := from_be count_b in
  reject MAX_OBSERVATION_SIGNATURES <? signature_count
    with InvalidObservation "too many observation signatures" ;;
  let? (signatures, offset) := take_sigs (Z.to_nat signature_count) bytes offset in
  reject negb (offset =? len bytes) with InvalidObservation "trailing observation bytes" ;;
  Ok {| version := u8 vb; log_id := log_id; previous_root := previous_root;
        signed := {| epoch := from_be epoch_b; root := root; log_size := from_be log_size_b;
                     timestamp_unix_millis := from_be ts_b; signatures := signatures |} |}.

Record EquivocationEvidence := { first : KtObservation; second : KtObservation }.

Inductive KtTrustDecision :=
| Accepted
| NeedsObservation
| EquivocationDetected (e : EquivocationEvidence).

Record KtObservationHistory := { h_log_id : option (list byte); last_obs : option KtObservation }.
Definition history_new : KtObservationHistory := {| h_log_id := None; last_obs := None |}.

Section Observe.
Context `{Ed25519}.

Definition validate (o : KtObservation) (ws : WitnessSet) (threshold : Z) : res KtError unit :=
  reject negb (version o =? KT_OBSERVATION_VERSION)
    with InvalidObservation "unsupported observation version" ;;
  verify_signed_epoch (signed o) ws threshold.

Definition try_new (first second : KtObservation) (ws : WitnessSet) (threshold : Z)
  : res KtError EquivocationEvidence :=
  let? _ := validate first ws threshold in
  let? _ := validate second ws threshold in
  reject negb (bool_decide (log_id first = log_id second)) with InvalidObservation "different log id" ;;
  reject negb (epoch (signed first) =? epoch (signed second)) with InvalidObservation "different epoch" ;;
  reject negb (conflicts_with first second) with InvalidObservation "observations do not conflict" ;;
  Ok {| first := first; second := second |}.

Definition evidence_verify (e : EquivocationEvidence) (ws : WitnessSet) (threshold : Z) : res KtError unit :=
  rmap (fun _ => tt) (try_new (first e) (second e) ws threshold).

Definition compare_observations (first second : KtObservation) (ws : WitnessSet) (threshold : Z)
  : res KtError KtTrustDecision :=
  let? _ := validate first ws threshold in
  let? _ := validate second ws threshold in
  reject negb (bool_decide (log_id first = log_id second)) with InvalidObservation "different log id" ;;
  if conflicts_with first second then
    let? e := try_new first second ws threshold in Ok (EquivocationDetected e)
  else if same_log_epoch first second then Ok Accepted
  else Ok NeedsObservation.

Definition set_last (o : KtObservation) (h : KtObservationHistory) : KtObservationHistory :=
  {| h_log_id := h_log_id h; last_obs := Some o |}.

(** The part of [observe] after the log id is fixed. *)
Definition observe_body (o : KtObservation) (ws : WitnessSet) (threshold : Z)
  : st KtObservationHistory KtError KtTrustDecision := fun h =>
  match last_obs h with
  | None => (Ok NeedsObservation, set_last o h)
  | Some last =>
      if epoch (signed o) <? epoch (signed last) then (Err (InvalidEntry "epoch regression"), h)
      else if epoch (signed o) =? epoch (signed last) then
        if conflicts_with o last then
          (let? e := try_new last o ws threshold in Ok (EquivocationDetected e), h)
        else (Ok Accepted, set_last o h)
      else if negb (bool_decide (previous_root o = root (signed last)))
      then (Err (InvalidEntry "epoch chain broken"), h)
      else (Ok Accepted, set_last o h)
  end.

Definition observe (o : KtObservation) (ws : WitnessSet) (threshold : Z)
  : st KtObservationHistory KtError KtTrustDecision :=
  let! _ := slift (validate o ws threshold) in
  let! h := sget in
  let! _ := match h_log_id h with
            | Some existing =>
                if negb (bool_decide (existing = log_id o))
                then slift (Err (InvalidObservation "different log id")) else sret tt
            | None => sput {| h_log_id := Some (log_id o); last_obs := last_obs h |}
            end in
  observe_body o ws threshold.

(** ** Threshold verification *)

(** A witness of the set endorses a signed root: one of its signatures verifies. *)
Definition endorses (ws : WitnessSet) (s : SignedEpochRoot) (w : WitnessPublic) : Prop :=
  w ∈ ws /\ exists sig, sig ∈ signatures s /\ witness sig = w /\ sig_ok w (payload_of s) (signature sig) = true.

Lemma count_loop_spec ws payload sigs acc :
  NoDup acc ->
  let c := fold_left (count_step ws payload) sigs acc in
  NoDup c /\ forall w, w ∈ c <-> w ∈ acc \/ (w ∈ ws /\ exists sig, sig ∈ sigs /\ witness sig = w /\
                                          sig_ok w payload (signature sig) = true).
Proof.
  revert acc. induction sigs as [|sig sigs IH]; intros acc Hn; simpl.
  { split; [done|]. intros w. split; [auto|]. intros [?|(_ & sig & Hin & _)]; [done|]. by apply elem_of_nil in Hin. }
  assert (Hstep : NoDup (count_step ws payload acc sig) /\ forall w, w ∈ count_step ws payload acc sig <->
    w ∈ acc \/ (w ∈ ws /\ witness sig = w /\ sig_ok w payload (signature sig) = true)).
  { unfold count_step, ws_contains, sig_ok.
    destruct (bool_decide (witness sig ∈ ws)) eqn:Hws; zbool; simpl; [|split; [done|]; naive_solver].
    destruct (bool_decide (witness sig ∈ acc)) eqn:Hacc; zbool; [split; [done|]; naive_solver|].
    destruct (vk_valid (witness sig)) eqn:Hv; simpl; [|split; [done|]; intros w; split; [auto|];
      intros [?|(_ & <- & Hx)]; [done|by rewrite Hv in Hx]].
    destruct (ed_verify (witness sig) payload (signature sig)) eqn:He.
    - split.
      + apply NoDup_app. split_and!; [done| |by apply NoDup_singleton].
        intros x Hx Hin. apply list_elem_of_singleton in Hin as ->. done.
      + intros w. rewrite elem_of_app, list_elem_of_singleton. split.
        * intros [? | ->]; [auto|]. right. by rewrite Hv, He.
        * intros [?|(_ & <- & _)]; auto.
    - split; [done|]. intros w. split; [auto|]. intros [?|(_ & <- & Hx)]; [done|by rewrite He, andb_false_r in Hx]. }
  destruct Hstep as [Hn' Hw]. destruct (IH _ Hn') as [H1 H2]. split; [done|].
  intros w. rewrite H2, Hw. setoid_rewrite elem_of_cons. naive_solver.
Qed.

Lemma NoDup_subset_len {A} (l k : list A) : NoDup l -> l ⊆ k -> len l <= len k.
Proof. intros Hn Hs. apply NoDup_submseteq, submseteq_length in Hs; [|done]. unfold len. lia. Qed.

(** Both directions of the check, as a lemma for the clients. *)
Lemma verify_signed_epoch_spec s ws k :
  0 <= k ->
  verify_signed_epoch s ws k = Ok tt <->
  1 <= k /\ exists W, NoDup W /\ k <= len W /\ forall w, w ∈ W -> endorses ws s w.
Proof.
  intros Hk. unfold verify_signed_epoch.
  destruct (count_loop_spec ws (payload_of s) (signatures s) [] NoDup_nil_2) as [Hn Hc].
  set (c := fold_left _ _ _) in *.
  assert (Hc' : forall w, w ∈ c <-> endorses ws s w).
  { intros w. rewrite Hc. unfold endorses. split; [intros [Hx|?]; [by apply elem_of_nil in Hx|done]|auto]. }
  destruct (k =? 0) eqn:H0; zbool; cbn [rguard]; [split; [done|lia]|].
  destruct (len c <? k) eqn:Hl; zbool; cbn [rguard]; split; try done.
  - intros (_ & W & HnW & HkW & HW). exfalso.
    assert (len W <= len c); [|lia]. apply NoDup_subset_len; [done|]. intros w Hw. by apply Hc', HW.
  - intros _. split; [lia|]. exists c. split_and!; [done|lia|]. intros w. apply Hc'.
Qed.

Lemma verify_signed_epoch_cases s ws k :
  verify_signed_epoch s ws k = Ok tt \/
  exists valid, verify_signed_epoch s ws k = Err (InsufficientValidSignatures valid k) /\ (k = 0 \/ valid < k).
Proof.
  unfold verify_signed_epoch. destruct (k =? 0) eqn:H0; zbool; cbn [rguard]; [eauto|].
  destruct (_ <? k) eqn:Hl; zbool; cbn [rguard]; eauto.
Qed.

(** The payload determines what was signed. *)
Lemma canonical_sign_payload_inj e1 r1 n1 t1 e2 r2 n2 t2 :
  is_u64 e1 -> is_u64 e2 -> is_u64 n1 -> is_u64 n2 -> is_u64 t1 -> is_u64 t2 ->
  len r1 = NODE_HASH_LEN -> len r2 = NODE_HASH_LEN ->
  canonical_sign_payload e1 r1 n1 t1 = canonical_sign_payload e2 r2 n2 t2 ->
  e1 = e2 /\ r1 = r2 /\ n1 = n2 /\ t1 = t2.
Proof.
  unfold canonical_sign_payload, NODE_HASH_LEN, len. intros He1 He2 Hn1 Hn2 Ht1 Ht2 Hr1 Hr2 Heq.
  apply app_inv_head in Heq. apply app_inv_head in Heq.
  apply app_inj_1 in Heq as [H1 Heq]; [|by rewrite !length_to_be].
  apply app_inj_1 in Heq as [H2 Heq]; [|lia].
  apply app_inj_1 in Heq as [H3 H4]; [|by rewrite !length_to_be].
  apply (f_equal from_be) in H1, H3, H4. by rewrite !from_be_to_be_u64 in H1, H3, H4.
Qed.

(** ** The ledger *)
Definition ledger_keys (l : WitnessSigningLedger) : list (list byte * Z) :=
  (fun e => (le_log_id e, le_epoch e)) <$> l.

Lemma ledger_keys_cons e l : ledger_keys (e :: l) = (le_log_id e, le_epoch e) :: ledger_keys l.
Proof. done. Qed.

Definition entry_of (id : list byte) (s : SignedEpochRoot) : WitnessLedgerEntry :=
  {| le_log_id := id; le_epoch := epoch s; le_root := root s; le_log_size := log_size s |}.

Lemma ledger_scan_spec id s l :
  match ledger_scan id s l with
  | Some (Ok RepeatedSameHead) => entry_of id s ∈ l
  | Some (Err e) => (id, epoch s) ∈ ledger_keys l /\ e = InvalidEntry "witness equivocation attempt"
  | Some _ => False
  | None => (id, epoch s) ∉ ledger_keys l
  end.
Proof.
  induction l as [|e l IH]; cbn [ledger_scan]; [by apply not_elem_of_nil|]. rewrite ledger_keys_cons.
  destruct (_ && _) eqn:Hk; zbool.
  - destruct (_ && _) eqn:Hr; zbool.
    + assert (e = entry_of id s) as -> by (destruct e; simpl in *; unfold entry_of; congruence). by left.
    + split; [|done]. subst. rewrite <- H1. by left.
  - destruct (ledger_scan id s l) as [[[]| |]|]; try done.
    + by right.
    + split; [right; tauto|tauto].
    + rewrite not_elem_of_cons. split; [|done]. intros [= H1 H2].
      apply andb_false_iff in Hk as [Hk|Hk]; zbool; congruence.
Qed.

(** The heads a witness has agreed to sign along a sequence of requests. *)
Fixpoint run_ledger (l : WitnessSigningLedger) (reqs : list (list byte * SignedEpochRoot))
  : list (list byte * SignedEpochRoot) :=
  match reqs with
  | [] => []
  | (id, s) :: reqs =>
      match record_or_reject id s l with
      | (Ok _, l') => (id, s) :: run_ledger l' reqs
      | (_, l') => run_ledger l' reqs
      end
  end.

Lemma record_or_reject_step id s l r l' :
  NoDup (ledger_keys l) -> record_or_reject id s l = (r, l') ->
  NoDup (ledger_keys l') /\ l ⊆ l' /\ (forall d, r = Ok d -> entry_of id s ∈ l').
Proof.
  intros Hn. unfold record_or_reject. pose proof (ledger_scan_spec id s l) as Hs.
  destruct (ledger_scan id s l) as [[[]| |]|]; intros [= <- <-]; try done.
  - split_and!; [|set_solver|intros; apply elem_of_app; right; by left].
    unfold ledger_keys in *. rewrite fmap_app. apply NoDup_app. split_and!; [done| |by apply NoDup_singleton].
    intros x Hx Hin. apply list_elem_of_singleton in Hin as ->. done.
Qed.

Lemma ledger_unique l e1 e2 :
  NoDup (ledger_keys l) -> e1 ∈ l -> e2 ∈ l -> le_log_id e1 = le_log_id e2 -> le_epoch e1 = le_epoch e2 -> e1 = e2.
Proof.
  intros Hn H1 H2 Hi He. apply list_elem_of_lookup in H1 as [i H1]. apply list_elem_of_lookup in H2 as [j H2].
  assert (i = j) as ->; [|congruence].
  eapply (NoDup_lookup (ledger_keys l)); [done|unfold ledger_keys; rewrite list_lookup_fmap, H1; done|].
  unfold ledger_keys. rewrite list_lookup_fmap, H2. simpl. congruence.
Qed.

Lemma run_ledger_consistent reqs l :
  NoDup (ledger_keys l) ->
  exists l', NoDup (ledger_keys l') /\ l ⊆ l' /\
    forall id s, (id, s) ∈ run_ledger l reqs -> entry_of id s ∈ l'.
Proof.
  revert l. induction reqs as [|[id s] reqs IH]; intros l Hn; simpl.
  { exists l. split_and!; [done|done|]. intros ?? Hin. by apply elem_of_nil in Hin. }
  destruct (record_or_reject id s l) as [r l1] eqn:Hr.
  destruct (record_or_reject_step _ _ _ _ _ Hn Hr) as (Hn1 & Hs1 & He1).
  destruct (IH l1 Hn1) as (l' & Hn' & Hs' & He'). exists l'.
  split_and!; [done|by transitivity l1|]. intros id' s'.
  destruct r as [d|e|]; [|by apply He'..].
  intros [[= -> ->]|Hin]%elem_of_cons; [|by apply He']. apply Hs'. by eapply He1.
Qed.

End Observe.

(** ** The observation codec *)

Definition wf_sig (sig : WitnessSignature) : Prop :=
  len (witness sig) = PUBLIC_KEY_LEN /\ len (signature sig) = SIGNATURE_LEN.

Record wf_signed (s : SignedEpochRoot) : Prop := {
  ws_epoch : is_u64 (epoch s);
  ws_root : len (root s) = NODE_HASH_LEN;
  ws_size : is_u64 (log_size s);
  ws_ts : is_u64 (timestamp_unix_millis s);
  ws_sigs : Forall wf_sig (signatures s)
}.

Record wf_obs (o : KtObservation) : Prop := {
  wo_version : version o = KT_OBSERVATION_VERSION;
  wo_log : len (log_id o) = 32;
  wo_prev : len (previous_root o) = NODE_HASH_LEN;
  wo_signed : wf_signed (signed o);
  wo_count : len (signatures (signed o)) <= MAX_OBSERVATION_SIGNATURES
}.

Lemma take_n_hit n bytes off x :
  slice (E := KtError) off (off + n) bytes = Ok x -> off + n <= U64_MAX -> take_n n bytes off = Ok (x, off + n).
Proof.
  intros Hs Hu. unfold take_n. apply slice_Ok_inv in Hs as Hs'. destruct Hs' as (_ & Hb & _ & _).
  rewrite !(proj2 (Z.ltb_ge _ _)) by lia. cbn [rguard]. by rewrite Hs.
Qed.

Lemma take_n_inv n bytes off x off' :
  take_n n bytes off = Ok (x, off') ->
  off' = off + n /\ slice (E := KtError) off off' bytes = Ok x /\ len x = n /\ off' <= U64_MAX.
Proof.
  unfold take_n. intros Hr. res_inv Hr. injection Hr as <- <-. zbool.
  split_and!; [done|done| |lia]. apply slice_ok_len in Hx. lia.
Qed.

Lemma len_encode_sig sig : wf_sig sig -> len (encode_sig sig) = 96.
Proof. intros [H1 H2]. unfold encode_sig. rewrite len_app, H1, H2. done. Qed.

Lemma len_encode_sigs sigs : Forall wf_sig sigs -> len (concat (encode_sig <$> sigs)) = 96 * len sigs.
Proof.
  induction 1 as [|sig sigs Hs _ IH]; [done|]. rewrite fmap_cons. cbn [concat].
  rewrite len_app, IH, len_encode_sig, len_cons by done. lia.
Qed.

Lemma take_sigs_hit sigs pre post :
  Forall wf_sig sigs -> len pre + 96 * len sigs <= U64_MAX ->
  take_sigs (length sigs) (pre ++ concat (encode_sig <$> sigs) ++ post) (len pre) =
    Ok (sigs, len pre + 96 * len sigs).
Proof.
  intros Hf. revert pre. induction Hf as [|sig sigs Hs _ IH]; intros pre Hu.
  { cbn. by rewrite Z.add_0_r. }
  pose proof (len_nonneg sigs). pose proof Hs as [H1 H2]. rewrite len_cons in Hu.
  unfold PUBLIC_KEY_LEN, SIGNATURE_LEN in H1, H2.
  cbn [length take_sigs]. rewrite fmap_cons. cbn [concat]. rewrite <- app_assoc.
  rewrite (take_n_hit _ _ _ (witness sig)); [|unfold encode_sig, PUBLIC_KEY_LEN; rewrite <- !app_assoc; slice_find
    |unfold PUBLIC_KEY_LEN; lia]. cbn [rbind].
  rewrite (take_n_hit _ _ _ (signature sig)); [|unfold encode_sig, PUBLIC_KEY_LEN, SIGNATURE_LEN; rewrite <- !app_assoc; slice_find
    |unfold PUBLIC_KEY_LEN, SIGNATURE_LEN; lia]. cbn [rbind].
  specialize (IH (pre ++ encode_sig sig)). rewrite <- app_assoc, len_app, len_encode_sig in IH by done.
  replace (len pre + PUBLIC_KEY_LEN + SIGNATURE_LEN) with (len pre + 96) by (unfold PUBLIC_KEY_LEN, SIGNATURE_LEN; lia).
  rewrite IH by lia. cbn [rbind]. rewrite len_cons. destruct sig. do 2 f_equal. lia.
Qed.

Lemma take_sigs_inv n bytes off sigs off' :
  0 <= off <= len bytes -> take_sigs n bytes off = Ok (sigs, off') ->
  slice (E := KtError) off off' bytes = Ok (concat (encode_sig <$> sigs)) /\
  Forall wf_sig sigs /\ length sigs = n.
Proof.
  revert off sigs off'. induction n as [|n IH]; intros off sigs off' Ho; cbn [take_sigs].
  { intros [= <- <-]. split_and!; [|done..]. rewrite slice_in_range by lia. rewrite Z.sub_diag. done. }
  intros Hr. apply rbind_Ok in Hr as ([w o1] & H1 & Hr). apply rbind_Ok in Hr as ([sg o2] & H2 & Hr).
  apply rbind_Ok in Hr as ([sigs' o3] & H3 & Hr). injection Hr as <- <-.
  apply take_n_inv in H1 as (-> & S1 & L1 & _). apply take_n_inv in H2 as (-> & S2 & L2 & _).
  pose proof (slice_Ok_inv _ _ _ _ S2) as (R1 & R2 & _).
  apply IH in H3 as (S3 & F3 & <-); [|unfold PUBLIC_KEY_LEN, SIGNATURE_LEN in *; lia].
  split_and!; [|by constructor|done]. rewrite fmap_cons. cbn [concat]. unfold encode_sig at 1. cbn [witness signature].
  eapply slice_glue; [|exact S3]. by eapply slice_glue.
Qed.

Lemma from_be_count n : 0 <= n <= U16_MAX -> from_be (to_be 2 n) = n.
Proof. intros. by apply from_be_to_be_u16. Qed.

Ltac take_field x :=
  rewrite (take_n_hit _ _ _ x); [cbn [rbind]|slice_find|lia].

Lemma decode_encode_public o : wf_obs o -> decode_public (encode_public o) = Ok o.
Proof.
  intros [Hv Hl Hp [He Hr Hz Ht Hs] Hc]. unfold NODE_HASH_LEN, MAX_OBSERVATION_SIGNATURES in *.
  pose proof (len_encode_sigs _ Hs) as Hsl. pose proof (len_nonneg (signatures (signed o))) as Hnn.
  unfold decode_public, encode_public, NODE_HASH_LEN. rewrite Z.min_l by (unfold U16_MAX; lia).
  set (n := len (signatures (signed o))) in *.
  assert (Hu : 187 + 96 * 64 <= U64_MAX) by (unfold U64_MAX; lia).
  set (S0 := concat (encode_sig <$> signatures (signed o))) in *.
  take_field [as_u8 (version o)]. rewrite index_0. cbn [rbind]. rewrite Hv.
  change (u8 (as_u8 KT_OBSERVATION_VERSION) =? KT_OBSERVATION_VERSION) with true. cbn [negb rguard].
  take_field (log_id o). take_field (previous_root o). take_field (to_be 8 (epoch (signed o))).
  take_field (root (signed o)). take_field (to_be 8 (log_size (signed o))).
  take_field (to_be 8 (timestamp_unix_millis (signed o))). take_field (to_be 2 n).
  rewrite from_be_to_be_u16 by (unfold is_u16, U16_MAX; lia). unfold MAX_OBSERVATION_SIGNATURES.
  rewrite (proj2 (Z.ltb_ge _ _)) by lia. cbn [rguard].
  pose proof (take_sigs_hit (signatures (signed o)) ([as_u8 KT_OBSERVATION_VERSION] ++ log_id o ++ previous_root o ++
    to_be 8 (epoch (signed o)) ++ root (signed o) ++ to_be 8 (log_size (signed o)) ++
    to_be 8 (timestamp_unix_millis (signed o)) ++ to_be 2 n) [] Hs) as Hts.
  rewrite app_nil_r, <- !app_assoc in Hts. fold S0 in Hts.
  assert (Hpre : len ([as_u8 KT_OBSERVATION_VERSION] ++ log_id o ++ previous_root o ++
    to_be 8 (epoch (signed o)) ++ root (signed o) ++ to_be 8 (log_size (signed o)) ++
    to_be 8 (timestamp_unix_millis (signed o)) ++ to_be 2 n) = 123) by len_lia.
  rewrite Hpre in Hts. replace (Z.to_nat n) with (length (signatures (signed o))) by (unfold n, len; lia).
  replace (0 + 1 + 32 + 32 + 8 + 32 + 8 + 8 + 2) with 123 by lia.
  rewrite Hts by lia. cbn [rbind]. rewrite (proj2 (Z.eqb_eq _ _)) by (unfold n in *; len_lia). cbn [negb rguard].
  rewrite !from_be_to_be_u64 by done. destruct o as [v l p [e r z t sg]]. simpl in *. by rewrite Hv.
Qed.

Lemma encode_decode_public bytes o : decode_public bytes = Ok o -> encode_public o = bytes /\ wf_obs o.
Proof.
  unfold decode_public. intros Hd.
  apply rbind_Ok in Hd as ([v o1] & T1 & Hd). apply rbind_Ok in Hd as (vb & Hvb & Hd).
  apply rguard_Ok in Hd as [Hv Hd].
  apply rbind_Ok in Hd as ([lid o2] & T2 & Hd). apply rbind_Ok in Hd as ([pr o3] & T3 & Hd).
  apply rbind_Ok in Hd as ([eb o4] & T4 & Hd). apply rbind_Ok in Hd as ([rt o5] & T5 & Hd).
  apply rbind_Ok in Hd as ([zb o6] & T6 & Hd). apply rbind_Ok in Hd as ([tb o7] & T7 & Hd).
  apply rbind_Ok in Hd as ([cb o8] & T8 & Hd). apply rguard_Ok in Hd as [Hc Hd].
  apply rbind_Ok in Hd as ([sg o9] & T9 & Hd). apply rguard_Ok in Hd as [Hend Hd]. injection Hd as <-.
  zbool. subst o9.
  apply take_n_inv in T1 as (-> & S1 & L1 & _). apply take_n_inv in T2 as (-> & S2 & L2 & _).
  apply take_n_inv in T3 as (-> & S3 & L3 & _). apply take_n_inv in T4 as (-> & S4 & L4 & _).
  apply take_n_inv in T5 as (-> & S5 & L5 & _). apply take_n_inv in T6 as (-> & S6 & L6 & _).
  apply take_n_inv in T7 as (-> & S7 & L7 & _). apply take_n_inv in T8 as (-> & S8 & L8 & _).
  pose proof (from_be_range cb) as Hcr. rewrite L8 in Hcr.
  apply take_sigs_inv in T9 as (S9 & F9 & L9).
  2:{ apply slice_Ok_inv in S8. unfold NODE_HASH_LEN in *. lia. }
  assert (Hlen : len sg = from_be cb) by (unfold len; lia).
  assert (Hvb' : v = [vb]).
  { destruct v as [|x [|y v]]; try (unfold len in L1; simpl in L1; lia). rewrite index_0 in Hvb. by injection Hvb as ->. }
  subst v. split.
  - unfold encode_public. cbn [version log_id previous_root signed epoch root log_size timestamp_unix_millis signatures].
    rewrite as_u8_u8, Hlen, Z.min_l by (change (256 ^ 2) with 65536 in Hcr; unfold U16_MAX; lia).
    rewrite !to_be_from_be_n by (simpl; lia).
    assert (Hall : slice (E := KtError) 0 (len bytes) bytes =
      Ok ([vb] ++ lid ++ pr ++ eb ++ rt ++ zb ++ tb ++ cb ++ concat (encode_sig <$> sg))).
    { do 8 (eapply slice_glue; [eassumption|]). exact S9. }
    rewrite slice_all in Hall. by injection Hall.
  - split; cbn [version log_id previous_root signed signatures]; try done; [|lia].
    split; cbn [epoch root log_size timestamp_unix_millis signatures]; try done; by apply from_be_u64.
Qed.

(** ** The history of observations *)
Section History.
Context `{Ed25519}.

Definition run_history (ws : WitnessSet) (k : Z) (os : list KtObservation) (h : KtObservationHistory)
  : KtObservationHistory :=
  fold_left (fun h o => (observe o ws k h).2) os h.

(** The later observation extends the view of the earlier one. *)
Definition extends (l1 l2 : KtObservation) : Prop :=
  log_id l2 = log_id l1 /\ epoch (signed l1) <= epoch (signed l2) /\
  (epoch (signed l1) = epoch (signed l2) ->
     root (signed l1) = root (signed l2) /\ log_size (signed l1) = log_size (signed l2) /\
     previous_root l1 = previous_root l2).

#[local] Instance extends_preorder : PreOrder extends.
Proof.
  split.
  - intros l. by repeat split.
  - intros a b c (H1 & H2 & H3) (K1 & K2 & K3). split_and!; [congruence|lia|].
    intros He. destruct H3 as (?&?&?); [lia|]. destruct K3 as (?&?&?); [lia|]. repeat split; congruence.
Qed.

Definition hist_ok (h : KtObservationHistory) : Prop :=
  forall l, last_obs h = Some l -> h_log_id h = Some (log_id l).

Lemma conflicts_false a b :
  log_id a = log_id b -> epoch (signed a) = epoch (signed b) -> conflicts_with a b = false ->
  root (signed a) = root (signed b) /\ log_size (signed a) = log_size (signed b) /\ previous_root a = previous_root b.
Proof.
  unfold conflicts_with, same_log_epoch. intros -> ->. rewrite bool_decide_true, Z.eqb_refl by done.
  simpl. intros Hc. zbool. done.
Qed.

(** One observation: the history keeps its last entry or moves to one that extends it. *)
Lemma observe_step o ws k h r h' :
  hist_ok h -> observe o ws k h = (r, h') ->
  hist_ok h' /\
  match last_obs h with
  | None => last_obs h' = None \/ (last_obs h' = Some o /\ r = Ok NeedsObservation)
  | Some l => exists l', last_obs h' = Some l' /\ extends l l' /\ (r = Ok Accepted -> l' = o)
  end.
Proof.
  intros Hh Ho. unfold observe, sbind, slift, sget in Ho.
  assert (Hkeep : match last_obs h with
    | None => last_obs h = None \/ (last_obs h = Some o /\ r = Ok NeedsObservation)
    | Some l => exists l', last_obs h = Some l' /\ extends l l' /\ (r = Ok Accepted -> l' = o)
    end \/ (exists l, last_obs h = Some l /\ r = Ok Accepted)).
  { destruct (last_obs h) as [l|]; [|left; by left]. destruct r as [[]| |].
    1: right; eauto. all: left; exists l; split_and!; (done || reflexivity). }
  destruct (validate o ws k) as [[]|e|]; simplify_eq; [|by destruct Hkeep as [?|(?&_&?)]..].
  assert (Hbody : forall h1, last_obs h1 = last_obs h -> h_log_id h1 = Some (log_id o) ->
    observe_body o ws k h1 = (r, h') -> (forall l, last_obs h = Some l -> log_id l = log_id o) ->
    hist_ok h' /\
    match last_obs h with
    | None => last_obs h' = None \/ (last_obs h' = Some o /\ r = Ok NeedsObservation)
    | Some l => exists l', last_obs h' = Some l' /\ extends l l' /\ (r = Ok Accepted -> l' = o)
    end).
  { intros h1 Hl1 Hi1 Hb Hid. unfold observe_body in Hb. rewrite Hl1 in Hb.
    assert (Hok1 : hist_ok h1) by (intros l Hl; rewrite Hl1 in Hl; rewrite Hi1; f_equal; symmetry; auto).
    assert (Hoks : hist_ok (set_last o h1)) by (intros l [= <-]; done).
    destruct (last_obs h) as [l|]; [specialize (Hid l eq_refl)|injection Hb as <- <-; by auto].
    destruct (epoch (signed o) <? epoch (signed l)) eqn:Hlt; zbool.
    { simplify_eq. split; [done|]. exists l. split_and!; (done || reflexivity). }
    destruct (epoch (signed o) =? epoch (signed l)) eqn:Heq; zbool.
    - destruct (conflicts_with o l) eqn:Hc; injection Hb as <- <-.
      + split; [done|]. exists l. split_and!; [done|reflexivity|]. by destruct (try_new l o ws k).
      + split; [done|]. exists o. split_and!; [done| |done].
        destruct (conflicts_false o l (eq_sym Hid) Heq Hc) as (? & ? & ?). repeat split; try congruence; lia.
    - destruct (negb _); injection Hb as <- <-; (split; [done|]).
      + exists l. split_and!; (done || reflexivity).
      + exists o. split_and!; [done| |done]. repeat split; try congruence; lia. }
  destruct (h_log_id h) as [id|] eqn:Hid.
  - destruct (bool_decide (id = log_id o)) eqn:Hi; zbool; simpl in Ho.
    + apply (Hbody h); try done; [congruence|]. intros l Hl. apply Hh in Hl. congruence.
    + simplify_eq. by destruct Hkeep as [?|(?&_&?)].
  - apply (Hbody {| h_log_id := Some (log_id o); last_obs := last_obs h |}); try done.
    intros l Hl. apply Hh in Hl. congruence.
Qed.

Lemma run_history_extends ws k os h l :
  hist_ok h -> last_obs h = Some l -> exists l', last_obs (run_history ws k os h) = Some l' /\ extends l l'.
Proof.
  revert h l. induction os as [|o os IH]; intros h l Hh Hl; simpl; [exists l; split; [done|reflexivity]|].
  destruct (observe o ws k h) as [r h'] eqn:Ho.
  destruct (observe_step _ _ _ _ _ _ Hh Ho) as [Hh' Hs]. rewrite Hl in Hs.
  destruct Hs as (l1 & Hl1 & He & _). destruct (IH h' l1 Hh' Hl1) as (l2 & ? & ?).
  exists l2. split; [done|]. by etransitivity.
Qed.

Lemma run_history_ok ws k os h : hist_ok h -> hist_ok (run_history ws k os h).
Proof.
  revert h. induction os as [|o os IH]; intros h Hh; simpl; [done|]. apply IH.
  destruct (observe o ws k h) eqn:Ho. by eapply observe_step.
Qed.

End History.

(** ** Theorems *)
Section Theorems.
Context `{Ed25519}.

(** Threshold verification is exact: an epoch root is accepted if and only if
    the threshold is positive and at least that many different witnesses of the set
    have a valid signature over the canonical payload in the list; unknown and repeated
    signers do not count, and the only error is the count of valid signers. *)
Theorem verify_signed_epoch_exact (s : SignedEpochRoot) (ws : WitnessSet) (k : Z) (Hk : 0 <= k) :
  (verify_signed_epoch s ws k = Ok tt <->
     1 <= k /\ exists W, NoDup W /\ k <= len W /\ forall w, w ∈ W -> endorses ws s w) /\
  (verify_signed_epoch s ws k <> Ok tt ->
     exists valid, verify_signed_epoch s ws k = Err (InsufficientValidSignatures valid k) /\ (k = 0 \/ valid < k)).
Proof.
  split; [by apply verify_signed_epoch_spec|].
  destruct (verify_signed_epoch_cases s ws k) as [->|?]; [done|auto].
Qed.

(** Accountability: if a majority threshold accepts two epoch roots under one
    witness set (two different heads of one epoch, say), some witness of the set signed
    both; the payloads it signed determine epoch, root, size and time of each head. *)
Theorem quorum_intersection (s1 s2 : SignedEpochRoot) (ws : WitnessSet) (k : Z)
    (Hws : NoDup ws) (Hk : len ws < 2 * k)
    (H1 : verify_signed_epoch s1 ws k = Ok tt) (H2 : verify_signed_epoch s2 ws k = Ok tt) :
  exists w, endorses ws s1 w /\ endorses ws s2 w.
Proof.
  pose proof (len_nonneg ws).
  apply verify_signed_epoch_spec in H1 as (_ & W1 & N1 & L1 & E1); [|lia].
  apply verify_signed_epoch_spec in H2 as (_ & W2 & N2 & L2 & E2); [|lia].
  destruct (decide (Exists (fun w => w ∈ W2) W1)) as [Hex|Hno].
  { apply Exists_exists in Hex as (w & Hw1 & Hw2). exists w. auto. }
  exfalso. apply not_Exists_Forall in Hno; [|apply _]. rewrite Forall_forall in Hno.
  assert (len (W1 ++ W2) <= len ws); [|rewrite len_app in *; lia].
  apply NoDup_subset_len; [apply NoDup_app; split_and!; [done|exact Hno|done]|].
  intros w [Hw|Hw]%elem_of_app; [by apply E1 in Hw as []|by apply E2 in Hw as []].
Qed.

(** C25. A witness never equivocates: along any sequence of signing requests, two heads
    it agreed to sign for the same log and epoch have the same root and size. *)
Theorem witness_never_equivocates (reqs : list (list byte * SignedEpochRoot))
    (id : list byte) (s1 s2 : SignedEpochRoot)
    (H1 : (id, s1) ∈ run_ledger [] reqs) (H2 : (id, s2) ∈ run_ledger [] reqs)
    (He : epoch s1 = epoch s2) :
  root s1 = root s2 /\ log_size s1 = log_size s2.
Proof.
  destruct (run_ledger_consistent reqs []) as (l & Hn & _ & Hl); [constructor|].
  pose proof (ledger_unique l _ _ Hn (Hl _ _ H1) (Hl _ _ H2) eq_refl He) as Heq.
  by injection Heq.
Qed.

(** A client's history never rolls back or forks: whatever observations arrive, the
    retained head stays in one log, its epoch does not decrease, and within one epoch the
    root, size and previous root do not change. *)
Theorem history_never_forks (ws : WitnessSet) (k : Z) (os1 os2 : list KtObservation) (l1 : KtObservation)
    (Hl : last_obs (run_history ws k os1 history_new) = Some l1) :
  exists l2, last_obs (run_history ws k (os1 ++ os2) history_new) = Some l2 /\ extends l1 l2.
Proof.
  unfold run_history in *. rewrite fold_left_app.
  apply (run_history_extends ws k os2); [|done]. by apply run_history_ok.
Qed.

(** Equivocation evidence can be fabricated from one signed head: the witness
    signatures cover neither the log id nor the previous root, so a valid observation and
    its copy with any other previous root are accepted as conflicting. *)
Theorem evidence_fabricated (o : KtObservation) (ws : WitnessSet) (k : Z) (p : list byte)
    (Hv : validate o ws k = Ok tt) (Hp : p <> previous_root o) :
  let o' := {| version := version o; log_id := log_id o; previous_root := p; signed := signed o |} in
  exists e, try_new o o' ws k = Ok e /\ evidence_verify e ws k = Ok tt /\ signed (first e) = signed (second e).
Proof.
  intros o'. assert (Ht : try_new o o' ws k = Ok {| first := o; second := o' |}).
  { assert (Hc : conflicts_with o o' = true).
    { unfold conflicts_with, same_log_epoch. simpl. rewrite bool_decide_true, Z.eqb_refl by done.
      by rewrite bool_decide_false. }
    unfold try_new. assert (validate o' ws k = Ok tt) as -> by exact Hv. rewrite Hv. cbn [rbind]. rewrite Hc. simpl.
    rewrite bool_decide_true by done. by rewrite Z.eqb_refl. }
  exists {| first := o; second := o' |}. split; [done|]. split; [|done].
  unfold evidence_verify. simpl. by rewrite Ht.
Qed.

End Theorems.

(** ** Witnesses, with the toy signature scheme *)
#[local] Existing Instance toy_ed25519.
Definition toy_w (n : byte) : WitnessPublic := replicate 32 n.
Definition toy_ws : WitnessSet := ws_add (toy_w Byte.x03) (ws_add (toy_w Byte.x02) (ws_add (toy_w Byte.x01) ws_new)).
Definition toy_head (e : Z) (r : byte) (signers : list byte) : SignedEpochRoot :=
  let p := canonical_sign_payload e (replicate 32 r) 4 1000 in
  {| epoch := e; root := replicate 32 r; log_size := 4; timestamp_unix_millis := 1000;
     signatures := (fun n => {| witness := toy_w n; signature := toy_w n ++ drop (length p - 32) p |}) <$> signers |}.
Definition toy_s1 : SignedEpochRoot := toy_head 7 Byte.xaa [Byte.x01; Byte.x01; Byte.x02; Byte.x09].
Definition toy_s2 : SignedEpochRoot := toy_head 7 Byte.xbb [Byte.x02; Byte.x03].
Definition toy_obs : KtObservation := obs_new (replicate 32 Byte.x11) (replicate 32 Byte.x22) toy_s1.

Lemma verify_signed_epoch_exact_witness :
  (verify_signed_epoch toy_s1 toy_ws 2 = Ok tt <->
     1 <= 2 /\ exists W, NoDup W /\ 2 <= len W /\ forall w, w ∈ W -> endorses toy_ws toy_s1 w) /\
  (verify_signed_epoch toy_s1 toy_ws 2 <> Ok tt ->
     exists valid, verify_signed_epoch toy_s1 toy_ws 2 = Err (InsufficientValidSignatures valid 2) /\ (2 = 0 \/ valid < 2)).
Proof. apply (verify_signed_epoch_exact toy_s1 toy_ws 2). lia. Defined.

Lemma quorum_intersection_witness : exists w, endorses toy_ws toy_s1 w /\ endorses toy_ws toy_s2 w.
Proof.
  apply (quorum_intersection toy_s1 toy_s2 toy_ws 2).
  - apply (bool_decide_unpack _). vm_compute. exact I.
  - vm_compute. reflexivity.
  - vm_compute. reflexivity.
  - vm_compute. reflexivity.
Defined.

(** A witness asked for one head twice, with different signatures attached, and for a different
    head of the same epoch in between: it signs the first and the last, whose roots and sizes
    agree, and not the one in the middle. *)
Definition toy_s1' : SignedEpochRoot := toy_head 7 Byte.xaa [Byte.x03].
Definition toy_reqs : list (list byte * SignedEpochRoot) := [([], toy_s1); ([], toy_s2); ([], toy_s1')].

Lemma witness_never_equivocates_witness :
  toy_s1 <> toy_s1' /\ epoch toy_s2 = epoch toy_s1 /\
  (root toy_s1 = root toy_s1' /\ log_size toy_s1 = log_size toy_s1') /\ ([], toy_s2) ∉ run_ledger [] toy_reqs.
Proof.
  assert (H1 : ([], toy_s1) ∈ run_ledger [] toy_reqs) by (vm_compute; left).
  assert (H2 : ([], toy_s1') ∈ run_ledger [] toy_reqs) by (vm_compute; right; left).
  split; [vm_compute; discriminate|]. split; [reflexivity|].
  split; [exact (witness_never_equivocates toy_reqs [] toy_s1 toy_s1' H1 H2 eq_refl)|].
  intros H3. destruct (witness_never_equivocates toy_reqs [] toy_s1 toy_s2 H1 H3 eq_refl) as [Hx _]. vm_compute in Hx. discriminate Hx.
Defined.

Lemma history_never_forks_witness :
  exists l2, last_obs (run_history toy_ws 2 ([toy_obs] ++ [obs_new (replicate 32 Byte.x11) [] toy_s2]) history_new) = Some l2 /\
    extends toy_obs l2.
Proof. apply (history_never_forks toy_ws 2 [toy_obs] _ toy_obs). vm_compute. reflexivity. Defined.

Lemma evidence_fabricated_witness :
  exists e, try_new toy_obs {| version := 1; log_id := log_id toy_obs; previous_root := []; signed := toy_s1 |} toy_ws 2 = Ok e /\
    evidence_verify e toy_ws 2 = Ok tt /\ signed (first e) = signed (second e).
Proof. apply (evidence_fabricated toy_obs toy_ws 2 []); [vm_compute; reflexivity | discriminate]. Defined.

End KtWitness.
