(* ===== verification/BackupError.v ===== *)
(** * Errors of the backup crate ([crates/umbrella-backup/src/error.rs]) *)
From S2P Require Import Prelude.

Inductive BackupError :=
| InvalidWireFormat
| InvalidRistrettoEncoding
| InvalidScalarEncoding
| CryptoVerificationFailed
| DeviceSigning (what : string)
| InvalidAttestationShape
| ProductionAttestationVerifierUnavailable (platform_tag : Z)
| ProductionPlatformVerificationFailed (what : string)
| ProductionTestVerifierRejected
| ProductionServerNonceMismatch
| ProductionServerNonceReplay
| ProductionServerNonceExpired (age_millis max_age_millis : Z)
| ProductionServerNonceIssuedInFuture (skew_millis max_future_skew_millis : Z)
| ProductionRequestTimestampInFuture (skew_millis max_future_skew_millis : Z)
| ProductionDeviceUnknown
| ProductionDeviceNotActiveYet (authorized_since_unix_millis request_timestamp_unix_millis : Z)
| WrappedKeyTruncated
| WrappedKeyVersionMismatch (expected found : Z)
| UnwrapShareTruncated
| UnknownWitnessIndex (i : Z)
| DuplicateWitnessIndex (i : Z)
| InsufficientUnwrapShares (valid required : Z)
| AllSubsetsFailedUnwrap
| AeadDecryptFailed
| WireBufferOverflow
| QrExpired
| QrSignatureInvalid
| QrPayloadTruncated
| QrVersionMismatch (expected found : Z)
| HandshakeFailed (what : string)
| HandshakeHashMismatch
| StreamFrameTooLarge (limit actual : Z)
| StreamUnexpectedEof
| SnapshotDecodeFailed
| DevicePendingAuthorization
| DeviceRevoked
| HistoryCutoffApplies (envelope_timestamp cutoff : Z)
| IdentityRotatedRefuseOldRequests
| UnsupportedWrappingCiphersuite (got : Z)
| PqFeatureRequiredForCiphersuite (version : Z)
| WrappedKeyV2Truncated
| XWingEncapsFailed
| XWingDecapsFailed.
