(* ===== verification/DeviceAuth.v ===== *)
(** * Device authorization records ([crates/umbrella-backup/src/cloud_wrap/authorization.rs],
    [identity_rotation.rs])

    The four signed records behind multi-device accounts: request, approval,
    revocation and identity rotation, each with its signing input, its sealing
    function, its wire codec and its verification.  Fixed-size arrays are byte lists
    whose lengths the well-formedness records state; writing the fields of an array
    one after the other is their concatenation.  Ed25519 and the signer closures are
    parameters. *)
From S2P Require Import Prelude Bytes Crypto BackupError.

Module DeviceAuth.

Definition DEVICE_PUBKEY_LEN : Z := 32.
Definition DEVICE_SIG_LEN : Z := 64.
Definition AUTHORIZATION_WIRE_VERSION : Z := 1.
Definition CHALLENGE_NONCE_LEN : Z := 32.
Definition LOCATION_HINT_MAX : Z := 128.
Definition DEVICE_AUTH_REQUEST_DOMAIN_SEPARATOR : list byte := bytes_of_string "umbrellax-device-auth-request-v1".
Definition DEVICE_AUTH_APPROVAL_DOMAIN_SEPARATOR : list byte := bytes_of_string "umbrellax-device-auth-approval-v1".
Definition DEVICE_AUTH_REVOKE_DOMAIN_SEPARATOR : list byte := bytes_of_string "umbrellax-device-auth-revoke-v1".
Definition IDENTITY_ROTATION_DOMAIN_SEPARATOR : list byte := bytes_of_string "umbrellax-identity-rotation-v1".
Definition DEVICE_AUTH_REQUEST_BASE_LEN : Z :=
  1 + DEVICE_PUBKEY_LEN + 8 + CHALLENGE_NONCE_LEN + 1 + DEVICE_SIG_LEN.
Definition DEVICE_AUTH_APPROVAL_LEN : Z :=
  1 + DEVICE_PUBKEY_LEN + DEVICE_PUBKEY_LEN + 8 + 8 + 1 + DEVICE_SIG_LEN.
Definition DEVICE_AUTH_REVOKE_LEN : Z := 1 + DEVICE_PUBKEY_LEN + DEVICE_PUBKEY_LEN + 8 + DEVICE_SIG_LEN.
Definition POLICY_FLAGS_RESERVED_MASK : Z := 254.
Definition CODE_RECOVERY_PUBLIC_HALF_PROOF_LEN : Z := 32.
Definition IDENTITY_ROTATION_LEN : Z :=
  1 + DEVICE_PUBKEY_LEN + DEVICE_PUBKEY_LEN + 8 + 1 + DEVICE_SIG_LEN + DEVICE_SIG_LEN
  + CODE_RECOVERY_PUBLIC_HALF_PROOF_LEN.

(** [core::str::from_utf8(l).is_ok()]: the well-formed byte sequences of Unicode. *)
Definition in_range (lo hi : Z) (b : byte) : bool := (lo <=? u8 b) && (u8 b <=? hi).
Definition cont (b : byte) : bool := in_range 128 191 b.

Fixpoint utf8_valid (l : list byte) : bool :=
  match l with
  | [] => true
  | b0 :: l1 =>
      if u8 b0 <? 128 then utf8_valid l1
      else match l1 with
      | [] => false
      | b1 :: l2 =>
          if in_range 194 223 b0 then cont b1 && utf8_valid l2
          else match l2 with
          | [] => false
          | b2 :: l3 =>
              if in_range 224 239 b0 then
                (if u8 b0 =? 224 then in_range 160 191 b1
                 else if u8 b0 =? 237 then in_range 128 159 b1 else cont b1)
                && cont b2 && utf8_valid l3
              else match l3 with
              | [] => false
              | b3 :: l4 =>
                  if in_range 240 244 b0 then
                    (if u8 b0 =? 240 then in_range 144 191 b1
                     else if u8 b0 =? 244 then in_range 128 143 b1 else cont b1)
                    && cont b2 && cont b3 && utf8_valid l4
                  else false
              end
          end
      end
  end.

Inductive RotationReason := CatastrophicRecovery | PlannedRotation | IdentityCompromise.
#[global] Instance RotationReason_eq_dec : EqDecision RotationReason.
Proof. solve_decision. Defined.

Definition reason_tag (r : RotationReason) : Z :=
  match r with CatastrophicRecovery => 1 | PlannedRotation => 2 | IdentityCompromise => 3 end.
Definition reason_from_tag (t : Z) : option RotationReason :=
  if t =? 1 then Some CatastrophicRecovery
  else if t =? 2 then Some PlannedRotation
  else if t =? 3 then Some IdentityCompromise
  else None.

(** ** Records *)
Record DeviceAuthorizationRequest := {
  rq_version : Z;
  rq_new_device_pubkey : list byte;
  request_timestamp : Z;
  challenge_nonce : list byte;
  location_hint : list byte;
  identity_signature : list byte
}.

Record DeviceAuthorizationApproval := {
  ap_version : Z;
  new_device_pubkey : list byte;
  approver_device_pubkey : list byte;
  authorized_since_timestamp : Z;
  history_cutoff_timestamp : Z;
  policy_flags : Z;
  approver_signature : list byte
}.

Record DeviceAuthorizationRevocation := {
  rv_version : Z;
  revoked_device_pubkey : list byte;
  revoker_device_pubkey : list byte;
  revocation_timestamp : Z;
  revoker_signature : list byte
}.

Record IdentityRotationRecord := {
  ir_version : Z;
  old_identity_pubkey : list byte;
  new_identity_pubkey : list byte;
  rotation_timestamp : Z;
  rotation_reason : RotationReason;
  old_identity_signature : list byte;
  new_identity_signature : list byte;
  code_recovery_public_half_proof : list byte
}.

(** ** Signing inputs *)
Definition canonical_signing_input_request (version : Z) (pk : list byte) (ts : Z) (nonce hint : list byte) : list byte :=
  DEVICE_AUTH_REQUEST_DOMAIN_SEPARATOR ++ [as_u8 version] ++ pk ++ to_be 8 ts ++ nonce ++ [as_u8 (len hint)] ++ hint.

Definition canonical_signing_input_approval (version : Z) (new_pk approver_pk : list byte) (since cutoff flags : Z) : list byte :=
  DEVICE_AUTH_APPROVAL_DOMAIN_SEPARATOR ++ [as_u8 version] ++ new_pk ++ approver_pk ++ to_be 8 since ++
  to_be 8 cutoff ++ [as_u8 flags].

Definition canonical_signing_input_revocation (version : Z) (revoked revoker : list byte) (ts : Z) : list byte :=
  DEVICE_AUTH_REVOKE_DOMAIN_SEPARATOR ++ [as_u8 version] ++ revoked ++ revoker ++ to_be 8 ts.

Definition canonical_signing_input_rotation (version : Z) (old_pk new_pk : list byte) (ts : Z)
    (reason : RotationReason) (proof : list byte) : list byte :=
  IDENTITY_ROTATION_DOMAIN_SEPARATOR ++ [as_u8 version] ++ old_pk ++ new_pk ++ to_be 8 ts ++
  [as_u8 (reason_tag reason)] ++ proof.

Definition request_signing_input (r : DeviceAuthorizationRequest) : list byte :=
  canonical_signing_input_request (rq_version r) (rq_new_device_pubkey r) (request_timestamp r)
    (challenge_nonce r) (location_hint r).
Definition approval_signing_input (a : DeviceAuthorizationApproval) : list byte :=
  canonical_signing_input_approval (ap_version a) (new_device_pubkey a) (approver_device_pubkey a)
    (authorized_since_timestamp a) (history_cutoff_timestamp a) (policy_flags a).
Definition revocation_signing_input (r : DeviceAuthorizationRevocation) : list byte :=
  canonical_signing_input_revocation (rv_version r) (revoked_device_pubkey r) (revoker_device_pubkey r)
    (revocation_timestamp r).
Definition rotation_signing_input (r : IdentityRotationRecord) : list byte :=
  canonical_signing_input_rotation (ir_version r) (old_identity_pubkey r) (new_identity_pubkey r)
    (rotation_timestamp r) (rotation_reason r) (code_recovery_public_half_proof r).

(** ** Sealing: the signer is the caller's closure. *)
Definition signer : Type := list byte -> res BackupError (list byte).

Definition seal_device_authorization_request (pk : list byte) (ts : Z) (nonce hint : list byte) (sign : signer)
  : res BackupError DeviceAuthorizationRequest :=
  reject LOCATION_HINT_MAX <? len hint with InvalidWireFormat ;;
  let? sig := sign (canonical_signing_input_request AUTHORIZATION_WIRE_VERSION pk ts nonce hint) in
  Ok {| rq_version := AUTHORIZATION_WIRE_VERSION; rq_new_device_pubkey := pk; request_timestamp := ts;
        challenge_nonce := nonce; location_hint := hint; identity_signature := sig |}.

Definition seal_device_authorization_approval (new_pk approver_pk : list byte) (since cutoff flags : Z) (sign : signer)
  : res BackupError DeviceAuthorizationApproval :=
  reject negb (Z.land flags POLICY_FLAGS_RESERVED_MASK =? 0) with InvalidWireFormat ;;
  let? sig := sign (canonical_signing_input_approval AUTHORIZATION_WIRE_VERSION new_pk approver_pk since cutoff flags) in
  Ok {| ap_version := AUTHORIZATION_WIRE_VERSION; new_device_pubkey := new_pk; approver_device_pubkey := approver_pk;
        authorized_since_timestamp := since; history_cutoff_timestamp := cutoff; policy_flags := flags;
        approver_signature := sig |}.

Definition seal_device_authorization_revocation (revoked revoker : list byte) (ts : Z) (sign : signer)
  : res BackupError DeviceAuthorizationRevocation :=
  let? sig := sign (canonical_signing_input_revocation AUTHORIZATION_WIRE_VERSION revoked revoker ts) in
  Ok {| rv_version := AUTHORIZATION_WIRE_VERSION; revoked_device_pubkey := revoked; revoker_device_pubkey := revoker;
        revocation_timestamp := ts; revoker_signature := sig |}.

Definition seal_identity_rotation_record (old_pk new_pk : list byte) (ts : Z) (reason : RotationReason)
    (proof : list byte) (old_sign new_sign : signer) : res BackupError IdentityRotationRecord :=
  reject bool_decide (old_pk = new_pk) with InvalidWireFormat ;;
  let canonical := canonical_signing_input_rotation AUTHORIZATION_WIRE_VERSION old_pk new_pk ts reason proof in
  let? old_sig := old_sign canonical in
  let? new_sig := new_sign canonical in
  Ok {| ir_version := AUTHORIZATION_WIRE_VERSION; old_identity_pubkey := old_pk; new_identity_pubkey := new_pk;
        rotation_timestamp := ts; rotation_reason := reason; old_identity_signature := old_sig;
        new_identity_signature := new_sig; code_recovery_public_half_proof := proof |}.

(** ** Wire codecs *)
Definition request_encode (r : DeviceAuthorizationRequest) : list byte :=
  [as_u8 (rq_version r)] ++ rq_new_device_pubkey r ++ to_be 8 (request_timestamp r) ++ challenge_nonce r ++
  [as_u8 (len (location_hint r))] ++ location_hint r ++ identity_signature r.

Definition approval_encode (a : DeviceAuthorizationApproval) : list byte :=
  [as_u8 (ap_version a)] ++ new_device_pubkey a ++ approver_device_pubkey a ++
  to_be 8 (authorized_since_timestamp a) ++ to_be 8 (history_cutoff_timestamp a) ++
  [as_u8 (policy_flags a)] ++ approver_signature a.

Definition revocation_encode (r : DeviceAuthorizationRevocation) : list byte :=
  [as_u8 (rv_version r)] ++ revoked_device_pubkey r ++ revoker_device_pubkey r ++
  to_be 8 (revocation_timestamp r) ++ revoker_signature r.

Definition rotation_encode (r : IdentityRotationRecord) : list byte :=
  [as_u8 (ir_version r)] ++ old_identity_pubkey r ++ new_identity_pubkey r ++ to_be 8 (rotation_timestamp r) ++
  [as_u8 (reason_tag (rotation_reason r))] ++ old_identity_signature r ++ new_identity_signature r ++
  code_recovery_public_half_proof r.

Definition version_guard {A} (version : byte) (k : res BackupError A) : res BackupError A :=
  rguard (negb (u8 version =? AUTHORIZATION_WIRE_VERSION))
    (WrappedKeyVersionMismatch AUTHORIZATION_WIRE_VERSION (u8 version)) k.

Definition request_from_bytes (bytes : list byte) : res BackupError DeviceAuthorizationRequest :=
  reject len bytes <? DEVICE_AUTH_REQUEST_BASE_LEN with InvalidWireFormat ;;
  let? version := index 0 bytes in
  version_guard version (
  let? pk := slice 1 33 bytes in
  let? ts := slice 33 41 bytes in
  let? nonce := slice 41 73 bytes in
  let? hint_len_b := index 73 bytes in
  let location_hint_len := u8 hint_len_b in
  reject LOCATION_HINT_MAX <? location_hint_len with InvalidWireFormat ;;
  let expected_total := DEVICE_AUTH_REQUEST_BASE_LEN + location_hint_len in
  reject negb (len bytes =? expected_total) with InvalidWireFormat ;;
  let hint_end := 74 + location_hint_len in
  let? hint := slice 74 hint_end bytes in
  reject negb (utf8_valid hint) with InvalidWireFormat ;;
  let? sig := slice hint_end (hint_end + DEVICE_SIG_LEN) bytes in
  Ok {| rq_version := u8 version; rq_new_device_pubkey := pk; request_timestamp := from_be ts;
        challenge_nonce := nonce; location_hint := hint; identity_signature := sig |}).

Definition approval_from_bytes (bytes : list byte) : res BackupError DeviceAuthorizationApproval :=
  reject negb (len bytes =? DEVICE_AUTH_APPROVAL_LEN) with InvalidWireFormat ;;
  let? version := index 0 bytes in
  version_guard version (
  let? new_pk := slice 1 33 bytes in
  let? approver := slice 33 65 bytes in
  let? since := slice 65 73 bytes in
  let? cutoff := slice 73 81 bytes in
  let? flags := index 81 bytes in
  reject negb (Z.land (u8 flags) POLICY_FLAGS_RESERVED_MASK =? 0) with InvalidWireFormat ;;
  let? sig := slice 82 146 bytes in
  Ok {| ap_version := u8 version; new_device_pubkey := new_pk; approver_device_pubkey := approver;
        authorized_since_timestamp := from_be since; history_cutoff_timestamp := from_be cutoff;
        policy_flags := u8 flags; approver_signature := sig |}).

Definition revocation_from_bytes (bytes : list byte) : res BackupError DeviceAuthorizationRevocation :=
  reject negb (len bytes =? DEVICE_AUTH_REVOKE_LEN) with InvalidWireFormat ;;
  let? version := index 0 bytes in
  version_guard version (
  let? revoked := slice 1 33 bytes in
  let? revoker := slice 33 65 bytes in
  let? ts := slice 65 73 bytes in
  let? sig := slice 73 137 bytes in
  Ok {| rv_version := u8 version; revoked_device_pubkey := revoked; revoker_device_pubkey := revoker;
        revocation_timestamp := from_be ts; revoker_signature := sig |}).

Definition rotation_from_bytes (bytes : list byte) : res BackupError IdentityRotationRecord :=
  reject negb (len bytes =? IDENTITY_ROTATION_LEN) with InvalidWireFormat ;;
  let? version := index 0 bytes in
  version_guard version (
  let? old_pk := slice 1 33 bytes in
  let? new_pk := slice 33 65 bytes in
  reject bool_decide (old_pk = new_pk) with InvalidWireFormat ;;
  let? ts := slice 65 73 bytes in
  let? reason_b := index 73 bytes in
  let? reason := ok_or (reason_from_tag (u8 reason_b)) InvalidWireFormat in
  let? old_sig := slice 74 138 bytes in
  let? new_sig := slice 138 202 bytes in
  let? proof := slice 202 234 bytes in
  Ok {| ir_version := u8 version; old_identity_pubkey := old_pk; new_identity_pubkey := new_pk;
        rotation_timestamp := from_be ts; rotation_reason := reason; old_identity_signature := old_sig;
        new_identity_signature := new_sig; code_recovery_public_half_proof := proof |}).

(** ** Verification *)
Section Verify.
Context `{Ed25519}.

Definition dalek_verify (pk msg sig : list byte) : res BackupError unit :=
  reject negb (vk_valid pk) with InvalidRistrettoEncoding ;;
  if ed_verify pk msg sig then Ok tt else Err CryptoVerificationFailed.

Definition request_verify (r : DeviceAuthorizationRequest) (expected : list byte) : res BackupError unit :=
  dalek_verify expected (request_signing_input r) (identity_signature r).
Definition approval_verify (a : DeviceAuthorizationApproval) (expected : list byte) : res BackupError unit :=
  dalek_verify expected (approval_signing_input a) (approver_signature a).
Definition approval_verify_self_consistent (a : DeviceAuthorizationApproval) : res BackupError unit :=
  approval_verify a (approver_device_pubkey a).
Definition revocation_verify (r : DeviceAuthorizationRevocation) (expected : list byte) : res BackupError unit :=
  dalek_verify expected (revocation_signing_input r) (revoker_signature r).
Definition revocation_verify_self_consistent (r : DeviceAuthorizationRevocation) : res BackupError unit :=
  revocation_verify r (revoker_device_pubkey r).
Definition is_self_revocation (r : DeviceAuthorizationRevocation) : bool :=
  bool_decide (revoked_device_pubkey r = revoker_device_pubkey r).
Definition rotation_verify (r : IdentityRotationRecord) : res BackupError unit :=
  let canonical := rotation_signing_input r in
  let? _ := dalek_verify (old_identity_pubkey r) canonical (old_identity_signature r) in
  let? _ := dalek_verify (new_identity_pubkey r) canonical (new_identity_signature r) in
  Ok tt.

End Verify.
(** ** Codec laws *)

Record wf_request (r : DeviceAuthorizationRequest) : Prop := {
  wrq_version : rq_version r = AUTHORIZATION_WIRE_VERSION;
  wrq_pk : len (rq_new_device_pubkey r) = 32;
  wrq_ts : is_u64 (request_timestamp r);
  wrq_nonce : len (challenge_nonce r) = 32;
  wrq_hint : len (location_hint r) <= LOCATION_HINT_MAX /\ utf8_valid (location_hint r) = true;
  wrq_sig : len (identity_signature r) = 64
}.

Record wf_approval (a : DeviceAuthorizationApproval) : Prop := {
  wap_version : ap_version a = AUTHORIZATION_WIRE_VERSION;
  wap_new : len (new_device_pubkey a) = 32;
  wap_by : len (approver_device_pubkey a) = 32;
  wap_since : is_u64 (authorized_since_timestamp a);
  wap_cutoff : is_u64 (history_cutoff_timestamp a);
  wap_flags : is_u8 (policy_flags a) /\ Z.land (policy_flags a) POLICY_FLAGS_RESERVED_MASK = 0;
  wap_sig : len (approver_signature a) = 64
}.

Record wf_revocation (r : DeviceAuthorizationRevocation) : Prop := {
  wrv_version : rv_version r = AUTHORIZATION_WIRE_VERSION;
  wrv_revoked : len (revoked_device_pubkey r) = 32;
  wrv_by : len (revoker_device_pubkey r) = 32;
  wrv_ts : is_u64 (revocation_timestamp r);
  wrv_sig : len (revoker_signature r) = 64
}.

Record wf_rotation (r : IdentityRotationRecord) : Prop := {
  wir_version : ir_version r = AUTHORIZATION_WIRE_VERSION;
  wir_old : len (old_identity_pubkey r) = 32;
  wir_new : len (new_identity_pubkey r) = 32;
  wir_ne : old_identity_pubkey r <> new_identity_pubkey r;
  wir_ts : is_u64 (rotation_timestamp r);
  wir_sigs : len (old_identity_signature r) = 64 /\ len (new_identity_signature r) = 64;
  wir_proof : len (code_recovery_public_half_proof r) = 32
}.

Lemma u8_as_u8_id z : is_u8 z -> u8 (as_u8 z) = z.
Proof. unfold is_u8, U8_MAX. intros. rewrite u8_as_u8. apply Z.mod_small. lia. Qed.

Lemma version_guard_ok {A} v (k : res BackupError A) :
  v = AUTHORIZATION_WIRE_VERSION -> version_guard (as_u8 v) k = k.
Proof. by intros ->. Qed.

Lemma version_guard_Ok {A} b (k : res BackupError A) a :
  version_guard b k = Ok a -> u8 b = AUTHORIZATION_WIRE_VERSION /\ k = Ok a.
Proof. unfold version_guard. intros Hg. res_inv Hg. by zbool. Qed.

Lemma version_guard_Panic {A} b (k : res BackupError A) : version_guard b k = Panic -> k = Panic.
Proof. unfold version_guard. intros Hg. by apply rguard_Panic in Hg as [_ Hg]. Qed.

Lemma reason_tag_u8 r : is_u8 (reason_tag r).
Proof. destruct r; unfold is_u8, U8_MAX; simpl; lia. Qed.

Lemma reason_from_tag_tag r : reason_from_tag (reason_tag r) = Some r.
Proof. by destruct r. Qed.

Lemma reason_from_tag_inv t r : reason_from_tag t = Some r -> reason_tag r = t.
Proof. unfold reason_from_tag. repeat case_match; zbool; naive_solver. Qed.

Ltac auth_lens := unfold DEVICE_AUTH_REQUEST_BASE_LEN, DEVICE_AUTH_APPROVAL_LEN, DEVICE_AUTH_REVOKE_LEN,
  IDENTITY_ROTATION_LEN, DEVICE_PUBKEY_LEN, DEVICE_SIG_LEN, CHALLENGE_NONCE_LEN, LOCATION_HINT_MAX,
  CODE_RECOVERY_PUBLIC_HALF_PROOF_LEN in *.

Lemma approval_dec_enc a : wf_approval a -> approval_from_bytes (approval_encode a) = Ok a.
Proof.
  intros [Hv Hn Hb Hs Hc [Hf Hm] Hg]. unfold approval_from_bytes, approval_encode. auth_lens.
  rewrite (proj2 (Z.eqb_eq _ _)) by len_lia. cbn [negb rguard].
  rd_index (as_u8 (ap_version a)). rewrite version_guard_ok by done.
  rd_slice (new_device_pubkey a). rd_slice (approver_device_pubkey a).
  rd_slice (to_be 8 (authorized_since_timestamp a)). rd_slice (to_be 8 (history_cutoff_timestamp a)).
  rd_index (as_u8 (policy_flags a)). rewrite u8_as_u8_id, Hm by done. cbn [Z.eqb negb rguard].
  rd_slice (approver_signature a). rewrite !from_be_to_be_u64, u8_as_u8_id by (done || by rewrite Hv).
  by destruct a.
Qed.

Lemma approval_enc_dec b a : approval_from_bytes b = Ok a -> approval_encode a = b /\ wf_approval a.
Proof.
  unfold approval_from_bytes. intros Hd. apply rguard_Ok in Hd as [Hl Hd]. inv_index Hd v S0.
  apply version_guard_Ok in Hd as [Hv Hd]. inv_slice Hd x1 S1 L1. inv_slice Hd x2 S2 L2.
  inv_slice Hd x3 S3 L3. inv_slice Hd x4 S4 L4. inv_index Hd f S5. apply rguard_Ok in Hd as [Hf Hd].
  inv_slice Hd x6 S6 L6. injection Hd as <-. zbool. auth_lens. split.
  - unfold approval_encode. cbn [ap_version new_device_pubkey approver_device_pubkey authorized_since_timestamp
      history_cutoff_timestamp policy_flags approver_signature].
    rewrite !as_u8_u8, !to_be_from_be_n by (simpl; lia).
    eapply (slices_cover (E := BackupError)); [glue_slices|lia].
  - split; cbn; try done; try (by apply from_be_u64). split; [|done]. pose proof (u8_range f). unfold is_u8, U8_MAX. lia.
Qed.

Lemma approval_total b : approval_from_bytes b <> Panic.
Proof.
  unfold approval_from_bytes. auth_lens. intros Hp. no_panic_step Hp. no_panic_step Hp.
  apply version_guard_Panic in Hp. no_panic Hp.
Qed.

#[export] Instance approval_codec : Codec BackupError DeviceAuthorizationApproval := {|
  enc := approval_encode; dec := approval_from_bytes; wf := wf_approval;
  dec_enc := approval_dec_enc; enc_dec := approval_enc_dec; dec_total := approval_total
|}.

Lemma revocation_dec_enc r : wf_revocation r -> revocation_from_bytes (revocation_encode r) = Ok r.
Proof.
  intros [Hv Hn Hb Hs Hg]. unfold revocation_from_bytes, revocation_encode. auth_lens.
  rewrite (proj2 (Z.eqb_eq _ _)) by len_lia. cbn [negb rguard].
  rd_index (as_u8 (rv_version r)). rewrite version_guard_ok by done.
  rd_slice (revoked_device_pubkey r). rd_slice (revoker_device_pubkey r).
  rd_slice (to_be 8 (revocation_timestamp r)). rd_slice (revoker_signature r).
  rewrite from_be_to_be_u64, u8_as_u8_id by (done || by rewrite Hv). by destruct r.
Qed.

Lemma revocation_enc_dec b r : revocation_from_bytes b = Ok r -> revocation_encode r = b /\ wf_revocation r.
Proof.
  unfold revocation_from_bytes. intros Hd. apply rguard_Ok in Hd as [Hl Hd]. inv_index Hd v S0.
  apply version_guard_Ok in Hd as [Hv Hd]. inv_slice Hd x1 S1 L1. inv_slice Hd x2 S2 L2.
  inv_slice Hd x3 S3 L3. inv_slice Hd x4 S4 L4. injection Hd as <-. zbool. auth_lens. split.
  - unfold revocation_encode. cbn [rv_version revoked_device_pubkey revoker_device_pubkey revocation_timestamp revoker_signature].
    rewrite as_u8_u8, to_be_from_be_n by (simpl; lia).
    eapply (slices_cover (E := BackupError)); [glue_slices|lia].
  - split; cbn; try done; by apply from_be_u64.
Qed.

Lemma revocation_total b : revocation_from_bytes b <> Panic.
Proof.
  unfold revocation_from_bytes. auth_lens. intros Hp. no_panic_step Hp. no_panic_step Hp.
  apply version_guard_Panic in Hp. no_panic Hp.
Qed.

#[export] Instance revocation_codec : Codec BackupError DeviceAuthorizationRevocation := {|
  enc := revocation_encode; dec := revocation_from_bytes; wf := wf_revocation;
  dec_enc := revocation_dec_enc; enc_dec := revocation_enc_dec; dec_total := revocation_total
|}.

Lemma rotation_dec_enc r : wf_rotation r -> rotation_from_bytes (rotation_encode r) = Ok r.
Proof.
  intros [Hv Ho Hn Hne Ht [Hs1 Hs2] Hp]. unfold rotation_from_bytes, rotation_encode. auth_lens.
  rewrite (proj2 (Z.eqb_eq _ _)) by len_lia. cbn [negb rguard].
  rd_index (as_u8 (ir_version r)). rewrite version_guard_ok by done.
  rd_slice (old_identity_pubkey r). rd_slice (new_identity_pubkey r).
  rewrite bool_decide_false by done. cbn [rguard].
  rd_slice (to_be 8 (rotation_timestamp r)). rd_index (as_u8 (reason_tag (rotation_reason r))).
  rewrite u8_as_u8_id, reason_from_tag_tag by apply reason_tag_u8. cbn [ok_or rbind].
  rd_slice (old_identity_signature r). rd_slice (new_identity_signature r).
  rd_slice (code_recovery_public_half_proof r).
  rewrite from_be_to_be_u64, u8_as_u8_id by (done || by rewrite Hv). by destruct r.
Qed.

Lemma rotation_enc_dec b r : rotation_from_bytes b = Ok r -> rotation_encode r = b /\ wf_rotation r.
Proof.
  unfold rotation_from_bytes. intros Hd. apply rguard_Ok in Hd as [Hl Hd]. inv_index Hd v S0.
  apply version_guard_Ok in Hd as [Hv Hd]. inv_slice Hd x1 S1 L1. inv_slice Hd x2 S2 L2.
  apply rguard_Ok in Hd as [Hne Hd]. inv_slice Hd x3 S3 L3. inv_index Hd rb S4.
  apply rbind_Ok in Hd as (reason & Hr & Hd). apply ok_or_Ok, reason_from_tag_inv in Hr.
  inv_slice Hd x5 S5 L5. inv_slice Hd x6 S6 L6. inv_slice Hd x7 S7 L7. injection Hd as <-.
  zbool. auth_lens. split.
  - unfold rotation_encode. cbn [ir_version old_identity_pubkey new_identity_pubkey rotation_timestamp rotation_reason
      old_identity_signature new_identity_signature code_recovery_public_half_proof].
    rewrite Hr, !as_u8_u8, to_be_from_be_n by (simpl; lia).
    eapply (slices_cover (E := BackupError)); [glue_slices|lia].
  - split; cbn; try done; by apply from_be_u64.
Qed.

Lemma rotation_total b : rotation_from_bytes b <> Panic.
Proof.
  unfold rotation_from_bytes. auth_lens. intros Hp. no_panic_step Hp. no_panic_step Hp.
  apply version_guard_Panic in Hp. no_panic Hp.
  destruct (reason_from_tag _); cbn [ok_or rbind] in Hp; [|done]. no_panic Hp.
Qed.

#[export] Instance rotation_codec : Codec BackupError IdentityRotationRecord := {|
  enc := rotation_encode; dec := rotation_from_bytes; wf := wf_rotation;
  dec_enc := rotation_dec_enc; enc_dec := rotation_enc_dec; dec_total := rotation_total
|}.

Lemma request_dec_enc r : wf_request r -> request_from_bytes (request_encode r) = Ok r.
Proof.
  intros [Hv Hk Ht Hn [Hh Hu] Hs]. unfold request_from_bytes, request_encode. auth_lens.
  pose proof (len_nonneg (location_hint r)).
  rewrite (proj2 (Z.ltb_ge _ _)) by len_lia. cbn [rguard].
  rd_index (as_u8 (rq_version r)). rewrite version_guard_ok by done.
  rd_slice (rq_new_device_pubkey r). rd_slice (to_be 8 (request_timestamp r)). rd_slice (challenge_nonce r).
  rd_index (as_u8 (len (location_hint r))). rewrite u8_as_u8_id by (unfold is_u8, U8_MAX; lia).
  rewrite (proj2 (Z.ltb_ge _ _)) by lia. cbn [rguard].
  rewrite (proj2 (Z.eqb_eq _ _)) by len_lia. cbn [negb rguard].
  rd_slice (location_hint r). rewrite Hu. cbn [negb rguard]. rd_slice (identity_signature r).
  rewrite from_be_to_be_u64, u8_as_u8_id by (done || by rewrite Hv). by destruct r.
Qed.

Lemma request_enc_dec b r : request_from_bytes b = Ok r -> request_encode r = b /\ wf_request r.
Proof.
  unfold request_from_bytes. intros Hd. apply rguard_Ok in Hd as [Hl Hd]. inv_index Hd v S0.
  apply version_guard_Ok in Hd as [Hv Hd]. inv_slice Hd x1 S1 L1. inv_slice Hd x2 S2 L2. inv_slice Hd x3 S3 L3.
  inv_index Hd hl S4. apply rguard_Ok in Hd as [Hm Hd]. apply rguard_Ok in Hd as [Ht Hd].
  inv_slice Hd x5 S5 L5. apply rguard_Ok in Hd as [Hu Hd]. inv_slice Hd x6 S6 L6. injection Hd as <-.
  zbool. auth_lens. split.
  - unfold request_encode. cbn [rq_version rq_new_device_pubkey request_timestamp challenge_nonce location_hint identity_signature].
    replace (len x5) with (u8 hl) by lia. rewrite !as_u8_u8, to_be_from_be_n by (simpl; lia).
    eapply (slices_cover (E := BackupError)); [glue_slices|lia].
  - split; cbn; try done; try (by apply from_be_u64); auth_lens; try lia. split; [lia|done].
Qed.

Lemma request_total b : request_from_bytes b <> Panic.
Proof.
  unfold request_from_bytes. auth_lens. intros Hp. no_panic_step Hp. no_panic_step Hp.
  apply version_guard_Panic in Hp. no_panic Hp.
Qed.

#[export] Instance request_codec : Codec BackupError DeviceAuthorizationRequest := {|
  enc := request_encode; dec := request_from_bytes; wf := wf_request;
  dec_enc := request_dec_enc; enc_dec := request_enc_dec; dec_total := request_total
|}.

(** ** Signing inputs *)

(** The same record up to its signatures. *)
Definition approval_content (a : DeviceAuthorizationApproval) :=
  (new_device_pubkey a, approver_device_pubkey a, authorized_since_timestamp a, history_cutoff_timestamp a, policy_flags a).
Definition revocation_content (r : DeviceAuthorizationRevocation) :=
  (revoked_device_pubkey r, revoker_device_pubkey r, revocation_timestamp r).
Definition rotation_content (r : IdentityRotationRecord) :=
  (old_identity_pubkey r, new_identity_pubkey r, rotation_timestamp r, rotation_reason r, code_recovery_public_half_proof r).
Definition request_content (r : DeviceAuthorizationRequest) :=
  (rq_new_device_pubkey r, request_timestamp r, challenge_nonce r, location_hint r).

Lemma approval_input_inj a1 a2 :
  wf_approval a1 -> wf_approval a2 -> approval_signing_input a1 = approval_signing_input a2 ->
  approval_content a1 = approval_content a2.
Proof.
  intros [Hv Hn Hb Hs Hc [Hf _] _] [Hv' Hn' Hb' Hs' Hc' [Hf' _] _] He.
  unfold approval_signing_input, canonical_signing_input_approval in He.
  apply app_inv_head in He. rewrite Hv, Hv' in He. apply app_inv_head in He.
  peel He E1. peel He E2. peel He E3. peel He E4. apply to_be_u64_inj in E3, E4; try done.
  injection He as E5. apply (f_equal u8) in E5. rewrite !u8_as_u8_id in E5 by done.
  unfold approval_content. congruence.
Qed.

Lemma revocation_input_inj r1 r2 :
  wf_revocation r1 -> wf_revocation r2 -> revocation_signing_input r1 = revocation_signing_input r2 ->
  revocation_content r1 = revocation_content r2.
Proof.
  intros [Hv Hn Hb Hs _] [Hv' Hn' Hb' Hs' _] He.
  unfold revocation_signing_input, canonical_signing_input_revocation in He.
  apply app_inv_head in He. rewrite Hv, Hv' in He. apply app_inv_head in He.
  peel He E1. peel He E2. apply to_be_u64_inj in He; try done. unfold revocation_content. congruence.
Qed.

Lemma rotation_input_inj r1 r2 :
  wf_rotation r1 -> wf_rotation r2 -> rotation_signing_input r1 = rotation_signing_input r2 ->
  rotation_content r1 = rotation_content r2.
Proof.
  intros [Hv Ho Hn _ Ht _ Hp] [Hv' Ho' Hn' _ Ht' _ Hp'] He.
  unfold rotation_signing_input, canonical_signing_input_rotation in He.
  apply app_inv_head in He. rewrite Hv, Hv' in He. apply app_inv_head in He.
  peel He E1. peel He E2. peel He E3. peel He E4. apply to_be_u64_inj in E3; try done.
  injection E4 as E5. apply (f_equal u8) in E5. rewrite !u8_as_u8_id in E5 by apply reason_tag_u8.
  apply (f_equal reason_from_tag) in E5. rewrite !reason_from_tag_tag in E5. unfold rotation_content. congruence.
Qed.

Lemma request_input_inj r1 r2 :
  wf_request r1 -> wf_request r2 -> request_signing_input r1 = request_signing_input r2 ->
  request_content r1 = request_content r2.
Proof.
  intros [Hv Hk Ht Hn _ _] [Hv' Hk' Ht' Hn' _ _] He.
  unfold request_signing_input, canonical_signing_input_request in He.
  apply app_inv_head in He. rewrite Hv, Hv' in He. apply app_inv_head in He.
  peel He E1. peel He E2. peel He E3. peel He E4. apply to_be_u64_inj in E2; try done.
  unfold request_content. congruence.
Qed.

(** Inputs with different domain separators differ at one fixed byte. *)
Lemma separated_at (i : nat) (l k : list byte) : l !! i <> k !! i -> l <> k.
Proof. congruence. Qed.

(** ** Theorems *)

(** The four authorization records have canonical wire formats: decoding inverts
    encoding on well-formed records, every accepted byte string is the encoding of the
    well-formed record it yields (no two encodings of one record, no reserved policy bit,
    no identical old and new identity), and no input makes a decoder panic. *)
Theorem authorization_codecs (b : list byte) :
  ((forall r, wf_request r -> request_from_bytes (request_encode r) = Ok r) /\
   (forall r, request_from_bytes b = Ok r -> request_encode r = b /\ wf_request r) /\
   request_from_bytes b <> Panic) /\
  ((forall a, wf_approval a -> approval_from_bytes (approval_encode a) = Ok a) /\
   (forall a, approval_from_bytes b = Ok a -> approval_encode a = b /\ wf_approval a) /\
   approval_from_bytes b <> Panic) /\
  ((forall r, wf_revocation r -> revocation_from_bytes (revocation_encode r) = Ok r) /\
   (forall r, revocation_from_bytes b = Ok r -> revocation_encode r = b /\ wf_revocation r) /\
   revocation_from_bytes b <> Panic) /\
  ((forall r, wf_rotation r -> rotation_from_bytes (rotation_encode r) = Ok r) /\
   (forall r, rotation_from_bytes b = Ok r -> rotation_encode r = b /\ wf_rotation r) /\
   rotation_from_bytes b <> Panic).
Proof.
  split_and!; first
    [ exact request_dec_enc | exact (request_enc_dec b) | exact (request_total b)
    | exact approval_dec_enc | exact (approval_enc_dec b) | exact (approval_total b)
    | exact revocation_dec_enc | exact (revocation_enc_dec b) | exact (revocation_total b)
    | exact rotation_dec_enc | exact (rotation_enc_dec b) | exact (rotation_total b) ].
Qed.

(** Signatures cannot be moved between records: the signing inputs of the four kinds
    of record are pairwise different byte strings, and within a kind the input determines
    every signed field of a well-formed record. *)
Theorem signing_inputs_bind (q1 q2 : DeviceAuthorizationRequest) (a1 a2 : DeviceAuthorizationApproval)
    (v1 v2 : DeviceAuthorizationRevocation) (i1 i2 : IdentityRotationRecord)
    (Hq : wf_request q1 /\ wf_request q2) (Ha : wf_approval a1 /\ wf_approval a2)
    (Hv : wf_revocation v1 /\ wf_revocation v2) (Hi : wf_rotation i1 /\ wf_rotation i2) :
  (request_signing_input q1 <> approval_signing_input a1 /\
   request_signing_input q1 <> revocation_signing_input v1 /\
   request_signing_input q1 <> rotation_signing_input i1 /\
   approval_signing_input a1 <> revocation_signing_input v1 /\
   approval_signing_input a1 <> rotation_signing_input i1 /\
   revocation_signing_input v1 <> rotation_signing_input i1) /\
  (request_signing_input q1 = request_signing_input q2 -> request_content q1 = request_content q2) /\
  (approval_signing_input a1 = approval_signing_input a2 -> approval_content a1 = approval_content a2) /\
  (revocation_signing_input v1 = revocation_signing_input v2 -> revocation_content v1 = revocation_content v2) /\
  (rotation_signing_input i1 = rotation_signing_input i2 -> rotation_content i1 = rotation_content i2).
Proof.
  split; [split_and!; first [apply (separated_at 10); discriminate | apply (separated_at 22); discriminate
                            | apply (separated_at 24); discriminate]|].
  destruct Hq, Ha, Hv, Hi. split_and!; [by apply request_input_inj|by apply approval_input_inj|by apply revocation_input_inj|by apply rotation_input_inj].
Qed.

(** Witness data. *)
Definition toy_pk (n : byte) : list byte := replicate 32 n.
Definition toy_request : DeviceAuthorizationRequest :=
  {| rq_version := 1; rq_new_device_pubkey := toy_pk Byte.x01; request_timestamp := 77; challenge_nonce := toy_pk Byte.x02;
     location_hint := [Byte.x42; Byte.xc3; Byte.xa9]; identity_signature := replicate 64 Byte.x05 |}.
Definition toy_approval : DeviceAuthorizationApproval :=
  {| ap_version := 1; new_device_pubkey := toy_pk Byte.x01; approver_device_pubkey := toy_pk Byte.x03;
     authorized_since_timestamp := 5; history_cutoff_timestamp := 6; policy_flags := 1;
     approver_signature := replicate 64 Byte.x05 |}.
Definition toy_revocation : DeviceAuthorizationRevocation :=
  {| rv_version := 1; revoked_device_pubkey := toy_pk Byte.x01; revoker_device_pubkey := toy_pk Byte.x03;
     revocation_timestamp := 9; revoker_signature := replicate 64 Byte.x05 |}.
Definition toy_rotation : IdentityRotationRecord :=
  {| ir_version := 1; old_identity_pubkey := toy_pk Byte.x01; new_identity_pubkey := toy_pk Byte.x02;
     rotation_timestamp := 9; rotation_reason := PlannedRotation; old_identity_signature := replicate 64 Byte.x05;
     new_identity_signature := replicate 64 Byte.x06; code_recovery_public_half_proof := toy_pk Byte.x07 |}.

Lemma toy_wf : wf_request toy_request /\ wf_approval toy_approval /\ wf_revocation toy_revocation /\ wf_rotation toy_rotation.
Proof.
  repeat split; vm_compute; discriminate.
Qed.

Lemma signing_inputs_bind_witness : request_signing_input toy_request <> approval_signing_input toy_approval.
Proof.
  apply (signing_inputs_bind toy_request toy_request toy_approval toy_approval toy_revocation toy_revocation
           toy_rotation toy_rotation); split; apply toy_wf.
Defined.

End DeviceAuth.
