(* ===== verification/KtCodec.v ===== *)
(** * Key transparency wire codecs ([crates/umbrella-kt/src/codec.rs])

    The signed epoch root and the three authorization entries of the log.  The
    entry codecs wrap the record codecs of the backup crate behind a prefix byte; they
    are proved against the interface [Codec], not against the records' layout. *)
From S2P Require Import Prelude Bytes Crypto KtError BackupError KtWitness DeviceAuth.
Import KtWitness DeviceAuth.

Module KtCodec.

(** ** Signed epoch roots *)
Definition SIGNED_EPOCH_ROOT_WIRE_VERSION : byte := Byte.x01.
Definition MAX_WITNESSES_PER_EPOCH : Z := 5.
Definition SIGNATURE_WIRE_LEN : Z := PUBLIC_KEY_LEN + SIGNATURE_LEN.
Definition SIGNED_EPOCH_ROOT_HEADER_LEN : Z := 1 + 8 + NODE_HASH_LEN + 8 + 8 + 1.

Definition signed_epoch_root_wire_len (signature_count : Z) : Z :=
  SIGNED_EPOCH_ROOT_HEADER_LEN + signature_count * SIGNATURE_WIRE_LEN.

Definition encode_signed_epoch_root (signed : SignedEpochRoot) : res KtError (list byte) :=
  reject MAX_WITNESSES_PER_EPOCH <? len (signatures signed)
    with InvalidSignedEpochRootWire "too_many_signatures" ;;
  Ok ([SIGNED_EPOCH_ROOT_WIRE_VERSION] ++ to_be 8 (epoch signed) ++ root signed ++ to_be 8 (log_size signed) ++
      to_be 8 (timestamp_unix_millis signed) ++ [as_u8 (len (signatures signed))] ++
      concat (encode_sig <$> signatures signed)).

(** The loop [for _ in 0..signature_count]. *)
Fixpoint read_sigs (n : nat) (bytes : list byte) (cursor : Z) : res KtError (list WitnessSignature) :=
  match n with
  | O => Ok []
  | S n =>
      let? pk := slice cursor (cursor + PUBLIC_KEY_LEN) bytes in
      let cursor := cursor + PUBLIC_KEY_LEN in
      let? sg := slice cursor (cursor + SIGNATURE_LEN) bytes in
      let cursor := cursor + SIGNATURE_LEN in
      let? sigs := read_sigs n bytes cursor in
      Ok ({| witness := pk; signature := sg |} :: sigs)
  end.

Definition decode_signed_epoch_root (bytes : list byte) : res KtError SignedEpochRoot :=
  reject len bytes <? SIGNED_EPOCH_ROOT_HEADER_LEN with InvalidSignedEpochRootWire "too_short" ;;
  let? v := index 0 bytes in
  reject negb (bool_decide (v = SIGNED_EPOCH_ROOT_WIRE_VERSION))
    with InvalidSignedEpochRootWire "unknown_version" ;;
  let cursor := 1 in
  let? epoch_b := slice cursor (cursor + 8) bytes in
  let cursor := cursor + 8 in
  let? root := slice cursor (cursor + NODE_HASH_LEN) bytes in
  let cursor := cursor + NODE_HASH_LEN in
  let? size_b := slice cursor (cursor + 8) bytes in
  let cursor := cursor + 8 in
  let? ts_b := slice cursor (cursor + 8) bytes in
  let cursor := cursor + 8 in
  let? count_b := index cursor bytes in
  let signature_count := u8 count_b in
  let cursor := cursor + 1 in
  reject MAX_WITNESSES_PER_EPOCH <? signature_count with InvalidSignedEpochRootWire "too_many_signatures" ;;
  let expected_len := signed_epoch_root_wire_len signature_count in
  reject len bytes <? expected_len with InvalidSignedEpochRootWire "truncated_signatures" ;;
  reject expected_len <? len bytes with InvalidSignedEpochRootWire "trailing_bytes" ;;
  let? sigs := read_sigs (Z.to_nat signature_count) bytes cursor in
  Ok {| epoch := from_be epoch_b; root := root; log_size := from_be size_b;
        timestamp_unix_millis := from_be ts_b; signatures := sigs |}.

(** ** Authorization entries *)
Inductive EntryType :=
| IdentityAnnounce | DeviceAttestation | DeviceRevocation
| EDeviceAuthorizationApproval | EDeviceAuthorizationRevocation | EIdentityRotationRecord.
#[global] Instance EntryType_eq_dec : EqDecision EntryType.
Proof. solve_decision. Defined.

Definition entry_tag (t : EntryType) : Z :=
  match t with
  | IdentityAnnounce => 1 | DeviceAttestation => 2 | DeviceRevocation => 3
  | EDeviceAuthorizationApproval => 4 | EDeviceAuthorizationRevocation => 5 | EIdentityRotationRecord => 6
  end.
Definition entry_from_tag (tag : Z) : option EntryType :=
  if tag =? 1 then Some IdentityAnnounce else if tag =? 2 then Some DeviceAttestation
  else if tag =? 3 then Some DeviceRevocation else if tag =? 4 then Some EDeviceAuthorizationApproval
  else if tag =? 5 then Some EDeviceAuthorizationRevocation else if tag =? 6 then Some EIdentityRotationRecord
  else None.

Definition KT_ENTRY_DEVICE_AUTHORIZATION_APPROVAL_PREFIX : byte := Byte.x04.
Definition KT_ENTRY_DEVICE_AUTHORIZATION_REVOCATION_PREFIX : byte := Byte.x05.
Definition KT_ENTRY_IDENTITY_ROTATION_PREFIX : byte := Byte.x06.
Definition KT_ENTRY_DEVICE_AUTHORIZATION_APPROVAL_WIRE_LEN : Z := 1 + DEVICE_AUTH_APPROVAL_LEN.
Definition KT_ENTRY_DEVICE_AUTHORIZATION_REVOCATION_WIRE_LEN : Z := 1 + DEVICE_AUTH_REVOKE_LEN.
Definition KT_ENTRY_IDENTITY_ROTATION_WIRE_LEN : Z := 1 + IDENTITY_ROTATION_LEN.

(** The [map_err] closure the three decoders share. *)
Definition record_error (e : BackupError) : KtError :=
  match e with
  | WrappedKeyVersionMismatch _ _ => InvalidAuthorizationEntryWire "record_unknown_wire_version"
  | _ => InvalidAuthorizationEntryWire "record_invalid_wire_format"
  end.

Definition encode_kt_entry_identity_rotation (r : IdentityRotationRecord) : list byte :=
  KT_ENTRY_IDENTITY_ROTATION_PREFIX :: rotation_encode r.
Definition encode_kt_entry_device_authorization_approval (r : DeviceAuthorizationApproval) : list byte :=
  KT_ENTRY_DEVICE_AUTHORIZATION_APPROVAL_PREFIX :: approval_encode r.
Definition encode_kt_entry_device_authorization_revocation (r : DeviceAuthorizationRevocation) : list byte :=
  KT_ENTRY_DEVICE_AUTHORIZATION_REVOCATION_PREFIX :: revocation_encode r.

(** The body the three decoders share: emptiness, prefix, length, record. *)
Definition decode_prefixed {A} (prefix : byte) (wire_len : Z) (from_bytes : list byte -> res BackupError A)
    (bytes : list byte) : res KtError A :=
  reject len bytes =? 0 with InvalidAuthorizationEntryWire "too_short" ;;
  let? b0 := index 0 bytes in
  reject negb (bool_decide (b0 = prefix)) with InvalidAuthorizationEntryWire "wrong_prefix" ;;
  reject negb (len bytes =? wire_len) with InvalidAuthorizationEntryWire "wrong_length" ;;
  let? rest := slice_from 1 bytes in
  rmap_err record_error (from_bytes rest).

Definition decode_kt_entry_identity_rotation : list byte -> res KtError IdentityRotationRecord :=
  decode_prefixed KT_ENTRY_IDENTITY_ROTATION_PREFIX KT_ENTRY_IDENTITY_ROTATION_WIRE_LEN rotation_from_bytes.
Definition decode_kt_entry_device_authorization_approval : list byte -> res KtError DeviceAuthorizationApproval :=
  decode_prefixed KT_ENTRY_DEVICE_AUTHORIZATION_APPROVAL_PREFIX KT_ENTRY_DEVICE_AUTHORIZATION_APPROVAL_WIRE_LEN
    approval_from_bytes.
Definition decode_kt_entry_device_authorization_revocation : list byte -> res KtError DeviceAuthorizationRevocation :=
  decode_prefixed KT_ENTRY_DEVICE_AUTHORIZATION_REVOCATION_PREFIX KT_ENTRY_DEVICE_AUTHORIZATION_REVOCATION_WIRE_LEN
    revocation_from_bytes.

Inductive KtAuthorizationEntry :=
| Approval (a : DeviceAuthorizationApproval)
| Revocation (r : DeviceAuthorizationRevocation)
| IdentityRotation (r : IdentityRotationRecord).

Definition entry_type (e : KtAuthorizationEntry) : EntryType :=
  match e with
  | Approval _ => EDeviceAuthorizationApproval
  | Revocation _ => EDeviceAuthorizationRevocation
  | IdentityRotation _ => EIdentityRotationRecord
  end.

Definition decode_kt_authorization_entry (bytes : list byte) : res KtError KtAuthorizationEntry :=
  reject len bytes =? 0 with InvalidAuthorizationEntryWire "too_short" ;;
  let? b0 := index 0 bytes in
  if bool_decide (b0 = KT_ENTRY_DEVICE_AUTHORIZATION_APPROVAL_PREFIX)
  then rmap Approval (decode_kt_entry_device_authorization_approval bytes)
  else if bool_decide (b0 = KT_ENTRY_DEVICE_AUTHORIZATION_REVOCATION_PREFIX)
  then rmap Revocation (decode_kt_entry_device_authorization_revocation bytes)
  else if bool_decide (b0 = KT_ENTRY_IDENTITY_ROTATION_PREFIX)
  then rmap IdentityRotation (decode_kt_entry_identity_rotation bytes)
  else Err (InvalidAuthorizationEntryWire "wrong_prefix").

Definition encode_entry (e : KtAuthorizationEntry) : list byte :=
  match e with
  | Approval a => encode_kt_entry_device_authorization_approval a
  | Revocation r => encode_kt_entry_device_authorization_revocation r
  | IdentityRotation r => encode_kt_entry_identity_rotation r
  end.

(** ** Lemmas: signed epoch roots *)

Lemma read_sigs_hit sigs pre post :
  Forall wf_sig sigs ->
  read_sigs (length sigs) (pre ++ concat (encode_sig <$> sigs) ++ post) (len pre) = Ok sigs.
Proof.
  intros Hf. revert pre. induction Hf as [|sig sigs [H1 H2] _ IH]; intros pre; [done|].
  unfold PUBLIC_KEY_LEN, SIGNATURE_LEN in H1, H2. cbn [length read_sigs]. unfold PUBLIC_KEY_LEN, SIGNATURE_LEN.
  rewrite fmap_cons. cbn [concat]. change (encode_sig sig) with (witness sig ++ signature sig). rewrite <- !app_assoc.
  rd_slice (witness sig). rd_slice (signature sig).
  specialize (IH (pre ++ witness sig ++ signature sig)). rewrite <- !app_assoc, !len_app, H1, H2 in IH.
  replace (len pre + 32 + 64) with (len pre + (32 + 64)) by lia. rewrite IH. by destruct sig.
Qed.

Lemma read_sigs_inv n bytes cur sigs :
  0 <= cur <= len bytes -> read_sigs n bytes cur = Ok sigs ->
  slice (E := KtError) cur (cur + 96 * Z.of_nat n) bytes = Ok (concat (encode_sig <$> sigs)) /\
  Forall wf_sig sigs /\ length sigs = n.
Proof.
  revert cur sigs. induction n as [|n IH]; intros cur sigs Hc; cbn [read_sigs].
  { intros [= <-]. split_and!; [|done..]. rewrite slice_in_range by lia.
    replace (cur + 96 * Z.of_nat 0 - cur) with 0 by lia. done. }
  unfold PUBLIC_KEY_LEN, SIGNATURE_LEN. intros Hr. inv_slice Hr pk S1 L1. inv_slice Hr sg S2 L2.
  apply rbind_Ok in Hr as (sigs' & Hs & Hr). injection Hr as <-.
  pose proof (slice_Ok_inv _ _ _ _ S2) as (R1 & R2 & _).
  apply IH in Hs as (S3 & F3 & <-); [|lia]. split_and!; [| |done].
  - rewrite fmap_cons. cbn [concat]. unfold encode_sig at 1. cbn [witness signature].
    replace (cur + 96 * Z.of_nat (S (length sigs'))) with (cur + 32 + 64 + 96 * Z.of_nat (length sigs')) by lia.
    eapply slice_glue; [|exact S3]. by eapply slice_glue.
  - constructor; [|done]. unfold wf_sig, PUBLIC_KEY_LEN, SIGNATURE_LEN. cbn [witness signature]. lia.
Qed.

Lemma read_sigs_total n bytes cur :
  0 <= cur -> cur + 96 * Z.of_nat n <= len bytes -> read_sigs n bytes cur <> Panic.
Proof.
  revert cur. induction n as [|n IH]; intros cur H0 Hl Hp; cbn [read_sigs] in Hp; [done|].
  unfold PUBLIC_KEY_LEN, SIGNATURE_LEN in Hp. no_panic_step Hp. no_panic_step Hp.
  apply rbind_Panic in Hp as [Hp|(? & _ & Hp)]; [|done]. by apply IH in Hp; try lia.
Qed.

Ltac root_lens := unfold signed_epoch_root_wire_len, SIGNED_EPOCH_ROOT_HEADER_LEN, SIGNATURE_WIRE_LEN,
  PUBLIC_KEY_LEN, SIGNATURE_LEN, NODE_HASH_LEN, MAX_WITNESSES_PER_EPOCH in *.

Lemma decode_encode_root s b :
  wf_signed s -> encode_signed_epoch_root s = Ok b -> decode_signed_epoch_root b = Ok s.
Proof.
  intros [He Hr Hz Ht Hs] Hen. unfold encode_signed_epoch_root in Hen. apply rguard_Ok in Hen as [Hc Hen].
  apply Ok_inj in Hen as <-. zbool. root_lens. pose proof (len_encode_sigs _ Hs) as Hsl.
  pose proof (len_nonneg (signatures s)) as Hnn. set (n := len (signatures s)) in *.
  set (S0 := concat (encode_sig <$> signatures s)) in *.
  unfold decode_signed_epoch_root. root_lens.
  rewrite (proj2 (Z.ltb_ge _ _)) by len_lia. cbn [rguard].
  rd_index SIGNED_EPOCH_ROOT_WIRE_VERSION. rewrite bool_decide_true by done. cbn [negb rguard]. cbn zeta.
  rd_slice (to_be 8 (epoch s)). rd_slice (root s). rd_slice (to_be 8 (log_size s)).
  rd_slice (to_be 8 (timestamp_unix_millis s)). rd_index (as_u8 n).
  rewrite u8_as_u8_id by (unfold is_u8, U8_MAX; lia).
  rewrite !(proj2 (Z.ltb_ge _ _)) by len_lia. cbn [rguard].
  pose proof (read_sigs_hit (signatures s) ([SIGNED_EPOCH_ROOT_WIRE_VERSION] ++ to_be 8 (epoch s) ++ root s ++
    to_be 8 (log_size s) ++ to_be 8 (timestamp_unix_millis s) ++ [as_u8 n]) [] Hs) as Hrs.
  rewrite app_nil_r, <- !app_assoc in Hrs. fold S0 in Hrs.
  assert (Hpre : len ([SIGNED_EPOCH_ROOT_WIRE_VERSION] ++ to_be 8 (epoch s) ++ root s ++
    to_be 8 (log_size s) ++ to_be 8 (timestamp_unix_millis s) ++ [as_u8 n]) = 58) by len_lia.
  rewrite Hpre in Hrs. replace (1 + 8 + 32 + 8 + 8 + 1) with 58 by lia.
  replace (Z.to_nat n) with (length (signatures s)) by (unfold n, len; lia).
  rewrite Hrs. cbn [rbind]. rewrite !from_be_to_be_u64 by done. clear -s. by destruct s.
Qed.

Lemma encode_decode_root b s :
  decode_signed_epoch_root b = Ok s -> encode_signed_epoch_root s = Ok b /\ wf_signed s.
Proof.
  unfold decode_signed_epoch_root. cbn zeta. intros Hd. apply rguard_Ok in Hd as [Hl Hd]. inv_index Hd v S0.
  apply rguard_Ok in Hd as [Hv Hd]. inv_slice Hd x1 S1 L1. inv_slice Hd x2 S2 L2. inv_slice Hd x3 S3 L3.
  inv_slice Hd x4 S4 L4. inv_index Hd cb S5. apply rguard_Ok in Hd as [Hc Hd]. apply rguard_Ok in Hd as [Ht1 Hd].
  apply rguard_Ok in Hd as [Ht2 Hd]. apply rbind_Ok in Hd as (sigs & Hs & Hd). injection Hd as <-.
  zbool. subst v. pose proof (u8_range cb). root_lens.
  apply read_sigs_inv in Hs as (S6 & F6 & L6); [|lia].
  assert (Hn : len sigs = u8 cb) by (unfold len; lia). split.
  - unfold encode_signed_epoch_root. root_lens. cbn [epoch root log_size timestamp_unix_millis signatures].
    rewrite Hn, (proj2 (Z.ltb_ge _ _)) by lia. cbn [rguard]. f_equal.
    rewrite as_u8_u8, !to_be_from_be_n by (simpl; lia).
    eapply (slices_cover (E := KtError)); [glue_slices|lia].
  - split; cbn; try done; by apply from_be_u64.
Qed.

Lemma decode_root_total b : decode_signed_epoch_root b <> Panic.
Proof.
  unfold decode_signed_epoch_root. cbn zeta. root_lens. intros Hp. no_panic Hp.
  apply rbind_Panic in Hp as [Hp|(? & _ & Hp)]; [|done]. apply read_sigs_total in Hp; lia || done.
Qed.

(** ** Lemmas: entries *)
Section Prefixed.
Context {A : Type} `{!Codec BackupError A} (prefix : byte) (n : Z).
Context (Hn : forall a, wf a -> len (enc a) = n).

Lemma prefixed_dec_enc a : wf a -> decode_prefixed prefix (1 + n) dec (prefix :: enc a) = Ok a.
Proof.
  intros Hw. unfold decode_prefixed. pose proof (Hn a Hw). pose proof (len_nonneg (enc a)).
  rewrite len_cons, (proj2 (Z.eqb_neq _ _)) by lia. cbn [rguard]. rewrite index_0. cbn [rbind].
  rewrite bool_decide_true by done. cbn [negb rguard]. rewrite (proj2 (Z.eqb_eq _ _)) by lia. cbn [negb rguard].
  unfold slice_from. rewrite slice_skip_cons by lia. rewrite slice_full by (rewrite ?len_cons; lia).
  cbn [rbind]. by rewrite dec_enc.
Qed.

Lemma prefixed_enc_dec b a :
  decode_prefixed prefix (1 + n) dec b = Ok a -> prefix :: enc a = b /\ wf a.
Proof.
  unfold decode_prefixed, slice_from. intros Hd. apply rguard_Ok in Hd as [_ Hd]. inv_index Hd b0 S0.
  apply rguard_Ok in Hd as [Hp Hd]. apply rguard_Ok in Hd as [_ Hd]. inv_slice Hd r S1 L1. zbool. subst b0.
  destruct (dec r) as [a'|e|] eqn:Hr; simpl in Hd; [|done..]. injection Hd as ->.
  apply enc_dec in Hr as [<- Hw]. split; [|done].
  assert (Hc : [prefix] ++ enc a = b) by (eapply (slices_cover (E := KtError)); [glue_slices|done]). exact Hc.
Qed.

Lemma prefixed_total b : decode_prefixed prefix (1 + n) dec b <> Panic.
Proof.
  unfold decode_prefixed, slice_from. intros Hp. no_panic_step Hp. pose proof (len_nonneg b). no_panic Hp.
  destruct (dec x) eqn:Hd; simpl in Hp; try done. by apply dec_total in Hd.
Qed.
End Prefixed.

Lemma len_approval a : wf_approval a -> len (approval_encode a) = DEVICE_AUTH_APPROVAL_LEN.
Proof. intros [? ? ? ? ? ? ?]. unfold approval_encode. auth_lens. len_lia. Qed.
Lemma len_revocation r : wf_revocation r -> len (revocation_encode r) = DEVICE_AUTH_REVOKE_LEN.
Proof. intros [? ? ? ? ?]. unfold revocation_encode. auth_lens. len_lia. Qed.
Lemma len_rotation r : wf_rotation r -> len (rotation_encode r) = IDENTITY_ROTATION_LEN.
Proof. intros [? ? ? ? ? [? ?] ?]. unfold rotation_encode. auth_lens. len_lia. Qed.

Definition wf_entry (e : KtAuthorizationEntry) : Prop :=
  match e with
  | Approval a => wf_approval a
  | Revocation r => wf_revocation r
  | IdentityRotation r => wf_rotation r
  end.

Lemma signed_epoch_root_laws (s : SignedEpochRoot) (b : list byte) :
  (len (signatures s) <= MAX_WITNESSES_PER_EPOCH <-> exists w, encode_signed_epoch_root s = Ok w) /\
  (wf_signed s -> encode_signed_epoch_root s = Ok b -> decode_signed_epoch_root b = Ok s) /\
  (decode_signed_epoch_root b = Ok s -> encode_signed_epoch_root s = Ok b /\ wf_signed s) /\
  decode_signed_epoch_root b <> Panic.
Proof.
  split; [|split; [apply decode_encode_root|split; [apply encode_decode_root|apply decode_root_total]]].
  unfold encode_signed_epoch_root. destruct (_ <? _) eqn:Hc; zbool; cbn [rguard]; split; try naive_solver; lia.
Qed.

Lemma authorization_entry_laws (e : KtAuthorizationEntry) (b : list byte) :
  (wf_entry e -> decode_kt_authorization_entry (encode_entry e) = Ok e) /\
  (decode_kt_authorization_entry b = Ok e ->
     encode_entry e = b /\ wf_entry e /\ exists b0 rest, b = b0 :: rest /\ entry_from_tag (u8 b0) = Some (entry_type e)) /\
  decode_kt_authorization_entry b <> Panic.
Proof.
  split; [|split].
  - destruct e as [a|r|r]; intros Hw; unfold decode_kt_authorization_entry; cbn [encode_entry];
      (rewrite (proj2 (Z.eqb_neq _ _)) by (unfold len; simpl; lia)).
    + apply (@prefixed_dec_enc _ approval_codec Byte.x04 DEVICE_AUTH_APPROVAL_LEN len_approval) in Hw.
      cbn [rguard]. unfold index. cbn. repeat case_bool_decide; try done. exact (f_equal (rmap Approval) Hw).
    + apply (@prefixed_dec_enc _ revocation_codec Byte.x05 DEVICE_AUTH_REVOKE_LEN len_revocation) in Hw.
      cbn [rguard]. unfold index. cbn. repeat case_bool_decide; try done. exact (f_equal (rmap Revocation) Hw).
    + apply (@prefixed_dec_enc _ rotation_codec Byte.x06 IDENTITY_ROTATION_LEN len_rotation) in Hw.
      cbn [rguard]. unfold index. cbn. repeat case_bool_decide; try done. exact (f_equal (rmap IdentityRotation) Hw).
  - unfold decode_kt_authorization_entry. intros Hd. apply rguard_Ok in Hd as [_ Hd].
    apply rbind_Ok in Hd as (b0 & _ & Hd).
    repeat case_bool_decide; try done.
    + destruct (decode_kt_entry_device_authorization_approval b) as [a| |] eqn:Ha; try done. injection Hd as <-.
      apply (@prefixed_enc_dec _ approval_codec) in Ha as [<- Hw]. split; [done|]. split; [done|]. by do 2 eexists.
    + destruct (decode_kt_entry_device_authorization_revocation b) as [a| |] eqn:Ha; try done. injection Hd as <-.
      apply (@prefixed_enc_dec _ revocation_codec) in Ha as [<- Hw]. split; [done|]. split; [done|]. by do 2 eexists.
    + destruct (decode_kt_entry_identity_rotation b) as [a| |] eqn:Ha; try done. injection Hd as <-.
      apply (@prefixed_enc_dec _ rotation_codec) in Ha as [<- Hw]. split; [done|]. split; [done|]. by do 2 eexists.
  - unfold decode_kt_authorization_entry. intros Hp. no_panic_step Hp. pose proof (len_nonneg b). no_panic_step Hp.
    repeat case_bool_decide; try done.
    + destruct (decode_kt_entry_device_authorization_approval b) eqn:Ha; try done.
      by apply (@prefixed_total _ approval_codec) in Ha.
    + destruct (decode_kt_entry_device_authorization_revocation b) eqn:Ha; try done.
      by apply (@prefixed_total _ revocation_codec) in Ha.
    + destruct (decode_kt_entry_identity_rotation b) eqn:Ha; try done.
      by apply (@prefixed_total _ rotation_codec) in Ha.
Qed.

(** ** Theorems *)

(** The wire formats of the log are canonical and panic-free: at most five signatures of
    an epoch root are encoded; decoding inverts encoding of signed epoch roots, of the three
    kinds of authorization entry and of observations; every accepted byte string is the
    encoding of the well-formed value it decodes to (an authorization entry has the type of its
    prefix byte); and decoding a root or an entry never panics. *)
Theorem kt_wire_codecs (s : SignedEpochRoot) (e : KtAuthorizationEntry) (o : KtObservation) (b : list byte) :
  ((len (signatures s) <= MAX_WITNESSES_PER_EPOCH <-> exists w, encode_signed_epoch_root s = Ok w) /\
   (wf_signed s -> encode_signed_epoch_root s = Ok b -> decode_signed_epoch_root b = Ok s) /\
   (decode_signed_epoch_root b = Ok s -> encode_signed_epoch_root s = Ok b /\ wf_signed s) /\
   decode_signed_epoch_root b <> Panic) /\
  ((wf_entry e -> decode_kt_authorization_entry (encode_entry e) = Ok e) /\
   (decode_kt_authorization_entry b = Ok e ->
      encode_entry e = b /\ wf_entry e /\ exists b0 rest, b = b0 :: rest /\ entry_from_tag (u8 b0) = Some (entry_type e)) /\
   decode_kt_authorization_entry b <> Panic) /\
  ((wf_obs o -> decode_public (encode_public o) = Ok o) /\
   (decode_public b = Ok o -> encode_public o = b /\ wf_obs o)).
Proof.
  split; [apply signed_epoch_root_laws|]. split; [apply authorization_entry_laws|].
  split; [apply decode_encode_public|apply encode_decode_public].
Qed.

End KtCodec.
