(* ===== verification/KtLogState.v ===== *)
(** * Key transparency: the client's mirror of the log
    ([crates/umbrella-kt/src/authorization_entries.rs], and the entry state of
    [crates/umbrella-backup/src/cloud_wrap/transport.rs])

    The state machine of a multi-device account: devices are registered as pending or
    as bootstrap, approved, revoked, and revoked together when the identity rotates.
    Every operation that takes a log entry first checks a witness-signed epoch root.
    The theorems are about arbitrary sequences of operations. *)
From S2P Require Import Prelude Bytes Crypto KtError BackupError KtWitness DeviceAuth.
Import KtWitness DeviceAuth.

Module KtLogState.

Inductive DeviceEntryStateFlag := Pending | Active | Revoked | BootstrapActive.
#[global] Instance DeviceEntryStateFlag_eq_dec : EqDecision DeviceEntryStateFlag.
Proof. solve_decision. Defined.

Record DeviceEntryState := {
  flag : DeviceEntryStateFlag;
  authorized_since : Z;
  history_cutoff : Z;
  identity_pubkey_at_publish : list byte
}.

Record DeviceEntryRef := { device_pubkey : list byte; state : DeviceEntryState }.

Record KtLogState := {
  device_entries : gmap (list byte) DeviceEntryState;
  current_identity_pubkey : option (list byte);
  identity_rotation : option IdentityRotationRecord;
  last_verified_epoch : Z;
  last_verified_root : list byte;
  recovery_proof : option (list byte)       (* code_recovery_public_half_proof *)
}.

Definition new : KtLogState :=
  {| device_entries := ∅; current_identity_pubkey := None; identity_rotation := None;
     last_verified_epoch := 0; last_verified_root := replicate 32 Byte.x00; recovery_proof := None |}.

Definition with_identity (id : list byte) : KtLogState :=
  {| device_entries := ∅; current_identity_pubkey := Some id; identity_rotation := None;
     last_verified_epoch := 0; last_verified_root := replicate 32 Byte.x00; recovery_proof := None |}.

(** Field updates. *)
Definition set_entries (m : gmap (list byte) DeviceEntryState) (s : KtLogState) : KtLogState :=
  {| device_entries := m; current_identity_pubkey := current_identity_pubkey s;
     identity_rotation := identity_rotation s; last_verified_epoch := last_verified_epoch s;
     last_verified_root := last_verified_root s; recovery_proof := recovery_proof s |}.
Definition put_entry (d : list byte) (e : DeviceEntryState) (s : KtLogState) : KtLogState :=
  set_entries (<[d := e]> (device_entries s)) s.
Definition set_identity (id : list byte) (s : KtLogState) : KtLogState :=
  {| device_entries := device_entries s; current_identity_pubkey := Some id;
     identity_rotation := identity_rotation s; last_verified_epoch := last_verified_epoch s;
     last_verified_root := last_verified_root s; recovery_proof := recovery_proof s |}.
Definition set_rotation (r : IdentityRotationRecord) (s : KtLogState) : KtLogState :=
  {| device_entries := device_entries s; current_identity_pubkey := current_identity_pubkey s;
     identity_rotation := Some r; last_verified_epoch := last_verified_epoch s;
     last_verified_root := last_verified_root s; recovery_proof := recovery_proof s |}.
Definition set_proof (p : list byte) (s : KtLogState) : KtLogState :=
  {| device_entries := device_entries s; current_identity_pubkey := current_identity_pubkey s;
     identity_rotation := identity_rotation s; last_verified_epoch := last_verified_epoch s;
     last_verified_root := last_verified_root s; recovery_proof := Some p |}.

Definition is_active (f : DeviceEntryStateFlag) : bool :=
  match f with Active | BootstrapActive => true | _ => false end.

Definition active_count (s : KtLogState) : Z :=
  Z.of_nat (size (filter (fun kv => is_active (flag kv.2) = true) (device_entries s))).
Definition device_count (s : KtLogState) : Z := Z.of_nat (size (device_entries s)).

Definition lookup_device_entry (s : KtLogState) (d : list byte) : option DeviceEntryRef :=
  (fun st => {| device_pubkey := d; state := st |}) <$> device_entries s !! d.

(** ** Operations *)
Abbreviation op_t := (st KtLogState KtError unit).

Definition register_pending (d id : list byte) : op_t :=
  let! s := sget in
  fail_if bool_decide (is_Some (device_entries s !! d)) with InvalidEntry "device-entry already exists" ;;
  sput (put_entry d {| flag := Pending; authorized_since := 0; history_cutoff := 0;
                       identity_pubkey_at_publish := id |} s).

(** [self.device_entries.values().any(..)] *)
Definition other_non_revoked_under_identity (id : list byte) (s : KtLogState) : bool :=
  bool_decide (map_Exists (fun _ st => identity_pubkey_at_publish st = id /\ flag st <> Revoked) (device_entries s)).

Definition catastrophic_bootstrap (id : list byte) (s : KtLogState) : bool :=
  match identity_rotation s with
  | Some r => bool_decide (rotation_reason r = CatastrophicRecovery) && bool_decide (new_identity_pubkey r = id)
  | None => false
  end.

Definition register_bootstrap_active (d : list byte) (since : Z) (id : list byte) : op_t :=
  let! s := sget in
  fail_if bool_decide (is_Some (device_entries s !! d)) with InvalidEntry "device-entry already exists" ;;
  let primary_bootstrap := negb (other_non_revoked_under_identity id s) in
  fail_if negb (primary_bootstrap || catastrophic_bootstrap id s) with BootstrapNotAllowed ;;
  let s := put_entry d {| flag := BootstrapActive; authorized_since := since; history_cutoff := 0;
                          identity_pubkey_at_publish := id |} s in
  sput (match current_identity_pubkey s with None => set_identity id s | Some _ => s end).

Definition set_code_recovery_public_half_proof (p : list byte) : op_t :=
  let! s := sget in
  fail_if match recovery_proof s with Some existing => negb (bool_decide (existing = p)) | None => false end
    with CodeRecoveryProofMismatch ;;
  sput (set_proof p s).

Definition commit_epoch (signed : SignedEpochRoot) (s : KtLogState) : KtLogState :=
  {| device_entries := device_entries s; current_identity_pubkey := current_identity_pubkey s;
     identity_rotation := identity_rotation s; last_verified_epoch := epoch signed;
     last_verified_root := root signed; recovery_proof := recovery_proof s |}.

(** [values_mut()] over the entries published under the old identity. *)
Definition cascade_revoke (old : list byte) (st : DeviceEntryState) : DeviceEntryState :=
  if bool_decide (identity_pubkey_at_publish st = old) && negb (bool_decide (flag st = Revoked))
  then {| flag := Revoked; authorized_since := 0; history_cutoff := 0;
          identity_pubkey_at_publish := identity_pubkey_at_publish st |}
  else st.

Section Apply.
Context `{Ed25519} (ws : WitnessSet) (threshold : Z).

Definition verify_epoch_transition (s : KtLogState) (signed : SignedEpochRoot) : res KtError unit :=
  let? _ := verify_signed_epoch signed ws threshold in
  reject epoch signed <? last_verified_epoch s with InvalidEntry "epoch regression" ;;
  Ok tt.

(** The [match] on the entry of the approver or revoker. *)
Definition require_active (d : list byte) (s : KtLogState) : res KtError unit :=
  match device_entries s !! d with
  | Some st => if is_active (flag st) then Ok tt else Err ApproverNotActive
  | None => Err ApproverNotActive
  end.

Definition apply_authorization_approval (a : DeviceAuthorizationApproval) (signed : SignedEpochRoot) : op_t :=
  let! s := sget in
  let! _ := slift (verify_epoch_transition s signed) in
  let! _ := slift (rmap_err (fun _ => EntrySignatureInvalid) (approval_verify_self_consistent a)) in
  let! _ := slift (require_active (approver_device_pubkey a) s) in
  let! pending_state := slift (match device_entries s !! new_device_pubkey a with
                               | Some st => if bool_decide (flag st = Pending) then Ok st else Err PendingStateNotFound
                               | None => Err PendingStateNotFound
                               end) in
  sput (commit_epoch signed
    (put_entry (new_device_pubkey a)
       {| flag := Active; authorized_since := authorized_since_timestamp a;
          history_cutoff := history_cutoff_timestamp a;
          identity_pubkey_at_publish := identity_pubkey_at_publish pending_state |} s)).

Definition apply_authorization_revocation (r : DeviceAuthorizationRevocation) (signed : SignedEpochRoot) : op_t :=
  let! s := sget in
  let! _ := slift (verify_epoch_transition s signed) in
  let! _ := slift (rmap_err (fun _ => EntrySignatureInvalid) (revocation_verify_self_consistent r)) in
  if bool_decide (flag <$> device_entries s !! revoked_device_pubkey r = Some Revoked) then
    let! _ := slift (require_active (revoker_device_pubkey r) s) in
    sput (commit_epoch signed s)
  else
    let! _ := slift (require_active (revoker_device_pubkey r) s) in
    let! revoked_state := slift (match device_entries s !! revoked_device_pubkey r with
                                 | Some st => match flag st with
                                              | Pending | Active | BootstrapActive => Ok st
                                              | Revoked => Err (InvalidEntry "unknown device for revocation")
                                              end
                                 | None => Err (InvalidEntry "unknown device for revocation")
                                 end) in
    sput (commit_epoch signed
      (put_entry (revoked_device_pubkey r)
         {| flag := Revoked; authorized_since := 0; history_cutoff := 0;
            identity_pubkey_at_publish := identity_pubkey_at_publish revoked_state |} s)).

Definition apply_identity_rotation (r : IdentityRotationRecord) (signed : SignedEpochRoot) : op_t :=
  let! s := sget in
  let! _ := slift (verify_epoch_transition s signed) in
  fail_if bool_decide (old_identity_pubkey r = new_identity_pubkey r) with RotationIdenticalPubkeys ;;
  let! _ := slift (rmap_err (fun _ => RotationDualSignatureFailed) (rotation_verify r)) in
  fail_if match current_identity_pubkey s with
          | Some current => negb (bool_decide (current = old_identity_pubkey r)) | None => false end
    with RotationOldIdentityMismatch ;;
  let incoming_proof := code_recovery_public_half_proof r in
  fail_if match recovery_proof s with Some stored => negb (bool_decide (stored = incoming_proof)) | None => false end
    with CodeRecoveryProofMismatch ;;
  let s := set_entries (cascade_revoke (old_identity_pubkey r) <$> device_entries s) s in
  sput (commit_epoch signed (set_proof incoming_proof (set_rotation r (set_identity (new_identity_pubkey r) s)))).

(** ** Sequences of operations *)
Inductive op :=
| RegisterPending (d id : list byte)
| RegisterBootstrap (d : list byte) (since : Z) (id : list byte)
| SetProof (p : list byte)
| Approve (a : DeviceAuthorizationApproval) (signed : SignedEpochRoot)
| Revoke (r : DeviceAuthorizationRevocation) (signed : SignedEpochRoot)
| Rotate (r : IdentityRotationRecord) (signed : SignedEpochRoot).

Definition exec (o : op) : op_t :=
  match o with
  | RegisterPending d id => register_pending d id
  | RegisterBootstrap d since id => register_bootstrap_active d since id
  | SetProof p => set_code_recovery_public_half_proof p
  | Approve a signed => apply_authorization_approval a signed
  | Revoke r signed => apply_authorization_revocation r signed
  | Rotate r signed => apply_identity_rotation r signed
  end.

(** One successful operation; failed ones leave the state (theorem below). *)
Inductive step : KtLogState -> op -> KtLogState -> Prop :=
| step_ok s o s' : exec o s = (Ok tt, s') -> step s o s'.

Inductive steps : KtLogState -> list op -> KtLogState -> Prop :=
| steps_nil s : steps s [] s
| steps_cons s o s1 os s' : step s o s1 -> steps s1 os s' -> steps s (o :: os) s'.

(** ** Inversion of successful operations *)

Ltac op_inv H :=
  unfold sbind, sget, slift, sput, sguard in H; repeat (case_match; simplify_eq/=).

Lemma rmap_err_Ok {E F A} (f : E -> F) (m : res E A) a : rmap_err f m = Ok a -> m = Ok a.
Proof. destruct m; simpl; naive_solver. Qed.

Lemma require_active_inv d s :
  require_active d s = Ok tt -> exists st, device_entries s !! d = Some st /\ is_active (flag st) = true.
Proof. unfold require_active. intros Hr. repeat case_match; naive_solver. Qed.

Lemma epoch_transition_inv s sg :
  verify_epoch_transition s sg = Ok tt ->
  verify_signed_epoch sg ws threshold = Ok tt /\ last_verified_epoch s <= epoch sg.
Proof. unfold verify_epoch_transition. intros Hv. res_inv Hv. destruct x. by zbool. Qed.

Lemma register_pending_inv d id s s' :
  register_pending d id s = (Ok tt, s') ->
  device_entries s !! d = None /\
  s' = put_entry d {| flag := Pending; authorized_since := 0; history_cutoff := 0; identity_pubkey_at_publish := id |} s.
Proof.
  unfold register_pending. intros Hr. op_inv Hr. zbool. split; [by apply eq_None_not_Some|done].
Qed.

Lemma register_bootstrap_inv d since id s s' :
  register_bootstrap_active d since id s = (Ok tt, s') ->
  device_entries s !! d = None /\
  (other_non_revoked_under_identity id s = false \/ catastrophic_bootstrap id s = true) /\
  device_entries s' = <[d := {| flag := BootstrapActive; authorized_since := since; history_cutoff := 0;
                                identity_pubkey_at_publish := id |}]> (device_entries s) /\
  recovery_proof s' = recovery_proof s /\ identity_rotation s' = identity_rotation s /\
  last_verified_epoch s' = last_verified_epoch s /\ last_verified_root s' = last_verified_root s.
Proof.
  unfold register_bootstrap_active. intros Hr.
  destruct (bool_decide (is_Some (device_entries s !! d))) eqn:Hd.
  { unfold sbind, sget, sguard, slift in Hr. rewrite Hd in Hr. done. }
  unfold sbind, sget, sguard, slift in Hr. rewrite Hd in Hr. zbool.
  destruct (negb (negb (other_non_revoked_under_identity id s) || catastrophic_bootstrap id s)) eqn:Hb; [done|].
  unfold sput in Hr. injection Hr as <-. apply negb_false_iff, orb_true_iff in Hb.
  split_and!; [by apply eq_None_not_Some| |by destruct (current_identity_pubkey _)..].
  destruct Hb as [Hb|Hb]; [left; by apply negb_true_iff|by right].
Qed.

Lemma set_proof_inv p s s' :
  set_code_recovery_public_half_proof p s = (Ok tt, s') ->
  s' = set_proof p s /\ (recovery_proof s = None \/ recovery_proof s = Some p).
Proof. unfold set_code_recovery_public_half_proof. intros Hr. op_inv Hr; zbool; subst; auto. Qed.

Lemma approval_inv a sg s s' :
  apply_authorization_approval a sg s = (Ok tt, s') ->
  verify_epoch_transition s sg = Ok tt /\ approval_verify_self_consistent a = Ok tt /\
  require_active (approver_device_pubkey a) s = Ok tt /\
  exists st, device_entries s !! new_device_pubkey a = Some st /\ flag st = Pending /\
    s' = commit_epoch sg (put_entry (new_device_pubkey a)
       {| flag := Active; authorized_since := authorized_since_timestamp a;
          history_cutoff := history_cutoff_timestamp a;
          identity_pubkey_at_publish := identity_pubkey_at_publish st |} s).
Proof.
  unfold apply_authorization_approval. intros Hr. op_inv Hr. zbool.
  repeat match goal with x : unit |- _ => destruct x end.
  split_and!; [done|by eapply rmap_err_Ok|done|]. eauto.
Qed.

Lemma revocation_inv r sg s s' :
  apply_authorization_revocation r sg s = (Ok tt, s') ->
  verify_epoch_transition s sg = Ok tt /\ revocation_verify_self_consistent r = Ok tt /\
  require_active (revoker_device_pubkey r) s = Ok tt /\
  exists st, device_entries s !! revoked_device_pubkey r = Some st /\
    ((flag st = Revoked /\ s' = commit_epoch sg s) \/
     (flag st <> Revoked /\ s' = commit_epoch sg (put_entry (revoked_device_pubkey r)
         {| flag := Revoked; authorized_since := 0; history_cutoff := 0;
            identity_pubkey_at_publish := identity_pubkey_at_publish st |} s))).
Proof.
  unfold apply_authorization_revocation. intros Hr. unfold sbind, sget, slift in Hr.
  destruct (verify_epoch_transition s sg) as [[]| |]; [|done..].
  destruct (rmap_err _ _) as [[]| |] eqn:Hv; [|done..]. apply rmap_err_Ok in Hv.
  destruct (bool_decide _) eqn:Hb in Hr; zbool;
    (destruct (require_active _ s) as [[]| |]; [|done..]); split_and!; try done.
  - apply fmap_Some in Hb as (st & Hst & Hf). exists st. split; [done|]. left. unfold sput in Hr. naive_solver.
  - destruct (device_entries s !! revoked_device_pubkey r) as [st|]; [|done]. exists st. split; [done|]. right.
    destruct (flag st) eqn:Hf; unfold sput in Hr; try done; split; try done; by injection Hr as <-.
Qed.

Lemma rotation_inv r sg s s' :
  apply_identity_rotation r sg s = (Ok tt, s') ->
  verify_epoch_transition s sg = Ok tt /\ old_identity_pubkey r <> new_identity_pubkey r /\
  rotation_verify r = Ok tt /\
  (current_identity_pubkey s = None \/ current_identity_pubkey s = Some (old_identity_pubkey r)) /\
  (recovery_proof s = None \/ recovery_proof s = Some (code_recovery_public_half_proof r)) /\
  device_entries s' = cascade_revoke (old_identity_pubkey r) <$> device_entries s /\
  current_identity_pubkey s' = Some (new_identity_pubkey r) /\ identity_rotation s' = Some r /\
  recovery_proof s' = Some (code_recovery_public_half_proof r) /\
  last_verified_epoch s' = epoch sg /\ last_verified_root s' = root sg.
Proof.
  unfold apply_identity_rotation. intros Hr. unfold sbind, sget, slift, sguard in Hr.
  destruct (verify_epoch_transition s sg) as [[]| |]; [|done..].
  destruct (bool_decide (old_identity_pubkey r = _)) eqn:Hne; [done|]. zbool.
  destruct (rmap_err _ _) as [[]| |] eqn:Hv; [|done..]. apply rmap_err_Ok in Hv.
  destruct (match current_identity_pubkey s with Some _ => _ | None => _ end) eqn:Hc; [done|].
  destruct (match recovery_proof s with Some _ => _ | None => _ end) eqn:Hp; [done|].
  unfold sput in Hr. injection Hr as <-. split_and!; try done.
  - destruct (current_identity_pubkey s); [|by left]. zbool. subst. by right.
  - destruct (recovery_proof s); [|by left]. zbool. subst. by right.
Qed.

(** ** How one operation changes one entry *)

Lemma cascade_revoke_cases old st :
  cascade_revoke old st = st \/
  (identity_pubkey_at_publish st = old /\ flag st <> Revoked /\ flag (cascade_revoke old st) = Revoked /\
   identity_pubkey_at_publish (cascade_revoke old st) = identity_pubkey_at_publish st).
Proof. unfold cascade_revoke. destruct (_ && _) eqn:Hc; [zbool; right; done|by left]. Qed.

Lemma cascade_revoke_id old st : identity_pubkey_at_publish (cascade_revoke old st) = identity_pubkey_at_publish st.
Proof. unfold cascade_revoke. by destruct (_ && _). Qed.

(** The only ways an entry changes. *)
Inductive entry_change (s : KtLogState) (o : op) (d : list byte) : option DeviceEntryState -> option DeviceEntryState -> Prop :=
| ec_same e : entry_change s o d e e
| ec_pending id e : o = RegisterPending d id -> flag e = Pending -> identity_pubkey_at_publish e = id ->
    entry_change s o d None (Some e)
| ec_bootstrap since id e : o = RegisterBootstrap d since id -> flag e = BootstrapActive ->
    identity_pubkey_at_publish e = id ->
    (other_non_revoked_under_identity id s = false \/ catastrophic_bootstrap id s = true) ->
    entry_change s o d None (Some e)
| ec_approve a sg e e' : o = Approve a sg -> d = new_device_pubkey a -> flag e = Pending -> flag e' = Active ->
    identity_pubkey_at_publish e' = identity_pubkey_at_publish e ->
    approval_verify_self_consistent a = Ok tt -> require_active (approver_device_pubkey a) s = Ok tt ->
    entry_change s o d (Some e) (Some e')
| ec_revoke e e' : (exists r sg, o = Revoke r sg) \/ (exists r sg, o = Rotate r sg) ->
    flag e <> Revoked -> flag e' = Revoked ->
    identity_pubkey_at_publish e' = identity_pubkey_at_publish e ->
    entry_change s o d (Some e) (Some e').

Lemma step_entry s o s' d :
  step s o s' -> entry_change s o d (device_entries s !! d) (device_entries s' !! d).
Proof.
  intros [s0 o0 s0' Hx]. destruct o0 as [d0 id|d0 since id|p|a sg|r sg|r sg]; simpl in Hx.
  - apply register_pending_inv in Hx as [Hn ->]. unfold put_entry. simpl.
    destruct (decide (d0 = d)) as [->|Hne]; [|rewrite lookup_insert_ne by done; constructor].
    rewrite lookup_insert_eq, Hn. by eapply ec_pending.
  - apply register_bootstrap_inv in Hx as (Hn & Hb & -> & _).
    destruct (decide (d0 = d)) as [->|Hne]; [|rewrite lookup_insert_ne by done; constructor].
    rewrite lookup_insert_eq, Hn. by eapply ec_bootstrap.
  - apply set_proof_inv in Hx as [-> _]. constructor.
  - apply approval_inv in Hx as (_ & Hv & Hr & st & Hst & Hf & ->). simpl.
    destruct (decide (new_device_pubkey a = d)) as [<-|Hne]; [|rewrite lookup_insert_ne by done; constructor].
    rewrite lookup_insert_eq, Hst. by eapply ec_approve.
  - apply revocation_inv in Hx as (_ & _ & _ & st & Hst & [[_ ->]|[Hf ->]]); simpl; [constructor|].
    destruct (decide (revoked_device_pubkey r = d)) as [<-|Hne]; [|rewrite lookup_insert_ne by done; constructor].
    rewrite lookup_insert_eq, Hst. eapply ec_revoke; eauto.
  - apply rotation_inv in Hx as (_ & _ & _ & _ & _ & -> & _). rewrite lookup_fmap.
    destruct (device_entries s0 !! d) as [e|]; simpl; [|constructor].
    destruct (cascade_revoke_cases (old_identity_pubkey r) e) as [->|(Hid & Hf & Hf' & Hi)]; [constructor|].
    eapply ec_revoke; eauto.
Qed.

(** Entries are never removed, keep their identity, and stay revoked. *)
Lemma step_entry_persists s o s' d e :
  step s o s' -> device_entries s !! d = Some e ->
  exists e', device_entries s' !! d = Some e' /\
    identity_pubkey_at_publish e' = identity_pubkey_at_publish e /\ (flag e = Revoked -> e' = e).
Proof.
  intros Hs He. pose proof (step_entry s o s' d Hs) as Hc. rewrite He in Hc.
  inversion Hc as [| | |? ? e1 e2 ? ? Hp|e1 e2 ? Hn]; subst; eauto.
  - exists e2. split_and!; [done|done|]. congruence.
  - exists e2. split_and!; [done|done|]. done.
Qed.

(** When a device may enter an identity without an approval. *)
Definition bootstrap_allowed (id : list byte) (s : KtLogState) : Prop :=
  (forall d e, device_entries s !! d = Some e -> identity_pubkey_at_publish e = id -> flag e = Revoked) \/
  (exists r, identity_rotation s = Some r /\ rotation_reason r = CatastrophicRecovery /\ new_identity_pubkey r = id).

Lemma bootstrap_allowed_spec id s :
  other_non_revoked_under_identity id s = false \/ catastrophic_bootstrap id s = true <-> bootstrap_allowed id s.
Proof.
  assert (Hcat : catastrophic_bootstrap id s = true <->
    exists r, identity_rotation s = Some r /\ rotation_reason r = CatastrophicRecovery /\ new_identity_pubkey r = id).
  { unfold catastrophic_bootstrap. destruct (identity_rotation s) as [r|]; [|naive_solver].
    rewrite andb_true_iff, !bool_decide_eq_true. naive_solver. }
  assert (Hoth : other_non_revoked_under_identity id s = false <->
    forall d' e, device_entries s !! d' = Some e -> identity_pubkey_at_publish e = id -> flag e = Revoked).
  { unfold other_non_revoked_under_identity. rewrite bool_decide_eq_false. split.
    - intros Hn d' e He Hi. destruct (decide (flag e = Revoked)); [done|]. exfalso. apply Hn. by exists d', e.
    - intros Ha (d' & e & He & Hi & Hf). eauto. }
  unfold bootstrap_allowed. by rewrite Hcat, Hoth.
Qed.

(** How an operation makes the entry of [d] active: by an approval of an active device, or as the
    bootstrap of a new device. *)
Definition approved_by (s : KtLogState) (o : op) (d : list byte) : Prop :=
  exists a sg approver, o = Approve a sg /\ new_device_pubkey a = d /\ approval_verify_self_consistent a = Ok tt /\
    device_entries s !! approver_device_pubkey a = Some approver /\ is_active (flag approver) = true.
Definition bootstrapped_by (s : KtLogState) (o : op) (d id : list byte) : Prop :=
  exists since, o = RegisterBootstrap d since id /\ device_entries s !! d = None /\ bootstrap_allowed id s.
Definition activated_by (s : KtLogState) (o : op) (d : list byte) (e : DeviceEntryState) : Prop :=
  match flag e with
  | Active => approved_by s o d
  | BootstrapActive => bootstrapped_by s o d (identity_pubkey_at_publish e)
  | _ => False
  end.

Lemma step_activates s o s' d e' :
  step s o s' -> device_entries s' !! d = Some e' -> is_active (flag e') = true ->
  flag <$> device_entries s !! d <> Some (flag e') -> activated_by s o d e'.
Proof.
  intros Hst He Ha Hn. pose proof (step_entry s o s' d Hst) as Hc. rewrite He in Hc. unfold activated_by.
  remember (device_entries s !! d) as x eqn:Hx. remember (Some e') as y eqn:Hy.
  destruct Hc as [x|id x Ho Hf Hi|since id x Ho Hf Hi Hb|a sg x x' Ho Hd Hf Hf' Hi Hv Hr|x x' Ho Hf Hf' Hi]; simplify_eq/=.
  - by rewrite Hf in Ha.
  - rewrite Hf. exists since. split_and!; [done..|]. by apply bootstrap_allowed_spec.
  - rewrite Hf'. destruct (require_active_inv _ _ Hr) as (ap & Hap & Hact). by exists a, sg, ap.
  - by rewrite Hf' in Ha.
Qed.

Lemma step_meta s o s' :
  step s o s' ->
  last_verified_epoch s <= last_verified_epoch s' /\
  (forall p, recovery_proof s = Some p -> recovery_proof s' = Some p) /\
  ((last_verified_epoch s' = last_verified_epoch s /\ last_verified_root s' = last_verified_root s) \/
   exists sg, verify_signed_epoch sg ws threshold = Ok tt /\
     last_verified_epoch s' = epoch sg /\ last_verified_root s' = root sg).
Proof.
  intros [s0 o0 s0' Hx]. destruct o0 as [d0 id|d0 since id|p|a sg|r sg|r sg]; simpl in Hx.
  - apply register_pending_inv in Hx as [_ ->]. simpl. split_and!; [lia|done|by left].
  - apply register_bootstrap_inv in Hx as (_ & _ & _ & -> & _ & -> & ->). split_and!; [lia|done|by left].
  - apply set_proof_inv in Hx as [-> Hp]. simpl. split_and!; [lia| |auto].
    intros q Hq. destruct Hp as [Hp|Hp]; congruence.
  - apply approval_inv in Hx as ([Hv He]%epoch_transition_inv & _ & _ & st & _ & _ & ->). simpl.
    split_and!; [done|done|right; by exists sg].
  - apply revocation_inv in Hx as ([Hv He]%epoch_transition_inv & _ & _ & st & _ & [[_ ->]|[_ ->]]); simpl;
      (split_and!; [done|done|right; by exists sg]).
  - apply rotation_inv in Hx as ([Hv He]%epoch_transition_inv & _ & _ & _ & Hp & _ & _ & _ & -> & -> & ->).
    split_and!; [done| |eauto]. intros q Hq. destruct Hp as [Hp|Hp]; congruence.
Qed.

Lemma steps_app s os1 s1 os2 s2 : steps s os1 s1 -> steps s1 os2 s2 -> steps s (os1 ++ os2) s2.
Proof. induction 1; simpl; [done|]. intros. econstructor; eauto. Qed.

Lemma exec_Err_keeps o s e s' : exec o s = (Err e, s') -> s' = s.
Proof.
  intros Hx. destruct o; simpl in Hx;
    unfold register_pending, register_bootstrap_active, set_code_recovery_public_half_proof,
      apply_authorization_approval, apply_authorization_revocation, apply_identity_rotation in Hx;
    unfold sbind, sguard, sget, slift, sput in Hx; repeat (case_match; simplify_eq/=; try done).
Qed.

(** A run keeps every entry, its identity and its revocation. *)
Lemma steps_entry_persists s os s' d e :
  steps s os s' -> device_entries s !! d = Some e ->
  exists e', device_entries s' !! d = Some e' /\
    identity_pubkey_at_publish e' = identity_pubkey_at_publish e /\ (flag e = Revoked -> e' = e).
Proof.
  intros Hs. revert e. induction Hs as [s|s o s1 os s' Hst _ IH]; intros e He; [eauto|].
  destruct (step_entry_persists _ _ _ _ _ Hst He) as (e1 & He1 & Hi1 & Hr1).
  destruct (IH e1 He1) as (e2 & He2 & Hi2 & Hr2). exists e2. split_and!; [done|congruence|].
  intros Hr. specialize (Hr1 Hr). subst e1. auto.
Qed.

Lemma steps_meta s os s' :
  steps s os s' ->
  last_verified_epoch s <= last_verified_epoch s' /\
  (forall p, recovery_proof s = Some p -> recovery_proof s' = Some p) /\
  ((last_verified_epoch s' = last_verified_epoch s /\ last_verified_root s' = last_verified_root s) \/
   exists sg, verify_signed_epoch sg ws threshold = Ok tt /\
     last_verified_epoch s' = epoch sg /\ last_verified_root s' = root sg).
Proof.
  induction 1 as [s|s o s1 os s' Hst _ (IH1 & IH2 & IH3)].
  { split_and!; [lia|done|by left]. }
  destruct (step_meta _ _ _ Hst) as (H1 & H2 & H3). split_and!; [lia|eauto|].
  destruct IH3 as [[E1 E2]|?]; [|by right]. rewrite E1, E2. done.
Qed.

(** ** Theorems *)

(** A failed operation changes nothing: whatever check fails, the mirror is left
    exactly as it was. *)
Theorem failed_operation_atomic (o : op) (s s' : KtLogState) (e : KtError) (Hx : exec o s = (Err e, s')) :
  s' = s.
Proof. by eapply exec_Err_keeps. Qed.

(** C24. Revocation is final: once a device is revoked, its entry is the same revoked
    entry after any sequence of registrations, approvals, revocations and rotations. *)
Theorem revoked_forever (s s' : KtLogState) (os : list op) (d : list byte) (e : DeviceEntryState)
    (Hs : steps s os s') (He : device_entries s !! d = Some e) (Hr : flag e = Revoked) :
  device_entries s' !! d = Some e.
Proof.
  destruct (steps_entry_persists _ _ _ _ _ Hs He) as (e' & He' & _ & Hk). rewrite He'. f_equal. auto.
Qed.

(** C4. No device becomes active by itself: an entry that is active, with a flag it did not have
    before, got it by one of the operations in between.  An [Active] one by an approval whose
    signature verifies under the key of a device that was active in the mirror at that moment; a
    [BootstrapActive] one by a bootstrap of a device without an entry, allowed because at that
    moment every device of its identity was revoked, or because the last rotation was a
    catastrophic recovery to that identity. *)
Theorem activation_needs_approval (s s' : KtLogState) (os : list op) (d : list byte) (e : DeviceEntryState)
    (Hs : steps s os s')
    (Hbefore : flag <$> device_entries s !! d <> Some (flag e))
    (He : device_entries s' !! d = Some e) (Hact : is_active (flag e) = true) :
  exists s1 os1 o os2, os = os1 ++ o :: os2 /\ steps s os1 s1 /\
    match flag e with
    | Active => approved_by s1 o d
    | _ => bootstrapped_by s1 o d (identity_pubkey_at_publish e)
    end.
Proof.
  assert (Hgoal : exists s1 os1 o os2, os = os1 ++ o :: os2 /\ steps s os1 s1 /\ activated_by s1 o d e).
  { revert Hbefore. induction Hs as [s|s o s1 os s' Hst Hs IH]; intros Hbefore; [by rewrite He in Hbefore|].
    destruct (decide (flag <$> device_entries s1 !! d = Some (flag e))) as [H1|H1].
    - exists s, [], o, os. split_and!; [done|constructor|].
      apply fmap_Some in H1 as (e1 & He1 & Hf). destruct (steps_entry_persists _ _ _ _ _ Hs He1) as (e2 & He2 & Hi & _).
      assert (e2 = e) as -> by congruence.
      assert (Ha : activated_by s o d e1) by (eapply step_activates; [done..|congruence|congruence]).
      unfold activated_by in *. by rewrite Hf, Hi.
    - destruct (IH He H1) as (s2 & os1 & o' & os2 & -> & Hs1 & Ha).
      exists s2, (o :: os1), o', os2. split_and!; [done|by econstructor|done]. }
  destruct Hgoal as (s1 & os1 & o & os2 & Ho & Hs1 & Ha). exists s1, os1, o, os2. split_and!; [done..|].
  unfold activated_by in Ha. by destruct (flag e).
Qed.

(** The verified head never goes back: along any run the last verified epoch does not
    decrease, and the recorded epoch and root are the initial ones or those of a root that
    enough witnesses of the set endorsed. *)
Theorem verified_head_endorsed (s s' : KtLogState) (os : list op) (Hs : steps s os s') (Hk : 0 <= threshold) :
  last_verified_epoch s <= last_verified_epoch s' /\
  ((last_verified_epoch s' = last_verified_epoch s /\ last_verified_root s' = last_verified_root s) \/
   exists sg W, last_verified_epoch s' = epoch sg /\ last_verified_root s' = root sg /\
     1 <= threshold <= len W /\ NoDup W /\ forall w, w ∈ W -> endorses ws sg w).
Proof.
  destruct (steps_meta _ _ _ Hs) as (H1 & _ & H3). split; [done|].
  destruct H3 as [?|(sg & Hv & He & Hr)]; [by left|right].
  apply verify_signed_epoch_spec in Hv as (H2 & W & Hn & Hl & Hw); [|done].
  exists sg, W. split_and!; auto.
Qed.

(** Rotation: an accepted identity rotation carries valid signatures of the old and
    the new identity over one input, applies to the current identity only, agrees with a
    recovery proof recorded before, and leaves no usable device of the old identity. *)
Theorem rotation_revokes_old_identity (s s' : KtLogState) (r : IdentityRotationRecord) (sg : SignedEpochRoot)
    (Hx : exec (Rotate r sg) s = (Ok tt, s')) :
  current_identity_pubkey s' = Some (new_identity_pubkey r) /\
  sig_ok (old_identity_pubkey r) (rotation_signing_input r) (old_identity_signature r) = true /\
  sig_ok (new_identity_pubkey r) (rotation_signing_input r) (new_identity_signature r) = true /\
  (forall id, current_identity_pubkey s = Some id -> id = old_identity_pubkey r) /\
  (forall p, recovery_proof s = Some p -> p = code_recovery_public_half_proof r) /\
  (forall d e, device_entries s' !! d = Some e -> identity_pubkey_at_publish e = old_identity_pubkey r -> flag e = Revoked) /\
  (forall d e, device_entries s !! d = Some e -> identity_pubkey_at_publish e <> old_identity_pubkey r ->
     device_entries s' !! d = Some e).
Proof.
  simpl in Hx. apply rotation_inv in Hx as (_ & _ & Hv & Hc & Hp & He & Hid & _ & _ & _ & _).
  assert (Hsig : forall pk m sg, dalek_verify pk m sg = Ok tt -> sig_ok pk m sg = true).
  { unfold dalek_verify, sig_ok. intros pk m sg0. by destruct (vk_valid pk), (ed_verify pk m sg0). }
  unfold rotation_verify in Hv. res_inv Hv. destruct x, x0.
  split_and!; [done|by apply Hsig|by apply Hsig| | | |].
  - intros id Hi. destruct Hc; congruence.
  - intros p Hi. destruct Hp; congruence.
  - intros d e Hd Hi. rewrite He, lookup_fmap in Hd. apply fmap_Some in Hd as (e0 & Hd0 & ->).
    rewrite cascade_revoke_id in Hi. unfold cascade_revoke. rewrite bool_decide_true by done. simpl.
    destruct (bool_decide (flag e0 = Revoked)) eqn:Hf; zbool; done.
  - intros d e Hd Hi. rewrite He, lookup_fmap, Hd. simpl. unfold cascade_revoke. by rewrite bool_decide_false.
Qed.

(** Bootstrap is allowed exactly when the device is new and either no device under the
    identity is still usable or the last recorded rotation was a catastrophic recovery to
    that identity; the latter is not limited to the first device. *)
Theorem bootstrap_exact (s : KtLogState) (d id : list byte) (since : Z) :
  (exists s', exec (RegisterBootstrap d since id) s = (Ok tt, s')) <->
  device_entries s !! d = None /\ bootstrap_allowed id s.
Proof.
  rewrite <- bootstrap_allowed_spec. split.
  - intros [s' Hx]. apply register_bootstrap_inv in Hx as (Hn & Hb & _). done.
  - intros [Hn Hb]. simpl. unfold register_bootstrap_active, sbind, sget, sguard, slift, sput.
    rewrite bool_decide_false by (by rewrite Hn; intros [? ?]).
    assert (negb (negb (other_non_revoked_under_identity id s) || catastrophic_bootstrap id s) = false) as ->.
    { destruct Hb as [->| ->]; [done|]. by rewrite orb_true_r. }
    eauto.
Qed.

(** The recovery proof is write-once: after it is set, by hand or by a rotation, no
    sequence of operations changes it. *)
Lemma recovery_proof_immutable (s s' : KtLogState) (os : list op) (p : list byte)
    (Hs : steps s os s') (Hp : recovery_proof s = Some p) : recovery_proof s' = Some p.
Proof. destruct (steps_meta _ _ _ Hs) as (_ & H2 & _). auto. Qed.

End Apply.
(** ** Witnesses: an account with a bootstrap device, an approved one, a revocation and
    a rotation, signed with the toy scheme *)
#[local] Existing Instance toy_ed25519.

Definition toy_id : list byte := toy_pk Byte.x40.
Definition toy_d1 : list byte := toy_pk Byte.x41.
Definition toy_d2 : list byte := toy_pk Byte.x42.
Definition toy_sign (pk : list byte) : signer := fun m => Ok (pk ++ drop (length m - 32) m).
Definition toy_root : SignedEpochRoot := toy_head 7 Byte.xaa [Byte.x01; Byte.x02].
Definition toy_ap : DeviceAuthorizationApproval :=
  match seal_device_authorization_approval toy_d2 toy_d1 5 0 0 (toy_sign toy_d1) with Ok a => a | _ => toy_approval end.
Definition toy_rv : DeviceAuthorizationRevocation :=
  match seal_device_authorization_revocation toy_d2 toy_d1 9 (toy_sign toy_d1) with Ok r => r | _ => toy_revocation end.
Definition toy_rot : IdentityRotationRecord :=
  match seal_identity_rotation_record toy_id (toy_pk Byte.x50) 9 CatastrophicRecovery (toy_pk Byte.x60)
          (toy_sign toy_id) (toy_sign (toy_pk Byte.x50)) with Ok r => r | _ => toy_rotation end.

Definition after (o : op) (s : KtLogState) : KtLogState := (exec toy_ws 2 o s).2.
Definition toy_o1 : op := RegisterBootstrap toy_d1 3 toy_id.
Definition toy_o2 : op := RegisterPending toy_d2 toy_id.
Definition toy_s2 : KtLogState := after toy_o2 (after toy_o1 new).
Definition toy_s3 : KtLogState := after (Approve toy_ap toy_root) toy_s2.
Definition toy_s4 : KtLogState := after (Revoke toy_rv toy_root) toy_s3.
Definition toy_s5 : KtLogState := after (Rotate toy_rot toy_root) toy_s4.

Lemma toy_steps_2_3 : steps toy_ws 2 toy_s2 [Approve toy_ap toy_root] toy_s3.
Proof. repeat econstructor; vm_compute; reflexivity. Qed.
Lemma toy_steps_4_5 : steps toy_ws 2 toy_s4 [Rotate toy_rot toy_root] toy_s5.
Proof. repeat econstructor; vm_compute; reflexivity. Qed.

Lemma failed_operation_atomic_witness : after toy_o2 toy_s4 = toy_s4.
Proof.
  apply (failed_operation_atomic toy_ws 2 toy_o2 toy_s4 _ (InvalidEntry "device-entry already exists")).
  vm_compute. reflexivity.
Defined.

Lemma revoked_forever_witness :
  device_entries toy_s5 !! toy_d2 =
    Some {| flag := Revoked; authorized_since := 0; history_cutoff := 0; identity_pubkey_at_publish := toy_id |}.
Proof.
  apply (revoked_forever toy_ws 2 toy_s4 toy_s5 [Rotate toy_rot toy_root] toy_d2);
    [apply toy_steps_4_5 | vm_compute; reflexivity | reflexivity].
Defined.

(** Both ways, along the run from the empty mirror: the first device by bootstrap, the second by
    the approval of the first. *)
Lemma toy_steps_0_3 : steps toy_ws 2 new [toy_o1; toy_o2; Approve toy_ap toy_root] toy_s3.
Proof.
  eapply steps_cons with (s1 := after toy_o1 new); [constructor; vm_compute; reflexivity|].
  eapply steps_cons with (s1 := toy_s2); [constructor; vm_compute; reflexivity|]. apply toy_steps_2_3.
Qed.

Lemma activation_needs_approval_witness :
  (exists s1 os1 o os2, [toy_o1; toy_o2; Approve toy_ap toy_root] = os1 ++ o :: os2 /\ steps toy_ws 2 new os1 s1 /\
     approved_by s1 o toy_d2) /\
  (exists s1 os1 o os2, [toy_o1; toy_o2; Approve toy_ap toy_root] = os1 ++ o :: os2 /\ steps toy_ws 2 new os1 s1 /\
     bootstrapped_by s1 o toy_d1 toy_id).
Proof.
  split.
  - apply (activation_needs_approval toy_ws 2 new toy_s3 [toy_o1; toy_o2; Approve toy_ap toy_root] toy_d2
             {| flag := Active; authorized_since := 5; history_cutoff := 0; identity_pubkey_at_publish := toy_id |});
      [apply toy_steps_0_3 | vm_compute; discriminate | vm_compute; reflexivity | reflexivity].
  - apply (activation_needs_approval toy_ws 2 new toy_s3 [toy_o1; toy_o2; Approve toy_ap toy_root] toy_d1
             {| flag := BootstrapActive; authorized_since := 3; history_cutoff := 0; identity_pubkey_at_publish := toy_id |});
      [apply toy_steps_0_3 | vm_compute; discriminate | vm_compute; reflexivity | reflexivity].
Defined.

Lemma verified_head_endorsed_witness :
  last_verified_epoch toy_s2 <= last_verified_epoch toy_s3 /\
  ((last_verified_epoch toy_s3 = last_verified_epoch toy_s2 /\ last_verified_root toy_s3 = last_verified_root toy_s2) \/
   exists sg W, last_verified_epoch toy_s3 = epoch sg /\ last_verified_root toy_s3 = root sg /\
     1 <= 2 <= len W /\ NoDup W /\ forall w, w ∈ W -> endorses toy_ws sg w).
Proof.
  apply (verified_head_endorsed toy_ws 2 toy_s2 toy_s3 [Approve toy_ap toy_root]); [apply toy_steps_2_3 | lia].
Defined.

Lemma rotation_revokes_old_identity_witness :
  current_identity_pubkey toy_s5 = Some (toy_pk Byte.x50) /\
  (forall d e, device_entries toy_s5 !! d = Some e -> identity_pubkey_at_publish e = old_identity_pubkey toy_rot -> flag e = Revoked).
Proof.
  assert (Hx : exec toy_ws 2 (Rotate toy_rot toy_root) toy_s4 = (Ok tt, toy_s5)) by (vm_compute; reflexivity).
  split; apply (rotation_revokes_old_identity toy_ws 2 toy_s4 toy_s5 toy_rot toy_root Hx).
Defined.

End KtLogState.
