(* ===== verification/KtEntry.v ===== *)
(** * Key transparency: entries and self-monitoring
    ([crates/umbrella-kt/src/entry.rs], [entry_v2.rs], [version.rs], [monitor.rs], the hybrid
    public key of [crates/umbrella-identity/src/hybrid_identity.rs] and the key types of
    [crates/umbrella-pq/src])

    The entry an account publishes, in its classical (V1) and hybrid (V2) form, the
    encodings that become Merkle leaves, and the comparison of a published entry with what
    its owner expects.  SHA-256, the Ed25519 point check and [Vec::zeroize] are parameters. *)
From stdpp Require Import sorting.
From S2P Require Import Prelude Bytes Crypto KtError Merkle.
Import Merkle.

Module KtEntry.

(** ** Data *)
Definition MAX_ENTRY_ENCODED_LEN : Z := 64 * 1024.

Record DeviceAttestationRef := {
  device_index : Z;
  device_pub : list byte;
  attestation_valid_until : Z
}.

Record KtEntry := {
  account_id : list byte;
  epoch : Z;
  identity_ed25519_pub : list byte;
  identity_x25519_pub : list byte;
  devices : list DeviceAttestationRef
}.

Definition ML_DSA_65_PUBLIC_KEY_LEN : Z := 1952.
Definition SLH_DSA_128F_PUBLIC_KEY_LEN : Z := 32.
Definition HYBRID_IDENTITY_PUBLIC_KEY_LEN : Z := 32 + ML_DSA_65_PUBLIC_KEY_LEN.

Record HybridIdentityKeyPublic := {
  ed25519_bytes : list byte;
  ml_dsa_bytes : list byte;
  account : Z
}.

Inductive KtEntryVersion := V1Classical | V2HybridPq.
#[global] Instance KtEntryVersion_eq_dec : EqDecision KtEntryVersion.
Proof. solve_decision. Defined.

Record KtEntryV2 := {
  v2_account_id : list byte;
  identity_hybrid_pubkey : HybridIdentityKeyPublic;
  identity_slh_dsa_backup : option (list byte);
  timestamp_secs_unix : Z;
  sequence_number : Z;
  parent_hash : list byte
}.

Record OwnExpectations := {
  exp_ed25519 : list byte;
  exp_x25519 : list byte;
  exp_devices : list (Z * list byte)
}.

Record HybridOwnExpectations := {
  exp_hybrid : HybridIdentityKeyPublic;
  exp_slh_dsa_backup : option (list byte)
}.

(** ** Stable sorting

    [slice::sort_by_key] is a stable sort; insertion from the right keeps elements with
    equal keys in their order. *)
Fixpoint insert_by {A} (key : A -> Z) (x : A) (l : list A) : list A :=
  match l with
  | [] => [x]
  | y :: l' => if key x <=? key y then x :: l else y :: insert_by key x l'
  end.

Definition sort_by_key {A} (key : A -> Z) (l : list A) : list A :=
  foldr (insert_by key) [] l.

(** ** Operations *)
Section Operations.
Context (sha256 : list byte -> list byte).
(** [Vec::zeroize] of the zeroize crate. *)
Context (vec_zeroize : list byte -> list byte).
Context `{Ed25519}.

(** [KtEntry::derive_account_id] and [KtEntryV2::derive_account_id]. *)
Definition derive_account_id (identity : list byte) : list byte := sha256 identity.

Definition encode_device (d : DeviceAttestationRef) : list byte :=
  to_be 4 (device_index d) ++ device_pub d ++ to_be 8 (attestation_valid_until d).

Definition canonical_encoding (e : KtEntry) : res KtError (list byte) :=
  let out := account_id e ++ to_be 8 (epoch e) ++ identity_ed25519_pub e ++ identity_x25519_pub e in
  let sorted := sort_by_key device_index (devices e) in
  reject U16_MAX <? len sorted with EntryTooLarge (len sorted) U16_MAX ;;
  let out := out ++ to_be 2 (len sorted) in
  let out := out ++ concat (map encode_device sorted) in
  if MAX_ENTRY_ENCODED_LEN <? len out then
    let out := vec_zeroize out in
    Err (EntryTooLarge (len out) MAX_ENTRY_ENCODED_LEN)
  else Ok out.

Definition merkle_leaf_hash (e : KtEntry) : res KtError (list byte) :=
  let? encoded := canonical_encoding e in
  Ok (leaf_hash sha256 encoded).

(** *** Version 2 *)
Definition ACCOUNT_ID_LEN : Z := 32.
Definition PARENT_HASH_LEN : Z := 32.
Definition U64_BE_LEN : Z := 8.
Definition KT_ENTRY_V2_MIN_ENCODED_LEN : Z :=
  1 + ACCOUNT_ID_LEN + HYBRID_IDENTITY_PUBLIC_KEY_LEN + 1 + U64_BE_LEN + U64_BE_LEN + PARENT_HASH_LEN.
Definition KT_ENTRY_V2_MAX_ENCODED_LEN : Z := KT_ENTRY_V2_MIN_ENCODED_LEN + SLH_DSA_128F_PUBLIC_KEY_LEN.

Definition version_as_u8 (v : KtEntryVersion) : Z :=
  match v with V1Classical => 1 | V2HybridPq => 2 end.

Definition version_try_from (b : Z) : res KtError KtEntryVersion :=
  if b =? 1 then Ok V1Classical else if b =? 2 then Ok V2HybridPq else Err (UnknownEntryVersion b).

(** [HybridIdentityKeyPublic::to_bytes] *)
Definition hybrid_to_bytes (k : HybridIdentityKeyPublic) : list byte :=
  ed25519_bytes k ++ ml_dsa_bytes k.

(** [MlDsa65PublicKey::from_bytes] and [SlhDsa128fPublicKey::from_bytes]: only the length
    is checked; the error carries the length found. *)
Definition fixed_from_bytes (n : Z) (bytes : list byte) : res Z (list byte) :=
  if len bytes =? n then Ok bytes else Err (len bytes).

(** [HybridIdentityKeyPublic::from_bytes]; its errors are not distinguished by the caller. *)
Definition hybrid_from_bytes (bytes : list byte) (account : Z) : res unit HybridIdentityKeyPublic :=
  reject negb (len bytes =? HYBRID_IDENTITY_PUBLIC_KEY_LEN) with tt ;;
  let? ed := slice 0 32 bytes in
  reject negb (vk_valid ed) with tt ;;
  let? ml := slice 32 (len bytes) bytes in
  let? ml_dsa := rmap_err (fun _ => tt) (fixed_from_bytes ML_DSA_65_PUBLIC_KEY_LEN ml) in
  Ok {| ed25519_bytes := ed; ml_dsa_bytes := ml_dsa; account := account |}.

Definition v2_canonical_encoding (e : KtEntryV2) : list byte :=
  [as_u8 (version_as_u8 V2HybridPq)]
  ++ v2_account_id e
  ++ hybrid_to_bytes (identity_hybrid_pubkey e)
  ++ [match identity_slh_dsa_backup e with Some _ => Byte.x01 | None => Byte.x00 end]
  ++ match identity_slh_dsa_backup e with Some k => k | None => [] end
  ++ to_be 8 (timestamp_secs_unix e)
  ++ to_be 8 (sequence_number e)
  ++ parent_hash e.

(** The optional backup key behind its flag byte, with the cursor after it. *)
Definition read_backup (bytes : list byte) (flag_byte : Z) (cursor : Z) : res KtError (option (list byte) * Z) :=
  if flag_byte =? 0 then Ok (None, cursor)
  else if flag_byte =? 1 then
    reject len bytes <? cursor + SLH_DSA_128F_PUBLIC_KEY_LEN with InvalidV2Entry "slh_dsa_truncated" ;;
    let? slh := slice cursor (cursor + SLH_DSA_128F_PUBLIC_KEY_LEN) bytes in
    let? k := rmap_err (fun _ => InvalidV2Entry "slh_dsa_invalid")
                (fixed_from_bytes SLH_DSA_128F_PUBLIC_KEY_LEN slh) in
    Ok (Some k, cursor + SLH_DSA_128F_PUBLIC_KEY_LEN)
  else Err (InvalidV2Entry "slh_dsa_flag_invalid").

Definition v2_from_bytes (bytes : list byte) : res KtError KtEntryV2 :=
  reject len bytes =? 0 with EmptyEntry ;;
  let? b0 := index 0 bytes in
  let? version := version_try_from (u8 b0) in
  reject negb (bool_decide (version = V2HybridPq)) with UnknownEntryVersion (u8 b0) ;;
  reject len bytes <? KT_ENTRY_V2_MIN_ENCODED_LEN with InvalidV2Entry "too_short" ;;
  reject KT_ENTRY_V2_MAX_ENCODED_LEN <? len bytes with InvalidV2Entry "too_long" ;;
  let cursor := 1 in
  let? account_id := slice cursor (cursor + ACCOUNT_ID_LEN) bytes in
  let cursor := cursor + ACCOUNT_ID_LEN in
  let? hybrid_pubkey_slice := slice cursor (cursor + HYBRID_IDENTITY_PUBLIC_KEY_LEN) bytes in
  let cursor := cursor + HYBRID_IDENTITY_PUBLIC_KEY_LEN in
  let? hybrid := rmap_err (fun _ => InvalidV2Entry "hybrid_pubkey_invalid")
                   (hybrid_from_bytes hybrid_pubkey_slice 0) in
  let? flag_byte := index cursor bytes in
  let cursor := cursor + 1 in
  let? (backup, cursor) := read_backup bytes (u8 flag_byte) cursor in
  let expected_total :=
    match backup with Some _ => KT_ENTRY_V2_MAX_ENCODED_LEN | None => KT_ENTRY_V2_MIN_ENCODED_LEN end in
  reject negb (len bytes =? expected_total) with InvalidV2Entry "length_mismatch_for_flag" ;;
  let? ts := slice cursor (cursor + U64_BE_LEN) bytes in
  let cursor := cursor + U64_BE_LEN in
  let? seq := slice cursor (cursor + U64_BE_LEN) bytes in
  let cursor := cursor + U64_BE_LEN in
  let? parent := slice cursor (cursor + PARENT_HASH_LEN) bytes in
  let cursor := cursor + PARENT_HASH_LEN in
  reject negb (cursor =? len bytes) with InvalidV2Entry "trailing_bytes" ;;
  Ok {| v2_account_id := account_id; identity_hybrid_pubkey := hybrid;
        identity_slh_dsa_backup := backup; timestamp_secs_unix := from_be ts;
        sequence_number := from_be seq; parent_hash := parent |}.

Definition v2_merkle_leaf_hash (e : KtEntryV2) : res KtError (list byte) :=
  Ok (leaf_hash sha256 (v2_canonical_encoding e)).

(** *** Self-monitoring *)
Definition device_matches (d : DeviceAttestationRef) (x : Z * list byte) : bool :=
  (device_index d =? x.1) && bool_decide (device_pub d = x.2).

Definition verify_own_entry (e : KtEntry) (x : OwnExpectations) : res KtError unit :=
  reject negb (bool_decide (identity_ed25519_pub e = exp_ed25519 x))
    with SelfMonitoringMismatch "identity_ed25519_pub" ;;
  reject negb (bool_decide (identity_x25519_pub e = exp_x25519 x))
    with SelfMonitoringMismatch "identity_x25519_pub" ;;
  reject negb (bool_decide (account_id e = derive_account_id (exp_ed25519 x)))
    with SelfMonitoringMismatch "account_id" ;;
  reject negb (len (devices e) =? len (exp_devices x)) with SelfMonitoringMismatch "device_count" ;;
  reject negb (forallb (fun p => existsb (fun d => device_matches d p) (devices e)) (exp_devices x))
    with SelfMonitoringMismatch "device_set_missing_expected" ;;
  reject negb (forallb (fun d => existsb (device_matches d) (exp_devices x)) (devices e))
    with SelfMonitoringMismatch "device_set_unexpected_entry" ;;
  Ok tt.

Definition verify_own_v2_entry (e : KtEntryV2) (x : HybridOwnExpectations) : res KtError unit :=
  reject negb (bool_decide (v2_account_id e = derive_account_id (ed25519_bytes (exp_hybrid x))))
    with SelfMonitoringMismatch "v2_account_id" ;;
  reject negb (bool_decide (hybrid_to_bytes (identity_hybrid_pubkey e) = hybrid_to_bytes (exp_hybrid x)))
    with SelfMonitoringMismatch "v2_identity_hybrid_pubkey" ;;
  match identity_slh_dsa_backup e, exp_slh_dsa_backup x with
  | None, None => Ok tt
  | Some _, None => Err (SelfMonitoringMismatch "v2_slh_dsa_backup_unexpected")
  | None, Some _ => Err (SelfMonitoringMismatch "v2_slh_dsa_backup_missing")
  | Some k, Some k' =>
      reject negb (bool_decide (k = k')) with SelfMonitoringMismatch "v2_slh_dsa_backup_pubkey" ;;
      Ok tt
  end.

End Operations.

(** ** Sorting *)
Section Sorting.
Context {A : Type} (key : A -> Z).

Lemma insert_by_perm x l : insert_by key x l ≡ₚ x :: l.
Proof.
  induction l as [|y l IH]; simpl; [done|]. case_match; [done|].
  rewrite IH. apply Permutation_swap.
Qed.

Lemma sort_by_key_perm l : sort_by_key key l ≡ₚ l.
Proof. induction l as [|x l IH]; simpl; [done|]. by rewrite insert_by_perm, IH. Qed.

Lemma insert_by_sorted x l :
  StronglySorted (fun a b => key a <= key b) l -> StronglySorted (fun a b => key a <= key b) (insert_by key x l).
Proof.
  induction 1 as [|y l Hl IH Hy]; simpl; [repeat constructor|].
  destruct (key x <=? key y) eqn:Hxy; zbool.
  - constructor; [by constructor|]. constructor; [done|]. eapply Forall_impl; [exact Hy|]. simpl. lia.
  - constructor; [done|]. rewrite insert_by_perm. constructor; [lia|done].
Qed.

Lemma sort_by_key_sorted l : StronglySorted (fun a b => key a <= key b) (sort_by_key key l).
Proof. induction l; simpl; [constructor|by apply insert_by_sorted]. Qed.

(** Elements with one key keep their order. *)
Lemma sort_by_key_stable k l :
  filter (fun x => key x = k) (sort_by_key key l) = filter (fun x => key x = k) l.
Proof.
  assert (Hi : forall x l, filter (fun x => key x = k) (insert_by key x l) = filter (fun x => key x = k) (x :: l)).
  { clear l. intros x l. induction l as [|y l IH]; simpl; [done|].
    destruct (key x <=? key y) eqn:Hxy; zbool; [done|].
    rewrite !filter_cons, IH, filter_cons. repeat case_decide; try done. lia. }
  induction l as [|x l IH]; [done|]. simpl. by rewrite Hi, !filter_cons, IH.
Qed.

(** Sorted lists are determined by their groups of equal keys. *)
Lemma sorted_groups_eq l1 l2 :
  StronglySorted (fun a b => key a <= key b) l1 -> StronglySorted (fun a b => key a <= key b) l2 ->
  (forall k, filter (fun x => key x = k) l1 = filter (fun x => key x = k) l2) -> l1 = l2.
Proof.
  intros H1. revert l2. induction H1 as [|x l1 H1 IH Hx]; intros l2 H2 Hg.
  - destruct l2 as [|y l2]; [done|]. specialize (Hg (key y)). by rewrite filter_cons_True in Hg.
  - destruct H2 as [|y l2 H2 Hy]; [specialize (Hg (key x)); by rewrite filter_cons_True in Hg|].
    assert (Hxy : key x = key y).
    { assert (x ∈ y :: l2) as Hin by (apply (list_elem_of_filter (fun z => key z = key x)); rewrite <- Hg;
        apply list_elem_of_filter; split; [done|left]).
      assert (y ∈ x :: l1) as Hin' by (apply (list_elem_of_filter (fun z => key z = key y)); rewrite Hg;
        apply list_elem_of_filter; split; [done|left]).
      apply elem_of_cons in Hin as [-> |Hin], Hin' as [Hy'|Hin']; try congruence.
      eapply Forall_forall in Hx, Hy; eauto. simpl in *. lia. }
    pose proof (Hg (key x)) as Hk. rewrite !filter_cons_True in Hk by done.
    injection Hk as -> Hk. f_equal. apply IH; [done|]. intros k. specialize (Hg k).
    rewrite !filter_cons in Hg. case_decide; congruence.
Qed.

Lemma sort_by_key_groups l1 l2 :
  sort_by_key key l1 = sort_by_key key l2 <->
  forall k, filter (fun x => key x = k) l1 = filter (fun x => key x = k) l2.
Proof.
  split.
  - intros Heq k. by rewrite <- (sort_by_key_stable k l1), Heq, sort_by_key_stable.
  - intros Hg. apply sorted_groups_eq; try apply sort_by_key_sorted.
    intros k. by rewrite !sort_by_key_stable.
Qed.

(** With distinct keys the sorted list does not depend on the order of the input. *)
Lemma sort_by_key_order l1 l2 : NoDup (key <$> l1) -> l1 ≡ₚ l2 -> sort_by_key key l1 = sort_by_key key l2.
Proof.
  intros Hnd Hp. eapply (StronglySorted_unique_strong (fun a b => key a <= key b)); try apply sort_by_key_sorted.
  - intros a b Ha Hb Hab Hba. rewrite sort_by_key_perm in Ha, Hb. rewrite <- Hp in Hb.
    apply list_elem_of_lookup in Ha as [i Hi], Hb as [j Hj].
    assert (i = j) as <-; [|congruence].
    eapply NoDup_lookup; [exact Hnd|rewrite list_lookup_fmap, Hi; done|].
    rewrite list_lookup_fmap, Hj. simpl. f_equal. lia.
  - by rewrite !sort_by_key_perm.
Qed.

End Sorting.

(** ** Encodings *)
Record wf_device (d : DeviceAttestationRef) : Prop := {
  wd_index : is_u32 (device_index d);
  wd_pub : len (device_pub d) = 32;
  wd_until : is_u64 (attestation_valid_until d)
}.

Record wf_entry (e : KtEntry) : Prop := {
  we_account : len (account_id e) = 32;
  we_epoch : is_u64 (epoch e);
  we_ed : len (identity_ed25519_pub e) = 32;
  we_x : len (identity_x25519_pub e) = 32;
  we_devices : Forall wf_device (devices e)
}.

(** The bytes of an entry before the size check. *)
Definition entry_bytes (e : KtEntry) : list byte :=
  account_id e ++ to_be 8 (epoch e) ++ identity_ed25519_pub e ++ identity_x25519_pub e
  ++ to_be 2 (len (devices e)) ++ concat (map encode_device (sort_by_key device_index (devices e))).

Lemma len_sort {A} (key : A -> Z) l : len (sort_by_key key l) = len l.
Proof. unfold len. by rewrite sort_by_key_perm. Qed.

Lemma len_encode_device d : wf_device d -> len (encode_device d) = 44.
Proof. intros [_ Hp _]. unfold encode_device. len_lia. Qed.

Lemma len_encode_devices l : Forall wf_device l -> len (concat (map encode_device l)) = 44 * len l.
Proof.
  induction 1 as [|d l Hd _ IH]; [done|]. cbn [map concat].
  rewrite len_app, len_cons, IH, len_encode_device by done. lia.
Qed.

Lemma wf_sorted_devices e : wf_entry e -> Forall wf_device (sort_by_key device_index (devices e)).
Proof. intros [? ? ? ? Hd]. by rewrite sort_by_key_perm. Qed.

Lemma len_entry_bytes e : wf_entry e -> len (entry_bytes e) = 106 + 44 * len (devices e).
Proof.
  intros He. pose proof (wf_sorted_devices e He) as Hs. destruct He. unfold entry_bytes.
  autorewrite with umb_len. rewrite len_encode_devices, len_sort by done. lia.
Qed.

Lemma canonical_encoding_spec zv e :
  canonical_encoding zv e =
    if U16_MAX <? len (devices e) then Err (EntryTooLarge (len (devices e)) U16_MAX)
    else if MAX_ENTRY_ENCODED_LEN <? len (entry_bytes e)
    then Err (EntryTooLarge (len (zv (entry_bytes e))) MAX_ENTRY_ENCODED_LEN)
    else Ok (entry_bytes e).
Proof. unfold canonical_encoding, entry_bytes, rguard. by rewrite len_sort, <- !(assoc_L (++)). Qed.

Lemma canonical_encoding_Ok zv e b :
  wf_entry e -> canonical_encoding zv e = Ok b <-> b = entry_bytes e /\ len (devices e) <= 1487.
Proof.
  intros He. rewrite canonical_encoding_spec, len_entry_bytes by done. unfold U16_MAX, MAX_ENTRY_ENCODED_LEN.
  destruct (65535 <? len (devices e)) eqn:H1, (64 * 1024 <? 106 + 44 * len (devices e)) eqn:H2; zbool;
    split; try done; try (intros [_ ?]; lia); [intros Hb; apply Ok_inj in Hb; split; [done|lia]|by intros [-> _]].
Qed.

Lemma encode_devices_inj l1 l2 :
  Forall wf_device l1 -> Forall wf_device l2 ->
  concat (map encode_device l1) = concat (map encode_device l2) -> l1 = l2.
Proof.
  intros H1. revert l2. induction H1 as [|d1 l1 Hd1 _ IH]; intros l2 H2 Heq.
  - apply (f_equal len) in Heq. rewrite (len_encode_devices l2) in Heq by done.
    symmetry. apply len_zero_nil. change (0 = 44 * len l2) in Heq. lia.
  - destruct H2 as [|d2 l2 Hd2 H2].
    { apply (f_equal len) in Heq. cbn [map concat] in Heq. rewrite len_app, len_encode_device in Heq by done.
      pose proof (len_nonneg (concat (map encode_device l1))). rewrite len_nil in Heq. lia. }
    cbn [map concat] in Heq. apply app_inj_len in Heq as [Hd Hl]; [|by rewrite !len_encode_device].
    f_equal; [|by apply IH]. destruct d1, d2, Hd1, Hd2. unfold encode_device in Hd.
    cbn [device_index device_pub attestation_valid_until] in *.
    peel Hd E1. peel Hd E2. apply to_be_u64_inj in Hd; [|done..].
    apply (f_equal from_be) in E1. rewrite !from_be_to_be_u32 in E1 by done. congruence.
Qed.

(** What the encoding of an entry determines. *)
Definition same_content (e1 e2 : KtEntry) : Prop :=
  account_id e1 = account_id e2 /\ epoch e1 = epoch e2 /\
  identity_ed25519_pub e1 = identity_ed25519_pub e2 /\ identity_x25519_pub e1 = identity_x25519_pub e2 /\
  forall k, filter (fun d => device_index d = k) (devices e1) = filter (fun d => device_index d = k) (devices e2).

Lemma same_content_perm e1 e2 : same_content e1 e2 -> devices e1 ≡ₚ devices e2.
Proof.
  intros (_ & _ & _ & _ & Hg). apply sort_by_key_groups in Hg.
  by rewrite <- (sort_by_key_perm device_index (devices e1)), Hg, sort_by_key_perm.
Qed.

Lemma entry_bytes_content e1 e2 :
  wf_entry e1 -> wf_entry e2 -> len (devices e1) <= U16_MAX -> len (devices e2) <= U16_MAX ->
  entry_bytes e1 = entry_bytes e2 <-> same_content e1 e2.
Proof.
  intros W1 W2 H1 H2. split.
  - intros Heq. pose proof (wf_sorted_devices _ W1) as S1. pose proof (wf_sorted_devices _ W2) as S2.
    destruct W1, W2. unfold entry_bytes in Heq. peel Heq E1. peel Heq E2. peel Heq E3. peel Heq E4. peel Heq E5.
    apply encode_devices_inj in Heq; [|done..]. apply to_be_u64_inj in E2; [|done..].
    repeat (split; [done|]). by apply sort_by_key_groups.
  - intros Hc. pose proof (same_content_perm _ _ Hc) as Hp. destruct Hc as (Ha & He & Hi & Hx & Hg).
    apply sort_by_key_groups in Hg. unfold entry_bytes. rewrite Ha, He, Hi, Hx, Hg. unfold len. by rewrite Hp.
Qed.

(** ** The V2 codec *)
Section V2.
Context `{Ed25519}.

Record wf_hybrid (k : HybridIdentityKeyPublic) : Prop := {
  wh_ed : len (ed25519_bytes k) = 32;
  wh_valid : vk_valid (ed25519_bytes k) = true;
  wh_ml : len (ml_dsa_bytes k) = ML_DSA_65_PUBLIC_KEY_LEN;
  wh_account : account k = 0
}.

Record wf_v2 (e : KtEntryV2) : Prop := {
  w2_account : len (v2_account_id e) = 32;
  w2_hybrid : wf_hybrid (identity_hybrid_pubkey e);
  w2_backup : match identity_slh_dsa_backup e with Some k => len k = 32 | None => True end;
  w2_ts : is_u64 (timestamp_secs_unix e);
  w2_seq : is_u64 (sequence_number e);
  w2_parent : len (parent_hash e) = 32
}.

Ltac v2_lens := unfold KT_ENTRY_V2_MAX_ENCODED_LEN, KT_ENTRY_V2_MIN_ENCODED_LEN, HYBRID_IDENTITY_PUBLIC_KEY_LEN,
  ML_DSA_65_PUBLIC_KEY_LEN, SLH_DSA_128F_PUBLIC_KEY_LEN, ACCOUNT_ID_LEN, PARENT_HASH_LEN, U64_BE_LEN in *.

Lemma len_hybrid_to_bytes k : wf_hybrid k -> len (hybrid_to_bytes k) = 1984.
Proof. intros []. v2_lens. unfold hybrid_to_bytes. len_lia. Qed.

Lemma len_v2_encoding e :
  wf_v2 e -> len (v2_canonical_encoding e) = if identity_slh_dsa_backup e then 2098 else 2066.
Proof.
  intros [? Hh ? ? ? ?]. pose proof (len_hybrid_to_bytes _ Hh). unfold v2_canonical_encoding.
  destruct (identity_slh_dsa_backup e); len_lia.
Qed.

Lemma hybrid_dec_enc k : wf_hybrid k -> hybrid_from_bytes (hybrid_to_bytes k) 0 = Ok k.
Proof.
  intros Hk. pose proof (len_hybrid_to_bytes k Hk) as Hl. destruct Hk as [He Hv Hm Ha].
  unfold hybrid_from_bytes. rewrite Hl. change (negb (1984 =? HYBRID_IDENTITY_PUBLIC_KEY_LEN)) with false.
  cbn [rguard]. unfold hybrid_to_bytes in *. rd_slice (ed25519_bytes k). rewrite Hv. cbn [negb rguard].
  v2_lens. rd_slice (ml_dsa_bytes k). unfold fixed_from_bytes. rewrite (proj2 (Z.eqb_eq _ _)) by done.
  cbn [rmap_err rbind]. rewrite <- Ha. by destruct k.
Qed.

Lemma hybrid_enc_dec b k : hybrid_from_bytes b 0 = Ok k -> hybrid_to_bytes k = b /\ wf_hybrid k.
Proof.
  unfold hybrid_from_bytes. intros Hd. apply rguard_Ok in Hd as [Hl Hd]. inv_slice Hd x1 S1 L1.
  apply rguard_Ok in Hd as [Hv Hd]. inv_slice Hd x2 S2 L2. unfold fixed_from_bytes in Hd.
  destruct (len x2 =? _) eqn:Hx; [|done]. cbn [rmap_err rbind] in Hd. apply Ok_inj in Hd as <-. zbool. v2_lens.
  split; [|by split].
  unfold hybrid_to_bytes. cbn [ed25519_bytes ml_dsa_bytes].
  eapply (slices_cover (E := unit)); [glue_slices|lia].
Qed.

Lemma hybrid_total b a : hybrid_from_bytes b a <> Panic.
Proof.
  unfold hybrid_from_bytes. v2_lens. intros Hp. no_panic_step Hp. no_panic_step Hp. no_panic_step Hp. no_panic_step Hp.
  unfold fixed_from_bytes in Hp. by destruct (_ =? _) in Hp.
Qed.

Lemma read_backup_some bytes cursor k :
  slice (E := KtError) cursor (cursor + 32) bytes = Ok k ->
  read_backup bytes 1 cursor = Ok (Some k, cursor + 32).
Proof.
  intros Hs. pose proof (slice_ok_len _ _ _ _ Hs). apply slice_Ok_inv in Hs as Hr.
  unfold read_backup. v2_lens. cbn [Z.eqb Pos.eqb].
  rewrite (proj2 (Z.ltb_ge _ _)) by lia. cbn [rguard]. rewrite Hs. cbn [rbind].
  unfold fixed_from_bytes. by rewrite (proj2 (Z.eqb_eq _ _)) by lia.
Qed.

Lemma read_backup_Ok bytes f cursor o c :
  read_backup bytes f cursor = Ok (o, c) ->
  (f = 0 /\ o = None /\ c = cursor) \/
  (f = 1 /\ c = cursor + 32 /\ exists k, o = Some k /\ len k = 32 /\ slice (E := KtError) cursor (cursor + 32) bytes = Ok k).
Proof.
  unfold read_backup, fixed_from_bytes. v2_lens.
  destruct (f =? 0) eqn:F0; [intros Hd; apply Ok_inj in Hd; simplify_eq; zbool; by left|].
  destruct (f =? 1) eqn:F1; [|done]. intros Hd. apply rguard_Ok in Hd as [_ Hd]. inv_slice Hd x S1 L1.
  destruct (len x =? 32); [|done]. cbn [rmap_err rbind] in Hd. apply Ok_inj in Hd. simplify_eq. zbool. right. split_and!; [done..|].
  exists x. split_and!; [done|lia|done].
Qed.

Lemma version_byte : version_try_from (u8 (as_u8 (version_as_u8 V2HybridPq))) = Ok V2HybridPq.
Proof. reflexivity. Qed.

Lemma v2_dec_enc e : wf_v2 e -> v2_from_bytes (v2_canonical_encoding e) = Ok e.
Proof.
  intros He. pose proof (len_v2_encoding e He) as Hl. destruct He as [Ha Hh Hb Ht Hs Hp].
  pose proof (len_hybrid_to_bytes _ Hh) as Hk.
  unfold v2_from_bytes. rewrite Hl. unfold v2_canonical_encoding in *. v2_lens.
  destruct e as [aid hk [bk|] ts sq ph]; cbn [v2_account_id identity_hybrid_pubkey identity_slh_dsa_backup
      timestamp_secs_unix sequence_number parent_hash] in *;
    rewrite (proj2 (Z.eqb_neq _ 0)) by lia; cbn [rguard];
    rd_index (as_u8 (version_as_u8 V2HybridPq)); rewrite version_byte; cbn [rbind];
    rewrite bool_decide_true by done; cbn [negb rguard]; rewrite !(proj2 (Z.ltb_ge _ _)) by lia; cbn [rguard];
    (rd_slice aid); (rd_slice (hybrid_to_bytes hk)); rewrite hybrid_dec_enc by done; cbn [rmap_err rbind].
  - rd_index Byte.x01. change (u8 Byte.x01) with 1. rewrite (read_backup_some _ _ bk) by slice_find.
    cbn [rbind]. cbn zeta. rewrite (proj2 (Z.eqb_eq _ _)) by lia. cbn [negb rguard].
    rd_slice (to_be 8 ts). rd_slice (to_be 8 sq). rd_slice ph. by rewrite !from_be_to_be_u64.
  - rd_index Byte.x00. change (u8 Byte.x00) with 0. change (read_backup ?b 0 ?c) with (Ok (E := KtError) (@None (list byte), c)).
    cbn [rbind]. cbn zeta. rewrite (proj2 (Z.eqb_eq _ _)) by lia. cbn [negb rguard].
    rd_slice (to_be 8 ts). rd_slice (to_be 8 sq). rd_slice ph. by rewrite !from_be_to_be_u64.
Qed.

Lemma v2_enc_dec b e : v2_from_bytes b = Ok e -> v2_canonical_encoding e = b /\ wf_v2 e.
Proof.
  unfold v2_from_bytes. intros Hd. apply rguard_Ok in Hd as [_ Hd]. inv_index Hd v S0.
  apply rbind_Ok in Hd as (ver & Hv & Hd). apply rguard_Ok in Hd as [Hv2 Hd].
  apply rguard_Ok in Hd as [_ Hd]. apply rguard_Ok in Hd as [_ Hd]. cbn zeta in Hd.
  inv_slice Hd x1 S1 L1. inv_slice Hd x2 S2 L2.
  apply rbind_Ok in Hd as (hk & Hh & Hd). inv_index Hd f S3.
  apply rbind_Ok in Hd as ([o c] & Hb & Hd). apply rguard_Ok in Hd as [Hlen Hd].
  inv_slice Hd x4 S4 L4. inv_slice Hd x5 S5 L5. inv_slice Hd x6 S6 L6.
  apply rguard_Ok in Hd as [Hc Hd]. apply Ok_inj in Hd as <-. zbool. v2_lens.
  destruct (hybrid_from_bytes x2 0) as [hk'| |] eqn:Hh'; cbn in Hh; simplify_eq.
  apply hybrid_enc_dec in Hh' as [<- Hh].
  assert (v = Byte.x02) as ->.
  { unfold version_try_from in Hv. repeat case_match; simplify_eq; zbool; by apply u8_inj. }
  apply read_backup_Ok in Hb as [(Hf & -> & ->)|(Hf & -> & k & -> & Hk & S7)].
  - assert (f = Byte.x00) as -> by (by apply u8_inj). split.
    + unfold v2_canonical_encoding. cbn [v2_account_id identity_hybrid_pubkey identity_slh_dsa_backup
        timestamp_secs_unix sequence_number parent_hash].
      rewrite app_nil_l, !to_be_from_be_n by (simpl; lia).
      eapply (slices_cover (E := KtError)); [glue_slices|lia].
    + split; cbn; try done; by apply from_be_u64.
  - assert (f = Byte.x01) as -> by (by apply u8_inj). split.
    + unfold v2_canonical_encoding. cbn [v2_account_id identity_hybrid_pubkey identity_slh_dsa_backup
        timestamp_secs_unix sequence_number parent_hash].
      rewrite !to_be_from_be_n by (simpl; lia).
      eapply (slices_cover (E := KtError)); [glue_slices|lia].
    + split; cbn; try done; by apply from_be_u64.
Qed.

Lemma read_backup_total bytes f cursor : 0 <= cursor -> read_backup bytes f cursor <> Panic.
Proof.
  intros Hc. unfold read_backup. v2_lens. destruct (f =? 0); [done|]. destruct (f =? 1); [|done].
  intros Hp. no_panic_step Hp. no_panic_step Hp. unfold fixed_from_bytes in Hp. by destruct (_ =? _) in Hp.
Qed.

Lemma read_backup_cursor bytes f cursor o c :
  read_backup bytes f cursor = Ok (o, c) -> c = cursor + match o with Some _ => 32 | None => 0 end.
Proof. intros [(_ & -> & ->)|(_ & -> & k & -> & _)]%read_backup_Ok; lia. Qed.

Lemma v2_total b : v2_from_bytes b <> Panic.
Proof.
  unfold v2_from_bytes. v2_lens. pose proof (len_nonneg b). intros Hp. cbn zeta in Hp.
  no_panic_step Hp. no_panic_step Hp.
  destruct (version_try_from _) as [v| |] eqn:Hv in Hp; cbn [rbind] in Hp; [|done|].
  2: { revert Hv. unfold version_try_from. by repeat case_match. }
  do 5 no_panic_step Hp.
  destruct (hybrid_from_bytes _ 0) as [hk| |] eqn:Hh in Hp; cbn [rmap_err rbind] in Hp; [|done|by apply hybrid_total in Hh].
  no_panic_step Hp.
  destruct (read_backup _ _ _) as [[o c]| |] eqn:Hrb in Hp; cbn [rbind] in Hp; [|done|by apply read_backup_total in Hrb].
  apply read_backup_cursor in Hrb as ->. destruct o; no_panic Hp.
Qed.

#[export] Instance v2_codec : Codec KtError KtEntryV2 := {|
  enc := v2_canonical_encoding; dec := v2_from_bytes; wf := wf_v2;
  dec_enc := v2_dec_enc; enc_dec := v2_enc_dec; dec_total := v2_total
|}.

End V2.

(** ** Self-monitoring *)

(** The part of a device reference the owner compares. *)
Definition dev_key (d : DeviceAttestationRef) : Z * list byte := (device_index d, device_pub d).

Lemma device_matches_spec d p : device_matches d p = true <-> dev_key d = p.
Proof.
  unfold device_matches, dev_key. destruct p as [i k]. simpl.
  rewrite andb_true_iff, Z.eqb_eq, bool_decide_eq_true. naive_solver.
Qed.

(** Mutual inclusion and equal length, when one side has no duplicates. *)
Lemma mutual_inclusion_perm {A} (l k : list A) :
  NoDup k -> length l = length k -> k ⊆ l -> l ≡ₚ k.
Proof.
  intros Hk Hl Hs. symmetry. apply submseteq_length_Permutation; [|lia].
  by apply NoDup_submseteq.
Qed.

Lemma verify_own_entry_Ok sha e x :
  NoDup (exp_devices x) ->
  verify_own_entry sha e x = Ok tt <->
    identity_ed25519_pub e = exp_ed25519 x /\ identity_x25519_pub e = exp_x25519 x /\
    account_id e = sha (exp_ed25519 x) /\ dev_key <$> devices e ≡ₚ exp_devices x.
Proof.
  intros Hnd. unfold verify_own_entry, derive_account_id. rewrite !rguard_Ok, !negb_false_iff, !bool_decide_eq_true, Z.eqb_eq.
  rewrite !forallb_forall. split.
  - intros (H1 & H2 & H3 & Hlen & Hm & _ & _). split_and!; [done..|]. apply mutual_inclusion_perm; [done| |].
    + rewrite length_fmap. unfold len in Hlen. lia.
    + intros p Hp. specialize (Hm p (proj1 (list_elem_of_In _ _) Hp)).
      apply existsb_exists in Hm as (d & Hd & Hdp). apply device_matches_spec in Hdp as <-.
      apply list_elem_of_fmap. exists d. split; [done|]. by apply list_elem_of_In.
  - intros (H1 & H2 & H3 & Hp). split_and!; try done.
    + unfold len. by rewrite <- Hp, length_fmap.
    + intros p Hin. apply list_elem_of_In in Hin. rewrite <- Hp in Hin. apply list_elem_of_fmap in Hin as (d & -> & Hd).
      apply existsb_exists. exists d. split; [by apply list_elem_of_In|]. by apply device_matches_spec.
    + intros d Hd. apply existsb_exists. exists (dev_key d). split; [|by apply device_matches_spec].
      apply list_elem_of_In. rewrite <- Hp. apply list_elem_of_fmap. exists d. split; [done|by apply list_elem_of_In].
Qed.

(** ** Entries in the log *)

(** Two accepted inclusion proofs of hashed data bind the data, not only its hash. *)
Lemma leaf_data_bind (sha : list byte -> list byte) (Hsha : forall z, is_hash (sha z)) i n root d1 d2 p1 p2 :
  n <= U64_MAX -> 0 <= i < n -> Forall is_hash (siblings p1) -> Forall is_hash (siblings p2) ->
  verify_inclusion sha (leaf_hash sha d1) i n p1 root = Ok tt ->
  verify_inclusion sha (leaf_hash sha d2) i n p2 root = Ok tt ->
  d1 = d2 \/
  exists a b, a ∈ (LEAF_PREFIX :: d1) :: hash_inputs sha (i, n - 1, leaf_hash sha d1) (siblings p1) /\
    b ∈ (LEAF_PREFIX :: d2) :: hash_inputs sha (i, n - 1, leaf_hash sha d2) (siblings p2) /\
    a <> b /\ sha a = sha b.
Proof.
  intros Hn Hi H1 H2 V1 V2.
  destruct (accepted_paths_bind sha Hsha i n root _ _ _ _ Hn Hi (Hsha _) (Hsha _) H1 H2 V1 V2) as [[Heq _]|Hc].
  - destruct (decide (d1 = d2)) as [|Hne]; [by left|]. right.
    exists (LEAF_PREFIX :: d1), (LEAF_PREFIX :: d2). split_and!; [left|left|congruence|done].
  - right. destruct Hc as (a & b & Ha & Hb & Hab & Heq). exists a, b. split_and!; [by right|by right|done|done].
Qed.

Lemma merkle_leaf_hash_Ok sha zv e l :
  merkle_leaf_hash sha zv e = Ok l <-> exists b, canonical_encoding zv e = Ok b /\ l = leaf_hash sha b.
Proof. unfold merkle_leaf_hash. rewrite rbind_Ok. naive_solver. Qed.

(** ** Theorems *)

(** C3. Key transparency end to end: when the owner of an account accepts its own entry
    ([verify_own_entry]) and proves it included at some index under a root, then any peer who
    proves an entry included at that index under the same root sees exactly the owner's
    identity keys and the owner's set of device keys, with no key added, dropped or replaced,
    unless the bytes hashed on the way contain a SHA-256 collision. *)
Theorem peer_sees_owner_devices (sha zv : list byte -> list byte) (Hsha : forall z, is_hash (sha z))
    (own peer : KtEntry) (x : OwnExpectations) (i n : Z) (root l1 l2 : list byte) (p1 p2 : AuditPath)
    (Hown : wf_entry own) (Hpeer : wf_entry peer) (Hnd : NoDup (exp_devices x))
    (Hmon : verify_own_entry sha own x = Ok tt)
    (Hl1 : merkle_leaf_hash sha zv own = Ok l1) (Hl2 : merkle_leaf_hash sha zv peer = Ok l2)
    (Hn : n <= U64_MAX) (Hi : 0 <= i < n)
    (Hp1 : Forall is_hash (siblings p1)) (Hp2 : Forall is_hash (siblings p2))
    (Hin1 : verify_inclusion sha l1 i n p1 root = Ok tt)
    (Hin2 : verify_inclusion sha l2 i n p2 root = Ok tt) :
  (identity_ed25519_pub peer = exp_ed25519 x /\ identity_x25519_pub peer = exp_x25519 x /\
   account_id peer = sha (exp_ed25519 x) /\ dev_key <$> devices peer ≡ₚ exp_devices x) \/
  exists a b, a ∈ (LEAF_PREFIX :: entry_bytes own) :: hash_inputs sha (i, n - 1, l1) (siblings p1) /\
    b ∈ (LEAF_PREFIX :: entry_bytes peer) :: hash_inputs sha (i, n - 1, l2) (siblings p2) /\
    a <> b /\ sha a = sha b.
Proof.
  apply merkle_leaf_hash_Ok in Hl1 as (b1 & E1 & ->). apply merkle_leaf_hash_Ok in Hl2 as (b2 & E2 & ->).
  apply canonical_encoding_Ok in E1 as [-> D1]; [|done]. apply canonical_encoding_Ok in E2 as [-> D2]; [|done].
  destruct (leaf_data_bind sha Hsha i n root _ _ p1 p2 Hn Hi Hp1 Hp2 Hin1 Hin2) as [Heq|Hc]; [left|by right].
  apply entry_bytes_content in Heq; [|done|done|unfold U16_MAX; lia..].
  apply verify_own_entry_Ok in Hmon as (M1 & M2 & M3 & M4); [|done].
  pose proof (same_content_perm _ _ Heq) as Hperm. destruct Heq as (H1 & H2 & H3 & H4 & _).
  split_and!; [congruence..|]. by rewrite <- Hperm.
Qed.

(** The V1 encoding is canonical: it succeeds exactly up to 1487 devices, two entries
    have one encoding if and only if their fields agree and for every device index the
    devices with that index agree in order (so the order of distinct indices is irrelevant,
    the order of repeated ones is not), and an entry that is too large is refused; because the
    buffer is zeroized, which empties it, before its length is read, the refusal of an entry
    of at most 65535 devices always reports a size of 0. *)
Theorem entry_encoding_canonical (zv : list byte -> list byte) (Hzv : forall l, zv l = [])
    (e1 e2 : KtEntry) (H1 : wf_entry e1) (H2 : wf_entry e2) :
  ((exists b, canonical_encoding zv e1 = Ok b) <-> len (devices e1) <= 1487) /\
  (len (devices e1) <= 1487 -> len (devices e2) <= 1487 ->
     canonical_encoding zv e1 = canonical_encoding zv e2 <-> same_content e1 e2) /\
  (1487 < len (devices e1) <= U16_MAX ->
     canonical_encoding zv e1 = Err (EntryTooLarge 0 MAX_ENTRY_ENCODED_LEN)).
Proof.
  split; [|split].
  - setoid_rewrite (canonical_encoding_Ok zv e1); [naive_solver|done].
  - intros D1 D2. rewrite <- entry_bytes_content by (done || unfold U16_MAX; lia).
    rewrite (proj2 (canonical_encoding_Ok zv e1 _ H1)), (proj2 (canonical_encoding_Ok zv e2 _ H2)) by done.
    split; [apply Ok_inj|congruence].
  - intros [D1 D2]. rewrite canonical_encoding_spec, len_entry_bytes, Hzv by done.
    rewrite (proj2 (Z.ltb_ge _ _)) by done.
    by rewrite (proj2 (Z.ltb_lt _ _)) by (unfold MAX_ENTRY_ENCODED_LEN; lia).
Qed.

(** V2 entries have a canonical, panic-free wire format, and the two versions share the
    log safely although V1 carries no version byte: no V1 encoding is a V2 encoding, and the
    V2 parser refuses every V1 encoding. *)
Theorem v2_entry_codec `{Ed25519} (zv : list byte -> list byte) (e : KtEntryV2) (b : list byte) :
  (wf_v2 e -> v2_from_bytes (v2_canonical_encoding e) = Ok e) /\
  (v2_from_bytes b = Ok e -> v2_canonical_encoding e = b /\ wf_v2 e) /\
  v2_from_bytes b <> Panic /\
  (forall e1, wf_entry e1 -> canonical_encoding zv e1 = Ok b ->
     (wf_v2 e -> v2_canonical_encoding e <> b) /\ forall e2, v2_from_bytes b <> Ok e2).
Proof.
  split_and!; [apply v2_dec_enc|apply v2_enc_dec|apply v2_total|].
  intros e1 W1 E1. apply canonical_encoding_Ok in E1 as [-> _]; [|done].
  assert (Hne : forall e2, wf_v2 e2 -> v2_canonical_encoding e2 <> entry_bytes e1).
  { intros e2 W2 Heq. apply (f_equal len) in Heq. rewrite len_v2_encoding, len_entry_bytes in Heq by done.
    destruct (identity_slh_dsa_backup e2); lia. }
  split; [by apply Hne|]. intros e2 [Heq W2]%v2_enc_dec. by apply (Hne e2).
Qed.

(** ** Witnesses *)
Definition toy_pub (b : byte) : list byte := replicate 32 b.
Definition toy_dev (i : Z) (b : byte) : DeviceAttestationRef :=
  {| device_index := i; device_pub := toy_pub b; attestation_valid_until := 1000 |}.
Definition toy_entry (ds : list DeviceAttestationRef) : KtEntry :=
  {| account_id := toy_sha (toy_pub Byte.x01); epoch := 7; identity_ed25519_pub := toy_pub Byte.x01;
     identity_x25519_pub := toy_pub Byte.x02; devices := ds |}.
Definition toy_expect : OwnExpectations :=
  {| exp_ed25519 := toy_pub Byte.x01; exp_x25519 := toy_pub Byte.x02;
     exp_devices := [(3, toy_pub Byte.x33); (0, toy_pub Byte.x30)] |}.
Definition toy_other : list byte := toy_sha [Byte.x09].

Lemma toy_entry_wf : wf_entry (toy_entry [toy_dev 0 Byte.x30; toy_dev 3 Byte.x33]) /\
  wf_entry (toy_entry [toy_dev 3 Byte.x33; toy_dev 0 Byte.x30]).
Proof.
  split; split; try reflexivity; try (vm_compute; split; discriminate);
    repeat constructor; vm_compute; discriminate.
Qed.

(** The encoding is order-dependent for repeated device indices. *)
Example duplicate_index_order :
  canonical_encoding (fun _ => []) (toy_entry [toy_dev 3 Byte.x33; toy_dev 3 Byte.x30]) <>
  canonical_encoding (fun _ => []) (toy_entry [toy_dev 3 Byte.x30; toy_dev 3 Byte.x33]).
Proof. vm_compute. discriminate. Qed.

Lemma peer_sees_owner_devices_witness :
  let own := toy_entry [toy_dev 0 Byte.x30; toy_dev 3 Byte.x33] in
  let peer := toy_entry [toy_dev 3 Byte.x33; toy_dev 0 Byte.x30] in
  let l := leaf_hash toy_sha (entry_bytes own) in
  (identity_ed25519_pub peer = exp_ed25519 toy_expect /\ identity_x25519_pub peer = exp_x25519 toy_expect /\
   account_id peer = toy_sha (exp_ed25519 toy_expect) /\ dev_key <$> devices peer ≡ₚ exp_devices toy_expect) \/
  exists a b, a ∈ (LEAF_PREFIX :: entry_bytes own) :: hash_inputs toy_sha (0, 2 - 1, l) [toy_other] /\
    b ∈ (LEAF_PREFIX :: entry_bytes peer) :: hash_inputs toy_sha (0, 2 - 1, l) [toy_other] /\
    a <> b /\ toy_sha a = toy_sha b.
Proof.
  intros own peer l.
  assert (Hp : Forall is_hash (siblings {| siblings := [toy_other] |})) by (repeat constructor).
  apply (peer_sees_owner_devices toy_sha (fun _ => []) toy_sha_len own peer toy_expect 0 2
           (inner_hash toy_sha l toy_other) l l {| siblings := [toy_other] |} {| siblings := [toy_other] |}
           (proj1 toy_entry_wf) (proj2 toy_entry_wf)); try exact Hp; try (vm_compute; reflexivity).
  - apply NoDup_cons. split; [set_solver|apply NoDup_singleton].
  - vm_compute. discriminate.
  - lia.
Defined.

Lemma entry_encoding_canonical_witness :
  canonical_encoding (fun _ => []) (toy_entry [toy_dev 0 Byte.x30; toy_dev 3 Byte.x33]) =
  canonical_encoding (fun _ => []) (toy_entry [toy_dev 3 Byte.x33; toy_dev 0 Byte.x30]).
Proof.
  apply (entry_encoding_canonical (fun _ => []) (fun _ => eq_refl) _ _ (proj1 toy_entry_wf) (proj2 toy_entry_wf));
    [vm_compute; discriminate|vm_compute; discriminate|].
  repeat (split; [reflexivity|]). intros k. cbn [toy_entry devices]. rewrite !filter_cons. cbn [toy_dev device_index].
  repeat case_decide; done || lia.
Defined.

End KtEntry.
