(* ===== verification/ThresholdIdentity.v ===== *)
(** * Threshold identity: the per-server account state
    ([crates/umbrella-threshold-identity/src/]: [attempt_counter.rs], [account_state.rs],
    [time_lock.rs], [dead_man.rs], [offline_ticket.rs], [duress.rs], [pin_kdf.rs],
    [anonymous_id.rs], [key_derivation.rs], [error.rs] and the limits of [lib.rs])

    Each of five servers keeps one account: a PIN hash, an encrypted key share, the counter of
    wrong attempts, a time-locked recovery request and the dead-man switch.  [SystemTime] and
    [Duration] are nanoseconds relative to the UNIX epoch; a time before the epoch is negative
    and makes [duration_since] fail.  Argon2id and HKDF-SHA256 are parameters. *)
From S2P Require Import Prelude Bytes.

(** Argon2id ([Params::new] and [hash_password_into]) and HKDF-SHA256 (optional salt, key
    material, info, output length). *)
Class PinCrypto := {
  argon2_params_ok : bool;
  argon2id : list byte -> list byte -> option (list byte);
  hkdf_sha256 : option (list byte) -> list byte -> list byte -> Z -> option (list byte)
}.
(** RFC 5869: HKDF-SHA-256 gives up to 255 blocks of 32 bytes. *)
Class HkdfLaws `{PinCrypto} : Prop := {
  hkdf_total : forall salt ikm info n, 0 <= n <= 255 * 32 -> exists okm, hkdf_sha256 salt ikm info n = Some okm /\ len okm = n
}.

Module ThresholdIdentity.

(** ** Errors and limits *)
Inductive PolicyRejection :=
| PinAttemptsExhausted | Recovery24Exhausted | Emergency12Exhausted | DeadManFired | HeartbeatMissing.

Inductive ThresholdIdentityError :=
| DkgAborted (what : string)
| InvalidShare (participant : Z)
| SignFailed (what : string)
| PolicyReject (reason : PolicyRejection)
| WrongPin
| AccountDeleted
| TimeLockNotElapsed (remaining_secs : Z)
| RecoveryCancelled
| OfflineTicketExpired
| PinKdfFailure (what : string)
| Frost (what : string)
| Io (what : string).

Definition OFFLINE_TICKET_VALIDITY_SECS : Z := 24 * 60 * 60.
Definition RECOVERY_TIME_LOCK_SECS : Z := 24 * 60 * 60.
Definition RECOVERY_TIME_LOCK_ACCELERATED_SECS : Z := 60 * 60.
Definition WRONG_PIN_LIMIT : Z := 3.
Definition WRONG_24WORD_LIMIT : Z := 3.
Definition WRONG_12WORD_LIMIT : Z := 5.

(** ** Time *)
Definition UNIX_EPOCH : Z := 0.
Definition NANOS : Z := 1000000000.
Definition from_secs (s : Z) : Z := s * NANOS.

(** [now.duration_since(earlier).ok()] *)
Definition duration_since (now earlier : Z) : option Z :=
  if earlier <=? now then Some (now - earlier) else None.
Definition as_secs (d : Z) : Z := d / NANOS.

(** ** Attempt counter *)
Inductive EscalationLevel := Pin | Recovery24 | Emergency12 | Deleted.
#[global] Instance EscalationLevel_eq_dec : EqDecision EscalationLevel.
Proof. solve_decision. Defined.

Record AttemptCounter := { level : EscalationLevel; wrong_at_level : Z }.

Definition counter_default : AttemptCounter := {| level := Pin; wrong_at_level := 0 |}.

Definition reset_to_pin (c : AttemptCounter) : AttemptCounter := {| level := Pin; wrong_at_level := 0 |}.

Definition level_limit (l : EscalationLevel) : option Z :=
  match l with
  | Pin => Some WRONG_PIN_LIMIT
  | Recovery24 => Some WRONG_24WORD_LIMIT
  | Emergency12 => Some WRONG_12WORD_LIMIT
  | Deleted => None
  end.

Definition next_level (l : EscalationLevel) : EscalationLevel :=
  match l with
  | Pin => Recovery24
  | Recovery24 => Emergency12
  | Emergency12 => Deleted
  | Deleted => Deleted
  end.

Definition sat_add_u8 (a b : Z) : Z := Z.min (a + b) U8_MAX.

Definition record_wrong : st AttemptCounter ThresholdIdentityError EscalationLevel :=
  let! c := sget in
  let! limit := slift (ok_or (level_limit (level c)) AccountDeleted) in
  let wrong := sat_add_u8 (wrong_at_level c) 1 in
  if limit <=? wrong then
    let c' := {| level := next_level (level c); wrong_at_level := 0 |} in
    let! _ := sput c' in
    fail_if bool_decide (level c' = Deleted) with AccountDeleted ;;
    sret (level c')
  else
    let! _ := sput {| level := level c; wrong_at_level := wrong |} in
    sret (level c).

Definition check_can_attempt (expected : EscalationLevel) (c : AttemptCounter) : res ThresholdIdentityError unit :=
  reject bool_decide (level c = Deleted) with AccountDeleted ;;
  reject negb (bool_decide (level c = expected)) with
    PolicyReject match level c with
                 | Pin => PinAttemptsExhausted
                 | Recovery24 => PinAttemptsExhausted
                 | Emergency12 => Recovery24Exhausted
                 | Deleted => Emergency12Exhausted
                 end ;;
  Ok tt.

(** ** Time-locked recovery *)
Inductive RecoveryState :=
| Pending (unlock_at : Z) (push_sent : bool)
| Cancelled
| Completed.

Record RecoveryRequest := {
  rr_anonymous_id : list byte;
  rr_state : RecoveryState;
  accelerated : bool
}.

Definition initiate (anonymous_id : list byte) (now : Z) (old_pin_valid : bool) :
    res ThresholdIdentityError RecoveryRequest :=
  let delay := if old_pin_valid then RECOVERY_TIME_LOCK_ACCELERATED_SECS else RECOVERY_TIME_LOCK_SECS in
  let? d := ok_or (duration_since now UNIX_EPOCH) (Io "system clock before epoch") in
  let unlock_at := wrap64 (as_secs d + delay) in
  Ok {| rr_anonymous_id := anonymous_id; rr_state := Pending unlock_at false; accelerated := old_pin_valid |}.

Definition set_state (r : RecoveryRequest) (s : RecoveryState) : RecoveryRequest :=
  {| rr_anonymous_id := rr_anonymous_id r; rr_state := s; accelerated := accelerated r |}.

Definition mark_push_sent (r : RecoveryRequest) : RecoveryRequest :=
  match rr_state r with
  | Pending u _ => set_state r (Pending u true)
  | _ => r
  end.

Definition cancel : st RecoveryRequest ThresholdIdentityError unit :=
  let! r := sget in
  match rr_state r with
  | Pending _ _ => sput (set_state r Cancelled)
  | Cancelled => slift (Err RecoveryCancelled)
  | Completed => slift (Err (PolicyReject HeartbeatMissing))
  end.

Definition try_complete (now : Z) : st RecoveryRequest ThresholdIdentityError unit :=
  let! r := sget in
  match rr_state r with
  | Pending unlock_at _ =>
      let! d := slift (ok_or (duration_since now UNIX_EPOCH) (Io "system clock")) in
      let now_secs := as_secs d in
      fail_if now_secs <? unlock_at with TimeLockNotElapsed (unlock_at - now_secs) ;;
      sput (set_state r Completed)
  | Cancelled => slift (Err RecoveryCancelled)
  | Completed => sret tt
  end.

Definition remaining_secs (r : RecoveryRequest) (now : Z) : option Z :=
  match rr_state r with
  | Pending unlock_at _ =>
      match duration_since now UNIX_EPOCH with
      | Some d => Some (Z.max 0 (unlock_at - as_secs d))
      | None => None
      end
  | _ => None
  end.

(** ** Dead-man switch *)
Record DeadManState := { enabled : bool; grace : Z; last_heartbeat : Z }.

Definition dead_man_new (grace now : Z) : DeadManState :=
  {| enabled := false; grace := grace; last_heartbeat := now |}.
Definition enable (now : Z) (d : DeadManState) : DeadManState :=
  {| enabled := true; grace := grace d; last_heartbeat := now |}.
Definition disable (d : DeadManState) : DeadManState :=
  {| enabled := false; grace := grace d; last_heartbeat := last_heartbeat d |}.
Definition dead_man_heartbeat (now : Z) (d : DeadManState) : DeadManState :=
  {| enabled := enabled d; grace := grace d; last_heartbeat := now |}.
Definition has_fired (d : DeadManState) (now : Z) : bool :=
  if negb (enabled d) then false
  else match duration_since now (last_heartbeat d) with
       | Some elapsed => grace d <? elapsed
       | None => false
       end.

(** ** Offline tickets *)
Record OfflineTicket := {
  tk_anonymous_id : list byte;
  device_handle : list byte;
  expires_at : Z
}.

Definition issue (anonymous_id handle : list byte) (now : Z) : res ThresholdIdentityError OfflineTicket :=
  let? d := ok_or (duration_since now UNIX_EPOCH) (Io "clock pre-epoch") in
  Ok {| tk_anonymous_id := anonymous_id; device_handle := handle;
        expires_at := wrap64 (as_secs d + OFFLINE_TICKET_VALIDITY_SECS) |}.

Definition is_expired (t : OfflineTicket) (now : Z) : bool :=
  match duration_since now UNIX_EPOCH with
  | Some d => expires_at t <=? as_secs d
  | None => false
  end.

Definition ticket_remaining_secs (t : OfflineTicket) (now : Z) : option Z :=
  match duration_since now UNIX_EPOCH with
  | Some d => Some (Z.max 0 (expires_at t - as_secs d))
  | None => None
  end.

Definition to_signing_bytes (t : OfflineTicket) : list byte :=
  tk_anonymous_id t ++ device_handle t ++ to_be 8 (expires_at t).

Definition check_alive (t : OfflineTicket) (now : Z) : res ThresholdIdentityError unit :=
  if is_expired t now then Err OfflineTicketExpired else Ok tt.

(** ** Duress PIN *)

(** The loop [for (i, &b) in pin.iter().rev().enumerate() { reversed[i] = b }]. *)
Definition write_reversed (genuine_pin : list byte) : list byte :=
  (foldl (fun '(i, out) b => (S i, <[i := b]> out))
     (0%nat, replicate (length genuine_pin) Byte.x00) (reverse genuine_pin)).2.

Definition is_duress_reverse (candidate genuine_pin : list byte) : bool :=
  if negb (len candidate =? len genuine_pin) then false
  else if len candidate =? 0 then false
  else
    let reversed := write_reversed genuine_pin in
    if bool_decide (reversed = genuine_pin) then false
    else bool_decide (candidate = reversed).

(** ** Keys and identifiers *)
Definition OUTPUT_LEN : Z := 32.
Definition SALT_LEN : Z := 16.
Definition ANON_ID_LABEL : list byte := bytes_of_string "umbrella-r6/anon-id/v1".
Definition ANON_ID_LEN : Z := 32.
Definition KEY_LEN : Z := 32.
Definition DEVICE_KEY_LABEL : list byte := bytes_of_string "umbrella-r6/device-key/v1".
Definition MASTER_KEY_LABEL : list byte := bytes_of_string "umbrella-r6/master-key/v1".

Record DerivationTranscript := { dt_account_id : list byte; dt_epoch : Z }.
Definition transcript_to_bytes (t : DerivationTranscript) : list byte :=
  dt_account_id t ++ to_be 8 (dt_epoch t).

Section WithCrypto.
Context `{PinCrypto}.

Definition derive_pin_root (pin salt : list byte) : res ThresholdIdentityError (list byte) :=
  reject len pin =? 0 with PinKdfFailure "empty PIN" ;;
  reject 256 <? len pin with PinKdfFailure "PIN too long" ;;
  reject negb argon2_params_ok with PinKdfFailure "argon2 params" ;;
  ok_or (argon2id pin salt) (PinKdfFailure "argon2 hashing failed").

Definition verify_pin (candidate salt stored_hash : list byte) : res ThresholdIdentityError bool :=
  let? derived := derive_pin_root candidate salt in
  Ok (bool_decide (derived = stored_hash)).

(** The info string of [derive_anonymous_id]. *)
Definition anon_info (server_id : Z) : list byte := to_be 2 server_id ++ ANON_ID_LABEL.

Definition derive_anonymous_id (master_key : list byte) (server_id : Z) : res ThresholdIdentityError (list byte) :=
  reject server_id =? 0 with Io "server_id must be 1-indexed" ;;
  ok_or (hkdf_sha256 None master_key (anon_info server_id) ANON_ID_LEN) (PinKdfFailure "HKDF expand anon-id").

(** Filling the array of five identifiers in order. *)
Fixpoint derive_ids (master_key : list byte) (server_ids : list Z) : res ThresholdIdentityError (list (list byte)) :=
  match server_ids with
  | [] => Ok []
  | s :: rest =>
      let? id := derive_anonymous_id master_key s in
      let? ids := derive_ids master_key rest in
      Ok (id :: ids)
  end.
Definition derive_all_anonymous_ids (master_key : list byte) : res ThresholdIdentityError (list (list byte)) :=
  derive_ids master_key [1; 2; 3; 4; 5].

Definition derive_device_key (pin_root server_share device_random : list byte) (t : DerivationTranscript) :
    res ThresholdIdentityError (list byte) :=
  let ikm := pin_root ++ server_share ++ device_random in
  let salt := transcript_to_bytes t in
  ok_or (hkdf_sha256 (Some salt) ikm DEVICE_KEY_LABEL KEY_LEN) (PinKdfFailure "HKDF expand").

Definition derive_master_key (pin_root server_share account_local_salt : list byte) (t : DerivationTranscript) :
    res ThresholdIdentityError (list byte) :=
  let ikm := pin_root ++ server_share in
  let salt := transcript_to_bytes t ++ account_local_salt in
  ok_or (hkdf_sha256 (Some salt) ikm MASTER_KEY_LABEL KEY_LEN) (PinKdfFailure "HKDF expand").

(** HKDF never fails on these labels and lengths. *)
Context {HL : HkdfLaws}.
Lemma session_keys_total pin_root share device_random salt t :
  exists dk mk, derive_device_key pin_root share device_random t = Ok dk /\ len dk = KEY_LEN /\
    derive_master_key pin_root share salt t = Ok mk /\ len mk = KEY_LEN.
Proof.
  unfold derive_device_key, derive_master_key.
  destruct (hkdf_total (Some (transcript_to_bytes t)) (pin_root ++ share ++ device_random) DEVICE_KEY_LABEL KEY_LEN) as (dk & -> & Hd);
    [unfold KEY_LEN; lia|].
  destruct (hkdf_total (Some (transcript_to_bytes t ++ salt)) (pin_root ++ share) MASTER_KEY_LABEL KEY_LEN) as (mk & -> & Hm);
    [unfold KEY_LEN; lia|]. by exists dk, mk.
Qed.
Lemma derive_ids_total mk sids : Forall (fun i => i <> 0) sids -> exists ids, derive_ids mk sids = Ok ids /\ len ids = len sids.
Proof.
  induction 1 as [|i sids Hi _ (ids & IH & Hl)]; [by exists []|]. cbn [derive_ids]. unfold derive_anonymous_id, rguard.
  rewrite (proj2 (Z.eqb_neq _ _)) by done. destruct (hkdf_total None mk (anon_info i) ANON_ID_LEN) as (x & -> & _); [unfold ANON_ID_LEN; lia|].
  rewrite IH. exists (x :: ids). by rewrite !len_cons, Hl.
Qed.
Lemma derive_all_total mk : exists ids, derive_all_anonymous_ids mk = Ok ids /\ len ids = 5.
Proof. destruct (derive_ids_total mk [1; 2; 3; 4; 5]) as (ids & H1 & H2); [by repeat constructor|]. by exists ids. Qed.

End WithCrypto.

(** ** Accounts *)
Record AccountOptions := {
  otp_secret : option (list byte);
  phone_e164 : option (list byte);
  push_endpoint : option (list byte)
}.

Record AccountState := {
  anonymous_id : list byte;
  pin_hash : list byte;
  pin_salt : list byte;
  encrypted_share : list byte;
  counter : AttemptCounter;
  recovery : option RecoveryRequest;
  dead_man : DeadManState;
  options : AccountOptions;
  revoked : bool
}.

Definition with_counter (c : AttemptCounter) (a : AccountState) : AccountState :=
  {| anonymous_id := anonymous_id a; pin_hash := pin_hash a; pin_salt := pin_salt a;
     encrypted_share := encrypted_share a; counter := c; recovery := recovery a;
     dead_man := dead_man a; options := options a; revoked := revoked a |}.
Definition with_dead_man (d : DeadManState) (a : AccountState) : AccountState :=
  {| anonymous_id := anonymous_id a; pin_hash := pin_hash a; pin_salt := pin_salt a;
     encrypted_share := encrypted_share a; counter := counter a; recovery := recovery a;
     dead_man := d; options := options a; revoked := revoked a |}.

(** A method of the counter run on the account's field. *)
Definition on_counter {A} (m : st AttemptCounter ThresholdIdentityError A) : st AccountState ThresholdIdentityError A :=
  fun a => let '(r, c) := m (counter a) in (r, with_counter c a).

Section Accounts.
Context `{PinCrypto}.

Definition account_new (anonymous_id pin pin_salt encrypted_share : list byte) (options : AccountOptions) (now : Z) :
    res ThresholdIdentityError AccountState :=
  let? derived := derive_pin_root pin pin_salt in
  Ok {| anonymous_id := anonymous_id; pin_hash := derived; pin_salt := pin_salt;
        encrypted_share := encrypted_share; counter := counter_default; recovery := None;
        dead_man := dead_man_new (from_secs (30 * 86400)) now; options := options; revoked := false |}.

Definition try_pin (candidate : list byte) : st AccountState ThresholdIdentityError unit :=
  let! a := sget in
  fail_if revoked a with AccountDeleted ;;
  let! _ := slift (check_can_attempt Pin (counter a)) in
  let! ok := slift (verify_pin candidate (pin_salt a) (pin_hash a)) in
  if ok then sput (with_counter (reset_to_pin (counter a)) a)
  else
    let! _ := on_counter record_wrong in
    slift (Err WrongPin).

Definition unrecoverable_delete (a : AccountState) : AccountState :=
  {| anonymous_id := anonymous_id a; pin_hash := replicate 32 Byte.x00; pin_salt := pin_salt a;
     encrypted_share := []; counter := {| level := Deleted; wrong_at_level := 0 |}; recovery := None;
     dead_man := dead_man a; options := options a; revoked := true |}.

Definition record_heartbeat (now : Z) (a : AccountState) : AccountState :=
  with_dead_man (dead_man_heartbeat now (dead_man a)) a.

Definition poll_dead_man (now : Z) (a : AccountState) : AccountState :=
  if has_fired (dead_man a) now && negb (revoked a) then unrecoverable_delete a else a.

End Accounts.

(** ** Attempt counter: lemmas *)

(** The level after [n] wrong attempts in a row on a fresh account. *)
Definition escalation (n : Z) : AttemptCounter :=
  if n <? 3 then {| level := Pin; wrong_at_level := n |}
  else if n <? 6 then {| level := Recovery24; wrong_at_level := n - 3 |}
  else if n <? 11 then {| level := Emergency12; wrong_at_level := n - 6 |}
  else {| level := Deleted; wrong_at_level := 0 |}.

Lemma record_wrong_escalates n :
  0 <= n -> (record_wrong (escalation n)).2 = escalation (Z.min 11 (n + 1)).
Proof.
  intros Hn. assert (n < 11 \/ 11 <= n) as [Hlt|Hge] by lia.
  - assert (Hc : n ∈ seqZ 0 11) by (apply elem_of_seqZ; lia). revert Hc.
    apply (Forall_forall (fun n => (record_wrong (escalation n)).2 = escalation (Z.min 11 (n + 1))) (seqZ 0 11)).
    repeat constructor.
  - rewrite Z.min_l by lia. unfold escalation. rewrite !(proj2 (Z.ltb_ge _ _)) by lia. reflexivity.
Qed.

(** Eleven wrong attempts in a row, no fewer, delete the account. *)
Lemma escalation_exact (n : nat) :
  Nat.iter n (fun c => (record_wrong c).2) counter_default = escalation (Z.min 11 (Z.of_nat n)).
Proof.
  induction n as [|n IH]; [done|]. rewrite Nat.iter_succ, IH, record_wrong_escalates by lia. f_equal. lia.
Qed.

(** ** Recovery: runs *)
Inductive rec_op := RPush | RCancel | RComplete (now : Z).

Definition rec_apply (o : rec_op) (r : RecoveryRequest) : RecoveryRequest :=
  match o with
  | RPush => mark_push_sent r
  | RCancel => (cancel r).2
  | RComplete now => (try_complete now r).2
  end.
Definition rec_run (os : list rec_op) (r : RecoveryRequest) : RecoveryRequest :=
  foldl (fun r o => rec_apply o r) r os.

(** The events that decide a recovery that unlocks at [u]. *)
Definition decisive (u : Z) (o : rec_op) : bool :=
  match o with
  | RPush => false
  | RCancel => true
  | RComplete now => (0 <=? now) && (u <=? as_secs now)
  end.
Definition is_push (o : rec_op) : bool := match o with RPush => true | _ => false end.

Definition rec_outcome (u : Z) (pushed : bool) (os : list rec_op) : RecoveryState :=
  match List.find (decisive u) os with
  | None => Pending u (pushed || existsb is_push os)
  | Some (RComplete _) => Completed
  | Some _ => Cancelled
  end.

Lemma rec_apply_final o r :
  rr_state r = Cancelled \/ rr_state r = Completed -> rec_apply o r = r.
Proof.
  destruct r as [i s acc]. intros [Hs|Hs]; simpl in Hs; subst s; by destruct o.
Qed.

Lemma rec_run_final os r :
  rr_state r = Cancelled \/ rr_state r = Completed -> rec_run os r = r.
Proof.
  unfold rec_run. revert r. induction os as [|o os IH]; intros r Hr; [done|]. simpl.
  rewrite rec_apply_final by done. by apply IH.
Qed.

Lemma rec_run_outcome os i acc u pushed :
  rr_state (rec_run os {| rr_anonymous_id := i; rr_state := Pending u pushed; accelerated := acc |})
    = rec_outcome u pushed os.
Proof.
  revert pushed. induction os as [|o os IH]; intros pushed.
  { unfold rec_outcome. simpl. by rewrite orb_false_r. }
  change (rec_run (o :: os) ?r) with (rec_run os (rec_apply o r)).
  unfold rec_outcome. cbn [List.find existsb].
  destruct o as [| |now]; cbn [decisive is_push].
  - unfold rec_apply, mark_push_sent, set_state. cbn [rr_state rr_anonymous_id accelerated]. rewrite IH. unfold rec_outcome.
    destruct (List.find _ os); [done|]. by rewrite orb_true_r.
  - cbn [rec_apply]. rewrite rec_run_final by (left; reflexivity). reflexivity.
  - unfold rec_apply, try_complete, sbind, sget, slift, sguard, duration_since, UNIX_EPOCH.
    cbn [rr_state]. destruct (0 <=? now); cbn [andb ok_or]; [|by rewrite orb_false_l; apply IH].
    rewrite Z.sub_0_r, Z.leb_antisym. destruct (as_secs now <? u); cbn [negb]; [by rewrite orb_false_l; apply IH|].
    by rewrite rec_run_final by (right; reflexivity).
Qed.

Lemma rec_outcome_completed u pushed os :
  rec_outcome u pushed os = Completed <->
  exists pre t post, os = pre ++ RComplete t :: post /\ decisive u (RComplete t) = true /\ ~ RCancel ∈ pre.
Proof.
  unfold rec_outcome. split.
  - induction os as [|o os IH]; [done|]. cbn [List.find existsb].
    destruct (decisive u o) eqn:Ho.
    + destruct o as [| |t]; try done. intros _. exists [], t, os. split_and!; [done|done|set_solver].
    + intros Hc. destruct IH as (pre & t & post & -> & Ht & Hpre); [by destruct (List.find _ os)|].
      exists (o :: pre), t, post. split_and!; [done|done|].
      intros [<- |Hin]%elem_of_cons; [done|by apply Hpre].
  - intros (pre & t & post & -> & Ht & Hpre). rewrite find_app.
    destruct (List.find (decisive u) pre) as [o|] eqn:Ho; [|cbn [List.find]; by rewrite Ht].
    apply find_some in Ho as [Hin Ho]. destruct o; [done| |done].
    by apply list_elem_of_In in Hin.
Qed.

Lemma initiate_Ok id now old r :
  initiate id now old = Ok r -> as_secs now + RECOVERY_TIME_LOCK_SECS <= U64_MAX ->
  r = {| rr_anonymous_id := id; rr_state := Pending (as_secs now + if old then 3600 else 86400) false; accelerated := old |}.
Proof.
  unfold initiate, duration_since, UNIX_EPOCH. destruct (0 <=? now) eqn:Hn; [|done]. zbool.
  cbn [ok_or rbind]. intros Hr%Ok_inj Hb. subst r.
  assert (0 <= as_secs now) by (apply Z.div_pos; [done|unfold NANOS; lia]).
  rewrite Z.sub_0_r, wrap64_id; [by destruct old|].
  unfold is_u64, RECOVERY_TIME_LOCK_SECS, RECOVERY_TIME_LOCK_ACCELERATED_SECS in *. destruct old; lia.
Qed.

(** ** PIN entry *)
Section PinEntry.
Context `{PinCrypto}.

Definition pin_verdict (c : list byte) (a : AccountState) : res ThresholdIdentityError bool :=
  verify_pin c (pin_salt a) (pin_hash a).
Definition is_wrong (a : AccountState) (c : list byte) : bool :=
  match pin_verdict c a with Ok false => true | _ => false end.

Lemma with_counter_id a : with_counter (counter a) a = a.
Proof. by destruct a. Qed.

Lemma try_pin_revoked c a : revoked a = true -> try_pin c a = (Err AccountDeleted, a).
Proof. intros Hr. unfold try_pin, sbind, sget, sguard. by rewrite Hr. Qed.

Lemma try_pin_locked c a :
  revoked a = false -> level (counter a) = Recovery24 ->
  try_pin c a = (Err (PolicyReject PinAttemptsExhausted), a).
Proof.
  intros Hr Hl. unfold try_pin, sbind, sget, sguard, check_can_attempt, slift. rewrite Hr, Hl. reflexivity.
Qed.

Lemma try_pin_active c a w :
  revoked a = false -> 0 <= w < 3 -> counter a = escalation w ->
  try_pin c a = match pin_verdict c a with
                | Ok true => (Ok tt, with_counter counter_default a)
                | Ok false => (Err WrongPin, with_counter (escalation (w + 1)) a)
                | Err e => (Err e, a)
                | Panic => (Panic, a)
                end.
Proof.
  intros Hr Hw Hc. unfold try_pin, sbind, sget, sguard, slift, pin_verdict. rewrite Hr.
  assert (Hl : level (counter a) = Pin).
  { rewrite Hc. unfold escalation. by rewrite (proj2 (Z.ltb_lt _ _)) by lia. }
  assert (Hk : check_can_attempt Pin (counter a) = Ok tt) by (unfold check_can_attempt; by rewrite Hl).
  rewrite Hk.
  destruct (verify_pin c (pin_salt a) (pin_hash a)) as [[]| |]; [done| |done|done].
  unfold on_counter. rewrite Hc.
  assert (Hs : (record_wrong (escalation w)).2 = escalation (w + 1)) by (rewrite record_wrong_escalates; [f_equal; lia|lia]).
  assert (He : exists l, (record_wrong (escalation w)).1 = Ok l).
  { assert (w = 0 \/ w = 1 \/ w = 2) as [-> |[-> | ->]] by lia; by eexists. }
  destruct (record_wrong (escalation w)) as [r c'], He as [l He]. simpl in Hs, He. by subst.
Qed.

(** Entering candidates one after the other: the number answered [WrongPin], and the account. *)
Fixpoint guess (cs : list (list byte)) (a : AccountState) : Z * AccountState :=
  match cs with
  | [] => (0, a)
  | c :: cs =>
      let '(r, a') := try_pin c a in
      let '(n, a'') := guess cs a' in
      (match r with Err WrongPin => 1 + n | _ => n end, a'')
  end.

Lemma pin_verdict_error c a e : pin_verdict c a = Err e -> e <> WrongPin.
Proof. intros Hv ->. revert Hv. unfold pin_verdict, verify_pin, derive_pin_root, rguard, ok_or. repeat case_match; done. Qed.

Lemma guess_bound cs a w :
  revoked a = false -> 0 <= w <= 3 -> counter a = escalation w ->
  Forall (fun c => pin_verdict c a <> Ok true) cs ->
  guess cs a = (Z.min (3 - w) (len (List.filter (is_wrong a) cs)),
                with_counter (escalation (w + Z.min (3 - w) (len (List.filter (is_wrong a) cs)))) a).
Proof.
  revert a w. induction cs as [|c cs IH]; intros a w Hr Hw Hc Hno.
  { cbn [guess List.filter]. change (len (@nil (list byte))) with 0. rewrite Z.min_r by lia. by rewrite Z.add_0_r, <- Hc, with_counter_id. }
  apply Forall_cons in Hno as [Hn Hno]. cbn [guess List.filter].
  pose proof (len_nonneg (List.filter (is_wrong a) cs)) as Hpos.
  destruct (decide (w = 3)) as [-> |Hw3].
  { rewrite try_pin_locked by (done || by rewrite Hc). rewrite (IH a 3) by (done || lia).
    destruct (is_wrong a c); rewrite ?len_cons, !Z.min_l by lia; done. }
  rewrite (try_pin_active c a w) by (done || lia). 
  change (is_wrong a c) with (match pin_verdict c a with Ok false => true | _ => false end).
  destruct (pin_verdict c a) as [[]|e|] eqn:Hv.
  - done.
  - rewrite (IH (with_counter (escalation (w + 1)) a) (w + 1)) by (done || lia).
    change (is_wrong (with_counter (escalation (w + 1)) a)) with (is_wrong a).
    rewrite len_cons. cbn [with_counter]. change (with_counter ?x (with_counter ?y a)) with (with_counter x a).
    f_equal; [lia|]. do 2 f_equal. lia.
  - rewrite (IH a w) by (done || lia).
    pose proof (pin_verdict_error _ _ _ Hv). by destruct e.
  - by rewrite (IH a w) by (done || lia).
Qed.

(** How many wrong PINs in a row, since the last right one, the account has checked, never more
    than three: a fourth is not checked, and from then on the right one is not either. *)
Fixpoint streak (a : AccountState) (w : Z) (cs : list (list byte)) : Z :=
  match cs with
  | [] => w
  | c :: cs =>
      streak a (if w =? 3 then w
                else match pin_verdict c a with Ok true => 0 | Ok false => w + 1 | _ => w end) cs
  end.
Definition is_right (a : AccountState) (c : list byte) : bool := match pin_verdict c a with Ok true => true | _ => false end.

(** Somewhere among the entries three wrong PINs follow one another with no right one between. *)
Definition three_in_a_row (a : AccountState) (cs : list (list byte)) : Prop :=
  exists pre mid post, cs = pre ++ mid ++ post /\ Forall (fun c => pin_verdict c a <> Ok true) mid /\
    3 <= len (List.filter (is_wrong a) mid).

Lemma streak_range a cs w : 0 <= w <= 3 -> 0 <= streak a w cs <= 3.
Proof.
  revert w. induction cs as [|c cs IH]; intros w Hw; [done|]. cbn [streak]. apply IH.
  destruct (Z.eqb_spec w 3); [done|]. destruct (pin_verdict c a) as [[]| |]; lia.
Qed.

Lemma streak_app a cs ds w : streak a w (cs ++ ds) = streak a (streak a w cs) ds.
Proof. revert w. induction cs as [|c cs IH]; intros w; [done|]. apply IH. Qed.

Lemma streak_counter k a w cs : streak (with_counter k a) w cs = streak a w cs.
Proof. revert w. induction cs as [|c cs IH]; intros w; [done|]. cbn [streak]. rewrite IH. done. Qed.

Lemma streak_locked a cs : streak a 3 cs = 3.
Proof. by induction cs. Qed.

Lemma streak_wrong a cs w :
  0 <= w <= 3 -> Forall (fun c => pin_verdict c a <> Ok true) cs ->
  streak a w cs = Z.min 3 (w + len (List.filter (is_wrong a) cs)).
Proof.
  revert w. induction cs as [|c cs IH]; intros w Hw Hno.
  { cbn [streak List.filter]. change (len (@nil (list byte))) with 0. lia. }
  apply Forall_cons in Hno as [Hn Hno]. cbn [streak List.filter].
  pose proof (len_nonneg (List.filter (is_wrong a) cs)).
  change (is_wrong a c) with (match pin_verdict c a with Ok false => true | _ => false end).
  destruct (Z.eqb_spec w 3) as [->|H3].
  - rewrite streak_locked. destruct (pin_verdict c a) as [[]| |]; rewrite ?len_cons; lia.
  - destruct (pin_verdict c a) as [[]| |]; [done|..]; rewrite IH by (done || lia); rewrite ?len_cons; lia.
Qed.

Lemma streak_three a cs : streak a 0 cs = 3 <-> three_in_a_row a cs.
Proof.
  split.
  - enough (Hg : (exists pre mid, cs = pre ++ mid /\ Forall (fun c => pin_verdict c a <> Ok true) mid /\
                    streak a 0 cs <= len (List.filter (is_wrong a) mid)) \/ three_in_a_row a cs).
    { intros H3. destruct Hg as [(pre & mid & -> & Hn & Hl)|]; [|done]. exists pre, mid, []. rewrite app_nil_r.
      split_and!; [done..|lia]. }
    induction cs as [|c cs IH] using rev_ind; [left; by exists [], []|].
    rewrite streak_app. cbn [streak].
    destruct IH as [(pre & mid & -> & Hn & Hl)|(pre & mid & post & -> & Hn & Hl)].
    2:{ right. exists pre, mid, (post ++ [c]). by rewrite <- !app_assoc. }
    destruct (Z.eqb_spec (streak a 0 (pre ++ mid)) 3) as [H3|H3].
    { right. exists pre, mid, [c]. rewrite app_assoc. split_and!; [done..|lia]. }
    left. destruct (pin_verdict c a) as [[]|e|] eqn:Hv.
    1: { exists (pre ++ mid ++ [c]), []. rewrite app_nil_r, app_assoc. done. }
    all: exists pre, (mid ++ [c]); rewrite app_assoc; split; [done|]; (split; [apply Forall_app; split; [done|repeat constructor; by rewrite Hv]|]);
      rewrite List.filter_app, len_app; cbn [List.filter];
      change (is_wrong a c) with (match pin_verdict c a with Ok false => true | _ => false end); rewrite Hv; unfold len; cbn [length]; unfold len in *; lia.
  - intros (pre & mid & post & -> & Hn & Hl). rewrite !streak_app.
    pose proof (streak_range a pre 0 ltac:(lia)). rewrite (streak_wrong a mid) by done. rewrite Z.min_l by lia. apply streak_locked.
Qed.

(** The counter of the account is the streak; every right PIN buys at most two more guesses. *)
Lemma guess_streak cs a w :
  revoked a = false -> 0 <= w <= 3 -> counter a = escalation w ->
  (guess cs a).2 = with_counter (escalation (streak a w cs)) a /\
  (guess cs a).1 <= 3 - w + 2 * len (List.filter (is_right a) cs).
Proof.
  revert a w. induction cs as [|c cs IH]; intros a w Hr Hw Hc.
  { cbn [guess streak List.filter fst snd]. change (len (@nil (list byte))) with 0. split; [by rewrite <- Hc, with_counter_id|lia]. }
  cbn [guess List.filter streak].
  change (is_right a c) with (match pin_verdict c a with Ok true => true | _ => false end).
  pose proof (len_nonneg (List.filter (is_right a) cs)) as Hpos.
  destruct (Z.eqb_spec w 3) as [->|Hw3].
  { rewrite try_pin_locked by (done || by rewrite Hc). destruct (IH a 3 Hr Hw Hc) as [H1 H2].
    destruct (guess cs a) as [n a']. cbn [fst snd] in *. split; [done|]. destruct (pin_verdict c a) as [[]| |]; rewrite ?len_cons; lia. }
  rewrite (try_pin_active c a w) by (done || lia).
  destruct (pin_verdict c a) as [[]|e|] eqn:Hv.
  - destruct (IH (with_counter counter_default a) 0 Hr ltac:(lia) eq_refl) as [H1 H2].
    change (is_right (with_counter counter_default a)) with (is_right a) in H2.
    rewrite streak_counter in H1.
    destruct (guess cs _) as [n a']. cbn [fst snd] in *. rewrite len_cons. split; [done|lia].
  - destruct (IH (with_counter (escalation (w + 1)) a) (w + 1) Hr ltac:(lia) eq_refl) as [H1 H2].
    change (is_right (with_counter (escalation (w + 1)) a)) with (is_right a) in H2.
    rewrite streak_counter in H1.
    destruct (guess cs _) as [n a']. cbn [fst snd] in *. split; [done|lia].
  - destruct (IH a w Hr Hw Hc) as [H1 H2]. destruct (guess cs a) as [n a']. cbn [fst snd] in *.
    pose proof (pin_verdict_error _ _ _ Hv). split; [done|]. by destruct e.
  - destruct (IH a w Hr Hw Hc) as [H1 H2]. destruct (guess cs a) as [n a']. by cbn [fst snd] in *.
Qed.

End PinEntry.

(** ** Account runs *)
Section Runs.
Context `{PinCrypto}.

Inductive acc_op :=
| OpPin (candidate : list byte)
| OpDelete
| OpHeartbeat (now : Z)
| OpPoll (now : Z)
| OpEnable (now : Z)
| OpDisable.

Definition acc_apply (o : acc_op) (a : AccountState) : AccountState :=
  match o with
  | OpPin c => (try_pin c a).2
  | OpDelete => unrecoverable_delete a
  | OpHeartbeat now => record_heartbeat now a
  | OpPoll now => poll_dead_man now a
  | OpEnable now => with_dead_man (enable now (dead_man a)) a
  | OpDisable => with_dead_man (disable (dead_man a)) a
  end.
Definition acc_run (os : list acc_op) (a : AccountState) : AccountState :=
  foldl (fun a o => acc_apply o a) a os.

(** The operations that may wipe an account. *)
Definition wipes (a : AccountState) (o : acc_op) : bool :=
  match o with
  | OpDelete => true
  | OpPoll now => has_fired (dead_man a) now
  | _ => false
  end.

(** Everything secret is gone. *)
Definition wiped (a : AccountState) : Prop :=
  revoked a = true /\ encrypted_share a = [] /\ pin_hash a = replicate 32 Byte.x00 /\
  level (counter a) = Deleted /\ recovery a = None.

(** The account holds what was registered, and its counter is within the PIN limits. *)
Definition intact (a0 a : AccountState) : Prop :=
  revoked a = false /\ encrypted_share a = encrypted_share a0 /\ pin_hash a = pin_hash a0 /\
  pin_salt a = pin_salt a0 /\ exists w, 0 <= w <= 3 /\ counter a = escalation w.

Lemma wiped_step o a : wiped a -> wiped (acc_apply o a).
Proof.
  intros Hw. pose proof Hw as (Hr & _). destruct o; cbn [acc_apply].
  - by rewrite try_pin_revoked.
  - by repeat split.
  - exact Hw.
  - unfold poll_dead_man. rewrite Hr, andb_false_r. exact Hw.
  - exact Hw.
  - exact Hw.
Qed.

Lemma intact_step a0 o a :
  intact a0 a -> if wipes a o then wiped (acc_apply o a) else intact a0 (acc_apply o a).
Proof.
  intros Hi. pose proof Hi as (Hr & Hs & Hh & Hsalt & w & Hw & Hc). destruct o; cbn [acc_apply wipes]; try exact Hi.
  - destruct (decide (w = 3)) as [-> |Hw3].
    { rewrite try_pin_locked by (done || by rewrite Hc). exact Hi. }
    rewrite (try_pin_active candidate a w) by (done || lia).
    destruct (pin_verdict candidate a) as [[]| |]; try exact Hi; repeat (split; [done|]).
    + exists 0. split; [lia|done].
    + exists (w + 1). split; [lia|done].
  - by repeat split.
  - unfold poll_dead_man. rewrite Hr, andb_true_r. destruct (has_fired _ _); [by repeat split|exact Hi].
Qed.

Lemma wiped_run os a : wiped a -> wiped (acc_run os a).
Proof.
  unfold acc_run. revert a. induction os as [|o os IH]; intros a Hw; [done|]. by apply IH, wiped_step.
Qed.

Lemma intact_run a0 os a :
  intact a0 a ->
  intact a0 (acc_run os a) \/
  wiped (acc_run os a) /\ exists pre o post, os = pre ++ o :: post /\ wipes (acc_run pre a) o = true.
Proof.
  revert a. induction os as [|o os IH]; intros a Hi; [by left|].
  apply (intact_step a0 o a) in Hi. destruct (wipes a o) eqn:Ho.
  - right. split; [by apply (wiped_run os)|]. by exists [], o, os.
  - destruct (IH _ Hi) as [Hok|(Hw & pre & o' & post & -> & Hp)]; [by left|right].
    split; [done|]. by exists (o :: pre), o', post.
Qed.

Lemma account_new_intact id pin salt share opts now a :
  account_new id pin salt share opts now = Ok a -> intact a a.
Proof.
  unfold account_new. intros Hd. apply rbind_Ok in Hd as (d & _ & Hd). apply Ok_inj in Hd as <-.
  repeat (split; [done|]). exists 0. split; [lia|done].
Qed.

End Runs.

(** ** Duress and tickets *)
Lemma write_reversed_loop l i pre post :
  length pre = i -> length post = length l ->
  (foldl (fun '(i, out) (b : byte) => (S i, <[i := b]> out)) (i, pre ++ post) l).2 = pre ++ l.
Proof.
  revert i pre post. induction l as [|b l IH]; intros i pre post Hi Hp.
  - destruct post; [done|]. simpl in Hp. lia.
  - destruct post as [|p post]; [simpl in Hp; lia|]. cbn [foldl].
    rewrite insert_app_r_alt, <- Hi, Nat.sub_diag by lia. cbn [insert list_insert].
    rewrite (cons_middle b pre post), app_assoc, IH.
    + by rewrite <- app_assoc.
    + rewrite length_app. simpl. lia.
    + simpl in Hp. lia.
Qed.

Lemma write_reversed_spec g : write_reversed g = reverse g.
Proof.
  unfold write_reversed. apply (write_reversed_loop (reverse g) 0 []); [done|].
  by rewrite length_replicate, length_reverse.
Qed.

Lemma ticket_lifetime id h now t later :
  0 <= now -> as_secs now + OFFLINE_TICKET_VALIDITY_SECS <= U64_MAX -> issue id h now = Ok t ->
  check_alive t later = Ok tt <-> later < 0 \/ as_secs later < as_secs now + OFFLINE_TICKET_VALIDITY_SECS.
Proof.
  intros Hn Hb Hi. unfold issue, duration_since, UNIX_EPOCH in Hi.
  rewrite (proj2 (Z.leb_le 0 now)) in Hi by done. cbn [ok_or rbind] in Hi. apply Ok_inj in Hi as <-.
  assert (0 <= as_secs now) by (apply Z.div_pos; [done|unfold NANOS; lia]).
  unfold check_alive, is_expired, duration_since, UNIX_EPOCH. cbn [expires_at].
  rewrite wrap64_id by (unfold is_u64, OFFLINE_TICKET_VALIDITY_SECS in *; rewrite Z.sub_0_r; lia).
  rewrite Z.sub_0_r. destruct (0 <=? later) eqn:Hl; zbool; [|split; [by left|done]].
  rewrite Z.sub_0_r. destruct (_ <=? as_secs later) eqn:He; zbool; split; try done; lia.
Qed.

(** Different servers get different info strings. *)
Lemma anon_info_inj s1 s2 : is_u16 s1 -> is_u16 s2 -> anon_info s1 = anon_info s2 -> s1 = s2.
Proof.
  intros H1 H2 Heq. unfold anon_info in Heq. peel Heq E. apply (f_equal from_be) in E.
  by rewrite !from_be_to_be_u16 in E.
Qed.

(** ** Theorems *)

(** C5. PIN guessing is bounded: whatever PINs are entered on a fresh account, in any number
    and order, only its counter changes, and the next candidate is refused without being checked,
    be it the right PIN, exactly when somewhere before it three wrong PINs followed one another
    with no right one between (malformed entries neither count nor interrupt); otherwise it is
    checked and answered by its verdict.  So as long as the right PIN has not been entered
    exactly the first three wrong ones are answered [WrongPin], and in every run at most three
    and two more for each right PIN entered. *)
Theorem pin_lockout `{PinCrypto} (a : AccountState) (cs : list (list byte)) (c : list byte)
    (Hr : revoked a = false) (Hc : counter a = counter_default) :
  let a' := (guess cs a).2 in
  let wrong := len (List.filter (is_wrong a) cs) in
  (exists k, a' = with_counter k a) /\
  (three_in_a_row a cs -> try_pin c a' = (Err (PolicyReject PinAttemptsExhausted), a')) /\
  (~ three_in_a_row a cs -> (try_pin c a').1 = match pin_verdict c a with
                                               | Ok true => Ok tt | Ok false => Err WrongPin | Err e => Err e | Panic => Panic
                                               end) /\
  (Forall (fun c => pin_verdict c a <> Ok true) cs ->
     guess cs a = (Z.min 3 wrong, with_counter (escalation (Z.min 3 wrong)) a)) /\
  (guess cs a).1 <= 3 + 2 * len (List.filter (is_right a) cs).
Proof.
  intros a' wrong. destruct (guess_streak cs a 0 Hr ltac:(lia) Hc) as [Ha Hn]. fold a' in Ha.
  pose proof (streak_range a cs 0 ltac:(lia)) as Hw. split; [eauto|]. rewrite <- streak_three. split_and!.
  - intros H3. rewrite Ha, H3. by apply try_pin_locked.
  - intros H3. rewrite Ha, (try_pin_active c _ (streak a 0 cs)) by (done || lia).
    change (pin_verdict c (with_counter _ a)) with (pin_verdict c a). by destruct (pin_verdict c a) as [[]| |].
  - intros Hno. pose proof (guess_bound cs a 0 Hr ltac:(lia) Hc Hno) as Hg. by rewrite Z.sub_0_r, Z.add_0_l in Hg.
  - lia.
Qed.

(** Life of an account: after any sequence of PIN entries, heartbeats, dead-man polls,
    switch changes and deletions, the account still holds the registered share and PIN hash
    with its counter inside the PIN limits, or it has been wiped by a deletion or a poll that
    found the dead-man switch fired; and a wiped account stays wiped, with every PIN refused as
    deleted, whatever follows. *)
Theorem account_lifecycle `{PinCrypto} (id pin salt share : list byte) (opts : AccountOptions) (now : Z)
    (a : AccountState) (os more : list acc_op) (c : list byte)
    (Hnew : account_new id pin salt share opts now = Ok a) :
  (intact a (acc_run os a) \/
   wiped (acc_run os a) /\ exists pre o post, os = pre ++ o :: post /\ wipes (acc_run pre a) o = true) /\
  (wiped (acc_run os a) ->
     wiped (acc_run more (acc_run os a)) /\
     try_pin c (acc_run more (acc_run os a)) = (Err AccountDeleted, acc_run more (acc_run os a))).
Proof.
  split; [by apply intact_run; eapply account_new_intact|]. intros Hw. apply (wiped_run more) in Hw.
  split; [done|]. apply try_pin_revoked. apply Hw.
Qed.

(** Time-locked recovery: after it is initiated, the first decisive event settles it for
    good, in any sequence of push notifications, cancellations and completion attempts: a
    cancellation, or a completion attempt at or after the unlock time (24 hours, or one hour
    with the old PIN, after the start); everything earlier, and a clock before the epoch,
    leaves it pending, and nothing later changes the outcome. *)
Theorem recovery_time_lock (id : list byte) (now : Z) (old_pin_valid : bool) (os : list rec_op)
    (r : RecoveryRequest) (Hi : initiate id now old_pin_valid = Ok r)
    (Hb : as_secs now + RECOVERY_TIME_LOCK_SECS <= U64_MAX) :
  let unlock_at := as_secs now + (if old_pin_valid then 3600 else 86400) in
  rr_state (rec_run os r) = rec_outcome unlock_at false os /\
  (rr_state (rec_run os r) = Completed <->
     exists pre t post, os = pre ++ RComplete t :: post /\ 0 <= t /\ unlock_at <= as_secs t /\ ~ RCancel ∈ pre).
Proof.
  intros u. apply initiate_Ok in Hi as ->; [|done]. rewrite rec_run_outcome. split; [done|].
  rewrite rec_outcome_completed. cbn [decisive]. setoid_rewrite andb_true_iff.
  setoid_rewrite Z.leb_le. unfold u. naive_solver.
Qed.

(** Duress: a candidate triggers the wipe exactly when it is the PIN reversed and not the
    PIN itself; so the genuine PIN never does, nor any entry for a palindromic or empty PIN. *)
Theorem duress_exact (candidate genuine_pin : list byte) :
  is_duress_reverse candidate genuine_pin = true <->
  candidate = reverse genuine_pin /\ candidate <> genuine_pin.
Proof.
  unfold is_duress_reverse. rewrite write_reversed_spec. split.
  - destruct (negb _); [done|]. destruct (_ =? 0); [done|]. repeat case_bool_decide; naive_solver.
  - intros [-> Hne]. rewrite len_reverse, Z.eqb_refl. cbn [negb].
    destruct (len genuine_pin =? 0) eqn:H0; [zbool; apply len_zero_nil in H0; by subst|].
    rewrite bool_decide_false by done. by apply bool_decide_true.
Qed.

(** ** Witnesses *)
Definition toy_crypto : PinCrypto := {|
  argon2_params_ok := true;
  argon2id := fun pin salt => Some (take 32 (pin ++ replicate 32 Byte.x00));
  hkdf_sha256 := fun _ ikm info n => Some (take (Z.to_nat n) (info ++ ikm ++ replicate (Z.to_nat n) Byte.x00))
|}.

Lemma toy_hkdf_laws : @HkdfLaws toy_crypto.
Proof. split. intros salt ikm info n Hn. eexists. split; [reflexivity|]. unfold len. rewrite length_take, !length_app, length_replicate. lia. Qed.

Definition toy_options : AccountOptions := {| otp_secret := None; phone_e164 := None; push_endpoint := None |}.
Definition toy_account : AccountState :=
  {| anonymous_id := []; pin_hash := take 32 ([Byte.x31; Byte.x32] ++ replicate 32 Byte.x00); pin_salt := [];
     encrypted_share := [Byte.x07]; counter := counter_default; recovery := None;
     dead_man := dead_man_new (from_secs (30 * 86400)) 0; options := toy_options; revoked := false |}.

(** Two wrong PINs, the right one, and two more wrong ones with an empty entry between: the account
    still checks; after one more wrong PIN the right one is refused. *)
Definition toy_entries : list (list byte) :=
  [[Byte.x30]; [Byte.x32]; [Byte.x31; Byte.x32]; [Byte.x33]; []; [Byte.x34]].

Lemma pin_lockout_witness :
  (@try_pin toy_crypto [Byte.x31; Byte.x32] (@guess toy_crypto toy_entries toy_account).2).1 = Ok tt /\
  @try_pin toy_crypto [Byte.x31; Byte.x32] (@guess toy_crypto (toy_entries ++ [[Byte.x30]]) toy_account).2 =
    (Err (PolicyReject PinAttemptsExhausted), (@guess toy_crypto (toy_entries ++ [[Byte.x30]]) toy_account).2).
Proof.
  split.
  - destruct (@pin_lockout toy_crypto toy_account toy_entries [Byte.x31; Byte.x32] eq_refl eq_refl) as (_ & _ & Hok & _).
    apply Hok. rewrite <- streak_three. vm_compute. discriminate.
  - apply (@pin_lockout toy_crypto toy_account (toy_entries ++ [[Byte.x30]]) [Byte.x31; Byte.x32] eq_refl eq_refl).
    rewrite <- streak_three. vm_compute. reflexivity.
Defined.

Lemma account_lifecycle_witness :
  @wiped (@acc_run toy_crypto [OpPin [Byte.x31]; OpHeartbeat 9]
            (@acc_run toy_crypto [OpEnable 0; OpPoll (from_secs (31 * 86400))] toy_account)).
Proof.
  apply (@account_lifecycle toy_crypto [] [Byte.x31; Byte.x32] [] [Byte.x07] toy_options 0 toy_account
           [OpEnable 0; OpPoll (from_secs (31 * 86400))] [OpPin [Byte.x31]; OpHeartbeat 9] []).
  - vm_compute. reflexivity.
  - vm_compute. repeat split.
Defined.

Lemma recovery_time_lock_witness :
  rr_state (rec_run [RComplete (from_secs 86399); RPush; RComplete (from_secs 86400); RCancel]
    {| rr_anonymous_id := []; rr_state := Pending 86400 false; accelerated := false |}) = Completed.
Proof.
  apply (recovery_time_lock [] 0 false [RComplete (from_secs 86399); RPush; RComplete (from_secs 86400); RCancel]).
  - reflexivity.
  - vm_compute. discriminate.
  - exists [RComplete (from_secs 86399); RPush], (from_secs 86400), [RCancel].
    split_and!; [reflexivity|vm_compute; discriminate|vm_compute; discriminate|set_solver].
Defined.

(** A deleted counter is revived by [reset_to_pin], which has no guard of its own. *)
Example reset_revives_deleted :
  check_can_attempt Pin (reset_to_pin {| level := Deleted; wrong_at_level := 0 |}) = Ok tt.
Proof. reflexivity. Qed.

(** Registration accepts a palindromic PIN, for which the duress entry does not exist. *)
Example palindrome_registered :
  exists a, @account_new toy_crypto [] [Byte.x31; Byte.x31] [] [] toy_options 0 = Ok a /\
    is_duress_reverse [Byte.x31; Byte.x31] [Byte.x31; Byte.x31] = false.
Proof. by eexists. Qed.

End ThresholdIdentity.
