(* ===== verification/PlatformVerifier.v ===== *)
(** * Platform attestation verifiers ([crates/umbrella-platform-verifier/src/])

    The verifiers for Apple App Attest, Android Play Integrity and WebAuthn that the OPRF
    server and the backup server share.  The JSON and base64 decoders and SHA-256 are external
    crates: they are the class [WebCodec].  The last section holds the interface of the
    one-time nonce store both servers call, and what a server that calls it last obtains. *)
From S2P Require Import Prelude Bytes Crypto.
From stdpp Require Import pretty.
Local Open Scope string_scope.
Local Open Scope list_scope.
Local Open Scope Z_scope.

Module PlatformVerifier.

(** ** Errors ([error.rs]) *)
Inductive PlatformVerifierError :=
| EmptyToken
| TokenTooLarge (got max : Z)
| PlatformMismatch
| InvalidTokenShape
| ServerNonceMismatch
| AppOrSiteMismatch
| DeviceKeyMismatch
| SignatureFailed
| CounterDidNotIncrease
| ProofExpired
| IncompleteConfiguration (what : string)
| ExternalTrustMaterialRequired (what : string).
#[global] Instance PlatformVerifierError_eq_dec : EqDecision PlatformVerifierError.
Proof. solve_decision. Defined.

(** The [Display] implementation ([thiserror]). *)
Definition to_string (e : PlatformVerifierError) : string :=
  match e with
  | EmptyToken => "platform token is empty"
  | TokenTooLarge got max => "platform token too large: " +:+ pretty got +:+ " > " +:+ pretty max
  | PlatformMismatch => "platform mismatch"
  | InvalidTokenShape => "invalid platform token shape"
  | ServerNonceMismatch => "server nonce mismatch"
  | AppOrSiteMismatch => "app or site mismatch"
  | DeviceKeyMismatch => "device key mismatch"
  | SignatureFailed => "platform proof signature failed"
  | CounterDidNotIncrease => "platform counter did not increase"
  | ProofExpired => "platform proof expired"
  | IncompleteConfiguration what => "production platform verifier configuration is incomplete: " +:+ what
  | ExternalTrustMaterialRequired what => "external trust material is not wired: " +:+ what
  end.

(** ** Shared types ([types.rs]) *)
Definition MAX_PLATFORM_TOKEN_BYTES : Z := 4096.

Definition validate_token_size (token : list byte) (max : Z) : res PlatformVerifierError unit :=
  reject len token =? 0 with EmptyToken ;;
  reject max <? len token with TokenTooLarge (len token) max ;;
  Ok tt.

Inductive PlatformKind := AppleAppAttest | AndroidPlayIntegrity | WebAuthn.
#[global] Instance PlatformKind_eq_dec : EqDecision PlatformKind.
Proof. solve_decision. Defined.

Record RegisteredPlatformKey := { public_key : list byte; last_counter : Z }.

Record PlatformVerificationContext := {
  platform : PlatformKind;
  token : list byte;
  server_nonce : list byte;
  device_pubkey : list byte;
  app_or_site : string;
  now_unix_millis : Z;
  registered_key : option RegisteredPlatformKey
}.

Record PlatformVerifierOutput := { new_counter : option Z }.

(** ** Android Play Integrity ([android.rs]) *)
Record AndroidPlayIntegrityConfig := { package_name : string; google_verification_configured : bool }.
Record AndroidPlayIntegrityVerifier := { android_config : AndroidPlayIntegrityConfig }.

Definition android_verify (v : AndroidPlayIntegrityVerifier) (ctx : PlatformVerificationContext)
  : res PlatformVerifierError PlatformVerifierOutput :=
  reject negb (bool_decide (platform ctx = AndroidPlayIntegrity)) with PlatformMismatch ;;
  let? _ := validate_token_size (token ctx) MAX_PLATFORM_TOKEN_BYTES in
  reject bool_decide (package_name (android_config v) = "")
    with IncompleteConfiguration "android package name is required" ;;
  reject negb (bool_decide (app_or_site ctx = package_name (android_config v))) with AppOrSiteMismatch ;;
  reject negb (google_verification_configured (android_config v))
    with ExternalTrustMaterialRequired "google play integrity decode/verify path or local keys" ;;
  Err (ExternalTrustMaterialRequired
         "android play integrity full verification is not implemented in this local phase").

(** ** Apple App Attest ([apple.rs]) *)
Inductive AppleAppAttestEnvironment := Development | Production.
Record AppleAppAttestConfig := {
  team_id : string;
  bundle_id : string;
  environment : AppleAppAttestEnvironment;
  trust_roots_configured : bool
}.
Record AppleAppAttestVerifier := { apple_config : AppleAppAttestConfig }.

Definition apple_verify (v : AppleAppAttestVerifier) (ctx : PlatformVerificationContext)
  : res PlatformVerifierError PlatformVerifierOutput :=
  let c := apple_config v in
  reject negb (bool_decide (platform ctx = AppleAppAttest)) with PlatformMismatch ;;
  let? _ := validate_token_size (token ctx) MAX_PLATFORM_TOKEN_BYTES in
  reject bool_decide (team_id c = "") || bool_decide (bundle_id c = "")
    with IncompleteConfiguration "apple team_id and bundle_id are required" ;;
  let expected_app_id := team_id c +:+ "." +:+ bundle_id c in
  reject negb (bool_decide (app_or_site ctx = expected_app_id)) with AppOrSiteMismatch ;;
  reject negb (trust_roots_configured c)
    with ExternalTrustMaterialRequired "apple app attest root chain and attestation/assertion parser" ;;
  Err (ExternalTrustMaterialRequired
         "apple app attest full verification is not implemented in this local phase").

(** ** WebAuthn ([web.rs]) *)
Record WebAuthnToken := { client_data_json : string; authenticator_data : string; signature : string }.
Record ClientData := { kind : string; challenge : string; origin : string }.

(** [serde_json::from_slice], [Base64UrlUnpadded::decode_vec] and [Sha256::digest]. *)
Class WebCodec := {
  parse_token : list byte -> option WebAuthnToken;
  parse_client_data : list byte -> option ClientData;
  decode_vec : string -> option (list byte);
  sha256 : list byte -> list byte
}.

Section WebAuthnVerifier.
Context `{WebCodec} `{Ed25519}.

Definition web_verify (ctx : PlatformVerificationContext) : res PlatformVerifierError PlatformVerifierOutput :=
  reject negb (bool_decide (platform ctx = WebAuthn)) with PlatformMismatch ;;
  let? _ := validate_token_size (token ctx) MAX_PLATFORM_TOKEN_BYTES in
  let? registered := ok_or (registered_key ctx) (IncompleteConfiguration "missing webauthn credential") in
  reject negb (bool_decide (public_key registered = device_pubkey ctx)) with DeviceKeyMismatch ;;
  let? tok := ok_or (parse_token (token ctx)) InvalidTokenShape in
  let? client_data := ok_or (decode_vec (client_data_json tok)) InvalidTokenShape in
  let? auth_data := ok_or (decode_vec (authenticator_data tok)) InvalidTokenShape in
  let? sig_bytes := ok_or (decode_vec (signature tok)) InvalidTokenShape in
  reject (len auth_data <? 37) || negb (len sig_bytes =? 64) with InvalidTokenShape ;;
  let? client := ok_or (parse_client_data client_data) InvalidTokenShape in
  reject negb (bool_decide (kind client = "webauthn.get")) with InvalidTokenShape ;;
  let? chal := ok_or (decode_vec (challenge client)) InvalidTokenShape in
  reject negb (bool_decide (chal = server_nonce ctx)) with ServerNonceMismatch ;;
  let expected_origin := "https://" +:+ app_or_site ctx in
  reject negb (bool_decide (origin client = expected_origin)) with AppOrSiteMismatch ;;
  let expected_rp_hash := sha256 (bytes_of_string (app_or_site ctx)) in
  let? rp_hash := slice 0 32 auth_data in
  reject negb (bool_decide (rp_hash = expected_rp_hash)) with AppOrSiteMismatch ;;
  let? flags := index 32 auth_data in
  reject Z.land (u8 flags) 1 =? 0 with InvalidTokenShape ;;
  let? counter_bytes := slice 33 37 auth_data in
  let counter := from_be counter_bytes in
  reject counter <=? last_counter registered with CounterDidNotIncrease ;;
  reject negb (vk_valid (public_key registered)) with InvalidTokenShape ;;
  let client_hash := sha256 client_data in
  let signed := auth_data ++ client_hash in
  reject negb (ed_verify (public_key registered) signed sig_bytes) with SignatureFailed ;;
  Ok {| new_counter := Some counter |}.

(** What an accepted WebAuthn token proves: the registered key signed authenticator data for
    this site, with the user present and a counter above the stored one, over client data that
    names this server nonce and this origin. *)
Record web_assertion (ctx : PlatformVerificationContext) (n : Z) : Prop := {
  wa_size : 0 < len (token ctx) <= MAX_PLATFORM_TOKEN_BYTES;
  wa_signed : exists reg tok cd ad sg client,
    registered_key ctx = Some reg /\ public_key reg = device_pubkey ctx /\ last_counter reg < n /\
    parse_token (token ctx) = Some tok /\ decode_vec (client_data_json tok) = Some cd /\
    decode_vec (authenticator_data tok) = Some ad /\ decode_vec (signature tok) = Some sg /\ len sg = 64 /\
    parse_client_data cd = Some client /\ kind client = "webauthn.get" /\
    decode_vec (challenge client) = Some (server_nonce ctx) /\
    origin client = "https://" +:+ app_or_site ctx /\
    (exists flags rest,
       ad = sha256 (bytes_of_string (app_or_site ctx)) ++ [flags] ++ to_be 4 n ++ rest /\
       len (sha256 (bytes_of_string (app_or_site ctx))) = 32 /\ Z.odd (u8 flags) = true) /\
    sig_ok (device_pubkey ctx) (ad ++ sha256 cd) sg = true
}.
End WebAuthnVerifier.

Section WebAuthnLaws.
Context `{WebCodec} `{Ed25519}.

Lemma validate_token_size_Ok t max : validate_token_size t max = Ok tt <-> 0 < len t <= max.
Proof.
  unfold validate_token_size. pose proof (len_nonneg t). rewrite !rguard_Ok, Z.eqb_neq, Z.ltb_ge. split; [lia|].
  intros; split_and!; try lia; done.
Qed.

Lemma odd_land1 b : (Z.land b 1 =? 0) = false <-> Z.odd b = true.
Proof.
  change 1 with (Z.ones 1). rewrite Z.land_ones by lia. rewrite Z.eqb_neq, Zmod_odd. by destruct (Z.odd b).
Qed.

(** Authenticator data read field by field is the concatenation of its fields. *)
Lemma auth_data_layout (E : Type) (ad hash : list byte) f n :
  slice (E := E) 0 32 ad = Ok hash -> index (E := E) 32 ad = Ok f -> slice (E := E) 33 37 ad = Ok n ->
  exists rest, ad = hash ++ [f] ++ n ++ rest.
Proof.
  intros H1 H2%index_Ok_slice H3. pose proof (slice_Ok_inv _ _ _ _ H3) as (_ & Hl & _).
  assert (Hr : exists rest, slice (E := E) 37 (len ad) ad = Ok rest) by (apply slice_no_panic; lia).
  destruct Hr as [rest Hr]. exists rest. symmetry. eapply slices_cover; [|done]. glue_slices.
Qed.

Lemma web_verify_sound ctx out :
  web_verify ctx = Ok out -> exists n, out = {| new_counter := Some n |} /\ is_u32 n /\ web_assertion ctx n.
Proof.
  unfold web_verify. intros Hv. res_inv Hv. injection Hv as <-. zbool. destruct x.
  repeat match goal with Ho : ok_or _ _ = Ok _ |- _ => apply ok_or_Ok in Ho end.
  pose proof (slice_ok_len _ _ _ _ Hx7) as Hh. pose proof (slice_ok_len _ _ _ _ Hx9) as Hc.
  eexists. split; [done|]. split; [by apply from_be_u32|].
  split; [by apply validate_token_size_Ok|].
  pose proof (auth_data_layout _ _ _ _ _ Hx7 Hx8 Hx9) as [rest Had].
  exists x0, x1, x2, x3, x4, x5. split_and!; try done; try congruence.
  - exists x8, rest. rewrite <- Hg5, to_be_from_be_n by lia. split; [done|]. split; [lia|].
    apply odd_land1. by apply Z.eqb_neq.
  - unfold sig_ok. rewrite <- Hg0. by apply andb_true_iff.
Qed.

Lemma web_verify_complete ctx n :
  platform ctx = WebAuthn -> is_u32 n -> web_assertion ctx n ->
  web_verify ctx = Ok {| new_counter := Some n |}.
Proof.
  intros Hp Hn [Hs (reg & tok & cd & ad & sg & client & Hreg & Hpk & Hlt & Ht & Hcd & Had & Hsg & Hsgl & Hcl
    & Hk & Hch & Ho & (f & rest & Hlay & Hhl & Hodd) & Hv)].
  unfold web_verify. rewrite Hp, Hreg, Ht. rewrite (proj2 (validate_token_size_Ok _ _)) by done.
  cbn [rbind ok_or negb rguard]. rewrite bool_decide_eq_true_2 by done. cbn [rbind ok_or negb rguard].
  rewrite bool_decide_eq_true_2 by done. cbn [negb rguard]. rewrite Hcd, Had, Hsg. cbn [rbind ok_or].
  assert (Hadl : len ad = 37 + len rest) by (rewrite Hlay; len_lia).
  pose proof (len_nonneg rest). rewrite (proj2 (Z.ltb_ge _ _)) by lia. rewrite Hsgl. cbn [Z.eqb Pos.eqb negb orb rguard].
  rewrite Hcl. cbn [rbind ok_or]. rewrite (bool_decide_eq_true_2 _ Hk). cbn [negb rguard].
  rewrite Hch. cbn [rbind ok_or]. rewrite bool_decide_eq_true_2 by done. cbn [negb rguard].
  rewrite (bool_decide_eq_true_2 _ Ho). cbn [negb rguard].
  unfold sig_ok in Hv. apply andb_true_iff in Hv as [Hvk Hed]. rewrite Hpk, Hvk, Hed. cbn [negb rguard].
  rewrite Hlay. rd_slice (sha256 (bytes_of_string (app_or_site ctx))).
  rewrite bool_decide_eq_true_2 by done. cbn [negb rguard]. rd_index f. rewrite (proj2 (odd_land1 _) Hodd). cbn [rguard].
  rd_slice (to_be 4 n). rewrite from_be_to_be_u32 by done. by rewrite (proj2 (Z.leb_gt _ _)) by lia.
Qed.

Lemma android_never_accepts v ctx out : android_verify v ctx <> Ok out.
Proof. unfold android_verify. intros Hv. by res_inv Hv. Qed.

Lemma apple_never_accepts v ctx out : apple_verify v ctx <> Ok out.
Proof. unfold apple_verify. intros Hv. by res_inv Hv. Qed.
End WebAuthnLaws.

(** ** One-time server nonces

    The trait [ProductionNonceReplayGuard] of both servers: [check_and_record_nonce] behind a
    shared reference.  Its documentation promises that a nonce accepted once is refused from
    then on; [accepted g n] says that [g] remembers [n]. *)
Class NonceGuard (E G : Type) := {
  check_and_record_nonce : list byte -> Z -> st G E unit;
  accepted : G -> list byte -> Prop;
  accept_fresh n t g g' : check_and_record_nonce n t g = (Ok tt, g') -> ~ accepted g n /\ accepted g' n;
  accepted_stays n t g r g' m : check_and_record_nonce n t g = (r, g') -> accepted g m -> accepted g' m
}.

(** A server that answers a list of calls and keeps the calls it accepted. *)
Section Serve.
Context {G E C : Type} (call : C -> st G E unit).

Fixpoint serve (cs : list C) (g : G) : list C * G :=
  match cs with
  | [] => ([], g)
  | c :: cs =>
      let '(r, g1) := call c g in
      let '(ok, g2) := serve cs g1 in
      (match r with Ok _ => c :: ok | _ => ok end, g2)
  end.

Context `{!NonceGuard E G} (nonce_of : C -> list byte).

(** If every call touches the guard only through its check, on the call's own nonce, and
    accepts only what the guard accepts, then accepted nonces are distinct and new; [P] is
    whatever else acceptance of a call implies. *)
Lemma serve_nonces_on (P : C -> Prop) cs g ok g' :
  Forall (fun c => forall g r g1, call c g = (r, g1) ->
    (g1 = g /\ r <> Ok tt) \/ (P c /\ exists t, check_and_record_nonce (nonce_of c) t g = (r, g1))) cs ->
  serve cs g = (ok, g') ->
  NoDup (nonce_of <$> ok) /\ (forall c, c ∈ ok -> ~ accepted g (nonce_of c) /\ P c) /\
  (forall n, accepted g n -> accepted g' n).
Proof.
  revert g ok g'. induction cs as [|c cs IH]; intros g ok g' Hg Hs; cbn [serve] in Hs.
  { injection Hs as <- <-. split; [constructor|]. split; [intros c Hc; by apply not_elem_of_nil in Hc|done]. }
  apply Forall_cons in Hg as [Hc0 Hg].
  destruct (call c g) as [r g1] eqn:Hc. destruct (serve cs g1) as [ok' g2] eqn:Hr. injection Hs as <- <-.
  destruct (IH _ _ _ Hg Hr) as (Hnd & Hfresh & Hmono). specialize (Hc0 _ _ _ Hc).
  assert (Hstep : forall n, accepted g n -> accepted g1 n).
  { destruct Hc0 as [[-> _]|[_ [t Hck]]]; [done|]. intros n. by eapply accepted_stays. }
  assert (Hold : forall d, d ∈ ok' -> ~ accepted g (nonce_of d) /\ P d).
  { intros d [Hd HP]%Hfresh. split; [|done]. by intros Ha%Hstep. }
  destruct r as [[]|e|]; [|split; [done|]; split; [done|by eauto]..].
  destruct Hc0 as [[_ Hno]|[HP [t Hck]]]; [done|]. apply accept_fresh in Hck as [Hnew Hin].
  split; [|split; [|by eauto]].
  - rewrite fmap_cons. constructor; [|done]. intros (d & He & Hd)%list_elem_of_fmap.
    apply (proj1 (Hfresh _ Hd)). by rewrite <- He.
  - intros d [-> | Hd]%elem_of_cons; [done|by apply Hold].
Qed.
End Serve.

(** A guard that keeps the list of accepted nonces. *)
Section ListGuard.
Context {E : Type} (replay : E).

Definition list_guard_check (n : list byte) (_ : Z) : st (list (list byte)) E unit :=
  fun g => if bool_decide (n ∈ g) then (Err replay, g) else (Ok tt, n :: g).

Program Definition list_guard : NonceGuard E (list (list byte)) := {|
  check_and_record_nonce := list_guard_check;
  accepted g n := n ∈ g
|}.
Next Obligation.
  unfold list_guard_check. intros n t g g'. case_bool_decide; [done|]. intros [= <-]. split; [done|by left].
Qed.
Next Obligation. unfold list_guard_check. intros n t g r g' m. case_bool_decide; intros [= _ <-] Hm; [done|by right]. Qed.
End ListGuard.

End PlatformVerifier.
