(* ===== verification/CloudRequest.v ===== *)
(** * Signed unwrap requests ([crates/umbrella-backup/src/cloud_wrap/signed_request.rs])

    The request a device sends to the sealed servers: its signing input, sealing, wire codec,
    signature check, and the production check that a server runs against its context (expected
    nonce, freshness window, device state, platform verifier, one-time nonce guard).  The
    attestation provider, the signer, Ed25519 and the decoders of the WebAuthn verifier are
    parameters; the guard is the interface [NonceGuard]. *)
From S2P Require Import Prelude Bytes Crypto BackupError DeviceAuth PlatformVerifier.
Local Open Scope string_scope.
Local Open Scope list_scope.
Local Open Scope Z_scope.

Module CloudRequest.
Module PV := PlatformVerifier.

Definition MAX_ATTESTATION_TOKEN_BYTES : Z := 4096.
Definition NONCE_LEN : Z := 32.
Definition DEVICE_SIG_LEN : Z := 64.
Definition DEVICE_PUBKEY_LEN : Z := 32.
Definition CHAT_ID_LEN : Z := 32.
Definition POINT_LEN : Z := 32.
Definition ED25519_PUB_LEN : Z := 32.
Definition SIGNATURE_DOMAIN_SEPARATOR : list byte := bytes_of_string "umbrellax-cloud-unwrap-v1".
Definition UNWRAP_WIRE_VERSION : Z := 1.

(** ** Platforms and attestations *)
Inductive Platform := IOs | Android | Web | Testing.
#[global] Instance Platform_eq_dec : EqDecision Platform.
Proof. solve_decision. Defined.

Definition tag (p : Platform) : Z := match p with IOs => 1 | Android => 2 | Web => 3 | Testing => 255 end.
Definition from_tag (t : Z) : option Platform :=
  if t =? 1 then Some IOs
  else if t =? 2 then Some Android
  else if t =? 3 then Some Web
  else if t =? 255 then Some Testing
  else None.

Record PlatformAttestation := { platform : Platform; token : list byte }.

(** [heapless::Vec::extend_from_slice] with its capacity. *)
Definition hvec_extend (cap : Z) (v x : list byte) : option (list byte) :=
  if cap <? len v + len x then None else Some (v ++ x).

Definition attestation_new (p : Platform) (token_bytes : list byte) : res BackupError PlatformAttestation :=
  reject (len token_bytes =? 0) || (MAX_ATTESTATION_TOKEN_BYTES <? len token_bytes) with InvalidAttestationShape ;;
  let? t := ok_or (hvec_extend MAX_ATTESTATION_TOKEN_BYTES [] token_bytes) InvalidAttestationShape in
  Ok {| platform := p; token := t |}.

(** [trait AttestationProvider]. *)
Definition AttestationProvider : Type := list byte -> res BackupError PlatformAttestation.

Record TestingAttestationProvider := { prefix : list byte }.

Definition testing_new (p : list byte) : res BackupError TestingAttestationProvider :=
  let to_take := Z.min (len p) 64 in
  let? x := slice 0 to_take p in
  match hvec_extend 64 [] x with
  | Some v => Ok {| prefix := v |}
  | None => Panic
  end.

Definition testing_default : res BackupError TestingAttestationProvider :=
  testing_new (bytes_of_string "umbrellax-test-cloud-unwrap").

Definition testing_fresh_token (p : TestingAttestationProvider) : AttestationProvider := fun nonce =>
  let? buf := ok_or (hvec_extend MAX_ATTESTATION_TOKEN_BYTES [] (prefix p)) InvalidAttestationShape in
  let? buf := ok_or (hvec_extend MAX_ATTESTATION_TOKEN_BYTES buf nonce) InvalidAttestationShape in
  Ok {| platform := Testing; token := buf |}.

(** ** Requests *)
Definition canonical_signing_input (ephemeral_r chat_id recipient_device_pubkey : list byte)
    (timestamp_unix_millis : Z) (server_nonce : list byte) (attestation : PlatformAttestation) : list byte :=
  SIGNATURE_DOMAIN_SEPARATOR ++ [as_u8 UNWRAP_WIRE_VERSION] ++ ephemeral_r ++ chat_id ++
  recipient_device_pubkey ++ to_be 8 timestamp_unix_millis ++ server_nonce ++
  [as_u8 (tag (platform attestation))] ++ to_be 4 (wrap32 (len (token attestation))) ++ token attestation.

Record SignedUnwrapRequest := {
  ephemeral_r : list byte;
  chat_id : list byte;
  recipient_device_pubkey : list byte;
  timestamp_unix_millis : Z;
  server_nonce : list byte;
  attestation : PlatformAttestation;
  device_signature : list byte;
  device_pubkey : list byte
}.

Definition signing_input (req : SignedUnwrapRequest) : list byte :=
  canonical_signing_input (ephemeral_r req) (chat_id req) (recipient_device_pubkey req)
    (timestamp_unix_millis req) (server_nonce req) (attestation req).

Definition seal_unwrap_request (r chat pk : list byte) (ts : Z) (nonce : list byte)
    (attestation_provider : AttestationProvider) (signer : list byte -> res BackupError (list byte))
    (device_pubkey_bytes : list byte) : res BackupError SignedUnwrapRequest :=
  let? att := attestation_provider nonce in
  let canonical := canonical_signing_input r chat pk ts nonce att in
  let? signature := signer canonical in
  Ok {| ephemeral_r := r; chat_id := chat; recipient_device_pubkey := pk; timestamp_unix_millis := ts;
        server_nonce := nonce; attestation := att; device_signature := signature;
        device_pubkey := device_pubkey_bytes |}.

Definition SIGNED_UNWRAP_REQUEST_FIXED_LEN : Z :=
  len SIGNATURE_DOMAIN_SEPARATOR + 1 + POINT_LEN + CHAT_ID_LEN + ED25519_PUB_LEN + 8 + NONCE_LEN + 1 + 4
  + DEVICE_SIG_LEN + DEVICE_PUBKEY_LEN.
Definition SIGNED_UNWRAP_REQUEST_MAX_LEN : Z := SIGNED_UNWRAP_REQUEST_FIXED_LEN + MAX_ATTESTATION_TOKEN_BYTES.

Definition to_bytes (req : SignedUnwrapRequest) : list byte :=
  SIGNATURE_DOMAIN_SEPARATOR ++ [as_u8 UNWRAP_WIRE_VERSION] ++ ephemeral_r req ++ chat_id req ++
  recipient_device_pubkey req ++ to_be 8 (timestamp_unix_millis req) ++ server_nonce req ++
  [as_u8 (tag (platform (attestation req)))] ++ to_be 4 (wrap32 (len (token (attestation req)))) ++
  token (attestation req) ++ device_signature req ++ device_pubkey req.

Definition from_bytes (data : list byte) : res BackupError SignedUnwrapRequest :=
  reject (len data <? SIGNED_UNWRAP_REQUEST_FIXED_LEN) || (SIGNED_UNWRAP_REQUEST_MAX_LEN <? len data)
    with InvalidWireFormat ;;
  let? domain := slice 0 25 data in
  reject negb (bool_decide (domain = SIGNATURE_DOMAIN_SEPARATOR)) with InvalidWireFormat ;;
  let? version := index 25 data in
  reject negb (u8 version =? UNWRAP_WIRE_VERSION) with InvalidWireFormat ;;
  let? r := slice 26 58 data in
  let? chat := slice 58 90 data in
  let? pk := slice 90 122 data in
  let? ts_bytes := slice 122 130 data in
  let? nonce := slice 130 162 data in
  let? platform_byte := index 162 data in
  let? p := ok_or (from_tag (u8 platform_byte)) InvalidAttestationShape in
  let? token_len_bytes := slice 163 167 data in
  let token_len := from_be token_len_bytes in
  reject MAX_ATTESTATION_TOKEN_BYTES <? token_len with InvalidWireFormat ;;
  reject negb (len data =? SIGNED_UNWRAP_REQUEST_FIXED_LEN + token_len) with InvalidWireFormat ;;
  let? t := slice 167 (167 + token_len) data in
  let? att := attestation_new p t in
  let off := 167 + token_len in
  let? sig := slice off (off + DEVICE_SIG_LEN) data in
  let? dpk := slice (off + DEVICE_SIG_LEN) (off + DEVICE_SIG_LEN + ED25519_PUB_LEN) data in
  Ok {| ephemeral_r := r; chat_id := chat; recipient_device_pubkey := pk;
        timestamp_unix_millis := from_be ts_bytes; server_nonce := nonce; attestation := att;
        device_signature := sig; device_pubkey := dpk |}.

Definition verify_signed_unwrap_request `{Ed25519} (req : SignedUnwrapRequest) : res BackupError unit :=
  DeviceAuth.dalek_verify (device_pubkey req) (signing_input req) (device_signature req).

(** ** The production check *)
Record ProductionFreshnessPolicy := {
  max_nonce_age_millis : Z;
  max_future_skew_millis : Z;
  max_request_age_millis : Z
}.
Definition freshness_default : ProductionFreshnessPolicy :=
  {| max_nonce_age_millis := 5 * 60 * 1000; max_future_skew_millis := 30 * 1000;
     max_request_age_millis := 5 * 60 * 1000 |}.

Inductive ProductionDeviceState :=
| Unknown
| Pending
| Revoked
| Active (authorized_since_unix_millis history_cutoff_unix_millis : Z)
| BootstrapActive (authorized_since_unix_millis history_cutoff_unix_millis : Z).

Inductive PlatformVerifierKind := Unavailable | AppleAppAttest | AndroidPlayIntegrity | WebAuthn | TestOnly.
#[global] Instance PlatformVerifierKind_eq_dec : EqDecision PlatformVerifierKind.
Proof. solve_decision. Defined.

Record PlatformVerificationInput := {
  in_platform : Platform;
  in_token : list byte;
  in_server_nonce : list byte;
  in_device_pubkey : list byte;
  in_now_unix_millis : Z
}.

(** [trait ProductionPlatformVerifier]. *)
Record ProductionPlatformVerifier := {
  kind : PlatformVerifierKind;
  verify_platform_attestation : PlatformVerificationInput -> res BackupError unit
}.

Definition UnavailableProductionPlatformVerifier : ProductionPlatformVerifier := {|
  kind := Unavailable;
  verify_platform_attestation input := Err (ProductionAttestationVerifierUnavailable (tag (in_platform input)))
|}.

Inductive SharedPlatformVerifierForBackup :=
| SharedApple (verifier : PV.AppleAppAttestVerifier) (app_id : string)
| SharedAndroid (verifier : PV.AndroidPlayIntegrityVerifier) (package_name : string)
| SharedWeb (site : string) (registered_key : PV.RegisteredPlatformKey).

Definition web (site : string) (public_key : list byte) (last_counter : Z) : SharedPlatformVerifierForBackup :=
  SharedWeb site {| PV.public_key := public_key; PV.last_counter := last_counter |}.

Definition request_platform_kind (p : Platform) : option PlatformVerifierKind :=
  match p with
  | IOs => Some AppleAppAttest
  | Android => Some AndroidPlayIntegrity
  | Web => Some WebAuthn
  | Testing => None
  end.

Definition backup_platform_error (err : PV.PlatformVerifierError) : BackupError :=
  ProductionPlatformVerificationFailed (PV.to_string err).

Definition shared_kind (v : SharedPlatformVerifierForBackup) : PlatformVerifierKind :=
  match v with
  | SharedApple _ _ => AppleAppAttest
  | SharedAndroid _ _ => AndroidPlayIntegrity
  | SharedWeb _ _ => WebAuthn
  end.

Section Production.
Context `{PV.WebCodec} `{Ed25519}.

Definition shared_context (k : PV.PlatformKind) (input : PlatformVerificationInput) (app : string)
    (key : option PV.RegisteredPlatformKey) : PV.PlatformVerificationContext :=
  {| PV.platform := k; PV.token := in_token input; PV.server_nonce := in_server_nonce input;
     PV.device_pubkey := in_device_pubkey input; PV.app_or_site := app;
     PV.now_unix_millis := in_now_unix_millis input; PV.registered_key := key |}.

Definition shared_verify_platform_attestation (v : SharedPlatformVerifierForBackup)
    (input : PlatformVerificationInput) : res BackupError unit :=
  reject negb (bool_decide (request_platform_kind (in_platform input) = Some (shared_kind v)))
    with backup_platform_error PV.PlatformMismatch ;;
  match v with
  | SharedApple verifier app_id =>
      rmap_err backup_platform_error (rmap (fun _ => tt)
        (PV.apple_verify verifier (shared_context PV.AppleAppAttest input app_id None)))
  | SharedAndroid verifier package_name =>
      rmap_err backup_platform_error (rmap (fun _ => tt)
        (PV.android_verify verifier (shared_context PV.AndroidPlayIntegrity input package_name None)))
  | SharedWeb site registered_key =>
      rmap_err backup_platform_error (rmap (fun _ => tt)
        (PV.web_verify (shared_context PV.WebAuthn input site (Some registered_key))))
  end.

Definition shared_verifier (v : SharedPlatformVerifierForBackup) : ProductionPlatformVerifier :=
  {| kind := shared_kind v; verify_platform_attestation := shared_verify_platform_attestation v |}.

Record ProductionUnwrapVerificationContext := {
  expected_server_nonce : list byte;
  server_nonce_issued_at_unix_millis : Z;
  now_unix_millis : Z;
  freshness : ProductionFreshnessPolicy;
  device_state : ProductionDeviceState;
  envelope_timestamp_unix_millis : Z;
  platform_verifier : ProductionPlatformVerifier
}.

Definition context_new (expected : list byte) (issued now : Z) (fresh : ProductionFreshnessPolicy)
    (state : ProductionDeviceState) (envelope_ts : Z) (verifier : ProductionPlatformVerifier)
  : res BackupError ProductionUnwrapVerificationContext :=
  reject bool_decide (kind verifier = TestOnly) with ProductionTestVerifierRejected ;;
  Ok {| expected_server_nonce := expected; server_nonce_issued_at_unix_millis := issued;
        now_unix_millis := now; freshness := fresh; device_state := state;
        envelope_timestamp_unix_millis := envelope_ts; platform_verifier := verifier |}.

Definition check_production_nonce (request_nonce expected_nonce : list byte) : res BackupError unit :=
  reject negb (bool_decide (request_nonce = expected_nonce)) with ProductionServerNonceMismatch ;;
  Ok tt.

Definition check_production_freshness (request_ts nonce_issued_at now : Z) (f : ProductionFreshnessPolicy)
  : res BackupError unit :=
  let? _ :=
    (if now <? nonce_issued_at then
       let skew := nonce_issued_at - now in
       reject max_future_skew_millis f <? skew
         with ProductionServerNonceIssuedInFuture skew (max_future_skew_millis f) ;;
       Ok tt
     else
       let age := now - nonce_issued_at in
       reject max_nonce_age_millis f <? age with ProductionServerNonceExpired age (max_nonce_age_millis f) ;;
       Ok tt) in
  if now <? request_ts then
    let skew := request_ts - now in
    reject max_future_skew_millis f <? skew
      with ProductionRequestTimestampInFuture skew (max_future_skew_millis f) ;;
    Ok tt
  else
    let age := now - request_ts in
    reject max_request_age_millis f <? age with ProductionServerNonceExpired age (max_request_age_millis f) ;;
    Ok tt.

Definition check_production_device_state (state : ProductionDeviceState) (request_ts envelope_ts : Z)
  : res BackupError unit :=
  let? (authorized_since, history_cutoff) :=
    match state with
    | Unknown => Err ProductionDeviceUnknown
    | Pending => Err DevicePendingAuthorization
    | Revoked => Err DeviceRevoked
    | Active since cutoff | BootstrapActive since cutoff => Ok (since, cutoff)
    end in
  reject request_ts <? authorized_since with ProductionDeviceNotActiveYet authorized_since request_ts ;;
  reject (0 <? history_cutoff) && (envelope_ts <? history_cutoff)
    with HistoryCutoffApplies envelope_ts history_cutoff ;;
  Ok tt.

Definition verification_input (req : SignedUnwrapRequest) (now : Z) : PlatformVerificationInput :=
  {| in_platform := platform (attestation req); in_token := token (attestation req);
     in_server_nonce := server_nonce req; in_device_pubkey := device_pubkey req; in_now_unix_millis := now |}.

Context {G : Type} `{!PV.NonceGuard BackupError G}.

Definition verify_signed_unwrap_request_for_production_with_context (req : SignedUnwrapRequest)
    (ctx : ProductionUnwrapVerificationContext) : st G BackupError unit :=
  let! _ := slift (verify_signed_unwrap_request req) in
  let! _ := slift (check_production_nonce (server_nonce req) (expected_server_nonce ctx)) in
  let! _ := slift (check_production_freshness (timestamp_unix_millis req)
                     (server_nonce_issued_at_unix_millis ctx) (now_unix_millis ctx) (freshness ctx)) in
  let! _ := slift (check_production_device_state (device_state ctx) (timestamp_unix_millis req)
                     (envelope_timestamp_unix_millis ctx)) in
  match platform (attestation req) with
  | Testing => slift (Err CryptoVerificationFailed)
  | IOs | Android | Web =>
      let! _ := slift (verify_platform_attestation (platform_verifier ctx)
                         (verification_input req (now_unix_millis ctx))) in
      PV.check_and_record_nonce (server_nonce req) (now_unix_millis ctx)
  end.

Definition verify_signed_unwrap_request_for_production (req : SignedUnwrapRequest) : res BackupError unit :=
  let? _ := verify_signed_unwrap_request req in
  match platform (attestation req) with
  | Testing => Err CryptoVerificationFailed
  | p => Err (ProductionAttestationVerifierUnavailable (tag p))
  end.
End Production.

(** ** Codec laws *)
Record wf_attestation (a : PlatformAttestation) : Prop := {
  wat_token : 0 < len (token a) <= MAX_ATTESTATION_TOKEN_BYTES
}.

Record wf_signed_request (r : SignedUnwrapRequest) : Prop := {
  wsr_r : len (ephemeral_r r) = 32;
  wsr_chat : len (chat_id r) = 32;
  wsr_pk : len (recipient_device_pubkey r) = 32;
  wsr_ts : is_u64 (timestamp_unix_millis r);
  wsr_nonce : len (server_nonce r) = 32;
  wsr_att : wf_attestation (attestation r);
  wsr_sig : len (device_signature r) = 64;
  wsr_dpk : len (device_pubkey r) = 32
}.

Lemma from_tag_tag p : from_tag (tag p) = Some p.
Proof. by destruct p. Qed.
Lemma tag_from_tag t p : from_tag t = Some p -> tag p = t.
Proof. unfold from_tag. repeat case_match; zbool; naive_solver. Qed.
Lemma tag_u8 p : is_u8 (tag p).
Proof. unfold is_u8, U8_MAX. destruct p; simpl; lia. Qed.
Lemma tag_inj p q : tag p = tag q -> p = q.
Proof. intros Ht. apply (f_equal from_tag) in Ht. rewrite !from_tag_tag in Ht. congruence. Qed.

Lemma attestation_new_Ok p t a :
  attestation_new p t = Ok a <-> a = {| platform := p; token := t |} /\ 0 < len t <= MAX_ATTESTATION_TOKEN_BYTES.
Proof.
  unfold attestation_new, hvec_extend, MAX_ATTESTATION_TOKEN_BYTES. change (len (@nil byte)) with 0. pose proof (len_nonneg t).
  destruct (len t =? 0) eqn:H0, (4096 <? len t) eqn:H1; zbool; cbn [orb rguard]; try (split; [done|lia]).
  rewrite (proj2 (Z.ltb_ge _ _)) by lia. cbn. split; [|by intros [-> _]]. intros [= <-]. split; [done|lia].
Qed.

Lemma attestation_new_total p t : attestation_new p t <> Panic.
Proof. unfold attestation_new, hvec_extend. destruct (_ || _); [done|]. simpl. by case_match. Qed.

Lemma token_len_u32 a : wf_attestation a -> wrap32 (len (token a)) = len (token a) /\ is_u32 (len (token a)).
Proof.
  intros [Ht]. unfold MAX_ATTESTATION_TOKEN_BYTES in Ht.
  assert (is_u32 (len (token a))) by (unfold is_u32, U32_MAX; lia). split; [by apply wrap32_id|done].
Qed.

Ltac cloud_lens := unfold SIGNED_UNWRAP_REQUEST_MAX_LEN, SIGNED_UNWRAP_REQUEST_FIXED_LEN, POINT_LEN, CHAT_ID_LEN,
  ED25519_PUB_LEN, NONCE_LEN, DEVICE_SIG_LEN, DEVICE_PUBKEY_LEN, MAX_ATTESTATION_TOKEN_BYTES in *.

Lemma domain_len : len SIGNATURE_DOMAIN_SEPARATOR = 25.
Proof. done. Qed.

Lemma to_bytes_len r : wf_signed_request r ->
  len (to_bytes r) = SIGNED_UNWRAP_REQUEST_FIXED_LEN + len (token (attestation r)).
Proof. intros []. unfold to_bytes. cloud_lens. autorewrite with umb_len. rewrite domain_len. lia. Qed.

Opaque SIGNATURE_DOMAIN_SEPARATOR.

Lemma unwrap_request_dec_enc r : wf_signed_request r -> from_bytes (to_bytes r) = Ok r.
Proof.
  intros Hw. pose proof (to_bytes_len r Hw) as Hl. destruct Hw as [Hr Hc Hp Ht Hn Ha Hs Hd].
  destruct (token_len_u32 _ Ha) as [Hw32 H32]. destruct Ha as [Hat]. pose proof domain_len as Hdom.
  unfold from_bytes. unfold SIGNED_UNWRAP_REQUEST_MAX_LEN.
  rewrite !(proj2 (Z.ltb_ge _ _)) by lia. cbn [orb rguard]. unfold to_bytes in *. rewrite Hw32 in *.
  rd_slice SIGNATURE_DOMAIN_SEPARATOR. rewrite bool_decide_eq_true_2 by done. cbn [negb rguard].
  rd_index (as_u8 UNWRAP_WIRE_VERSION).
  change (u8 (as_u8 UNWRAP_WIRE_VERSION) =? UNWRAP_WIRE_VERSION) with true. cbn [negb rguard].
  rd_slice (ephemeral_r r). rd_slice (chat_id r). rd_slice (recipient_device_pubkey r).
  rd_slice (to_be 8 (timestamp_unix_millis r)). rd_slice (server_nonce r).
  rd_index (as_u8 (tag (platform (attestation r)))).
  rewrite (DeviceAuth.u8_as_u8_id _ (tag_u8 _)), from_tag_tag. cbn [ok_or rbind].
  rd_slice (to_be 4 (len (token (attestation r)))). rewrite !from_be_to_be_u32, from_be_to_be_u64 by done.
  rewrite (proj2 (Z.ltb_ge _ _)) by lia. cbn [rguard].
  rewrite (proj2 (Z.eqb_eq (len _) _)) by exact Hl. cbn [negb rguard].
  rd_slice (token (attestation r)).
  rewrite (proj2 (attestation_new_Ok _ _ _) (conj eq_refl Hat)). cbn [rbind]. cloud_lens.
  rd_slice (device_signature r). rd_slice (device_pubkey r). by destruct r as [? ? ? ? ? [] ? ?].
Qed.

Lemma unwrap_request_enc_dec b r : from_bytes b = Ok r -> to_bytes r = b /\ wf_signed_request r.
Proof.
  unfold from_bytes. intros Hd. pose proof domain_len as Hdom.
  apply rguard_Ok in Hd as [Hl Hd]. inv_slice Hd x0 S0 L0. apply rguard_Ok in Hd as [H0 Hd].
  inv_index Hd v S1. apply rguard_Ok in Hd as [H1 Hd].
  inv_slice Hd x2 S2 L2. inv_slice Hd x3 S3 L3. inv_slice Hd x4 S4 L4. inv_slice Hd x5 S5 L5.
  inv_slice Hd x6 S6 L6. inv_index Hd pb S7. apply rbind_Ok in Hd as (p & Hp & Hd). inv_slice Hd x8 S8 L8.
  apply rguard_Ok in Hd as [Hm Hd]. apply rguard_Ok in Hd as [Hlen Hd]. inv_slice Hd t St Ltk.
  apply rbind_Ok in Hd as (att & Ha & Hd). inv_slice Hd sg Ss Ls. inv_slice Hd dk Sd Ld.
  apply attestation_new_Ok in Ha as [-> Ht]. injection Hd as <-. apply ok_or_Ok, tag_from_tag in Hp. zbool.
  subst x0. unfold SIGNED_UNWRAP_REQUEST_FIXED_LEN in Hlen. cloud_lens. split.
  - unfold to_bytes. cbn [ephemeral_r chat_id recipient_device_pubkey timestamp_unix_millis server_nonce attestation
      device_signature device_pubkey platform token].
    rewrite wrap32_id by (unfold is_u32, U32_MAX; lia). replace (len t) with (from_be x8) by lia.
    rewrite Hp, as_u8_u8, !to_be_from_be_n by lia.
    replace (as_u8 UNWRAP_WIRE_VERSION) with v by (apply u8_inj; by rewrite H1).
    eapply (slices_cover (E := BackupError)); [glue_slices|lia].
  - split; cbn; try done; try lia; first [by apply from_be_u64 | split; cbn; unfold MAX_ATTESTATION_TOKEN_BYTES; lia].
Qed.

Lemma unwrap_request_total b : from_bytes b <> Panic.
Proof.
  unfold from_bytes. intros Hp. pose proof domain_len as Hdom. cloud_lens.
  do 11 (cbn zeta in Hp; no_panic_step Hp).
  apply rbind_Panic in Hp as [Hp|(p & _ & Hp)]; [unfold ok_or in Hp; by case_match|].
  do 4 (cbn zeta in Hp; no_panic_step Hp).
  apply rbind_Panic in Hp as [Hp|(a & _ & Hp)]; [by apply attestation_new_total in Hp|]. no_panic Hp.
Qed.

#[export] Instance request_codec : Codec BackupError SignedUnwrapRequest := {|
  enc := to_bytes; dec := from_bytes; wf := wf_signed_request;
  dec_enc := unwrap_request_dec_enc; enc_dec := unwrap_request_enc_dec; dec_total := unwrap_request_total
|}.

(** ** What the signature covers *)
Lemma to_bytes_signed r : to_bytes r = signing_input r ++ device_signature r ++ device_pubkey r.
Proof. unfold to_bytes, signing_input, canonical_signing_input. by rewrite <- !app_assoc. Qed.

Lemma signing_input_inj r1 r2 :
  wf_signed_request r1 -> wf_signed_request r2 -> signing_input r1 = signing_input r2 ->
  ephemeral_r r1 = ephemeral_r r2 /\ chat_id r1 = chat_id r2 /\
  recipient_device_pubkey r1 = recipient_device_pubkey r2 /\
  timestamp_unix_millis r1 = timestamp_unix_millis r2 /\ server_nonce r1 = server_nonce r2 /\
  attestation r1 = attestation r2.
Proof.
  intros [R1 C1 P1 T1 N1 A1 _ _] [R2 C2 P2 T2 N2 A2 _ _] He.
  destruct (token_len_u32 _ A1) as [W1 U1], (token_len_u32 _ A2) as [W2 U2].
  unfold signing_input, canonical_signing_input in He. rewrite W1, W2 in He.
  peel He E0. peel He E1. peel He E2. peel He E3. peel He E4. peel He E5. peel He E6. peel He E7. peel He E8.
  apply to_be_u64_inj in E5; [|done|done]. injection E7 as E7.
  apply (f_equal u8) in E7. rewrite !DeviceAuth.u8_as_u8_id in E7 by apply tag_u8. apply tag_inj in E7.
  split_and!; try done. destruct (attestation r1), (attestation r2). cbn in *. congruence.
Qed.

(** ** The production policy: the conditions, and the precedence of the reasons to refuse *)
Section Policy.
Context `{PV.WebCodec} `{Ed25519}.

(** A time [t] within the window of a server clock. *)
Definition in_window (now max_age max_skew t : Z) : Prop := now - t <= max_age /\ t - now <= max_skew.

Definition device_allowed (state : ProductionDeviceState) (request_ts envelope_ts : Z) : Prop :=
  match state with
  | Active since cutoff | BootstrapActive since cutoff => since <= request_ts /\ (0 < cutoff -> cutoff <= envelope_ts)
  | _ => False
  end.

Definition wf_policy (f : ProductionFreshnessPolicy) : Prop :=
  is_u64 (max_nonce_age_millis f) /\ is_u64 (max_future_skew_millis f) /\ is_u64 (max_request_age_millis f).

Record admissible (req : SignedUnwrapRequest) (ctx : ProductionUnwrapVerificationContext) : Prop := {
  adm_sig : sig_ok (device_pubkey req) (signing_input req) (device_signature req) = true;
  adm_nonce : server_nonce req = expected_server_nonce ctx;
  adm_issued : in_window (now_unix_millis ctx) (max_nonce_age_millis (freshness ctx))
                 (max_future_skew_millis (freshness ctx)) (server_nonce_issued_at_unix_millis ctx);
  adm_request : in_window (now_unix_millis ctx) (max_request_age_millis (freshness ctx))
                  (max_future_skew_millis (freshness ctx)) (timestamp_unix_millis req);
  adm_device : device_allowed (device_state ctx) (timestamp_unix_millis req) (envelope_timestamp_unix_millis ctx);
  adm_platform : platform (attestation req) <> Testing;
  adm_attested : verify_platform_attestation (platform_verifier ctx)
                   (verification_input req (now_unix_millis ctx)) = Ok tt
}.

Lemma verify_signed_Ok req :
  verify_signed_unwrap_request req = Ok tt <->
  sig_ok (device_pubkey req) (signing_input req) (device_signature req) = true.
Proof.
  unfold verify_signed_unwrap_request, DeviceAuth.dalek_verify, sig_ok.
  destruct (vk_valid _), (ed_verify _ _ _); simpl; naive_solver.
Qed.

Lemma check_nonce_Ok a b : check_production_nonce a b = Ok tt <-> a = b.
Proof. unfold check_production_nonce. case_bool_decide; simpl; naive_solver. Qed.

Lemma check_freshness_Ok ts issued now f :
  wf_policy f ->
  check_production_freshness ts issued now f = Ok tt <->
  in_window now (max_nonce_age_millis f) (max_future_skew_millis f) issued /\
  in_window now (max_request_age_millis f) (max_future_skew_millis f) ts.
Proof.
  unfold wf_policy, is_u64, in_window, check_production_freshness, rguard. intros (Ha & Hs & Hr).
  repeat case_match; zbool; simpl; split; try done; lia.
Qed.

Lemma check_device_Ok s ts env : check_production_device_state s ts env = Ok tt <-> device_allowed s ts env.
Proof.
  unfold check_production_device_state, device_allowed, rguard.
  destruct s; simpl; try (split; done); repeat case_match; split; try done; zbool; try lia.
Qed.

(** The reasons to refuse a request before its attestation is looked at, each with its error, in
    order of precedence: the first that applies is the answer. *)
Definition freshness_refusals (ts issued now : Z) (f : ProductionFreshnessPolicy) : list (bool * BackupError) :=
  [ (max_future_skew_millis f <? issued - now, ProductionServerNonceIssuedInFuture (issued - now) (max_future_skew_millis f));
    (max_nonce_age_millis f <? now - issued, ProductionServerNonceExpired (now - issued) (max_nonce_age_millis f));
    (max_future_skew_millis f <? ts - now, ProductionRequestTimestampInFuture (ts - now) (max_future_skew_millis f));
    (max_request_age_millis f <? now - ts, ProductionServerNonceExpired (now - ts) (max_request_age_millis f)) ].
Definition device_refusals (state : ProductionDeviceState) (ts envelope_ts : Z) : list (bool * BackupError) :=
  match state with
  | Unknown => [(true, ProductionDeviceUnknown)]
  | Pending => [(true, DevicePendingAuthorization)]
  | Revoked => [(true, DeviceRevoked)]
  | Active since cutoff | BootstrapActive since cutoff =>
      [ (ts <? since, ProductionDeviceNotActiveYet since ts);
        ((0 <? cutoff) && (envelope_ts <? cutoff), HistoryCutoffApplies envelope_ts cutoff) ]
  end.
Definition refusals (req : SignedUnwrapRequest) (ctx : ProductionUnwrapVerificationContext) : list (bool * BackupError) :=
  [ (negb (vk_valid (device_pubkey req)), InvalidRistrettoEncoding);
    (negb (ed_verify (device_pubkey req) (signing_input req) (device_signature req)), CryptoVerificationFailed);
    (negb (bool_decide (server_nonce req = expected_server_nonce ctx)), ProductionServerNonceMismatch) ] ++
  freshness_refusals (timestamp_unix_millis req) (server_nonce_issued_at_unix_millis ctx) (now_unix_millis ctx) (freshness ctx) ++
  device_refusals (device_state ctx) (timestamp_unix_millis req) (envelope_timestamp_unix_millis ctx) ++
  [ (bool_decide (platform (attestation req) = Testing), CryptoVerificationFailed) ].

(** The first reason that applies. *)
Definition first_refusal (l : list (bool * BackupError)) : option BackupError := snd <$> List.find fst l.
Definition answer (l : list (bool * BackupError)) : res BackupError unit :=
  match first_refusal l with Some e => Err e | None => Ok tt end.

Lemma answer_app l k : answer (l ++ k) = let? _ := answer l in answer k.
Proof. unfold answer, first_refusal. rewrite find_app. by destruct (List.find fst l). Qed.

Lemma freshness_answer ts issued now f :
  wf_policy f -> check_production_freshness ts issued now f = answer (freshness_refusals ts issued now f).
Proof.
  intros (Ha & Hs & Hr). unfold is_u64 in *. unfold check_production_freshness, freshness_refusals, answer, first_refusal, rguard.
  destruct (Z.ltb_spec now issued), (Z.ltb_spec now ts); cbn [List.find fst snd];
    repeat (match goal with |- context [?x <? ?y] => destruct (Z.ltb_spec x y) end; cbn; try lia); done || lia.
Qed.

Lemma device_answer s ts env : check_production_device_state s ts env = answer (device_refusals s ts env).
Proof.
  unfold check_production_device_state, device_refusals, answer, first_refusal, rguard.
  destruct s; cbn [List.find fst rbind]; try done; repeat (case_match; simplify_eq/=; try done).
Qed.

Context {G : Type} `{!PV.NonceGuard BackupError G}.

(** The answer of the server, by precedence of the reasons. *)
Lemma production_answer req ctx (g : G) :
  wf_policy (freshness ctx) ->
  verify_signed_unwrap_request_for_production_with_context req ctx g =
  match first_refusal (refusals req ctx) with
  | Some e => (Err e, g)
  | None => match verify_platform_attestation (platform_verifier ctx) (verification_input req (now_unix_millis ctx)) with
            | Ok _ => PV.check_and_record_nonce (server_nonce req) (now_unix_millis ctx) g
            | Err e => (Err e, g)
            | Panic => (Panic, g)
            end
  end.
Proof.
  intros Hf. transitivity (match answer (refusals req ctx) with
    | Ok _ => match verify_platform_attestation (platform_verifier ctx) (verification_input req (now_unix_millis ctx)) with
              | Ok _ => PV.check_and_record_nonce (server_nonce req) (now_unix_millis ctx) g
              | Err e => (Err e, g) | Panic => (Panic, g) end
    | Err e => (Err e, g) | Panic => (Panic, g) end); [|unfold answer; by destruct (first_refusal _)].
  unfold refusals. rewrite !answer_app, <- freshness_answer, <- device_answer by done.
  unfold verify_signed_unwrap_request_for_production_with_context, verify_signed_unwrap_request, DeviceAuth.dalek_verify,
    check_production_nonce, sbind, slift, rguard, answer, first_refusal. cbn [List.find fst].
  destruct (vk_valid _); cbn [negb fmap option_fmap option_map snd rbind]; [|done].
  destruct (ed_verify _ _ _); cbn [negb fmap option_fmap option_map snd rbind]; [|done].
  destruct (bool_decide (server_nonce req = _)); cbn [negb fmap option_fmap option_map snd rbind]; [|done].
  destruct (check_production_freshness _ _ _ _) as [[]| |]; [|done..].
  destruct (check_production_device_state _ _ _) as [[]| |]; [|done..]. cbn [rbind].
  destruct (platform (attestation req)); cbn; try done;
    by destruct (verify_platform_attestation _ _) as [[]| |].
Qed.

Ltac refuse := intros [= <- <-]; left; split; [intros []; intuition congruence|done].

Lemma production_gate req ctx (g g' : G) r :
  wf_policy (freshness ctx) ->
  verify_signed_unwrap_request_for_production_with_context req ctx g = (r, g') ->
  (~ admissible req ctx /\ r <> Ok tt /\ g' = g) \/
  (admissible req ctx /\ PV.check_and_record_nonce (server_nonce req) (now_unix_millis ctx) g = (r, g')).
Proof.
  intros Hf. unfold verify_signed_unwrap_request_for_production_with_context, sbind, slift.
  pose proof (verify_signed_Ok req) as V. pose proof (check_nonce_Ok (server_nonce req) (expected_server_nonce ctx)) as N.
  pose proof (check_freshness_Ok (timestamp_unix_millis req) (server_nonce_issued_at_unix_millis ctx)
    (now_unix_millis ctx) _ Hf) as F.
  pose proof (check_device_Ok (device_state ctx) (timestamp_unix_millis req) (envelope_timestamp_unix_millis ctx)) as D.
  destruct (verify_signed_unwrap_request req) as [[]|e|]; [|refuse..].
  destruct (check_production_nonce _ _) as [[]|e|]; [|refuse..].
  destruct (check_production_freshness _ _ _ _) as [[]|e|]; [|refuse..].
  destruct (check_production_device_state _ _ _) as [[]|e|]; [|refuse..].
  destruct (verify_platform_attestation _ _) as [[]|e|] eqn:A;
    destruct (platform (attestation req)) eqn:P; try refuse;
    intros Hc; right; (split; [|exact Hc]); split; try tauto; try done; congruence.
Qed.
End Policy.

(** ** Theorems *)
Section Theorems.
Context `{PV.WebCodec} `{Ed25519}.

(** Unwrap requests on the wire: decoding inverts encoding, only encodings of well-formed
    requests are accepted, no byte string makes the decoder panic; the wire form is the signed
    bytes followed by signature and key, and the signed bytes determine every field they cover,
    so a signature over one request never verifies as another. *)
Theorem unwrap_request_wire (r r' : SignedUnwrapRequest) (b : list byte) :
  (wf_signed_request r -> from_bytes (to_bytes r) = Ok r) /\
  (from_bytes b = Ok r -> to_bytes r = b /\ wf_signed_request r) /\
  from_bytes b <> Panic /\
  to_bytes r = signing_input r ++ device_signature r ++ device_pubkey r /\
  (wf_signed_request r -> wf_signed_request r' -> signing_input r = signing_input r' ->
     r' = {| ephemeral_r := ephemeral_r r; chat_id := chat_id r;
             recipient_device_pubkey := recipient_device_pubkey r;
             timestamp_unix_millis := timestamp_unix_millis r; server_nonce := server_nonce r;
             attestation := attestation r; device_signature := device_signature r';
             device_pubkey := device_pubkey r' |}).
Proof.
  split; [apply unwrap_request_dec_enc|]. split; [apply unwrap_request_enc_dec|]. split; [apply unwrap_request_total|].
  split; [apply to_bytes_signed|]. intros Hw Hw' (-> & -> & -> & -> & -> & ->)%signing_input_inj; [by destruct r'|done..].
Qed.

Context {G : Type} `{!PV.NonceGuard BackupError G}.

(** C6. Production check, exactly: the server accepts precisely the requests that satisfy the
    whole policy (device signature, expected nonce, both times inside their windows, an active
    device, its history cutoff, an accepted attestation of a real platform) and whose nonce the
    guard takes; a request that fails the policy is refused and the guard is not touched, so a
    forged request cannot burn a nonce.  The error is that of the first reason to refuse, in the
    order of [refusals]; without one the attestation decides, and only then the guard. *)
Theorem production_decision (req : SignedUnwrapRequest) (ctx : ProductionUnwrapVerificationContext) (g : G)
    (Hf : wf_policy (freshness ctx)) :
  (forall g', verify_signed_unwrap_request_for_production_with_context req ctx g = (Ok tt, g') <->
     admissible req ctx /\
     PV.check_and_record_nonce (server_nonce req) (now_unix_millis ctx) g = (Ok tt, g')) /\
  (~ admissible req ctx ->
     exists r, verify_signed_unwrap_request_for_production_with_context req ctx g = (r, g) /\ r <> Ok tt) /\
  verify_signed_unwrap_request_for_production_with_context req ctx g =
    match first_refusal (refusals req ctx) with
    | Some e => (Err e, g)
    | None => match verify_platform_attestation (platform_verifier ctx) (verification_input req (now_unix_millis ctx)) with
              | Ok _ => PV.check_and_record_nonce (server_nonce req) (now_unix_millis ctx) g
              | Err e => (Err e, g)
              | Panic => (Panic, g)
              end
    end.
Proof.
  pose proof (production_answer req ctx g Hf) as Hans.
  destruct (verify_signed_unwrap_request_for_production_with_context req ctx g) as [r g1] eqn:Hv.
  destruct (production_gate _ _ _ _ _ Hf Hv) as [(Hn & Hr & ->)|[Ha Hc]].
  - split; [|split; [by eauto|exact Hans]]. intros g'. split; [by intros [= -> _]|tauto].
  - split; [|split; [done|exact Hans]]. intros g'. rewrite Hc. tauto.
Qed.

(** Across any sequence of requests and server contexts, no nonce is accepted twice, and
    none that the guard already remembered. *)
Theorem production_nonce_once (calls : list (SignedUnwrapRequest * ProductionUnwrapVerificationContext)) (g : G)
    (Hf : Forall (fun c => wf_policy (freshness c.2)) calls) :
  let ok := (PV.serve (fun c => verify_signed_unwrap_request_for_production_with_context c.1 c.2)
               calls g).1 in
  NoDup ((fun c => server_nonce c.1) <$> ok) /\
  (forall c, c ∈ ok -> ~ PV.accepted g (server_nonce c.1) /\ server_nonce c.1 = expected_server_nonce c.2).
Proof.
  cbn zeta.
  set (call := fun c => verify_signed_unwrap_request_for_production_with_context (G := G) c.1 c.2).
  destruct (PV.serve call calls g) as [ok g'] eqn:Hs. cbn [fst].
  assert (Hgate : Forall (fun c => forall g r g1, call c g = (r, g1) ->
     (g1 = g /\ r <> Ok tt) \/
     (server_nonce c.1 = expected_server_nonce c.2 /\
      exists t, PV.check_and_record_nonce (server_nonce c.1) t g = (r, g1))) calls).
  { eapply Forall_impl; [exact Hf|]. intros c Hc g0 r g1 Hv. apply production_gate in Hv; [|done].
    destruct Hv as [(_ & Hr & ->)|[[] Hck]]; [by left|right; eauto]. }
  destruct (PV.serve_nonces_on call (fun c => server_nonce c.1)
    (fun c => server_nonce c.1 = expected_server_nonce c.2) calls g ok g' Hgate Hs) as (Hnd & Hall & _).
  split; [done|]. intros c Hc. by apply Hall.
Qed.

(** End to end with the verifiers of the platform crate: whatever adapter the server uses,
    a request it accepts comes from the web platform, and two signatures bind the same fresh
    server nonce: the device key signed the canonical request, and the registered WebAuthn key,
    which is the same key, signed an assertion for the configured site with a counter above the
    stored one.  The Apple and Android adapters accept nothing. *)
Theorem production_end_to_end (v : SharedPlatformVerifierForBackup) (req : SignedUnwrapRequest)
    (ctx : ProductionUnwrapVerificationContext) (g g' : G)
    (Hv : platform_verifier ctx = shared_verifier v) (Hf : wf_policy (freshness ctx))
    (Hok : verify_signed_unwrap_request_for_production_with_context req ctx g = (Ok tt, g')) :
  exists site key n,
    v = SharedWeb site key /\ platform (attestation req) = Web /\
    PV.web_assertion (shared_context PV.WebAuthn (verification_input req (now_unix_millis ctx)) site (Some key)) n /\
    PV.public_key key = device_pubkey req /\ PV.last_counter key < n /\
    sig_ok (device_pubkey req) (signing_input req) (device_signature req) = true /\
    server_nonce req = expected_server_nonce ctx /\
    ~ PV.accepted g (server_nonce req) /\ PV.accepted g' (server_nonce req).
Proof.
  apply production_gate in Hok; [|done]. destruct Hok as [(_ & [] & _)|[[Hs Hn _ _ _ _ Ha] Hck]]; [done|].
  apply PV.accept_fresh in Hck as [Hnew Hin]. rewrite Hv in Ha. cbn in Ha.
  unfold shared_verify_platform_attestation in Ha. apply rguard_Ok in Ha as [Hp Ha]. zbool.
  destruct v as [ver app|ver pkg|site key].
  - destruct (PV.apple_verify _ _) eqn:Hx; try done. by apply PV.apple_never_accepts in Hx.
  - destruct (PV.android_verify _ _) eqn:Hx; try done. by apply PV.android_never_accepts in Hx.
  - destruct (PV.web_verify _) as [out|e|] eqn:Hx; try done.
    apply PV.web_verify_sound in Hx as (n & _ & _ & Hw). pose proof Hw as [_ (reg & ? & ? & ? & ? & ? & Hr & Hpk & Hlt & _)].
    injection Hr as <-. exists site, key, n. split_and!; try done.
    cbn in Hp. by destruct (platform (attestation req)).
Qed.

(** The entry point without a context refuses every request. *)
Lemma for_production_refuses req : verify_signed_unwrap_request_for_production req <> Ok tt.
Proof. unfold verify_signed_unwrap_request_for_production. intros Hv. res_inv Hv. by destruct (platform _). Qed.
End Theorems.

(** ** Witnesses *)
Definition w_site : string := "umbrella".
Definition w_key : list byte := replicate 32 Byte.x07.
Definition w_nonce : list byte := replicate 32 Byte.x09.
Definition w_auth : list byte := replicate 32 Byte.x00 ++ [Byte.x01] ++ to_be 4 5.
Definition w_web_codec : PV.WebCodec := {|
  PV.parse_token _ := Some {| PV.client_data_json := "c"; PV.authenticator_data := "a"; PV.signature := "s" |};
  PV.parse_client_data _ :=
    Some {| PV.kind := "webauthn.get"; PV.challenge := "n"; PV.origin := "https://umbrella" |};
  PV.decode_vec s :=
    if String.eqb s "c" then Some [] else if String.eqb s "a" then Some w_auth
    else if String.eqb s "s" then Some (w_key ++ replicate 32 Byte.x00) else Some w_nonce;
  PV.sha256 _ := replicate 32 Byte.x00
|}.
Definition w_attestation : PlatformAttestation := {| platform := Web; token := replicate 40 Byte.x05 |}.
Definition w_request : SignedUnwrapRequest := {|
  ephemeral_r := replicate 32 Byte.x01; chat_id := replicate 32 Byte.x02;
  recipient_device_pubkey := replicate 32 Byte.x03; timestamp_unix_millis := 1000000; server_nonce := w_nonce;
  attestation := w_attestation; device_signature := w_key ++ replicate 32 Byte.x05; device_pubkey := w_key |}.
Definition w_context : ProductionUnwrapVerificationContext := {|
  expected_server_nonce := w_nonce; server_nonce_issued_at_unix_millis := 999000; now_unix_millis := 1000500;
  freshness := freshness_default; device_state := Active 900000 500; envelope_timestamp_unix_millis := 600;
  platform_verifier := @shared_verifier w_web_codec toy_ed25519 (web w_site w_key 4) |}.
Definition w_guard : PV.NonceGuard BackupError (list (list byte)) := PV.list_guard ProductionServerNonceReplay.

Lemma w_policy : wf_policy freshness_default.
Proof. unfold wf_policy, is_u64, U64_MAX. simpl. lia. Qed.

Definition w_verify := @verify_signed_unwrap_request_for_production_with_context toy_ed25519 _ w_guard.

(** The request is accepted once, and the second time refused as a replay. *)
Example w_run : w_verify w_request w_context [] = (Ok tt, [w_nonce]) /\
  w_verify w_request w_context [w_nonce] = (Err ProductionServerNonceReplay, [w_nonce]).
Proof. by vm_compute. Qed.

(** An admissible request; and one from a revoked device with a nonce issued too long ago, which is
    refused for the nonce. *)
Definition w_stale_context : ProductionUnwrapVerificationContext := {|
  expected_server_nonce := w_nonce; server_nonce_issued_at_unix_millis := 0; now_unix_millis := 1000500;
  freshness := freshness_default; device_state := Revoked; envelope_timestamp_unix_millis := 600;
  platform_verifier := @shared_verifier w_web_codec toy_ed25519 (web w_site w_key 4) |}.

Lemma production_decision_witness :
  @admissible toy_ed25519 w_request w_context /\
  w_verify w_request w_stale_context [] =
    (Err (ProductionServerNonceExpired 1000500 (max_nonce_age_millis freshness_default)), []).
Proof.
  split.
  - eapply (proj1 (proj1 (@production_decision toy_ed25519 _ w_guard w_request w_context [] w_policy) [w_nonce])).
    vm_compute. reflexivity.
  - destruct (@production_decision toy_ed25519 _ w_guard w_request w_stale_context [] w_policy) as (_ & _ & Ha).
    unfold w_verify. rewrite Ha. vm_compute. reflexivity.
Defined.

Lemma production_nonce_once_witness :
  NoDup ((fun c => server_nonce c.1) <$> (PV.serve (fun c => w_verify c.1 c.2) [(w_request, w_context); (w_request, w_context)] []).1) /\
  length (PV.serve (fun c => w_verify c.1 c.2) [(w_request, w_context); (w_request, w_context)] []).1 = 1%nat.
Proof.
  split; [|by vm_compute].
  apply (@production_nonce_once toy_ed25519 _ w_guard). repeat constructor; apply w_policy.
Defined.

Lemma production_end_to_end_witness :
  exists n, 4 < n /\ ~ (w_nonce ∈ @nil (list byte)).
Proof.
  destruct (@production_end_to_end w_web_codec toy_ed25519 _ w_guard (web w_site w_key 4) w_request w_context
    [] [w_nonce] eq_refl w_policy) as (site & key & n & Hv & _ & _ & _ & Hn & _ & _ & Hnew & _).
  - vm_compute. reflexivity.
  - injection Hv as <- <-. by exists n.
Defined.

End CloudRequest.
