(* ===== verification/OprfRequest.v ===== *)
(** * Signed OPRF requests ([crates/umbrella-oprf/src/attestation.rs], [error.rs], [input.rs])

    The request a device sends to the servers of the oblivious PRF: error values, bounded
    inputs, attestation, signing input, sealing, signature check and the production check with
    its context.  The structure follows the source, which keeps this code parallel to the backup
    crate: the freshness window covers only the nonce, and the device must have been authorized
    before the nonce was issued.  A blinded request is its 32 wire bytes. *)
From S2P Require Import Prelude Bytes Crypto DeviceAuth PlatformVerifier.
Local Open Scope string_scope.
Local Open Scope list_scope.
Local Open Scope Z_scope.

Module OprfRequest.
Module PV := PlatformVerifier.

Inductive OprfError :=
| EmptyInput
| InputTooLarge (got max : Z)
| WrongWireLength (expected got : Z)
| InvalidRistrettoEncoding
| InvalidScalarEncoding
| VoprfInternal (what : string)
| CryptoVerificationFailed
| InsufficientValidEvaluations (valid required : Z)
| UnknownWitnessIndex (i : Z)
| DuplicateWitnessIndex (i : Z)
| InvalidBatchSize (got max : Z)
| DeviceSigning (what : string)
| InvalidAttestationShape
| ProductionAttestationVerifierUnavailable (platform_tag : Z)
| ProductionPlatformVerificationFailed (what : string)
| ProductionTestVerifierRejected
| ProductionServerNonceMismatch
| ProductionServerNonceReplay
| ProductionServerNonceExpired (age_millis max_age_millis : Z)
| ProductionServerNonceIssuedInFuture (skew_millis max_future_skew_millis : Z)
| ProductionDeviceUnknown
| ProductionDevicePendingAuthorization
| ProductionDeviceRevoked
| ProductionDeviceNotActiveYet (authorized_since_unix_millis nonce_issued_at_unix_millis : Z).

(** ** Inputs ([input.rs]) *)
Definition MAX_INPUT_BYTES : Z := 512.

Record OprfInput := { input_bytes : list byte }.

Definition input_new (bytes : list byte) : res OprfError OprfInput :=
  reject len bytes =? 0 with EmptyInput ;;
  reject MAX_INPUT_BYTES <? len bytes with InputTooLarge (len bytes) MAX_INPUT_BYTES ;;
  Ok {| input_bytes := bytes |}.

(** ** Blinded points on the wire ([primitives.rs]); [deserialize] of the group library is the
    argument. *)
Definition POINT_LEN : Z := 32.

Definition point_from_bytes (deserialize : list byte -> bool) (bytes : list byte) : res OprfError (list byte) :=
  reject negb (len bytes =? POINT_LEN) with WrongWireLength POINT_LEN (len bytes) ;;
  reject negb (deserialize bytes) with InvalidRistrettoEncoding ;;
  Ok bytes.

Definition MAX_ATTESTATION_TOKEN_BYTES : Z := 4096.
Definition SIGNATURE_DOMAIN_SEPARATOR : list byte := bytes_of_string "umbrellax-oprf-request-v1".
Definition WIRE_VERSION : Z := 1.
Definition NONCE_LEN : Z := 32.
Definition DEVICE_SIG_LEN : Z := 64.
Definition DEVICE_PUBKEY_LEN : Z := 32.

(** ** Platforms and attestations *)
Inductive Platform := IOs | Android | Web | Testing.
#[global] Instance Platform_eq_dec : EqDecision Platform.
Proof. solve_decision. Defined.

Definition tag (p : Platform) : Z := match p with IOs => 1 | Android => 2 | Web => 3 | Testing => 255 end.
Definition from_tag (t : Z) : option Platform :=
  if t =? 1 then Some IOs
  else if t =? 2 then Some Android
  else if t =? 3 then Some Web
  else if t =? 255 then Some Testing
  else None.

Record PlatformAttestation := { platform : Platform; token : list byte }.

(** [heapless::Vec::extend_from_slice] with its capacity. *)
Definition hvec_extend (cap : Z) (v x : list byte) : option (list byte) :=
  if cap <? len v + len x then None else Some (v ++ x).

Definition attestation_new (p : Platform) (token_bytes : list byte) : res OprfError PlatformAttestation :=
  reject (len token_bytes =? 0) || (MAX_ATTESTATION_TOKEN_BYTES <? len token_bytes) with InvalidAttestationShape ;;
  let? t := ok_or (hvec_extend MAX_ATTESTATION_TOKEN_BYTES [] token_bytes) InvalidAttestationShape in
  Ok {| platform := p; token := t |}.

(** [trait AttestationProvider]. *)
Definition AttestationProvider : Type := list byte -> res OprfError PlatformAttestation.

Record TestingAttestationProvider := { prefix : list byte }.

Definition testing_new (p : list byte) : res OprfError TestingAttestationProvider :=
  let to_take := Z.min (len p) 64 in
  let? x := slice 0 to_take p in
  match hvec_extend 64 [] x with
  | Some v => Ok {| prefix := v |}
  | None => Panic
  end.

Definition testing_default : res OprfError TestingAttestationProvider :=
  testing_new (bytes_of_string "umbrellax-test-attestation").

Definition testing_fresh_token (p : TestingAttestationProvider) : AttestationProvider := fun nonce =>
  let? buf := ok_or (hvec_extend MAX_ATTESTATION_TOKEN_BYTES [] (prefix p)) InvalidAttestationShape in
  let? buf := ok_or (hvec_extend MAX_ATTESTATION_TOKEN_BYTES buf nonce) InvalidAttestationShape in
  Ok {| platform := Testing; token := buf |}.

(** ** Requests *)
Definition canonical_signing_input (blinded : list byte) (attestation : PlatformAttestation) (nonce : list byte)
  : list byte :=
  SIGNATURE_DOMAIN_SEPARATOR ++ [as_u8 WIRE_VERSION] ++ blinded ++ [as_u8 (tag (platform attestation))] ++
  to_be 4 (wrap32 (len (token attestation))) ++ token attestation ++ nonce.

Record SignedOprfRequest := {
  blinded : list byte;
  attestation : PlatformAttestation;
  nonce : list byte;
  device_signature : list byte;
  device_pubkey : list byte
}.

Definition signing_input (req : SignedOprfRequest) : list byte :=
  canonical_signing_input (blinded req) (attestation req) (nonce req).

Definition seal_request (b : list byte) (attestation_provider : AttestationProvider) (n : list byte)
    (signer : list byte -> res OprfError (list byte)) (device_pubkey_bytes : list byte)
  : res OprfError SignedOprfRequest :=
  let? att := attestation_provider n in
  let canonical := canonical_signing_input b att n in
  let? signature := signer canonical in
  Ok {| blinded := b; attestation := att; nonce := n; device_signature := signature;
        device_pubkey := device_pubkey_bytes |}.

Definition verify_signed_request `{Ed25519} (req : SignedOprfRequest) : res OprfError unit :=
  reject negb (vk_valid (device_pubkey req)) with InvalidRistrettoEncoding ;;
  if ed_verify (device_pubkey req) (signing_input req) (device_signature req) then Ok tt
  else Err CryptoVerificationFailed.

(** ** The production check *)
Record ProductionFreshnessPolicy := { max_nonce_age_millis : Z; max_future_skew_millis : Z }.
Definition freshness_default : ProductionFreshnessPolicy :=
  {| max_nonce_age_millis := 5 * 60 * 1000; max_future_skew_millis := 30 * 1000 |}.

Inductive ProductionDeviceState :=
| Unknown
| Pending
| Revoked
| Active (authorized_since_unix_millis : Z)
| BootstrapActive (authorized_since_unix_millis : Z).

Inductive PlatformVerifierKind := Unavailable | AppleAppAttest | AndroidPlayIntegrity | WebAuthn | TestOnly.
#[global] Instance PlatformVerifierKind_eq_dec : EqDecision PlatformVerifierKind.
Proof. solve_decision. Defined.

Record PlatformVerificationInput := {
  in_platform : Platform;
  in_token : list byte;
  in_server_nonce : list byte;
  in_device_pubkey : list byte;
  in_now_unix_millis : Z
}.

(** [trait ProductionPlatformVerifier]. *)
Record ProductionPlatformVerifier := {
  kind : PlatformVerifierKind;
  verify_platform_attestation : PlatformVerificationInput -> res OprfError unit
}.

Definition UnavailableProductionPlatformVerifier : ProductionPlatformVerifier := {|
  kind := Unavailable;
  verify_platform_attestation input := Err (ProductionAttestationVerifierUnavailable (tag (in_platform input)))
|}.

Inductive SharedPlatformVerifierForOprf :=
| SharedApple (verifier : PV.AppleAppAttestVerifier) (app_id : string)
| SharedAndroid (verifier : PV.AndroidPlayIntegrityVerifier) (package_name : string)
| SharedWeb (site : string) (registered_key : PV.RegisteredPlatformKey).

Definition web (site : string) (public_key : list byte) (last_counter : Z) : SharedPlatformVerifierForOprf :=
  SharedWeb site {| PV.public_key := public_key; PV.last_counter := last_counter |}.

Definition request_platform_kind (p : Platform) : option PlatformVerifierKind :=
  match p with
  | IOs => Some AppleAppAttest
  | Android => Some AndroidPlayIntegrity
  | Web => Some WebAuthn
  | Testing => None
  end.

Definition oprf_platform_error (err : PV.PlatformVerifierError) : OprfError :=
  ProductionPlatformVerificationFailed (PV.to_string err).

Definition shared_kind (v : SharedPlatformVerifierForOprf) : PlatformVerifierKind :=
  match v with
  | SharedApple _ _ => AppleAppAttest
  | SharedAndroid _ _ => AndroidPlayIntegrity
  | SharedWeb _ _ => WebAuthn
  end.

Section Production.
Context `{PV.WebCodec} `{Ed25519}.

Definition shared_context (k : PV.PlatformKind) (input : PlatformVerificationInput) (app : string)
    (key : option PV.RegisteredPlatformKey) : PV.PlatformVerificationContext :=
  {| PV.platform := k; PV.token := in_token input; PV.server_nonce := in_server_nonce input;
     PV.device_pubkey := in_device_pubkey input; PV.app_or_site := app;
     PV.now_unix_millis := in_now_unix_millis input; PV.registered_key := key |}.

Definition shared_verify_platform_attestation (v : SharedPlatformVerifierForOprf)
    (input : PlatformVerificationInput) : res OprfError unit :=
  reject negb (bool_decide (request_platform_kind (in_platform input) = Some (shared_kind v)))
    with oprf_platform_error PV.PlatformMismatch ;;
  match v with
  | SharedApple verifier app_id =>
      rmap_err oprf_platform_error (rmap (fun _ => tt)
        (PV.apple_verify verifier (shared_context PV.AppleAppAttest input app_id None)))
  | SharedAndroid verifier package_name =>
      rmap_err oprf_platform_error (rmap (fun _ => tt)
        (PV.android_verify verifier (shared_context PV.AndroidPlayIntegrity input package_name None)))
  | SharedWeb site registered_key =>
      rmap_err oprf_platform_error (rmap (fun _ => tt)
        (PV.web_verify (shared_context PV.WebAuthn input site (Some registered_key))))
  end.

Definition shared_verifier (v : SharedPlatformVerifierForOprf) : ProductionPlatformVerifier :=
  {| kind := shared_kind v; verify_platform_attestation := shared_verify_platform_attestation v |}.

Record ProductionOprfVerificationContext := {
  expected_server_nonce : list byte;
  server_nonce_issued_at_unix_millis : Z;
  now_unix_millis : Z;
  freshness : ProductionFreshnessPolicy;
  device_state : ProductionDeviceState;
  platform_verifier : ProductionPlatformVerifier
}.

Definition context_new (expected : list byte) (issued now : Z) (fresh : ProductionFreshnessPolicy)
    (state : ProductionDeviceState) (verifier : ProductionPlatformVerifier)
  : res OprfError ProductionOprfVerificationContext :=
  reject bool_decide (kind verifier = TestOnly) with ProductionTestVerifierRejected ;;
  Ok {| expected_server_nonce := expected; server_nonce_issued_at_unix_millis := issued;
        now_unix_millis := now; freshness := fresh; device_state := state; platform_verifier := verifier |}.

Definition check_production_nonce (request_nonce expected_nonce : list byte) : res OprfError unit :=
  reject negb (bool_decide (request_nonce = expected_nonce)) with ProductionServerNonceMismatch ;;
  Ok tt.

Definition check_production_freshness (nonce_issued_at now : Z) (f : ProductionFreshnessPolicy)
  : res OprfError unit :=
  if now <? nonce_issued_at then
    let skew := nonce_issued_at - now in
    reject max_future_skew_millis f <? skew
      with ProductionServerNonceIssuedInFuture skew (max_future_skew_millis f) ;;
    Ok tt
  else
    let age := now - nonce_issued_at in
    reject max_nonce_age_millis f <? age with ProductionServerNonceExpired age (max_nonce_age_millis f) ;;
    Ok tt.

Definition check_production_device_state (state : ProductionDeviceState) (nonce_issued_at : Z)
  : res OprfError unit :=
  let? authorized_since :=
    match state with
    | Unknown => Err ProductionDeviceUnknown
    | Pending => Err ProductionDevicePendingAuthorization
    | Revoked => Err ProductionDeviceRevoked
    | Active since | BootstrapActive since => Ok since
    end in
  reject nonce_issued_at <? authorized_since
    with ProductionDeviceNotActiveYet authorized_since nonce_issued_at ;;
  Ok tt.

Definition verification_input (req : SignedOprfRequest) (now : Z) : PlatformVerificationInput :=
  {| in_platform := platform (attestation req); in_token := token (attestation req);
     in_server_nonce := nonce req; in_device_pubkey := device_pubkey req; in_now_unix_millis := now |}.

Context {G : Type} `{!PV.NonceGuard OprfError G}.

Definition verify_signed_request_for_production_with_context (req : SignedOprfRequest)
    (ctx : ProductionOprfVerificationContext) : st G OprfError unit :=
  let! _ := slift (verify_signed_request req) in
  let! _ := slift (check_production_nonce (nonce req) (expected_server_nonce ctx)) in
  let! _ := slift (check_production_freshness (server_nonce_issued_at_unix_millis ctx)
                     (now_unix_millis ctx) (freshness ctx)) in
  let! _ := slift (check_production_device_state (device_state ctx) (server_nonce_issued_at_unix_millis ctx)) in
  match platform (attestation req) with
  | Testing => slift (Err CryptoVerificationFailed)
  | IOs | Android | Web =>
      let! _ := slift (verify_platform_attestation (platform_verifier ctx)
                         (verification_input req (now_unix_millis ctx))) in
      PV.check_and_record_nonce (nonce req) (now_unix_millis ctx)
  end.

Definition verify_signed_request_for_production (req : SignedOprfRequest) : res OprfError unit :=
  let? _ := verify_signed_request req in
  match platform (attestation req) with
  | Testing => Err CryptoVerificationFailed
  | p => Err (ProductionAttestationVerifierUnavailable (tag p))
  end.
End Production.

(** ** What the signature covers *)
Record wf_attestation (a : PlatformAttestation) : Prop := {
  wat_token : 0 < len (token a) <= MAX_ATTESTATION_TOKEN_BYTES
}.
Record wf_request (r : SignedOprfRequest) : Prop := {
  wor_blinded : len (blinded r) = 32;
  wor_att : wf_attestation (attestation r);
  wor_nonce : len (nonce r) = 32
}.

Lemma oprf_from_tag_tag p : from_tag (tag p) = Some p.
Proof. by destruct p. Qed.
Lemma oprf_tag_u8 p : is_u8 (tag p).
Proof. unfold is_u8, U8_MAX. destruct p; simpl; lia. Qed.
Lemma oprf_tag_inj p q : tag p = tag q -> p = q.
Proof. intros Ht. apply (f_equal from_tag) in Ht. rewrite !oprf_from_tag_tag in Ht. congruence. Qed.

Lemma oprf_token_len_u32 a : wf_attestation a -> wrap32 (len (token a)) = len (token a) /\ is_u32 (len (token a)).
Proof.
  intros [Ht]. unfold MAX_ATTESTATION_TOKEN_BYTES in Ht.
  assert (is_u32 (len (token a))) by (unfold is_u32, U32_MAX; lia). split; [by apply wrap32_id|done].
Qed.

Lemma oprf_signing_input_inj r1 r2 :
  wf_request r1 -> wf_request r2 -> signing_input r1 = signing_input r2 ->
  blinded r1 = blinded r2 /\ attestation r1 = attestation r2 /\ nonce r1 = nonce r2.
Proof.
  intros [B1 A1 N1] [B2 A2 N2] He.
  destruct (oprf_token_len_u32 _ A1) as [W1 U1], (oprf_token_len_u32 _ A2) as [W2 U2].
  unfold signing_input, canonical_signing_input in He. rewrite W1, W2 in He.
  peel He E0. peel He E1. peel He E2. peel He E3. peel He E4. injection E3 as E3.
  apply (f_equal u8) in E3. rewrite !DeviceAuth.u8_as_u8_id in E3 by apply oprf_tag_u8. apply oprf_tag_inj in E3.
  apply (f_equal from_be) in E4. rewrite !from_be_to_be_u32 in E4 by done. peel He E5.
  split_and!; try done. destruct (attestation r1), (attestation r2). cbn in *. congruence.
Qed.

(** ** The production policy, stated without the order of the checks *)
Section Policy.
Context `{PV.WebCodec} `{Ed25519}.

Definition device_allowed (state : ProductionDeviceState) (issued : Z) : Prop :=
  match state with
  | Active since | BootstrapActive since => since <= issued
  | _ => False
  end.

Definition wf_policy (f : ProductionFreshnessPolicy) : Prop :=
  is_u64 (max_nonce_age_millis f) /\ is_u64 (max_future_skew_millis f).

Record admissible (req : SignedOprfRequest) (ctx : ProductionOprfVerificationContext) : Prop := {
  adm_sig : sig_ok (device_pubkey req) (signing_input req) (device_signature req) = true;
  adm_nonce : nonce req = expected_server_nonce ctx;
  adm_old : now_unix_millis ctx - server_nonce_issued_at_unix_millis ctx <= max_nonce_age_millis (freshness ctx);
  adm_skew : server_nonce_issued_at_unix_millis ctx - now_unix_millis ctx <= max_future_skew_millis (freshness ctx);
  adm_device : device_allowed (device_state ctx) (server_nonce_issued_at_unix_millis ctx);
  adm_platform : platform (attestation req) <> Testing;
  adm_attested : verify_platform_attestation (platform_verifier ctx)
                   (verification_input req (now_unix_millis ctx)) = Ok tt
}.

Lemma oprf_verify_signed_Ok req :
  verify_signed_request req = Ok tt <->
  sig_ok (device_pubkey req) (signing_input req) (device_signature req) = true.
Proof. unfold verify_signed_request, sig_ok. destruct (vk_valid _), (ed_verify _ _ _); simpl; naive_solver. Qed.

Lemma oprf_check_nonce_Ok a b : check_production_nonce a b = Ok tt <-> a = b.
Proof. unfold check_production_nonce. case_bool_decide; simpl; naive_solver. Qed.

Lemma oprf_check_freshness_Ok issued now f :
  wf_policy f ->
  check_production_freshness issued now f = Ok tt <->
  now - issued <= max_nonce_age_millis f /\ issued - now <= max_future_skew_millis f.
Proof.
  unfold wf_policy, is_u64, check_production_freshness, rguard. intros (Ha & Hs).
  repeat case_match; zbool; simpl; split; try done; lia.
Qed.

Lemma oprf_check_device_Ok s issued : check_production_device_state s issued = Ok tt <-> device_allowed s issued.
Proof.
  unfold check_production_device_state, device_allowed, rguard.
  destruct s; simpl; try (split; done); repeat case_match; split; try done; zbool; try lia.
Qed.

Context {G : Type} `{!PV.NonceGuard OprfError G}.

Ltac refuse := intros [= <- <-]; left; split; [intros []; intuition congruence|done].

Lemma oprf_production_gate req ctx (g g' : G) r :
  wf_policy (freshness ctx) ->
  verify_signed_request_for_production_with_context req ctx g = (r, g') ->
  (~ admissible req ctx /\ r <> Ok tt /\ g' = g) \/
  (admissible req ctx /\ PV.check_and_record_nonce (nonce req) (now_unix_millis ctx) g = (r, g')).
Proof.
  intros Hf. unfold verify_signed_request_for_production_with_context, sbind, slift.
  pose proof (oprf_verify_signed_Ok req) as V. pose proof (oprf_check_nonce_Ok (nonce req) (expected_server_nonce ctx)) as N.
  pose proof (oprf_check_freshness_Ok (server_nonce_issued_at_unix_millis ctx) (now_unix_millis ctx) _ Hf) as F.
  pose proof (oprf_check_device_Ok (device_state ctx) (server_nonce_issued_at_unix_millis ctx)) as D.
  destruct (verify_signed_request req) as [[]|e|]; [|refuse..].
  destruct (check_production_nonce _ _) as [[]|e|]; [|refuse..].
  destruct (check_production_freshness _ _ _) as [[]|e|]; [|refuse..].
  destruct (check_production_device_state _ _) as [[]|e|]; [|refuse..].
  destruct (verify_platform_attestation _ _) as [[]|e|] eqn:A;
    destruct (platform (attestation req)) eqn:P; try refuse;
    intros Hc; right; (split; [|exact Hc]); split; try tauto; try done; congruence.
Qed.

(** Accepted requests of the web platform: what the adapter guarantees. *)
Lemma shared_accepts v input :
  shared_verify_platform_attestation v input = Ok tt ->
  exists site key n, v = SharedWeb site key /\ in_platform input = Web /\
    PV.web_assertion (shared_context PV.WebAuthn input site (Some key)) n /\
    PV.public_key key = in_device_pubkey input /\ PV.last_counter key < n.
Proof.
  unfold shared_verify_platform_attestation. intros Ha. apply rguard_Ok in Ha as [Hp Ha]. zbool.
  destruct v as [ver app|ver pkg|site key].
  - destruct (PV.apple_verify _ _) eqn:Hx; try done. by apply PV.apple_never_accepts in Hx.
  - destruct (PV.android_verify _ _) eqn:Hx; try done. by apply PV.android_never_accepts in Hx.
  - destruct (PV.web_verify _) as [out|e|] eqn:Hx; try done.
    apply PV.web_verify_sound in Hx as (n & _ & _ & Hw). pose proof Hw as [_ (reg & ? & ? & ? & ? & ? & Hr & Hpk & Hlt & _)].
    injection Hr as <-. exists site, key, n. split_and!; try done.
    cbn in Hp. by destruct (in_platform input).
Qed.
End Policy.

(** ** Theorems *)
Section Theorems.
Context `{PV.WebCodec} `{Ed25519} {G : Type} `{!PV.NonceGuard OprfError G}.

(** Production check of OPRF requests: across any sequence of requests and contexts the
    accepted ones carry distinct nonces that the guard had not seen; each satisfies the whole
    policy (signature over the blinded point, attestation and nonce; expected nonce; nonce
    inside its window; device authorized before the nonce was issued), and with the verifiers of
    the platform crate each is a web request whose WebAuthn assertion under the same device key
    names the same nonce. *)
Theorem oprf_production_sound (calls : list (SignedOprfRequest * ProductionOprfVerificationContext)) (g : G)
    (Hf : Forall (fun c => wf_policy (freshness c.2)) calls) :
  let ok := (PV.serve (fun c => verify_signed_request_for_production_with_context c.1 c.2) calls g).1 in
  NoDup ((fun c => nonce c.1) <$> ok) /\
  forall c, c ∈ ok ->
    ~ PV.accepted g (nonce c.1) /\ admissible c.1 c.2 /\
    forall v, platform_verifier c.2 = shared_verifier v ->
      exists site key n, v = SharedWeb site key /\ platform (attestation c.1) = Web /\
        PV.web_assertion
          (shared_context PV.WebAuthn (verification_input c.1 (now_unix_millis c.2)) site (Some key)) n /\
        PV.public_key key = device_pubkey c.1 /\ PV.last_counter key < n.
Proof.
  cbn zeta. set (call := fun c => verify_signed_request_for_production_with_context (G := G) c.1 c.2).
  destruct (PV.serve call calls g) as [ok g'] eqn:Hs. cbn [fst].
  assert (Hgate : Forall (fun c => forall g r g1, call c g = (r, g1) ->
     (g1 = g /\ r <> Ok tt) \/
     (admissible c.1 c.2 /\ exists t, PV.check_and_record_nonce (nonce c.1) t g = (r, g1))) calls).
  { eapply Forall_impl; [exact Hf|]. intros c Hc g0 r g1 Hv. apply oprf_production_gate in Hv; [|done].
    destruct Hv as [(_ & Hr & ->)|[Ha Hck]]; [by left|right; eauto]. }
  destruct (PV.serve_nonces_on call (fun c => nonce c.1) (fun c => admissible c.1 c.2) calls g ok g' Hgate Hs)
    as (Hnd & Hall & _).
  split; [done|]. intros c Hc. destruct (Hall c Hc) as [Hnew Ha]. split; [done|]. split; [done|].
  intros v Hv. destruct Ha as [_ _ _ _ _ _ Hat]. rewrite Hv in Hat. by apply shared_accepts in Hat.
Qed.

(** The signed bytes determine the blinded point, the attestation and the nonce. *)
Lemma oprf_signature_binds r1 r2 :
  wf_request r1 -> wf_request r2 -> signing_input r1 = signing_input r2 ->
  r2 = {| blinded := blinded r1; attestation := attestation r1; nonce := nonce r1;
          device_signature := device_signature r2; device_pubkey := device_pubkey r2 |}.
Proof. intros Hr1 Hr2 (-> & -> & ->)%oprf_signing_input_inj; [by destruct r2|done..]. Qed.
End Theorems.

(** ** Witnesses *)
Definition w_site : string := "umbrella".
Definition w_key : list byte := replicate 32 Byte.x07.
Definition w_nonce : list byte := replicate 32 Byte.x09.
Definition w_auth : list byte := replicate 32 Byte.x00 ++ [Byte.x01] ++ to_be 4 5.
Definition w_web_codec : PV.WebCodec := {|
  PV.parse_token _ := Some {| PV.client_data_json := "c"; PV.authenticator_data := "a"; PV.signature := "s" |};
  PV.parse_client_data _ :=
    Some {| PV.kind := "webauthn.get"; PV.challenge := "n"; PV.origin := "https://umbrella" |};
  PV.decode_vec s :=
    if String.eqb s "c" then Some [] else if String.eqb s "a" then Some w_auth
    else if String.eqb s "s" then Some (w_key ++ replicate 32 Byte.x00) else Some w_nonce;
  PV.sha256 _ := replicate 32 Byte.x00
|}.
Definition w_attestation : PlatformAttestation := {| platform := Web; token := replicate 40 Byte.x05 |}.
Definition w_request : SignedOprfRequest := {|
  blinded := replicate 32 Byte.x01; attestation := w_attestation; nonce := w_nonce;
  device_signature := w_key ++ w_nonce; device_pubkey := w_key |}.
Definition w_context : ProductionOprfVerificationContext := {|
  expected_server_nonce := w_nonce; server_nonce_issued_at_unix_millis := 999000; now_unix_millis := 1000500;
  freshness := freshness_default; device_state := Active 900000;
  platform_verifier := @shared_verifier w_web_codec toy_ed25519 (web w_site w_key 4) |}.
Definition w_guard : PV.NonceGuard OprfError (list (list byte)) := PV.list_guard ProductionServerNonceReplay.
Definition w_verify := @verify_signed_request_for_production_with_context toy_ed25519 _ w_guard.
Definition w_calls := [(w_request, w_context); (w_request, w_context)].

Lemma oprf_production_sound_witness :
  length (PV.serve (fun c => w_verify c.1 c.2) w_calls []).1 = 1%nat /\
  forall c, c ∈ (PV.serve (fun c => w_verify c.1 c.2) w_calls []).1 -> ~ (nonce c.1 ∈ @nil (list byte)).
Proof.
  split; [by vm_compute|]. intros c Hc.
  apply (@oprf_production_sound w_web_codec toy_ed25519 _ w_guard w_calls []); [|exact Hc].
  repeat constructor; simpl; unfold U64_MAX; lia.
Defined.

End OprfRequest.
