(* ===== verification/Dkg.v ===== *)
(** * Distributed key generation and threshold signing
    ([crates/umbrella-threshold-identity/src/dkg.rs], [signing.rs])

    The three rounds of a participant with their checks, the in-process runs that route every
    message of the protocol, and signing by a subset of the participants.  FROST is a parameter
    with its laws for honest runs; what is proved is that the code routes the packages so that
    these laws apply, and how the results depend on the number of signers. *)
From S2P Require Import Prelude Bytes Pq ThresholdIdentity.
From stdpp Require Import sorting.
Local Open Scope string_scope.
Local Open Scope list_scope.
Local Open Scope Z_scope.

Module Dkg.
Import ThresholdIdentity.

(** [frost_ed25519]; a failure is given by its text.  [L] is the generator [ChaCha20Rng]. *)
Class FrostLib := {
  Identifier : Type; id_eq :: EqDecision Identifier; id_count :: Countable Identifier; id_leb : Identifier -> Identifier -> bool;
  try_from : Z -> res string Identifier;
  L : Type; from_seed : list byte -> L;
  R1Secret : Type; R1Package : Type; R2Secret : Type; R2Package : Type; KeyPackage : Type; PublicKeyPackage : Type;
  VerifyingKey : Type; vk_eq :: EqDecision VerifyingKey;
  part1 : Identifier -> Z -> Z -> L -> res string (R1Secret * R1Package);
  part2 : R1Secret -> gmap Identifier R1Package -> res string (R2Secret * gmap Identifier R2Package);
  part3 : R2Secret -> gmap Identifier R1Package -> gmap Identifier R2Package -> res string (KeyPackage * PublicKeyPackage);
  identifier_of : KeyPackage -> Identifier; verifying_key : PublicKeyPackage -> VerifyingKey;
  Nonces : Type; Commitments : Type; SigningPackage : Type; SignatureShare : Type; Signature : Type;
  commit : forall {R}, Pq.Rng R -> KeyPackage -> R -> (Nonces * Commitments) * R;
  signing_package_new : gmap Identifier Commitments -> list byte -> SigningPackage;
  frost_sign : SigningPackage -> Nonces -> KeyPackage -> res string SignatureShare;
  frost_aggregate : SigningPackage -> gmap Identifier SignatureShare -> PublicKeyPackage -> res string Signature;
  verify : VerifyingKey -> list byte -> Signature -> bool
}.

Section Dkg.
Context `{FrostLib}.
(** [From<frost_ed25519::Error>]. *)
Definition frost {A} (r : res string A) : res ThresholdIdentityError A := rmap_err Frost r.
(** A [BTreeMap] is iterated in the order of its keys. *)
Definition btree_entries {A} (m : gmap Identifier A) : list (Identifier * A) :=
  merge_sort (fun x y => Is_true (id_leb x.1 y.1)) (map_to_list m).

(** ** Key generation *)
Record DkgParticipant := { identifier : Identifier; max_signers : Z; min_signers : Z }.
Definition participant_new (index max_signers min_signers : Z) : res ThresholdIdentityError DkgParticipant :=
  reject (index =? 0) || (max_signers <? index) with DkgAborted "identifier index out of range" ;;
  reject (min_signers =? 0) || (max_signers <? min_signers) with DkgAborted "threshold out of range" ;;
  let? identifier := frost (try_from index) in
  Ok {| identifier := identifier; max_signers := max_signers; min_signers := min_signers |}.
Record Round1Output := { r1_secret : R1Secret; broadcast : R1Package }.
Record Round2Output := { r2_secret : R2Secret; point_to_point : gmap Identifier R2Package }.
Record Round3Output := { key_package : KeyPackage; public_key_package : PublicKeyPackage }.
Definition round1 (p : DkgParticipant) (rng : L) : res ThresholdIdentityError Round1Output :=
  let? (secret, broadcast) := frost (part1 (identifier p) (max_signers p) (min_signers p) rng) in
  Ok {| r1_secret := secret; broadcast := broadcast |}.
(** [max_signers - 1] is taken in [usize]; a participant has at least one signer. *)
Definition round2 (p : DkgParticipant) (round1_secret : R1Secret) (round1_packages : gmap Identifier R1Package)
  : res ThresholdIdentityError Round2Output :=
  reject bool_decide (is_Some (round1_packages !! identifier p)) with DkgAborted "round1_packages contains self identifier" ;;
  reject negb (Z.of_nat (size round1_packages) =? max_signers p - 1) with DkgAborted "round1_packages cardinality mismatch" ;;
  let? (secret, point_to_point) := frost (part2 round1_secret round1_packages) in
  Ok {| r2_secret := secret; point_to_point := point_to_point |}.
Definition round3 (p : DkgParticipant) (round2_secret : R2Secret) (round1_packages : gmap Identifier R1Package)
  (round2_packages : gmap Identifier R2Package) : res ThresholdIdentityError Round3Output :=
  reject bool_decide (is_Some (round1_packages !! identifier p)) with DkgAborted "round1_packages contains self identifier" ;;
  reject bool_decide (is_Some (round2_packages !! identifier p)) with DkgAborted "round2_packages contains self identifier" ;;
  let? (key_package, public_key_package) := frost (part3 round2_secret round1_packages round2_packages) in
  Ok {| key_package := key_package; public_key_package := public_key_package |}.

(** [(1..=n).map(...).collect()]. *)
Fixpoint participants_from (l : list Z) (n t : Z) : res ThresholdIdentityError (list DkgParticipant) :=
  match l with
  | [] => Ok []
  | i :: l => let? p := participant_new i n t in let? ps := participants_from l n t in Ok (p :: ps)
  end.
Section Rng.
Context {R : Type} {RG : Pq.Rng R}.
Definition derive_subrng : st R ThresholdIdentityError L := fun r =>
  let '(seed, r) := Pq.fill_bytes 32 r in (Ok (from_seed seed), r).
(** The three loops. *)
Fixpoint round1_all (ps : list DkgParticipant) (secrets : gmap Identifier R1Secret) (broadcasts : gmap Identifier R1Package)
  : st R ThresholdIdentityError (gmap Identifier R1Secret * gmap Identifier R1Package) :=
  match ps with
  | [] => sret (secrets, broadcasts)
  | p :: ps =>
      let! local_rng := derive_subrng in
      let! out := slift (round1 p local_rng) in
      round1_all ps (<[identifier p := r1_secret out]> secrets) (<[identifier p := broadcast out]> broadcasts)
  end.
End Rng.
(** [p2p_inbox.entry(recipient).or_default().insert(sender, pkg)] for every package. *)
Definition deliver (sender : Identifier) (packages : list (Identifier * R2Package)) (inbox : gmap Identifier (gmap Identifier R2Package))
  : gmap Identifier (gmap Identifier R2Package) :=
  foldl (fun inbox '(recipient, pkg) => <[recipient := <[sender := pkg]> (default ∅ (inbox !! recipient))]> inbox) inbox packages.
Fixpoint round2_all (ps : list DkgParticipant) (broadcasts : gmap Identifier R1Package) (secrets1 : gmap Identifier R1Secret)
  (secrets2 : gmap Identifier R2Secret) (inbox : gmap Identifier (gmap Identifier R2Package))
  : res ThresholdIdentityError (gmap Identifier R2Secret * gmap Identifier (gmap Identifier R2Package)) :=
  match ps with
  | [] => Ok (secrets2, inbox)
  | p :: ps =>
      let their_round1_packages := delete (identifier p) broadcasts in
      let? secret := ok_or (secrets1 !! identifier p) (DkgAborted "missing round1 secret") in
      let secrets1 := delete (identifier p) secrets1 in
      let? out := round2 p secret their_round1_packages in
      round2_all ps broadcasts secrets1 (<[identifier p := r2_secret out]> secrets2)
        (deliver (identifier p) (btree_entries (point_to_point out)) inbox)
  end.
Fixpoint round3_all (ps : list DkgParticipant) (broadcasts : gmap Identifier R1Package) (secrets2 : gmap Identifier R2Secret)
  (inbox : gmap Identifier (gmap Identifier R2Package)) (key_packages : list KeyPackage) (shared : option PublicKeyPackage)
  : res ThresholdIdentityError (list KeyPackage * option PublicKeyPackage) :=
  match ps with
  | [] => Ok (key_packages, shared)
  | p :: ps =>
      let their_round1_packages := delete (identifier p) broadcasts in
      let their_round2_packages := default ∅ (inbox !! identifier p) in
      let? secret := ok_or (secrets2 !! identifier p) (DkgAborted "missing round2 secret") in
      let? out := round3 p secret their_round1_packages their_round2_packages in
      let key_packages := key_packages ++ [key_package out] in
      match shared with
      | None => round3_all ps broadcasts secrets2 inbox key_packages (Some (public_key_package out))
      | Some prev =>
          reject negb (bool_decide (verifying_key prev = verifying_key (public_key_package out)))
            with DkgAborted "PublicKeyPackage divergence between participants" ;;
          round3_all ps broadcasts secrets2 inbox key_packages shared
      end
  end.
Definition run_in_process_dkg {R} {RG : Pq.Rng R} (n t : Z) : st R ThresholdIdentityError (list KeyPackage * PublicKeyPackage) :=
  fail_if (n =? 0) || (t =? 0) || (n <? t) with DkgAborted "invalid n/t parameters" ;;
  let! participants := slift (participants_from (seqZ 1 n) n t) in
  let! (round1_secrets, round1_broadcasts) := round1_all participants ∅ ∅ in
  let! (round2_secrets, p2p_inbox) := slift (round2_all participants round1_broadcasts round1_secrets ∅ ∅) in
  let! (key_packages, shared_pubkey_package) := slift (round3_all participants round1_broadcasts round2_secrets p2p_inbox [] None) in
  let! public_key_package := slift (ok_or shared_pubkey_package (DkgAborted "no PublicKeyPackage")) in
  sret (key_packages, public_key_package).

(** ** Signing *)
Record Round1SigningOutput := { nonces : Nonces; commitments : Commitments }.
Definition sign_round1 {R} {RG : Pq.Rng R} (kp : KeyPackage) : st R ThresholdIdentityError Round1SigningOutput := fun r =>
  let '((n, c), r) := commit RG kp r in (Ok {| nonces := n; commitments := c |}, r).
Definition sign_round2 (kp : KeyPackage) (n : Nonces) (sp : SigningPackage) : res ThresholdIdentityError SignatureShare := frost (frost_sign sp n kp).
Definition assemble_signing_package (cs : gmap Identifier Commitments) (message : list byte) : SigningPackage := signing_package_new cs message.
Definition aggregate (sp : SigningPackage) (shares : gmap Identifier SignatureShare) (pkp : PublicKeyPackage) : res ThresholdIdentityError Signature :=
  frost (frost_aggregate sp shares pkp).
Fixpoint commit_all {R} {RG : Pq.Rng R} (all_key_packages : list KeyPackage) (signer_indices : list Z) (cs : gmap Identifier Commitments)
  (ns : gmap Identifier Nonces) (kps : gmap Identifier KeyPackage)
  : st R ThresholdIdentityError (gmap Identifier Commitments * gmap Identifier Nonces * gmap Identifier KeyPackage) :=
  match signer_indices with
  | [] => sret (cs, ns, kps)
  | idx :: signer_indices =>
      let! kp := slift (ok_or (all_key_packages !! Z.to_nat idx) (SignFailed "signer index out of range")) in
      let ident := identifier_of kp in
      let! out := sign_round1 kp in
      commit_all all_key_packages signer_indices (<[ident := commitments out]> cs) (<[ident := nonces out]> ns) (<[ident := kp]> kps)
  end.
Fixpoint share_all (l : list (Identifier * KeyPackage)) (ns : gmap Identifier Nonces) (sp : SigningPackage) (shares : gmap Identifier SignatureShare)
  : res ThresholdIdentityError (gmap Identifier SignatureShare) :=
  match l with
  | [] => Ok shares
  | (ident, kp) :: l =>
      let? n := ok_or (ns !! ident) (SignFailed "missing nonces") in
      let? share := sign_round2 kp n sp in
      share_all l ns sp (<[ident := share]> shares)
  end.
Definition run_in_process_sign {R} {RG : Pq.Rng R} (all_key_packages : list KeyPackage) (pkp : PublicKeyPackage) (signer_indices : list Z)
  (message : list byte) : st R ThresholdIdentityError Signature :=
  fail_if bool_decide (signer_indices = []) with SignFailed "no signers specified" ;;
  let! (cs, ns, kps) := commit_all all_key_packages signer_indices ∅ ∅ ∅ in
  let signing_package := assemble_signing_package cs message in
  let! shares := slift (share_all (btree_entries kps) ns signing_package ∅) in
  slift (aggregate signing_package shares pkp).
End Dkg.

(** ** What FROST promises of honest runs *)
Section Spec.
Context `{FrostLib}.
(** The first round of [n] participants with threshold [t]. *)
Definition session (n t : Z) (s1 : gmap Identifier (R1Secret * R1Package)) : Prop :=
  Z.of_nat (size s1) = n /\ forall id sp, s1 !! id = Some sp -> exists l, part1 id n t l = Ok sp.
(** The second round on it, and the packages addressed to one participant. *)
Definition second (s1 : gmap Identifier (R1Secret * R1Package)) : gmap Identifier (R2Secret * gmap Identifier R2Package) :=
  map_imap (fun id sp => match part2 sp.1 (delete id (snd <$> s1)) with Ok o => Some o | _ => None end) s1.
Definition addressed (id : Identifier) (s2 : gmap Identifier (R2Secret * gmap Identifier R2Package)) : gmap Identifier R2Package :=
  omap (fun o => o.2 !! id) s2.
(** Every key package of a map committed with fresh nonces. *)
Definition committed {R} (RG : Pq.Rng R) (kps : gmap Identifier KeyPackage) (ns : gmap Identifier Nonces) (cs : gmap Identifier Commitments) : Prop :=
  dom cs = dom kps /\ forall id kp, kps !! id = Some kp ->
    exists r n c r', commit RG kp r = ((n, c), r') /\ ns !! id = Some n /\ cs !! id = Some c.
End Spec.

Class FrostLaws `{FrostLib} := {
  try_from_ok i : 1 <= i <= 65535 -> exists id, try_from i = Ok id;
  try_from_inj i j id : try_from i = Ok id -> try_from j = Ok id -> i = j;
  part1_ok id n t l : 2 <= t <= n -> exists sp, part1 id n t l = Ok sp;
  part2_ok n t s1 id sec pkg : 2 <= t <= n -> session n t s1 -> s1 !! id = Some (sec, pkg) ->
    exists sec2 m, part2 sec (delete id (snd <$> s1)) = Ok (sec2, m) /\ dom m = dom s1 ∖ {[id]};
  (** [dealt t kps pkp]: key packages of one key with threshold [t], and its public package. *)
  dealt : Z -> gmap Identifier KeyPackage -> PublicKeyPackage -> Prop;
  part3_ok n t s1 : 2 <= t <= n -> session n t s1 ->
    exists kps vk, dom kps = dom s1 /\ forall id sec2 m, second s1 !! id = Some (sec2, m) ->
      exists kp pkp, part3 sec2 (delete id (snd <$> s1)) (addressed id (second s1)) = Ok (kp, pkp) /\ kps !! id = Some kp /\
        identifier_of kp = id /\ verifying_key pkp = vk /\ dealt t kps pkp;
  sign_ok t kps pkp {R} (RG : Pq.Rng R) sub ns cs msg : dealt t kps pkp -> sub ⊆ kps -> t <= Z.of_nat (size sub) -> committed RG sub ns cs ->
    exists shares sig, dom shares = dom sub /\
      (forall id kp n, sub !! id = Some kp -> ns !! id = Some n ->
         exists share, shares !! id = Some share /\ frost_sign (signing_package_new cs msg) n kp = Ok share) /\
      frost_aggregate (signing_package_new cs msg) shares pkp = Ok sig /\ verify (verifying_key pkp) msg sig = true;
  sign_few t kps pkp id kp n cs msg : dealt t kps pkp -> kps !! id = Some kp -> Z.of_nat (size cs) < t ->
    exists e, frost_sign (signing_package_new cs msg) n kp = Err e
}.

Section Proofs.
Context `{FrostLaws}.

(** ** Key generation: proofs *)
Definition ids (ps : list DkgParticipant) : list Identifier := identifier <$> ps.
Lemma participants_ok l n t : 1 <= t <= n -> n <= 65535 -> Forall (fun i => 1 <= i <= n) l -> NoDup l ->
  exists ps, participants_from l n t = Ok ps /\ NoDup (ids ps) /\ length ps = length l /\
    Forall (fun p => max_signers p = n /\ min_signers p = t /\ exists i, i ∈ l /\ try_from i = Ok (identifier p)) ps.
Proof.
  intros Ht Hn Hl Hnd. induction Hl as [|i l Hi Hl IH]; [by exists []; repeat constructor|].
  apply NoDup_cons in Hnd as [Hnin Hnd]. destruct (IH Hnd) as (ps & Hps & Hids & Hlen & Hall).
  destruct (try_from_ok i) as [id Hid]; [lia|].
  exists ({| identifier := id; max_signers := n; min_signers := t |} :: ps). cbn [participants_from length]. unfold participant_new, rguard, frost.
  rewrite (proj2 (Z.eqb_neq i 0)), (proj2 (Z.ltb_ge n i)), (proj2 (Z.eqb_neq t 0)), (proj2 (Z.ltb_ge n t)) by lia. cbn [orb].
  rewrite Hid. cbn [rmap_err rbind]. rewrite Hps. cbn [rbind]. split; [done|]. split; [|split; [by rewrite Hlen|]].
  - cbn [ids fmap list_fmap identifier]. apply NoDup_cons. split; [|done]. intros Hin. apply list_elem_of_fmap in Hin as (p & -> & Hp).
    rewrite Forall_forall in Hall. destruct (Hall p Hp) as (_ & _ & j & Hj & Htf). rewrite (try_from_inj _ _ _ Hid Htf) in Hnin. done.
  - constructor; [repeat split; exists i; split; [left|done]|]. eapply Forall_impl; [exact Hall|]. intros p (? & ? & j & Hj & ?).
    repeat split; [done..|]. exists j. split; [by right|done].
Qed.

Lemma round1_all_ok {R} {RG : Pq.Rng R} n t ps : 2 <= t <= n -> Forall (fun p => max_signers p = n /\ min_signers p = t) ps -> NoDup (ids ps) ->
  forall secs bcs r, exists s1 r', round1_all ps secs bcs r = (Ok ((fst <$> s1) ∪ secs, (snd <$> s1) ∪ bcs), r') /\
    dom s1 = list_to_set (ids ps) /\ forall id sp, s1 !! id = Some sp -> exists l, part1 id n t l = Ok sp.
Proof.
  intros Ht Hps. induction Hps as [|p ps [Hn Hm] Hps IH]; intros Hnd secs bcs r.
  - exists ∅, r. rewrite !fmap_empty, !(left_id_L ∅ (∪)), dom_empty_L. split; [done|]. split; [done|]. intros id sp. by rewrite lookup_empty.
  - apply NoDup_cons in Hnd as [Hnin Hnd]. cbn [round1_all]. unfold sbind at 1, derive_subrng. destruct (Pq.fill_bytes 32 r) as [seed r1].
    unfold sbind, slift, round1. rewrite Hn, Hm. destruct (part1_ok (identifier p) n t (from_seed seed) Ht) as [[sec pkg] Hp1].
    rewrite Hp1. cbn [frost rmap_err rbind].
    destruct (IH Hnd (<[identifier p := sec]> secs) (<[identifier p := pkg]> bcs) r1) as (s1 & r' & Hr & Hdom & Hall).
    cbn [r1_secret broadcast]. rewrite Hr.
    assert (Hnone : s1 !! identifier p = None) by (apply not_elem_of_dom; rewrite Hdom, elem_of_list_to_set; done).
    exists (<[identifier p := (sec, pkg)]> s1), r'. rewrite !fmap_insert. cbn [fst snd]. split; [|split].
    + by rewrite <- !insert_union_l, !insert_union_r by (by rewrite lookup_fmap, Hnone).
    + rewrite dom_insert_L, Hdom. done.
    + intros id sp. rewrite lookup_insert_Some. intros [[<- <-]|[_ Hs]]; [by eexists|by eapply Hall].
Qed.

Lemma dkg_entries_perm {A} (m : gmap Identifier A) : btree_entries m ≡ₚ map_to_list m.
Proof. apply merge_sort_Permutation. Qed.
Lemma dkg_entries_nodup {A} (m : gmap Identifier A) : NoDup (btree_entries m).*1.
Proof. rewrite dkg_entries_perm. apply NoDup_fst_map_to_list. Qed.
Lemma dkg_entries_map {A} (m : gmap Identifier A) : list_to_map (btree_entries m) = m.
Proof. rewrite (list_to_map_proper _ (map_to_list m)) by (apply dkg_entries_nodup || apply dkg_entries_perm). apply list_to_map_to_list. Qed.

(** What a delivery changes in the inbox of a recipient. *)
Lemma deliver_lookup sender l r : forall inbox, NoDup l.*1 ->
  default ∅ (deliver sender l inbox !! r) =
    match (list_to_map l : gmap Identifier R2Package) !! r with
    | Some pkg => <[sender := pkg]> (default ∅ (inbox !! r))
    | None => default ∅ (inbox !! r)
    end.
Proof.
  induction l as [|[k pkg] l IH]; intros inbox Hnd; [done|]. apply NoDup_cons in Hnd as [Hnin Hnd]. cbn [deliver foldl].
  change (foldl _ ?i l) with (deliver sender l i). rewrite IH by done. rewrite list_to_map_cons. destruct (decide (k = r)) as [->|Hk].
  - rewrite !lookup_insert_eq. rewrite (not_elem_of_list_to_map_1 l r) by done. done.
  - by rewrite !lookup_insert_ne by done.
Qed.

Section Run.
Context (n t : Z) (s1 : gmap Identifier (R1Secret * R1Package)) (Ht : 2 <= t <= n) (Hs : session n t s1).

Lemma second_ok id sec pkg : s1 !! id = Some (sec, pkg) ->
  exists sec2 m, part2 sec (delete id (snd <$> s1)) = Ok (sec2, m) /\ second s1 !! id = Some (sec2, m) /\ dom m = dom s1 ∖ {[id]}.
Proof.
  intros Hid. destruct (part2_ok n t s1 id sec pkg Ht Hs Hid) as (sec2 & m & Hp & Hd). exists sec2, m. split; [done|]. split; [|done].
  unfold second. rewrite map_lookup_imap, Hid. cbn. by rewrite Hp.
Qed.
Lemma others_size id sp : s1 !! id = Some sp -> Z.of_nat (size (delete id (snd <$> s1))) = n - 1.
Proof.
  intros Hid. rewrite map_size_delete_Some by (by rewrite lookup_fmap, Hid; eexists). rewrite map_size_fmap.
  destruct Hs as [Hsz _]. assert (size s1 <> 0%nat) by (intros Hz; apply map_size_empty_inv in Hz; by rewrite Hz, lookup_empty in Hid). lia.
Qed.
Lemma round2_ok p sec pkg : max_signers p = n -> s1 !! identifier p = Some (sec, pkg) ->
  exists sec2 m, second s1 !! identifier p = Some (sec2, m) /\ dom m = dom s1 ∖ {[identifier p]} /\
    round2 p sec (delete (identifier p) (snd <$> s1)) = Ok {| r2_secret := sec2; point_to_point := m |}.
Proof.
  intros Hn Hid. destruct (second_ok _ _ _ Hid) as (sec2 & m & Hp & Hsec & Hd). exists sec2, m. split; [done|]. split; [done|].
  unfold round2, rguard. rewrite lookup_delete_eq, bool_decide_false by (by intros []). rewrite (others_size _ _ Hid), Hn, Z.eqb_refl. cbn [negb].
  by rewrite Hp.
Qed.

(** The second loop leaves every secret and every package where the third looks for it. *)
Lemma round2_all_ok ps : Forall (fun p => max_signers p = n) ps -> NoDup (ids ps) -> list_to_set (ids ps) ⊆ dom s1 ->
  forall secs1 secs2 inbox, (forall id, id ∈ ids ps -> secs1 !! id = fst <$> s1 !! id) ->
    (forall r s, s ∈ ids ps -> default ∅ (inbox !! r) !! s = None) ->
  exists secs2' inbox', round2_all ps (snd <$> s1) secs1 secs2 inbox = Ok (secs2', inbox') /\
    (forall id, secs2' !! id = if decide (id ∈ ids ps) then fst <$> second s1 !! id else secs2 !! id) /\
    (forall r s, default ∅ (inbox' !! r) !! s = if decide (s ∈ ids ps) then second s1 !! s ≫= (fun o => o.2 !! r) else default ∅ (inbox !! r) !! s).
Proof.
  intros Hps. induction Hps as [|p ps Hn Hps IH]; intros Hnd Hin secs1 secs2 inbox Hsec Hbox.
  { exists secs2, inbox. split; [done|]. split; intros; by rewrite decide_False by apply not_elem_of_nil. }
  apply NoDup_cons in Hnd as [Hnin Hnd]. cbn [ids fmap list_fmap] in *. set (id := identifier p) in *.
  assert (is_Some (s1 !! id)) as [[sec pkg] Hid] by (apply elem_of_dom; set_solver).
  destruct (round2_ok p sec pkg Hn Hid) as (sec2 & m & Hsnd & _ & Hr2). fold id in Hsnd, Hr2.
  destruct (IH Hnd ltac:(set_solver) (delete id secs1) (<[id := sec2]> secs2) (deliver id (btree_entries m) inbox)) as (secs2' & inbox' & Hr & Hs2 & Hb).
  { intros k Hk. rewrite lookup_delete_ne by (intros ->; done). apply Hsec. by right. }
  { intros r k Hk. rewrite deliver_lookup by apply dkg_entries_nodup. rewrite dkg_entries_map. destruct (m !! r); [|by apply Hbox; right].
    rewrite lookup_insert_ne by (intros ->; done). by apply Hbox; right. }
  exists secs2', inbox'. split; [|split].
  - cbn [round2_all]. fold id. rewrite (Hsec id ltac:(left)), Hid. cbn [fmap option_fmap option_map ok_or rbind fst]. rewrite Hr2.
    cbn [rbind r2_secret point_to_point]. exact Hr.
  - intros k. rewrite Hs2. destruct (decide (k = id)) as [->|Hk].
    + rewrite decide_False by done. rewrite decide_True by left. by rewrite lookup_insert_eq, Hsnd.
    + rewrite lookup_insert_ne by done. repeat case_decide; set_solver.
  - intros r k. rewrite Hb. destruct (decide (k = id)) as [->|Hk].
    + rewrite decide_False by done. rewrite decide_True by left. rewrite deliver_lookup by apply dkg_entries_nodup. rewrite dkg_entries_map, Hsnd. cbn.
      destruct (m !! r) as [q|]; [by rewrite lookup_insert_eq|]. by apply Hbox; left.
    + rewrite deliver_lookup by apply dkg_entries_nodup. rewrite dkg_entries_map.
      assert (Hsame : forall q : gmap Identifier R2Package, match m !! r with Some pk => <[id:=pk]> q | None => q end !! k = q !! k)
        by (intros q; destruct (m !! r); [by rewrite lookup_insert_ne|done]).
      rewrite Hsame. repeat case_decide; set_solver.
Qed.

Lemma addressed_self id sec pkg : s1 !! id = Some (sec, pkg) -> addressed id (second s1) !! id = None.
Proof.
  intros Hid. destruct (second_ok _ _ _ Hid) as (sec2 & m & _ & Hsnd & Hd). unfold addressed. rewrite lookup_omap, Hsnd. cbn.
  apply not_elem_of_dom. rewrite Hd. set_solver.
Qed.

Context (kps : gmap Identifier KeyPackage) (vk : VerifyingKey).
Context (Hkps : forall id sec2 m, second s1 !! id = Some (sec2, m) ->
  exists kp pkp, part3 sec2 (delete id (snd <$> s1)) (addressed id (second s1)) = Ok (kp, pkp) /\ kps !! id = Some kp /\
    identifier_of kp = id /\ verifying_key pkp = vk /\ dealt t kps pkp).
Definition agreed (shared : option PublicKeyPackage) : Prop := forall pk, shared = Some pk -> verifying_key pk = vk /\ dealt t kps pk.

Lemma round3_ok p sp : s1 !! identifier p = Some sp -> exists sec2 kp pkp, fst <$> second s1 !! identifier p = Some sec2 /\
  round3 p sec2 (delete (identifier p) (snd <$> s1)) (addressed (identifier p) (second s1)) = Ok {| key_package := kp; public_key_package := pkp |} /\
  kps !! identifier p = Some kp /\ identifier_of kp = identifier p /\ verifying_key pkp = vk /\ dealt t kps pkp.
Proof.
  destruct sp as [sec pkg]. intros Hid. destruct (second_ok _ _ _ Hid) as (sec2 & m & _ & Hsnd & _).
  destruct (Hkps _ _ _ Hsnd) as (kp & pkp & Hp & Hrest). exists sec2, kp, pkp. rewrite Hsnd. split; [done|]. split; [|done].
  unfold round3, rguard. rewrite lookup_delete_eq, bool_decide_false by (by intros []).
  rewrite (addressed_self _ _ _ Hid), bool_decide_false by (by intros []). by rewrite Hp.
Qed.
Lemma round3_all_ok secs2 inbox ps : list_to_set (ids ps) ⊆ dom s1 ->
  (forall id, id ∈ ids ps -> secs2 !! id = fst <$> second s1 !! id) -> (forall r, r ∈ ids ps -> default ∅ (inbox !! r) = addressed r (second s1)) ->
  forall acc shared, agreed shared -> exists out shared', round3_all ps (snd <$> s1) secs2 inbox acc shared = Ok (acc ++ out, shared') /\
    Forall2 (fun p kp => kps !! identifier p = Some kp /\ identifier_of kp = identifier p) ps out /\ agreed shared' /\
    (ps <> [] \/ is_Some shared -> is_Some shared').
Proof.
  induction ps as [|p ps IH]; intros Hin Hsec Hbox acc shared Hsh.
  { exists [], shared. rewrite app_nil_r. split; [done|]. split; [constructor|]. split; [done|]. by intros []. }
  cbn [ids fmap list_fmap] in *. assert (is_Some (s1 !! identifier p)) as [sp Hid] by (apply elem_of_dom; set_solver).
  destruct (round3_ok p sp Hid) as (sec2 & kp & pkp & Hs2 & Hr3 & Hk & Hi & Hv & Hd).
  assert (Hnext : forall sh', agreed sh' -> is_Some sh' -> exists out shared', round3_all ps (snd <$> s1) secs2 inbox (acc ++ [kp]) sh' = Ok (acc ++ out, shared') /\
    Forall2 (fun p kp => kps !! identifier p = Some kp /\ identifier_of kp = identifier p) (p :: ps) out /\ agreed shared' /\ is_Some shared').
  { intros sh' Ha Hsome. destruct (IH ltac:(set_solver) ltac:(intros; apply Hsec; by right) ltac:(intros; apply Hbox; by right) (acc ++ [kp]) sh' Ha)
      as (out & shared' & Hr & Hf & Hag & His). exists (kp :: out), shared'. rewrite <- app_assoc in Hr. split; [exact Hr|]. by split; [constructor|auto]. }
  cbn [round3_all]. rewrite (Hsec _ ltac:(left)), Hs2, (Hbox _ ltac:(left)). cbn [ok_or rbind]. rewrite Hr3. cbn [rbind key_package public_key_package].
  destruct shared as [prev|].
  - destruct (Hsh prev eq_refl) as [Hpv _]. unfold rguard. rewrite Hpv, Hv, bool_decide_true by done. cbn [negb].
    destruct (Hnext (Some prev) Hsh ltac:(done)) as (out & shared' & ? & ? & ? & ?). by exists out, shared'.
  - destruct (Hnext (Some pkp)) as (out & shared' & ? & ? & ? & ?); [by intros pk [= <-]|done|]. by exists out, shared'.
Qed.
End Run.

(** The run of key generation, with what its packages are. *)
Lemma dkg_ok {R} {RG : Pq.Rng R} n t (r : R) : 2 <= t <= n -> n <= 65535 ->
  exists out pkp kps r', run_in_process_dkg n t r = (Ok (out, pkp), r') /\ len out = n /\ dealt t kps pkp /\
    NoDup (identifier_of <$> out) /\ forall kp, kp ∈ out -> kps !! identifier_of kp = Some kp.
Proof.
  intros Ht Hn. destruct (participants_ok (seqZ 1 n) n t) as (ps & Hps & Hids & Hlen & Hall); [lia|done| |apply NoDup_seqZ|].
  { apply Forall_forall. intros i Hi. apply elem_of_seqZ in Hi. lia. }
  assert (Hmax : Forall (fun p => max_signers p = n /\ min_signers p = t) ps) by (eapply Forall_impl; [exact Hall|]; naive_solver).
  destruct (round1_all_ok n t ps Ht Hmax Hids ∅ ∅ r) as (s1 & r' & Hr1 & Hdom & Hs1). rewrite !(right_id_L ∅ (∪)) in Hr1.
  assert (Hs : session n t s1).
  { split; [|done]. rewrite <- size_dom, Hdom, size_list_to_set by done. unfold ids. rewrite length_fmap, Hlen, length_seqZ. lia. }
  destruct (round2_all_ok n t s1 Ht Hs ps ltac:(eapply Forall_impl; [exact Hmax|naive_solver]) Hids ltac:(by rewrite Hdom) (fst <$> s1) ∅ ∅)
    as (secs2 & inbox & Hr2 & Hsecs & Hbox); [intros; by rewrite lookup_fmap|intros; by rewrite lookup_empty|].
  destruct (part3_ok n t s1 Ht Hs) as (kps & vk & _ & Hkps).
  destruct (round3_all_ok n t s1 Ht Hs kps vk Hkps secs2 inbox ps ltac:(by rewrite Hdom)) with (acc := @nil KeyPackage) (shared := @None PublicKeyPackage)
    as (out & shared & Hr3 & Hf & Hag & Hsome); [| |by intros ?|].
  { intros id Hin. by rewrite Hsecs, decide_True. }
  { intros id _. apply map_eq. intros k. rewrite Hbox. unfold addressed. rewrite lookup_omap. case_decide as Hk; [done|].
    assert (second s1 !! k = None) as ->; [|done]. unfold second. rewrite map_lookup_imap.
    assert (s1 !! k = None) as ->; [|done]. apply not_elem_of_dom. rewrite Hdom. by rewrite elem_of_list_to_set. }
  destruct Hsome as [pkp ->]; [left; intros ->; rewrite length_seqZ in Hlen; cbn in Hlen; lia|].
  exists out, pkp, kps, r'. split; [|split; [|split; [|split]]].
  - unfold run_in_process_dkg, sguard. rewrite (proj2 (Z.eqb_neq n 0)), (proj2 (Z.eqb_neq t 0)), (proj2 (Z.ltb_ge n t)) by lia. cbn [orb].
    unfold sbind, slift. rewrite Hps, Hr1, Hr2, Hr3. done.
  - apply Forall2_length in Hf. unfold len. rewrite <- Hf, Hlen, length_seqZ. lia.
  - by apply Hag.
  - assert (identifier_of <$> out = ids ps) as ->; [|done]. clear -Hf. induction Hf as [|p kp ps out [_ Hi] _ IH]; [done|]. cbn. by rewrite Hi, IH.
  - intros kp Hin. apply list_elem_of_lookup in Hin as [i Hi]. destruct (Forall2_lookup_r _ _ _ _ _ Hf Hi) as (p & _ & Hk & Hp). by rewrite Hp.
Qed.

(** ** Signing: proofs *)
Section Sign.
Context {R : Type} {RG : Pq.Rng R} (out : list KeyPackage) (Hnd : NoDup (identifier_of <$> out)).
Definition in_range (i : Z) : Prop := 0 <= i < len out.
Definition signer_ids (l : list Z) : list Identifier := omap (fun i => identifier_of <$> out !! Z.to_nat i) l.

Lemma in_range_lookup i : in_range i -> exists kp, out !! Z.to_nat i = Some kp /\ kp ∈ out.
Proof.
  unfold in_range, len. intros Hi. destruct (lookup_lt_is_Some_2 out (Z.to_nat i)) as [kp Hk]; [lia|]. exists kp. split; [done|].
  by eapply list_elem_of_lookup_2.
Qed.
Lemma signer_ids_cons i l kp : out !! Z.to_nat i = Some kp -> signer_ids (i :: l) = identifier_of kp :: signer_ids l.
Proof. intros Hk. unfold signer_ids. cbn [omap list_omap]. by rewrite Hk. Qed.
Lemma signer_ids_mem i l kp : in_range i -> Forall in_range l -> out !! Z.to_nat i = Some kp -> identifier_of kp ∈ signer_ids l <-> i ∈ l.
Proof.
  intros Hi Hl Hk. unfold signer_ids. rewrite list_elem_of_omap. split.
  - intros (j & Hj & Hid). apply fmap_Some in Hid as (kp' & Hk' & Hid). rewrite Forall_forall in Hl. specialize (Hl j Hj). unfold in_range in *.
    assert (Z.to_nat i = Z.to_nat j); [|by replace i with j by lia].
    eapply NoDup_lookup; [exact Hnd|by rewrite list_lookup_fmap, Hk|rewrite list_lookup_fmap, Hk'; cbn; by rewrite Hid].
  - intros Hin. exists i. by rewrite Hk.
Qed.
(** Distinct signers are counted once however often they are named. *)
Lemma signers_size l : Forall in_range l -> size (list_to_set (signer_ids l) : gset Identifier) = size (list_to_set l : gset Z).
Proof.
  induction l as [|i l IH]; intros Hl; [done|]. apply Forall_cons in Hl as [Hi Hl]. destruct (in_range_lookup i Hi) as (kp & Hk & _).
  rewrite (signer_ids_cons i l kp Hk). cbn [list_to_set]. specialize (IH Hl). destruct (decide (i ∈ l)) as [Hin|Hin].
  - pose proof (proj2 (signer_ids_mem i l kp Hi Hl Hk) Hin) as Hin'.
    rewrite (subseteq_union_1_L {[i]} (list_to_set l)) by (by apply singleton_subseteq_l, elem_of_list_to_set).
    rewrite (subseteq_union_1_L {[identifier_of kp]} _) by (by apply singleton_subseteq_l, elem_of_list_to_set). exact IH.
  - rewrite !size_union; [rewrite !size_singleton; lia|apply disjoint_singleton_l; by rewrite elem_of_list_to_set|].
    apply disjoint_singleton_l. by rewrite elem_of_list_to_set, (signer_ids_mem i l kp).
Qed.

Definition chosen (kps : gmap Identifier KeyPackage) : Prop := forall id kp, kps !! id = Some kp -> kp ∈ out /\ identifier_of kp = id.
Lemma commit_all_ok l : Forall in_range l -> forall cs ns kps r, committed RG kps ns cs -> chosen kps ->
  exists cs' ns' kps' r', commit_all out l cs ns kps r = (Ok (cs', ns', kps'), r') /\ committed RG kps' ns' cs' /\ chosen kps' /\
    dom kps' = list_to_set (signer_ids l) ∪ dom kps.
Proof.
  induction l as [|i l IH]; intros Hl cs ns kps r Hc Hch.
  { exists cs, ns, kps, r. split; [done|]. split; [done|]. split; [done|]. cbn. by rewrite (left_id_L ∅ (∪)). }
  apply Forall_cons in Hl as [Hi Hl]. destruct (in_range_lookup i Hi) as (kp & Hk & Hin). destruct (commit RG kp r) as [[n c] r1] eqn:Hcm.
  destruct (IH Hl (<[identifier_of kp := c]> cs) (<[identifier_of kp := n]> ns) (<[identifier_of kp := kp]> kps) r1) as (cs' & ns' & kps' & r' & Hr & Hc' & Hch' & Hd).
  - destruct Hc as [Hdom Hc]. split; [by rewrite !dom_insert_L, Hdom|]. intros id q. rewrite lookup_insert_Some. intros [[<- <-]|[Hne Hq]].
    + exists r, n, c, r1. by rewrite !lookup_insert_eq.
    + rewrite !lookup_insert_ne by done. by apply Hc.
  - intros id q. rewrite lookup_insert_Some. intros [[<- <-]|[_ Hq]]; [done|by apply Hch].
  - exists cs', ns', kps', r'. split; [|split; [done|split; [done|]]].
    + cbn [commit_all]. rewrite Hk. unfold sbind at 1, slift. cbn [ok_or]. unfold sbind at 1, sign_round1. rewrite Hcm. exact Hr.
    + rewrite Hd, dom_insert_L, (signer_ids_cons i l kp Hk). cbn [list_to_set]. set_solver.
Qed.
Lemma share_all_ok sp ns (shares : gmap Identifier SignatureShare) l : NoDup l.*1 ->
  (forall id kp, (id, kp) ∈ l -> exists n share, ns !! id = Some n /\ shares !! id = Some share /\ frost_sign sp n kp = Ok share) ->
  forall acc, exists res, share_all l ns sp acc = Ok res /\ forall id, res !! id = if decide (id ∈ l.*1) then shares !! id else acc !! id.
Proof.
  induction l as [|[id kp] l IH]; intros Hn Hall acc; [exists acc; split; [done|]; intros; by rewrite decide_False by apply not_elem_of_nil|].
  apply NoDup_cons in Hn as [Hnin Hn]. destruct (Hall id kp ltac:(left)) as (n & share & Hns & Hsh & Hsg).
  destruct (IH Hn ltac:(intros; apply Hall; by right) (<[id := share]> acc)) as (res & Hr & Hlk). exists res. split.
  - cbn [share_all]. rewrite Hns. cbn [ok_or rbind]. unfold sign_round2, frost. rewrite Hsg. exact Hr.
  - intros k. rewrite Hlk. destruct (decide (k = id)) as [->|Hk].
    + rewrite decide_False by done. rewrite decide_True by left. by rewrite lookup_insert_eq.
    + rewrite lookup_insert_ne by done. cbn [fmap list_fmap fst]. repeat case_decide; set_solver.
Qed.

Context (t : Z) (kps : gmap Identifier KeyPackage) (pkp : PublicKeyPackage) (Hd : dealt t kps pkp).
Context (Hkps : forall kp, kp ∈ out -> kps !! identifier_of kp = Some kp).
Definition enough (signers : list Z) : Prop := t <= Z.of_nat (size (list_to_set signers : gset Z)).

Lemma signs signers msg (r : R) : signers <> [] -> Forall in_range signers ->
  (enough signers -> exists sig r', run_in_process_sign out pkp signers msg r = (Ok sig, r') /\ verify (verifying_key pkp) msg sig = true) /\
  (~ enough signers -> exists e r', run_in_process_sign out pkp signers msg r = (Err (Frost e), r')).
Proof.
  intros Hne Hr. destruct (commit_all_ok signers Hr ∅ ∅ ∅ r) as (cs & ns & sub & r' & Hcm & Hc & Hch & Hdom).
  { split; [by rewrite !dom_empty_L|]. intros id kp. by rewrite lookup_empty. } { intros id kp. by rewrite lookup_empty. }
  rewrite dom_empty_L, (right_id_L ∅ (∪)) in Hdom.
  assert (Hsub : sub ⊆ kps) by (apply map_subseteq_spec; intros id kp Hk; destruct (Hch id kp Hk) as [Hin <-]; by apply Hkps).
  assert (Hsize : size sub = size (list_to_set signers : gset Z)) by (by rewrite <- size_dom, Hdom, signers_size).
  assert (Hrun : run_in_process_sign out pkp signers msg r =
    (let? shares := share_all (btree_entries sub) ns (signing_package_new cs msg) ∅ in aggregate (signing_package_new cs msg) shares pkp, r')).
  { unfold run_in_process_sign, sguard. rewrite bool_decide_false by done. unfold sbind. rewrite Hcm. unfold slift, assemble_signing_package.
    by destruct (share_all _ _ _ _). }
  rewrite Hrun. unfold enough. rewrite <- Hsize. split.
  - intros Hen. destruct (sign_ok t kps pkp RG sub ns cs msg Hd Hsub Hen Hc) as (shares & sig & Hds & Hsg & Hag & Hv).
    destruct (share_all_ok (signing_package_new cs msg) ns shares (btree_entries sub) (dkg_entries_nodup sub)) with (acc := ∅ : gmap Identifier SignatureShare)
      as (res & Hres & Hlk).
    { intros id kp Hin. rewrite dkg_entries_perm in Hin. apply elem_of_map_to_list in Hin. destruct Hc as [_ Hc]. destruct (Hc id kp Hin) as (_ & n & _ & _ & _ & Hn & _).
      destruct (Hsg id kp n Hin Hn) as (share & Hs1 & Hs2). by exists n, share. }
    assert (res = shares) as ->.
    { apply map_eq. intros id. rewrite Hlk. case_decide as Hid; [done|]. rewrite lookup_empty. symmetry. apply not_elem_of_dom. rewrite Hds.
      intros Hin. apply Hid. rewrite dkg_entries_perm. apply elem_of_dom in Hin as [kp Hkp]. apply list_elem_of_fmap. exists (id, kp).
      split; [done|]. by apply elem_of_map_to_list. }
    exists sig, r'. rewrite Hres. cbn [rbind]. unfold aggregate, frost. by rewrite Hag.
  - intros Hen. destruct (btree_entries sub) as [|[id kp] l] eqn:Hl.
    { exfalso. destruct signers as [|i signers]; [done|]. apply Forall_cons in Hr as [Hi _]. destruct (in_range_lookup i Hi) as (kp & Hk & _).
      assert (identifier_of kp ∈ dom sub) as Hin by (rewrite Hdom, (signer_ids_cons i _ kp Hk); set_solver).
      pose proof (dkg_entries_map sub) as He. rewrite Hl in He. cbn in He. rewrite <- He, dom_empty_L in Hin. set_solver. }
    assert (Hin : sub !! id = Some kp).
    { apply elem_of_map_to_list. rewrite <- dkg_entries_perm, Hl. left. }
    destruct Hc as [Hdc Hc]. destruct (Hc id kp Hin) as (_ & n & _ & _ & _ & Hn & _).
    destruct (sign_few t kps pkp id kp n cs msg Hd) as [e He]; [by eapply lookup_weaken|rewrite <- size_dom, Hdc, size_dom; lia|].
    exists e, r'. cbn [share_all]. rewrite Hn. cbn [ok_or rbind]. unfold sign_round2, frost. by rewrite He.
Qed.
End Sign.

(** C32. Key generation with a threshold of at least two succeeds and gives one package per
    participant.  Any signers then produce a signature the common key verifies exactly when enough
    different ones take part, a signer named twice counting once; otherwise FROST refuses. *)
Theorem dkg_then_sign {R} {RG : Pq.Rng R} n t (r : R) : 2 <= t <= n -> n <= 65535 ->
  exists out pkp r', run_in_process_dkg n t r = (Ok (out, pkp), r') /\ len out = n /\
    forall signers msg (r2 : R), signers <> [] -> Forall (fun i => 0 <= i < n) signers ->
      (t <= Z.of_nat (size (list_to_set signers : gset Z)) ->
         exists sig r3, run_in_process_sign out pkp signers msg r2 = (Ok sig, r3) /\ verify (verifying_key pkp) msg sig = true) /\
      (Z.of_nat (size (list_to_set signers : gset Z)) < t -> exists e r3, run_in_process_sign out pkp signers msg r2 = (Err (Frost e), r3)).
Proof.
  intros Ht Hn. destruct (dkg_ok n t r Ht Hn) as (out & pkp & kps & r' & Hrun & Hlen & Hd & Hnd & Hk). exists out, pkp, r'.
  split; [done|]. split; [done|]. intros signers msg r2 Hne Hr.
  destruct (signs out Hnd t kps pkp Hd Hk signers msg r2 Hne) as [Hok Hfew]; [by unfold in_range; rewrite Hlen|].
  split; [exact Hok|]. intros Hlt. apply Hfew. unfold enough. lia.
Qed.
End Proofs.

(** ** A concrete instance: contributions are added up, every participant learns the sum *)
Definition sum (m : gmap Z Z) : Z := map_fold (fun _ => Z.add) 0 m.
Definition toy_part1 (id n t : Z) (l : list byte) : res string ((Z * Z * Z) * Z) :=
  if (2 <=? t) && (t <=? n) then Ok ((id, t, from_be l), from_be l) else Err "invalid number of signers".
Definition own (sec : Z * Z * Z) : Z := sec.2.
#[local] Instance toy_frost : FrostLib := {|
  Identifier := Z; id_leb := Z.leb; try_from i := Ok i; L := list byte; from_seed b := b;
  R1Secret := Z * Z * Z; R1Package := Z; R2Secret := Z * Z * Z; R2Package := Z; KeyPackage := Z * Z * Z; PublicKeyPackage := Z * Z; VerifyingKey := Z;
  part1 := toy_part1; part2 sec m := Ok (sec, (fun _ => own sec) <$> m);
  part3 sec m1 m2 := Ok ((sec.1, own sec + sum m2), (sec.1.2, own sec + sum m2));
  identifier_of kp := kp.1.1; verifying_key pkp := pkp.2;
  Nonces := unit; Commitments := unit; SigningPackage := Z * list byte; SignatureShare := Z; Signature := Z * list byte;
  commit R RG kp r := ((tt, tt), r); signing_package_new cs msg := (Z.of_nat (size cs), msg);
  frost_sign sp n kp := if sp.1 <? kp.1.2 then Err "too few commitments" else Ok kp.2;
  frost_aggregate sp shares pkp := if forallb (fun x => x.2 =? pkp.2) (map_to_list shares) then Ok (pkp.2, sp.2) else Err "invalid share";
  verify vk msg sig := bool_decide (sig = (vk, msg))
|}.
Lemma sum_delete (m : gmap Identifier Z) (id : Identifier) c : m !! id = Some c -> sum m = c + sum (delete id m).
Proof. intros Hid. unfold sum. rewrite (map_fold_delete_L _ 0 id c m); [done|intros; lia|done]. Qed.

Lemma toy_part1_Ok id n t l sp : toy_part1 id n t l = Ok sp -> sp.1.1 = (id, t) /\ own sp.1 = sp.2.
Proof. unfold toy_part1. destruct (_ && _); [|done]. by intros [= <-]. Qed.
Lemma toy_second (s1 : gmap Identifier (R1Secret * R1Package)) (id : Identifier) : second s1 !! id = (fun sp : R1Secret * R1Package => (sp.1, (fun _ => own sp.1) <$> delete id (snd <$> s1))) <$> s1 !! id.
Proof. unfold second. rewrite map_lookup_imap. by destruct (s1 !! id). Qed.
Lemma toy_addressed (s1 : gmap Identifier (R1Secret * R1Package)) (id : Identifier) sp : s1 !! id = Some sp -> (forall k (q : R1Secret * R1Package), s1 !! k = Some q -> own q.1 = q.2) ->
  addressed id (second s1) = delete id (snd <$> s1).
Proof.
  intros Hid Hc. apply map_eq. intros k. unfold addressed. rewrite lookup_omap, toy_second. destruct (decide (k = id)) as [->|Hk].
  - rewrite Hid, lookup_delete_eq. cbn. by rewrite lookup_fmap, lookup_delete_eq.
  - rewrite lookup_delete_ne, lookup_fmap by done. destruct (s1 !! k) as [q|] eqn:Hq; [|done].
    cbn [fmap option_fmap option_map mbind option_bind snd]. rewrite lookup_fmap, lookup_delete_ne, lookup_fmap, Hid by done.
    cbn [fmap option_fmap option_map fst]. by rewrite (Hc k q Hq).
Qed.
#[local] Instance toy_frost_laws : FrostLaws.
Proof.
  refine {| dealt := fun (t : Z) (kps : gmap Identifier KeyPackage) (pkp : PublicKeyPackage) => forall id kp, kps !! id = Some kp -> kp = (id, t, pkp.2) |}.
  - intros i _. by exists i.
  - intros i j id. cbn. congruence.
  - intros id n t l Ht. cbn. unfold toy_part1. rewrite !(proj2 (Z.leb_le _ _)) by lia. by eexists.
  - intros n t s1 id sec pkg _ _ Hid. eexists _, _. split; [done|]. rewrite dom_fmap_L, dom_delete_L, dom_fmap_L. done.
  - intros n t s1 Ht [Hn Hs].
    assert (Hc : forall k (q : R1Secret * R1Package), s1 !! k = Some q -> q.1.1 = (k, t) /\ own q.1 = q.2) by (intros k q Hq; destruct (Hs k q Hq) as [l Hl]; by apply toy_part1_Ok in Hl).
    exists (map_imap (fun id _ => Some (id, t, sum (snd <$> s1))) s1), (sum (snd <$> s1)). split.
    { apply set_eq. intros k. rewrite !elem_of_dom, map_lookup_imap. destruct (s1 !! k); cbn; [split; by eexists|done]. }
    intros id sec2 m Hsec. rewrite toy_second in Hsec. apply fmap_Some in Hsec as (sp & Hid & [= -> _]). destruct (Hc id sp Hid) as [Hi Hv].
    assert (Hsum : own sp.1 + sum (delete id (snd <$> s1)) = sum (snd <$> s1)) by (rewrite (sum_delete (snd <$> s1) id sp.2); [by rewrite Hv|by rewrite lookup_fmap, Hid]).
    exists (id, t, sum (snd <$> s1)), (t, sum (snd <$> s1)). split; [|split; [|split; [done|split; [done|]]]].
    + cbn [part3 toy_frost]. rewrite (toy_addressed s1 id sp Hid) by (intros k q Hq; by apply (Hc k q)). destruct sp as [[[i0 t0] c0] pk].
      injection Hi as <- <-. exact (f_equal (fun z => Ok (i0, t0, z, (t0, z))) Hsum).
    + by rewrite map_lookup_imap, Hid.
    + intros k kp. rewrite map_lookup_imap. destruct (s1 !! k); [|done]. cbn. by intros [= <-].
  - intros t kps pkp R RG sub ns cs msg Hd Hsub Hen [Hdom Hc]. exists ((fun _ => pkp.2) <$> sub), (pkp.2, msg). split; [by rewrite dom_fmap_L|].
    split; [|split; [|by apply bool_decide_eq_true]].
    + intros id kp n Hk _. exists pkp.2. rewrite lookup_fmap, Hk. split; [done|]. rewrite (Hd id kp) by (by eapply lookup_weaken).
      assert (Hsz : (Z.of_nat (size cs) <? t) = false) by (rewrite <- size_dom, Hdom, size_dom; by apply Z.ltb_ge).
      exact (f_equal (fun b : bool => if b then Err "too few commitments" else Ok pkp.2) Hsz).
    + cbn. rewrite (proj2 (forallb_forall _ _)); [done|]. intros [k x] Hx. apply list_elem_of_In, elem_of_map_to_list in Hx. rewrite lookup_fmap in Hx.
      apply fmap_Some in Hx as (? & _ & ->). apply Z.eqb_refl.
  - intros t kps pkp id kp n cs msg Hd Hk Hlt. exists "too few commitments". rewrite (Hd id kp Hk).
    exact (f_equal (fun b : bool => if b then Err "too few commitments" else Ok pkp.2) (proj2 (Z.ltb_lt _ _) Hlt)).
Qed.
#[local] Existing Instance Pq.toy_rng.
Lemma dkg_then_sign_witness : exists out pkp r', run_in_process_dkg 5 3 (7 : Z) = (Ok (out, pkp), r') /\
  exists sig r3, run_in_process_sign out pkp [4; 0; 2; 0] [Byte.x01] (7 : Z) = (Ok sig, r3) /\ verify (verifying_key pkp) [Byte.x01] sig = true.
Proof.
  destruct (dkg_then_sign 5 3 (7 : Z)) as (out & pkp & r' & Hr & _ & Hs); [lia|lia|]. exists out, pkp, r'. split; [exact Hr|].
  apply (Hs [4; 0; 2; 0] [Byte.x01] (7 : Z)); [done|repeat constructor; lia|vm_compute; congruence].
Defined.
End Dkg.
