(* ===== verification/CloudWire.v ===== *)
(** * Wrapped keys and shares on the wire ([crates/umbrella-backup/src/cloud_wrap/params.rs],
    [share.rs], [wire.rs], [version.rs], [pq_wrap.rs])

    The byte formats of the cloud backup: the wrapped key of version 1, the unwrap share of one
    server, the associated data, the ciphersuite byte, and the version 2 envelope that puts a
    version 1 wrapped key inside an X-Wing encapsulation.  ChaCha20-Poly1305 and HKDF are the
    class [CloudCrypto]; X-Wing is the model of [umbrella-pq]. *)
From S2P Require Import Prelude Bytes Crypto BackupError DeviceAuth Pq.
Local Open Scope list_scope.
Local Open Scope Z_scope.

Module CloudWire.

(** ** Parameters ([params.rs]) *)
Definition PROTOCOL_VERSION : Z := 1.
Definition POINT_LEN : Z := 32.
Definition CHAT_ID_LEN : Z := 32.
Definition NONCE_LEN : Z := 12.
Definition AEAD_TAG_LEN : Z := 16.
Definition MESSAGE_KEY_LEN : Z := 32.
Definition AEAD_BLOB_LEN : Z := MESSAGE_KEY_LEN + AEAD_TAG_LEN.
Definition WRAPPED_KEY_LEN : Z := 1 + POINT_LEN + AEAD_BLOB_LEN.
Definition DEFAULT_THRESHOLD : Z := 3.
Definition DEFAULT_TOTAL : Z := 5.

Definition witness_index_new (i : Z) : res BackupError Z :=
  if (i =? 0) || (DEFAULT_TOTAL <? i) then Err (UnknownWitnessIndex i) else Ok i.

Record ThresholdConfig := { threshold : Z; total : Z }.

Definition config_new (t n : Z) : res BackupError ThresholdConfig :=
  reject t =? 0 with InsufficientUnwrapShares 0 0 ;;
  reject n <? t with InsufficientUnwrapShares n t ;;
  reject DEFAULT_TOTAL <? n with UnknownWitnessIndex n ;;
  Ok {| threshold := t; total := n |}.

Definition config_default : ThresholdConfig := {| threshold := DEFAULT_THRESHOLD; total := DEFAULT_TOTAL |}.

Record WrappingParams := {
  wp_version : Z;
  main_pubkey : list byte;
  server_pubkeys : list (list byte);
  config : ThresholdConfig
}.

Definition params_new (version : Z) (main : list byte) (servers : list (list byte)) (c : ThresholdConfig)
  : res BackupError WrappingParams :=
  reject negb (version =? PROTOCOL_VERSION) with WrappedKeyVersionMismatch PROTOCOL_VERSION version ;;
  Ok {| wp_version := version; main_pubkey := main; server_pubkeys := servers; config := c |}.

(** ** Unwrap shares ([share.rs]) *)
Definition SERVER_UNWRAP_SHARE_LEN : Z := 1 + POINT_LEN.

Record ServerUnwrapShare := { witness_index : Z; partial : list byte }.

Definition share_to_bytes (s : ServerUnwrapShare) : list byte := [as_u8 (witness_index s)] ++ partial s.

Definition share_from_bytes (data : list byte) : res BackupError ServerUnwrapShare :=
  reject negb (len data =? SERVER_UNWRAP_SHARE_LEN) with UnwrapShareTruncated ;;
  let? b0 := index 0 data in
  let? wi := witness_index_new (u8 b0) in
  let? p := slice_from 1 data in
  Ok {| witness_index := wi; partial := p |}.

(** ** Associated data and the wrapped key ([wire.rs]) *)
Definition ED25519_PUB_LEN : Z := 32.
Definition CANONICAL_AAD_LEN : Z := ED25519_PUB_LEN + ED25519_PUB_LEN + CHAT_ID_LEN + 8.
Definition NONCE_DERIVATION_SALT : list byte := bytes_of_string "umbrellax-cloud-wrap-nonce-v1".

Record CanonicalAad := {
  sender_identity_pubkey : list byte;
  recipient_device_pubkey : list byte;
  chat_id : list byte;
  msg_seq : Z
}.

Definition canonical_bytes (a : CanonicalAad) : list byte :=
  sender_identity_pubkey a ++ recipient_device_pubkey a ++ chat_id a ++ to_be 8 (msg_seq a).

Record WrappedKey := { version : Z; ephemeral_r : list byte; aead_blob : list byte }.

Definition wrapped_to_bytes (w : WrappedKey) : list byte := [as_u8 (version w)] ++ ephemeral_r w ++ aead_blob w.

Definition wrapped_from_bytes (data : list byte) : res BackupError WrappedKey :=
  reject negb (len data =? WRAPPED_KEY_LEN) with WrappedKeyTruncated ;;
  let? b0 := index 0 data in
  let v := u8 b0 in
  reject negb (v =? PROTOCOL_VERSION) with WrappedKeyVersionMismatch PROTOCOL_VERSION v ;;
  let? r := slice 1 (1 + POINT_LEN) data in
  let? blob := slice_from (1 + POINT_LEN) data in
  Ok {| version := v; ephemeral_r := r; aead_blob := blob |}.

(** ** Ciphersuites ([version.rs]); [pq] is the crate feature. *)
Inductive WrappingCiphersuite := V1Classical | V2HybridXWing.
#[global] Instance WrappingCiphersuite_eq_dec : EqDecision WrappingCiphersuite.
Proof. solve_decision. Defined.

Definition suite_as_u8 (c : WrappingCiphersuite) : Z := match c with V1Classical => 1 | V2HybridXWing => 2 end.
Definition suite_try_from (pq : bool) (value : Z) : res BackupError WrappingCiphersuite :=
  if value =? 1 then Ok V1Classical
  else if value =? 2 then (if pq then Ok V2HybridXWing else Err (PqFeatureRequiredForCiphersuite 2))
  else Err (UnsupportedWrappingCiphersuite value).

(** ** The version 2 envelope ([pq_wrap.rs], compiled with the feature) *)
Definition V2_DOMAIN_SEP : list byte := bytes_of_string "umbrellax-cloud-wrap-v2".
Definition V2_HKDF_SALT : list byte := V2_DOMAIN_SEP.
Definition V2_AEAD_KEY_LEN : Z := 32.
Definition V2_VERSION_LEN : Z := 1.
Definition WRAPPED_KEY_V2_AEAD_PAYLOAD_LEN : Z := WRAPPED_KEY_LEN + AEAD_TAG_LEN.
Definition WRAPPED_KEY_V2_LEN : Z :=
  V2_VERSION_LEN + Pq.XWING_CIPHERTEXT_LEN + WRAPPED_KEY_V2_AEAD_PAYLOAD_LEN.

Record WrappedKeyV2 := { xwing_ciphertext : list byte; aead_payload : list byte }.

Definition v2_to_bytes (w : WrappedKeyV2) : list byte :=
  [as_u8 (suite_as_u8 V2HybridXWing)] ++ xwing_ciphertext w ++ aead_payload w.

Definition v2_from_bytes (data : list byte) : res BackupError WrappedKeyV2 :=
  reject len data =? 0 with WrappedKeyV2Truncated ;;
  let? b0 := index 0 data in
  let? cs := suite_try_from true (u8 b0) in
  reject negb (bool_decide (cs = V2HybridXWing)) with UnsupportedWrappingCiphersuite (u8 b0) ;;
  reject negb (len data =? WRAPPED_KEY_V2_LEN) with WrappedKeyV2Truncated ;;
  let? ct := slice V2_VERSION_LEN (V2_VERSION_LEN + Pq.XWING_CIPHERTEXT_LEN) data in
  let? payload := slice_from (V2_VERSION_LEN + Pq.XWING_CIPHERTEXT_LEN) data in
  Ok {| xwing_ciphertext := ct; aead_payload := payload |}.

(** [ChaCha20Poly1305::encrypt], [decrypt] and [Hkdf<Sha512>]. *)
Class CloudCrypto := {
  hkdf512 : list byte -> list byte -> list byte -> Z -> list byte;          (* salt, ikm, info, length *)
  chacha_encrypt : list byte -> list byte -> list byte -> list byte -> list byte;  (* key, nonce, msg, aad *)
  chacha_decrypt : list byte -> list byte -> list byte -> list byte -> option (list byte)
}.

Section V2.
Context `{Pq.PqBackend} `{CloudCrypto} {R : Type} `{Pq.Rng R}.

Definition canonical_nonce (chat : list byte) (seq : Z) : list byte :=
  hkdf512 NONCE_DERIVATION_SALT chat (to_be 8 seq) NONCE_LEN.

Definition derive_v2_aead_key_nonce (shared_secret xwing_ct recipient_xwing_pubkey : list byte)
  : res BackupError (list byte * list byte) :=
  let info := V2_DOMAIN_SEP ++ xwing_ct ++ recipient_xwing_pubkey in
  let okm := Pq.hkdf_sha256 V2_HKDF_SALT shared_secret info (V2_AEAD_KEY_LEN + NONCE_LEN) in
  let? key := slice 0 V2_AEAD_KEY_LEN okm in
  let? nonce := slice_from V2_AEAD_KEY_LEN okm in
  Ok (key, nonce).

Definition compose_v2_aead_aad (aad : CanonicalAad) (recipient_xwing_pubkey : list byte) : list byte :=
  [as_u8 (suite_as_u8 V2HybridXWing)] ++ canonical_bytes aad ++ recipient_xwing_pubkey.

Definition wrap_v1_into_v2 (recipient_xwing_pubkey : list byte) (v1 : WrappedKey) (aad : CanonicalAad)
    (hedged_witness : list byte) : st R BackupError WrappedKeyV2 :=
  let transcript := canonical_bytes aad in
  let! (xwing_ct, shared_secret) :=
    (fun rng => let '(r, rng') := Pq.xwing_encaps_hedged recipient_xwing_pubkey hedged_witness transcript rng in
                (rmap_err (fun _ => XWingEncapsFailed) r, rng')) in
  slift (
    let? (key, nonce) := derive_v2_aead_key_nonce shared_secret xwing_ct recipient_xwing_pubkey in
    let aad_bytes := compose_v2_aead_aad aad recipient_xwing_pubkey in
    let blob := chacha_encrypt key nonce (wrapped_to_bytes v1) aad_bytes in
    reject negb (len blob =? WRAPPED_KEY_V2_AEAD_PAYLOAD_LEN) with InvalidWireFormat ;;
    Ok {| xwing_ciphertext := xwing_ct; aead_payload := blob |}).

Definition decrypt_v2_inner_wrapped_key_bytes (key nonce payload aad : list byte) : res BackupError (list byte) :=
  ok_or (chacha_decrypt key nonce payload aad) AeadDecryptFailed.

Definition unwrap_v2_to_v1 (own_xwing_seed own_xwing_pubkey : list byte) (wire : WrappedKeyV2) (aad : CanonicalAad)
  : res BackupError WrappedKey :=
  let? shared_secret := rmap_err (fun _ => XWingDecapsFailed) (Pq.xwing_decaps own_xwing_seed (xwing_ciphertext wire)) in
  let? (key, nonce) := derive_v2_aead_key_nonce shared_secret (xwing_ciphertext wire) own_xwing_pubkey in
  let aad_bytes := compose_v2_aead_aad aad own_xwing_pubkey in
  let? plain := decrypt_v2_inner_wrapped_key_bytes key nonce (aead_payload wire) aad_bytes in
  reject negb (len plain =? WRAPPED_KEY_LEN) with AeadDecryptFailed ;;
  wrapped_from_bytes plain.
End V2.

(** ** Codec laws *)
Definition wf_share (s : ServerUnwrapShare) : Prop :=
  1 <= witness_index s <= DEFAULT_TOTAL /\ len (partial s) = POINT_LEN.
Definition wf_wrapped (w : WrappedKey) : Prop :=
  version w = PROTOCOL_VERSION /\ len (ephemeral_r w) = POINT_LEN /\ len (aead_blob w) = AEAD_BLOB_LEN.
Definition wf_v2 (w : WrappedKeyV2) : Prop :=
  len (xwing_ciphertext w) = Pq.XWING_CIPHERTEXT_LEN /\ len (aead_payload w) = WRAPPED_KEY_V2_AEAD_PAYLOAD_LEN.
Definition wf_aad (a : CanonicalAad) : Prop :=
  len (sender_identity_pubkey a) = 32 /\ len (recipient_device_pubkey a) = 32 /\ len (chat_id a) = 32 /\
  is_u64 (msg_seq a).

Ltac wire_lens := unfold WRAPPED_KEY_V2_LEN, WRAPPED_KEY_V2_AEAD_PAYLOAD_LEN, V2_VERSION_LEN, V2_AEAD_KEY_LEN,
  Pq.XWING_CIPHERTEXT_LEN, SERVER_UNWRAP_SHARE_LEN, WRAPPED_KEY_LEN, AEAD_BLOB_LEN, MESSAGE_KEY_LEN, AEAD_TAG_LEN,
  POINT_LEN, NONCE_LEN in *.

Lemma witness_index_new_Ok i j : 0 <= i -> witness_index_new i = Ok j <-> j = i /\ 1 <= i <= DEFAULT_TOTAL.
Proof.
  intros Hi. unfold witness_index_new, DEFAULT_TOTAL.
  destruct (i =? 0) eqn:H0; zbool; [split; [done|intros [_ ?]; lia]|].
  destruct (5 <? i) eqn:H1; zbool; [split; [done|intros [_ ?]; lia]|].
  cbn. split; [intros [= <-]; lia|by intros [-> _]].
Qed.

Lemma share_dec_enc s : wf_share s -> share_from_bytes (share_to_bytes s) = Ok s.
Proof.
  unfold wf_share, DEFAULT_TOTAL. wire_lens. intros [Hi Hp]. unfold share_from_bytes, share_to_bytes. wire_lens.
  rewrite (proj2 (Z.eqb_eq _ _)) by len_lia. cbn [negb rguard]. rd_index (as_u8 (witness_index s)).
  rewrite DeviceAuth.u8_as_u8_id by (unfold is_u8, U8_MAX; lia).
  rewrite (proj2 (witness_index_new_Ok (witness_index s) (witness_index s) ltac:(lia))) by done. cbn [rbind].
  unfold slice_from. rd_slice (partial s). by destruct s.
Qed.

Lemma share_enc_dec b s : share_from_bytes b = Ok s -> share_to_bytes s = b /\ wf_share s.
Proof.
  unfold share_from_bytes, slice_from. intros Hd. apply rguard_Ok in Hd as [Hl Hd]. inv_index Hd b0 S0.
  apply rbind_Ok in Hd as (wi & Hw & Hd). inv_slice Hd p S1 L1. injection Hd as <-. zbool. wire_lens.
  apply witness_index_new_Ok in Hw as [-> Hr]; [|pose proof (u8_range b0); lia]. split.
  - unfold share_to_bytes. cbn [witness_index partial]. rewrite as_u8_u8.
    eapply (slices_cover (E := BackupError)); [glue_slices|done].
  - split; cbn; [done|unfold POINT_LEN; lia].
Qed.

Lemma share_total b : share_from_bytes b <> Panic.
Proof.
  unfold share_from_bytes, slice_from. wire_lens. intros Hp. no_panic_step Hp. no_panic_step Hp.
  apply rbind_Panic in Hp as [Hp|(i & _ & Hp)]; [unfold witness_index_new in Hp; by case_match|no_panic Hp].
Qed.

#[export] Instance share_codec : Codec BackupError ServerUnwrapShare := {|
  enc := share_to_bytes; dec := share_from_bytes; wf := wf_share;
  dec_enc := share_dec_enc; enc_dec := share_enc_dec; dec_total := share_total
|}.

Lemma wrapped_dec_enc w : wf_wrapped w -> wrapped_from_bytes (wrapped_to_bytes w) = Ok w.
Proof.
  unfold wf_wrapped. wire_lens. intros (Hv & Hr & Hb). unfold wrapped_from_bytes, wrapped_to_bytes. wire_lens.
  rewrite (proj2 (Z.eqb_eq _ _)) by len_lia. cbn [negb rguard]. rd_index (as_u8 (version w)). cbn zeta.
  rewrite Hv. change (u8 (as_u8 PROTOCOL_VERSION)) with PROTOCOL_VERSION. rewrite Z.eqb_refl. cbn [negb rguard].
  rd_slice (ephemeral_r w). unfold slice_from. rd_slice (aead_blob w). rewrite <- Hv. by destruct w.
Qed.

Lemma wrapped_enc_dec b w : wrapped_from_bytes b = Ok w -> wrapped_to_bytes w = b /\ wf_wrapped w.
Proof.
  unfold wrapped_from_bytes, slice_from. intros Hd. apply rguard_Ok in Hd as [Hl Hd]. inv_index Hd b0 S0. cbn zeta in Hd.
  apply rguard_Ok in Hd as [Hv Hd]. inv_slice Hd r S1 L1. inv_slice Hd bl S2 L2. injection Hd as <-. zbool. wire_lens. split.
  - unfold wrapped_to_bytes. cbn [version ephemeral_r aead_blob]. rewrite as_u8_u8.
    eapply (slices_cover (E := BackupError)); [glue_slices|done].
  - unfold wf_wrapped. cbn. wire_lens. split_and!; lia || done.
Qed.

Lemma wrapped_total b : wrapped_from_bytes b <> Panic.
Proof. unfold wrapped_from_bytes, slice_from. wire_lens. intros Hp. no_panic Hp. Qed.

#[export] Instance wrapped_codec : Codec BackupError WrappedKey := {|
  enc := wrapped_to_bytes; dec := wrapped_from_bytes; wf := wf_wrapped;
  dec_enc := wrapped_dec_enc; enc_dec := wrapped_enc_dec; dec_total := wrapped_total
|}.

Lemma wrapped_v2_dec_enc w : wf_v2 w -> v2_from_bytes (v2_to_bytes w) = Ok w.
Proof.
  unfold wf_v2. wire_lens. intros (Hc & Hp). unfold v2_from_bytes, v2_to_bytes. wire_lens.
  assert (Hl : len ([as_u8 (suite_as_u8 V2HybridXWing)] ++ xwing_ciphertext w ++ aead_payload w) = 1218) by len_lia.
  rewrite Hl. change (1218 =? 0) with false. cbn [rguard]. rd_index (as_u8 (suite_as_u8 V2HybridXWing)).
  change (suite_try_from true (u8 (as_u8 (suite_as_u8 V2HybridXWing)))) with (Ok (E := BackupError) V2HybridXWing).
  cbn [rbind]. rewrite bool_decide_eq_true_2 by done. cbn [negb rguard].
  change (1218 =? 1 + 1120 + (1 + 32 + (32 + 16) + 16)) with true. cbn [negb rguard].
  rd_slice (xwing_ciphertext w). unfold slice_from. rd_slice (aead_payload w). by destruct w.
Qed.

Lemma wrapped_v2_enc_dec b w : v2_from_bytes b = Ok w -> v2_to_bytes w = b /\ wf_v2 w.
Proof.
  unfold v2_from_bytes, slice_from. intros Hd. apply rguard_Ok in Hd as [_ Hd]. inv_index Hd b0 S0.
  apply rbind_Ok in Hd as (cs & Hcs & Hd). apply rguard_Ok in Hd as [Hv Hd]. apply rguard_Ok in Hd as [Hl Hd].
  inv_slice Hd ct S1 L1. inv_slice Hd pl S2 L2. injection Hd as <-. zbool. subst cs. wire_lens.
  assert (Hb : u8 b0 = 2) by (unfold suite_try_from in Hcs; repeat case_match; zbool; done). split.
  - unfold v2_to_bytes. cbn [xwing_ciphertext aead_payload].
    replace (as_u8 (suite_as_u8 V2HybridXWing)) with b0 by (apply u8_inj; by rewrite Hb).
    eapply (slices_cover (E := BackupError)); [glue_slices|done].
  - unfold wf_v2. cbn. wire_lens. lia.
Qed.

Lemma wrapped_v2_total b : v2_from_bytes b <> Panic.
Proof.
  unfold v2_from_bytes, slice_from. wire_lens. intros Hp. no_panic_step Hp. pose proof (len_nonneg b). no_panic_step Hp.
  apply rbind_Panic in Hp as [Hp|(i & _ & Hp)]; [unfold suite_try_from in Hp; by repeat case_match|no_panic Hp].
Qed.

#[export] Instance wrapped_v2_codec : Codec BackupError WrappedKeyV2 := {|
  enc := v2_to_bytes; dec := v2_from_bytes; wf := wf_v2;
  dec_enc := wrapped_v2_dec_enc; enc_dec := wrapped_v2_enc_dec; dec_total := wrapped_v2_total
|}.

Lemma canonical_bytes_inj a b : wf_aad a -> wf_aad b -> canonical_bytes a = canonical_bytes b -> a = b.
Proof.
  intros (A1 & A2 & A3 & A4) (B1 & B2 & B3 & B4) He. unfold canonical_bytes in He.
  peel He E1. peel He E2. peel He E3. apply to_be_u64_inj in He; [|done|done]. destruct a, b. cbn in *. congruence.
Qed.

(** ** The version 2 envelope *)
Class CloudCryptoLaws `{Pq.PqBackend} `{CloudCrypto} := {
  chacha_correct k n m a : chacha_decrypt k n (chacha_encrypt k n m a) a = Some m;
  chacha_len k n m a : len (chacha_encrypt k n m a) = len m + AEAD_TAG_LEN;
  hkdf_sha256_len s i f n : 0 <= n <= 8160 -> len (Pq.hkdf_sha256 s i f n) = n
}.

Section V2Laws.
Context `{Pq.PqBackendLaws} `{CloudCrypto} `{!CloudCryptoLaws} {R : Type} `{Pq.Rng R}.

Lemma derive_v2_Ok ss ct pk :
  exists key nonce, derive_v2_aead_key_nonce ss ct pk = Ok (key, nonce) /\ len key = 32 /\ len nonce = 12.
Proof.
  unfold derive_v2_aead_key_nonce, slice_from. wire_lens.
  assert (Hl : len (Pq.hkdf_sha256 V2_HKDF_SALT ss (V2_DOMAIN_SEP ++ ct ++ pk) (32 + 12)) = 44)
    by (apply hkdf_sha256_len; lia).
  rewrite Hl. destruct (slice_no_panic (E := BackupError) 0 32 (Pq.hkdf_sha256 V2_HKDF_SALT ss (V2_DOMAIN_SEP ++ ct ++ pk) (32 + 12)))
    as [x Hx]; [lia|lia|].
  destruct (slice_no_panic (E := BackupError) 32 44 (Pq.hkdf_sha256 V2_HKDF_SALT ss (V2_DOMAIN_SEP ++ ct ++ pk) (32 + 12)))
    as [y Hy]; [lia|lia|].
  rewrite Hx, Hy. exists x, y. split; [done|]. apply slice_ok_len in Hx, Hy. lia.
Qed.

(** Version 2 wrapping: for a generated X-Wing key pair, whenever encapsulation succeeds
    the wrap succeeds, its wire form has the fixed length and decodes to it, and the owner of
    the seed recovers the version 1 wrapped key bit for bit under the same associated data. *)
Theorem v2_wrap_unwrap (rng rng1 rng2 : R) (pk s witness : list byte) (v1 : WrappedKey) (aad : CanonicalAad)
    (Hkey : Pq.xwing_keygen rng = (Ok (pk, s), rng1)) (Hv1 : wf_wrapped v1)
    (Henc : exists cs, Pq.xwing_encaps_hedged pk witness (canonical_bytes aad) rng1 = (Ok cs, rng2)) :
  exists w, wrap_v1_into_v2 pk v1 aad witness rng1 = (Ok w, rng2) /\
    len (v2_to_bytes w) = WRAPPED_KEY_V2_LEN /\ v2_from_bytes (v2_to_bytes w) = Ok w /\
    unwrap_v2_to_v1 s pk w aad = Ok v1.
Proof.
  destruct Henc as [[ct ss] He]. unfold wrap_v1_into_v2, sbind. rewrite He. cbn [rmap_err].
  unfold Pq.xwing_keygen, Pq.xwing_encaps_hedged in *.
  destruct (Pq.fill_bytes _ rng), (Pq.fill_bytes _ rng1). injection Hkey as Hk <-. injection He as He <-.
  pose proof (Pq.xwing_roundtrip _ _ _ _ _ _ Hk He) as Hdec. apply Pq.xwing_encaps_Ok in He as (_ & Hct & _).
  destruct (derive_v2_Ok ss ct pk) as (key & nonce & Hder & _ & _). rewrite Hder. cbn [rbind slift].
  assert (Hw : len (wrapped_to_bytes v1) = WRAPPED_KEY_LEN).
  { destruct Hv1 as (_ & Hr & Hb). unfold wrapped_to_bytes. wire_lens. len_lia. }
  set (blob := chacha_encrypt key nonce (wrapped_to_bytes v1) (compose_v2_aead_aad aad pk)).
  assert (Hblob : len blob = WRAPPED_KEY_V2_AEAD_PAYLOAD_LEN) by (unfold blob; rewrite chacha_len, Hw; done).
  unfold slift. rewrite Hblob, Z.eqb_refl. cbn [negb rguard].
  exists {| xwing_ciphertext := ct; aead_payload := blob |}. split; [done|]. split; [|split].
  - unfold v2_to_bytes. cbn [xwing_ciphertext aead_payload]. rewrite !len_app, Hct, Hblob. done.
  - by apply wrapped_v2_dec_enc.
  - unfold unwrap_v2_to_v1, decrypt_v2_inner_wrapped_key_bytes. cbn [xwing_ciphertext aead_payload].
    rewrite Hdec. cbn [rmap_err rbind]. rewrite Hder. cbn [rbind]. unfold blob. rewrite chacha_correct. cbn [ok_or rbind].
    rewrite Hw, Z.eqb_refl. cbn [negb rguard]. by apply wrapped_dec_enc.
Qed.
End V2Laws.

(** The formats of the cloud backup are canonical and panic-free: unwrap shares, wrapped
    keys of version 1 and of version 2 decode to what was encoded, only encodings of
    well-formed values are accepted, no input panics; the first byte separates the versions,
    and the associated data determines sender, device, chat and sequence number. *)
Theorem cloud_wire_codecs (s : ServerUnwrapShare) (w : WrappedKey) (w2 : WrappedKeyV2) (a a' : CanonicalAad) (b : list byte) :
  ((wf_share s -> share_from_bytes (share_to_bytes s) = Ok s) /\
   (share_from_bytes b = Ok s -> share_to_bytes s = b /\ wf_share s) /\ share_from_bytes b <> Panic) /\
  ((wf_wrapped w -> wrapped_from_bytes (wrapped_to_bytes w) = Ok w) /\
   (wrapped_from_bytes b = Ok w -> wrapped_to_bytes w = b /\ wf_wrapped w) /\ wrapped_from_bytes b <> Panic) /\
  ((wf_v2 w2 -> v2_from_bytes (v2_to_bytes w2) = Ok w2) /\
   (v2_from_bytes b = Ok w2 -> v2_to_bytes w2 = b /\ wf_v2 w2) /\ v2_from_bytes b <> Panic) /\
  (wrapped_from_bytes b = Ok w -> v2_from_bytes b <> Ok w2) /\
  (wf_aad a -> wf_aad a' -> canonical_bytes a = canonical_bytes a' -> a = a').
Proof.
  split; [split_and!; [apply share_dec_enc|apply share_enc_dec|apply share_total]|].
  split; [split_and!; [apply wrapped_dec_enc|apply wrapped_enc_dec|apply wrapped_total]|].
  split; [split_and!; [apply wrapped_v2_dec_enc|apply wrapped_v2_enc_dec|apply wrapped_v2_total]|].
  split; [|apply canonical_bytes_inj].
  intros [Hb [Hv _]]%wrapped_enc_dec [Hb2 _]%wrapped_v2_enc_dec. rewrite <- Hb2 in Hb.
  unfold wrapped_to_bytes, v2_to_bytes in Hb. rewrite Hv in Hb. apply app_inj_len in Hb as [Hb _]; [|done]. discriminate Hb.
Qed.

(** ** Witness *)
Definition toy_cloud : CloudCrypto := {|
  hkdf512 salt ikm info n := Pq.pad_take (Z.to_nat n) (ikm ++ info);
  chacha_encrypt k n m a := m ++ replicate 16 Byte.x00;
  chacha_decrypt k n c a := Some (take (length c - 16) c)
|}.
#[export] Instance toy_cloud_laws : CloudCryptoLaws (H := Pq.toy_pq) (H0 := toy_cloud).
Proof.
  split.
  - intros k n m a.
    change (Some (take (length (m ++ replicate 16 Byte.x00) - 16) (m ++ replicate 16 Byte.x00)) = Some m).
    f_equal. rewrite length_app, length_replicate.
    replace (length m + 16 - 16)%nat with (length m) by lia. by rewrite take_app_length.
  - intros k n m a. apply len_app.
  - intros s i f n Hn. cbn. rewrite Pq.pad_take_len. lia.
Defined.
Definition w_v1 : WrappedKey :=
  {| version := 1; ephemeral_r := replicate 32 Byte.x04; aead_blob := replicate 48 Byte.x05 |}.
Definition w_aad : CanonicalAad :=
  {| sender_identity_pubkey := replicate 32 Byte.x01; recipient_device_pubkey := replicate 32 Byte.x02;
     chat_id := replicate 32 Byte.x03; msg_seq := 7 |}.

Lemma v2_wrap_unwrap_witness :
  exists w, @unwrap_v2_to_v1 Pq.toy_pq toy_cloud (replicate 32 Byte.x01) (Pq.pad_take 1216 (replicate 32 Byte.x01)) w w_aad
    = Ok w_v1.
Proof.
  destruct (@v2_wrap_unwrap Pq.toy_pq Pq.toy_pq_ed Pq.toy_pq_laws toy_cloud toy_cloud_laws Z Pq.toy_rng 1 2 3 (Pq.pad_take 1216 (replicate 32 Byte.x01))
    (replicate 32 Byte.x01) [] w_v1 w_aad) as (w & _ & _ & _ & Hw).
  - vm_compute. reflexivity.
  - done.
  - eexists. vm_compute. reflexivity.
  - by exists w.
Defined.

End CloudWire.
