(* ===== verification/CloudTransport.v ===== *)
(** * The sealed-server transport ([crates/umbrella-backup/src/cloud_wrap/transport.rs])

    The set of sealed servers a device asks for unwrap shares, with the device entries, the
    identity rotation and the nonces the servers have used.  The curve is the class [Curve]:
    decompression and the compressed product of a scalar and a point.  The nonces sit behind a
    mutex in the source; nothing panics while the lock is held, so it is never poisoned. *)
From S2P Require Import Prelude Bytes Crypto BackupError DeviceAuth KtLogState CloudRequest CloudWire.
Local Open Scope Z_scope.

Module CloudTransport.
Module KT := KtLogState.
Module Rq := CloudRequest.

Class Curve := {
  Scalar : Type;
  Point : Type;
  scalar_from_u64 : Z -> Scalar;
  decompress : list byte -> option Point;
  mul_compress : Scalar -> Point -> list byte    (* (k * P).compress().to_bytes() *)
}.

Section Transport.
Context `{Curve} `{Ed25519}.

Inductive MockServerBehavior := Honest | Offline | Tampered | IgnoreSignature.

Record MockSealedServer := { server_index : Z; share : Scalar; behavior : MockServerBehavior }.

Record MockUnwrapTransport := {
  servers : list MockSealedServer;
  used_server_nonces : gset (list byte);
  authorized_device_pubkeys : gset (list byte);
  device_entries : gmap (list byte) KT.DeviceEntryState;
  identity_rotation : option DeviceAuth.IdentityRotationRecord
}.

Definition transport_new (s : list MockSealedServer) : MockUnwrapTransport :=
  {| servers := s; used_server_nonces := ∅; authorized_device_pubkeys := ∅; device_entries := ∅;
     identity_rotation := None |}.

Definition set_nonces (n : gset (list byte)) (t : MockUnwrapTransport) : MockUnwrapTransport :=
  {| servers := servers t; used_server_nonces := n; authorized_device_pubkeys := authorized_device_pubkeys t;
     device_entries := device_entries t; identity_rotation := identity_rotation t |}.

Definition authorize_device (pk : list byte) (t : MockUnwrapTransport) : MockUnwrapTransport :=
  {| servers := servers t; used_server_nonces := used_server_nonces t;
     authorized_device_pubkeys := {[ pk ]} ∪ authorized_device_pubkeys t;
     device_entries := device_entries t; identity_rotation := identity_rotation t |}.

Definition register_device_entry (pk : list byte) (s : KT.DeviceEntryState) (t : MockUnwrapTransport)
  : MockUnwrapTransport :=
  {| servers := servers t; used_server_nonces := used_server_nonces t;
     authorized_device_pubkeys := authorized_device_pubkeys t;
     device_entries := <[pk := s]> (device_entries t); identity_rotation := identity_rotation t |}.

Definition set_identity_rotation (r : DeviceAuth.IdentityRotationRecord) (t : MockUnwrapTransport)
  : MockUnwrapTransport :=
  {| servers := servers t; used_server_nonces := used_server_nonces t;
     authorized_device_pubkeys := authorized_device_pubkeys t; device_entries := device_entries t;
     identity_rotation := Some r |}.

Definition check_authorization_state (t : MockUnwrapTransport) (request : Rq.SignedUnwrapRequest)
    (envelope_timestamp : Z) : res BackupError unit :=
  let? entry := ok_or (device_entries t !! Rq.device_pubkey request) CryptoVerificationFailed in
  let? _ := match KT.flag entry with
            | KT.Pending => Err DevicePendingAuthorization
            | KT.Revoked => Err DeviceRevoked
            | KT.Active | KT.BootstrapActive => Ok tt
            end in
  reject Rq.timestamp_unix_millis request <? KT.authorized_since entry with CryptoVerificationFailed ;;
  reject (0 <? KT.history_cutoff entry) && (envelope_timestamp <? KT.history_cutoff entry)
    with HistoryCutoffApplies envelope_timestamp (KT.history_cutoff entry) ;;
  match identity_rotation t with
  | Some rotation =>
      reject bool_decide (KT.identity_pubkey_at_publish entry = DeviceAuth.old_identity_pubkey rotation)
        with IdentityRotatedRefuseOldRequests ;;
      Ok tt
  | None => Ok tt
  end.

Definition check_and_record_nonce (request : Rq.SignedUnwrapRequest) : st MockUnwrapTransport BackupError unit :=
  let! t := sget in
  fail_if bool_decide (Rq.server_nonce request ∈ used_server_nonces t) with CryptoVerificationFailed ;;
  sput (set_nonces ({[ Rq.server_nonce request ]} ∪ used_server_nonces t) t).

(** The loop over the servers; each share is pushed at the end. *)
Fixpoint collect_shares (request : Rq.SignedUnwrapRequest) (r_point : Point) (ss : list MockSealedServer)
    (shares : list CloudWire.ServerUnwrapShare) : res BackupError (list CloudWire.ServerUnwrapShare) :=
  match ss with
  | [] => Ok shares
  | server :: rest =>
      let push k := shares ++ [{| CloudWire.witness_index := server_index server;
                                  CloudWire.partial := mul_compress k r_point |}] in
      match behavior server with
      | Offline => collect_shares request r_point rest shares
      | Honest =>
          let? _ := Rq.verify_signed_unwrap_request request in
          collect_shares request r_point rest (push (share server))
      | Tampered =>
          let? _ := Rq.verify_signed_unwrap_request request in
          collect_shares request r_point rest (push (scalar_from_u64 3735928559))
      | IgnoreSignature => collect_shares request r_point rest (push (share server))
      end
  end.

Definition dispatch_inner (request : Rq.SignedUnwrapRequest)
  : st MockUnwrapTransport BackupError (list CloudWire.ServerUnwrapShare) :=
  let! r_point := slift (ok_or (decompress (Rq.ephemeral_r request)) InvalidRistrettoEncoding) in
  let! _ := check_and_record_nonce request in
  let! t := sget in
  slift (collect_shares request r_point (servers t) []).

Definition dispatch_with_envelope (request : Rq.SignedUnwrapRequest) (envelope_timestamp : Z)
  : st MockUnwrapTransport BackupError (list CloudWire.ServerUnwrapShare) :=
  let! t := sget in
  let! _ := slift (check_authorization_state t request envelope_timestamp) in
  dispatch_inner request.

Definition dispatch (request : Rq.SignedUnwrapRequest)
  : st MockUnwrapTransport BackupError (list CloudWire.ServerUnwrapShare) :=
  let! t := sget in
  let! _ :=
    (if negb (bool_decide (device_entries t = ∅)) || bool_decide (is_Some (identity_rotation t))
     then slift (check_authorization_state t request U64_MAX)
     else if negb (bool_decide (authorized_device_pubkeys t = ∅)) &&
             negb (bool_decide (Rq.device_pubkey request ∈ authorized_device_pubkeys t))
          then slift (Err CryptoVerificationFailed)
          else sret tt) in
  dispatch_inner request.

(** ** What is answered *)

(** Who may be answered: an active device, authorized before the request, not past its history
    cutoff, published under an identity that has not been rotated away. *)
Definition may_unwrap (t : MockUnwrapTransport) (req : Rq.SignedUnwrapRequest) (envelope_ts : Z) : Prop :=
  exists e, device_entries t !! Rq.device_pubkey req = Some e /\ KT.is_active (KT.flag e) = true /\
    KT.authorized_since e <= Rq.timestamp_unix_millis req /\
    (0 < KT.history_cutoff e -> KT.history_cutoff e <= envelope_ts) /\
    (forall r, identity_rotation t = Some r ->
       KT.identity_pubkey_at_publish e <> DeviceAuth.old_identity_pubkey r).

Definition needs_signature (s : MockSealedServer) : bool :=
  match behavior s with Honest | Tampered => true | _ => false end.

(** The share a server contributes. *)
Definition contribution (r_point : Point) (s : MockSealedServer) : list CloudWire.ServerUnwrapShare :=
  let mk k := [{| CloudWire.witness_index := server_index s; CloudWire.partial := mul_compress k r_point |}] in
  match behavior s with
  | Offline => []
  | Honest | IgnoreSignature => mk (share s)
  | Tampered => mk (scalar_from_u64 3735928559)
  end.

Lemma check_authorization_Ok t req ts :
  check_authorization_state t req ts = Ok tt <-> may_unwrap t req ts.
Proof.
  unfold check_authorization_state, may_unwrap. destruct (device_entries t !! _) as [e|]; cbn; [|naive_solver].
  split.
  - intros Hc. destruct (KT.flag e) eqn:Hf; cbn in Hc; try done; res_inv Hc; exists e; rewrite Hf; zbool;
      (split; [done|]; split; [done|]; split; [lia|]; split;
       [intros Hp; destruct (0 <? KT.history_cutoff e) eqn:H1; zbool; [|lia]; cbn in *; zbool; lia|]);
      intros r Hr; rewrite Hr in Hc; res_inv Hc; by zbool.
  - intros (e' & [= <-] & Ha & Hs & Hcut & Hrot). destruct (KT.flag e); try done; cbn;
      rewrite (proj2 (Z.ltb_ge _ _)) by lia; cbn;
      (destruct (0 <? KT.history_cutoff e) eqn:H1; zbool; cbn; [rewrite (proj2 (Z.ltb_ge _ _)) by lia; cbn|]);
      (destruct (identity_rotation t); [rewrite bool_decide_eq_false_2 by auto|]); done.
Qed.

Lemma collect_shares_Ok req p ss acc out :
  collect_shares req p ss acc = Ok out <->
  (existsb needs_signature ss = true -> Rq.verify_signed_unwrap_request req = Ok tt) /\
  out = acc ++ flat_map (contribution p) ss.
Proof.
  revert acc. induction ss as [|s ss IH]; intros acc; cbn [collect_shares existsb flat_map].
  { rewrite app_nil_r. split; [intros [= <-]; naive_solver|by intros [_ ->]]. }
  unfold needs_signature at 1, contribution at 1.
  destruct (behavior s); cbn [orb app]; rewrite ?app_assoc;
    try (rewrite IH, <- ?app_assoc; cbn [app]; done);
    (destruct (Rq.verify_signed_unwrap_request req) as [[]|e|];
      [cbn [rbind]; rewrite IH, <- app_assoc; naive_solver|naive_solver|naive_solver]).
Qed.

Lemma dispatch_inner_Ok req t out t' :
  dispatch_inner req t = (Ok out, t') <->
  exists p, decompress (Rq.ephemeral_r req) = Some p /\ Rq.server_nonce req ∉ used_server_nonces t /\
    (existsb needs_signature (servers t) = true -> Rq.verify_signed_unwrap_request req = Ok tt) /\
    out = flat_map (contribution p) (servers t) /\
    t' = set_nonces ({[ Rq.server_nonce req ]} ∪ used_server_nonces t) t.
Proof.
  unfold dispatch_inner, check_and_record_nonce, sbind, slift, sget, sput, sguard.
  destruct (decompress _) as [p|]; cbn; [|naive_solver].
  case_bool_decide as Hin; cbn; [naive_solver|]. split.
  - intros He. injection He as Hc <-. apply collect_shares_Ok in Hc as [Hs ->]. naive_solver.
  - intros (p' & [= <-] & _ & Hs & -> & ->). f_equal. by apply collect_shares_Ok.
Qed.
End Transport.

(** ** Theorems *)
Section Theorems.
Context `{Curve} `{Ed25519}.

(** The sealed servers answer exactly whom they should: shares are returned precisely when
    the device is active and authorized, the envelope is not before its history cutoff, its
    identity was not rotated away, the point decodes, the nonce is new and, if any server checks
    it, the signature verifies; then every reachable server contributes its share in order and
    the nonce is used.  A request refused for its device leaves the state unchanged, and a used
    nonce is refused for every request. *)
Theorem dispatch_exact (req : Rq.SignedUnwrapRequest) (ts : Z) (t : MockUnwrapTransport) :
  (forall out t', dispatch_with_envelope req ts t = (Ok out, t') <->
     may_unwrap t req ts /\
     exists p, decompress (Rq.ephemeral_r req) = Some p /\ Rq.server_nonce req ∉ used_server_nonces t /\
       (existsb needs_signature (servers t) = true -> Rq.verify_signed_unwrap_request req = Ok tt) /\
       out = flat_map (contribution p) (servers t) /\
       t' = set_nonces ({[ Rq.server_nonce req ]} ∪ used_server_nonces t) t) /\
  (~ may_unwrap t req ts -> exists r, dispatch_with_envelope req ts t = (r, t) /\ forall out, r <> Ok out) /\
  (Rq.server_nonce req ∈ used_server_nonces t ->
     exists r, dispatch_with_envelope req ts t = (r, t) /\ forall out, r <> Ok out).
Proof.
  unfold dispatch_with_envelope at 1 2 3, sbind, sget, slift. pose proof (check_authorization_Ok t req ts) as Hc.
  destruct (check_authorization_state t req ts) as [[]|e|].
  - split; [|split; [by naive_solver|]].
    + intros out t'. rewrite dispatch_inner_Ok. naive_solver.
    + intros Hin. unfold dispatch_inner, check_and_record_nonce, sbind, slift, sget, sguard.
      destruct (decompress _); cbn; [|naive_solver]. rewrite bool_decide_eq_true_2 by done. naive_solver.
  - split; [|split; naive_solver]. intros out t'. split; [done|naive_solver].
  - split; [|split; naive_solver]. intros out t'. split; [done|naive_solver].
Qed.

(** Unlike the production check, which records the nonce last, this transport records it before
    any server checks the signature: a request refused for its signature has used its nonce. *)
Lemma bad_signature_uses_nonce req ts t p :
  may_unwrap t req ts -> decompress (Rq.ephemeral_r req) = Some p ->
  Rq.server_nonce req ∉ used_server_nonces t -> existsb needs_signature (servers t) = true ->
  Rq.verify_signed_unwrap_request req <> Ok tt ->
  exists r, dispatch_with_envelope req ts t = (r, set_nonces ({[ Rq.server_nonce req ]} ∪ used_server_nonces t) t) /\
    forall out, r <> Ok out.
Proof.
  intros Hm Hp Hn Hs Hv. unfold dispatch_with_envelope, sbind, sget, slift.
  rewrite (proj2 (check_authorization_Ok t req ts) Hm).
  unfold dispatch_inner, check_and_record_nonce, sbind, slift, sget, sput, sguard. rewrite Hp. cbn.
  rewrite bool_decide_eq_false_2 by done. eexists. split; [done|].
  intros out Ho. apply collect_shares_Ok in Ho as [Ho _]. auto.
Qed.

(** The dispatch without an envelope never applies a history cutoff below the largest time. *)
Lemma dispatch_is_envelope_max req t :
  device_entries t <> ∅ -> dispatch req t = dispatch_with_envelope req U64_MAX t.
Proof.
  intros Hne. unfold dispatch, dispatch_with_envelope, sbind, sget. by rewrite (bool_decide_eq_false_2 _ Hne).
Qed.
End Theorems.

End CloudTransport.
