(* ===== verification/SealedSender.v ===== *)
(** * Sealed-sender envelopes ([crates/umbrella-sealed-sender/src/])

    [lib.rs] (version 1, X25519), [hybrid_envelope.rs] (version 2, X-Wing), [version.rs] and
    [self_destruct.rs].  A key store is the record of operations the envelopes use of it; the
    random generator is the one of [Pq].  X25519, HKDF and ChaCha20-Poly1305 are parameters. *)
From S2P Require Import Prelude Bytes Crypto Padding Pq.
Local Open Scope string_scope.
Local Open Scope list_scope.
Local Open Scope Z_scope.

Module SealedSender.
Module P := Padding.

Definition VERSION : Z := 1.
Definition VERSION_LEN : Z := 1.
Definition X25519_PUBLIC_LEN : Z := 32.
Definition AEAD_KEY_LEN : Z := 32.
Definition AEAD_NONCE_LEN : Z := 12.
Definition DOMAIN_SEP : list byte := bytes_of_string "umbrellax-sealed-sender-v1".
Definition V2_DOMAIN_SEP : list byte := bytes_of_string "umbrellax-sealed-sender-v2".
Definition INNER_HEADER_LEN : Z := PUBLIC_KEY_LEN + SIGNATURE_LEN.
Definition MIN_WIRE_LEN : Z := VERSION_LEN + X25519_PUBLIC_LEN + 256 + 16.
Definition V2_MIN_WIRE_LEN : Z := VERSION_LEN + Pq.XWING_CIPHERTEXT_LEN + 256 + 16.
Definition MAX_PAYLOAD : Z := P.MAX_PAYLOAD - INNER_HEADER_LEN.

(** [CryptoError], as far as these functions return it. *)
Inductive CryptoError := InvalidLength (expected got : Z) | BackendFailure | AeadAuthFailure.

Inductive SealedSenderError :=
| Malformed (reason : string)
| UnsupportedVersion (got : Z)
| PayloadTooLarge (payload_len max : Z)
| PaddingFailed (e : P.PaddingError)
| CryptoFailed (e : CryptoError)
| InvalidSignature
| MalformedSenderKey
| PqFeatureRequired (version : Z)
| InvalidV2Envelope (what : string).

Record OpenedEnvelope := { sender_identity : list byte; message : list byte }.

(** ** Versions ([version.rs]) *)
Inductive SealedSenderVersion := V1Classical | V2HybridXWing.
#[global] Instance SealedSenderVersion_eq_dec : EqDecision SealedSenderVersion.
Proof. solve_decision. Defined.

Definition version_as_u8 (v : SealedSenderVersion) : Z := match v with V1Classical => 1 | V2HybridXWing => 2 end.
Definition version_try_from (b : Z) : res SealedSenderError SealedSenderVersion :=
  if b =? 1 then Ok V1Classical
  else if b =? 2 then Ok V2HybridXWing
  else Err (UnsupportedVersion b).

(** ** Self-destruct headers ([self_destruct.rs]) *)
Record SelfDestructHeader := { version : Z; ttl_secs : Z; one_time : bool; notify_on_screenshot : bool }.

(** The 32-byte buffer with its first eleven bytes written. *)
Definition header_to_bytes (h : SelfDestructHeader) : list byte :=
  [as_u8 (version h)] ++ to_be 8 (ttl_secs h) ++ [if one_time h then Byte.x01 else Byte.x00] ++
  [if notify_on_screenshot h then Byte.x01 else Byte.x00] ++ replicate 21 Byte.x00.

(** The argument is a [[u8; 32]]. *)
Definition header_from_bytes (bytes : list byte) : res unit (option SelfDestructHeader) :=
  let? v := index 0 bytes in
  if negb (u8 v =? 1) then Ok None
  else
    let? ttl_buf := slice 1 9 bytes in
    let? b9 := index 9 bytes in
    let? b10 := index 10 bytes in
    Ok (Some {| version := u8 v; ttl_secs := from_be ttl_buf; one_time := negb (u8 b9 =? 0);
                notify_on_screenshot := negb (u8 b10 =? 0) |}).

(** [SystemTime] as nanoseconds; [duration_since] fails when [now] is earlier. *)
Definition should_wipe (h : SelfDestructHeader) (viewed_at now : Z) : bool :=
  if one_time h then true
  else if ttl_secs h =? 0 then false
  else if viewed_at <=? now then ttl_secs h * 1000000000 <=? now - viewed_at
  else false.

Definition header_one_time (notify : bool) : SelfDestructHeader :=
  {| version := 1; ttl_secs := 0; one_time := true; notify_on_screenshot := notify |}.
Definition header_ttl_secs (secs : Z) (notify : bool) : SelfDestructHeader :=
  {| version := 1; ttl_secs := secs; one_time := false; notify_on_screenshot := notify |}.

(** ** Envelopes *)

(** What the envelopes use of [KeyStore]. *)
Record KeyStore := {
  identity_public : list byte;
  sign_with_identity : list byte -> list byte;
  identity_x25519_public : list byte;
  x25519_dh_with_identity : list byte -> list byte;
  hedged_encaps_witness : list byte
}.

Class EnvelopeCrypto := {
  x25519_public : list byte -> list byte;                        (* secret *)
  x25519_dh : list byte -> list byte -> list byte;               (* secret, public *)
  hkdf_expand : list byte -> list byte -> list byte -> Z -> option (list byte);    (* salt, ikm, info, length *)
  aead_encrypt : list byte -> list byte -> list byte -> list byte -> option (list byte);  (* key, nonce, aad, msg *)
  aead_decrypt : list byte -> list byte -> list byte -> list byte -> option (list byte)
}.

Definition HKDF_SHA256_MAX_OUTPUT : Z := 255 * 32.

Section Envelopes.
Context {EC : EnvelopeCrypto} {Ed : Ed25519} {PB : Pq.PqBackend} {R : Type} {RG : Pq.Rng R}.

(** [hkdf_sha256::<N>] of [kdf.rs]. *)
Definition hkdf_sha256 (n : Z) (salt ikm info : list byte) : res SealedSenderError (list byte) :=
  ok_or (hkdf_expand salt ikm info n) (CryptoFailed (InvalidLength HKDF_SHA256_MAX_OUTPUT n)).

Definition split_okm (okm : list byte) : res SealedSenderError (list byte * list byte) :=
  let? key := slice 0 AEAD_KEY_LEN okm in
  let? nonce := slice AEAD_KEY_LEN (AEAD_KEY_LEN + AEAD_NONCE_LEN) okm in
  Ok (key, nonce).

Definition derive_keys (shared eph_pub recipient_x25519_pub : list byte) : res SealedSenderError (list byte * list byte) :=
  let info := DOMAIN_SEP ++ eph_pub ++ recipient_x25519_pub in
  let? okm := hkdf_sha256 (AEAD_KEY_LEN + AEAD_NONCE_LEN) DOMAIN_SEP shared info in
  split_okm okm.

Definition signature_payload (eph_pub msg : list byte) : list byte := DOMAIN_SEP ++ eph_pub ++ msg.
Definition aead_ad (eph_pub recipient_x25519_pub : list byte) : list byte :=
  [as_u8 VERSION] ++ eph_pub ++ recipient_x25519_pub.

(** The signed, padded and encrypted inner part. *)
Definition seal_inner (keystore : KeyStore) (sig_payload msg key nonce ad : list byte) : res SealedSenderError (list byte) :=
  let sig := sign_with_identity keystore sig_payload in
  let inner := identity_public keystore ++ sig ++ msg in
  let? padded := rmap_err PaddingFailed (P.pad_to_bucket inner) in
  ok_or (aead_encrypt key nonce ad padded) (CryptoFailed BackendFailure).

Definition seal (keystore : KeyStore) (recipient_x25519_pub msg : list byte) : st R SealedSenderError (list byte) :=
  fun rng =>
  if MAX_PAYLOAD <? len msg then (Err (PayloadTooLarge (len msg) MAX_PAYLOAD), rng)
  else
    let '(ephemeral, rng) := Pq.fill_bytes 32 rng in
    (let eph_pub := x25519_public ephemeral in
     let shared := x25519_dh ephemeral recipient_x25519_pub in
     let? (aead_key, aead_nonce) := derive_keys shared eph_pub recipient_x25519_pub in
     let ad := aead_ad eph_pub recipient_x25519_pub in
     let? inner_ct := seal_inner keystore (signature_payload eph_pub msg) msg aead_key aead_nonce ad in
     Ok ([as_u8 VERSION] ++ eph_pub ++ inner_ct), rng).

(** The decrypted inner part: padding, header, sender key and signature. *)
Definition open_inner (short : string) (sig_payload : list byte -> list byte) (padded : list byte)
  : res SealedSenderError OpenedEnvelope :=
  let? inner := rmap_err PaddingFailed (P.strip_padding padded) in
  reject len inner <? INNER_HEADER_LEN with Malformed short ;;
  let? sender_id_bytes := slice 0 PUBLIC_KEY_LEN inner in
  reject negb (vk_valid sender_id_bytes) with MalformedSenderKey ;;
  let? sig_bytes := slice PUBLIC_KEY_LEN INNER_HEADER_LEN inner in
  let? msg := slice_from INNER_HEADER_LEN inner in
  reject negb (vk_valid sender_id_bytes) with MalformedSenderKey ;;
  reject negb (ed_verify sender_id_bytes (sig_payload msg) sig_bytes) with InvalidSignature ;;
  Ok {| sender_identity := sender_id_bytes; message := msg |}.

Definition unseal (keystore : KeyStore) (wire : list byte) : res SealedSenderError OpenedEnvelope :=
  reject len wire <? MIN_WIRE_LEN with Malformed "wire shorter than minimum" ;;
  let? v := index 0 wire in
  reject negb (u8 v =? VERSION) with UnsupportedVersion (u8 v) ;;
  let? eph_pub := slice VERSION_LEN (VERSION_LEN + X25519_PUBLIC_LEN) wire in
  let? inner_ct := slice_from (VERSION_LEN + X25519_PUBLIC_LEN) wire in
  let shared := x25519_dh_with_identity keystore eph_pub in
  let own_recipient_x25519 := identity_x25519_public keystore in
  let? (aead_key, aead_nonce) := derive_keys shared eph_pub own_recipient_x25519 in
  let ad := aead_ad eph_pub own_recipient_x25519 in
  let? padded := ok_or (aead_decrypt aead_key aead_nonce ad inner_ct) (CryptoFailed AeadAuthFailure) in
  open_inner "inner plaintext shorter than header" (signature_payload eph_pub) padded.

(** ** Version 2 *)
Definition derive_v2_keys (shared xwing_ct recipient_xwing_pubkey : list byte)
  : res SealedSenderError (list byte * list byte) :=
  let info := V2_DOMAIN_SEP ++ xwing_ct ++ recipient_xwing_pubkey in
  let? okm := hkdf_sha256 (AEAD_KEY_LEN + AEAD_NONCE_LEN) V2_DOMAIN_SEP shared info in
  split_okm okm.

Definition signature_payload_v2 (xwing_ct msg : list byte) : list byte := V2_DOMAIN_SEP ++ xwing_ct ++ msg.
Definition aead_ad_v2 (xwing_ct recipient_xwing_pubkey : list byte) : list byte :=
  [as_u8 (version_as_u8 V2HybridXWing)] ++ xwing_ct ++ recipient_xwing_pubkey.

Definition seal_v2 (keystore : KeyStore) (recipient_xwing_pubkey msg : list byte) : st R SealedSenderError (list byte) :=
  fun rng =>
  if MAX_PAYLOAD <? len msg then (Err (PayloadTooLarge (len msg) MAX_PAYLOAD), rng)
  else
    let transcript := identity_public keystore ++ recipient_xwing_pubkey ++ [as_u8 (version_as_u8 V2HybridXWing)] in
    let '(r, rng) := Pq.xwing_encaps_hedged recipient_xwing_pubkey (hedged_encaps_witness keystore) transcript rng in
    (let? (xwing_ct, shared_secret) := rmap_err (fun _ => InvalidV2Envelope "xwing_encaps_failed") r in
     let? (aead_key, aead_nonce) := derive_v2_keys shared_secret xwing_ct recipient_xwing_pubkey in
     let ad := aead_ad_v2 xwing_ct recipient_xwing_pubkey in
     let? inner_ct := seal_inner keystore (signature_payload_v2 xwing_ct msg) msg aead_key aead_nonce ad in
     Ok ([as_u8 (version_as_u8 V2HybridXWing)] ++ xwing_ct ++ inner_ct), rng).

Definition unseal_v2 (own_xwing_pubkey own_xwing_seed wire : list byte) : res SealedSenderError OpenedEnvelope :=
  reject len wire =? 0 with Malformed "V2 wire is empty" ;;
  let? v := index 0 wire in
  let? ver := version_try_from (u8 v) in
  reject negb (bool_decide (ver = V2HybridXWing)) with UnsupportedVersion (u8 v) ;;
  reject len wire <? V2_MIN_WIRE_LEN with Malformed "V2 wire shorter than minimum" ;;
  let? ct_buf := slice VERSION_LEN (VERSION_LEN + Pq.XWING_CIPHERTEXT_LEN) wire in
  let? shared_secret := rmap_err (fun _ => InvalidV2Envelope "xwing_decaps_failed") (Pq.xwing_decaps own_xwing_seed ct_buf) in
  let? (aead_key, aead_nonce) := derive_v2_keys shared_secret ct_buf own_xwing_pubkey in
  let? inner_ct := slice_from (VERSION_LEN + Pq.XWING_CIPHERTEXT_LEN) wire in
  let ad := aead_ad_v2 ct_buf own_xwing_pubkey in
  let? padded := ok_or (aead_decrypt aead_key aead_nonce ad inner_ct) (CryptoFailed AeadAuthFailure) in
  open_inner "V2 inner plaintext shorter than header" (signature_payload_v2 ct_buf) padded.

(** ** What the envelopes rely on *)
Class EnvelopeLaws : Prop := {
  x25519_public_len k : len (x25519_public k) = 32;
  dh_agree a b : x25519_dh a (x25519_public b) = x25519_dh b (x25519_public a);
  hkdf_len salt ikm info n : 0 <= n <= HKDF_SHA256_MAX_OUTPUT ->
    exists okm, hkdf_expand salt ikm info n = Some okm /\ len okm = n;
  aead_total k n a m : len m <= P.MAX_BUCKET -> exists c, aead_encrypt k n a m = Some c;
  aead_inverse k n a m c : aead_encrypt k n a m = Some c -> aead_decrypt k n a c = Some m;
  aead_len k n a m c : aead_encrypt k n a m = Some c -> len c = len m + 16
}.

(** A key store of a real account, whose X25519 secret is [xs]. *)
Record genuine (ks : KeyStore) (xs : list byte) : Prop := {
  gen_x_public : identity_x25519_public ks = x25519_public xs;
  gen_x_dh p : x25519_dh_with_identity ks p = x25519_dh xs p;
  gen_id_len : len (identity_public ks) = 32;
  gen_id_valid : vk_valid (identity_public ks) = true;
  gen_sig_len m : len (sign_with_identity ks m) = 64;
  gen_sig m : ed_verify (identity_public ks) m (sign_with_identity ks m) = true
}.

Section Laws.
Context {EL : EnvelopeLaws}.

Lemma split_okm_total okm : len okm = 44 -> exists k n, split_okm okm = Ok (k, n).
Proof.
  intros Hl. unfold split_okm, AEAD_KEY_LEN, AEAD_NONCE_LEN.
  destruct (slice_no_panic (E := SealedSenderError) 0 32 okm) as [k ->]; [lia..|]. cbn [rbind].
  destruct (slice_no_panic (E := SealedSenderError) 32 (32 + 12) okm) as [n ->]; [lia..|]. cbn [rbind]. eauto.
Qed.

Lemma hkdf_split_total salt ikm info :
  exists k n, rbind (hkdf_sha256 (AEAD_KEY_LEN + AEAD_NONCE_LEN) salt ikm info) split_okm = Ok (k, n).
Proof.
  unfold hkdf_sha256. destruct (hkdf_len salt ikm info (AEAD_KEY_LEN + AEAD_NONCE_LEN)) as (okm & -> & Hl);
    [by vm_compute|]. cbn [ok_or rbind]. by apply split_okm_total.
Qed.

Lemma derive_keys_total s e r : exists k n, derive_keys s e r = Ok (k, n).
Proof. apply hkdf_split_total. Qed.
Lemma derive_v2_keys_total s c r : exists k n, derive_v2_keys s c r = Ok (k, n).
Proof. apply hkdf_split_total. Qed.

(** Opening what [seal_inner] encrypted. *)
Lemma inner_roundtrip ks xs short spl msg key nonce ad :
  genuine ks xs -> len msg <= MAX_PAYLOAD ->
  exists bucket ct, P.chosen_bucket (96 + len msg) = Some bucket /\
    seal_inner ks (spl msg) msg key nonce ad = Ok ct /\ len ct = bucket + 16 /\
    exists padded, aead_decrypt key nonce ad ct = Some padded /\
      open_inner short spl padded = Ok {| sender_identity := identity_public ks; message := msg |}.
Proof.
  intros [_ _ Hil Hiv Hsl Hsg] Hl. set (inner := identity_public ks ++ sign_with_identity ks (spl msg) ++ msg).
  assert (Li : len inner = 96 + len msg) by (unfold inner; rewrite !len_app, Hil, Hsl; lia).
  pose proof (len_nonneg msg) as Hm. pose proof (len_nonneg inner) as Hin.
  unfold MAX_PAYLOAD, INNER_HEADER_LEN, PUBLIC_KEY_LEN, SIGNATURE_LEN in Hl.
  destruct (P.chosen_bucket (96 + len msg)) as [b|] eqn:Hb; [|apply P.chosen_bucket_None in Hb; lia].
  destruct (P.chosen_bucket_Some (96 + len msg) b ltac:(lia) Hb) as [Hbin Hfit]. pose proof (P.buckets_bounds _ Hbin) as Hbb.
  rewrite <- Li in Hb, Hfit. pose proof (P.pad_to_bucket_frame inner b Hb) as Hpad.
  destruct (aead_total key nonce ad (P.frame b inner)) as [ct Hct]; [rewrite P.len_frame by done; lia|].
  exists b, ct. split; [done|]. split.
  { unfold seal_inner. fold inner. rewrite Hpad. cbn [rmap_err rbind]. by rewrite Hct. }
  pose proof (aead_len _ _ _ _ _ Hct) as Lc. rewrite P.len_frame in Lc by done. split; [done|].
  exists (P.frame b inner). split; [by apply aead_inverse|].
  unfold open_inner. rewrite P.strip_padding_frame by done. cbn [rmap_err rbind].
  unfold INNER_HEADER_LEN, PUBLIC_KEY_LEN, SIGNATURE_LEN, slice_from. rewrite (proj2 (Z.ltb_ge _ _)) by lia. cbn [rguard].
  unfold inner. specialize (Hsl (spl msg)). rd_slice (identity_public ks). rewrite Hiv. cbn [negb rguard].
  rd_slice (sign_with_identity ks (spl msg)). rd_slice msg. by rewrite Hsg.
Qed.

(** A successful opening shows a valid signature of the named sender over the message. *)
Lemma open_inner_Ok short spl padded env :
  open_inner short spl padded = Ok env ->
  vk_valid (sender_identity env) = true /\ exists sig, len sig = 64 /\
    ed_verify (sender_identity env) (spl (message env)) sig = true /\
    P.strip_padding padded = Ok (sender_identity env ++ sig ++ message env).
Proof.
  unfold open_inner, INNER_HEADER_LEN, PUBLIC_KEY_LEN, SIGNATURE_LEN, slice_from. intros Ho.
  apply rbind_Ok in Ho as (inner & Hi & Ho). apply rguard_Ok in Ho as [Hl Ho]. inv_slice Ho q Sq Lq.
  apply rguard_Ok in Ho as [Hv Ho]. inv_slice Ho sg Ss Ls. inv_slice Ho m Sm Lm.
  apply rguard_Ok in Ho as [_ Ho]. apply rguard_Ok in Ho as [Hs Ho]. injection Ho as <-. zbool.
  cbn [sender_identity message]. split; [done|]. exists sg. split; [lia|]. split; [done|].
  assert (Hc : q ++ sg ++ m = inner) by (eapply (slices_cover (E := SealedSenderError)); [glue_slices|done]).
  rewrite Hc. by destruct (P.strip_padding padded); cbn in Hi; congruence.
Qed.

Lemma open_inner_total short spl padded : open_inner short spl padded <> Panic.
Proof.
  unfold open_inner, INNER_HEADER_LEN, PUBLIC_KEY_LEN, SIGNATURE_LEN, slice_from. intros Hp.
  destruct (P.strip_padding padded) as [inner|e|] eqn:Hi; cbn [rmap_err rbind] in Hp; [|done|by apply P.strip_padding_total in Hi].
  no_panic Hp.
Qed.

Lemma seal_unseal sender xs1 recipient xs2 msg rng :
  genuine sender xs1 -> genuine recipient xs2 ->
  if MAX_PAYLOAD <? len msg
  then seal sender (identity_x25519_public recipient) msg rng = (Err (PayloadTooLarge (len msg) MAX_PAYLOAD), rng)
  else exists wire rng' bucket,
    seal sender (identity_x25519_public recipient) msg rng = (Ok wire, rng') /\
    P.chosen_bucket (96 + len msg) = Some bucket /\ len wire = 49 + bucket /\
    unseal recipient wire = Ok {| sender_identity := identity_public sender; message := msg |}.
Proof.
  intros Hs Hr. unfold seal. destruct (MAX_PAYLOAD <? len msg) eqn:Hl; [done|]. zbool.
  destruct (Pq.fill_bytes 32 rng) as [eph rng']. set (ep := x25519_public eph).
  pose proof (x25519_public_len eph) as Le. fold ep in Le. pose proof Hr as [Hx Hdh _ _ _ _].
  assert (Hsh : x25519_dh eph (identity_x25519_public recipient) = x25519_dh_with_identity recipient ep).
  { rewrite Hx, Hdh. apply dh_agree. }
  rewrite Hsh. destruct (derive_keys_total (x25519_dh_with_identity recipient ep) ep (identity_x25519_public recipient)) as (k & n & Hk).
  cbn zeta. rewrite Hk. cbn [rbind].
  destruct (inner_roundtrip sender xs1 "inner plaintext shorter than header" (signature_payload ep) msg k n
    (aead_ad ep (identity_x25519_public recipient)) Hs Hl) as (b & ct & Hb & Hsi & Lc & pd & Hdec & Hop).
  rewrite Hsi. cbn [rbind]. exists ([as_u8 VERSION] ++ ep ++ ct), rng', b. split; [done|]. split; [done|].
  split; [autorewrite with umb_len; lia|]. pose proof (P.chosen_bucket_Some (96 + len msg) b (ltac:(pose proof (len_nonneg msg); lia)) Hb) as [Hin _].
  pose proof (P.buckets_bounds _ Hin).
  unfold unseal, MIN_WIRE_LEN, VERSION_LEN, X25519_PUBLIC_LEN, slice_from. cbn zeta.
  rewrite (proj2 (Z.ltb_ge _ _)) by len_lia. cbn [rguard]. rd_index (as_u8 VERSION).
  change (u8 (as_u8 VERSION) =? VERSION) with true. cbn [negb rguard]. rd_slice ep. rd_slice ct.
  rewrite Hk. cbn [rbind]. rewrite Hdec. cbn [ok_or rbind]. exact Hop.
Qed.

(** C13. Sealing to an account and opening with it are inverse: a message of at most
    [MAX_PAYLOAD] bytes is always sealed, the recipient's key store opens the wire to the
    sender's identity and that message, and the length of the wire depends only on the padding
    bucket of the message; a longer message is refused and draws no randomness. *)
Theorem sealed_roundtrip sender xs1 recipient xs2 msg rng :
  genuine sender xs1 -> genuine recipient xs2 ->
  if MAX_PAYLOAD <? len msg
  then seal sender (identity_x25519_public recipient) msg rng = (Err (PayloadTooLarge (len msg) MAX_PAYLOAD), rng)
  else exists wire rng' bucket,
    seal sender (identity_x25519_public recipient) msg rng = (Ok wire, rng') /\
    P.chosen_bucket (96 + len msg) = Some bucket /\ len wire = 49 + bucket /\
    unseal recipient wire = Ok {| sender_identity := identity_public sender; message := msg |}.
Proof. apply seal_unseal. Qed.

Lemma seal_opens sender xs1 recipient xs2 msg rng wire rng' :
  genuine sender xs1 -> genuine recipient xs2 -> seal sender (identity_x25519_public recipient) msg rng = (Ok wire, rng') ->
  unseal recipient wire = Ok {| sender_identity := identity_public sender; message := msg |}.
Proof.
  intros Hs Hr Hseal. pose proof (seal_unseal sender xs1 recipient xs2 msg rng Hs Hr) as Hx.
  destruct (MAX_PAYLOAD <? len msg); [congruence|]. destruct Hx as (w & r & bk & Hw & _ & _ & Hu). congruence.
Qed.

(** The X-Wing key of the recipient, as its key generation made it. *)
Context {PL : Pq.PqBackendLaws}.

(** Version 2 likewise: what is sealed under a generated X-Wing key is opened by its seed
    to the sender's identity and the message, and the wire has the length of the bucket plus
    1137 bytes; sealing fails only if encapsulation does. *)
Theorem sealed_v2_roundtrip sender xs key_seed pk seed msg rng wire rng' :
  genuine sender xs -> Pq.xwing_keygen_from_seed key_seed = Ok (pk, seed) ->
  seal_v2 sender pk msg rng = (Ok wire, rng') ->
  unseal_v2 pk seed wire = Ok {| sender_identity := identity_public sender; message := msg |} /\
  exists bucket, P.chosen_bucket (96 + len msg) = Some bucket /\ len wire = 1137 + bucket.
Proof.
  intros Hs Hkg. unfold seal_v2. destruct (MAX_PAYLOAD <? len msg) eqn:Hl; [done|]. zbool. unfold Pq.xwing_encaps_hedged.
  destruct (Pq.fill_bytes Pq.HEDGED_RNG_INPUT_LEN rng) as [ri rng1]. cbn zeta. intros Heq. apply pair_equal_spec in Heq as [Heq _].
  apply rbind_Ok in Heq as ([ct ss] & He & Heq).
  match type of He with rmap_err _ ?m = _ => destruct m as [[ct' ss']|e|] eqn:Hen; cbn in He; [|done..] end.
  injection He as <- <-. pose proof (Pq.xwing_roundtrip _ _ _ _ _ _ Hkg Hen) as Hde.
  apply Pq.xwing_encaps_Ok in Hen as (_ & Lct & _).
  destruct (derive_v2_keys_total ss' ct' pk) as (k & n & Hk). rewrite Hk in Heq. cbn [rbind] in Heq.
  destruct (inner_roundtrip sender xs "V2 inner plaintext shorter than header" (signature_payload_v2 ct') msg k n
    (aead_ad_v2 ct' pk) Hs Hl) as (b & ic & Hb & Hsi & Lc & pd & Hdec & Hop).
  rewrite Hsi in Heq. cbn [rbind] in Heq. apply Ok_inj in Heq as <-.
  pose proof (P.chosen_bucket_Some (96 + len msg) b (ltac:(pose proof (len_nonneg msg); lia)) Hb) as [Hin _].
  pose proof (P.buckets_bounds _ Hin). unfold Pq.XWING_CIPHERTEXT_LEN in *. split.
  - unfold unseal_v2, V2_MIN_WIRE_LEN, VERSION_LEN, Pq.XWING_CIPHERTEXT_LEN, slice_from. cbn zeta.
    rewrite (proj2 (Z.eqb_neq _ _)) by len_lia. cbn [rguard]. rd_index (as_u8 (version_as_u8 V2HybridXWing)).
    change (version_try_from (u8 (as_u8 (version_as_u8 V2HybridXWing)))) with (Ok (E := SealedSenderError) V2HybridXWing).
    cbn [rbind]. rewrite bool_decide_true by done. cbn [negb rguard].
    rewrite (proj2 (Z.ltb_ge _ _)) by len_lia. cbn [rguard]. rd_slice ct'. rewrite Hde. cbn [rmap_err rbind].
    rewrite Hk. cbn [rbind]. rd_slice ic. rewrite Hdec. cbn [ok_or rbind]. exact Hop.
  - exists b. split; [done|]. autorewrite with umb_len. lia.
Qed.

Lemma unseal_total ks wire : unseal ks wire <> Panic.
Proof.
  unfold unseal, MIN_WIRE_LEN, VERSION_LEN, X25519_PUBLIC_LEN, slice_from. intros Hp. cbn zeta in Hp.
  do 5 no_panic_step Hp.
  match type of Hp with context [derive_keys ?s ?e ?r] => destruct (derive_keys_total s e r) as (k & n & Hk) end.
  rewrite Hk in Hp. cbn [rbind] in Hp. destruct (aead_decrypt _ _ _ _); cbn [ok_or rbind] in Hp; [|done].
  by apply open_inner_total in Hp.
Qed.
End Laws.

Lemma unseal_Ok ks wire env :
  unseal ks wire = Ok env ->
  exists eph ct sig, wire = [as_u8 VERSION] ++ eph ++ ct /\ len eph = 32 /\ len sig = 64 /\
    vk_valid (sender_identity env) = true /\
    ed_verify (sender_identity env) (signature_payload eph (message env)) sig = true.
Proof.
  unfold unseal, VERSION_LEN, X25519_PUBLIC_LEN, slice_from. intros Hu. cbn zeta in Hu.
  apply rguard_Ok in Hu as [_ Hu]. inv_index Hu v Sv. apply rguard_Ok in Hu as [Hv Hu].
  inv_slice Hu eph Se Le. inv_slice Hu ct Sc Lc. apply rbind_Ok in Hu as ([k n] & _ & Hu).
  apply rbind_Ok in Hu as (pd & _ & Hu). apply open_inner_Ok in Hu as (Hk & sg & Lsg & Hver & _). zbool.
  exists eph, ct, sg. split_and!; [|lia|done|done|done].
  replace (as_u8 VERSION) with v by (apply u8_inj; by rewrite Hv).
  symmetry. eapply (slices_cover (E := SealedSenderError)); [glue_slices|done].
Qed.

Lemma unseal_v2_Ok pk seed wire env :
  unseal_v2 pk seed wire = Ok env ->
  V2_MIN_WIRE_LEN <= len wire /\
  exists xct ct sig, wire = [as_u8 (version_as_u8 V2HybridXWing)] ++ xct ++ ct /\ len xct = Pq.XWING_CIPHERTEXT_LEN /\
    len sig = 64 /\ vk_valid (sender_identity env) = true /\
    ed_verify (sender_identity env) (signature_payload_v2 xct (message env)) sig = true.
Proof.
  unfold unseal_v2, VERSION_LEN, slice_from. intros Hu. cbn zeta in Hu.
  apply rguard_Ok in Hu as [_ Hu]. inv_index Hu v Sv. apply rbind_Ok in Hu as (ver & Hver & Hu).
  apply rguard_Ok in Hu as [Hv Hu]. apply rguard_Ok in Hu as [Hl Hu]. inv_slice Hu xct Se Le.
  apply rbind_Ok in Hu as (ss & _ & Hu). apply rbind_Ok in Hu as ([k n] & _ & Hu). inv_slice Hu ct Sc Lc.
  apply rbind_Ok in Hu as (pd & _ & Hu). apply open_inner_Ok in Hu as (Hk & sg & Lsg & Hsig & _). zbool. subst ver.
  split; [done|]. exists xct, ct, sg. split_and!; [|lia|done|done|done].
  replace (as_u8 (version_as_u8 V2HybridXWing)) with v.
  - symmetry. eapply (slices_cover (E := SealedSenderError)); [glue_slices|done].
  - apply u8_inj. unfold version_try_from in Hver. repeat case_match; try done. zbool. assumption.
Qed.

(** An opened envelope names a sender whose key signed this message together with this
    wire's ephemeral key (version 1) or X-Wing ciphertext (version 2); neither version opens
    the other's wires, which it refuses by their version byte, and no signature payload of one
    version is one of the other. *)
Theorem unseal_authentic ks pk seed wire env :
  (unseal ks wire = Ok env ->
     (exists eph ct sig, wire = [as_u8 VERSION] ++ eph ++ ct /\ len eph = 32 /\ len sig = 64 /\
        vk_valid (sender_identity env) = true /\
        ed_verify (sender_identity env) (signature_payload eph (message env)) sig = true) /\
     unseal_v2 pk seed wire = Err (UnsupportedVersion 1)) /\
  (unseal_v2 pk seed wire = Ok env ->
     (exists xct ct sig, wire = [as_u8 (version_as_u8 V2HybridXWing)] ++ xct ++ ct /\
        len xct = Pq.XWING_CIPHERTEXT_LEN /\ len sig = 64 /\ vk_valid (sender_identity env) = true /\
        ed_verify (sender_identity env) (signature_payload_v2 xct (message env)) sig = true) /\
     unseal ks wire = Err (UnsupportedVersion 2)) /\
  (forall e m x m', signature_payload e m <> signature_payload_v2 x m').
Proof.
  split_and!.
  - intros Hu. apply unseal_Ok in Hu as Hu'. split; [exact Hu'|]. destruct Hu' as (eph & ct & _ & -> & _).
    unfold unseal_v2. rewrite (proj2 (Z.eqb_neq _ _)); [|pose proof (len_nonneg eph); pose proof (len_nonneg ct); len_lia]. cbn [rguard]. rd_index (as_u8 VERSION).
    by change (version_try_from (u8 (as_u8 VERSION))) with (Ok (E := SealedSenderError) V1Classical).
  - intros Hu. apply unseal_v2_Ok in Hu as [Hl Hu']. split; [exact Hu'|]. destruct Hu' as (xct & ct & _ & -> & _).
    unfold unseal. rewrite (proj2 (Z.ltb_ge _ _)).
    2: { revert Hl. unfold V2_MIN_WIRE_LEN, MIN_WIRE_LEN, Pq.XWING_CIPHERTEXT_LEN, X25519_PUBLIC_LEN. lia. }
    cbn [rguard]. rd_index (as_u8 (version_as_u8 V2HybridXWing)). done.
  - intros e m x m' He. unfold signature_payload, signature_payload_v2 in He. apply app_inj_len in He as [He _]; [|done].
    by apply (f_equal (fun l => bool_decide (l = DOMAIN_SEP))) in He.
Qed.
End Envelopes.

(** ** Self-destruct headers *)
Lemma self_destruct_roundtrip h :
  version h = 1 -> is_u64 (ttl_secs h) -> header_from_bytes (header_to_bytes h) = Ok (Some h).
Proof.
  destruct h as [v t o n]. cbn [version ttl_secs one_time notify_on_screenshot]. intros -> Ht.
  unfold header_from_bytes, header_to_bytes. cbn [version ttl_secs one_time notify_on_screenshot].
  rd_index (as_u8 1). change (u8 (as_u8 1) =? 1) with true. cbn [negb]. rd_slice (to_be 8 t).
  rd_index (if o then Byte.x01 else Byte.x00). rd_index (if n then Byte.x01 else Byte.x00).
  rewrite from_be_to_be_u64 by done. by destruct o, n.
Qed.

(** A message that is to be wiped stays so, and a message with a TTL is wiped exactly once the
    TTL has passed since it was viewed. *)
Lemma should_wipe_spec h viewed now :
  (forall now', now <= now' -> should_wipe h viewed now = true -> should_wipe h viewed now' = true) /\
  (one_time h = false -> 0 < ttl_secs h ->
     should_wipe h viewed now = true <-> viewed + ttl_secs h * 1000000000 <= now).
Proof.
  unfold should_wipe. destruct (one_time h); [by split|]. destruct (ttl_secs h =? 0) eqn:Ht; zbool.
  - split; [done|lia].
  - split; [|intros _ Hp; destruct (viewed <=? now) eqn:Hv; zbool; [rewrite Z.leb_le; lia|split; [done|lia]]].
    intros now' Hn. destruct (viewed <=? now) eqn:Hv; [|done]. zbool. rewrite Z.leb_le.
    rewrite (proj2 (Z.leb_le viewed now')) by lia. rewrite Z.leb_le. lia.
Qed.

(** ** Witnesses *)
Definition toy_envelope : EnvelopeCrypto := {|
  x25519_public k := Pq.pad_take 32 k;
  x25519_dh _ _ := replicate 32 Byte.x07;
  hkdf_expand salt ikm info n := Some (Pq.pad_take (Z.to_nat n) (ikm ++ info));
  aead_encrypt k n a m := Some (m ++ replicate 16 Byte.x00);
  aead_decrypt k n a c := Some (take (length c - 16) c)
|}.

Lemma toy_envelope_laws : EnvelopeLaws (EC := toy_envelope).
Proof.
  split; cbn.
  - intros k. apply Pq.pad_take_len.
  - done.
  - intros salt ikm info n Hn. eexists. split; [done|]. rewrite Pq.pad_take_len. lia.
  - eauto.
  - intros k n a m c [= <-]. f_equal. rewrite length_app. replace (_ - 16)%nat with (length m) by (cbn; lia).
    by rewrite take_app_length.
  - intros k n a m c [= <-]. by rewrite len_app.
Qed.

Definition toy_keystore (id : byte) : KeyStore := {|
  identity_public := replicate 32 id;
  sign_with_identity m := Pq.pad_take 64 (replicate 32 id ++ m);
  identity_x25519_public := replicate 32 id;
  x25519_dh_with_identity _ := replicate 32 Byte.x07;
  hedged_encaps_witness := replicate 32 id
|}.

Lemma toy_genuine id : genuine (EC := toy_envelope) (Ed := Pq.toy_pq_ed) (toy_keystore id) (replicate 32 id).
Proof.
  split; [done|done|done|done|intros m; apply Pq.pad_take_len|].
  intros m. by apply bool_decide_eq_true_2.
Qed.

Lemma sealed_roundtrip_witness :
  exists wire rng' bucket,
    seal (EC := toy_envelope) (RG := Pq.toy_rng) (toy_keystore Byte.x01) (identity_x25519_public (toy_keystore Byte.x02))
      [Byte.x68; Byte.x69] 4 = (Ok wire, rng') /\
    P.chosen_bucket (96 + 2) = Some bucket /\ len wire = 49 + bucket /\
    unseal (EC := toy_envelope) (Ed := Pq.toy_pq_ed) (toy_keystore Byte.x02) wire
      = Ok {| sender_identity := replicate 32 Byte.x01; message := [Byte.x68; Byte.x69] |}.
Proof.
  exact (sealed_roundtrip (EL := toy_envelope_laws) (RG := Pq.toy_rng) _ _ _ _ [Byte.x68; Byte.x69] 4
    (toy_genuine Byte.x01) (toy_genuine Byte.x02)).
Defined.

Lemma sealed_v2_roundtrip_witness :
  exists wire, fst (seal_v2 (EC := toy_envelope) (PB := Pq.toy_pq) (RG := Pq.toy_rng) (toy_keystore Byte.x01)
      (Pq.pad_take 1216 (replicate 32 Byte.x05)) [Byte.x68] 4) = Ok wire /\
    unseal_v2 (EC := toy_envelope) (Ed := Pq.toy_pq_ed) (PB := Pq.toy_pq) (Pq.pad_take 1216 (replicate 32 Byte.x05))
      (replicate 32 Byte.x05) wire = Ok {| sender_identity := replicate 32 Byte.x01; message := [Byte.x68] |}.
Proof.
  destruct (seal_v2 (EC := toy_envelope) (PB := Pq.toy_pq) (RG := Pq.toy_rng) (toy_keystore Byte.x01)
      (Pq.pad_take 1216 (replicate 32 Byte.x05)) [Byte.x68] 4) as [[wire|e|] rng'] eqn:Hs; [|discriminate Hs..].
  exists wire. split; [done|].
  eapply (sealed_v2_roundtrip (EL := toy_envelope_laws) (PL := Pq.toy_pq_laws) (RG := Pq.toy_rng) (toy_keystore Byte.x01) _
    (replicate 32 Byte.x05) (Pq.pad_take 1216 (replicate 32 Byte.x05)) (replicate 32 Byte.x05) [Byte.x68] 4 wire rng');
    [apply toy_genuine|reflexivity|exact Hs].
Defined.
End SealedSender.
