(* ===== verification/Snapshot.v ===== *)
(** * Transfer snapshots ([crates/umbrella-backup/src/device_transfer/snapshot.rs])

    The payload an old device sends to a new one: its MLS group states and its encrypted
    database.  The decoder reads through a cursor whose additions are [usize] additions of a
    build without overflow checks; [usize] has 64 bits. *)
From S2P Require Import Prelude Bytes BackupError.
Local Open Scope string_scope.
Local Open Scope list_scope.
Local Open Scope Z_scope.

Module Snapshot.

Definition SNAPSHOT_VERSION : Z := 1.
Definition MLS_GROUP_ID_LEN : Z := 16.
Definition SNAPSHOT_EOF_MARKER : list byte := bytes_of_string "EOFD".
Definition MAX_SNAPSHOT_GROUPS : Z := 4096.

Record MlsGroupState := { group_id : list byte; state_bytes : list byte }.
Record Snapshot := { version : Z; mls_groups : list MlsGroupState; local_db_ciphertext : list byte }.

(** ** Encoding *)

(** [len.try_into()] into a [u32] or [u64]. *)
Definition try_into (max : Z) (n : Z) : res BackupError Z :=
  reject max <? n with WireBufferOverflow ;; Ok n.

(** The loop over the groups, appending to [out]. *)
Fixpoint push_groups (gs : list MlsGroupState) (out : list byte) : res BackupError (list byte) :=
  match gs with
  | [] => Ok out
  | g :: gs =>
      let out := out ++ group_id g in
      let? state_len := try_into U32_MAX (len (state_bytes g)) in
      push_groups gs (out ++ to_be 4 state_len ++ state_bytes g)
  end.

Definition to_bytes (s : Snapshot) : res BackupError (list byte) :=
  let out := [as_u8 (version s)] in
  let? count := try_into U32_MAX (len (mls_groups s)) in
  let? out := push_groups (mls_groups s) (out ++ to_be 4 count) in
  let? db_len := try_into U64_MAX (len (local_db_ciphertext s)) in
  Ok (out ++ to_be 8 db_len ++ local_db_ciphertext s ++ SNAPSHOT_EOF_MARKER).

(** ** Decoding *)
Section Decode.
Variable data : list byte.

(** The closure [take]: [n] bytes from the cursor, and the new cursor. *)
Definition take_at (n cursor : Z) : res BackupError (list byte * Z) :=
  let end_ := wrap64 (cursor + n) in
  reject len data <? end_ with SnapshotDecodeFailed ;;
  let? s := slice cursor end_ data in
  Ok (s, end_).

(** [for _ in 0..count]. *)
Fixpoint take_groups (count : nat) (groups : list MlsGroupState) (cursor : Z) : res BackupError (list MlsGroupState * Z) :=
  match count with
  | O => Ok (groups, cursor)
  | S count =>
      let? (gid, cursor) := take_at MLS_GROUP_ID_LEN cursor in
      let? (state_len_bytes, cursor) := take_at 4 cursor in
      let? (sb, cursor) := take_at (from_be state_len_bytes) cursor in
      take_groups count (groups ++ [{| group_id := gid; state_bytes := sb |}]) cursor
  end.

(** What follows the groups: the database, the marker and the end of the data. *)
Definition take_db (version : Z) (groups : list MlsGroupState) (cursor : Z) : res BackupError Snapshot :=
  let? (db_len_bytes, cursor) := take_at 8 cursor in
  let? (db, cursor) := take_at (from_be db_len_bytes) cursor in
  let? (eof, cursor) := take_at 4 cursor in
  reject negb (bool_decide (eof = SNAPSHOT_EOF_MARKER)) with SnapshotDecodeFailed ;;
  reject negb (cursor =? len data) with SnapshotDecodeFailed ;;
  Ok {| version := version; mls_groups := groups; local_db_ciphertext := db |}.

Definition from_bytes : res BackupError Snapshot :=
  let? (vb, cursor) := take_at 1 0 in
  let? version := index 0 vb in
  reject negb (u8 version =? SNAPSHOT_VERSION) with SnapshotDecodeFailed ;;
  let? (count_bytes, cursor) := take_at 4 cursor in
  let count_u32 := from_be count_bytes in
  reject MAX_SNAPSHOT_GROUPS <? count_u32 with SnapshotDecodeFailed ;;
  let? (groups, cursor) := take_groups (Z.to_nat count_u32) [] cursor in
  take_db (u8 version) groups cursor.
End Decode.

(** ** The grammar of snapshots, for the statements *)

Definition group_wire (g : MlsGroupState) : list byte :=
  group_id g ++ to_be 4 (len (state_bytes g)) ++ state_bytes g.
Definition groups_wire (gs : list MlsGroupState) : list byte := concat (group_wire <$> gs).
Definition head_wire (v : Z) (gs : list MlsGroupState) : list byte :=
  [as_u8 v] ++ to_be 4 (len gs) ++ groups_wire gs.
Definition group_wf (g : MlsGroupState) : Prop := len (group_id g) = 16 /\ len (state_bytes g) <= U32_MAX.
Definition groups_wf (gs : list MlsGroupState) : Prop := Forall group_wf gs /\ len gs <= MAX_SNAPSHOT_GROUPS.

(** A Rust byte slice has fewer than 2^63 bytes. *)
Definition slice_len_ok (b : list byte) : Prop := len b < 2 ^ 63.

(** Three steps of the reader's proofs share these facts on [take_at]. *)
Lemma take_at_hit data pre x post :
  data = pre ++ x ++ post -> slice_len_ok data ->
  take_at data (len x) (len pre) = Ok (x, len (pre ++ x)).
Proof.
  unfold slice_len_ok. intros -> Hl. unfold take_at.
  pose proof (len_nonneg pre). pose proof (len_nonneg x). pose proof (len_nonneg post).
  autorewrite with umb_len in Hl.
  rewrite wrap64_id by (unfold is_u64, U64_MAX; lia).
  unfold rguard. rewrite (proj2 (Z.ltb_ge _ _)) by len_lia.
  rewrite slice_skip_len by lia. rewrite slice_hit by lia. cbn [rbind]. by rewrite len_app.
Qed.

(** What a call of [take] can return when the cursor is inside the data. *)
Lemma take_at_spec data n cursor :
  0 <= cursor <= len data -> slice_len_ok data -> is_u64 n ->
  (take_at data n cursor = Panic /\ 2 ^ 64 <= cursor + n) \/
  (take_at data n cursor = Err SnapshotDecodeFailed /\ len data < cursor + n < 2 ^ 64) \/
  (exists x, take_at data n cursor = Ok (x, cursor + n) /\ cursor + n <= len data /\
     slice (E := BackupError) cursor (cursor + n) data = Ok x /\ len x = n).
Proof.
  unfold slice_len_ok, is_u64, U64_MAX. intros Hc Hl Hn. unfold take_at, rguard.
  destruct (Z.le_gt_cases (2 ^ 64) (cursor + n)) as [Ho|Ho].
  - left. split; [|done].
    replace (wrap64 (cursor + n)) with (cursor + n - 2 ^ 64)
      by (unfold wrap64; apply Z.mod_unique with 1; lia).
    rewrite (proj2 (Z.ltb_ge _ _)) by lia. unfold slice.
    rewrite (proj2 (Z.leb_gt cursor _)) by lia. by rewrite andb_false_r.
  - right. rewrite wrap64_id by (unfold is_u64, U64_MAX; lia).
    destruct (Z.ltb_spec (len data) (cursor + n)) as [Hd|Hd]; [left; by split; [|lia]|right].
    destruct (slice_no_panic (E := BackupError) cursor (cursor + n) data) as [x Hx]; [lia|lia|].
    exists x. rewrite Hx. cbn [rbind]. repeat split; [lia|]. apply slice_ok_len in Hx. lia.
Qed.

(** The same facts for a reader that has consumed [pre]. *)
Lemma take_at_split pre rest n :
  slice_len_ok (pre ++ rest) -> is_u64 n ->
  match take_at (pre ++ rest) n (len pre) with
  | Ok (x, c) => exists rest', rest = x ++ rest' /\ len x = n /\ c = len (pre ++ x)
  | Err e => e = SnapshotDecodeFailed
  | Panic => 2 ^ 64 <= len pre + n
  end.
Proof.
  intros Hl Hn. pose proof (len_nonneg pre). pose proof (len_nonneg rest).
  destruct (take_at_spec (pre ++ rest) n (len pre)) as [[-> ?]|[[-> ?]|(x & -> & Hr & Hs & Hx)]];
    [len_lia|done|done|done|done|].
  rewrite slice_skip_len in Hs by lia. apply slice_Ok_inv in Hs as (_ & _ & _ & Hs).
  exists (drop (Z.to_nat n) rest). rewrite len_app. split; [|lia].
  rewrite Hs, Z.sub_diag, drop_0. replace (len pre + n - len pre - 0) with n by lia.
  by rewrite take_drop.
Qed.

(** Reading the field [x] that comes next. *)
Lemma take_at_field pre x post n :
  slice_len_ok (pre ++ x ++ post) -> n = len x ->
  take_at (pre ++ x ++ post) n (len pre) = Ok (x, len (pre ++ x)).
Proof. intros Hl ->. by apply take_at_hit with post. Qed.

Lemma groups_wire_cons g gs : groups_wire (g :: gs) = group_wire g ++ groups_wire gs.
Proof. done. Qed.

Lemma push_groups_spec gs out :
  Forall group_wf gs -> push_groups gs out = Ok (out ++ groups_wire gs).
Proof.
  intros Hg. revert out. induction Hg as [|g gs [_ Hs] _ IH]; intros out.
  - by rewrite app_nil_r.
  - cbn [push_groups]. unfold try_into, rguard. rewrite (proj2 (Z.ltb_ge _ _)) by lia. cbn [rbind].
    rewrite IH, groups_wire_cons. unfold group_wire. by rewrite <- !app_assoc.
Qed.

Lemma take_groups_spec gs acc pre post :
  slice_len_ok (pre ++ groups_wire gs ++ post) -> Forall group_wf gs ->
  take_groups (pre ++ groups_wire gs ++ post) (length gs) acc (len pre)
  = Ok (acc ++ gs, len (pre ++ groups_wire gs)).
Proof.
  intros Hl Hg. revert acc pre Hl. induction Hg as [|g gs [Hi Hs] _ IH]; intros acc pre Hl.
  - cbn [take_groups length]. by rewrite !app_nil_r.
  - rewrite groups_wire_cons in *. unfold group_wire in *. cbn [length take_groups].
    repeat rewrite <- app_assoc in *. pose proof (len_nonneg (state_bytes g)).
    rewrite take_at_field by done. cbn [rbind].
    rewrite (app_assoc pre) in *. rewrite take_at_field by (rewrite ?len_to_be; done). cbn [rbind].
    rewrite (app_assoc (pre ++ _)) in *.
    rewrite take_at_field by (rewrite ?from_be_to_be_u32 by (unfold is_u32; lia); done). cbn [rbind].
    rewrite (app_assoc ((pre ++ _) ++ _)) in *. rewrite IH by done.
    rewrite <- !app_assoc. by destruct g.
Qed.

Lemma consumed_len (p r : list byte) : slice_len_ok (p ++ r) -> len p < 2 ^ 63.
Proof. unfold slice_len_ok. rewrite len_app. pose proof (len_nonneg r). lia. Qed.

Lemma small_u64 k : 0 <= k < 2 ^ 32 -> is_u64 k.
Proof. unfold is_u64, U64_MAX. lia. Qed.

(** Every outcome of the loop over [n] groups. *)
Lemma take_groups_split n acc pre rest :
  slice_len_ok (pre ++ rest) ->
  match take_groups (pre ++ rest) n acc (len pre) with
  | Ok (gs, c) => exists new rest', gs = acc ++ new /\ length new = n /\ Forall group_wf new /\
      rest = groups_wire new ++ rest' /\ c = len (pre ++ groups_wire new)
  | Err e => e = SnapshotDecodeFailed
  | Panic => False
  end.
Proof.
  revert acc pre rest. induction n as [|n IH]; intros acc pre rest Hl; cbn [take_groups].
  { exists [], rest. by rewrite !app_nil_r. }
  pose proof (take_at_split pre rest MLS_GROUP_ID_LEN Hl (small_u64 16 ltac:(lia))) as Hg.
  destruct (take_at _ _ _) as [[gid c]|e|]; cbn [rbind]; [|done|apply consumed_len in Hl; unfold MLS_GROUP_ID_LEN in Hg; lia].
  destruct Hg as (r1 & -> & Hgid & ->). rewrite (app_assoc pre) in *.
  pose proof (take_at_split (pre ++ gid) r1 4 Hl (small_u64 4 ltac:(lia))) as Hn.
  destruct (take_at _ _ _) as [[nb c]|e|]; cbn [rbind]; [|done|apply consumed_len in Hl; lia].
  destruct Hn as (r2 & -> & Hnb & ->). rewrite (app_assoc (pre ++ gid)) in *.
  pose proof (from_be_range nb) as Hr. rewrite Hnb in Hr. change (256 ^ 4) with (2 ^ 32) in Hr.
  pose proof (take_at_split ((pre ++ gid) ++ nb) r2 (from_be nb) Hl (small_u64 _ Hr)) as Hs.
  destruct (take_at _ _ _) as [[sb c]|e|]; cbn [rbind]; [|done|apply consumed_len in Hl; lia].
  destruct Hs as (r3 & -> & Hsb & ->). rewrite (app_assoc ((pre ++ gid) ++ nb)) in *.
  specialize (IH (acc ++ [{| group_id := gid; state_bytes := sb |}]) _ _ Hl).
  destruct (take_groups _ _ _ _) as [[gs c]|e|]; [|done|done].
  destruct IH as (new & rest' & -> & Hlen & Hwf & -> & ->).
  exists ({| group_id := gid; state_bytes := sb |} :: new), rest'.
  assert (Hw : group_wire {| group_id := gid; state_bytes := sb |} = gid ++ nb ++ sb).
  { unfold group_wire. cbn [group_id state_bytes]. rewrite Hsb. by rewrite (to_be_from_be_n 4). }
  rewrite groups_wire_cons, Hw, <- !app_assoc. cbn [length]. repeat split; [congruence| |done..].
  constructor; [|done]. split; [done|]. cbn [state_bytes]. unfold U32_MAX. lia.
Qed.

(** The encoder, on groups whose lengths fit. *)
Lemma to_bytes_spec s :
  groups_wf (mls_groups s) -> len (local_db_ciphertext s) <= U64_MAX ->
  to_bytes s = Ok (head_wire (version s) (mls_groups s) ++ to_be 8 (len (local_db_ciphertext s)) ++
                   local_db_ciphertext s ++ SNAPSHOT_EOF_MARKER).
Proof.
  intros [Hg Hc] Hd. unfold to_bytes, try_into, rguard, MAX_SNAPSHOT_GROUPS, U32_MAX in *.
  rewrite (proj2 (Z.ltb_ge _ _)) by lia. cbn [rbind]. rewrite push_groups_spec by done. cbn [rbind].
  rewrite (proj2 (Z.ltb_ge _ _)) by lia. cbn [rbind]. unfold head_wire. by rewrite <- !app_assoc.
Qed.

(** Every outcome after the groups. *)
Lemma take_db_outcome gs rest :
  slice_len_ok (head_wire 1 gs ++ rest) -> groups_wf gs ->
  match take_db (head_wire 1 gs ++ rest) 1 gs (len (head_wire 1 gs)) with
  | Ok s => to_bytes s = Ok (head_wire 1 gs ++ rest) /\ version s = 1 /\ mls_groups s = gs
  | Err e => e = SnapshotDecodeFailed
  | Panic => exists n rest', rest = to_be 8 n ++ rest' /\ is_u64 n /\ 2 ^ 64 <= len (head_wire 1 gs) + 8 + n
  end.
Proof.
  intros Hl Hgw. unfold take_db, rguard. remember (head_wire 1 gs) as h eqn:Hh.
  pose proof (take_at_split h rest 8 Hl (small_u64 8 ltac:(lia))) as Hn.
  destruct (take_at _ 8 _) as [[nb c]|e|]; cbn [rbind]; [|done|apply consumed_len in Hl; lia].
  destruct Hn as (r1 & -> & Hnb & ->). rewrite (app_assoc h) in *.
  pose proof (from_be_u64 nb Hnb) as Hu.
  assert (Hnw : to_be 8 (from_be nb) = nb) by (by apply (to_be_from_be_n 8)).
  pose proof (take_at_split (h ++ nb) r1 (from_be nb) Hl Hu) as Hd.
  destruct (take_at _ (from_be nb) _) as [[db c]|e|]; cbn [rbind]; [|done|].
  2:{ exists (from_be nb), r1. rewrite Hnw. rewrite len_app in Hd. repeat split; [apply Hu..|lia]. }
  destruct Hd as (r2 & -> & Hdb & ->). rewrite (app_assoc (h ++ nb)) in *.
  pose proof (take_at_split ((h ++ nb) ++ db) r2 4 Hl (small_u64 4 ltac:(lia))) as He.
  destruct (take_at _ 4 _) as [[eof c]|e|]; cbn [rbind]; [|done|apply consumed_len in Hl; lia].
  destruct He as (r3 & -> & _ & ->).
  destruct (bool_decide_reflect (eof = SNAPSHOT_EOF_MARKER)) as [->|]; cbn [negb]; [|done].
  rewrite (app_assoc ((h ++ nb) ++ db)), (len_app _ r3).
  destruct (Z.eqb_spec (len (((h ++ nb) ++ db) ++ SNAPSHOT_EOF_MARKER)) (len (((h ++ nb) ++ db) ++ SNAPSHOT_EOF_MARKER) + len r3)) as [Hr|];
    cbn [negb]; [|done].
  rewrite (len_zero_nil r3) by lia.
  rewrite to_bytes_spec; cbn [mls_groups version local_db_ciphertext]; [|done|rewrite Hdb; apply Hu].
  rewrite Hdb, Hnw, <- Hh, app_nil_r, <- !app_assoc. done.
Qed.

(** Every outcome of the decoder. *)
Lemma from_bytes_outcome data :
  slice_len_ok data ->
  match from_bytes data with
  | Ok s => to_bytes s = Ok data /\ version s = SNAPSHOT_VERSION /\ groups_wf (mls_groups s)
  | Err e => e = SnapshotDecodeFailed
  | Panic => exists gs n rest, data = head_wire 1 gs ++ to_be 8 n ++ rest /\ groups_wf gs /\
      is_u64 n /\ 2 ^ 64 <= len (head_wire 1 gs) + 8 + n
  end.
Proof.
  intros Hl. unfold from_bytes, rguard.
  pose proof (take_at_split [] data 1 Hl (small_u64 1 ltac:(lia))) as Hv.
  change (len []) with 0 in Hv. change ([] ++ data) with data in Hv.
  destruct (take_at data 1 0) as [[vb c]|e|]; cbn [rbind]; [|done|lia].
  destruct Hv as (r1 & -> & Hvb & ->). destruct vb as [|v [|? ?]]; [done| |unfold len in Hvb; cbn in Hvb; lia].
  rewrite index_0. cbn [rbind]. change ([] ++ [v]) with [v].
  destruct (Z.eqb_spec (u8 v) SNAPSHOT_VERSION) as [Hv|]; cbn [negb]; [|done].
  pose proof (take_at_split [v] r1 4 Hl (small_u64 4 ltac:(lia))) as Hn.
  destruct (take_at _ 4 _) as [[nb c]|e|]; cbn [rbind]; [|done|change (len [v]) with 1 in Hn; lia].
  destruct Hn as (r2 & -> & Hnb & ->). rewrite (app_assoc [v]) in *.
  pose proof (from_be_range nb) as Hr.
  destruct (Z.ltb_spec MAX_SNAPSHOT_GROUPS (from_be nb)) as [|Hmax]; [done|].
  pose proof (take_groups_split (Z.to_nat (from_be nb)) [] ([v] ++ nb) r2 Hl) as Hg.
  destruct (take_groups _ _ _ _) as [[gs c]|e|]; cbn [rbind]; [|done|done].
  destruct Hg as (new & r3 & -> & Hlen & Hwf & -> & ->). change ([] ++ new) with new.
  assert (Hh : ([v] ++ nb) ++ groups_wire new = head_wire 1 new).
  { unfold head_wire. rewrite <- app_assoc. f_equal; [by rewrite <- (as_u8_u8 v), Hv|].
    replace (len new) with (from_be nb) by (unfold len; lia). by rewrite (to_be_from_be_n 4). }
  assert (Hgw : groups_wf new) by (split; [done|unfold len; lia]).
  rewrite (app_assoc ([v] ++ nb)), Hh in *. clear Hh.
  pose proof (take_db_outcome new r3 Hl Hgw) as Ho. rewrite Hv. unfold SNAPSHOT_VERSION in *.
  destruct (take_db _ _ _ _) as [s|e|]; [destruct Ho as (? & ? & ->); done|done|].
  destruct Ho as (n & rest' & -> & ?). by exists new, n, rest'.
Qed.

(** Reading a well-formed head leads to what follows the groups. *)
Lemma from_bytes_head gs rest :
  slice_len_ok (head_wire 1 gs ++ rest) -> groups_wf gs ->
  from_bytes (head_wire 1 gs ++ rest) = take_db (head_wire 1 gs ++ rest) 1 gs (len (head_wire 1 gs)).
Proof.
  intros Hl [Hg Hc]. unfold from_bytes, rguard. unfold head_wire in *. rewrite <- !app_assoc in *.
  pose proof (take_at_field [] [as_u8 1] (to_be 4 (len gs) ++ groups_wire gs ++ rest) 1 Hl eq_refl) as Hv.
  change (len []) with 0 in Hv. change ([] ++ ?x) with x in Hv. rewrite Hv. clear Hv. cbn [rbind].
  rewrite index_0. cbn [rbind]. change (u8 (as_u8 1)) with 1. change (negb (1 =? SNAPSHOT_VERSION)) with false.
  cbn match. change ([] ++ [as_u8 1]) with [as_u8 1].
  rewrite take_at_field by (rewrite ?len_to_be; done). cbn [rbind]. pose proof (len_nonneg gs).
  rewrite from_be_to_be_u32 by (unfold is_u32, U32_MAX, MAX_SNAPSHOT_GROUPS in *; lia).
  rewrite (proj2 (Z.ltb_ge _ _)) by lia. rewrite (app_assoc [as_u8 1]) in *.
  replace (Z.to_nat (len gs)) with (length gs) by (unfold len; lia).
  rewrite take_groups_spec by done. done.
Qed.

Lemma take_db_complete gs db :
  slice_len_ok (head_wire 1 gs ++ to_be 8 (len db) ++ db ++ SNAPSHOT_EOF_MARKER) ->
  take_db (head_wire 1 gs ++ to_be 8 (len db) ++ db ++ SNAPSHOT_EOF_MARKER) 1 gs (len (head_wire 1 gs))
  = Ok {| version := 1; mls_groups := gs; local_db_ciphertext := db |}.
Proof.
  intros Hl. unfold take_db, rguard. remember (head_wire 1 gs) as h eqn:Hh. clear Hh.
  rewrite take_at_field by (rewrite ?len_to_be; done). cbn [rbind].
  assert (Hu : is_u64 (len db)).
  { unfold slice_len_ok in Hl. rewrite !len_app in Hl. pose proof (len_nonneg db).
    pose proof (len_nonneg h). pose proof (len_nonneg (to_be 8 (len db))).
    pose proof (len_nonneg SNAPSHOT_EOF_MARKER). unfold is_u64, U64_MAX. lia. }
  rewrite from_be_to_be_u64 by done. rewrite (app_assoc h) in *.
  rewrite take_at_field by done. cbn [rbind]. rewrite (app_assoc (h ++ _)) in *.
  pose proof (take_at_field (((h ++ to_be 8 (len db)) ++ db)) SNAPSHOT_EOF_MARKER [] 4) as He.
  rewrite app_nil_r in He. rewrite He by done. cbn [rbind].
  rewrite bool_decide_eq_true_2 by done. cbn [negb]. by rewrite Z.eqb_refl.
Qed.

Lemma from_bytes_complete data s :
  slice_len_ok data -> to_bytes s = Ok data -> version s = SNAPSHOT_VERSION -> groups_wf (mls_groups s) ->
  from_bytes data = Ok s.
Proof.
  intros Hl Ht Hv Hg. destruct (Z.le_gt_cases (len (local_db_ciphertext s)) U64_MAX) as [Hd|Hd].
  - rewrite to_bytes_spec, Hv in Ht by done. apply Ok_inj in Ht as <-.
    change SNAPSHOT_VERSION with 1 in *. rewrite from_bytes_head, take_db_complete by done.
    destruct s; cbn in *. by subst.
  - exfalso. unfold to_bytes in Ht. res_inv Ht. unfold try_into in *.
    repeat match goal with H : rguard _ _ _ = Ok _ |- _ => apply rguard_Ok in H as [? ?] end. zbool. lia.
Qed.

(** Decoding accepts exactly the encodings of version-1 snapshots with at most
    [MAX_SNAPSHOT_GROUPS] groups of encodable size, and returns what was encoded; every other
    byte string is refused with [SnapshotDecodeFailed] unless the decoder panics. *)
Theorem snapshot_exact data s :
  slice_len_ok data ->
  (from_bytes data = Ok s <->
   to_bytes s = Ok data /\ version s = SNAPSHOT_VERSION /\ groups_wf (mls_groups s)) /\
  (forall e, from_bytes data = Err e -> e = SnapshotDecodeFailed).
Proof.
  intros Hl. pose proof (from_bytes_outcome data Hl) as Ho.
  split; [|intros e He; by rewrite He in Ho].
  split; [intros He; by rewrite He in Ho|]. intros (Ht & Hv & Hg).
  by apply from_bytes_complete.
Qed.

(** A snapshot of one group and a three-byte database. *)
Definition sample : Snapshot :=
  {| version := 1; mls_groups := [{| group_id := replicate 16 Byte.x07; state_bytes := [Byte.x01; Byte.x02] |}];
     local_db_ciphertext := [Byte.x0a; Byte.x0b; Byte.x0c] |}.
Definition sample_wire : list byte :=
  Eval vm_compute in match to_bytes sample with Ok b => b | _ => [] end.

Lemma snapshot_exact_witness : slice_len_ok sample_wire /\ from_bytes sample_wire = Ok sample.
Proof.
  split; [unfold slice_len_ok; vm_compute; reflexivity|].
  apply (snapshot_exact sample_wire sample); [unfold slice_len_ok; vm_compute; reflexivity|].
  split; [vm_compute; reflexivity|]. split; [reflexivity|].
  split; [|vm_compute; congruence]. constructor; [|constructor]. split; vm_compute; congruence.
Defined.

(** The decoder panics on exactly the byte strings that start with a well-formed head and
    declare a database length [n] for which the cursor plus [n] exceeds 64 bits; no byte string
    outside that set, and in particular no group length, makes it panic. *)
Theorem snapshot_panic_exact data :
  slice_len_ok data ->
  (from_bytes data = Panic <->
   exists gs n rest, data = head_wire SNAPSHOT_VERSION gs ++ to_be 8 n ++ rest /\ groups_wf gs /\
     is_u64 n /\ 2 ^ 64 <= len (head_wire SNAPSHOT_VERSION gs) + 8 + n).
Proof.
  intros Hl. split; [intros Hp; pose proof (from_bytes_outcome data Hl) as Ho; by rewrite Hp in Ho|].
  intros (gs & n & rest & -> & Hg & Hu & Hn). change SNAPSHOT_VERSION with 1 in *.
  rewrite from_bytes_head by done. unfold take_db.
  rewrite take_at_field by (rewrite ?len_to_be; done). cbn [rbind]. rewrite from_be_to_be_u64 by done.
  rewrite (app_assoc (head_wire 1 gs)) in *.
  destruct (take_at_spec ((head_wire 1 gs ++ to_be 8 n) ++ rest) n (len (head_wire 1 gs ++ to_be 8 n)))
    as [[-> _]|[[_ Hx]|(x & _ & Hx & _)]]; [|done|done|done| |].
  - pose proof (len_nonneg rest). pose proof (len_nonneg (head_wire 1 gs ++ to_be 8 n)).
    rewrite (len_app (_ ++ _)). lia.
  - rewrite (len_app (head_wire 1 gs) (to_be 8 n)), len_to_be in Hx. lia.
  - exfalso. unfold slice_len_ok in Hl. rewrite (len_app (head_wire 1 gs) (to_be 8 n)), len_to_be in Hx. lia.
Qed.

(** Thirteen bytes that make the decoder panic: version 1, no groups, database length 2^64-1. *)
Lemma snapshot_panic_exact_witness :
  let data := head_wire 1 [] ++ to_be 8 U64_MAX in slice_len_ok data /\ from_bytes data = Panic.
Proof.
  cbv zeta. split; [unfold slice_len_ok; vm_compute; reflexivity|].
  apply (snapshot_panic_exact (head_wire 1 [] ++ to_be 8 U64_MAX)); [unfold slice_len_ok; vm_compute; reflexivity|].
  exists [], U64_MAX, []. repeat split; try constructor; vm_compute; congruence.
Defined.
End Snapshot.
