(* ===== verification/DeviceTransfer.v ===== *)
(** * Device transfer ([crates/umbrella-backup/src/device_transfer/])

    [qr.rs], [handshake.rs], [identity_verify.rs] and [stream.rs].  The old device shows a signed
    QR code, both devices run a Noise IK handshake, the old device signs the handshake hash, and
    a snapshot travels in encrypted frames; [identity_adapters.rs] connects them to a key store.  The Noise library (snow), Base32 and Ed25519 are
    parameters. *)
From S2P Require Import Prelude Bytes Crypto BackupError PlatformVerifier CloudRequest Pq Identity Snapshot.
Local Open Scope string_scope.
Local Open Scope list_scope.
Local Open Scope Z_scope.

Module DeviceTransfer.

(** ** QR codes ([qr.rs]) *)
Definition QR_VERSION : Z := 1.
Definition PUBKEY_LEN : Z := 32.
Definition PAIRING_CHALLENGE_LEN : Z := 32.
Definition QR_SIG_LEN : Z := 64.
Definition QR_PAYLOAD_LEN : Z := 1 + PUBKEY_LEN + PUBKEY_LEN + PAIRING_CHALLENGE_LEN + 8 + QR_SIG_LEN.
Definition QR_SIGNATURE_DOMAIN : list byte := bytes_of_string "umbrellax-device-pairing-qr-v1".

Record DevicePairingQr := {
  version : Z;
  responder_identity_pubkey : list byte;
  responder_ephemeral_static : list byte;
  pairing_challenge : list byte;
  expiry_unix_millis : Z;
  identity_signature : list byte
}.

(** What the array types of the struct say. *)
Definition qr_wf (q : DevicePairingQr) : Prop :=
  is_u8 (version q) /\ len (responder_identity_pubkey q) = 32 /\ len (responder_ephemeral_static q) = 32 /\
  len (pairing_challenge q) = 32 /\ is_u64 (expiry_unix_millis q) /\ len (identity_signature q) = 64.

Definition canonical_signing_input (q : DevicePairingQr) : list byte :=
  QR_SIGNATURE_DOMAIN ++ [as_u8 (version q)] ++ responder_identity_pubkey q ++
  responder_ephemeral_static q ++ pairing_challenge q ++ to_be 8 (expiry_unix_millis q).

(** The 169-byte buffer, filled from offset 0 to its end. *)
Definition to_bytes (q : DevicePairingQr) : res BackupError (list byte) :=
  let out := replicate (Z.to_nat QR_PAYLOAD_LEN) Byte.x00 in
  let off := 0 in
  let? out := copy_into off (off + 1) [as_u8 (version q)] out in
  let off := off + 1 in
  let? out := copy_into off (off + PUBKEY_LEN) (responder_identity_pubkey q) out in
  let off := off + PUBKEY_LEN in
  let? out := copy_into off (off + PUBKEY_LEN) (responder_ephemeral_static q) out in
  let off := off + PUBKEY_LEN in
  let? out := copy_into off (off + PAIRING_CHALLENGE_LEN) (pairing_challenge q) out in
  let off := off + PAIRING_CHALLENGE_LEN in
  let? out := copy_into off (off + 8) (to_be 8 (expiry_unix_millis q)) out in
  let off := off + 8 in
  copy_into off (off + QR_SIG_LEN) (identity_signature q) out.

Definition from_bytes (data : list byte) : res BackupError DevicePairingQr :=
  reject negb (len data =? QR_PAYLOAD_LEN) with QrPayloadTruncated ;;
  let? version := index 0 data in
  reject negb (u8 version =? QR_VERSION) with QrVersionMismatch QR_VERSION (u8 version) ;;
  let off := 1 in
  let? responder_identity_pubkey := slice off (off + PUBKEY_LEN) data in
  let off := off + PUBKEY_LEN in
  let? responder_ephemeral_static := slice off (off + PUBKEY_LEN) data in
  let off := off + PUBKEY_LEN in
  let? pairing_challenge := slice off (off + PAIRING_CHALLENGE_LEN) data in
  let off := off + PAIRING_CHALLENGE_LEN in
  let? expiry_bytes := slice off (off + 8) data in
  let off := off + 8 in
  let? identity_signature := slice off (off + QR_SIG_LEN) data in
  Ok {| version := u8 version; responder_identity_pubkey := responder_identity_pubkey;
        responder_ephemeral_static := responder_ephemeral_static; pairing_challenge := pairing_challenge;
        expiry_unix_millis := from_be expiry_bytes; identity_signature := identity_signature |}.

(** [BASE32_NOPAD] of the crate data-encoding, with its documented inverse. *)
Class Base32 := { base32_encode : list byte -> list byte; base32_decode : list byte -> option (list byte) }.
Class Base32Laws (B : Base32) := { base32_inv : forall b, base32_decode (base32_encode b) = Some b }.

Definition to_base32 `{Base32} (q : DevicePairingQr) : res BackupError (list byte) :=
  let? b := to_bytes q in Ok (base32_encode b).
Definition from_base32 `{Base32} (encoded : list byte) : res BackupError DevicePairingQr :=
  let? bytes := ok_or (base32_decode encoded) InvalidWireFormat in
  from_bytes bytes.

Definition ensure_not_expired (q : DevicePairingQr) (now_unix_millis : Z) : res BackupError unit :=
  reject expiry_unix_millis q <=? now_unix_millis with QrExpired ;; Ok tt.

Definition verify_identity `{Ed25519} (q : DevicePairingQr) : res BackupError unit :=
  reject negb (vk_valid (responder_identity_pubkey q)) with QrSignatureInvalid ;;
  let canonical := canonical_signing_input q in
  reject negb (ed_verify (responder_identity_pubkey q) canonical (identity_signature q)) with QrSignatureInvalid ;;
  Ok tt.

(** [signer] is the callback to the identity key. *)
Definition build_signed_qr (responder_identity_pubkey responder_ephemeral_static pairing_challenge : list byte)
  (expiry_unix_millis : Z) (signer : list byte -> res BackupError (list byte)) : res BackupError DevicePairingQr :=
  let qr := {| version := QR_VERSION; responder_identity_pubkey := responder_identity_pubkey;
               responder_ephemeral_static := responder_ephemeral_static; pairing_challenge := pairing_challenge;
               expiry_unix_millis := expiry_unix_millis; identity_signature := replicate 64 Byte.x00 |} in
  let canonical := canonical_signing_input qr in
  let? sig := signer canonical in
  Ok {| version := version qr; responder_identity_pubkey := responder_identity_pubkey;
        responder_ephemeral_static := responder_ephemeral_static; pairing_challenge := pairing_challenge;
        expiry_unix_millis := expiry_unix_millis; identity_signature := sig |}.

(** ** The Noise library

    [Builder], [HandshakeState] and [TransportState] of snow.  A write returns the bytes put in the
    caller's buffer, a read the payload; both need a buffer of sufficient length. *)
Class Noise := {
  Builder : Type;
  HandshakeState : Type;
  TransportState : Type;
  builder_new : string -> option Builder;                     (* the pattern is parsed *)
  with_prologue : Builder -> list byte -> option Builder;
  local_private_key : Builder -> list byte -> option Builder;
  remote_public_key : Builder -> list byte -> option Builder;
  build_initiator : Builder -> option HandshakeState;
  build_responder : Builder -> option HandshakeState;
  hs_write : HandshakeState -> list byte -> Z -> option (list byte) * HandshakeState;  (* payload, buffer length *)
  hs_read : HandshakeState -> list byte -> Z -> option (list byte) * HandshakeState;
  get_handshake_hash : HandshakeState -> list byte;
  get_remote_static : HandshakeState -> option (list byte);
  into_transport_mode : HandshakeState -> option TransportState;
  ts_write : TransportState -> list byte -> Z -> option (list byte) * TransportState;
  ts_read : TransportState -> list byte -> Z -> option (list byte) * TransportState
}.

Section Transfer.
Context {N : Noise}.

(** ** Handshake ([handshake.rs]) *)
Definition NOISE_PATTERN : string := "Noise_IK_25519_ChaChaPoly_SHA512".
Definition HANDSHAKE_PROLOGUE_DOMAIN : list byte := bytes_of_string "umbrellax-device-transfer-handshake-v1".
Definition HANDSHAKE_WIRE_VERSION : Z := 1.
Definition HANDSHAKE_HASH_LEN : Z := 64.
Definition MAX_HANDSHAKE_MSG_LEN : Z := 65535.

Definition build_prologue (pairing_challenge : list byte) : list byte :=
  HANDSHAKE_PROLOGUE_DOMAIN ++ [as_u8 HANDSHAKE_WIRE_VERSION] ++ pairing_challenge.

Record TransferHandshakeResult := { transport : TransportState; handshake_hash : list byte }.

(** [extract_handshake_hash_from_state]: at most 64 bytes, zero-filled. *)
Definition extract_handshake_hash (state : HandshakeState) : res BackupError (list byte) :=
  let hh := get_handshake_hash state in
  let n := Z.min (len hh) HANDSHAKE_HASH_LEN in
  let? src := slice 0 n hh in
  copy_into 0 n src (replicate (Z.to_nat HANDSHAKE_HASH_LEN) Byte.x00).

(** [PairingInitiator::new]. *)
Definition initiator_new (q : DevicePairingQr) (local_static_private : list byte) : res BackupError HandshakeState :=
  let prologue := build_prologue (pairing_challenge q) in
  let? b := ok_or (builder_new NOISE_PATTERN) (HandshakeFailed "noise params parse") in
  let? b := ok_or (with_prologue b prologue) (HandshakeFailed "initiator prologue") in
  let? b := ok_or (local_private_key b local_static_private) (HandshakeFailed "initiator local key") in
  let? b := ok_or (remote_public_key b (responder_ephemeral_static q)) (HandshakeFailed "initiator remote key") in
  ok_or (build_initiator b) (HandshakeFailed "initiator build").

Definition write_message_1 : st HandshakeState BackupError (list byte) := fun state =>
  let '(buf, state) := hs_write state [] MAX_HANDSHAKE_MSG_LEN in
  (ok_or buf (HandshakeFailed "initiator msg 1 write"), state).

(** The state is consumed: the hash is taken before the change to transport mode. *)
Definition finalize (what : string) (state : HandshakeState) : res BackupError TransferHandshakeResult :=
  let? hh := extract_handshake_hash state in
  let? t := ok_or (into_transport_mode state) (HandshakeFailed what) in
  Ok {| transport := t; handshake_hash := hh |}.

Definition read_message_2_and_finalize (state : HandshakeState) (msg2 : list byte) : res BackupError TransferHandshakeResult :=
  let '(payload, state) := hs_read state msg2 MAX_HANDSHAKE_MSG_LEN in
  let? _ := ok_or payload (HandshakeFailed "initiator msg 2 read") in
  finalize "initiator transport" state.

Definition responder_new (local_ephemeral_static_private pairing_challenge : list byte) : res BackupError HandshakeState :=
  let prologue := build_prologue pairing_challenge in
  let? b := ok_or (builder_new NOISE_PATTERN) (HandshakeFailed "noise params parse") in
  let? b := ok_or (with_prologue b prologue) (HandshakeFailed "responder prologue") in
  let? b := ok_or (local_private_key b local_ephemeral_static_private) (HandshakeFailed "responder local key") in
  ok_or (build_responder b) (HandshakeFailed "responder build").

Definition read_message_1 (msg1 : list byte) : st HandshakeState BackupError unit := fun state =>
  let '(payload, state) := hs_read state msg1 MAX_HANDSHAKE_MSG_LEN in
  (let? _ := ok_or payload (HandshakeFailed "responder msg 1 read") in Ok tt, state).

Definition write_message_2_and_finalize (state : HandshakeState) : res BackupError (list byte * TransferHandshakeResult) :=
  let '(buf, state) := hs_write state [] MAX_HANDSHAKE_MSG_LEN in
  let? buf := ok_or buf (HandshakeFailed "responder msg 2 write") in
  let? r := finalize "responder transport" state in
  Ok (buf, r).

Definition remote_static (state : HandshakeState) : option (list byte) := get_remote_static state.

(** ** Identity binding ([identity_verify.rs]) *)
Definition IDENTITY_BIND_DOMAIN : list byte := bytes_of_string "umbrellax-device-transfer-identity-v1".

Definition sign_handshake_hash (handshake_hash : list byte) (signer : list byte -> res BackupError (list byte)) : res BackupError (list byte) :=
  signer (IDENTITY_BIND_DOMAIN ++ handshake_hash).

Definition verify_handshake_hash_signature `{Ed25519} (handshake_hash signer_identity_pubkey signature : list byte) : res BackupError unit :=
  reject negb (vk_valid signer_identity_pubkey) with QrSignatureInvalid ;;
  let input := IDENTITY_BIND_DOMAIN ++ handshake_hash in
  reject negb (ed_verify signer_identity_pubkey input signature) with CryptoVerificationFailed ;;
  Ok tt.

(** [MockKtLookup]. *)
Definition KtEntries : Type := list (list byte * list byte).
Definition register (entries : KtEntries) (pubkey account_id : list byte) : KtEntries := entries ++ [(pubkey, account_id)].
Definition verify_membership (entries : KtEntries) (identity_pubkey account_id : list byte) : res BackupError unit :=
  if existsb (fun '(pk, acc) => bool_decide (pk = identity_pubkey) && bool_decide (acc = account_id)) entries
  then Ok tt else Err CryptoVerificationFailed.

(** ** Key-store adapters ([identity_adapters.rs]) *)

(** What the adapters use of [trait KeyStore], and the view of a store of [Identity]. *)
Record KeyStore := {
  identity_public : list byte;
  sign_with_identity : list byte -> list byte;
  device_public : Z -> res Identity.IdentityError (option (list byte));
  sign_with_device : Z -> list byte -> res Identity.IdentityError (list byte)
}.
Definition store_view {PB : Pq.PqBackend} (k : Identity.InMemoryKeyStore) : KeyStore := {|
  identity_public := Identity.ik_public (Identity.ks_identity k);
  sign_with_identity := Identity.sign_with_identity k;
  device_public i := (Identity.device_public i k).1;
  sign_with_device i m := (Identity.sign_with_device i m k).1
|}.

Definition build_signed_qr_with_identity (ks : KeyStore) (responder_ephemeral_static pairing_challenge : list byte)
  (expiry_unix_millis : Z) : res BackupError DevicePairingQr :=
  build_signed_qr (identity_public ks) responder_ephemeral_static pairing_challenge expiry_unix_millis
    (fun payload => Ok (sign_with_identity ks payload)).

Definition sign_handshake_hash_with_identity (ks : KeyStore) (handshake_hash : list byte) : res BackupError (list byte) :=
  sign_handshake_hash handshake_hash (fun payload => Ok (sign_with_identity ks payload)).

Definition seal_unwrap_request_with_keystore (ks : KeyStore) (device_idx : Z)
  (ephemeral_r chat_id recipient_device_pubkey : list byte) (timestamp_unix_millis : Z) (server_nonce : list byte)
  (attestation_provider : CloudRequest.AttestationProvider) : res BackupError CloudRequest.SignedUnwrapRequest :=
  match device_public ks device_idx with
  | Ok device_pub =>
      let? device_pubkey_bytes := ok_or device_pub (DeviceSigning "device not registered") in
      CloudRequest.seal_unwrap_request ephemeral_r chat_id recipient_device_pubkey timestamp_unix_millis server_nonce
        attestation_provider
        (fun payload => rmap_err (fun _ => DeviceSigning "KeyStore::sign_with_device") (sign_with_device ks device_idx payload))
        device_pubkey_bytes
  | Err _ | Panic => Panic
  end.

(** [kt] is the lookup of [trait KtLookup]. *)
Definition verify_remote_pairing `{Ed25519} (q : DevicePairingQr) (remote_identity_pubkey expected_account_id handshake_hash
  remote_handshake_signature : list byte) (kt : list byte -> list byte -> res BackupError unit)
  (our_identity_pubkey : list byte) : res BackupError unit :=
  reject negb (bool_decide (responder_identity_pubkey q = remote_identity_pubkey)) with QrSignatureInvalid ;;
  let? _ := verify_handshake_hash_signature handshake_hash remote_identity_pubkey remote_handshake_signature in
  let? _ := kt remote_identity_pubkey expected_account_id in
  let? _ := kt our_identity_pubkey expected_account_id in
  Ok tt.

(** ** Frames ([stream.rs]) *)
Definition MAX_FRAME_PAYLOAD : Z := 1024 * 1024.

Record TransferSession := { ts_transport : TransportState; ts_handshake_hash : list byte }.
Definition session_new (transport : TransportState) (handshake_hash : list byte) : TransferSession :=
  {| ts_transport := transport; ts_handshake_hash := handshake_hash |}.
Definition with_transport (s : TransferSession) (t : TransportState) : TransferSession :=
  {| ts_transport := t; ts_handshake_hash := ts_handshake_hash s |}.

Definition encode_frame (plaintext : list byte) : st TransferSession BackupError (list byte) := fun s =>
  if MAX_FRAME_PAYLOAD <? len plaintext then (Err (StreamFrameTooLarge MAX_FRAME_PAYLOAD (len plaintext)), s)
  else
    let '(written, t) := ts_write (ts_transport s) plaintext (len plaintext + 16) in
    (let? buf := ok_or written (HandshakeFailed "transport write") in
     let n := len buf in
     Ok (to_be 4 (wrap32 n) ++ buf),
     with_transport s t).

Definition decode_frame_consuming (wire : list byte) : st TransferSession BackupError (list byte * Z) := fun s =>
  if len wire <? 4 then (Err StreamUnexpectedEof, s)
  else
    match slice (E := BackupError) 0 4 wire with
    | Ok len_bytes =>
        let cipher_len := from_be len_bytes in
        if MAX_FRAME_PAYLOAD + 16 <? cipher_len
        then (Err (StreamFrameTooLarge MAX_FRAME_PAYLOAD (sat_sub cipher_len 16)), s)
        else
          let total := 4 + cipher_len in
          if len wire <? total then (Err StreamUnexpectedEof, s)
          else
            match slice (E := BackupError) 4 total wire with
            | Ok ct =>
                let '(out, t) := ts_read (ts_transport s) ct cipher_len in
                (let? out := ok_or out (HandshakeFailed "transport read") in Ok (out, total), with_transport s t)
            | Err e => (Err e, s) | Panic => (Panic, s)
            end
    | Err e => (Err e, s) | Panic => (Panic, s)
    end.

Definition decode_frame (wire : list byte) : st TransferSession BackupError (list byte) :=
  let! (plaintext, _) := decode_frame_consuming wire in
  sret plaintext.

(** ** Both devices together

    What the two applications do with these operations, for the statements below. *)

(** The handshake of a new device holding [ipriv] and an old device holding [rpriv]. *)
Definition pair (q : DevicePairingQr) (ipriv rpriv : list byte) : res BackupError (TransferHandshakeResult * TransferHandshakeResult) :=
  let? i := initiator_new q ipriv in
  let? r := responder_new rpriv (pairing_challenge q) in
  let '(m1, i) := write_message_1 i in
  let? m1 := m1 in
  let '(ok, r) := read_message_1 m1 r in
  let? _ := ok in
  let? (m2, rr) := write_message_2_and_finalize r in
  let? ri := read_message_2_and_finalize i m2 in
  Ok (ri, rr).

(** Sending chunks one after the other on one stream. *)
Fixpoint send_all (chunks : list (list byte)) : st TransferSession BackupError (list byte) :=
  match chunks with
  | [] => sret []
  | c :: chunks =>
      let! f := encode_frame c in
      let! rest := send_all chunks in
      sret (f ++ rest)
  end.

(** Receiving frames until the stream is used up; [fuel] bounds their number. *)
Fixpoint recv_all (fuel : nat) (wire : list byte) : st TransferSession BackupError (list (list byte)) :=
  match fuel, wire with
  | _, [] => sret []
  | O, _ => slift (Err StreamUnexpectedEof)
  | S fuel, _ =>
      let! (p, n) := decode_frame_consuming wire in
      let! rest := recv_all fuel (drop (Z.to_nat n) wire) in
      sret (p :: rest)
  end.
End Transfer.

(** ** What the Noise library documents

    A message has at most 65535 bytes and is 16 bytes longer than its payload; a write fails
    only for its size or when the 64-bit nonce is used up; two sides that ran the handshake with
    one prologue and the right keys share the hash, and what one writes the other reads. *)
Definition NOISE_MAX_MESSAGE : Z := 65535.

Class NoiseLaws (N : Noise) := {
  x25519_public : list byte -> list byte;
  sent : TransportState -> Z;                                (* nonces used for sending *)
  paired : TransportState -> TransportState -> Prop;         (* what the first writes the second reads next *)
  ts_write_len : forall t p n c t', ts_write t p n = (Some c, t') -> len c = len p + 16 /\ len c <= NOISE_MAX_MESSAGE;
  ts_write_ok : forall t p n, len p + 16 <= n -> len p + 16 <= NOISE_MAX_MESSAGE -> sent t < U64_MAX ->
    exists c t', ts_write t p n = (Some c, t') /\ sent t' = sent t + 1;
  ts_paired : forall w r p n c w' m, paired w r -> ts_write w p n = (Some c, w') -> len c <= m ->
    exists r', ts_read r c m = (Some p, r') /\ paired w' r';
  builders : forall prologue priv pub, len priv = 32 -> len pub = 32 ->
    exists b0 b1 b2 b3 i r, builder_new NOISE_PATTERN = Some b0 /\ with_prologue b0 prologue = Some b1 /\
      local_private_key b1 priv = Some b2 /\ remote_public_key b2 pub = Some b3 /\
      build_initiator b3 = Some i /\ build_responder b2 = Some r;
  honest_run : forall b0 prologue ipriv rpriv bi bi2 bi3 i br br2 r,
    builder_new NOISE_PATTERN = Some b0 ->
    with_prologue b0 prologue = Some bi -> local_private_key bi ipriv = Some bi2 ->
    remote_public_key bi2 (x25519_public rpriv) = Some bi3 -> build_initiator bi3 = Some i ->
    with_prologue b0 prologue = Some br -> local_private_key br rpriv = Some br2 -> build_responder br2 = Some r ->
    exists m1 i1 r1 m2 r2 i2 ti tr, hs_write i [] NOISE_MAX_MESSAGE = (Some m1, i1) /\
      hs_read r m1 NOISE_MAX_MESSAGE = (Some [], r1) /\ get_remote_static r1 = Some (x25519_public ipriv) /\
      hs_write r1 [] NOISE_MAX_MESSAGE = (Some m2, r2) /\ hs_read i1 m2 NOISE_MAX_MESSAGE = (Some [], i2) /\
      get_handshake_hash i2 = get_handshake_hash r2 /\ len (get_handshake_hash r2) = 64 /\
      into_transport_mode i2 = Some ti /\ into_transport_mode r2 = Some tr /\
      paired tr ti /\ paired ti tr /\ sent tr = 0 /\ sent ti = 0
}.

(** ** QR codes: proofs *)
Lemma fill_next {E} (off n : Z) (k : nat) (pre x : list byte) :
  off = len pre -> n = len x -> n <= Z.of_nat k ->
  copy_into (E := E) off (off + n) x (pre ++ replicate k Byte.x00)
  = Ok ((pre ++ x) ++ replicate (k - Z.to_nat n) Byte.x00).
Proof.
  intros -> -> Hk. pose proof (len_nonneg pre). pose proof (len_nonneg x).
  rewrite copy_into_in_range by (try rewrite len_app, len_replicate; lia). f_equal.
  replace (Z.to_nat (len pre)) with (length pre) by (unfold len; lia).
  replace (Z.to_nat (len pre + len x)) with (length pre + length x)%nat by (unfold len; lia).
  rewrite take_app_length, drop_app_add, drop_replicate, <- app_assoc. do 3 f_equal. unfold len. lia.
Qed.

(** The payload as the concatenation of its fields. *)
Definition qr_wire (q : DevicePairingQr) : list byte :=
  [as_u8 (version q)] ++ responder_identity_pubkey q ++ responder_ephemeral_static q ++
  pairing_challenge q ++ to_be 8 (expiry_unix_millis q) ++ identity_signature q.

Lemma to_bytes_wire q : qr_wf q -> to_bytes q = Ok (qr_wire q).
Proof.
  intros (_ & H1 & H2 & H3 & _ & H4). unfold to_bytes. cbn zeta.
  unfold PUBKEY_LEN, PAIRING_CHALLENGE_LEN, QR_SIG_LEN.
  change (replicate (Z.to_nat QR_PAYLOAD_LEN) Byte.x00) with ([] ++ replicate 169 Byte.x00).
  rewrite (fill_next 0 1) by done. cbn [rbind].
  rewrite (fill_next _ 32) by (done || len_lia). cbn [rbind].
  rewrite (fill_next _ 32) by (done || len_lia). cbn [rbind].
  rewrite (fill_next _ 32) by (done || len_lia). cbn [rbind].
  rewrite (fill_next _ 8) by (rewrite ?len_to_be; done || len_lia). cbn [rbind].
  rewrite (fill_next _ 64) by (done || len_lia).
  change (replicate (169 - Z.to_nat 1 - Z.to_nat 32 - Z.to_nat 32 - Z.to_nat 32 - Z.to_nat 8 - Z.to_nat 64) Byte.x00) with (@nil byte).
  unfold qr_wire. by rewrite app_nil_r, <- !app_assoc.
Qed.

Definition qr_v1 (q : DevicePairingQr) : Prop := qr_wf q /\ version q = QR_VERSION.
Ltac qr_lens := unfold QR_PAYLOAD_LEN, PUBKEY_LEN, PAIRING_CHALLENGE_LEN, QR_SIG_LEN, QR_VERSION in *.

Lemma qr_dec_enc q : qr_v1 q -> from_bytes (qr_wire q) = Ok q.
Proof.
  destruct q as [v ik es ch ex sg]. intros [(_ & H1 & H2 & H3 & H4 & H5) Hv].
  cbn [version responder_identity_pubkey responder_ephemeral_static pairing_challenge expiry_unix_millis identity_signature] in *.
  unfold from_bytes, qr_wire. qr_lens. subst v.
  cbn [version responder_identity_pubkey responder_ephemeral_static pairing_challenge expiry_unix_millis identity_signature].
  cbn zeta. rewrite (proj2 (Z.eqb_eq _ _)) by len_lia. cbn [negb rguard].
  rd_index (as_u8 1). change (u8 (as_u8 1) =? 1) with true. cbn [negb rguard].
  rd_slice ik. rd_slice es. rd_slice ch. rd_slice (to_be 8 ex). rd_slice sg. by rewrite from_be_to_be_u64.
Qed.

Lemma qr_enc_dec b q : from_bytes b = Ok q -> qr_wire q = b /\ qr_v1 q.
Proof.
  unfold from_bytes. qr_lens. cbn zeta. intros Hd. apply rguard_Ok in Hd as [Hl Hd].
  inv_index Hd v S0. apply rguard_Ok in Hd as [Hv Hd].
  inv_slice Hd ik S1 L1. inv_slice Hd es S2 L2. inv_slice Hd ch S3 L3. inv_slice Hd xp S4 L4. inv_slice Hd sg S5 L5.
  apply Ok_inj in Hd as <-. zbool. pose proof (from_be_u64 xp ltac:(lia)) as Hxp. split.
  - unfold qr_wire. cbn [version responder_identity_pubkey responder_ephemeral_static pairing_challenge expiry_unix_millis identity_signature].
    rewrite as_u8_u8, (to_be_from_be_n 8) by lia.
    eapply (slices_cover (E := BackupError)); [glue_slices|lia].
  - unfold qr_v1, qr_wf, is_u8, U8_MAX. pose proof (u8_range v). qr_lens.
    cbn [version responder_identity_pubkey responder_ephemeral_static pairing_challenge expiry_unix_millis identity_signature].
    repeat split; first [assumption|lia|apply Hxp].
Qed.

Lemma qr_total b : from_bytes b <> Panic.
Proof. unfold from_bytes. qr_lens. intros Hp. no_panic Hp. Qed.

#[global] Instance qr_codec : Codec BackupError DevicePairingQr := {|
  enc := qr_wire; dec := from_bytes; wf := qr_v1;
  dec_enc := qr_dec_enc; enc_dec := qr_enc_dec; dec_total := qr_total
|}.

(** The signature covers every other field. *)
Lemma canonical_inj q q' :
  qr_wf q -> qr_wf q' -> canonical_signing_input q = canonical_signing_input q' ->
  version q = version q' /\ responder_identity_pubkey q = responder_identity_pubkey q' /\
  responder_ephemeral_static q = responder_ephemeral_static q' /\
  pairing_challenge q = pairing_challenge q' /\ expiry_unix_millis q = expiry_unix_millis q'.
Proof.
  intros (V & H1 & H2 & H3 & H4 & _) (V' & K1 & K2 & K3 & K4 & _) He. unfold canonical_signing_input in He.
  peel He Ed. peel He Ev. peel He E1. peel He E2. peel He E3. repeat split; try done.
  - injection Ev as Ev. apply (f_equal u8) in Ev. rewrite !u8_as_u8 in Ev.
    unfold is_u8, U8_MAX in *. rewrite !Z.mod_small in Ev by lia. done.
  - by apply to_be_u64_inj.
Qed.

(** ** Frames and sessions: proofs *)
Section TransferProofs.
Context {N : Noise} {NL : NoiseLaws N}.

(** The largest plaintext one Noise message carries. *)
Definition NOISE_MAX_PAYLOAD : Z := NOISE_MAX_MESSAGE - 16.
Definition ready (s : TransferSession) (n : Z) : Prop := sent (ts_transport s) + n <= U64_MAX.

Lemma encode_frame_ok p s :
  len p <= NOISE_MAX_PAYLOAD -> ready s 1 ->
  exists c t, encode_frame p s = (Ok (to_be 4 (len c) ++ c), with_transport s t) /\
    ts_write (ts_transport s) p (len p + 16) = (Some c, t) /\ len c = len p + 16 /\
    sent t = sent (ts_transport s) + 1.
Proof.
  unfold NOISE_MAX_PAYLOAD, NOISE_MAX_MESSAGE, ready. intros Hp Hn.
  destruct (ts_write_ok (ts_transport s) p (len p + 16)) as (c & t & Hw & Hs); [lia|unfold NOISE_MAX_MESSAGE; lia|lia|].
  destruct (ts_write_len _ _ _ _ _ Hw) as [Hc _]. exists c, t.
  unfold encode_frame, MAX_FRAME_PAYLOAD. rewrite (proj2 (Z.ltb_ge _ _)) by lia. rewrite Hw. cbn [ok_or rbind].
  pose proof (len_nonneg p). rewrite wrap32_id by (unfold is_u32, U32_MAX; lia). done.
Qed.

Lemma decode_frame_ok p c w r w' rest :
  paired (ts_transport w) (ts_transport r) -> len p <= NOISE_MAX_PAYLOAD -> len c = len p + 16 ->
  ts_write (ts_transport w) p (len p + 16) = (Some c, w') ->
  exists r', decode_frame_consuming ((to_be 4 (len c) ++ c) ++ rest) r
    = (Ok (p, len (to_be 4 (len c) ++ c)), with_transport r r') /\ paired w' r'.
Proof.
  unfold NOISE_MAX_PAYLOAD, NOISE_MAX_MESSAGE. intros Hp Hl Hc Hw.
  destruct (ts_paired _ _ _ _ _ _ (len c) Hp Hw) as (r' & Hr & Hp'); [lia|]. exists r'. split; [|done].
  pose proof (len_nonneg p). pose proof (len_nonneg rest). unfold decode_frame_consuming, MAX_FRAME_PAYLOAD.
  rewrite <- app_assoc. rewrite (proj2 (Z.ltb_ge _ 4)) by len_lia.
  rewrite (slice_hit 0 4) by (rewrite ?len_to_be; done).
  rewrite from_be_to_be_u32 by (unfold is_u32, U32_MAX; lia).
  rewrite (proj2 (Z.ltb_ge _ (len c))) by lia. rewrite (proj2 (Z.ltb_ge _ (4 + len c))) by len_lia.
  rewrite (slice_skip 4) by (rewrite ?len_to_be; lia || done). rewrite (slice_hit (4 - 4)) by lia.
  rewrite Hr. cbn [ok_or rbind]. rewrite len_app, len_to_be. done.
Qed.

Lemma frame_nonempty n (c rest : list byte) : (to_be 4 n ++ c) ++ rest <> [].
Proof. discriminate. Qed.

Lemma recv_frame fuel wire p n s s' :
  wire <> [] -> decode_frame_consuming wire s = (Ok (p, n), s') ->
  recv_all (S fuel) wire s = (let! rest := recv_all fuel (drop (Z.to_nat n) wire) in sret (p :: rest))%umb s'.
Proof. intros Hw Hd. destruct wire; [done|]. cbn [recv_all]. unfold sbind at 1. by rewrite Hd. Qed.

(** Sending succeeds, and a paired receiver with fuel for the frames reads the chunks back. *)
Lemma send_recv chunks w r :
  Forall (fun c => len c <= NOISE_MAX_PAYLOAD) chunks -> ready w (len chunks) ->
  paired (ts_transport w) (ts_transport r) ->
  exists wire w', send_all chunks w = (Ok wire, w') /\
  forall fuel, (length chunks <= fuel)%nat -> exists r', recv_all fuel wire r = (Ok chunks, r') /\
    paired (ts_transport w') (ts_transport r').
Proof.
  intros Hc. revert w r. induction Hc as [|p chunks Hp _ IH]; intros w r Hn Hpair.
  { exists [], w. split; [done|]. intros [|fuel] _; by exists r. }
  rewrite len_cons in Hn. unfold ready in Hn. pose proof (len_nonneg chunks).
  destruct (encode_frame_ok p w Hp) as (c & t & He & Hw & Hlc & Hs); [unfold ready; lia|].
  destruct (decode_frame_ok p c w r t [] Hpair Hp Hlc Hw) as (rt & _ & Hpair').
  destruct (IH (with_transport w t) (with_transport r rt)) as (wire & w' & Hsend & Hrecv);
    [unfold ready; cbn [with_transport ts_transport]; lia|done|].
  exists ((to_be 4 (len c) ++ c) ++ wire), w'. split.
  { cbn [send_all]. unfold sbind. rewrite He, Hsend. done. }
  intros [|fuel] Hf; [simpl in Hf; lia|]. cbn [length] in Hf.
  destruct (decode_frame_ok p c w r t wire Hpair Hp Hlc Hw) as (rt' & Hd & Hpair2).
  rewrite (recv_frame _ _ _ _ _ _ (frame_nonempty _ _ _) Hd).
  replace (drop (Z.to_nat (len (to_be 4 (len c) ++ c))) ((to_be 4 (len c) ++ c) ++ wire)) with wire
    by (unfold len at 1; by rewrite Nat2Z.id, drop_app_length).
  destruct (IH (with_transport w t) (with_transport r rt')) as (wire2 & w2 & Hsend2 & Hrecv2);
    [unfold ready; cbn [with_transport ts_transport]; lia|done|].
  rewrite Hsend in Hsend2. injection Hsend2 as <- <-.
  destruct (Hrecv2 fuel ltac:(lia)) as (r' & Hr & Hpr). exists r'. unfold sbind. by rewrite Hr.
Qed.

Lemma extract_hash_64 h : len (get_handshake_hash h) = 64 -> extract_handshake_hash h = Ok (get_handshake_hash h).
Proof.
  intros Hl. unfold extract_handshake_hash, HANDSHAKE_HASH_LEN. cbn zeta. rewrite Hl, Z.min_id, <- Hl, slice_all. cbn [rbind].
  rewrite Hl, copy_into_in_range by (rewrite ?len_replicate; lia). f_equal.
  rewrite take_0, drop_ge by (rewrite length_replicate; lia). by rewrite app_nil_r.
Qed.

(** The handshake of two honest devices. *)
Lemma pair_ok q ipriv rpriv :
  len ipriv = 32 -> len rpriv = 32 -> len (responder_ephemeral_static q) = 32 ->
  responder_ephemeral_static q = x25519_public rpriv ->
  exists ri rr, pair q ipriv rpriv = Ok (ri, rr) /\ handshake_hash ri = handshake_hash rr /\
    len (handshake_hash rr) = 64 /\ paired (transport rr) (transport ri) /\ sent (transport rr) = 0.
Proof.
  intros Hi Hr Hq He. set (pro := build_prologue (pairing_challenge q)).
  destruct (builders pro ipriv _ Hi Hq) as (b0 & bi & bi2 & bi3 & i & ri0 & B0 & B1 & B2 & B3 & B4 & _).
  destruct (builders pro rpriv _ Hr Hq) as (c0 & br & br2 & br3 & i' & r & C0 & C1 & C2 & _ & _ & C4).
  rewrite B0 in C0. injection C0 as <-. rewrite He in B3.
  destruct (honest_run b0 pro ipriv rpriv bi bi2 bi3 i br br2 r)
    as (m1 & i1 & r1 & m2 & r2 & i2 & ti & tr & W1 & R1 & _ & W2 & R2 & Hh & Hl & Ti & Tr & Hp & _ & Hs & _); try assumption.
  exists {| transport := ti; handshake_hash := get_handshake_hash i2 |},
         {| transport := tr; handshake_hash := get_handshake_hash r2 |}.
  split; [|done]. unfold pair, initiator_new, responder_new. fold pro.
  rewrite B0. cbn [ok_or rbind]. rewrite B1. cbn [ok_or rbind]. rewrite B2. cbn [ok_or rbind].
  rewrite He, B3. cbn [ok_or rbind]. rewrite B4. cbn [ok_or rbind].
  rewrite B1 in C1. injection C1 as ->. rewrite C2. cbn [ok_or rbind]. rewrite C4. cbn [ok_or rbind].
  unfold write_message_1, read_message_1, write_message_2_and_finalize, read_message_2_and_finalize, MAX_HANDSHAKE_MSG_LEN.
  fold NOISE_MAX_MESSAGE. rewrite W1. cbn [ok_or rbind]. rewrite R1. cbn [ok_or rbind]. rewrite W2. cbn [ok_or rbind].
  unfold finalize at 1. rewrite extract_hash_64 by done. cbn [rbind]. rewrite Tr. cbn [ok_or rbind].
  rewrite R2. cbn [ok_or rbind]. unfold finalize. rewrite extract_hash_64 by congruence. cbn [rbind]. by rewrite Ti.
Qed.

(** What a signing callback of the identity key does. *)
Definition signs_for {Ed : Ed25519} (identity : list byte) (signer : list byte -> res BackupError (list byte)) : Prop :=
  forall m, exists sig, signer m = Ok sig /\ len sig = 64 /\ sig_ok identity m sig = true.

Lemma signed_qr_ok {Ed : Ed25519} {B : Base32} {BL : Base32Laws B} identity eph challenge expiry signer :
  len identity = 32 -> len eph = 32 -> len challenge = 32 -> is_u64 expiry -> signs_for identity signer ->
  exists q text, build_signed_qr identity eph challenge expiry signer = Ok q /\
    responder_identity_pubkey q = identity /\ responder_ephemeral_static q = eph /\ expiry_unix_millis q = expiry /\
    to_base32 q = Ok text /\ from_base32 text = Ok q /\ verify_identity q = Ok tt.
Proof.
  intros Hi He Hc Hx Hsig. unfold build_signed_qr. cbn zeta.
  destruct (Hsig (canonical_signing_input {| version := QR_VERSION; responder_identity_pubkey := identity;
    responder_ephemeral_static := eph; pairing_challenge := challenge; expiry_unix_millis := expiry;
    identity_signature := replicate 64 Byte.x00 |})) as (sg & Hs & Hl & Hv).
  rewrite Hs. cbn [rbind]. eexists _, _. split; [reflexivity|]. split; [done|]. split; [done|]. split; [done|].
  match goal with |- to_base32 ?q = _ /\ _ => set (qr := q) end.
  assert (Hq : qr_v1 qr) by (subst qr; split; [|done]; repeat split; try done; apply Hx).
  unfold to_base32. rewrite to_bytes_wire by apply Hq. split; [reflexivity|].
  unfold from_base32. rewrite base32_inv. cbn [ok_or rbind]. split; [by apply qr_dec_enc|].
  unfold sig_ok in Hv. apply andb_prop in Hv as [Hk Hv]. unfold verify_identity, rguard. subst qr.
  cbn [responder_identity_pubkey identity_signature] in *. rewrite Hk. cbn [negb].
  change (canonical_signing_input _) with (canonical_signing_input {| version := QR_VERSION; responder_identity_pubkey := identity;
    responder_ephemeral_static := eph; pairing_challenge := challenge; expiry_unix_millis := expiry;
    identity_signature := replicate 64 Byte.x00 |}). by rewrite Hv.
Qed.

Lemma verify_membership_Ok entries pk acc :
  verify_membership entries pk acc = Ok tt <-> (pk, acc) ∈ entries.
Proof.
  unfold verify_membership. destruct (existsb _ _) eqn:He; split; try done.
  - intros _. apply existsb_exists in He as ([pk' acc'] & Hin & Hb).
    apply andb_prop in Hb as [H1 H2]. apply bool_decide_eq_true in H1, H2. subst. by apply list_elem_of_In.
  - intros Hin. exfalso. apply not_true_iff_false in He. apply He, existsb_exists. exists (pk, acc).
    rewrite !bool_decide_eq_true_2 by done. split; [by apply list_elem_of_In|done].
Qed.

(** The new device accepts the old one exactly when the identity it talks to is the one of the
    scanned QR code, that identity signed this handshake, and the log lists both identities
    under the expected account. *)
Theorem remote_pairing_exact {Ed : Ed25519} q remote acc hh sig entries ours :
  verify_remote_pairing q remote acc hh sig (verify_membership entries) ours = Ok tt <->
  responder_identity_pubkey q = remote /\ sig_ok remote (IDENTITY_BIND_DOMAIN ++ hh) sig = true /\
  (remote, acc) ∈ entries /\ (ours, acc) ∈ entries.
Proof.
  rewrite <- !verify_membership_Ok. unfold verify_remote_pairing, verify_handshake_hash_signature, sig_ok, rguard.
  destruct (bool_decide_reflect (responder_identity_pubkey q = remote)) as [Hq|Hq]; cbn [negb]; [|naive_solver].
  destruct (vk_valid remote); cbn [negb andb rbind]; [|naive_solver].
  destruct (ed_verify _ _ _); cbn [negb rbind]; [|naive_solver].
  destruct (verify_membership entries remote acc) as [[]|e|]; cbn [rbind]; [|naive_solver..].
  destruct (verify_membership entries ours acc) as [[]|e|]; cbn [rbind]; naive_solver.
Qed.

(** C12. A transfer between two honest devices: the QR code shown by the old device parses back on the
    new one, is unexpired and carries a valid signature; the handshake completes on both sides
    with one hash; the signature of the old device over that hash verifies under the identity of
    the QR code; and the snapshot, cut into chunks of at most 65519 bytes, arrives unchanged. *)
Theorem transfer_end_to_end {Ed : Ed25519} {B : Base32} {BL : Base32Laws B}
  identity ipriv rpriv challenge expiry now signer s b chunks :
  len identity = 32 -> len ipriv = 32 -> len rpriv = 32 -> len (x25519_public rpriv) = 32 ->
  len challenge = 32 -> is_u64 expiry -> now < expiry -> signs_for identity signer ->
  Snapshot.to_bytes s = Ok b -> Snapshot.version s = Snapshot.SNAPSHOT_VERSION ->
  Snapshot.groups_wf (Snapshot.mls_groups s) -> Snapshot.slice_len_ok b -> concat chunks = b ->
  Forall (fun c => len c <= NOISE_MAX_PAYLOAD) chunks -> len chunks <= U64_MAX ->
  exists q text ri rr sig wire w r,
    build_signed_qr identity (x25519_public rpriv) challenge expiry signer = Ok q /\
    to_base32 q = Ok text /\ from_base32 text = Ok q /\
    ensure_not_expired q now = Ok tt /\ verify_identity q = Ok tt /\
    pair q ipriv rpriv = Ok (ri, rr) /\
    sign_handshake_hash (handshake_hash rr) signer = Ok sig /\
    verify_handshake_hash_signature (handshake_hash ri) (responder_identity_pubkey q) sig = Ok tt /\
    send_all chunks (session_new (transport rr) (handshake_hash rr)) = (Ok wire, w) /\
    recv_all (length chunks) wire (session_new (transport ri) (handshake_hash ri)) = (Ok chunks, r) /\
    Snapshot.from_bytes (concat chunks) = Ok s.
Proof.
  intros Hid Hip Hrp Hpub Hch Hx Hnow Hsig Hb Hv Hg Hl Hcat Hsz Hn.
  destruct (signed_qr_ok identity (x25519_public rpriv) challenge expiry signer)
    as (q & text & Hq & Hqi & Hqe & Hqx & Ht & Hf & Hvi); try done.
  destruct (pair_ok q ipriv rpriv) as (ri & rr & Hp & Hh & _ & Hpair & Hs); try congruence.
  destruct (Hsig (IDENTITY_BIND_DOMAIN ++ handshake_hash rr)) as (sg & Hsg & _ & Hok).
  destruct (send_recv chunks (session_new (transport rr) (handshake_hash rr)) (session_new (transport ri) (handshake_hash ri)))
    as (wire & w & Hsend & Hrecv); [done|unfold ready; cbn [ts_transport session_new]; lia|done|].
  destruct (Hrecv (length chunks) ltac:(lia)) as (r & Hr & _).
  exists q, text, ri, rr, sg, wire, w, r. do 3 (split; [done|]). split.
  { unfold ensure_not_expired, rguard. by rewrite Hqx, (proj2 (Z.leb_gt _ _)). }
  split; [done|]. split; [done|]. split; [done|]. split.
  { unfold sig_ok in Hok. apply andb_prop in Hok as [Hk Hok]. unfold verify_handshake_hash_signature, rguard.
    by rewrite Hqi, Hh, Hk, Hok. }
  do 2 (split; [done|]). rewrite Hcat. by apply Snapshot.from_bytes_complete.
Qed.

(** Every outcome of encoding a frame: above 1 MiB the frame is refused and the session is
    unchanged; up to 65519 bytes it is sent, as a length prefix and the Noise message, as long as
    nonces remain; in between, although documented as allowed, the Noise library refuses it. *)
Theorem encode_frame_outcomes p s :
  (MAX_FRAME_PAYLOAD < len p -> encode_frame p s = (Err (StreamFrameTooLarge MAX_FRAME_PAYLOAD (len p)), s)) /\
  (NOISE_MAX_PAYLOAD < len p <= MAX_FRAME_PAYLOAD ->
     exists s', encode_frame p s = (Err (HandshakeFailed "transport write"), s')) /\
  (len p <= NOISE_MAX_PAYLOAD -> ready s 1 ->
     exists c s', encode_frame p s = (Ok (to_be 4 (len c) ++ c), s') /\ len c = len p + 16 /\
       ts_handshake_hash s' = ts_handshake_hash s).
Proof.
  split; [|split].
  - intros Hp. unfold encode_frame. by rewrite (proj2 (Z.ltb_lt _ _)).
  - intros Hp. unfold encode_frame. rewrite (proj2 (Z.ltb_ge _ _)) by lia.
    destruct (ts_write (ts_transport s) p (len p + 16)) as [[c|] t] eqn:Hw; [|by eexists].
    apply ts_write_len in Hw. unfold NOISE_MAX_PAYLOAD in Hp. lia.
  - intros Hp Hr. destruct (encode_frame_ok p s Hp Hr) as (c & t & He & _ & Hc & _). by exists c, (with_transport s t).
Qed.

(** Every outcome of decoding a frame that does not reach the Noise library, and what a frame
    that reaches it consumes: no input panics. *)
Theorem decode_frame_outcomes wire s r s' :
  decode_frame_consuming wire s = (r, s') ->
  (len wire < 4 /\ r = Err StreamUnexpectedEof /\ s' = s) \/
  (exists n rest, wire = to_be 4 n ++ rest /\ is_u32 n /\
    ((MAX_FRAME_PAYLOAD + 16 < n /\ r = Err (StreamFrameTooLarge MAX_FRAME_PAYLOAD (n - 16)) /\ s' = s) \/
     (n <= MAX_FRAME_PAYLOAD + 16 /\ len rest < n /\ r = Err StreamUnexpectedEof /\ s' = s) \/
     (n <= MAX_FRAME_PAYLOAD + 16 /\ exists ct post out t, rest = ct ++ post /\ len ct = n /\
        ts_read (ts_transport s) ct n = (out, t) /\ s' = with_transport s t /\
        r = match out with Some p => Ok (p, 4 + n) | None => Err (HandshakeFailed "transport read") end))).
Proof.
  unfold decode_frame_consuming, MAX_FRAME_PAYLOAD. destruct (Z.ltb_spec (len wire) 4) as [H4|H4]; [intros [= <- <-]; by left|].
  intros Hd. right.
  assert (Hw : exists lb rest, wire = lb ++ rest /\ len lb = 4).
  { exists (take 4 wire), (drop 4 wire). rewrite take_drop, len_take. split; [done|lia]. }
  destruct Hw as (lb & rest & -> & Hlb). rewrite (slice_hit 0 4) in Hd by lia. rewrite len_app in *.
  exists (from_be lb), rest. rewrite (to_be_from_be_n 4) by done. pose proof (from_be_u32 lb Hlb) as Hu.
  split; [done|]. split; [done|]. unfold is_u32 in Hu.
  destruct (Z.ltb_spec (1024 * 1024 + 16) (from_be lb)) as [Hb|Hb].
  { injection Hd as <- <-. left. unfold sat_sub. rewrite Z.max_r by lia. done. }
  right. destruct (Z.ltb_spec (len lb + len rest) (4 + from_be lb)) as [Ht|Ht].
  { injection Hd as <- <-. left. split; [done|]. split; [lia|done]. }
  right. split; [done|]. rewrite (slice_skip 4) in Hd by lia.
  replace (4 + from_be lb - 4) with (from_be lb) in Hd by lia. change (4 - 4) with 0 in Hd.
  rewrite <- (take_drop (Z.to_nat (from_be lb)) rest) in Hd at 1.
  assert (Hct : len (take (Z.to_nat (from_be lb)) rest) = from_be lb) by (rewrite len_take; lia).
  rewrite slice_hit in Hd by lia.
  destruct (ts_read _ _ _) as [out t] eqn:Hr. injection Hd as <- <-.
  exists (take (Z.to_nat (from_be lb)) rest), (drop (Z.to_nat (from_be lb)) rest), out, t.
  rewrite take_drop. repeat split; try done. by destruct out.
Qed.
End TransferProofs.

(** ** A toy Noise library for the witnesses: handshake messages are the sender's key, transport
    messages append a tag, both sides count. *)
Record toy_hs := { pro : list byte; mine : list byte; other : option (list byte) }.
Definition toy_noise : Noise := {|
  Builder := toy_hs; HandshakeState := toy_hs; TransportState := Z * Z;
  builder_new _ := Some {| pro := []; mine := []; other := None |};
  with_prologue b p := Some {| pro := p; mine := mine b; other := other b |};
  local_private_key b k := Some {| pro := pro b; mine := k; other := other b |};
  remote_public_key b k := Some {| pro := pro b; mine := mine b; other := Some k |};
  build_initiator b := Some b; build_responder b := Some b;
  hs_write s p n := (Some (mine s), s);
  hs_read s m n := (Some [], {| pro := pro s; mine := mine s; other := Some m |});
  get_handshake_hash s := take 64 (pro s ++ replicate 64 Byte.x00);
  get_remote_static s := other s;
  into_transport_mode s := Some (0, 0);
  ts_write t p n := if (len p + 16 <=? n) && (len p + 16 <=? NOISE_MAX_MESSAGE) && (t.1 <? U64_MAX)
                    then (Some (p ++ replicate 16 Byte.x00), (t.1 + 1, t.2)) else (None, t);
  ts_read t c n := if (16 <=? len c) && (len c <=? n) then (Some (take (length c - 16) c), (t.1, t.2 + 1)) else (None, t)
|}.

Lemma toy_write_inv t p n c t' :
  ts_write (Noise := toy_noise) t p n = (Some c, t') ->
  c = p ++ replicate 16 Byte.x00 /\ t' = (t.1 + 1, t.2) /\ len p + 16 <= NOISE_MAX_MESSAGE.
Proof. cbn [toy_noise ts_write]. destruct (_ && _) eqn:Hc; [|done]. zbool. by intros [= <- <-]. Qed.

#[global] Instance toy_noise_laws : NoiseLaws toy_noise.
Proof.
  refine (Build_NoiseLaws toy_noise (fun k => k) (fun t : Z * Z => t.1) (fun w r : Z * Z => w.1 = r.2) _ _ _ _ _).
  - intros t p n c t' Hw. apply toy_write_inv in Hw as (-> & _ & Hl). rewrite len_app, len_replicate. lia.
  - intros t p n H1 H2 H3. cbn [toy_noise ts_write].
    rewrite (proj2 (Z.leb_le (len p + 16) n)), (proj2 (Z.leb_le _ NOISE_MAX_MESSAGE)), (proj2 (Z.ltb_lt _ _)) by assumption.
    eexists _, _. split; [reflexivity|done].
  - intros w r p n c w' m Hp Hw Hm. apply toy_write_inv in Hw as (-> & -> & _). cbn [toy_noise ts_read].
    pose proof (len_nonneg p). rewrite len_app, len_replicate in *.
    rewrite !(proj2 (Z.leb_le _ _)) by lia. exists (r.1, r.2 + 1). split; [|cbn [fst snd]; congruence].
    cbn [andb]. do 2 f_equal. rewrite length_app, length_replicate, Nat.add_sub. by rewrite take_app_length.
  - intros prologue priv pub _ _. by do 6 eexists.
  - intros * H0 H1 H2 H3 H4 H5 H6 H7. cbn in H0, H1, H2, H3, H4, H5, H6, H7. simplify_eq.
    do 8 eexists. repeat split. cbn [get_handshake_hash toy_noise pro]. rewrite len_take, len_app, len_replicate. pose proof (len_nonneg prologue). lia.
Defined.

Definition toy_base32 : Base32 := {| base32_encode b := b; base32_decode b := Some b |}.
#[global] Instance toy_base32_laws : Base32Laws toy_base32.
Proof. by split. Defined.

Definition toy_signature (pk m : list byte) : list byte := pk ++ take 32 (m ++ replicate 32 Byte.x00).
Definition toy_signing : Ed25519 := {|
  vk_valid pk := len pk =? 32; ed_verify pk msg sig := bool_decide (sig = toy_signature pk msg)
|}.
Lemma toy_signs pk : len pk = 32 -> signs_for (Ed := toy_signing) pk (fun m => Ok (toy_signature pk m)).
Proof.
  intros Hk m. exists (toy_signature pk m). split; [done|]. split.
  - unfold toy_signature. rewrite len_app, len_take, len_app, len_replicate. pose proof (len_nonneg m). lia.
  - unfold sig_ok. cbn [toy_signing vk_valid ed_verify]. by rewrite Hk, bool_decide_eq_true_2.
Qed.

(** The sample state in two frames, from the code to the restored state. *)
Lemma transfer_end_to_end_witness :
  exists q ri rr wire w r,
    verify_identity (H := toy_signing) q = Ok tt /\
    pair (N := toy_noise) q (replicate 32 Byte.x02) (replicate 32 Byte.x03) = Ok (ri, rr) /\
    send_all (N := toy_noise) [take 20 Snapshot.sample_wire; drop 20 Snapshot.sample_wire]
      (session_new (transport rr) (handshake_hash rr)) = (Ok wire, w) /\
    recv_all (N := toy_noise) 2 wire (session_new (transport ri) (handshake_hash ri)) =
      (Ok [take 20 Snapshot.sample_wire; drop 20 Snapshot.sample_wire], r) /\
    Snapshot.from_bytes (concat [take 20 Snapshot.sample_wire; drop 20 Snapshot.sample_wire]) = Ok Snapshot.sample.
Proof.
  destruct (transfer_end_to_end (N := toy_noise) (NL := toy_noise_laws) (Ed := toy_signing) (B := toy_base32)
    (replicate 32 Byte.x01) (replicate 32 Byte.x02) (replicate 32 Byte.x03) (replicate 32 Byte.x04) 1000 999
    (fun m => Ok (toy_signature (replicate 32 Byte.x01) m)) Snapshot.sample Snapshot.sample_wire
    [take 20 Snapshot.sample_wire; drop 20 Snapshot.sample_wire])
    as (q & text & ri & rr & sig & wire & w & r & _ & _ & _ & _ & Hv & Hp & _ & _ & Hw & Hr & Hs);
    [vm_compute; reflexivity..|vm_compute; split; congruence|vm_compute; reflexivity|by apply toy_signs
    |vm_compute; reflexivity|reflexivity| |vm_compute; reflexivity|vm_compute; reflexivity
    |repeat constructor; vm_compute; congruence|vm_compute; congruence|].
  - split; [|vm_compute; congruence]. constructor; [|constructor]. split; vm_compute; congruence.
  - exists q, ri, rr, wire, w, r. split; [exact Hv|]. split; [exact Hp|]. split; [exact Hw|]. split; [exact Hr|exact Hs].
Defined.

(** A payload of 65520 bytes, within the documented limit, cannot be sent. *)
Lemma encode_frame_outcomes_witness :
  exists s', encode_frame (N := toy_noise) (replicate (Z.to_nat 65520) Byte.x00) (session_new (N := toy_noise) (0, 0) [])
    = (Err (HandshakeFailed "transport write"), s').
Proof.
  apply (encode_frame_outcomes (NL := toy_noise_laws) (replicate (Z.to_nat 65520) Byte.x00) (session_new (N := toy_noise) (0, 0) [])).
  rewrite len_replicate. unfold NOISE_MAX_PAYLOAD, NOISE_MAX_MESSAGE, MAX_FRAME_PAYLOAD. lia.
Defined.

Lemma decode_frame_outcomes_witness :
  exists r s', decode_frame_consuming (N := toy_noise) [Byte.x00; Byte.x00] (session_new (N := toy_noise) (0, 0) []) = (r, s') /\
    r = Err StreamUnexpectedEof.
Proof.
  eexists _, _. split; [reflexivity|].
  destruct (decode_frame_outcomes (N := toy_noise) [Byte.x00; Byte.x00] (session_new (N := toy_noise) (0, 0) []) _ _ eq_refl)
    as [(_ & Hr & _)|(n & rest & Hw & _)]; [exact Hr|].
  apply (f_equal len) in Hw. rewrite len_app, len_to_be in Hw. pose proof (len_nonneg rest).
  change (len [Byte.x00; Byte.x00]) with 2 in Hw. lia.
Defined.
End DeviceTransfer.
