(* ===== verification/Hpke.v ===== *)
(** * HPKE over X-Wing ([crates/umbrella-mls/src/provider/xwing.rs])

    The cryptographic provider that gives openmls its post-quantum ciphersuite: RFC 9180 base
    mode written out by hand (labelled HKDF, key schedule, context), with X-Wing as the KEM and
    hedged encapsulation, and delegation of every other suite to the library's own provider.
    HKDF-SHA-256, ChaCha20-Poly1305 and the inner provider are parameters; X-Wing is [Pq].
    Zeroizing has no counterpart. *)
From S2P Require Import Prelude Bytes Crypto Pq Identity Mls.
Local Open Scope string_scope.
Local Open Scope list_scope.
Local Open Scope Z_scope.

Module Hpke.

(** The errors of [openmls_traits] this code returns; [OtherError] stands for those of the inner
    provider. *)
Inductive CryptoError :=
| CryptoLibraryError | InvalidPublicKey | InvalidLength | HkdfOutputLengthInvalid | HpkeEncryptionError | HpkeDecryptionError
| OtherError (what : string).

(** The hkdf and chacha20poly1305 crates: [expand] fails beyond 255 blocks. *)
Class Hkdf := {
  extract : option (list byte) -> list byte -> list byte;            (* salt, input *)
  from_prk : list byte -> bool;
  expand : list byte -> list byte -> Z -> option (list byte)         (* prk, info, length *)
}.
Class HkdfLaws `{Hkdf} : Prop := {
  extract_len salt ikm : len (extract salt ikm) = 32;
  from_prk_ok prk : 32 <= len prk -> from_prk prk = true;
  expand_exact prk info n : 0 <= n -> match expand prk info n with Some okm => len okm = n /\ n <= 8160 | None => 8160 < n end
}.
Class Aead := {
  chacha_key : list byte -> bool;
  chacha_encrypt : list byte -> list byte -> list byte -> list byte -> option (list byte);  (* key, nonce, aad, message *)
  chacha_decrypt : list byte -> list byte -> list byte -> list byte -> option (list byte)
}.
Class AeadLaws `{Aead} : Prop := {
  chacha_key_ok key : len key = 32 -> chacha_key key = true;
  chacha_inverse key nonce aad m c : chacha_encrypt key nonce aad m = Some c -> chacha_decrypt key nonce aad c = Some m
}.

Definition HPKE_VERSION : list byte := bytes_of_string "HPKE-v1".
Definition HPKE_MODE_BASE : byte := Byte.x00.
Definition KEM_SUITE_ID : list byte := bytes_of_string "KEM" ++ [Byte.x00; Byte.x4d].
Definition HPKE_SUITE_ID : list byte := bytes_of_string "HPKE" ++ [Byte.x00; Byte.x4d; Byte.x00; Byte.x01; Byte.x00; Byte.x03].
Definition NK : Z := 32.
Definition NN : Z := 12.
Definition NH : Z := 32.

(** [copy_from_slice] into an array of [n] bytes. *)
Definition to_array (n : Z) (v : list byte) : res CryptoError (list byte) := if len v =? n then Ok v else Panic.

Section Schedule.
Context `{Hkdf} `{Aead}.

Definition labeled_ikm (suite_id label ikm : list byte) : list byte := HPKE_VERSION ++ suite_id ++ label ++ ikm.
Definition labeled_extract (suite_id salt label ikm : list byte) : res CryptoError (list byte) :=
  let salt_opt := if len salt =? 0 then None else Some salt in
  to_array NH (extract salt_opt (labeled_ikm suite_id label ikm)).
Definition labeled_info (suite_id label info : list byte) (length : Z) : list byte :=
  to_be 2 length ++ HPKE_VERSION ++ suite_id ++ label ++ info.
Definition labeled_expand (suite_id prk label info : list byte) (length : Z) : res CryptoError (list byte) :=
  reject U16_MAX <? length with HkdfOutputLengthInvalid ;;
  reject negb (from_prk prk) with HkdfOutputLengthInvalid ;;
  ok_or (expand prk (labeled_info suite_id label info length) length) HkdfOutputLengthInvalid.

Record HpkeContext := { key : list byte; base_nonce : list byte; exporter_secret : list byte }.
Definition key_schedule_base (shared_secret info : list byte) : res CryptoError HpkeContext :=
  let? psk_id_hash := labeled_extract HPKE_SUITE_ID [] (bytes_of_string "psk_id_hash") [] in
  let? info_hash := labeled_extract HPKE_SUITE_ID [] (bytes_of_string "info_hash") info in
  let ksc := HPKE_MODE_BASE :: psk_id_hash ++ info_hash in
  let? secret := labeled_extract HPKE_SUITE_ID shared_secret (bytes_of_string "secret") [] in
  let? key_vec := labeled_expand HPKE_SUITE_ID secret (bytes_of_string "key") ksc NK in
  let? key := to_array NK key_vec in
  let? nonce_vec := labeled_expand HPKE_SUITE_ID secret (bytes_of_string "base_nonce") ksc NN in
  let? base_nonce := to_array NN nonce_vec in
  let? exporter_vec := labeled_expand HPKE_SUITE_ID secret (bytes_of_string "exp") ksc NH in
  let? exporter_secret := to_array NH exporter_vec in
  Ok {| key := key; base_nonce := base_nonce; exporter_secret := exporter_secret |}.

Definition aead_seal (c : HpkeContext) (aad ptxt : list byte) : res CryptoError (list byte) :=
  reject negb (chacha_key (key c)) with CryptoLibraryError ;;
  ok_or (chacha_encrypt (key c) (base_nonce c) aad ptxt) HpkeEncryptionError.
Definition aead_open (c : HpkeContext) (aad ct : list byte) : res CryptoError (list byte) :=
  reject negb (chacha_key (key c)) with CryptoLibraryError ;;
  ok_or (chacha_decrypt (key c) (base_nonce c) aad ct) HpkeDecryptionError.
Definition export (c : HpkeContext) (exporter_context : list byte) (length : Z) : res CryptoError (list byte) :=
  labeled_expand HPKE_SUITE_ID (exporter_secret c) (bytes_of_string "sec") exporter_context length.
End Schedule.

Record HpkeKeyPair := { private : list byte; public : list byte }.
Record HpkeCiphertext := { kem_output : list byte; ciphertext : list byte }.
(** The KEM identifiers of the library: X-Wing and the others. *)
Inductive HpkeKemType := XWingKemDraft6 | OtherKem (id : Z).
Record HpkeConfig := { kem : HpkeKemType; kdf : Z; aead : Z }.
Definition is_xwing (c : HpkeConfig) : bool := match kem c with XWingKemDraft6 => true | OtherKem _ => false end.
Definition MLS_XWING : Z := Mls.to_openmls Mls.Mls256XWingChaChaSha256Ed25519.

(** [OpenMlsRustCrypto]; [R] is the generator of the operating system. *)
Class Inner (R : Type) := {
  in_supports : Z -> res CryptoError unit;
  in_suites : list Z;
  in_seal : HpkeConfig -> list byte -> list byte -> list byte -> list byte -> st R CryptoError HpkeCiphertext;
  in_open : HpkeConfig -> HpkeCiphertext -> list byte -> list byte -> list byte -> res CryptoError (list byte);
  in_sender_export : HpkeConfig -> list byte -> list byte -> list byte -> Z -> st R CryptoError (list byte * list byte);
  in_receiver_export : HpkeConfig -> list byte -> list byte -> list byte -> list byte -> Z -> res CryptoError (list byte);
  in_keypair : HpkeConfig -> list byte -> res CryptoError HpkeKeyPair
}.

Section Provider.
Context {R : Type} `{Hkdf} `{Aead} `{!Pq.PqBackend, !Pq.Rng R, !Inner R}.

Definition setup_base_sender (pk_r info witness : list byte) : st R CryptoError (list byte * HpkeContext) :=
  fail_if negb (len pk_r =? Pq.XWING_PUBLIC_KEY_LEN) with InvalidPublicKey ;;
  let! pk := slift (rmap_err (fun _ => InvalidPublicKey) (Pq.xwing_public_from_bytes pk_r)) in
  let! (ct, ss) := (fun rng => let '(r, rng) := Pq.xwing_encaps_hedged pk witness info rng in (rmap_err (fun _ => HpkeEncryptionError) r, rng)) in
  let! ctx := slift (key_schedule_base ss info) in
  sret (ct, ctx).
Definition setup_base_receiver (enc sk_r info : list byte) : res CryptoError HpkeContext :=
  reject negb (len enc =? Pq.XWING_CIPHERTEXT_LEN) with InvalidLength ;;
  let? ss := rmap_err (fun _ => HpkeDecryptionError) (Pq.xwing_decaps_raw sk_r enc) in
  key_schedule_base ss info.
Definition derive_keypair (ikm : list byte) : res CryptoError HpkeKeyPair :=
  let? dkp_prk := labeled_extract KEM_SUITE_ID [] (bytes_of_string "dkp_prk") ikm in
  let? seed_vec := labeled_expand KEM_SUITE_ID dkp_prk (bytes_of_string "sk") [] Pq.XWING_KEYGEN_SEED_LEN in
  let? seed := to_array Pq.XWING_KEYGEN_SEED_LEN seed_vec in
  let? (pk, _) := rmap_err (fun _ => CryptoLibraryError) (Pq.xwing_keygen_from_seed seed) in
  Ok {| private := seed; public := pk |}.

Record UmbrellaXWingProvider := { hedged_witness : list byte }.
Definition supports (suite : Z) : res CryptoError unit := if suite =? MLS_XWING then Ok tt else in_supports suite.
Definition supported_ciphersuites : list Z :=
  if bool_decide (MLS_XWING ∈ in_suites) then in_suites else in_suites ++ [MLS_XWING].
Definition hpke_seal (p : UmbrellaXWingProvider) (config : HpkeConfig) (pk_r info aad ptxt : list byte) : st R CryptoError HpkeCiphertext :=
  if is_xwing config then
    let! (enc, ctx) := setup_base_sender pk_r info (hedged_witness p) in
    let! ct := slift (aead_seal ctx aad ptxt) in
    sret {| kem_output := enc; ciphertext := ct |}
  else in_seal config pk_r info aad ptxt.
Definition hpke_open (config : HpkeConfig) (input : HpkeCiphertext) (sk_r info aad : list byte) : res CryptoError (list byte) :=
  if is_xwing config then
    let? ctx := setup_base_receiver (kem_output input) sk_r info in
    aead_open ctx aad (ciphertext input)
  else in_open config input sk_r info aad.
Definition hpke_setup_sender_and_export (p : UmbrellaXWingProvider) (config : HpkeConfig) (pk_r info exporter_context : list byte) (n : Z)
  : st R CryptoError (list byte * list byte) :=
  if is_xwing config then
    let! (enc, ctx) := setup_base_sender pk_r info (hedged_witness p) in
    let! exported := slift (export ctx exporter_context n) in
    sret (enc, exported)
  else in_sender_export config pk_r info exporter_context n.
Definition hpke_setup_receiver_and_export (config : HpkeConfig) (enc sk_r info exporter_context : list byte) (n : Z)
  : res CryptoError (list byte) :=
  if is_xwing config then
    let? ctx := setup_base_receiver enc sk_r info in
    export ctx exporter_context n
  else in_receiver_export config enc sk_r info exporter_context n.
Definition derive_hpke_keypair (config : HpkeConfig) (ikm : list byte) : res CryptoError HpkeKeyPair :=
  if is_xwing config then derive_keypair ikm else in_keypair config ikm.
End Provider.

(** ** Proofs *)
Section Laws.
Context `{HkdfLaws} `{AeadLaws}.

Lemma to_array_Ok n v : len v = n -> to_array n v = Ok v.
Proof. unfold to_array. intros ->. by rewrite Z.eqb_refl. Qed.
Definition salted (salt : list byte) : option (list byte) := if len salt =? 0 then None else Some salt.
Lemma labeled_extract_Ok suite salt label ikm :
  labeled_extract suite salt label ikm = Ok (extract (salted salt) (labeled_ikm suite label ikm)).
Proof. apply to_array_Ok, extract_len. Qed.

(** The outcome of a labelled expansion: the length decides. *)
Lemma labeled_expand_exact suite prk label info n : 32 <= len prk -> 0 <= n ->
  if n <=? 8160 then exists okm, labeled_expand suite prk label info n = Ok okm /\ len okm = n /\ expand prk (labeled_info suite label info n) n = Some okm
  else labeled_expand suite prk label info n = Err HkdfOutputLengthInvalid.
Proof.
  intros Hp Hn. unfold labeled_expand, rguard. rewrite from_prk_ok by done. cbn [negb].
  pose proof (expand_exact prk (labeled_info suite label info n) n Hn) as He. destruct (Z.leb_spec n 8160) as [Hl|Hl].
  - rewrite (proj2 (Z.ltb_ge _ _)) by (unfold U16_MAX; lia). destruct (expand _ _ _) as [okm|]; [|lia]. exists okm. by destruct He.
  - destruct (_ <? n); [done|]. destruct (expand _ _ _); [lia|done].
Qed.

(** The context of a shared secret, with the strings it is expanded from. *)
Definition ksc (info : list byte) : list byte :=
  HPKE_MODE_BASE :: extract None (labeled_ikm HPKE_SUITE_ID (bytes_of_string "psk_id_hash") []) ++
                    extract None (labeled_ikm HPKE_SUITE_ID (bytes_of_string "info_hash") info).
Definition schedule_secret (ss : list byte) : list byte :=
  extract (salted ss) (labeled_ikm HPKE_SUITE_ID (bytes_of_string "secret") []).
Definition schedule_info (label : string) (n : Z) (info : list byte) : list byte := labeled_info HPKE_SUITE_ID (bytes_of_string label) (ksc info) n.

Lemma key_schedule_Ok ss info : exists c, key_schedule_base ss info = Ok c /\
  len (key c) = 32 /\ len (base_nonce c) = 12 /\ len (exporter_secret c) = 32 /\
  expand (schedule_secret ss) (schedule_info "key" NK info) NK = Some (key c) /\
  expand (schedule_secret ss) (schedule_info "base_nonce" NN info) NN = Some (base_nonce c) /\
  expand (schedule_secret ss) (schedule_info "exp" NH info) NH = Some (exporter_secret c).
Proof.
  assert (Hs : 32 <= len (schedule_secret ss)) by (unfold schedule_secret; rewrite extract_len; lia).
  unfold key_schedule_base. rewrite !labeled_extract_Ok. cbn [rbind]. fold (schedule_secret ss). change (salted []) with (@None (list byte)). fold (ksc info).
  destruct (labeled_expand_exact HPKE_SUITE_ID _ (bytes_of_string "key") (ksc info) NK Hs ltac:(done)) as (k & -> & Lk & Ek).
  cbn [rbind]. rewrite (to_array_Ok NK) by done. cbn [rbind].
  destruct (labeled_expand_exact HPKE_SUITE_ID _ (bytes_of_string "base_nonce") (ksc info) NN Hs ltac:(done)) as (n & -> & Ln & En).
  cbn [rbind]. rewrite (to_array_Ok NN) by done. cbn [rbind].
  destruct (labeled_expand_exact HPKE_SUITE_ID _ (bytes_of_string "exp") (ksc info) NH Hs ltac:(done)) as (e & -> & Le & Ee).
  cbn [rbind]. rewrite (to_array_Ok NH) by done. eexists. split; [reflexivity|]. done.
Qed.
End Laws.

(** The X-Wing draft: the decapsulation key is the seed of key generation. *)
Class XWingSeed `{!Pq.PqBackend} : Prop := { decapsulation_key_is_seed seed sk pk : len seed = 32 -> Pq.kem_key_gen seed = Ok (sk, pk) -> take 32 sk = seed }.

Section Theorems.
Context {R : Type} `{HkdfLaws} `{AeadLaws} `{!Pq.PqBackend, !Ed25519, !Pq.PqBackendLaws, !XWingSeed, !Pq.Rng R, !Inner R}.

Lemma derive_keypair_Ok ikm kp : derive_keypair ikm = Ok kp ->
  len (private kp) = 32 /\ exists s, Pq.xwing_keygen_from_seed (private kp) = Ok (public kp, s) /\ s = private kp.
Proof.
  unfold derive_keypair. rewrite labeled_extract_Ok. cbn [rbind]. intros Hk.
  apply rbind_Ok in Hk as (v & Hv & Hk). apply rbind_Ok in Hk as (seed & Ha & Hk). unfold to_array in Ha.
  destruct (Z.eqb_spec (len v) Pq.XWING_KEYGEN_SEED_LEN) as [Hl|]; [|done]. apply Ok_inj in Ha as ->.
  apply rbind_Ok in Hk as ([pk s] & Hg & Hk). apply Ok_inj in Hk as <-. cbn. split; [exact Hl|]. exists s.
  destruct (Pq.xwing_keygen_from_seed seed) as [[pk' s']|e|] eqn:Hx; [|done..]. cbn in Hg. injection Hg as <- <-. split; [done|].
  apply Pq.xwing_keygen_Ok in Hx as (sk & Hk & -> & _). by eapply decapsulation_key_is_seed.
Qed.

(** A receiver with the private key of a derived pair reaches the sender's context. *)
Lemma setup_agrees ikm kp info witness rng enc ctx rng' : derive_keypair ikm = Ok kp ->
  setup_base_sender (public kp) info witness rng = (Ok (enc, ctx), rng') -> setup_base_receiver enc (private kp) info = Ok ctx.
Proof.
  intros (Lp & s & Hg & ->)%derive_keypair_Ok Hs. unfold setup_base_sender in Hs. apply sguard_Ok in Hs as [Hl Hs].
  apply sbind_Ok in Hs as (pk & r1 & Hp & Hs). apply slift_Ok in Hp as [Hp ->].
  unfold Pq.xwing_public_from_bytes, Pq.fixed in Hp. zbool. rewrite Hl, Z.eqb_refl in Hp. cbn in Hp. apply Ok_inj in Hp as <-.
  apply sbind_Ok in Hs as ([ct ss] & r2 & He & Hs). apply sbind_Ok in Hs as (c & r3 & Hc & Hs). apply slift_Ok in Hc as [Hc ->].
  unfold sret in Hs. injection Hs as <- <- <-. unfold Pq.xwing_encaps_hedged in He.
  destruct (Pq.fill_bytes _ rng) as [b rn]. cbn zeta in He.
  destruct (Pq.xwing_encaps_derand_internal _ _) as [[ct' ss']|e|] eqn:Hx; [|done..]. cbn in He. injection He as <- <- <-.
  pose proof (Pq.xwing_roundtrip _ _ _ _ _ _ Hg Hx) as Hd. apply Pq.xwing_encaps_Ok in Hx as (_ & Lc & _).
  unfold setup_base_receiver, rguard. rewrite Lc, Z.eqb_refl. cbn [negb]. unfold Pq.xwing_decaps_raw, rguard. rewrite Lp, Lc, Z.eqb_refl. cbn [Z.eqb negb].
  by rewrite Hd.
Qed.

Definition xwing_config (c : HpkeConfig) : Prop := kem c = XWingKemDraft6.
Lemma xwing_config_true c : xwing_config c -> is_xwing c = true.
Proof. unfold is_xwing. by intros ->. Qed.

Lemma export_len c ectx n x : 0 <= n -> export c ectx n = Ok x -> len x = n.
Proof.
  unfold export, labeled_expand. intros Hn Hx. apply rguard_Ok in Hx as [_ Hx]. apply rguard_Ok in Hx as [_ Hx].
  pose proof (expand_exact (exporter_secret c) (labeled_info HPKE_SUITE_ID (bytes_of_string "sec") ectx n) n Hn) as He.
  destruct (expand _ _ _); [|done]. apply Ok_inj in Hx as <-. by destruct He.
Qed.

(** C33. Sender and receiver agree: for every derived key pair, what is sealed under the public key
    opens with the private key to the message, for the same info and associated data, and the two
    exporters give one secret of the length asked for.  Both hold whatever randomness and hedging
    secret the sender has. *)
Theorem hpke_agreement p config ikm kp info aad ptxt ectx n rng :
  xwing_config config -> derive_hpke_keypair config ikm = Ok kp -> 0 <= n ->
  (forall c rng', hpke_seal p config (public kp) info aad ptxt rng = (Ok c, rng') -> hpke_open config c (private kp) info aad = Ok ptxt) /\
  (forall enc s rng', hpke_setup_sender_and_export p config (public kp) info ectx n rng = (Ok (enc, s), rng') ->
     hpke_setup_receiver_and_export config enc (private kp) info ectx n = Ok s /\ len s = n).
Proof.
  intros Hx%xwing_config_true Hk Hn. unfold derive_hpke_keypair, hpke_seal, hpke_open, hpke_setup_sender_and_export, hpke_setup_receiver_and_export in *.
  rewrite Hx in *. split.
  - intros c rng' Hs. apply sbind_Ok in Hs as ([enc ctx] & r & Hs & Hc). apply sbind_Ok in Hc as (ct & r2 & Hct & Hc).
    apply slift_Ok in Hct as [Hct ->]. injection Hc as <- <-. cbn [kem_output ciphertext].
    rewrite (setup_agrees _ _ _ _ _ _ _ _ Hk Hs). cbn [rbind]. unfold aead_seal, aead_open in *. apply rguard_Ok in Hct as [Hkey Hct].
    rewrite Hkey. cbn [rguard]. destruct (chacha_encrypt _ _ _ _) as [x|] eqn:He; [|done]. cbn in Hct. apply Ok_inj in Hct as ->.
    by rewrite (chacha_inverse _ _ _ _ _ He).
  - intros enc x rng' Hs. apply sbind_Ok in Hs as ([enc' ctx] & r & Hs & Hc). apply sbind_Ok in Hc as (ct & r2 & Hct & Hc).
    apply slift_Ok in Hct as [Hct ->]. injection Hc as <- <- <-.
    pose proof (setup_agrees _ _ _ _ _ _ _ _ Hk Hs) as Hr. rewrite Hr. split; [done|]. by eapply export_len.
Qed.

(** Every outcome of opening, sealing and exporting under X-Wing: the lengths are checked first,
    failures of the KEM and of the AEAD give one error each, the key schedule never fails, and an
    export succeeds exactly up to 255 blocks. *)
Theorem hpke_exact p config input pk_r sk_r info aad ptxt rng :
  xwing_config config ->
  (len (kem_output input) <> Pq.XWING_CIPHERTEXT_LEN -> hpke_open config input sk_r info aad = Err InvalidLength) /\
  (forall r, len (kem_output input) = Pq.XWING_CIPHERTEXT_LEN -> Pq.xwing_decaps_raw sk_r (kem_output input) = r ->
     hpke_open config input sk_r info aad =
     match r with
     | Ok ss => let? ctx := key_schedule_base ss info in ok_or (chacha_decrypt (key ctx) (base_nonce ctx) aad (ciphertext input)) HpkeDecryptionError
     | Err _ => Err HpkeDecryptionError
     | Panic => Panic
     end) /\
  (len pk_r <> Pq.XWING_PUBLIC_KEY_LEN -> hpke_seal p config pk_r info aad ptxt rng = (Err InvalidPublicKey, rng)) /\
  (forall r rng', len pk_r = Pq.XWING_PUBLIC_KEY_LEN -> Pq.xwing_encaps_hedged pk_r (hedged_witness p) info rng = (r, rng') ->
     hpke_seal p config pk_r info aad ptxt rng =
     (match r with
      | Ok (enc, ss) => let? ctx := key_schedule_base ss info in
          let? ct := ok_or (chacha_encrypt (key ctx) (base_nonce ctx) aad ptxt) HpkeEncryptionError in
          Ok {| kem_output := enc; ciphertext := ct |}
      | Err _ => Err HpkeEncryptionError
      | Panic => Panic
      end, rng')) /\
  (forall ss ectx n, 0 <= n -> exists ctx, key_schedule_base ss info = Ok ctx /\
     if n <=? 8160 then exists x, export ctx ectx n = Ok x /\ len x = n else export ctx ectx n = Err HkdfOutputLengthInvalid).
Proof.
  intros Hx%xwing_config_true. unfold hpke_open, hpke_seal, setup_base_receiver, setup_base_sender. rewrite Hx. split_and!.
  - intros Hl. by rewrite (proj2 (Z.eqb_neq _ _) Hl).
  - intros r Hl Hd. rewrite Hl, Z.eqb_refl, Hd. cbn [negb rguard]. destruct r as [ss|e|]; [|done..]. cbn [rmap_err rbind].
    destruct (key_schedule_Ok ss info) as (c & -> & Lk & _). cbn [rbind]. unfold aead_open. by rewrite chacha_key_ok.
  - intros Hl. unfold sbind, sguard. by rewrite (proj2 (Z.eqb_neq _ _) Hl).
  - intros r rng' Hl He. unfold sbind, sguard, slift, sret, Pq.xwing_public_from_bytes, Pq.fixed. rewrite Hl, Z.eqb_refl. cbn [negb rguard rmap_err].
    rewrite He. destruct r as [[enc ss]|e|]; [|done..]. cbn [rmap_err].
    destruct (key_schedule_Ok ss info) as (c & -> & Lk & _). cbn [rbind]. unfold aead_seal. rewrite chacha_key_ok by done. cbn [negb rguard].
    by destruct (chacha_encrypt _ _ _ _).
  - intros ss ectx n Hn. destruct (key_schedule_Ok ss info) as (c & Hc & _ & _ & Le & _). exists c. split; [done|].
    pose proof (labeled_expand_exact HPKE_SUITE_ID (exporter_secret c) (bytes_of_string "sec") ectx n ltac:(lia) Hn) as Hx2. unfold export.
    destruct (n <=? 8160); [|done]. destruct Hx2 as (x & ? & ? & _). eauto.
Qed.

(** Two different inputs of extraction or expansion with one output. *)
Definition extract_collision : Prop := exists x y, x <> y /\ extract x.1 x.2 = extract y.1 y.2.
Definition expand_collision (n : Z) : Prop := exists x y, x <> y /\ expand x.1 x.2 n = expand y.1 y.2 n.
Lemma extract_inj a b c d : extract a b = extract c d -> (a = c /\ b = d) \/ extract_collision.
Proof. intros He. destruct (decide ((a, b) = (c, d))) as [Hd|Hd]; [left; by injection Hd|]. right. by exists (a, b), (c, d). Qed.
Lemma expand_inj n a b c d : expand a b n = expand c d n -> (a = c /\ b = d) \/ expand_collision n.
Proof. intros He. destruct (decide ((a, b) = (c, d))) as [Hd|Hd]; [left; by injection Hd|]. right. by exists (a, b), (c, d). Qed.
Lemma labeled_ikm_inj suite label a b : labeled_ikm suite label a = labeled_ikm suite label b -> a = b.
Proof. unfold labeled_ikm. by intros He%app_inv_head%app_inv_head%app_inv_head. Qed.
Lemma schedule_info_inj label n a b : schedule_info label n a = schedule_info label n b -> a = b \/ extract_collision.
Proof.
  unfold schedule_info, labeled_info. intros He%app_inv_head%app_inv_head%app_inv_head%app_inv_head. unfold ksc in He.
  injection He as He. apply app_inv_head, extract_inj in He as [[_ He]|He]; [left|by right]. by apply labeled_ikm_inj in He.
Qed.
Lemma salted_inj a b : len a = 32 -> len b = 32 -> salted a = salted b -> a = b.
Proof. unfold salted. intros -> ->. cbn. by intros [=]. Qed.

(** Contexts bind their inputs: two key schedules with one key have the same shared secret and the
    same info, unless HKDF collides; and inside one context the key, the nonce and the exporter
    secret are expanded from three different strings. *)
Theorem hpke_context_binding ss ss' info info' c c' :
  len ss = 32 -> len ss' = 32 -> key_schedule_base ss info = Ok c -> key_schedule_base ss' info' = Ok c' -> key c = key c' ->
  ((ss = ss' /\ info = info') \/ extract_collision \/ expand_collision NK) /\
  NoDup [schedule_info "key" NK info; schedule_info "base_nonce" NN info; schedule_info "exp" NH info].
Proof.
  intros L L' Hc Hc' Hk. destruct (key_schedule_Ok ss info) as (x & Hx & _ & _ & _ & Ek & _), (key_schedule_Ok ss' info') as (x' & Hx' & _ & _ & _ & Ek' & _).
  assert (c = x) as -> by congruence. assert (c' = x') as -> by congruence. split.
  - rewrite Hk, <- Ek' in Ek. apply expand_inj in Ek as [[Hs Hi]|]; [|tauto]. apply schedule_info_inj in Hi as [->|]; [|tauto].
    apply extract_inj in Hs as [[Hs _]|]; [|tauto]. left. split; [by apply salted_inj|done].
  - repeat apply NoDup_cons_2; [..|apply NoDup_nil_2]; rewrite ?not_elem_of_cons; split_and?; try apply not_elem_of_nil;
      unfold schedule_info, labeled_info; intros He; by injection He.
Qed.

(** The post-quantum suite is always supported and listed once, and the others as the library has them. *)
Lemma suites_exact s : NoDup in_suites ->
  NoDup supported_ciphersuites /\ (s ∈ supported_ciphersuites <-> s = MLS_XWING \/ s ∈ in_suites) /\
  (s <> MLS_XWING -> supports s = in_supports s) /\ supports MLS_XWING = Ok tt.
Proof.
  intros Hn. unfold supported_ciphersuites, supports. split_and!.
  - case_bool_decide; [done|]. apply NoDup_app. split_and!; [done| |apply NoDup_singleton]. set_solver.
  - case_bool_decide; set_solver.
  - intros Hs. by rewrite (proj2 (Z.eqb_neq _ _) Hs).
  - by rewrite Z.eqb_refl.
Qed.
End Theorems.

(** ** Witnesses *)
#[local] Existing Instances Pq.toy_pq Pq.toy_pq_ed Pq.toy_rng Pq.toy_pq_laws.
Definition toy_hkdf : Hkdf := {|
  extract salt ikm := Pq.pad_take 32 (drop (length ikm - 32) ikm); from_prk prk := 32 <=? len prk;
  expand prk info n := if n <=? 8160 then Some (Pq.pad_take (Z.to_nat n) prk) else None |}.
Definition toy_aead : Aead := {| chacha_key key := len key =? 32; chacha_encrypt _ _ _ m := Some m; chacha_decrypt _ _ _ c := Some c |}.
#[local] Existing Instances toy_hkdf toy_aead.
#[local] Instance toy_hkdf_laws : HkdfLaws.
Proof.
  split.
  - intros salt ikm. exact (Pq.pad_take_len 32 _).
  - intros prk Hp. cbn. by apply Z.leb_le.
  - intros prk info n Hn. cbn. destruct (Z.leb_spec n 8160); [|lia]. rewrite Pq.pad_take_len. lia.
Qed.
#[local] Instance toy_aead_laws : AeadLaws.
Proof. split; [intros key Hk; cbn; by rewrite Hk|by intros key nonce aad m c [= ->]]. Qed.
#[local] Instance toy_seed : XWingSeed.
Proof. split. intros seed sk pk Hl [= <- <-]. apply take_ge. unfold len in Hl. lia. Qed.
#[local] Instance toy_inner : Inner Z := {|
  in_supports _ := Err (OtherError "unsupported"); in_suites := [1; 3]; in_seal _ _ _ _ _ := slift (Err (OtherError "unsupported"));
  in_open _ _ _ _ _ := Err (OtherError "unsupported"); in_sender_export _ _ _ _ _ := slift (Err (OtherError "unsupported"));
  in_receiver_export _ _ _ _ _ _ := Err (OtherError "unsupported"); in_keypair _ _ := Err (OtherError "unsupported") |}.
Definition toy_config : HpkeConfig := {| kem := XWingKemDraft6; kdf := 1; aead := 3 |}.
Definition toy_provider : UmbrellaXWingProvider := {| hedged_witness := replicate 32 Byte.x09 |}.
Definition toy_ikm : list byte := replicate 32 Byte.x07.
Definition toy_pair : HpkeKeyPair := match derive_hpke_keypair (R := Z) toy_config toy_ikm with Ok kp => kp | _ => {| private := []; public := [] |} end.
Definition toy_sealed : HpkeCiphertext :=
  match (hpke_seal (R := Z) toy_provider toy_config (public toy_pair) [] [] [Byte.x2a] 5).1 with Ok c => c | _ => {| kem_output := []; ciphertext := [] |} end.

Lemma hpke_agreement_witness : hpke_open (R := Z) toy_config toy_sealed (private toy_pair) [] [] = Ok [Byte.x2a].
Proof.
  destruct (hpke_agreement (R := Z) toy_provider toy_config toy_ikm toy_pair [] [] [Byte.x2a] [] 5 5) as [Hs _];
    [reflexivity|vm_compute; reflexivity|lia|]. apply (Hs toy_sealed 6). vm_compute. reflexivity.
Defined.
Lemma hpke_exact_witness :
  hpke_open (R := Z) toy_config {| kem_output := []; ciphertext := [] |} [] [] [] = Err InvalidLength.
Proof.
  destruct (hpke_exact (R := Z) toy_provider toy_config {| kem_output := []; ciphertext := [] |} [] [] [] [] [] 5 eq_refl) as [H _].
  apply H. discriminate.
Defined.
Lemma hpke_context_binding_witness :
  NoDup [schedule_info "key" NK []; schedule_info "base_nonce" NN []; schedule_info "exp" NH []].
Proof.
  destruct (key_schedule_base toy_ikm []) as [c|e|] eqn:Hc; [|vm_compute in Hc; discriminate Hc..].
  apply (proj2 (hpke_context_binding toy_ikm toy_ikm [] [] c c eq_refl eq_refl Hc Hc eq_refl)).
Defined.
End Hpke.
