(* ===== verification/MaxRatchet.v ===== *)
(** * The v3 ratchet and its messages
    ([crates/umbrella-mls/src/max_ratchet/], [crates/umbrella-client/src/facade/chat_common.rs])

    [config.rs], [timer.rs], [counter.rs], [envelope.rs], [spqr.rs] and [state.rs] (whose
    [MaxRatchetState] repeats [MaxRatchetGroup] of [group.rs] with the group passed in), and the
    two functions of the client that build and open a text message.  HMAC-SHA-256, HKDF and
    openmls are parameters. *)
From S2P Require Import Prelude Bytes Crypto Pq Identity Mls.
Local Open Scope string_scope.
Local Open Scope list_scope.
Local Open Scope Z_scope.

Module MaxRatchet.

(** ** Configuration, counter, timer *)
Record MaxRatchetConfig := {
  aggressive_dh_per_message : bool; timer_rekey_seconds : Z; pq_ratchet_every_n_commits : Z; spqr_deniable_auth : bool
}.
Definition config_default : MaxRatchetConfig :=
  {| aggressive_dh_per_message := true; timer_rekey_seconds := 300; pq_ratchet_every_n_commits := 3; spqr_deniable_auth := true |}.
Definition with_overrides (aggressive : bool) (timer every_n : Z) (spqr : bool) : MaxRatchetConfig :=
  {| aggressive_dh_per_message := aggressive; timer_rekey_seconds := timer; pq_ratchet_every_n_commits := every_n; spqr_deniable_auth := spqr |}.

Definition should_trigger_pq (counter every_n : Z) : bool :=
  if (every_n =? 0) || (counter =? 0) then false else counter mod every_n =? 0.
Definition check_should_trigger (last_rekey_at_unix now_unix timer_seconds : Z) : bool :=
  if timer_seconds =? 0 then false
  else let elapsed := sat_sub now_unix last_rekey_at_unix in timer_seconds <=? elapsed.

(** ** Envelopes ([envelope.rs]), in a build without debug assertions *)
Definition V3_MARKER : Z := 255.
Definition V3_VERSION : Z := 3.
Definition SPQR_MAC_LEN : Z := 32.
Definition V3_MIN_LEN : Z := 1 + 1 + 2 + 4 + SPQR_MAC_LEN.
Record V3Decoded := { v3_commit : option (list byte); v3_ciphertext : list byte; v3_mac : list byte }.

Definition encode_v3 (commit_bytes : option (list byte)) (ciphertext_bytes : list byte) (spqr_mac : option (list byte)) : list byte :=
  let commit := default [] commit_bytes in
  let mac := default (replicate 32 Byte.x00) spqr_mac in
  [as_u8 V3_MARKER] ++ [as_u8 V3_VERSION] ++ to_be 2 (len commit mod 2 ^ 16) ++ commit ++
  to_be 4 (wrap32 (len ciphertext_bytes)) ++ ciphertext_bytes ++ mac.

(** [None] is "not a v3 bundle"; the decoder's result is a [res] only for its slices. *)
Definition try_decode_v3 (blob : list byte) : res unit (option V3Decoded) :=
  if len blob <? V3_MIN_LEN then Ok None else
  let? b0 := index 0 blob in
  if negb (u8 b0 =? V3_MARKER) then Ok None else
  let? b1 := index 1 blob in
  if negb (u8 b1 =? V3_VERSION) then Ok None else
  let? cl := slice 2 4 blob in
  let commit_len := from_be cl in
  let after_commit_hdr := 4 + commit_len in
  if len blob <? after_commit_hdr + 4 + SPQR_MAC_LEN then Ok None else
  let ct_len_off := after_commit_hdr in
  let? ctl := slice ct_len_off (ct_len_off + 4) blob in
  let ct_len := from_be ctl in
  let ct_off := ct_len_off + 4 in
  let mac_off := ct_off + ct_len in
  if negb (len blob =? mac_off + SPQR_MAC_LEN) then Ok None else
  let? commit_bytes := (if 0 <? commit_len then let? c := slice 4 after_commit_hdr blob in Ok (Some c) else Ok None) in
  let? ct := slice ct_off mac_off blob in
  let? mac := slice mac_off (mac_off + SPQR_MAC_LEN) blob in
  Ok (Some {| v3_commit := commit_bytes; v3_ciphertext := ct; v3_mac := mac |}).

(** ** Deniable authentication ([spqr.rs]) *)
Class SpqrCrypto := {
  hmac_sha256 : list byte -> list byte -> list byte;              (* key, message *)
  spqr_hkdf : list byte -> list byte -> Z -> option (list byte)   (* ikm, info, length; empty salt *)
}.

(** ** Envelopes: proofs *)
Definition v3_wf (v : V3Decoded) : Prop :=
  match v3_commit v with Some c => 1 <= len c <= U16_MAX | None => True end /\ len (v3_ciphertext v) <= U32_MAX /\ len (v3_mac v) = 32.
Definition v3_encode (v : V3Decoded) : list byte := encode_v3 (v3_commit v) (v3_ciphertext v) (Some (v3_mac v)).
Ltac v3_lens := unfold V3_MIN_LEN, SPQR_MAC_LEN, V3_MARKER, V3_VERSION in *.

Lemma v3_dec_enc v : v3_wf v -> try_decode_v3 (v3_encode v) = Ok (Some v).
Proof.
  destruct v as [co ct mac]. intros (Hc & Ht & Hm). cbn [v3_commit v3_ciphertext v3_mac] in *.
  unfold v3_encode, encode_v3, try_decode_v3. cbn [v3_commit v3_ciphertext v3_mac default from_option id]. cbn zeta.
  set (c := default [] co). pose proof (len_nonneg ct). pose proof (len_nonneg c).
  assert (Hcl : len c <= U16_MAX) by (subst c; destruct co; [apply Hc|done]).
  rewrite (Z.mod_small (len c)), wrap32_id by (unfold is_u32, U16_MAX in *; lia). v3_lens.
  rewrite (proj2 (Z.ltb_ge _ (1 + 1 + 2 + 4 + 32))) by len_lia. rd_index (as_u8 255). cbn [negb].
  change (negb (u8 (as_u8 255) =? 255)) with false. cbv iota. rd_index (as_u8 3).
  change (negb (u8 (as_u8 3) =? 3)) with false. cbv iota.
  rd_slice (to_be 2 (len c)). rewrite from_be_to_be_u16 by (unfold is_u16; lia).
  rewrite (proj2 (Z.ltb_ge _ (4 + len c + 4 + 32))) by len_lia. rd_slice (to_be 4 (len ct)).
  rewrite from_be_to_be_u32 by (unfold is_u32; lia). rewrite (proj2 (Z.eqb_eq _ _)) by len_lia. cbn [negb].
  assert (Hco : (if 0 <? len c
                 then let? c0 := slice (E := unit) 4 (4 + len c) ([as_u8 255] ++ [as_u8 3] ++ to_be 2 (len c) ++ c ++ to_be 4 (len ct) ++ ct ++ mac) in Ok (Some c0)
                 else Ok None)%umb = Ok co).
  { destruct co as [c'|]; subst c; cbn [default from_option id] in *; [|done].
    rewrite (proj2 (Z.ltb_lt _ _)) by lia. cbv iota. rd_slice c'. done. }
  rewrite Hco. cbn [rbind]. rd_slice ct. rd_slice mac. done.
Qed.

Lemma v3_enc_dec b v : try_decode_v3 b = Ok (Some v) -> v3_encode v = b /\ v3_wf v.
Proof.
  unfold try_decode_v3. v3_lens. cbn zeta. destruct (Z.ltb_spec (len b) (1 + 1 + 2 + 4 + 32)) as [|Hl]; [done|]. intros Hd.
  inv_index Hd b0 S0. destruct (Z.eqb_spec (u8 b0) 255) as [H0|]; [cbn [negb] in Hd|done].
  inv_index Hd b1 S1. destruct (Z.eqb_spec (u8 b1) 3) as [H1|]; [cbn [negb] in Hd|done].
  inv_slice Hd cl S2 L2. pose proof (from_be_u16 cl ltac:(lia)) as [Hcl0 Hcl].
  destruct (Z.ltb_spec (len b) (4 + from_be cl + 4 + 32)) as [|Hb2]; [done|].
  inv_slice Hd ctl S3 L3. pose proof (from_be_u32 ctl ltac:(lia)) as [Hct0 Hct].
  destruct (Z.eqb_spec (len b) (4 + from_be cl + 4 + from_be ctl + 32)) as [Hb3|]; [cbn [negb] in Hd|done].
  apply rbind_Ok in Hd as (co & Hco & Hd). inv_slice Hd ct S4 L4. inv_slice Hd mac S5 L5. injection Hd as <-.
  assert (Hc : slice (E := unit) 4 (4 + from_be cl) b = Ok (default [] co) /\ len (default [] co) = from_be cl /\
               match co with Some c => 1 <= len c | None => True end).
  { destruct (Z.ltb_spec 0 (from_be cl)) as [Hp|Hp].
    - inv_slice Hco c S6 L6. apply Ok_inj in Hco as <-. cbn. split; [done|]. lia.
    - apply Ok_inj in Hco as <-. cbn. replace (from_be cl) with 0 by lia.
      rewrite slice_in_range by lia. split; [|done]. by f_equal. }
  destruct Hc as (Sc & Lc & Hc). unfold v3_encode, encode_v3, v3_wf.
  cbn [v3_commit v3_ciphertext v3_mac]. split.
  - cbn [default from_option id]. v3_lens. rewrite Lc, Z.mod_small, (to_be_from_be_n 2) by (unfold U16_MAX in *; lia).
    rewrite wrap32_id by (unfold is_u32; lia). replace (len ct) with (from_be ctl) by lia. rewrite (to_be_from_be_n 4) by lia.
    rewrite <- H0, <- H1, !as_u8_u8. eapply (slices_cover (E := unit)); [glue_slices|lia].
  - destruct co as [c|]; cbn [default from_option id] in *; (split; [|split; lia]); [|done]. split; [done|]. lia.
Qed.

Lemma v3_total b : exists o, try_decode_v3 b = Ok o.
Proof.
  unfold try_decode_v3. v3_lens. cbn zeta. destruct (Z.ltb_spec (len b) (1 + 1 + 2 + 4 + 32)) as [|Hl]; [eauto|].
  destruct (index_in_range (E := unit) 0 b) as [b0 ->]; [lia|]. cbn [rbind]. destruct (negb _); [eauto|].
  destruct (index_in_range (E := unit) 1 b) as [b1 ->]; [lia|]. cbn [rbind]. destruct (negb _); [eauto|].
  destruct (slice_no_panic (E := unit) 2 4 b) as [cl Hcl]; [lia|lia|]. rewrite Hcl. cbn [rbind]. pose proof (from_be_range cl).
  destruct (Z.ltb_spec (len b) (4 + from_be cl + 4 + 32)); [eauto|].
  destruct (slice_no_panic (E := unit) (4 + from_be cl) (4 + from_be cl + 4) b) as [ctl Hctl]; [lia|lia|]. rewrite Hctl. cbn [rbind].
  pose proof (from_be_range ctl). destruct (Z.eqb_spec (len b) (4 + from_be cl + 4 + from_be ctl + 32)); cbn [negb]; [|eauto].
  destruct (slice_no_panic (E := unit) 4 (4 + from_be cl) b) as [c ->]; [lia|lia|].
  destruct (slice_no_panic (E := unit) (4 + from_be cl + 4) (4 + from_be cl + 4 + from_be ctl) b) as [ct ->]; [lia|lia|].
  destruct (slice_no_panic (E := unit) (4 + from_be cl + 4 + from_be ctl) (4 + from_be cl + 4 + from_be ctl + 32) b) as [mac ->]; [lia|lia|].
  destruct (0 <? from_be cl); cbn [rbind]; eauto.
Qed.

(** A bundle decodes exactly when it is the encoding of a commit of at most 65535 bytes, a
    ciphertext of at most 2^32-1 bytes and a MAC, to those parts; anything else is reported as
    not a bundle, nothing panics.  A longer commit is encoded to bytes that do not decode to it. *)
Theorem envelope_exact b :
  (forall v, try_decode_v3 b = Ok (Some v) <-> b = v3_encode v /\ v3_wf v) /\
  (try_decode_v3 b = Ok None <-> ~ exists v, b = v3_encode v /\ v3_wf v) /\
  (forall c ct mac v, U16_MAX < len c -> try_decode_v3 (encode_v3 (Some c) ct mac) = Ok (Some v) -> v3_commit v <> Some c).
Proof.
  assert (Hx : forall v, try_decode_v3 b = Ok (Some v) <-> b = v3_encode v /\ v3_wf v).
  { intros v. split; [intros Hd; apply v3_enc_dec in Hd as [<- ?]; done|]. intros [-> Hw]. by apply v3_dec_enc. }
  split; [done|]. split.
  - destruct (v3_total b) as [[v|] Ho]; rewrite Ho.
    + split; [done|]. intros Hn. destruct Hn. exists v. by apply Hx.
    + split; [|done]. intros _ [v Hv]. apply Hx in Hv. congruence.
  - intros c ct mac v Hc Hd Hv. apply v3_enc_dec in Hd as [_ [Hw _]]. rewrite Hv in Hw. lia.
Qed.

Section Ratchet.
Context {O : Mls.OpenMls} {SC : SpqrCrypto}.

(** [new_from_slice] accepts keys of any length. *)
Definition compute_hmac (epoch_secret message : list byte) : list byte := hmac_sha256 epoch_secret message.
Definition verify_hmac (epoch_secret message mac_bytes : list byte) : bool :=
  bool_decide (hmac_sha256 epoch_secret message = mac_bytes).
Definition derive_epoch_secret_from_exporter (exporter_secret : list byte) : option (list byte) :=
  spqr_hkdf exporter_secret (bytes_of_string "umbrellax-spqr-epoch-v1") 32.
Definition pq_extend_epoch_secret (classical_epoch_secret pq_shared_secret : list byte) : option (list byte) :=
  spqr_hkdf (classical_epoch_secret ++ pq_shared_secret) (bytes_of_string "umbrellax-spqr-pq-extend-v1") 32.

(** ** The ratchet ([state.rs]) *)
Record MaxRatchetState := { config : MaxRatchetConfig; commit_counter : Z; last_timer_check_unix : Z }.
Definition with_config (c : MaxRatchetConfig) : MaxRatchetState := {| config := c; commit_counter := 0; last_timer_check_unix := 0 |}.
Definition state_new : MaxRatchetState := with_config config_default.
Definition should_trigger_pq_ratchet (s : MaxRatchetState) : bool :=
  should_trigger_pq (commit_counter s) (pq_ratchet_every_n_commits (config s)).
Definition bump_counter (s : MaxRatchetState) : MaxRatchetState :=
  {| config := config s; commit_counter := sat_add U32_MAX (commit_counter s) 1; last_timer_check_unix := last_timer_check_unix s |}.
Definition set_timer_check (s : MaxRatchetState) (now : Z) : MaxRatchetState :=
  {| config := config s; commit_counter := commit_counter s; last_timer_check_unix := now |}.

Record MaxRatchetOutgoing := {
  commit_bytes : option (list byte); ciphertext_bytes : list byte; epoch_after_send : Z; pq_extension_used : bool; spqr_mac : option (list byte)
}.

(** The ratchet and the group it is called with. *)
Definition Pair : Type := MaxRatchetState * Mls.UmbrellaGroup.
Definition on_group {A} (f : st Mls.UmbrellaGroup Mls.MlsError A) : st Pair Mls.MlsError A := fun p =>
  let '(r, g) := f p.2 in (r, (p.1, g)).
Definition on_state (f : MaxRatchetState -> MaxRatchetState) : st Pair Mls.MlsError unit := fun p => (Ok tt, (f p.1, p.2)).

Definition encrypt_with_rekey (provider : Mls.Provider) (ks : Mls.KeyStore) (plaintext : list byte) (now_unix : Z)
  : st Pair Mls.MlsError MaxRatchetOutgoing :=
  let! p := sget in
  let! (commit_bytes_opt, pq_used) :=
    (if aggressive_dh_per_message (config p.1) then
       let! commit := on_group (Mls.force_rekey provider ks now_unix) in
       let! _ := on_state bump_counter in
       let! p := sget in
       sret (Some commit, should_trigger_pq (commit_counter p.1) (pq_ratchet_every_n_commits (config p.1)))
     else sret (None, false)) in
  let! ciphertext := on_group (Mls.encrypt_application provider ks plaintext) in
  let! p := sget in
  sret {| commit_bytes := commit_bytes_opt; ciphertext_bytes := ciphertext; epoch_after_send := Mls.epoch p.2;
          pq_extension_used := pq_used; spqr_mac := None |}.

(** The epoch secret of the current epoch. *)
Definition classical_secret (g : Mls.UmbrellaGroup) (provider : Mls.Provider) : res Mls.MlsError (list byte) :=
  let? exporter := Mls.exporter_secret g provider "umbrellax-spqr-deniable-auth" [] 32 in
  let? e := slice 0 32 exporter in
  ok_or (derive_epoch_secret_from_exporter e) (Mls.GroupOperation "SPQR epoch secret HKDF derivation failed").

Definition encrypt_with_rekey_authenticated (provider : Mls.Provider) (ks : Mls.KeyStore) (plaintext : list byte) (now_unix : Z)
  : st Pair Mls.MlsError MaxRatchetOutgoing :=
  let! outgoing := encrypt_with_rekey provider ks plaintext now_unix in
  let! p := sget in
  if negb (spqr_deniable_auth (config p.1)) then sret outgoing
  else
    let! epoch_secret := slift (classical_secret p.2 provider) in
    let mac := compute_hmac epoch_secret (ciphertext_bytes outgoing) in
    sret {| commit_bytes := commit_bytes outgoing; ciphertext_bytes := ciphertext_bytes outgoing;
            epoch_after_send := epoch_after_send outgoing; pq_extension_used := pq_extension_used outgoing; spqr_mac := Some mac |}.

Definition encrypt_with_rekey_pq_authenticated (provider : Mls.Provider) (ks : Mls.KeyStore) (plaintext : list byte) (now_unix : Z)
  : st Pair Mls.MlsError MaxRatchetOutgoing :=
  let! p := sget in
  let! (commit_bytes_opt, pq_shared) :=
    (if aggressive_dh_per_message (config p.1) then
       let! (commit, pq_secret) := on_group (Mls.force_rekey_with_pq provider ks now_unix) in
       let! _ := on_state bump_counter in
       let! p := sget in
       sret (Some commit, if should_trigger_pq (commit_counter p.1) (pq_ratchet_every_n_commits (config p.1))
                          then Some pq_secret else None)
     else sret (None, None)) in
  let! ciphertext := on_group (Mls.encrypt_application provider ks plaintext) in
  let! p := sget in
  let! mac :=
    (if spqr_deniable_auth (config p.1) then
       let! classical := slift (classical_secret p.2 provider) in
       let! epoch_secret := slift (match pq_shared with
                                   | Some pq => ok_or (pq_extend_epoch_secret classical pq)
                                                      (Mls.GroupOperation "SPQR PQ-extension HKDF derivation failed")
                                   | None => Ok classical
                                   end) in
       sret (Some (compute_hmac epoch_secret ciphertext))
     else sret None) in
  sret {| commit_bytes := commit_bytes_opt; ciphertext_bytes := ciphertext; epoch_after_send := Mls.epoch p.2;
          pq_extension_used := match pq_shared with Some _ => true | None => false end; spqr_mac := mac |}.

Definition check_timer_and_rekey (provider : Mls.Provider) (ks : Mls.KeyStore) (now_unix : Z)
  : st Pair Mls.MlsError (option (list byte)) :=
  let! p := sget in
  let last_rekey := Mls.last_rekey_at_unix p.2 in
  if negb (check_should_trigger last_rekey now_unix (timer_rekey_seconds (config p.1))) then sret None
  else
    let! commit := on_group (Mls.force_rekey provider ks now_unix) in
    let! _ := on_state bump_counter in
    let! _ := on_state (fun s => set_timer_check s now_unix) in
    sret (Some commit).

(** ** Text messages of the client ([facade/chat_common.rs])

    A client has the classical provider and, when started for it, the X-Wing provider. *)
Record Providers := { mls_provider : Mls.Provider; pq_provider : option Mls.Provider }.

(** The ciphertext [send_mls_text] sends in a chat with a group and a ratchet state. *)
Definition seal_text (ps : Providers) (ks : Mls.KeyStore) (text : list byte) (now_unix : Z) : st Pair Mls.MlsError (list byte) :=
  let! p := sget in
  let! outgoing :=
    match Mls.is_post_quantum_hybrid (Mls.ciphersuite p.2), pq_provider ps with
    | true, Some pq => encrypt_with_rekey_pq_authenticated pq ks text now_unix
    | _, _ => encrypt_with_rekey_authenticated (mls_provider ps) ks text now_unix
    end in
  sret (encode_v3 (commit_bytes outgoing) (ciphertext_bytes outgoing) (spqr_mac outgoing)).

(** [ClientError::SpqrAuthFailed] is the only error of the receiving side; [lossy] is
    [String::from_utf8_lossy]. *)
Inductive ClientError := SpqrAuthFailed.
Section Receive.
Variable lossy : list byte -> list byte.

(** The branch for v3 bundles, with the provider chosen for the group. *)
Definition open_v3 (provider : Mls.Provider) (v3 : V3Decoded) : st Mls.UmbrellaGroup ClientError (list byte) := fun g =>
  let '(commit_result, g) :=
    match v3_commit v3 with
    | Some commit => let '(r, g) := Mls.process_incoming provider commit g in (rmap (fun _ => tt) r, g)
    | None => (Ok tt, g)
    end in
  match commit_result with
  | Err _ => (Err SpqrAuthFailed, g)
  | Panic => (Panic, g)
  | Ok _ =>
      let '(app_result, g) := Mls.process_incoming provider (v3_ciphertext v3) g in
      match app_result with
      | Panic => (Panic, g)
      | Ok (Mls.Application _ payload) =>
          (match classical_secret g provider with
           | Panic => Panic
           | Err _ => Err SpqrAuthFailed
           | Ok epoch_secret =>
               if negb (verify_hmac epoch_secret (v3_ciphertext v3) (v3_mac v3)) then Err SpqrAuthFailed
               else Ok (lossy payload)
           end, g)
      | _ => (Err SpqrAuthFailed, g)
      end
  end.

Definition pq_dispatch (ps : Providers) (g : Mls.UmbrellaGroup) : Mls.Provider :=
  if Mls.is_post_quantum_hybrid (Mls.ciphersuite g) then default (mls_provider ps) (pq_provider ps) else mls_provider ps.

(** [decrypt_text_with_fallback] for a registered group. *)
Definition decrypt_text_with_fallback (ps : Providers) (ciphertext : list byte) : st Mls.UmbrellaGroup ClientError (list byte) := fun g =>
  match try_decode_v3 ciphertext with
  | Ok (Some v3) => open_v3 (pq_dispatch ps g) v3 g
  | Ok None =>
      let '(r, g) := Mls.process_incoming (mls_provider ps) ciphertext g in
      (match r with
       | Ok (Mls.Application _ payload) => Ok (lossy payload)
       | Ok _ | Err _ => Ok (lossy ciphertext)
       | Panic => Panic
       end, g)
  | Err _ | Panic => (Panic, g)
  end.
End Receive.

(** ** Sending: proofs *)
Lemma on_group_Ok {A} (f : st Mls.UmbrellaGroup Mls.MlsError A) p a p' :
  on_group f p = (Ok a, p') <-> exists g', f p.2 = (Ok a, g') /\ p' = (p.1, g').
Proof. unfold on_group. destruct (f p.2) as [[]]; naive_solver. Qed.

(** A successful rekey and a successful encryption, at the level of openmls. *)
Lemma force_rekey_Ok P ks now g cb g' :
  Mls.force_rekey P ks now g = (Ok cb, g') ->
  exists sg m i1 i2, Mls.self_update (Mls.inner g) P sg = (Some m, i1) /\ Mls.tls_serialize m = Some cb /\
    Mls.merge_pending_commit i1 P = (true, i2) /\ g' = Mls.set_last_rekey (Mls.set_inner g i2) now.
Proof.
  unfold Mls.force_rekey, Mls.slift_opt, sget, sput, sret. intros Hf.
  apply sbind_Ok in Hf as (g0 & ? & [= <- <-] & Hf). apply sbind_Ok in Hf as (sg & ? & Hs & Hf). apply slift_Ok in Hs as [_ ->].
  apply sbind_Ok in Hf as (r & ? & Hr & Hf). rewrite Mls.on_inner_eq in Hr. injection Hr as <- <-.
  destruct (Mls.self_update _ P sg) as [r i1] eqn:Hu. cbn [fst snd] in Hf.
  apply sbind_Ok in Hf as (m & ? & Hm & Hf). apply slift_Ok in Hm as [Hm ->]. apply ok_or_Ok in Hm as ->.
  apply sbind_Ok in Hf as (b & ? & Hb & Hf). apply slift_Ok in Hb as [Hb ->]. apply ok_or_Ok in Hb.
  apply sbind_Ok in Hf as (ok & ? & Ho & Hf). rewrite Mls.on_inner_eq in Ho. cbn [Mls.inner Mls.set_inner] in Ho.
  destruct (Mls.merge_pending_commit i1 P) as [o i2] eqn:Hmp. injection Ho as <- <-. cbn [fst snd] in Hf.
  apply sguard_Ok in Hf as [Hok Hf]. destruct o; [|done]. injection Hf as <- <-.
  by exists sg, m, i1, i2.
Qed.

Lemma encrypt_application_Ok P ks t g ct g' :
  Mls.encrypt_application P ks t g = (Ok ct, g') ->
  exists sg m i1, Mls.create_message (Mls.inner g) P sg t = (Some m, i1) /\ Mls.tls_serialize m = Some ct /\ g' = Mls.set_inner g i1.
Proof.
  unfold Mls.encrypt_application, Mls.slift_opt, sget. intros Hf.
  apply sbind_Ok in Hf as (g0 & ? & [= <- <-] & Hf). apply sbind_Ok in Hf as (sg & ? & Hs & Hf). apply slift_Ok in Hs as [_ ->].
  apply sbind_Ok in Hf as (r & ? & Hr & Hf). rewrite Mls.on_inner_eq in Hr. injection Hr as <- <-.
  destruct (Mls.create_message _ P sg t) as [r i1] eqn:Hu. cbn [fst snd] in Hf.
  apply sbind_Ok in Hf as (m & ? & Hm & Hf). apply slift_Ok in Hm as [Hm ->]. apply ok_or_Ok in Hm as ->.
  apply slift_Ok in Hf as [Hb ->]. apply ok_or_Ok in Hb. by exists sg, m, i1.
Qed.

(** What both ways of sending have in common: the rekey, the counter and the ciphertext. *)
Definition sent_as (P : Mls.Provider) (ks : Mls.KeyStore) (text : list byte) (now : Z) (p p' : Pair) (out : MaxRatchetOutgoing) : Prop :=
  exists g1, (if aggressive_dh_per_message (config p.1)
              then exists cb, Mls.force_rekey P ks now p.2 = (Ok cb, g1) /\ commit_bytes out = Some cb /\ p'.1 = bump_counter p.1
              else g1 = p.2 /\ commit_bytes out = None /\ p'.1 = p.1) /\
    pq_extension_used out = aggressive_dh_per_message (config p.1) &&
      should_trigger_pq (commit_counter p'.1) (pq_ratchet_every_n_commits (config p.1)) /\
    Mls.encrypt_application P ks text g1 = (Ok (ciphertext_bytes out), p'.2) /\ epoch_after_send out = Mls.epoch p'.2.

Lemma encrypt_with_rekey_sent P ks t now p out p' :
  encrypt_with_rekey P ks t now p = (Ok out, p') -> sent_as P ks t now p p' out /\ spqr_mac out = None.
Proof.
  unfold encrypt_with_rekey, sget. intros Hf. apply sbind_Ok in Hf as (p0 & ? & [= <- <-] & Hf).
  apply sbind_Ok in Hf as ([co pq] & p1 & Hr & Hf).
  apply sbind_Ok in Hf as (ct & p2 & He & Hf). apply on_group_Ok in He as (g' & He & ->).
  injection Hf as <- <-. split; [|done]. exists p1.2. cbn [commit_bytes pq_extension_used ciphertext_bytes epoch_after_send fst snd].
  destruct (aggressive_dh_per_message (config p.1)).
  - apply sbind_Ok in Hr as (cb & ? & Hr & Hr2). apply on_group_Ok in Hr as (g1 & Hr & ->).
    unfold sbind, on_state, sret in Hr2. injection Hr2 as <- <- <-. cbn [fst snd] in *. by repeat split; eauto.
  - injection Hr as <- <- <-. done.
Qed.

Lemma authenticated_sent P ks t now p out p' :
  encrypt_with_rekey_authenticated P ks t now p = (Ok out, p') ->
  sent_as P ks t now p p' out /\
  (if spqr_deniable_auth (config p'.1)
   then exists e, classical_secret p'.2 P = Ok e /\ spqr_mac out = Some (compute_hmac e (ciphertext_bytes out))
   else spqr_mac out = None).
Proof.
  unfold encrypt_with_rekey_authenticated, sget. intros Hf. apply sbind_Ok in Hf as (o & p1 & Hr & Hf).
  apply sbind_Ok in Hf as (p2 & ? & [= <- <-] & Hf). apply encrypt_with_rekey_sent in Hr as [Hs Hm].
  destruct (spqr_deniable_auth (config p1.1)) eqn:Hc; cbn [negb] in Hf.
  - apply sbind_Ok in Hf as (e & ? & He & Hf). apply slift_Ok in He as [He ->]. injection Hf as <- <-.
    split; [done|]. rewrite Hc. eauto.
  - injection Hf as <- <-. by rewrite Hc.
Qed.

Lemma force_rekey_with_pq_Ok P ks now g cb q g' :
  Mls.force_rekey_with_pq P ks now g = (Ok (cb, q), g') -> Mls.force_rekey P ks now g = (Ok cb, g').
Proof.
  unfold Mls.force_rekey_with_pq, sget. intros Hf. apply sbind_Ok in Hf as (c & g1 & Hr & Hf).
  apply sbind_Ok in Hf as (g2 & ? & [= <- <-] & Hf). apply sbind_Ok in Hf as (w & ? & Hw & Hf). apply slift_Ok in Hw as [_ ->].
  apply sbind_Ok in Hf as (o & ? & Ho & Hf). apply slift_Ok in Ho as [_ ->]. by injection Hf as <- <- <-.
Qed.

Lemma pq_authenticated_sent P ks t now p out p' :
  encrypt_with_rekey_pq_authenticated P ks t now p = (Ok out, p') ->
  sent_as P ks t now p p' out /\
  (if spqr_deniable_auth (config p'.1)
   then exists e, classical_secret p'.2 P = Ok e /\
     if pq_extension_used out then exists q x, pq_extend_epoch_secret e q = Some x /\ spqr_mac out = Some (compute_hmac x (ciphertext_bytes out))
     else spqr_mac out = Some (compute_hmac e (ciphertext_bytes out))
   else spqr_mac out = None).
Proof.
  unfold encrypt_with_rekey_pq_authenticated, sget. intros Hf. apply sbind_Ok in Hf as (p0 & ? & [= <- <-] & Hf).
  apply sbind_Ok in Hf as ([co pq] & p1 & Hr & Hf).
  apply sbind_Ok in Hf as (ct & p2 & He & Hf). apply on_group_Ok in He as (g' & He & ->).
  apply sbind_Ok in Hf as (p2 & ? & [= <- <-] & Hf). apply sbind_Ok in Hf as (mac & p3 & Hm & Hf). injection Hf as <- <-.
  cbn [fst snd commit_bytes pq_extension_used ciphertext_bytes epoch_after_send spqr_mac] in *.
  assert (Hp3 : p3 = (p1.1, g')).
  { destruct (spqr_deniable_auth (config p1.1)); [|by injection Hm as _ <-].
    apply sbind_Ok in Hm as (e & ? & Hc & Hm). apply slift_Ok in Hc as [_ ->].
    apply sbind_Ok in Hm as (x & ? & Hx & Hm). apply slift_Ok in Hx as [_ ->]. by injection Hm as _ <-. }
  subst p3. cbn [fst snd]. split.
  - exists p1.2. cbn [commit_bytes pq_extension_used ciphertext_bytes epoch_after_send fst snd].
    destruct (aggressive_dh_per_message (config p.1)).
    + apply sbind_Ok in Hr as ([cb q] & ? & Hr & Hr2). apply on_group_Ok in Hr as (g1 & Hr & ->). apply force_rekey_with_pq_Ok in Hr.
      unfold sbind, on_state, sret in Hr2. injection Hr2 as <- <- <-. cbn [fst snd config bump_counter] in *.
      cbn [andb]. split; [by eexists|]. split; [|done]. by destruct (should_trigger_pq _ _).
    + injection Hr as <- <- <-. done.
  - destruct (spqr_deniable_auth (config p1.1)); [|by injection Hm as <-].
    apply sbind_Ok in Hm as (e & ? & Hc & Hm). apply slift_Ok in Hc as [Hc ->]. exists e. split; [done|].
    apply sbind_Ok in Hm as (x & ? & Hx & Hm). apply slift_Ok in Hx as [Hx ->]. injection Hm as <-.
    destruct pq as [q|]; [|by apply Ok_inj in Hx as <-]. apply ok_or_Ok in Hx. by exists q, x.
Qed.
End Ratchet.

(** ** Receiving: proofs *)
Class SpqrLaws {SC : SpqrCrypto} := { spqr_hmac_len : forall k m, len (hmac_sha256 k m) = 32 }.

Section Delivery.
Context {O : Mls.OpenMls} {OL : Mls.OpenMlsLaws O} {SC : SpqrCrypto} {SL : SpqrLaws} (lossy : list byte -> list byte).

Lemma parse_ok k b mi : 8 <= len b -> Mls.message_deserialize b = Ok mi -> Mls.parse_or k b = Ok mi.
Proof.
  intros Hl Hd. unfold Mls.parse_or, Mls.parse_mls_message_safe, rguard, Mls.MLS_MESSAGE_MIN_BYTES.
  rewrite (proj2 (Z.ltb_ge _ _)) by lia. by rewrite Hd.
Qed.

Lemma commit_delivered P Q ks now g cb g1 r :
  Mls.synced (Mls.inner g) P (Mls.inner r) Q -> Mls.force_rekey P ks now g = (Ok cb, g1) ->
  exists e sr r1, Mls.process_incoming Q cb r = (Ok (Mls.CommitApplied e sr), r1) /\ Mls.synced (Mls.inner g1) P (Mls.inner r1) Q /\
    Mls.epoch g1 = Mls.epoch g + 1 /\ 8 <= len cb /\ Mls.ciphersuite r1 = Mls.ciphersuite r /\ e = Mls.epoch r1.
Proof.
  intros Hs Hf. apply force_rekey_Ok in Hf as (sg & m & i1 & i2 & Hu & Ht & Hm & ->).
  destruct (Mls.commit_received _ _ _ _ _ _ _ _ _ Hs Hu Ht Hm) as (Hl & He & mi & pm & i & c & r1 & r2 & Hd & Hb & Hp & Hmc & Hs2).
  eexists _, _, (Mls.set_last_rekey (Mls.set_inner r r2) 0). split; [|done].
  erewrite Mls.process_incoming_decoded; [|by apply parse_ok|unfold Mls.protocol_message; by rewrite Hb].
  rewrite Hp. cbn [Mls.policy Mls.set_inner]. rewrite andb_false_r, Hmc. reflexivity.
Qed.

Lemma application_delivered P Q ks t g ct g1 r :
  Mls.synced (Mls.inner g) P (Mls.inner r) Q -> Mls.encrypt_application P ks t g = (Ok ct, g1) ->
  exists i r1, Mls.process_incoming Q ct r = (Ok (Mls.Application i t), r1) /\ Mls.synced (Mls.inner g1) P (Mls.inner r1) Q /\
    Mls.epoch g1 = Mls.epoch g /\ Mls.ciphersuite r1 = Mls.ciphersuite r.
Proof.
  intros Hs Hf. apply encrypt_application_Ok in Hf as (sg & m & i1 & Hu & Ht & ->).
  destruct (Mls.message_received _ _ _ _ _ _ _ _ _ Hs Hu Ht) as (Hl & He & mi & pm & i & r1 & Hd & Hb & Hp & Hs2).
  exists i, (Mls.set_inner r r1). split; [|done].
  erewrite Mls.process_incoming_decoded; [|by apply parse_ok|unfold Mls.protocol_message; by rewrite Hb]. by rewrite Hp.
Qed.

Lemma classical_secret_agrees P Q g r :
  Mls.synced (Mls.inner g) P (Mls.inner r) Q -> classical_secret g P = classical_secret r Q.
Proof. intros Hs. unfold classical_secret, Mls.exporter_secret. by rewrite (Mls.export_agrees _ _ _ _ _ _ _ Hs). Qed.

(** The bundle a receiver in step opens: it reads the text and then depends on the MAC alone. *)
Lemma bundle_opened P Q ks t now p p' out mac e r :
  sent_as P ks t now p p' out -> Mls.synced (Mls.inner p.2) P (Mls.inner r) Q -> classical_secret p'.2 P = Ok e ->
  exists r', open_v3 lossy Q {| v3_commit := commit_bytes out; v3_ciphertext := ciphertext_bytes out; v3_mac := mac |} r =
      (if verify_hmac e (ciphertext_bytes out) mac then Ok (lossy t) else Err SpqrAuthFailed, r') /\
    Mls.synced (Mls.inner p'.2) P (Mls.inner r') Q /\
    epoch_after_send out = Mls.epoch p.2 + (if aggressive_dh_per_message (config p.1) then 1 else 0) /\
    match commit_bytes out with Some c => 8 <= len c | None => True end /\ Mls.ciphersuite r' = Mls.ciphersuite r.
Proof.
  intros (g1 & Hc & _ & He & Hep) Hs Hcl.
  assert (Hstep : exists r1, Mls.synced (Mls.inner g1) P (Mls.inner r1) Q /\
    Mls.epoch g1 = Mls.epoch p.2 + (if aggressive_dh_per_message (config p.1) then 1 else 0) /\
    match commit_bytes out with
    | Some c => 8 <= len c /\ exists m, Mls.process_incoming Q c r = (Ok m, r1)
    | None => r1 = r end /\ Mls.ciphersuite r1 = Mls.ciphersuite r).
  { destruct (aggressive_dh_per_message (config p.1)).
    - destruct Hc as (cb & Hf & -> & _). destruct (commit_delivered P Q ks now p.2 cb g1 r Hs Hf) as (ep & sr & r1 & Hp & Hs1 & Hepo & Hl & Hcs & _).
      exists r1. eauto 8.
    - destruct Hc as (-> & -> & _). exists r. repeat split; [done|lia]. }
  destruct Hstep as (r1 & Hs1 & Hep1 & Hco & Hcs1).
  destruct (application_delivered P Q ks t g1 (ciphertext_bytes out) p'.2 r1 Hs1 He) as (i & r2 & Hp & Hs2 & Hep2 & Hcs2).
  exists r2. split; [|split; [done|split; [lia|split; [destruct (commit_bytes out); [tauto|done]|congruence]]]].
  unfold open_v3. cbn [v3_commit v3_ciphertext v3_mac]. rewrite (classical_secret_agrees P Q _ r2 Hs2) in Hcl.
  destruct (commit_bytes out) as [c|].
  - destruct Hco as (_ & m & Hm). rewrite Hm. cbn [rmap]. rewrite Hp, Hcl. by destruct (verify_hmac _ _ _).
  - subst r1. rewrite Hp, Hcl. by destruct (verify_hmac _ _ _).
Qed.

(** The sizes the wire format can carry. *)
Definition fits (out : MaxRatchetOutgoing) : Prop :=
  len (default [] (commit_bytes out)) <= U16_MAX /\ len (ciphertext_bytes out) <= U32_MAX.
Definition wire (out : MaxRatchetOutgoing) : list byte := encode_v3 (commit_bytes out) (ciphertext_bytes out) (spqr_mac out).

Lemma wire_opened P Q ks t now p p' out mac e r ps :
  sent_as P ks t now p p' out -> fits out -> spqr_mac out = Some mac -> len mac = 32 -> Q = pq_dispatch ps r ->
  Mls.synced (Mls.inner p.2) P (Mls.inner r) Q -> classical_secret p'.2 P = Ok e ->
  exists r', decrypt_text_with_fallback lossy ps (wire out) r =
      (if verify_hmac e (ciphertext_bytes out) mac then Ok (lossy t) else Err SpqrAuthFailed, r') /\
    Mls.synced (Mls.inner p'.2) P (Mls.inner r') Q /\
    epoch_after_send out = Mls.epoch p.2 + (if aggressive_dh_per_message (config p.1) then 1 else 0) /\
    Mls.ciphersuite r' = Mls.ciphersuite r.
Proof.
  intros Hs [Hf1 Hf2] Hm Hml -> Hsy Hcl.
  destruct (bundle_opened P (pq_dispatch ps r) ks t now p p' out mac e r Hs Hsy Hcl) as (r' & Ho & Hs' & He & Hc & Hcs).
  exists r'. split; [|done]. unfold decrypt_text_with_fallback, wire. rewrite Hm.
  change (encode_v3 (commit_bytes out) (ciphertext_bytes out) (Some mac)) with
    (v3_encode {| v3_commit := commit_bytes out; v3_ciphertext := ciphertext_bytes out; v3_mac := mac |}).
  rewrite v3_dec_enc; [done|]. split; [|by split]. cbn [v3_commit].
  destruct (commit_bytes out) as [c|]; [|done]. cbn in Hf1. lia.
Qed.

Lemma sent_text_read P Q ks t now p out p' r ps :
  encrypt_with_rekey_authenticated P ks t now p = (Ok out, p') -> spqr_deniable_auth (config p'.1) = true -> fits out ->
  Q = pq_dispatch ps r -> Mls.synced (Mls.inner p.2) P (Mls.inner r) Q ->
  exists r', decrypt_text_with_fallback lossy ps (wire out) r = (Ok (lossy t), r') /\
    Mls.synced (Mls.inner p'.2) P (Mls.inner r') Q /\
    epoch_after_send out = Mls.epoch p.2 + (if aggressive_dh_per_message (config p.1) then 1 else 0) /\
    Mls.ciphersuite r' = Mls.ciphersuite r.
Proof.
  intros He Hc Hf HQ Hs. apply authenticated_sent in He as [Hsent Hmac]. rewrite Hc in Hmac. destruct Hmac as (e & Hcl & Hm).
  destruct (wire_opened P Q ks t now p p' out _ e r ps Hsent Hf Hm (spqr_hmac_len _ _) HQ Hs Hcl) as (r' & Ho & Hr).
  exists r'. split; [|done]. rewrite Ho. unfold verify_hmac, compute_hmac. by rewrite bool_decide_eq_true_2.
Qed.

(** Sending keeps the configuration and the suite. *)
Lemma sent_keeps P ks t now p p' out :
  sent_as P ks t now p p' out -> config p'.1 = config p.1 /\ Mls.ciphersuite p'.2 = Mls.ciphersuite p.2.
Proof.
  intros (g1 & Hc & _ & He & _). apply encrypt_application_Ok in He as (? & ? & i1 & _ & _ & ->). cbn [Mls.ciphersuite Mls.set_inner].
  destruct (aggressive_dh_per_message (config p.1)).
  - destruct Hc as (cb & Hf & _ & ->). apply force_rekey_Ok in Hf as (? & ? & ? & ? & _ & _ & _ & ->). done.
  - by destruct Hc as (-> & _ & ->).
Qed.

(** A message of the classical path that was sent is read by every receiver in step with the
    sender, who stay in step; the epoch has advanced by the rekey made for this message. *)
Theorem text_delivered P Q ks t now p out p' r ps :
  encrypt_with_rekey_authenticated P ks t now p = (Ok out, p') -> spqr_deniable_auth (config p'.1) = true -> fits out ->
  Q = pq_dispatch ps r -> Mls.synced (Mls.inner p.2) P (Mls.inner r) Q ->
  exists r', decrypt_text_with_fallback lossy ps (wire out) r = (Ok (lossy t), r') /\
    Mls.synced (Mls.inner p'.2) P (Mls.inner r') Q /\
    epoch_after_send out = Mls.epoch p.2 + (if aggressive_dh_per_message (config p.1) then 1 else 0).
Proof. intros He Hc Hf HQ Hs. destruct (sent_text_read P Q ks t now p out p' r ps He Hc Hf HQ Hs) as (r' & ? & ? & ? & _). eauto. Qed.

(** On the post-quantum path a message is read when it does not use the extension; when it does,
    its MAC is made with the extended secret while the receiver checks it with the classical one,
    so the message is dropped unless HMAC gives one value under both secrets. *)
Theorem pq_extension_rejected P Q ks t now p out p' r ps :
  encrypt_with_rekey_pq_authenticated P ks t now p = (Ok out, p') -> spqr_deniable_auth (config p'.1) = true -> fits out ->
  Q = pq_dispatch ps r -> Mls.synced (Mls.inner p.2) P (Mls.inner r) Q ->
  exists r', Mls.synced (Mls.inner p'.2) P (Mls.inner r') Q /\
    if pq_extension_used out
    then decrypt_text_with_fallback lossy ps (wire out) r = (Err SpqrAuthFailed, r') \/
         exists e q x, classical_secret p'.2 P = Ok e /\ pq_extend_epoch_secret e q = Some x /\
           hmac_sha256 e (ciphertext_bytes out) = hmac_sha256 x (ciphertext_bytes out)
    else decrypt_text_with_fallback lossy ps (wire out) r = (Ok (lossy t), r').
Proof.
  intros He Hc Hf HQ Hs. apply pq_authenticated_sent in He as [Hsent Hmac]. rewrite Hc in Hmac. destruct Hmac as (e & Hcl & Hm).
  destruct (pq_extension_used out).
  - destruct Hm as (q & x & Hx & Hm).
    destruct (wire_opened P Q ks t now p p' out _ e r ps Hsent Hf Hm (spqr_hmac_len _ _) HQ Hs Hcl) as (r' & Ho & Hr & _).
    exists r'. split; [done|]. rewrite Ho. unfold verify_hmac, compute_hmac. case_bool_decide as Hh; [right; eauto 6|by left].
  - destruct (wire_opened P Q ks t now p p' out _ e r ps Hsent Hf Hm (spqr_hmac_len _ _) HQ Hs Hcl) as (r' & Ho & Hr & _).
    exists r'. split; [done|]. rewrite Ho. unfold verify_hmac, compute_hmac. by rewrite bool_decide_eq_true_2.
Qed.

(** A run of successful sends, on either path. *)
Inductive sends (ks : Mls.KeyStore) : Pair -> list MaxRatchetOutgoing -> Pair -> Prop :=
| sends_nil p : sends ks p [] p
| sends_snoc p outs p1 P t now out p2 :
    sends ks p outs p1 ->
    encrypt_with_rekey_authenticated P ks t now p1 = (Ok out, p2) \/ encrypt_with_rekey_pq_authenticated P ks t now p1 = (Ok out, p2) ->
    sends ks p (outs ++ [out]) p2.

Lemma sent_counter P ks t now p p' out :
  sent_as P ks t now p p' out -> aggressive_dh_per_message (config p.1) = true ->
  config p'.1 = config p.1 /\ commit_counter p'.1 = sat_add U32_MAX (commit_counter p.1) 1 /\
  pq_extension_used out = should_trigger_pq (commit_counter p'.1) (pq_ratchet_every_n_commits (config p.1)).
Proof.
  intros (g1 & Hc & Hpq & _) Ha. rewrite Ha in *. destruct Hc as (cb & _ & _ & Hb). rewrite Hb in *. done.
Qed.

Lemma sends_counter ks p outs p' :
  sends ks p outs p' -> config p.1 = config_default -> commit_counter p.1 = 0 -> len outs <= U32_MAX ->
  config p'.1 = config_default /\ commit_counter p'.1 = len outs /\
  forall k out, outs !! k = Some out -> pq_extension_used out = (Z.of_nat (S k) mod 3 =? 0).
Proof.
  intros Hs Hc H0. induction Hs as [p|p outs p1 P t now out p2 Hs IH Hsend]; intros Hl; [by rewrite H0|].
  rewrite len_app in Hl. change (len [out]) with 1 in Hl. destruct (IH Hc H0) as (Hc1 & Hn & Hk); [lia|].
  assert (Hsent : sent_as P ks t now p1 p2 out).
  { destruct Hsend as [He|He]; [apply authenticated_sent in He as [? _]|apply pq_authenticated_sent in He as [? _]]; done. }
  destruct (sent_counter P ks t now p1 p2 out Hsent) as (Hc2 & Hn2 & Hpq); [by rewrite Hc1|].
  assert (Hcnt : commit_counter p2.1 = len outs + 1) by (rewrite Hn2, Hn; unfold sat_add; lia).
  split; [congruence|]. rewrite len_app. split; [done|]. intros k o Hlk. pose proof (len_nonneg outs).
  apply lookup_app_Some in Hlk as [Hlk|[Hk1 Hlk]]; [by apply Hk|].
  apply list_lookup_singleton_Some in Hlk as [Hk0 <-]. rewrite Hpq, Hc1, Hcnt.
  replace (Z.of_nat (S k)) with (len outs + 1) by (unfold len; lia).
  unfold should_trigger_pq. cbn [pq_ratchet_every_n_commits config_default].
  rewrite (proj2 (Z.eqb_neq (len outs + 1) 0)) by lia. done.
Qed.

(** With the default configuration, exactly the third, sixth, ninth, ... message of a chat uses
    the post-quantum extension, for the first 2^32-1 messages. *)
Theorem pq_schedule ks g outs p' k out :
  sends ks (state_new, g) outs p' -> len outs <= U32_MAX -> outs !! k = Some out ->
  pq_extension_used out = (Z.of_nat (S k) mod 3 =? 0) /\ commit_counter p'.1 = len outs.
Proof. intros Hs Hl Hk. destruct (sends_counter ks _ outs p' Hs eq_refl eq_refl Hl) as (_ & Hn & Hx). split; [by apply Hx|done]. Qed.

(** A sender without deniable authentication sends a zero MAC, which receivers check like any
    other: its messages are dropped unless HMAC is zero. *)
Lemma disabled_spqr_dropped P Q ks t now p out p' r ps e :
  encrypt_with_rekey_authenticated P ks t now p = (Ok out, p') -> spqr_deniable_auth (config p'.1) = false -> fits out ->
  Q = pq_dispatch ps r -> Mls.synced (Mls.inner p.2) P (Mls.inner r) Q -> classical_secret p'.2 P = Ok e ->
  hmac_sha256 e (ciphertext_bytes out) <> replicate 32 Byte.x00 ->
  (decrypt_text_with_fallback lossy ps (wire out) r).1 = Err SpqrAuthFailed.
Proof.
  intros He Hc [Hf1 Hf2] -> Hs Hcl Hne. apply authenticated_sent in He as [Hsent Hmac]. rewrite Hc in Hmac.
  destruct (bundle_opened P (pq_dispatch ps r) ks t now p p' out (replicate 32 Byte.x00) e r Hsent Hs Hcl) as (r' & Ho & _ & _ & Hco & _).
  unfold decrypt_text_with_fallback, wire. rewrite Hmac.
  change (encode_v3 (commit_bytes out) (ciphertext_bytes out) None) with
    (v3_encode {| v3_commit := commit_bytes out; v3_ciphertext := ciphertext_bytes out; v3_mac := replicate 32 Byte.x00 |}).
  rewrite v3_dec_enc, Ho; [unfold verify_hmac; by rewrite bool_decide_eq_false_2|]. split; [|by split]. cbn [v3_commit].
  destruct (commit_bytes out) as [c|]; [|done]. cbn in Hf1. lia.
Qed.

(** Bytes that are neither a bundle nor a message openmls accepts are shown as text, without any
    authentication; this covers every byte string shorter than eight bytes. *)
Lemma unauthenticated_text_shown ps b g :
  (forall e g', try_decode_v3 b = Ok None -> Mls.process_incoming (mls_provider ps) b g = (Err e, g') ->
     decrypt_text_with_fallback lossy ps b g = (Ok (lossy b), g')) /\
  (len b < 8 -> decrypt_text_with_fallback lossy ps b g = (Ok (lossy b), g)).
Proof.
  assert (Hx : forall e g', try_decode_v3 b = Ok None -> Mls.process_incoming (mls_provider ps) b g = (Err e, g') ->
     decrypt_text_with_fallback lossy ps b g = (Ok (lossy b), g')).
  { intros e g' Hd Hp. unfold decrypt_text_with_fallback. by rewrite Hd, Hp. }
  split; [done|]. intros Hl. destruct (Mls.process_incoming_undecoded (mls_provider ps) b g) as [[_ [e He]]|[Hp _]].
  - intros m pm Hp. unfold Mls.parse_or, Mls.parse_mls_message_safe, rguard, Mls.MLS_MESSAGE_MIN_BYTES in Hp.
    by rewrite (proj2 (Z.ltb_lt _ _)) in Hp.
  - apply (Hx e); [|done]. unfold try_decode_v3. v3_lens. by rewrite (proj2 (Z.ltb_lt _ _)) by lia.
  - apply Mls.parse_or_panic in Hp as (_ & Hm & _). unfold Mls.MLS_MESSAGE_MIN_BYTES in Hm. lia.
Qed.
End Delivery.

(** ** Concrete runs *)
#[export] Instance toy_spqr : SpqrCrypto := {|
  hmac_sha256 k m := Pq.pad_take 32 (k ++ m);
  spqr_hkdf ikm info n := Some (Pq.pad_take (Z.to_nat n) (reverse info ++ ikm))
|}.
#[export] Instance toy_spqr_laws : SpqrLaws.
Proof. split. intros. apply Pq.pad_take_len. Defined.

Definition toy_ks : Mls.KeyStore :=
  {| Mls.identity_public := replicate 32 Byte.x01; Mls.device_public _ := Some (replicate 32 Byte.x02);
     Mls.sign_with_device _ m := Some m |}.
Definition toy_ps : Providers (O := Mls.toy_mls) := {| mls_provider := tt : @Mls.Provider Mls.toy_mls; pq_provider := Some (tt : @Mls.Provider Mls.toy_mls) |}.
Definition toy_pair (n e : Z) : Pair (O := Mls.toy_mls) :=
  ({| config := config_default; commit_counter := n; last_timer_check_unix := 0 |}, Mls.toy_group e).
Definition toy_msg : list byte := [Byte.x48; Byte.x49].
Definition toy_send (p : Pair (O := Mls.toy_mls)) : res Mls.MlsError MaxRatchetOutgoing * Pair (O := Mls.toy_mls) :=
  encrypt_with_rekey_authenticated (O := Mls.toy_mls) tt toy_ks toy_msg 9 p.
Definition toy_send_pq (p : Pair (O := Mls.toy_mls)) : res Mls.MlsError MaxRatchetOutgoing * Pair (O := Mls.toy_mls) :=
  encrypt_with_rekey_pq_authenticated (O := Mls.toy_mls) tt toy_ks toy_msg 9 p.
Definition out_of (r : res Mls.MlsError MaxRatchetOutgoing) : MaxRatchetOutgoing :=
  match r with
  | Ok o => o
  | _ => {| commit_bytes := None; ciphertext_bytes := []; epoch_after_send := 0; pq_extension_used := false; spqr_mac := None |}
  end.
Definition toy_first : MaxRatchetOutgoing := Eval vm_compute in out_of (toy_send (toy_pair 0 7)).1.
Definition toy_after : Pair (O := Mls.toy_mls) := Eval vm_compute in (toy_send (toy_pair 0 7)).2.
Definition toy_third : MaxRatchetOutgoing := Eval vm_compute in out_of (toy_send_pq (toy_pair 2 7)).1.
Definition toy_after_third : Pair (O := Mls.toy_mls) := Eval vm_compute in (toy_send_pq (toy_pair 2 7)).2.
Lemma toy_sent : toy_send (toy_pair 0 7) = (Ok toy_first, toy_after).
Proof. vm_cast_no_check (eq_refl (toy_send (toy_pair 0 7))). Qed.
Lemma toy_sent_pq : toy_send_pq (toy_pair 2 7) = (Ok toy_third, toy_after_third).
Proof. vm_cast_no_check (eq_refl (toy_send_pq (toy_pair 2 7))). Qed.
Lemma toy_fits : fits toy_first /\ fits toy_third.
Proof. split; split; vm_compute; congruence. Qed.
Lemma toy_synced : Mls.synced (O := Mls.toy_mls) (Mls.inner (Mls.toy_group 7)) tt (Mls.inner (Mls.toy_group 7)) tt.
Proof. reflexivity. Qed.

Lemma text_delivered_witness :
  exists r', decrypt_text_with_fallback (O := Mls.toy_mls) id toy_ps (wire toy_first) (Mls.toy_group 7) = (Ok toy_msg, r').
Proof.
  destruct (text_delivered (O := Mls.toy_mls) id tt tt toy_ks toy_msg 9 (toy_pair 0 7) toy_first toy_after (Mls.toy_group 7) toy_ps
    toy_sent eq_refl (proj1 toy_fits) eq_refl toy_synced) as (r' & Hr & _).
  exists r'. exact Hr.
Defined.

(** The third message of a post-quantum chat is dropped by a receiver in step: for the concrete
    HMAC used here the other disjunct is refuted by evaluation. *)
Lemma pq_extension_rejected_witness :
  pq_extension_used toy_third = true /\
  exists r', Mls.synced (O := Mls.toy_mls) (Mls.inner toy_after_third.2) tt (Mls.inner r') tt /\
  (decrypt_text_with_fallback (O := Mls.toy_mls) id toy_ps (wire toy_third) (Mls.toy_group 7) = (Err SpqrAuthFailed, r') \/
   exists e q x, classical_secret (O := Mls.toy_mls) toy_after_third.2 tt = Ok e /\ pq_extend_epoch_secret e q = Some x /\
     hmac_sha256 e (ciphertext_bytes toy_third) = hmac_sha256 x (ciphertext_bytes toy_third)).
Proof.
  split; [reflexivity|].
  exact (pq_extension_rejected (O := Mls.toy_mls) id tt tt toy_ks toy_msg 9 (toy_pair 2 7) toy_third toy_after_third (Mls.toy_group 7)
    toy_ps toy_sent_pq eq_refl (proj2 toy_fits) eq_refl toy_synced).
Defined.
Example third_message_dropped :
  (decrypt_text_with_fallback (O := Mls.toy_mls) id toy_ps (wire toy_third) (Mls.toy_group 7)).1 = Err SpqrAuthFailed.
Proof. vm_compute. reflexivity. Qed.

Lemma pq_schedule_witness :
  pq_extension_used toy_first = false /\ commit_counter toy_after.1 = 1.
Proof.
  refine (pq_schedule (O := Mls.toy_mls) toy_ks (Mls.toy_group 7) [toy_first] toy_after 0%nat toy_first _ _ eq_refl);
    [|vm_compute; congruence].
  exact (sends_snoc (O := Mls.toy_mls) toy_ks (toy_pair 0 7) [] (toy_pair 0 7) tt toy_msg 9 toy_first toy_after
    (sends_nil toy_ks _) (or_introl toy_sent)).
Defined.
End MaxRatchet.
