(* ===== verification/GroupMedia.v ===== *)
(** * Media keys of an MLS group ([crates/umbrella-calls/src/sframe/derive.rs],
    [from_group], over [crates/umbrella-mls/src/group.rs])

    Where the two components of a call meet: [from_group] exports the base key of an epoch
    from the MLS group and hands it to the SFrame context.  [Mls] gives the group and the
    commit that moves it to its next epoch, [MaxRatchet.commit_delivered] the delivery of
    that commit, [Sframe] the frames; here a rekey in the middle of a call is followed
    through all of them. *)
From S2P Require Import Prelude Bytes Mls SframeWire SframeReplay Sframe MaxRatchet.
Local Open Scope string_scope.
Local Open Scope list_scope.
Local Open Scope Z_scope.

Module GroupMedia.
Import Sframe.

Definition MLS_EXPORTER_LABEL : string := "SFrame 1.0 Base Key".

Section Derive.
Context {O : Mls.OpenMls} `{SframeCrypto}.

Definition from_group (group : Mls.UmbrellaGroup) (provider : Mls.Provider) (cs : SframeCiphersuite) (epoch : Z)
  : res SframeWire.CallError SframeBaseKey :=
  let context := to_be 8 epoch in
  let? secret := rmap_err SframeWire.Mls (Mls.exporter_secret group provider MLS_EXPORTER_LABEL context BASE_KEY_LEN) in
  let? bytes := copy_into 0 BASE_KEY_LEN secret (replicate (Z.to_nat BASE_KEY_LEN) Byte.x00) in
  Ok (from_mls_exporter bytes cs epoch).

(** ** What three cached epochs keep when a fourth arrives *)
Lemma advance_epochs bk c :
  len (epochs c) <= EPOCH_CACHE_SIZE -> epochs (advance_epoch bk c) = take 3 (bk :: epochs c).
Proof.
  unfold EPOCH_CACHE_SIZE. intros Hl. destruct c as [[|b1 [|b2 [|b3 [|b4 l]]]] k r]; try reflexivity.
  exfalso. cbn [epochs] in Hl. rewrite !len_cons in Hl. pose proof (len_nonneg l). lia.
Qed.

Lemma advance_replay bk c s e :
  wf c -> e ∈ epoch <$> take 2 (epochs c) -> replay (advance_epoch bk c) !! (s, e) = replay c !! (s, e).
Proof.
  intros [Hl Hn _ _] He. unfold EPOCH_CACHE_SIZE in Hl.
  destruct c as [[|b1 [|b2 [|b3 [|b4 l]]]] k r]; try reflexivity.
  - cbn -[e16] in Hn, He. apply NoDup_cons in Hn as [H1 Hn]. apply NoDup_cons in Hn as [H2 _].
    unfold advance_epoch. cbn [evict_loop length epochs EPOCH_CACHE_SIZE].
    change (replay (evict_oldest {| epochs := [bk; b1; b2; b3]; per_kid_cache := k; replay := r |}) !! (s, e) = r !! (s, e)).
    destruct (evict_oldest_snoc {| epochs := [bk; b1; b2; b3]; per_kid_cache := k; replay := r |} [bk; b1; b2] b3 eq_refl) as (_ & -> & _).
    cbn [replay]. apply option_eq. intros w. rewrite map_lookup_filter_Some. split; [by intros []|].
    intros Hw. split; [done|]. intros Heq. cbn in Heq. subst e.
    apply elem_of_cons in He as [He|He]; [|apply list_elem_of_singleton in He];
      [apply H1|apply H2]; rewrite <- He; by repeat constructor.
  - exfalso. cbn [epochs] in Hl. rewrite !len_cons in Hl. pose proof (len_nonneg l). lia.
Qed.

(** ** The base key *)

(** A [copy_from_slice] over a whole zeroed buffer leaves the source. *)
Lemma copy_whole {E} n src : len src = n -> copy_into (E := E) 0 n src (replicate (Z.to_nat n) Byte.x00) = Ok src.
Proof.
  intros Hl. pose proof (len_nonneg src). rewrite copy_into_in_range by (rewrite ?len_replicate; lia).
  rewrite drop_ge by (rewrite length_replicate; done). cbn [take app]. by rewrite app_nil_r.
Qed.

(** [from_group] never panics: it fails exactly when the exporter does, and otherwise the base
    key is extracted from the 64 exported bytes and carries the epoch it was asked for. *)
Lemma from_group_spec {OL : Mls.OpenMlsLaws O} g p cs e :
  from_group g p cs e =
  match Mls.export_secret (Mls.inner g) p MLS_EXPORTER_LABEL (to_be 8 e) BASE_KEY_LEN with
  | Some raw => Ok (from_ikm raw cs e)
  | None => Err (SframeWire.Mls (Mls.GroupOperation "MlsGroup::export_secret failed"))
  end.
Proof.
  unfold from_group, Mls.exporter_secret, rguard. change (negb _) with false. cbn match.
  destruct (Mls.export_secret _ _ _ _ _) as [raw|] eqn:Hx; [|done].
  pose proof (Mls.export_len _ _ _ _ _ _ Hx) as Hl. cbn [ok_or rbind].
  change Mls.MAX_EXPORTER_LEN with BASE_KEY_LEN. rewrite (copy_whole _ _ Hl). cbn [rmap_err rbind].
  by rewrite (copy_whole _ _ Hl).
Qed.

Lemma from_group_epoch {OL : Mls.OpenMlsLaws O} g p cs e bk : from_group g p cs e = Ok bk -> epoch bk = e.
Proof. rewrite from_group_spec. destruct (Mls.export_secret _ _ _ _ _); [|done]. by intros [= <-]. Qed.

(** Members in the same state of the group derive the same base key. *)
Lemma base_key_agrees {OL : Mls.OpenMlsLaws O} g P r Q cs e :
  Mls.synced (Mls.inner g) P (Mls.inner r) Q -> from_group g P cs e = from_group r Q cs e.
Proof. intros Hs. by rewrite !from_group_spec, (Mls.export_agrees _ _ _ _ _ _ _ Hs). Qed.

(** ** What a frame leaves alone *)
Lemma encrypt_frame_epochs leaf k m c o c' : encrypt_frame leaf k m c = (o, c') -> epochs c' = epochs c.
Proof.
  unfold encrypt_frame, sguard, slift, sget. intros He. destruct (_ <? len m); [by simplify_eq|].
  unfold sbind at 1 2 in He. destruct (ok_or _ _); [|by simplify_eq..].
  unfold sbind at 1 in He. destruct (get_or_derive _ c) as [rk cg] eqn:Hg.
  apply get_or_derive_frame in Hg as [<- _]. unfold sbind, sret in He.
  repeat (case_match; simplify_eq/=; try done).
Qed.

Lemma decrypt_frame_others bytes c d c' :
  decrypt_frame bytes c = (Ok d, c') ->
  epochs c' = epochs c /\ forall i, i <> (sender_leaf d, df_epoch d) -> replay c' !! i = replay c !! i.
Proof.
  intros Hd. destruct (decrypt_cases _ _ _ _ Hd) as [(_ & Hn & _)|(h & rest & bk & rr & cr & _ & _ & Hr & Ho)]; [by destruct (Hn d)|].
  destruct Ho as [(e & _ & _ & Hx & _)|(_ & [rk Hg] & Hf)]; [done|]. destruct (Hf d eq_refl) as (-> & -> & _).
  apply get_or_derive_frame in Hg as [-> ->]. pose proof (check_replay_frame _ _ _ _ _ _ Hr) as [-> _]. split; [done|].
  intros i Hi. unfold check_replay in Hr. destruct (SframeReplay.check_and_update _ _). simplify_eq/=.
  by rewrite lookup_insert_ne.
Qed.

(** The frame a receiver hands to the media layer. *)
Definition received (leaf ctr : Z) (msg : list byte) (bk : SframeBaseKey) : DecryptedFrame :=
  {| plaintext := msg; df_kid := SframeWire.compute_kid leaf (epoch bk); df_counter := ctr; sender_leaf := leaf; df_epoch := epoch bk |}.

(** The window of a sender in an epoch accepts the counter. *)
Definition accepts (c : SframeContext) (leaf e ctr : Z) : Prop :=
  (SframeReplay.check_and_update (default (SframeReplay.new leaf) (replay c !! (leaf, e))) ctr).1 = Ok tt.

(** The epoch is not confused with a cached one on the wire, which carries its low 16 bits. *)
Definition distinct_epoch (e : Z) (c : SframeContext) : Prop := e16 e ∉ ((fun b => e16 (epoch b)) <$> epochs c).

Lemma advance_replay_sub bk c i w : replay (advance_epoch bk c) !! i = Some w -> replay c !! i = Some w.
Proof.
  unfold advance_epoch. apply (evict_loop_inv (fun c' => replay c' !! i = Some w -> replay c !! i = Some w)); [|done].
  intros c' rest ev IH He Hl. destruct (evict_oldest_snoc c' rest ev He) as (_ & Hr & _). rewrite Hr in Hl.
  apply map_lookup_filter_Some in Hl as [Hl _]. auto.
Qed.

(** No counter of a fresh epoch has been used. *)
Lemma accepts_new bk c leaf ctr : wf c -> distinct_epoch (epoch bk) c -> accepts (advance_epoch bk c) leaf (epoch bk) ctr.
Proof.
  intros Hw Hd. unfold accepts. destruct (replay (advance_epoch bk c) !! (leaf, epoch bk)) as [w|] eqn:Hr; [|done].
  apply advance_replay_sub in Hr. destruct (wf_replay _ Hw _ _ _ Hr) as [He _]. apply list_elem_of_fmap in He as (b & He & Hb).
  exfalso. apply Hd. rewrite He. by apply (list_elem_of_fmap_2 (fun b => e16 (epoch b))).
Qed.

(** C22. A rekey in the middle of a call: a frame is under way when a member of the group
    commits a rekey.  A receiver in step with it merges the commit, derives the same base key
    for the same next epoch, opens the first frame of the new epoch, and then still opens the
    late frame of the old one: each arrives with its own text, counter and 64-bit epoch,
    whatever else the two contexts hold. *)
Theorem rekey_during_call {OL : Mls.OpenMlsLaws O} {CL : SframeCryptoLaws} (P Q : Mls.Provider) (ks : Mls.KeyStore) (now : Z)
    (g g1 r : Mls.UmbrellaGroup) (commit : list byte) (cs : SframeCiphersuite) (bk0 bk : SframeBaseKey)
    (sc rc : SframeContext) (leaf k0 k1 : Z) (m0 m1 : list byte)
    (Hsync : Mls.synced (Mls.inner g) P (Mls.inner r) Q) (Hrk : Mls.force_rekey P ks now g = (Ok commit, g1))
    (Hbk : from_group g1 P cs (Mls.epoch g1) = Ok bk)
    (Hs : wf sc) (Hr : wf rc) (Hh : head (epochs sc) = Some bk0) (Hin : bk0 ∈ take 2 (epochs rc))
    (Hds : distinct_epoch (Mls.epoch g1) sc) (Hdr : distinct_epoch (Mls.epoch g1) rc)
    (Hl : is_u32 leaf) (He0 : is_u64 (epoch bk0)) (He1 : is_u64 (Mls.epoch g1)) (Hk0 : is_u64 k0) (Hk1 : is_u64 k1)
    (Hm0 : len m0 <= MAX_FRAME_PLAINTEXT_LEN) (Hm1 : len m1 <= MAX_FRAME_PLAINTEXT_LEN)
    (Hfresh : accepts rc leaf (epoch bk0) k0) :
  exists sr r1 w0 w1 sc1 sc2 rc1 rc2,
    encrypt_frame leaf k0 m0 sc = (Ok w0, sc1) /\
    Mls.process_incoming Q commit r = (Ok (Mls.CommitApplied (Mls.epoch g1) sr), r1) /\
    from_group r1 Q cs (Mls.epoch r1) = Ok bk /\ Mls.epoch g1 = Mls.epoch g + 1 /\
    encrypt_frame leaf k1 m1 (advance_epoch bk sc1) = (Ok w1, sc2) /\
    decrypt_frame w1 (advance_epoch bk rc) = (Ok (received leaf k1 m1 bk), rc1) /\
    decrypt_frame w0 rc1 = (Ok (received leaf k0 m0 bk0), rc2).
Proof.
  destruct (MaxRatchet.commit_delivered P Q ks now g commit g1 r Hsync Hrk) as (e & sr & r1 & Hp & Hs1 & Hep & _ & _ & ->).
  pose proof (Mls.synced_epoch _ _ _ _ Hs1) as Hee. change (Mls.epoch g1 = Mls.epoch r1) in Hee.
  pose proof (from_group_epoch _ _ _ _ _ Hbk) as Hbe.
  destruct (encrypt_frame_wire sc leaf k0 m0 bk0) as (ct & sc1 & _ & Hw0 & Hs1w); try done.
  pose proof (encrypt_frame_epochs _ _ _ _ _ _ Hw0) as Hes.
  assert (Hsa : wf (advance_epoch bk sc1)) by (apply advance_epoch_wf; [done|]; by rewrite Hes, Hbe).
  assert (Hra : wf (advance_epoch bk rc)) by (apply advance_epoch_wf; [done|]; by rewrite Hbe).
  destruct (encrypt_decrypt_frame (advance_epoch bk sc1) (advance_epoch bk rc) bk leaf k1 m1) as (w1 & sc2 & rc1 & Hw1 & Hd1);
    try done; try by rewrite Hbe.
  { rewrite advance_epochs by apply Hs1w. done. }
  { rewrite advance_epochs by apply Hr. by left. }
  { apply accepts_new; [done|]. by rewrite Hbe. }
  assert (Hr1 : wf rc1) by by eapply decrypt_frame_wf.
  destruct (decrypt_frame_others _ _ _ _ Hd1) as [Her Hoth].
  destruct (encrypt_decrypt_frame sc rc1 bk0 leaf k0 m0) as (w0 & sc1' & rc2 & Hw0' & Hd0); try done.
  { rewrite Her, advance_epochs by apply Hr. by right. }
  { rewrite Hoth, (advance_replay bk); [done|done|by apply (list_elem_of_fmap_2 epoch)|].
    intros [= Heq]. apply Hdr. rewrite <- Hbe, <- Heq. apply (list_elem_of_fmap_2 (fun b => e16 (epoch b))).
    rewrite <- (take_drop 2 (epochs rc)). apply elem_of_app. by left. }
  rewrite Hw0 in Hw0'. simplify_eq. eexists sr, r1, _, w1, sc1', sc2, rc1, rc2. rewrite Hee. split_and!; try done; try congruence.
  - by rewrite <- (base_key_agrees g1 P), <- Hee.
Qed.

End Derive.

(** ** A concrete call at the group's epoch 7 *)
#[local] Existing Instances Mls.toy_mls.
Definition toy_old : SframeBaseKey := from_ikm (to_be 64 7) Aes256GcmSha512 7.
Definition toy_call : SframeContext := advance_epoch toy_old new.
Definition toy_rekeyed : Mls.UmbrellaGroup := (Mls.force_rekey tt MaxRatchet.toy_ks 9 (Mls.toy_group 7)).2.
Definition toy_commit : list byte := match (Mls.force_rekey tt MaxRatchet.toy_ks 9 (Mls.toy_group 7)).1 with Ok c => c | _ => [] end.
Definition toy_next : SframeBaseKey :=
  match from_group toy_rekeyed tt Aes256GcmSha512 (Mls.epoch toy_rekeyed) with Ok b => b | _ => toy_old end.

Lemma toy_call_wf : wf toy_call.
Proof. apply advance_epoch_wf; [apply new_wf|]. by apply not_elem_of_nil. Qed.
Lemma toy_call_distinct : distinct_epoch 8 toy_call.
Proof. unfold distinct_epoch. vm_compute. by intros [?|?%elem_of_nil]%elem_of_cons. Qed.

Lemma rekey_during_call_witness :
  exists sr r1 w0 w1 sc1 sc2 rc1 rc2,
    encrypt_frame 3 9 [Byte.x2a] toy_call = (Ok w0, sc1) /\
    Mls.process_incoming (tt : @Mls.Provider Mls.toy_mls) toy_commit (Mls.toy_group 7) = (Ok (Mls.CommitApplied 8 sr), r1) /\
    from_group r1 (tt : @Mls.Provider Mls.toy_mls) Aes256GcmSha512 (Mls.epoch r1) = Ok toy_next /\ 8 = 7 + 1 /\
    encrypt_frame 3 0 [Byte.x2b] (advance_epoch toy_next sc1) = (Ok w1, sc2) /\
    decrypt_frame w1 (advance_epoch toy_next toy_call) = (Ok (received 3 0 [Byte.x2b] toy_next), rc1) /\
    decrypt_frame w0 rc1 = (Ok (received 3 9 [Byte.x2a] toy_old), rc2).
Proof.
  refine (rekey_during_call (O := Mls.toy_mls) tt tt MaxRatchet.toy_ks 9 (Mls.toy_group 7) toy_rekeyed (Mls.toy_group 7) toy_commit
    Aes256GcmSha512 toy_old toy_next toy_call toy_call 3 9 0 [Byte.x2a] [Byte.x2b]
    eq_refl eq_refl eq_refl toy_call_wf toy_call_wf eq_refl _ toy_call_distinct toy_call_distinct _ _ _ _ _ _ _ eq_refl);
    [left|vm_compute; split; congruence..|vm_compute; congruence|vm_compute; congruence].
Defined.
End GroupMedia.
