(* ===== verification/RatchetGroup.v ===== *)
(** * The ratchet that owns its group ([crates/umbrella-mls/src/max_ratchet/group.rs])

    [MaxRatchetGroup] keeps the group and the ratchet in one object and has its own copy of every
    operation of [MaxRatchetState] ([state.rs], file [MaxRatchet]), which is called with the group.
    The copies agree: each operation of the object is the operation of the state on its parts. *)
From S2P Require Import Prelude Bytes Crypto Mls MaxRatchet.
Local Open Scope string_scope.
Local Open Scope list_scope.
Local Open Scope Z_scope.

Module RatchetGroup.
Import MaxRatchet.

Section Group.
Context {O : Mls.OpenMls} {SC : SpqrCrypto}.

Record MaxRatchetGroup := { inner : Mls.UmbrellaGroup; gconfig : MaxRatchetConfig; gcommit_counter : Z; glast_timer_check_unix : Z }.
Definition group_with_config (g : Mls.UmbrellaGroup) (c : MaxRatchetConfig) : MaxRatchetGroup :=
  {| inner := g; gconfig := c; gcommit_counter := 0; glast_timer_check_unix := 0 |}.
Definition group_new (g : Mls.UmbrellaGroup) : MaxRatchetGroup := group_with_config g config_default.
Definition group_should_trigger_pq_ratchet (m : MaxRatchetGroup) : bool :=
  should_trigger_pq (gcommit_counter m) (pq_ratchet_every_n_commits (gconfig m)).

Definition GOp (A : Type) : Type := st MaxRatchetGroup Mls.MlsError A.
(** A call on the field [inner], and the assignments to the other fields. *)
Definition on_field {A} (f : st Mls.UmbrellaGroup Mls.MlsError A) : GOp A := fun m =>
  let '(r, g) := f (inner m) in
  (r, {| inner := g; gconfig := gconfig m; gcommit_counter := gcommit_counter m; glast_timer_check_unix := glast_timer_check_unix m |}).
Definition count_commit : GOp unit := fun m =>
  (Ok tt, {| inner := inner m; gconfig := gconfig m; gcommit_counter := sat_add U32_MAX (gcommit_counter m) 1;
             glast_timer_check_unix := glast_timer_check_unix m |}).
Definition mark_timer_check (now_unix : Z) : GOp unit := fun m =>
  (Ok tt, {| inner := inner m; gconfig := gconfig m; gcommit_counter := gcommit_counter m; glast_timer_check_unix := now_unix |}).

Definition group_encrypt_with_rekey (provider : Mls.Provider) (ks : Mls.KeyStore) (plaintext : list byte) (now_unix : Z) : GOp MaxRatchetOutgoing :=
  let! self := sget in
  let! (commit_bytes_opt, pq_used) :=
    (if aggressive_dh_per_message (gconfig self) then
       let! commit := on_field (Mls.force_rekey provider ks now_unix) in
       let! _ := count_commit in
       let! self := sget in
       sret (Some commit, should_trigger_pq (gcommit_counter self) (pq_ratchet_every_n_commits (gconfig self)))
     else sret (None, false)) in
  let! ciphertext := on_field (Mls.encrypt_application provider ks plaintext) in
  let! self := sget in
  sret {| commit_bytes := commit_bytes_opt; ciphertext_bytes := ciphertext; epoch_after_send := Mls.epoch (inner self);
          pq_extension_used := pq_used; spqr_mac := None |}.

Definition group_encrypt_with_rekey_authenticated (provider : Mls.Provider) (ks : Mls.KeyStore) (plaintext : list byte) (now_unix : Z)
  : GOp MaxRatchetOutgoing :=
  let! outgoing := group_encrypt_with_rekey provider ks plaintext now_unix in
  let! self := sget in
  if negb (spqr_deniable_auth (gconfig self)) then sret outgoing
  else
    let! epoch_secret := slift (classical_secret (inner self) provider) in
    let mac := compute_hmac epoch_secret (ciphertext_bytes outgoing) in
    sret {| commit_bytes := commit_bytes outgoing; ciphertext_bytes := ciphertext_bytes outgoing;
            epoch_after_send := epoch_after_send outgoing; pq_extension_used := pq_extension_used outgoing; spqr_mac := Some mac |}.

Definition group_encrypt_with_rekey_pq_authenticated (pq_provider : Mls.Provider) (ks : Mls.KeyStore) (plaintext : list byte) (now_unix : Z)
  : GOp MaxRatchetOutgoing :=
  let! self := sget in
  let! (commit_bytes_opt, pq_shared) :=
    (if aggressive_dh_per_message (gconfig self) then
       let! (commit, pq_secret) := on_field (Mls.force_rekey_with_pq pq_provider ks now_unix) in
       let! _ := count_commit in
       let! self := sget in
       sret (Some commit, if should_trigger_pq (gcommit_counter self) (pq_ratchet_every_n_commits (gconfig self)) then Some pq_secret else None)
     else sret (None, None)) in
  let! ciphertext := on_field (Mls.encrypt_application pq_provider ks plaintext) in
  let! self := sget in
  let! mac :=
    (if spqr_deniable_auth (gconfig self) then
       let! classical := slift (classical_secret (inner self) pq_provider) in
       let! epoch_secret := slift (match pq_shared with
                                   | Some pq => ok_or (pq_extend_epoch_secret classical pq)
                                                      (Mls.GroupOperation "SPQR PQ-extension HKDF derivation failed")
                                   | None => Ok classical
                                   end) in
       sret (Some (compute_hmac epoch_secret ciphertext))
     else sret None) in
  sret {| commit_bytes := commit_bytes_opt; ciphertext_bytes := ciphertext; epoch_after_send := Mls.epoch (inner self);
          pq_extension_used := match pq_shared with Some _ => true | None => false end; spqr_mac := mac |}.

Definition group_check_timer_and_rekey (provider : Mls.Provider) (ks : Mls.KeyStore) (now_unix : Z) : GOp (option (list byte)) :=
  let! self := sget in
  if negb (check_should_trigger (Mls.last_rekey_at_unix (inner self)) now_unix (timer_rekey_seconds (gconfig self))) then sret None
  else
    let! commit := on_field (Mls.force_rekey provider ks now_unix) in
    let! _ := count_commit in
    let! _ := mark_timer_check now_unix in
    sret (Some commit).

(** ** The simulation *)

(** The parts of the object. *)
Definition parts (m : MaxRatchetGroup) : Pair :=
  ({| config := gconfig m; commit_counter := gcommit_counter m; last_timer_check_unix := glast_timer_check_unix m |}, inner m).
(** Running [f] on the object is running [f'] on its parts. *)
Definition simulates {A} (f : GOp A) (f' : st Pair Mls.MlsError A) : Prop := forall m, f' (parts m) = ((f m).1, parts (f m).2).

Lemma simulates_ret {A} (a : A) : simulates (sret a) (sret a).
Proof. done. Qed.
Lemma simulates_lift {A} (r : res Mls.MlsError A) : simulates (slift r) (slift r).
Proof. done. Qed.
Lemma simulates_bind {A B} (f : GOp A) f' (k : A -> GOp B) k' :
  simulates f f' -> (forall a, simulates (k a) (k' a)) -> simulates (sbind f k) (sbind f' k').
Proof. intros Hf Hk m. unfold sbind. rewrite Hf. destruct (f m) as [[a|e|] m']; cbn [fst snd]; [apply Hk|done..]. Qed.
Lemma simulates_get {B} (k : MaxRatchetGroup -> GOp B) k' :
  (forall m, simulates (k m) (k' (parts m))) -> simulates (sbind sget k) (sbind sget k').
Proof. intros Hk m. apply Hk. Qed.
Lemma simulates_field {A} (f : st Mls.UmbrellaGroup Mls.MlsError A) : simulates (on_field f) (on_group f).
Proof. intros m. unfold on_field, on_group, parts. cbn [snd fst]. by destruct (f (inner m)). Qed.
Lemma simulates_count : simulates count_commit (on_state bump_counter).
Proof. done. Qed.
Lemma simulates_mark now : simulates (mark_timer_check now) (on_state (fun s => set_timer_check s now)).
Proof. done. Qed.
End Group.
Create HintDb ratchet_sim.
#[export] Hint Resolve simulates_ret simulates_lift simulates_field simulates_count simulates_mark : ratchet_sim.
#[export] Hint Extern 3 (simulates (sbind sget _) _) => (apply simulates_get; intros) : ratchet_sim.
#[export] Hint Extern 4 (simulates (sbind _ _) _) => (apply simulates_bind) : ratchet_sim.
#[export] Hint Extern 5 (simulates (match ?x with _ => _ end) _) => (destruct x) : ratchet_sim.
#[export] Hint Extern 6 (simulates (match ?f ?m with _ => _ end) (match ?g ?p with _ => _ end)) => (change (g p) with (f m); destruct (f m)) : ratchet_sim.
Ltac sim := intros; eauto 40 with ratchet_sim.

Section Agree.
Context {O : Mls.OpenMls} {SC : SpqrCrypto}.

Lemma encrypt_simulated P ks t now : simulates (group_encrypt_with_rekey P ks t now) (encrypt_with_rekey P ks t now).
Proof.
  apply simulates_get. intros m. apply simulates_bind.
  - change (config (parts m).1) with (gconfig m). destruct (aggressive_dh_per_message (gconfig m)); sim.
  - intros [cb pq]. sim.
Qed.
Lemma authenticated_simulated P ks t now :
  simulates (group_encrypt_with_rekey_authenticated P ks t now) (encrypt_with_rekey_authenticated P ks t now).
Proof.
  apply simulates_bind; [apply encrypt_simulated|]. intros out. apply simulates_get. intros m.
  change (config (parts m).1) with (gconfig m). change (parts m).2 with (inner m).
  destruct (spqr_deniable_auth (gconfig m)); cbn [negb]; sim.
Qed.
Lemma pq_simulated P ks t now :
  simulates (group_encrypt_with_rekey_pq_authenticated P ks t now) (encrypt_with_rekey_pq_authenticated P ks t now).
Proof.
  apply simulates_get. intros m. apply simulates_bind.
  - change (config (parts m).1) with (gconfig m). destruct (aggressive_dh_per_message (gconfig m)); [|sim].
    apply simulates_bind; [sim|]. intros [cb sec]. sim.
  - intros [cb pq]. apply simulates_bind; [sim|]. intros ct. apply simulates_get. intros m'.
    change (config (parts m').1) with (gconfig m'). change (parts m').2 with (inner m').
    apply simulates_bind; [|sim]. destruct (spqr_deniable_auth (gconfig m')); sim.
Qed.
Lemma timer_simulated P ks now : simulates (group_check_timer_and_rekey P ks now) (check_timer_and_rekey P ks now).
Proof.
  apply simulates_get. intros m. change (config (parts m).1) with (gconfig m). change (parts m).2 with (inner m).
  cbv zeta. destruct (check_should_trigger _ now _); cbn [negb]; sim.
Qed.

(** ** Runs of operations *)
Inductive RatchetOp :=
| OEncrypt (P : Mls.Provider) (ks : Mls.KeyStore) (t : list byte) (now : Z)
| OAuthenticated (P : Mls.Provider) (ks : Mls.KeyStore) (t : list byte) (now : Z)
| OPq (P : Mls.Provider) (ks : Mls.KeyStore) (t : list byte) (now : Z)
| OTimer (P : Mls.Provider) (ks : Mls.KeyStore) (now : Z).
Inductive Produced := PMessage (out : MaxRatchetOutgoing) | PCommit (commit : option (list byte)).
Definition smap {S E A B} (f : A -> B) (m : st S E A) : st S E B := let! a := m in sret (f a).
Definition run_group (op : RatchetOp) : GOp Produced :=
  match op with
  | OEncrypt P ks t now => smap PMessage (group_encrypt_with_rekey P ks t now)
  | OAuthenticated P ks t now => smap PMessage (group_encrypt_with_rekey_authenticated P ks t now)
  | OPq P ks t now => smap PMessage (group_encrypt_with_rekey_pq_authenticated P ks t now)
  | OTimer P ks now => smap PCommit (group_check_timer_and_rekey P ks now)
  end.
Definition run_state (op : RatchetOp) : st Pair Mls.MlsError Produced :=
  match op with
  | OEncrypt P ks t now => smap PMessage (encrypt_with_rekey P ks t now)
  | OAuthenticated P ks t now => smap PMessage (encrypt_with_rekey_authenticated P ks t now)
  | OPq P ks t now => smap PMessage (encrypt_with_rekey_pq_authenticated P ks t now)
  | OTimer P ks now => smap PCommit (check_timer_and_rekey P ks now)
  end.
(** Each operation is run whatever the one before it returned. *)
Fixpoint run_all {S} (step : RatchetOp -> st S Mls.MlsError Produced) (ops : list RatchetOp) (s : S) : list (res Mls.MlsError Produced) * S :=
  match ops with
  | [] => ([], s)
  | op :: ops => let '(r, s) := step op s in let '(rs, s) := run_all step ops s in (r :: rs, s)
  end.
Lemma step_simulated op : simulates (run_group op) (run_state op).
Proof.
  destruct op; (apply simulates_bind; [|sim]); [apply encrypt_simulated|apply authenticated_simulated|apply pq_simulated|apply timer_simulated].
Qed.
Lemma runs_agree ops : forall m, run_all run_state ops (parts m) = ((run_all run_group ops m).1, parts (run_all run_group ops m).2).
Proof.
  induction ops as [|op ops IH]; intros m; [done|]. cbn [run_all]. rewrite step_simulated. destruct (run_group op m) as [r m']. cbn [fst snd].
  rewrite IH. by destruct (run_all run_group ops m').
Qed.

(** No operation changes the configuration. *)
Definition keeps_config {A} (f : GOp A) : Prop := forall m, gconfig (f m).2 = gconfig m.
Lemma config_bind {A B} (f : GOp A) (k : A -> GOp B) : keeps_config f -> (forall a, keeps_config (k a)) -> keeps_config (sbind f k).
Proof. intros Hf Hk m. unfold sbind. specialize (Hf m). destruct (f m) as [[a|e|] m']; cbn [fst snd] in *; [by rewrite Hk|done..]. Qed.
Lemma config_get {B} (k : MaxRatchetGroup -> GOp B) : (forall m, keeps_config (k m)) -> keeps_config (sbind sget k).
Proof. intros Hk m. apply Hk. Qed.
Lemma config_field {A} (f : st Mls.UmbrellaGroup Mls.MlsError A) : keeps_config (on_field f).
Proof. intros m. unfold on_field. by destruct (f (inner m)). Qed.
Lemma step_keeps op : keeps_config (run_group op).
Proof.
  destruct op; unfold run_group, smap, group_encrypt_with_rekey_authenticated, group_encrypt_with_rekey, group_encrypt_with_rekey_pq_authenticated,
    group_check_timer_and_rekey; repeat match goal with
    | |- keeps_config (sbind sget _) => apply config_get; intros; cbv beta zeta
    | |- keeps_config (sbind _ _) => apply config_bind; intros; cbv beta zeta
    | |- keeps_config (on_field _) => apply config_field
    | |- keeps_config (match ?x with _ => _ end) => destruct x
    | |- keeps_config _ => intros ?; reflexivity
    end.
Qed.
Lemma run_all_config ops : forall m, gconfig (run_all run_group ops m).2 = gconfig m.
Proof.
  induction ops as [|op ops IH]; intros m; [done|]. cbn [run_all]. pose proof (step_keeps op m) as Hs. destruct (run_group op m) as [r m'].
  specialize (IH m'). destruct (run_all run_group ops m') as [rs m'']. cbn [fst snd] in *. congruence.
Qed.

(** The object and the state with its group are the same ratchet: from the start and over any
    sequence of operations, failed ones included, they produce the same messages, commits and
    errors, end with the same counters and the same group, and trigger the post-quantum step alike. *)
Theorem group_refines_state g c ops :
  let m := (run_all run_group ops (group_with_config g c)).2 in
  run_all run_state ops (with_config c, g) = ((run_all run_group ops (group_with_config g c)).1, parts m) /\
  group_should_trigger_pq_ratchet m = should_trigger_pq_ratchet (parts m).1 /\ gconfig m = c.
Proof.
  split; [apply (runs_agree ops (group_with_config g c))|]. split; [done|].
  apply (run_all_config ops (group_with_config g c)).
Qed.
End Agree.
End RatchetGroup.
