(* ===== verification/ClientError.v ===== *)
(** * Errors of the client ([crates/umbrella-client/src/error.rs])

    Every variant of [ClientError] with the sub-errors of the components it aggregates.  The
    texts of the source are kept where they are constants; a [Network] error carries a value of
    the parameter [N], what its text is made of in the operations that raise it. *)
From S2P Require Import Prelude Bytes Padding KtError SframeWire BackupError OprfRequest SealedSender Identity Mls.
Local Open Scope string_scope.

(** [AttestationError] of [attestation/provider_trait.rs]. *)
Inductive AttestationError :=
| ServiceUnavailable | NonceRejected | AttestationTimeout | InvalidShape (what : string) | AppNotEligible | Native (what : string).

Inductive ClientError {N : Type} :=
| Call (e : SframeWire.CallError)
| Backup (e : BackupError)
| MlsFailed (e : Mls.MlsError)
| Kt (e : KtError)
| Oprf (e : OprfRequest.OprfError)
| SealedSenderFailed (e : SealedSender.SealedSenderError)
| IdentityFailed (e : Identity.IdentityError)
| PaddingFailed (e : Padding.PaddingError)
| Network (reason : N)
| Storage (what : string)
| Attestation (e : AttestationError)
| Platform (what : string)
| Cancelled
| ModeViolation (what : string)
| Internal (what : string)
| Crypto (what : string)
| WrongPin
| AccountDeleted
| SpqrAuthFailed.
Arguments ClientError : clear implicits.
