(* ===== verification/Client.v ===== *)
(** * Chats of the client ([crates/umbrella-client/src/core.rs], [facade/chat_common.rs],
    [facade/cloud_chat.rs], [facade/secret_chat.rs], [transport/stub.rs], [error.rs])

    The state a client keeps (groups, ratchets, counters, directories, the in-process postman)
    and the operations of its two chat facades.  A gateway connection, openmls, the wrapping of
    message keys, hex decoding and the unwrap transport are interfaces; readings of the clock
    are arguments.  The operations run one after the other: the asynchronous mutexes of the
    source serialise them, and a group reached through its [Arc] is the group in the map. *)
From S2P Require Import Prelude Bytes Crypto BackupError DeviceAuth CloudRequest Pq CloudWire SealedSender Identity Mls MaxRatchet ClientError.
Local Open Scope string_scope.
Local Open Scope list_scope.
Local Open Scope Z_scope.

Module Client.

(** ** The gateway ([transport/websocket.rs], [transport/gateway.rs]) *)
Inductive ClientPayload :=
| CPing (client_ts_ms : Z) | CAuth (token : string) (device_id : list byte) | CPresence (online : bool)
| SendMessage (to_user_id ciphertext : list byte) | CDeliveryProbe (probe_id : list byte) (sent_ts_ms : Z) | CClose.
Inductive ServerPayload :=
| Pong (client_ts_ms server_ts_ms : Z) | SendAck (msg_id : list byte) | AuthOk | SError (code : list byte)
| SDeliveryProbe (probe_id : list byte) (sent_ts_ms : Z)
| IncomingMessage (from_user_id ciphertext : list byte) (sent_ts_ms : Z) (msg_id : list byte).

(** [send_envelope] gives [None] when the envelope was handed over; [recv_envelope] gives [None]
    when no frame arrives while the caller waits. *)
Class GatewayOps := {
  Conn : Type; GatewayTransportError : Type;
  send_envelope : ClientPayload -> Conn -> option GatewayTransportError * Conn;
  recv_envelope : Conn -> option (GatewayTransportError + ServerPayload) * Conn
}.

(** What the client uses of openmls beyond the group wrapper, and [hex::decode]. *)
Class ClientMls (O : Mls.OpenMls) := {
  group_id : Mls.MlsGroup -> list byte;
  key_package_validate : Mls.Provider -> Mls.KeyPackageIn -> option Mls.KeyPackage;
  key_package_credential : Mls.KeyPackage -> list byte;
  hex_decode : list byte -> option (list byte)
}.

(** The wrapping of message keys and the transport to the unwrap servers, an interface to
    [umbrella-backup] whose wrapping is modelled in [CloudUnwrap] over MathComp fields; no instance
    connects the two, so [CloudKeysLaws] is an assumption of the theorems that use it. *)
Class CloudKeys (R U : Type) := {
  wrap_message_key : CloudWire.WrappingParams -> list byte -> CloudWire.CanonicalAad -> R -> res BackupError CloudWire.WrappedKey * R;
  unwrap_message_key : CloudWire.WrappingParams -> CloudWire.WrappedKey -> CloudWire.CanonicalAad ->
    list CloudWire.ServerUnwrapShare -> res BackupError (list byte);
  unwrap_dispatch : CloudRequest.SignedUnwrapRequest -> U -> res BackupError (list CloudWire.ServerUnwrapShare) * U
}.

(** [StubUnwrapTransport]: queued answers, an empty one when none is queued. *)
Definition stub_push_response {A} (responses : list (list A)) (shares : list A) : list (list A) := responses ++ [shares].
Definition stub_dispatch {A} (responses : list (list A)) : list A * list (list A) :=
  match responses with
  | [] => ([], [])
  | shares :: rest => (shares, rest)
  end.

Section Client.
Context {OM : Mls.OpenMls} {CM : ClientMls OM} {SC : MaxRatchet.SpqrCrypto} {GW : GatewayOps}
        {EC : SealedSender.EnvelopeCrypto} {Ed : Ed25519} {CC : CloudWire.CloudCrypto}
        {R U : Type} {RG : Pq.Rng R} {CK : CloudKeys R U} (lossy : list byte -> list byte).

(** ** Errors ([error.rs]); the texts of [Network] are represented by what they are made of *)
Inductive NetworkReason :=
| NSend (e : GatewayTransportError) | NRecv (e : GatewayTransportError) | NRejected (code : list byte)
| NUnexpected (p : ServerPayload) | NInbox (what : string) (e : GatewayTransportError)
| NPeerIdLen (got : Z) | NMsgIdLen (got : Z) | NMsgIdNotHex | NMsgIdBytes (got : Z).
Local Notation ClientError := (ClientError.ClientError NetworkReason).

(** An operation stops with an error of the source, or is still waiting for the gateway. *)
Inductive Stop := Failed (e : ClientError) | Pending.

(** ** State ([ClientCore]) *)
Record CloudHistoryEntry := {
  msg_id : list byte; sender : list byte; sent_ts_ms : Z; msg_seq : Z; ciphertext_at_rest : list byte; wrapped_key : CloudWire.WrappedKey
}.
Record KeyStores := { ks_mls : Mls.KeyStore; ks_sealed : SealedSender.KeyStore }.
Record ClientCore := {
  groups : gmap (list byte) Mls.UmbrellaGroup;
  ratchet_states : gmap (list byte) MaxRatchet.MaxRatchetState;
  cloud_msg_seq_counters : gmap (list byte) Z;
  peer_x25519_directory : gmap (list byte) (list byte);
  cloud_history : gmap (list byte) (list CloudHistoryEntry);
  welcome_inbox : gmap (list byte) (list (list byte));
  gateway : option Conn;
  unwrap_transport : U;
  rng : R;
  providers : MaxRatchet.Providers;
  mls_keystore : KeyStores;
  wrapping_params : CloudWire.WrappingParams;
  default_ciphersuite : Z
}.
Record DecryptedMessage := { message_id : list byte; chat_id : list byte; dm_sender : list byte; timestamp : Z; text : list byte }.
Definition Op (A : Type) : Type := st ClientCore Stop A.

Definition set_chat (c : ClientCore) (gs : gmap (list byte) Mls.UmbrellaGroup) (rs : gmap (list byte) MaxRatchet.MaxRatchetState) : ClientCore :=
  {| groups := gs; ratchet_states := rs; cloud_msg_seq_counters := cloud_msg_seq_counters c;
     peer_x25519_directory := peer_x25519_directory c; cloud_history := cloud_history c; welcome_inbox := welcome_inbox c;
     gateway := gateway c; unwrap_transport := unwrap_transport c; rng := rng c; providers := providers c;
     mls_keystore := mls_keystore c; wrapping_params := wrapping_params c; default_ciphersuite := default_ciphersuite c |}.
Definition set_conn (c : ClientCore) (g : option Conn) : ClientCore :=
  {| groups := groups c; ratchet_states := ratchet_states c; cloud_msg_seq_counters := cloud_msg_seq_counters c;
     peer_x25519_directory := peer_x25519_directory c; cloud_history := cloud_history c; welcome_inbox := welcome_inbox c;
     gateway := g; unwrap_transport := unwrap_transport c; rng := rng c; providers := providers c;
     mls_keystore := mls_keystore c; wrapping_params := wrapping_params c; default_ciphersuite := default_ciphersuite c |}.
Definition set_rng (c : ClientCore) (r : R) : ClientCore :=
  {| groups := groups c; ratchet_states := ratchet_states c; cloud_msg_seq_counters := cloud_msg_seq_counters c;
     peer_x25519_directory := peer_x25519_directory c; cloud_history := cloud_history c; welcome_inbox := welcome_inbox c;
     gateway := gateway c; unwrap_transport := unwrap_transport c; rng := r; providers := providers c;
     mls_keystore := mls_keystore c; wrapping_params := wrapping_params c; default_ciphersuite := default_ciphersuite c |}.
Definition set_transport (c : ClientCore) (u : U) : ClientCore :=
  {| groups := groups c; ratchet_states := ratchet_states c; cloud_msg_seq_counters := cloud_msg_seq_counters c;
     peer_x25519_directory := peer_x25519_directory c; cloud_history := cloud_history c; welcome_inbox := welcome_inbox c;
     gateway := gateway c; unwrap_transport := u; rng := rng c; providers := providers c;
     mls_keystore := mls_keystore c; wrapping_params := wrapping_params c; default_ciphersuite := default_ciphersuite c |}.
Definition set_cloud (c : ClientCore) (counters : gmap (list byte) Z) (h : gmap (list byte) (list CloudHistoryEntry)) : ClientCore :=
  {| groups := groups c; ratchet_states := ratchet_states c; cloud_msg_seq_counters := counters;
     peer_x25519_directory := peer_x25519_directory c; cloud_history := h; welcome_inbox := welcome_inbox c;
     gateway := gateway c; unwrap_transport := unwrap_transport c; rng := rng c; providers := providers c;
     mls_keystore := mls_keystore c; wrapping_params := wrapping_params c; default_ciphersuite := default_ciphersuite c |}.
Definition set_peers (c : ClientCore) (d : gmap (list byte) (list byte)) (w : gmap (list byte) (list (list byte))) : ClientCore :=
  {| groups := groups c; ratchet_states := ratchet_states c; cloud_msg_seq_counters := cloud_msg_seq_counters c;
     peer_x25519_directory := d; cloud_history := cloud_history c; welcome_inbox := w;
     gateway := gateway c; unwrap_transport := unwrap_transport c; rng := rng c; providers := providers c;
     mls_keystore := mls_keystore c; wrapping_params := wrapping_params c; default_ciphersuite := default_ciphersuite c |}.
Definition swap_mls_keystore (c : ClientCore) (k : KeyStores) : ClientCore :=
  {| groups := groups c; ratchet_states := ratchet_states c; cloud_msg_seq_counters := cloud_msg_seq_counters c;
     peer_x25519_directory := peer_x25519_directory c; cloud_history := cloud_history c; welcome_inbox := welcome_inbox c;
     gateway := gateway c; unwrap_transport := unwrap_transport c; rng := rng c; providers := providers c;
     mls_keystore := k; wrapping_params := wrapping_params c; default_ciphersuite := default_ciphersuite c |}.

Definition set_gateway (c : ClientCore) (g : Conn) : ClientCore := set_conn c (Some g).
Definition clear_gateway (c : ClientCore) : ClientCore := set_conn c None.
Definition get_group (c : ClientCore) (chat : list byte) : option Mls.UmbrellaGroup := groups c !! chat.
Definition get_ratchet_state (c : ClientCore) (chat : list byte) : option MaxRatchet.MaxRatchetState := ratchet_states c !! chat.
Definition register_group (c : ClientCore) (chat : list byte) (g : Mls.UmbrellaGroup) : ClientCore :=
  set_chat c (<[chat := g]> (groups c)) (<[chat := MaxRatchet.state_new]> (ratchet_states c)).
Definition unregister_group (c : ClientCore) (chat : list byte) : option Mls.UmbrellaGroup * ClientCore :=
  (groups c !! chat, set_chat c (delete chat (groups c)) (delete chat (ratchet_states c))).
Definition register_peer_x25519 (c : ClientCore) (peer x : list byte) : ClientCore :=
  set_peers c (<[peer := x]> (peer_x25519_directory c)) (welcome_inbox c).
Definition lookup_peer_x25519 (c : ClientCore) (peer : list byte) : option (list byte) := peer_x25519_directory c !! peer.

(** The counter before the call; the increment panics at [u64::MAX]. *)
Definition next_cloud_msg_seq (chat : list byte) : Op Z := fun c =>
  let value := default 0 (cloud_msg_seq_counters c !! chat) in
  if value =? U64_MAX then (Panic, set_cloud c (<[chat := value]> (cloud_msg_seq_counters c)) (cloud_history c))
  else (Ok value, set_cloud c (<[chat := value + 1]> (cloud_msg_seq_counters c)) (cloud_history c)).

(** ** The in-process postman ([StubPostmanTransport]) *)
Definition push_cloud_history (c : ClientCore) (chat : list byte) (e : CloudHistoryEntry) : ClientCore :=
  set_cloud c (cloud_msg_seq_counters c) (<[chat := default [] (cloud_history c !! chat) ++ [e]]> (cloud_history c)).
Definition drain_cloud_history (c : ClientCore) (chat : list byte) (since_ms : Z) : list CloudHistoryEntry * ClientCore :=
  match cloud_history c !! chat with
  | None => ([], c)
  | Some entries =>
      (filter (fun e => since_ms < sent_ts_ms e) entries,
       set_cloud c (cloud_msg_seq_counters c)
         (<[chat := filter (fun e => ~ since_ms < sent_ts_ms e) entries]> (cloud_history c)))
  end.
Definition push_welcome (c : ClientCore) (recipient welcome : list byte) : ClientCore :=
  set_peers c (peer_x25519_directory c) (<[recipient := default [] (welcome_inbox c !! recipient) ++ [welcome]]> (welcome_inbox c)).
Definition drain_welcomes_for (c : ClientCore) (recipient : list byte) : list (list byte) * ClientCore :=
  match welcome_inbox c !! recipient with
  | Some q => (q, set_peers c (peer_x25519_directory c) (<[recipient := []]> (welcome_inbox c)))
  | None => ([], c)
  end.
Definition fetch_pending_welcomes (c : ClientCore) (recipient : list byte) : list (list byte) * ClientCore := drain_welcomes_for c recipient.

(** ** Plumbing *)
Definition fail {A} (e : ClientError) : Op A := slift (Err (Failed e)).
Definition lift {A E} (f : E -> ClientError) (r : res E A) : Op A := slift (rmap_err (fun e => Failed (f e)) r).
Definition gw_send (p : ClientPayload) : Op unit := fun c =>
  match gateway c with
  | None => (Panic, c)
  | Some g => let '(r, g) := send_envelope p g in
              (match r with Some e => Err (Failed (Network (NSend e))) | None => Ok tt end, set_conn c (Some g))
  end.
Definition gw_poll : Op (option (GatewayTransportError + ServerPayload)) := fun c =>
  match gateway c with
  | None => (Panic, c)
  | Some g => let '(r, g) := recv_envelope g in (Ok r, set_conn c (Some g))
  end.
Definition gw_recv : Op ServerPayload :=
  let! r := gw_poll in
  match r with
  | None => slift (Err Pending)
  | Some (inl e) => fail (Network (NRecv e))
  | Some (inr p) => sret p
  end.

(** An operation on the locked group, or on the locked group and ratchet, of a chat. *)
Definition on_group {A E} (f : E -> ClientError) (chat : list byte) (g : Mls.UmbrellaGroup) (m : st Mls.UmbrellaGroup E A) : Op A := fun c =>
  let '(r, g) := m g in (rmap_err (fun e => Failed (f e)) r, set_chat c (<[chat := g]> (groups c)) (ratchet_states c)).
Definition on_chat {A} (chat : list byte) (s : MaxRatchet.MaxRatchetState) (g : Mls.UmbrellaGroup) (m : st MaxRatchet.Pair Mls.MlsError A) : Op A := fun c =>
  let '(r, (s, g)) := m (s, g) in
  (rmap_err (fun e => Failed (MlsFailed e)) r, set_chat c (<[chat := g]> (groups c)) (<[chat := s]> (ratchet_states c))).

Definition SERVER_MSG_ID_HEX_LEN : Z := 32.
Definition parse_peer_id_from_bytes (bytes : list byte) : res ClientError (list byte) :=
  reject negb (len bytes =? 32) with Network (NPeerIdLen (len bytes)) ;;
  Ok bytes.
Definition decode_server_msg_id (hex_str : list byte) : res ClientError (list byte) :=
  reject negb (len hex_str =? SERVER_MSG_ID_HEX_LEN) with Network (NMsgIdLen (len hex_str)) ;;
  let? bytes := ok_or (hex_decode hex_str) (Network NMsgIdNotHex) in
  reject negb (len bytes =? 16) with Network (NMsgIdBytes (len bytes)) ;;
  Ok bytes.

(** ** Messages over MLS *)
Definition ZERO_MESSAGE_ID : list byte := replicate 16 Byte.x00.
Definition send_and_ack (to_user_id ciphertext : list byte) : Op (list byte) :=
  let! _ := gw_send (SendMessage to_user_id ciphertext) in
  let! frame := gw_recv in
  match frame with
  | SendAck id => slift (rmap_err Failed (decode_server_msg_id id))
  | SError code => fail (Network (NRejected code))
  | other => fail (Network (NUnexpected other))
  end.

Definition send_mls_text (chat text : list byte) (now_unix : Z) : Op (list byte) :=
  let! c := sget in
  match gateway c with
  | None => sret ZERO_MESSAGE_ID
  | Some _ =>
      let ks := ks_mls (mls_keystore c) in
      let! ciphertext :=
        match get_group c chat with
        | Some g =>
            match get_ratchet_state c chat with
            | Some s => on_chat chat s g (MaxRatchet.seal_text (providers c) ks text now_unix)
            | None => on_group MlsFailed chat g (Mls.encrypt_application (MaxRatchet.mls_provider (providers c)) ks text)
            end
        | None => sret text
        end in
      send_and_ack chat ciphertext
  end.

(** The text of a ciphertext of a chat; without a registered group, the bytes themselves.
    [None] is a message dropped for failing authentication. *)
Definition decrypt_text (chat ciphertext : list byte) : Op (option (list byte)) := fun c =>
  match get_group c chat with
  | None => (Ok (Some (lossy ciphertext)), c)
  | Some g =>
      let '(r, g) := MaxRatchet.decrypt_text_with_fallback lossy (providers c) ciphertext g in
      (match r with Ok t => Ok (Some t) | Err MaxRatchet.SpqrAuthFailed => Ok None | Panic => Panic end,
       set_chat c (<[chat := g]> (groups c)) (ratchet_states c))
  end.

(** One incoming frame of either inbox; [open] gives its sender and its MLS ciphertext. *)
Definition receive_one (chat : list byte) (open : ClientCore -> list byte -> list byte -> res ClientError (list byte * list byte))
  (from ciphertext : list byte) (ts : Z) (id : list byte) : Op (option DecryptedMessage) :=
  let! message_id := slift (rmap_err Failed (decode_server_msg_id id)) in
  let! c := sget in
  let! (sender, mls_ciphertext) := slift (rmap_err Failed (open c from ciphertext)) in
  let! t := decrypt_text chat mls_ciphertext in
  sret ((fun t => {| message_id := message_id; chat_id := chat; dm_sender := sender; timestamp := ts; text := t |}) <$> t).

(** The receive loop: it ends when no frame arrives in time; [fuel] bounds the frames read. *)
Fixpoint drain (fuel : nat) (what : string) (one : list byte -> list byte -> Z -> list byte -> Op (option DecryptedMessage))
  (out : list DecryptedMessage) : Op (list DecryptedMessage) :=
  match fuel with
  | O => slift (Err Pending)
  | S fuel =>
      let! r := gw_poll in
      match r with
      | None => sret out
      | Some (inl e) => fail (Network (NInbox what e))
      | Some (inr (IncomingMessage from ct ts id)) =>
          let! m := one from ct ts id in
          drain fuel what one (out ++ option_list m)
      | Some (inr _) => drain fuel what one out
      end
  end.

Definition open_plain (_ : ClientCore) (from ciphertext : list byte) : res ClientError (list byte * list byte) :=
  let? sender := parse_peer_id_from_bytes from in Ok (sender, ciphertext).
Definition fetch_mls_inbox (fuel : nat) (chat : list byte) : Op (list DecryptedMessage) :=
  let! c := sget in
  match gateway c with
  | None => sret []
  | Some _ => drain fuel "fetch_mls_inbox" (receive_one chat open_plain) []
  end.

(** ** Groups *)
Definition create_mls_group (ciphersuite_raw now_unix : Z) : Op (list byte) :=
  let! cs := lift MlsFailed (Mls.from_raw_id ciphersuite_raw) in
  let! c := sget in
  let '(chat, r) := Pq.fill_bytes 32 (rng c) in
  let! _ := sput (set_rng c r) in
  let ps := providers c in
  let provider := if Mls.is_post_quantum_hybrid cs then default (MaxRatchet.mls_provider ps) (MaxRatchet.pq_provider ps)
                  else MaxRatchet.mls_provider ps in
  let! group := lift MlsFailed (Mls.create_private provider (ks_mls (mls_keystore c)) 0 cs chat now_unix) in
  let! c := sget in
  let! _ := sput (register_group c chat group) in
  sret chat.

Definition mls_add_member (chat peer key_package_bytes : list byte) (now_unix : Z) : Op (list byte) :=
  let! c := sget in
  let! g := slift (ok_or (get_group c chat) (Failed (MlsFailed (Mls.GroupOperation "add_member: no MLS group registered for chat_id")))) in
  let! kp_in := lift MlsFailed (Mls.parse_key_package_safe key_package_bytes) in
  let provider := MaxRatchet.mls_provider (providers c) in
  let! kp := slift (ok_or (key_package_validate provider kp_in)
    (Failed (MlsFailed (Mls.KeyPackageError "KeyPackageIn::validate failed (signature, capabilities, or lifetime)")))) in
  let cred_bytes := key_package_credential kp in
  fail_if (len cred_bytes <? 32) || negb (bool_decide (take 32 cred_bytes = peer))
    with Failed (MlsFailed (Mls.KeyPackageError "KeyPackage credential.identity_pk does not match peer parameter")) ;;
  let! outcome := on_group MlsFailed chat g (Mls.add_members provider (ks_mls (mls_keystore c)) [kp] now_unix) in
  let! welcome := slift (ok_or (Mls.mc_welcome outcome)
    (Failed (MlsFailed (Mls.GroupOperation "add_members returned no Welcome (Add proposal did not produce new member)")))) in
  let! c := sget in
  let! _ := sput (push_welcome c peer welcome) in
  sret welcome.

Definition open_mls_group_from_welcome (welcome_bytes : list byte) (now_unix : Z) : Op (list byte * Z) :=
  let! c := sget in
  let! group := lift MlsFailed (Mls.join_from_welcome (MaxRatchet.mls_provider (providers c)) (ks_mls (mls_keystore c)) 0
                                  welcome_bytes Mls.Private now_unix) in
  let chat := group_id (Mls.inner group) in
  fail_if negb (len chat =? 32) with Failed (MlsFailed (Mls.GroupOperation
    "joined MLS GroupId is not the canonical 32-byte shape used by facade::create_mls_group")) ;;
  let! _ := sput (register_group c chat group) in
  sret (chat, Mls.raw_id (Mls.ciphersuite group)).

(** ** Cloud history *)
Definition own_identity (c : ClientCore) : list byte := Mls.identity_public (ks_mls (mls_keystore c)).
Definition history_aad (sender recipient chat : list byte) (seq : Z) : CloudWire.CanonicalAad :=
  {| CloudWire.sender_identity_pubkey := sender; CloudWire.recipient_device_pubkey := recipient;
     CloudWire.chat_id := chat; CloudWire.msg_seq := seq |}.

(** Encryption fails only for texts of more than 2^38 bytes; it is total here. *)
Definition cloud_publish_at_rest (chat plaintext id : list byte) (now_millis : Z) : Op unit :=
  let! c := sget in
  let sender_pk := own_identity c in
  let! seq := next_cloud_msg_seq chat in
  let! c := sget in
  let '(message_key, r) := Pq.fill_bytes CloudWire.MESSAGE_KEY_LEN (rng c) in
  let aad := history_aad sender_pk sender_pk chat seq in
  let '(w, r) := wrap_message_key (wrapping_params c) message_key aad r in
  let! _ := sput (set_rng c r) in
  let! wk := lift Backup w in
  let nonce := CloudWire.canonical_nonce chat seq in
  let ct := CloudWire.chacha_encrypt message_key nonce plaintext (CloudWire.canonical_bytes aad) in
  let! c := sget in
  sput (push_cloud_history c chat {| msg_id := id; sender := sender_pk; sent_ts_ms := now_millis; msg_seq := seq;
                                     ciphertext_at_rest := ct; wrapped_key := wk |}).

Definition sync_request (own chat : list byte) (e : CloudHistoryEntry) : res BackupError CloudRequest.SignedUnwrapRequest :=
  let? attestation := CloudRequest.attestation_new CloudRequest.Testing (bytes_of_string "facade-cloud-sync-stub") in
  Ok {| CloudRequest.ephemeral_r := CloudWire.ephemeral_r (wrapped_key e); CloudRequest.chat_id := chat;
        CloudRequest.recipient_device_pubkey := own; CloudRequest.timestamp_unix_millis := sent_ts_ms e;
        CloudRequest.server_nonce := replicate 32 Byte.x00; CloudRequest.attestation := attestation;
        CloudRequest.device_signature := replicate 64 Byte.x00; CloudRequest.device_pubkey := own |}.
Definition dispatch (req : CloudRequest.SignedUnwrapRequest) : Op (list CloudWire.ServerUnwrapShare) := fun c =>
  let '(r, u) := unwrap_dispatch req (unwrap_transport c) in
  (rmap_err (fun e => Failed (Backup e)) r, set_transport c u).

Fixpoint sync_entries (own chat : list byte) (entries : list CloudHistoryEntry) : Op (list DecryptedMessage) :=
  match entries with
  | [] => sret []
  | e :: rest =>
      let aad := history_aad (sender e) own chat (msg_seq e) in
      let! request := lift Backup (sync_request own chat e) in
      let! shares := dispatch request in
      let! c := sget in
      let! message_key := lift Backup (unwrap_message_key (wrapping_params c) (wrapped_key e) aad shares) in
      let nonce := CloudWire.canonical_nonce chat (msg_seq e) in
      let! plaintext := slift (ok_or (CloudWire.chacha_decrypt message_key nonce (ciphertext_at_rest e) (CloudWire.canonical_bytes aad))
                                     (Failed (Backup AeadDecryptFailed))) in
      let! out := sync_entries own chat rest in
      sret ({| message_id := msg_id e; chat_id := chat; dm_sender := sender e; timestamp := sent_ts_ms e; text := lossy plaintext |} :: out)
  end.
Definition cloud_sync_history_impl (chat : list byte) (since : option Z) : Op (list DecryptedMessage) :=
  let! c := sget in
  let '(entries, c) := drain_cloud_history c chat (default 0 since) in
  let! _ := sput c in
  sync_entries (own_identity c) chat entries.

(** ** Sealed-sender chats *)
Definition sealed_sender_seal_for_secret (recipient_x25519 mls_ciphertext : list byte) : Op (list byte) := fun c =>
  let '(r, g) := SealedSender.seal (ks_sealed (mls_keystore c)) recipient_x25519 mls_ciphertext (rng c) in
  (rmap_err (fun e => Failed (SealedSenderFailed e)) r, set_rng c g).
Definition sealed_sender_unseal_for_secret (c : ClientCore) (wire : list byte) : res ClientError (list byte * list byte) :=
  let? opened := rmap_err SealedSenderFailed (SealedSender.unseal (ks_sealed (mls_keystore c)) wire) in
  Ok (SealedSender.sender_identity opened, SealedSender.message opened).

(** One envelope per peer; the id of the first acknowledgement is kept. *)
Fixpoint send_peers (mls_ciphertext : list byte) (peers : list (list byte)) (first : option (list byte)) : Op (list byte) :=
  match peers with
  | [] => sret (default ZERO_MESSAGE_ID first)
  | peer :: rest =>
      let! c := sget in
      let! peer_x25519 := slift (ok_or (lookup_peer_x25519 c peer) (Failed (SealedSenderFailed (SealedSender.Malformed
        "no X25519 pubkey registered for group member (call ClientCore::register_peer_x25519 first; production: KT directory lookup wired session 8+)")))) in
      let! envelope := sealed_sender_seal_for_secret peer_x25519 mls_ciphertext in
      let! id := send_and_ack peer envelope in
      send_peers mls_ciphertext rest (Some (default id first))
  end.
Definition send_secret_text (chat text : list byte) : Op (list byte) :=
  let! c := sget in
  match gateway c with
  | None => sret ZERO_MESSAGE_ID
  | Some _ =>
      match get_group c chat with
      | None => send_and_ack chat text
      | Some g =>
          let! mls_ciphertext :=
            on_group MlsFailed chat g (Mls.encrypt_application (MaxRatchet.mls_provider (providers c)) (ks_mls (mls_keystore c)) text) in
          let! c := sget in
          let member_identities := match get_group c chat with Some g => Mls.member_identities g | None => [] end in
          let peers := filter (fun m => m <> own_identity c) member_identities in
          if bool_decide (peers = []) then sret ZERO_MESSAGE_ID
          else send_peers mls_ciphertext peers None
      end
  end.

Definition open_sealed (c : ClientCore) (_ ciphertext : list byte) : res ClientError (list byte * list byte) :=
  sealed_sender_unseal_for_secret c ciphertext.
Definition fetch_secret_inbox (fuel : nat) (chat : list byte) : Op (list DecryptedMessage) :=
  let! c := sget in
  match gateway c with
  | None => sret []
  | Some _ => drain fuel "fetch_secret_inbox" (receive_one chat open_sealed) []
  end.

(** ** The facades; a chat value is its id and effective ciphersuite *)
Definition chat_open (c : ClientCore) (chat : list byte) : list byte * Z := (chat, default_ciphersuite c).
Definition chat_create (ciphersuite : option Z) (now_unix : Z) : Op (list byte * Z) :=
  let! c := sget in
  let effective_ciphersuite := default (default_ciphersuite c) ciphersuite in
  let! chat := create_mls_group effective_ciphersuite now_unix in
  sret (chat, effective_ciphersuite).
Definition cloud_send_text (chat text : list byte) (now_unix now_millis : Z) : Op (list byte) :=
  let! id := send_mls_text chat text now_unix in
  if bool_decide (id = ZERO_MESSAGE_ID) then sret id
  else
    let! _ := cloud_publish_at_rest chat text id now_millis in
    sret id.

(** ** Invariant of the state

    Every chat with a group has a ratchet, and the history of a chat holds distinct sequence
    numbers below its counter. *)
Definition counter (c : ClientCore) (chat : list byte) : Z := default 0 (cloud_msg_seq_counters c !! chat).
Definition history (c : ClientCore) (chat : list byte) : list CloudHistoryEntry := default [] (cloud_history c !! chat).
Record core_wf (c : ClientCore) : Prop := {
  wf_aligned : dom (groups c) = dom (ratchet_states c);
  wf_counter : forall chat, 0 <= counter c chat <= U64_MAX;
  wf_seqs : forall chat, NoDup (msg_seq <$> history c chat);
  wf_below : forall chat e, e ∈ history c chat -> 0 <= msg_seq e < counter c chat
}.

(** [m] keeps the invariant from the state [c]. *)
Definition keeps {A} (m : Op A) (c : ClientCore) : Prop := core_wf c -> core_wf (m c).2.

Lemma keeps_bind {A B} (m : Op A) (k : A -> Op B) c :
  keeps m c -> (forall a c', keeps (k a) c') -> keeps (sbind m k) c.
Proof.
  intros Hm Hk Hw. unfold sbind. specialize (Hm Hw). destruct (m c) as [[a|e|] c']; [by apply Hk|done..].
Qed.
Lemma keeps_slift {A} (r : res Stop A) c : keeps (slift r) c.
Proof. by intros ?. Qed.
Lemma keeps_fail {A} e c : keeps (A := A) (fail e) c.
Proof. by intros ?. Qed.
Lemma keeps_sret {A} (a : A) c : keeps (sret a) c.
Proof. by intros ?. Qed.
Lemma keeps_slift_bind {A B} (r : res Stop A) (k : A -> Op B) c :
  (forall a, keeps (k a) c) -> keeps (sbind (slift r) k) c.
Proof. intros Hk. unfold keeps, sbind, slift. destruct r; [apply Hk|done..]. Qed.
Lemma keeps_ok_bind {A B} (a : A) (k : A -> Op B) c : keeps (k a) c -> keeps (sbind (slift (Ok a)) k) c.
Proof. done. Qed.
Lemma keeps_get {A} (k : ClientCore -> Op A) c : keeps (k c) c -> keeps (sbind sget k) c.
Proof. done. Qed.
Lemma keeps_put (c' c : ClientCore) : (core_wf c -> core_wf c') -> keeps (sput c') c.
Proof. intros Hf ?. by apply Hf. Qed.
Lemma keeps_put_bind {A} (c' c : ClientCore) (k : unit -> Op A) :
  (core_wf c -> core_wf c') -> keeps (k tt) c' -> keeps (sbind (sput c') k) c.
Proof. intros Hf Hk ?. by apply Hk, Hf. Qed.
Lemma keeps_guard {A} b e (k : Op A) c : keeps k c -> keeps (sguard b e k) c.
Proof. intros Hk. unfold sguard. destruct b; [|done]. by intros ?. Qed.

Lemma wf_set_conn c g : core_wf c -> core_wf (set_conn c g).
Proof. intros [H1 H2 H3 H4]. split; [exact H1|exact H2|exact H3|exact H4]. Qed.
Lemma wf_set_rng c r : core_wf c -> core_wf (set_rng c r).
Proof. intros [H1 H2 H3 H4]. split; [exact H1|exact H2|exact H3|exact H4]. Qed.
Lemma wf_set_transport c u : core_wf c -> core_wf (set_transport c u).
Proof. intros [H1 H2 H3 H4]. split; [exact H1|exact H2|exact H3|exact H4]. Qed.
Lemma wf_set_peers c d w : core_wf c -> core_wf (set_peers c d w).
Proof. intros [H1 H2 H3 H4]. split; [exact H1|exact H2|exact H3|exact H4]. Qed.
Lemma wf_set_chat c gs rs : dom gs = dom rs -> core_wf c -> core_wf (set_chat c gs rs).
Proof. intros Hd [_ H2 H3 H4]. split; [exact Hd|exact H2|exact H3|exact H4]. Qed.
Lemma wf_push_welcome c p w : core_wf c -> core_wf (push_welcome c p w).
Proof. apply wf_set_peers. Qed.
Lemma wf_register c chat g : core_wf c -> core_wf (register_group c chat g).
Proof. intros Hw. apply wf_set_chat; [|done]. rewrite !dom_insert_L. by rewrite (wf_aligned c Hw). Qed.

(** Writing back a group and ratchet of the chat that were there. *)
Lemma wf_update c chat (g g' : Mls.UmbrellaGroup) :
  groups c !! chat = Some g -> core_wf c -> core_wf (set_chat c (<[chat := g']> (groups c)) (ratchet_states c)).
Proof.
  intros Hg Hw. apply wf_set_chat; [|done]. rewrite dom_insert_L, <- (wf_aligned c Hw).
  apply subseteq_union_1_L, singleton_subseteq_l. by apply elem_of_dom.
Qed.

Lemma wf_next_seq chat c : keeps (next_cloud_msg_seq chat) c.
Proof.
  intros Hw. unfold next_cloud_msg_seq. pose proof (wf_counter c Hw chat) as Hr. fold (counter c chat).
  assert (Hx : forall n, counter c chat <= n <= U64_MAX ->
    core_wf (set_cloud c (<[chat := n]> (cloud_msg_seq_counters c)) (cloud_history c))).
  { intros n Hn. destruct Hw as [Ha Hc Hs Hb]. split; [done| |done|].
    - intros ch. unfold counter. cbn [cloud_msg_seq_counters set_cloud].
      destruct (decide (ch = chat)) as [->|]; [rewrite lookup_insert_eq; cbn; lia|rewrite lookup_insert_ne by done; apply Hc].
    - intros ch e He. specialize (Hb ch e He). unfold counter in *. cbn [cloud_msg_seq_counters set_cloud].
      destruct (decide (ch = chat)) as [->|]; [rewrite lookup_insert_eq; cbn; lia|by rewrite lookup_insert_ne]. }
  destruct (Z.eqb_spec (counter c chat) U64_MAX); apply Hx; lia.
Qed.

Lemma keeps_gw_send p c : keeps (gw_send p) c.
Proof. intros Hw. unfold gw_send. destruct (gateway c); [|done]. destruct (send_envelope _ _). by apply wf_set_conn. Qed.
Lemma keeps_gw_poll c : keeps gw_poll c.
Proof. intros Hw. unfold gw_poll. destruct (gateway c); [|done]. destruct (recv_envelope _). by apply wf_set_conn. Qed.
Lemma keeps_gw_recv c : keeps gw_recv c.
Proof.
  apply keeps_bind; [apply keeps_gw_poll|]. intros [[?|?]|] ?; apply keeps_slift || apply keeps_sret.
Qed.
Lemma keeps_send_and_ack to ct c : keeps (send_and_ack to ct) c.
Proof.
  apply keeps_bind; [apply keeps_gw_send|]. intros _ c1. apply keeps_bind; [apply keeps_gw_recv|].
  intros [] ?; apply keeps_slift.
Qed.
Lemma keeps_on_group {A E} (f : E -> ClientError) chat g (m : st Mls.UmbrellaGroup E A) c :
  groups c !! chat = Some g -> keeps (on_group f chat g m) c.
Proof. intros Hg Hw. unfold on_group. destruct (m g). by eapply wf_update. Qed.
Lemma keeps_on_chat {A} chat s g (m : st MaxRatchet.Pair Mls.MlsError A) c :
  groups c !! chat = Some g -> keeps (on_chat chat s g m) c.
Proof.
  intros Hg Hw. unfold on_chat. destruct (m (s, g)) as [r [s' g']].
  apply wf_set_chat; [|done]. rewrite !dom_insert_L. by rewrite (wf_aligned c Hw).
Qed.
#[local] Hint Resolve keeps_slift keeps_fail keeps_sret keeps_gw_send keeps_gw_poll keeps_gw_recv keeps_send_and_ack wf_set_conn wf_set_rng
  wf_set_transport wf_set_peers wf_push_welcome wf_register wf_next_seq keeps_on_group keeps_on_chat : core.

Ltac keep_step :=
  match goal with
  | |- keeps (sbind sget _) _ => apply keeps_get
  | |- keeps (sbind (slift _) _) _ => apply keeps_slift_bind; intros
  | |- keeps (sbind (lift _ _) _) _ => apply keeps_slift_bind; intros
  | |- keeps (sbind (sput _) _) _ => apply keeps_put_bind; [by auto|]
  | |- keeps (sput _) _ => apply keeps_put; by auto
  | |- keeps (sguard _ _ _) _ => apply keeps_guard
  | |- keeps (sbind _ _) _ => apply keeps_bind; [by eauto|intros]
  | |- keeps (let '(_, _) := ?x in _) _ => destruct x eqn:?
  | |- keeps (if ?b then _ else _) _ => destruct b eqn:?
  | |- keeps (match ?x with _ => _ end) _ => destruct x eqn:?
  | |- keeps _ _ => by eauto
  end.

Lemma keeps_send_mls chat t now c : keeps (send_mls_text chat t now) c.
Proof.
  unfold send_mls_text, get_group, get_ratchet_state. repeat keep_step.
  apply keeps_bind; [|intros; apply keeps_send_and_ack].
  repeat keep_step.
Qed.
Lemma keeps_decrypt chat ct c : keeps (decrypt_text chat ct) c.
Proof.
  intros Hw. unfold decrypt_text, get_group. destruct (groups c !! chat) as [g|] eqn:Hg; [|done].
  destruct (MaxRatchet.decrypt_text_with_fallback _ _ _ _). by eapply wf_update.
Qed.
Lemma keeps_receive chat opn from ct ts id c : keeps (receive_one chat opn from ct ts id) c.
Proof. unfold receive_one. repeat keep_step. apply keeps_bind; [apply keeps_decrypt|auto]. Qed.
Lemma keeps_drain fuel what one c out : (forall f ct ts id c, keeps (one f ct ts id) c) -> keeps (drain fuel what one out) c.
Proof.
  intros Ho. revert c out. induction fuel as [|fuel IH]; intros c out; cbn [drain]; [auto|].
  apply keeps_bind; [auto|]. intros [[?|[]]|] ?; try (by auto). apply keeps_bind; [apply Ho|auto].
Qed.
Lemma keeps_fetch chat opn what fuel c : keeps (drain fuel what (receive_one chat opn) []) c.
Proof. apply keeps_drain. intros. apply keeps_receive. Qed.
Lemma keeps_create suite now c : keeps (create_mls_group suite now) c.
Proof. unfold create_mls_group. repeat keep_step. Qed.
Lemma keeps_add chat peer kp now c : keeps (mls_add_member chat peer kp now) c.
Proof.
  unfold mls_add_member, get_group. apply keeps_get. destruct (groups c !! chat) as [g|] eqn:Hg; [|by intros ?].
  apply (keeps_ok_bind g). repeat keep_step.
Qed.
Lemma keeps_welcome w now c : keeps (open_mls_group_from_welcome w now) c.
Proof. unfold open_mls_group_from_welcome. repeat keep_step. Qed.
Lemma keeps_send_peers ct peers first c : keeps (send_peers ct peers first) c.
Proof.
  revert first c. induction peers as [|p ps IH]; intros first c; cbn [send_peers]; [auto|].
  apply keeps_get, keeps_slift_bind. intros x. apply keeps_bind; [|intros; apply keeps_bind; auto].
  intros Hw. unfold sealed_sender_seal_for_secret. destruct (SealedSender.seal _ _ _ _). by apply wf_set_rng.
Qed.
Lemma keeps_send_secret chat t c : keeps (send_secret_text chat t) c.
Proof.
  unfold send_secret_text, get_group. apply keeps_get. destruct (gateway c); [|auto].
  destruct (groups c !! chat) as [g|] eqn:Hg; [|auto]. apply keeps_bind; [auto|]. intros ct c1.
  apply keeps_get. case_bool_decide; [auto|apply keeps_send_peers].
Qed.

(** Publishing appends one entry with the counter's value, and the counter moves past it. *)
Lemma publish_cases chat t id now c :
  (cloud_publish_at_rest chat t id now c).1 = Ok tt -> core_wf c ->
  exists e, history (cloud_publish_at_rest chat t id now c).2 chat = history c chat ++ [e] /\ msg_seq e = counter c chat.
Proof.
  intros Hok Hw. unfold cloud_publish_at_rest, sbind, sget, sput, lift, slift, next_cloud_msg_seq in *. fold (counter c chat) in *.
  destruct (counter c chat =? U64_MAX); [done|]. destruct (Pq.fill_bytes _ _) as [mk r1].
  destruct (wrap_message_key _ _ _ _) as [[w|e|] r2]; cbn [rmap_err] in *; [|done..].
  eexists. unfold history. cbn [snd cloud_history set_rng set_cloud push_cloud_history]. rewrite lookup_insert_eq.
  split; reflexivity.
Qed.

Lemma keeps_publish chat t id now c : keeps (cloud_publish_at_rest chat t id now) c.
Proof.
  intros Hw. unfold cloud_publish_at_rest, sbind, sget, sput, lift, slift.
  pose proof (wf_next_seq chat c Hw) as Hw1. revert Hw1. unfold next_cloud_msg_seq. fold (counter c chat).
  destruct (Z.eqb_spec (counter c chat) U64_MAX) as [Hmax|Hmax]; [done|]. cbn [snd]. intros Hw1.
  destruct (Pq.fill_bytes _ _) as [mk r1]. destruct (wrap_message_key _ _ _ _) as [[w|e|] r2]; cbn [rmap_err snd]; [|by apply wf_set_rng..].
  destruct Hw1 as [Ha Hc Hs Hb]. split; [done|done|..]; intros ch; unfold history, counter in *;
    cbn [cloud_history cloud_msg_seq_counters set_rng set_cloud push_cloud_history] in *;
    (destruct (decide (ch = chat)) as [->|]; [|rewrite lookup_insert_ne by done; eauto]); rewrite lookup_insert_eq; cbn [default from_option Datatypes.id].
  - rewrite fmap_app. apply NoDup_app. split; [apply Hs|]. split; [|apply NoDup_singleton].
    intros q Hq. apply list_elem_of_fmap in Hq as (e & -> & He). cbn [fmap list_fmap]. rewrite list_elem_of_singleton. cbn [msg_seq].
    pose proof (wf_below c Hw chat e He) as Hx. unfold counter in Hx. lia.
  - intros e He. pose proof (wf_counter c Hw chat) as Hcc. unfold counter in Hcc. rewrite lookup_insert_eq. cbn [default from_option Datatypes.id].
    apply elem_of_app in He as [He|He]; [pose proof (wf_below c Hw chat e He) as Hx; unfold counter in Hx; lia|].
    apply list_elem_of_singleton in He as ->. cbn [msg_seq]. lia.
Qed.

Lemma keeps_sync_entries own chat es c : keeps (sync_entries own chat es) c.
Proof.
  revert c. induction es as [|e es IH]; intros c; cbn [sync_entries]; [auto|]. apply keeps_slift_bind. intros req.
  apply keeps_bind; [|intros; repeat keep_step].
  intros Hw. unfold dispatch. destruct (unwrap_dispatch _ _). by apply wf_set_transport.
Qed.
Lemma wf_drain_history c chat since : core_wf c -> core_wf (drain_cloud_history c chat since).2.
Proof.
  intros Hw. unfold drain_cloud_history. destruct (cloud_history c !! chat) as [es|] eqn:Hh; [|done]. cbn [snd].
  destruct Hw as [Ha Hc Hs Hb]. split; [done|done|..]; intros ch; unfold history in *; cbn [cloud_history set_cloud];
    (destruct (decide (ch = chat)) as [->|]; [|rewrite lookup_insert_ne by done; eauto]); rewrite lookup_insert_eq;
    specialize (Hs chat); specialize (Hb chat); rewrite Hh in *; cbn [default from_option Datatypes.id] in *.
  - eapply sublist_NoDup; [exact Hs|]. apply fmap_sublist, sublist_filter.
  - intros e He. apply list_elem_of_filter in He as [_ He]. by apply Hb.
Qed.
Lemma keeps_sync chat since c : keeps (cloud_sync_history_impl chat since) c.
Proof.
  unfold cloud_sync_history_impl. apply keeps_get. pose proof (wf_drain_history c chat (default 0 since)) as Hd.
  destruct (drain_cloud_history c chat (default 0 since)) as [es c1]. apply keeps_put_bind; [done|]. apply keeps_sync_entries.
Qed.

(** The operations of a client, with the state each leaves, whether it succeeds or not. *)
Inductive cl_op :=
| OCreate (suite : option Z) (now : Z) | OJoin (welcome : list byte) (now : Z) | OAdd (chat peer kp : list byte) (now : Z)
| OSendCloud (chat t : list byte) (now millis : Z) | OFetchCloud (fuel : nat) (chat : list byte) | OSync (chat : list byte) (since : option Z)
| OSendSecret (chat t : list byte) | OFetchSecret (fuel : nat) (chat : list byte) | OUnregister (chat : list byte)
| OPeer (peer x : list byte) | OWelcomes (peer : list byte) | OConnect (g : Conn) | ODisconnect | OKeystore (k : KeyStores).
Definition run_op (op : cl_op) (c : ClientCore) : ClientCore :=
  match op with
  | OCreate suite now => (chat_create suite now c).2
  | OJoin w now => (open_mls_group_from_welcome w now c).2
  | OAdd chat peer kp now => (mls_add_member chat peer kp now c).2
  | OSendCloud chat t now ms => (cloud_send_text chat t now ms c).2
  | OFetchCloud fuel chat => (fetch_mls_inbox fuel chat c).2
  | OSync chat since => (cloud_sync_history_impl chat since c).2
  | OSendSecret chat t => (send_secret_text chat t c).2
  | OFetchSecret fuel chat => (fetch_secret_inbox fuel chat c).2
  | OUnregister chat => (unregister_group c chat).2
  | OPeer p x => register_peer_x25519 c p x
  | OWelcomes p => (fetch_pending_welcomes c p).2
  | OConnect g => set_gateway c g
  | ODisconnect => clear_gateway c
  | OKeystore k => swap_mls_keystore c k
  end.
Definition cl_step (c c' : ClientCore) : Prop := exists op, c' = run_op op c.
Definition fresh (c : ClientCore) : Prop :=
  groups c = ∅ /\ ratchet_states c = ∅ /\ cloud_msg_seq_counters c = ∅ /\ cloud_history c = ∅.

Lemma fresh_wf c : fresh c -> core_wf c.
Proof.
  intros (Hg & Hr & Hc & Hh). split; unfold counter, history; rewrite ?Hg, ?Hr, ?Hc, ?Hh.
  - set_solver.
  - intros chat. rewrite lookup_empty. done.
  - intros chat. rewrite lookup_empty. apply NoDup_nil_2.
  - intros chat e. rewrite lookup_empty. cbn. set_solver.
Qed.
Lemma step_wf op c : core_wf c -> core_wf (run_op op c).
Proof.
  intros Hw. destruct op; cbn [run_op].
  - unfold chat_create. revert Hw. apply keeps_get, keeps_bind; [apply keeps_create|auto].
  - by apply keeps_welcome.
  - by apply keeps_add.
  - revert Hw. apply keeps_bind; [apply keeps_send_mls|]. intros id c'. case_bool_decide; [auto|].
    apply keeps_bind; [apply keeps_publish|auto].
  - revert Hw. apply keeps_get. destruct (gateway c); [apply keeps_fetch|auto].
  - by apply keeps_sync.
  - by apply keeps_send_secret.
  - revert Hw. apply keeps_get. destruct (gateway c); [apply keeps_fetch|auto].
  - apply wf_set_chat; [|done]. rewrite !dom_delete_L. by rewrite (wf_aligned c Hw).
  - by apply wf_set_peers.
  - unfold fetch_pending_welcomes, drain_welcomes_for. destruct (welcome_inbox c !! _); [by apply wf_set_peers|done].
  - by apply wf_set_conn.
  - by apply wf_set_conn.
  - destruct Hw as [H1 H2 H3 H4]. split; [exact H1|exact H2|exact H3|exact H4].
Qed.

(** C15. In every state a client reaches, a chat has a group exactly when it has a ratchet, so every
    text of a group chat goes through the ratchet, and the stored history of a chat holds
    distinct sequence numbers below the chat's counter, so no two of its entries were encrypted
    with one nonce input and the next entry differs from all of them. *)
Theorem client_state_invariant c0 c chat :
  fresh c0 -> rtc cl_step c0 c ->
  (is_Some (get_group c chat) <-> is_Some (get_ratchet_state c chat)) /\
  NoDup (msg_seq <$> history c chat) /\
  (forall e, e ∈ history c chat -> 0 <= msg_seq e < counter c chat) /\
  (forall t id now, (cloud_publish_at_rest chat t id now c).1 = Ok tt ->
     exists e, history (cloud_publish_at_rest chat t id now c).2 chat = history c chat ++ [e] /\ msg_seq e = counter c chat).
Proof.
  intros Hf Hr. assert (Hw : core_wf c).
  { apply fresh_wf in Hf. induction Hr as [|x y z [op ->] _ IH]; [done|]. by apply IH, step_wf. }
  split; [unfold get_group, get_ratchet_state; rewrite <- !elem_of_dom, (wf_aligned c Hw); done|].
  split; [apply (wf_seqs c Hw)|]. split; [intros; by eapply wf_below|]. intros t id now Hp. by apply publish_cases.
Qed.

(** ** Receiving *)

(** The connection delivers the frames [l] and then nothing in time. *)
Inductive feeds : Conn -> list ServerPayload -> Conn -> Prop :=
| feeds_nil g g' : recv_envelope g = (None, g') -> feeds g [] g'
| feeds_cons g p g1 l g' : recv_envelope g = (Some (inr p), g1) -> feeds g1 l g' -> feeds g (p :: l) g'.

(** What the inbox does with a list of frames, as a function of the frames and the state. *)
Fixpoint inbox (one : list byte -> list byte -> Z -> list byte -> Op (option DecryptedMessage)) (l : list ServerPayload)
  : Op (list DecryptedMessage) :=
  match l with
  | [] => sret []
  | IncomingMessage from ct ts id :: l =>
      let! m := one from ct ts id in
      let! rest := inbox one l in
      sret (option_list m ++ rest)
  | _ :: l => inbox one l
  end.

(** Processing a frame neither reads nor changes the connection. *)
Definition conn_free {A} (m : Op A) : Prop := forall c g, m (set_conn c g) = ((m c).1, set_conn (m c).2 g).
Lemma conn_free_bind {A B} (m : Op A) (k : A -> Op B) : conn_free m -> (forall a, conn_free (k a)) -> conn_free (sbind m k).
Proof. intros Hm Hk c g. unfold sbind. rewrite Hm. destruct (m c) as [[a|e|] c']; cbn [fst snd]; [apply Hk|done..]. Qed.
Lemma conn_free_slift {A} (r : res Stop A) : conn_free (slift r).
Proof. done. Qed.
Lemma conn_free_sret {A} (a : A) : conn_free (sret a).
Proof. done. Qed.

Lemma conn_free_get {A} (k : ClientCore -> Op A) :
  (forall c g, k (set_conn c g) = k c) -> (forall c, conn_free (k c)) -> conn_free (sbind sget k).
Proof. intros Hk Hf c g. unfold sbind, sget. rewrite Hk. apply Hf. Qed.
Lemma decrypt_conn_free chat ct : conn_free (decrypt_text chat ct).
Proof.
  intros c g. unfold decrypt_text, get_group. cbn [groups set_conn providers ratchet_states].
  destruct (groups c !! chat); [|done]. destruct (MaxRatchet.decrypt_text_with_fallback _ _ _ _) as [r g1]. done.
Qed.
Lemma receive_conn_free chat opn from ct ts id :
  (forall c g f x, opn (set_conn c g) f x = opn c f x) -> conn_free (receive_one chat opn from ct ts id).
Proof.
  intros Ho. unfold receive_one. apply conn_free_bind; [apply conn_free_slift|]. intros mid.
  apply conn_free_get; [intros c g; by rewrite Ho|]. intros c. apply conn_free_bind; [apply conn_free_slift|]. intros [sn' mc].
  apply conn_free_bind; [apply decrypt_conn_free|]. intros t. apply conn_free_sret.
Qed.

Lemma set_conn_set c g g' : set_conn (set_conn c g) g' = set_conn c g'.
Proof. done. Qed.
Lemma set_conn_id c g : gateway c = Some g -> set_conn c (Some g) = c.
Proof. destruct c. cbn. by intros ->. Qed.

Lemma poll_frame c g r g' : recv_envelope g = (r, g') -> gw_poll (set_conn c (Some g)) = (Ok r, set_conn c (Some g')).
Proof. intros Hr. unfold gw_poll. cbn [gateway set_conn]. by rewrite Hr. Qed.

(** The loop reads a prefix of the frames as the list function does and goes on with the rest. *)
Lemma drain_prefix one what l1 : (forall f ct ts id, conn_free (one f ct ts id)) ->
  forall g l2 g' c ms c1, feeds g (l1 ++ l2) g' -> inbox one l1 c = (Ok ms, c1) ->
  exists g1, feeds g1 l2 g' /\
    forall fuel out, drain (length l1 + fuel) what one out (set_conn c (Some g)) = drain fuel what one (out ++ ms) (set_conn c1 (Some g1)).
Proof.
  intros Hone. induction l1 as [|p l1 IH]; intros g l2 g' c ms c1 Hf Hi.
  { injection Hi as <- <-. exists g. split; [done|]. intros. by rewrite app_nil_r. }
  inversion Hf as [|? ? g1 ? ? Hrecv Hrest]; subst.
  assert (Hpoll : forall c, gw_poll (set_conn c (Some g)) = (Ok (Some (inr p)), set_conn c (Some g1))) by (intros; by apply poll_frame).
  assert (Hskip : inbox one l1 c = (Ok ms, c1) -> (forall fuel out, drain (S (length l1 + fuel)) what one out (set_conn c (Some g)) =
      drain (length l1 + fuel) what one out (set_conn c (Some g1))) ->
    exists g1, feeds g1 l2 g' /\ forall fuel out, drain (length (p :: l1) + fuel) what one out (set_conn c (Some g)) =
      drain fuel what one (out ++ ms) (set_conn c1 (Some g1))).
  { intros Hi2 Hd. destruct (IH _ _ _ _ _ _ Hrest Hi2) as (g2 & Hg2 & Hx). exists g2. split; [done|]. intros. cbn [length plus].
    by rewrite Hd, Hx. }
  destruct p as [a b|a| |a|a b|f ct ts id]; try (apply Hskip; [exact Hi|]; intros; cbn [drain]; unfold sbind; by rewrite Hpoll).
  cbn [inbox] in Hi. apply sbind_Ok in Hi as (m & c2 & Hm & Hi). apply sbind_Ok in Hi as (ms2 & c3 & Hi & [= <- <-]).
  destruct (IH _ _ _ _ _ _ Hrest Hi) as (g2 & Hg2 & Hx). exists g2. split; [done|]. intros fuel out. cbn [length plus drain].
  unfold sbind. rewrite Hpoll. cbn [fst snd]. rewrite Hone, Hm. cbn [fst snd]. rewrite Hx. by rewrite app_assoc.
Qed.

Lemma drain_ok one what l : (forall f ct ts id, conn_free (one f ct ts id)) ->
  forall g g' c ms c1 fuel, feeds g l g' -> inbox one l c = (Ok ms, c1) -> (length l < fuel)%nat ->
  drain fuel what one [] (set_conn c (Some g)) = (Ok ms, set_conn c1 (Some g')).
Proof.
  intros Hone g g' c ms c1 fuel Hf Hi Hlt.
  destruct (drain_prefix one what l Hone g [] g' c ms c1) as (g1 & Hg1 & Hd); [by rewrite app_nil_r|done|].
  replace fuel with (length l + S (fuel - length l - 1))%nat by lia. rewrite Hd. inversion Hg1 as [? ? Hr|]; subst.
  cbn [drain]. unfold sbind. by rewrite (poll_frame _ _ _ _ Hr).
Qed.

Lemma drain_stops one what l1 f ct ts id l2 : (forall f ct ts id, conn_free (one f ct ts id)) ->
  forall g g' c ms c1 e c2 fuel, feeds g (l1 ++ IncomingMessage f ct ts id :: l2) g' -> inbox one l1 c = (Ok ms, c1) ->
  one f ct ts id c1 = (Err e, c2) -> (length l1 < fuel)%nat ->
  exists g2, feeds g2 l2 g' /\ drain fuel what one [] (set_conn c (Some g)) = (Err e, set_conn c2 (Some g2)).
Proof.
  intros Hone g g' c ms c1 e c2 fuel Hf Hi He Hlt. destruct (drain_prefix one what l1 Hone g _ g' c ms c1 Hf Hi) as (g1 & Hg1 & Hd).
  inversion Hg1 as [|? ? g2 ? ? Hr Hg2]; subst. exists g2. split; [done|].
  replace fuel with (length l1 + S (fuel - length l1 - 1))%nat by lia. rewrite Hd.
  cbn [drain]. unfold sbind. rewrite (poll_frame _ _ _ _ Hr). by rewrite Hone, He.
Qed.

(** An inbox call on a connection that delivers frames and then falls silent returns exactly the
    messages of the list function, in order.  When a frame fails, the call returns that error
    alone: every message decrypted before it in the same call is dropped, and the frames after
    it stay in the connection.  One frame with a malformed id or sender is enough. *)
Theorem inbox_exact chat l g g' c ms c1 fuel :
  gateway c = Some g -> feeds g l g' -> (length l < fuel)%nat ->
  (inbox (receive_one chat open_plain) l c = (Ok ms, c1) -> fetch_mls_inbox fuel chat c = (Ok ms, set_conn c1 (Some g'))) /\
  (forall l1 f ct ts id l2, l = l1 ++ IncomingMessage f ct ts id :: l2 -> inbox (receive_one chat open_plain) l1 c = (Ok ms, c1) ->
     (is_Some (hex_decode id) -> len id <> 32) \/ len f <> 32 ->
     exists e g2, feeds g2 l2 g' /\ fetch_mls_inbox fuel chat c = (Err (Failed e), set_conn c1 (Some g2))).
Proof.
  intros Hg Hf Hlt. assert (Hone : forall f ct ts id, conn_free (receive_one chat open_plain f ct ts id)) by (intros; by apply receive_conn_free).
  assert (Hfetch : fetch_mls_inbox fuel chat c = drain fuel "fetch_mls_inbox" (receive_one chat open_plain) [] (set_conn c (Some g))).
  { unfold fetch_mls_inbox, sbind, sget. rewrite Hg. by rewrite set_conn_id. }
  rewrite Hfetch. split; [intros Hi; by eapply drain_ok|].
  intros l1 f ct ts id l2 -> Hi Hbad.
  assert (He : exists e, receive_one chat open_plain f ct ts id c1 = (Err (Failed e), c1)).
  { unfold receive_one, sbind, slift, sget, open_plain, parse_peer_id_from_bytes, decode_server_msg_id, SERVER_MSG_ID_HEX_LEN, rguard, ok_or.
    destruct (Z.eqb_spec (len id) 32) as [Hid|]; cbn [negb rmap_err]; [|by eexists].
    destruct (hex_decode id) as [b|]; cbn [rbind rmap_err]; [|by eexists].
    destruct Hbad as [Hbad|Hbad]; [exfalso; apply Hbad; eauto|].
    destruct (len b =? 16); cbn [negb rmap_err]; [|by eexists].
    rewrite (proj2 (Z.eqb_neq (len f) 32)) by done. cbn. by eexists. }
  destruct He as [e He]. rewrite length_app in Hlt. cbn in Hlt.
  destruct (drain_stops _ "fetch_mls_inbox" l1 f ct ts id l2 Hone g g' c ms c1 _ _ fuel Hf Hi He) as (g2 & Hg2 & Hd); [lia|]. eauto.
Qed.

(** ** Sending *)

(** The outcomes of handing an envelope over and waiting for the acknowledgement: the one frame
    that follows decides, and it is consumed whatever it is. *)
Lemma send_and_ack_exact to ct c g g1 p g2 :
  gateway c = Some g -> send_envelope (SendMessage to ct) g = (None, g1) -> recv_envelope g1 = (Some (inr p), g2) ->
  send_and_ack to ct c =
    (match p with
     | SendAck id => rmap_err Failed (decode_server_msg_id id)
     | SError code => Err (Failed (Network (NRejected code)))
     | p => Err (Failed (Network (NUnexpected p)))
     end, set_conn c (Some g2)).
Proof.
  intros Hg Hs Hr. unfold send_and_ack, gw_recv, sbind, gw_send. rewrite Hg, Hs. rewrite (poll_frame _ _ _ _ Hr). by destruct p.
Qed.

Lemma send_and_ack_Ok to ct c id c' :
  send_and_ack to ct c = (Ok id, c') ->
  exists g g1 g2 mid, gateway c = Some g /\ send_envelope (SendMessage to ct) g = (None, g1) /\
    recv_envelope g1 = (Some (inr (SendAck mid)), g2) /\ decode_server_msg_id mid = Ok id /\ c' = set_conn c (Some g2).
Proof.
  unfold send_and_ack. intros Hs. apply sbind_Ok in Hs as ([] & c1 & H1 & Hs). apply sbind_Ok in Hs as (p & c2 & H2 & Hs).
  unfold gw_send in H1. destruct (gateway c) as [g|] eqn:Hg; [|done]. destruct (send_envelope _ g) as [[e|] g1] eqn:Hse; [done|].
  injection H1 as <-. unfold gw_recv in H2. apply sbind_Ok in H2 as (r & c3 & H2 & H3). unfold gw_poll in H2.
  cbn [gateway set_conn] in H2. destruct (recv_envelope g1) as [r' g2] eqn:Hre. injection H2 as <- <-.
  destruct r' as [[e|p']|]; [done| |done]. injection H3 as <- <-. destruct p' as [a b|mid| |a|a b|a b d e]; try done.
  apply slift_Ok in Hs as [Hd ->]. exists g, g1, g2, mid. split; [done|]. split; [done|]. split; [done|].
  split; [|done]. destruct (decode_server_msg_id mid); [by apply Ok_inj in Hd as <-|done..].
Qed.

(** The ciphertext a text of a registered chat is sent as, and the chat's state after it. *)
Definition sealed_as (chat t : list byte) (now : Z) (c : ClientCore) (env : list byte) (p' : MaxRatchet.Pair) : Prop :=
  exists g s, get_group c chat = Some g /\ get_ratchet_state c chat = Some s /\
    MaxRatchet.seal_text (providers c) (ks_mls (mls_keystore c)) t now (s, g) = (Ok env, p').

Lemma send_mls_text_Ok chat t now c id c' :
  send_mls_text chat t now c = (Ok id, c') -> is_Some (gateway c) -> is_Some (get_group c chat) -> is_Some (get_ratchet_state c chat) ->
  exists env p' g g1, sealed_as chat t now c env p' /\ gateway c = Some g /\ send_envelope (SendMessage chat env) g = (None, g1) /\
    get_group c' chat = Some p'.2 /\ get_ratchet_state c' chat = Some p'.1 /\ is_Some (gateway c') /\
    providers c' = providers c /\ mls_keystore c' = mls_keystore c.
Proof.
  intros Hs [g0 Hg0] [g Hg] [s Hrs]. unfold send_mls_text, sbind at 1, sget in Hs. rewrite Hg0, Hg, Hrs in Hs.
  apply sbind_Ok in Hs as (env & c1 & He & Hs). unfold on_chat in He.
  destruct (MaxRatchet.seal_text _ _ _ _ _) as [r [s1 g1]] eqn:Hseal. injection He as He <-.
  destruct r as [e| |]; [|done..]. apply Ok_inj in He as ->.
  apply send_and_ack_Ok in Hs as (ga & gb & gc & mid & Hga & Hsend & _ & _ & ->). cbn [gateway set_chat] in Hga.
  exists env, (s1, g1), ga, gb. unfold get_group, get_ratchet_state. cbn [groups ratchet_states gateway set_conn set_chat fst snd].
  rewrite !lookup_insert_eq. split; [by exists g, s|]. by repeat split; eauto.
Qed.

(** ** A conversation *)
Section Conversation.
Context {OL : Mls.OpenMlsLaws OM} {SL : MaxRatchet.SpqrLaws} {EL : SealedSender.EnvelopeLaws}.

(** [a] sends the texts of the list, each handed over in its envelope, whose parts have sizes
    the bundle can carry. *)
Inductive says (chat : list byte) : ClientCore -> list (list byte * list byte) -> ClientCore -> Prop :=
| says_nil a : says chat a [] a
| says_cons a t now id a1 env p' l a2 :
    send_mls_text chat t now a = (Ok id, a1) -> sealed_as chat t now a env p' ->
    (forall g s out, get_group a chat = Some g -> get_ratchet_state a chat = Some s ->
       MaxRatchet.encrypt_with_rekey_authenticated (MaxRatchet.mls_provider (providers a)) (ks_mls (mls_keystore a)) t now (s, g) = (Ok out, p') ->
       MaxRatchet.fits out) ->
    says chat a1 l a2 -> says chat a ((t, env) :: l) a2.

(** The frames carry the envelopes in order, among frames of other kinds. *)
Inductive carries : list (list byte * list byte) -> list ServerPayload -> Prop :=
| carries_nil : carries [] []
| carries_msg t env s from ts id mid l : len from = 32 -> decode_server_msg_id id = Ok mid ->
    carries s l -> carries ((t, env) :: s) (IncomingMessage from env ts id :: l)
| carries_other s p l : match p with IncomingMessage _ _ _ _ => False | _ => True end -> carries s l -> carries s (p :: l).

(** Two clients in step in a classical chat: the suite is not the post-quantum one, and messages
    are authenticated.  In a post-quantum chat the receiver drops the messages sent with the
    post-quantum extension ([MaxRatchet.pq_extension_rejected]). *)
Definition in_step (chat : list byte) (a b : ClientCore) : Prop :=
  exists ga sa gb, get_group a chat = Some ga /\ get_ratchet_state a chat = Some sa /\ get_group b chat = Some gb /\
    is_Some (gateway a) /\ Mls.is_post_quantum_hybrid (Mls.ciphersuite ga) = false /\
    MaxRatchet.spqr_deniable_auth (MaxRatchet.config sa) = true /\
    Mls.synced (Mls.inner ga) (MaxRatchet.mls_provider (providers a)) (Mls.inner gb) (MaxRatchet.pq_dispatch (providers b) gb).

Lemma step_delivered chat t now id a a1 env p' b from ts mid m :
  in_step chat a b -> send_mls_text chat t now a = (Ok id, a1) -> sealed_as chat t now a env p' ->
  (forall g s out, get_group a chat = Some g -> get_ratchet_state a chat = Some s ->
       MaxRatchet.encrypt_with_rekey_authenticated (MaxRatchet.mls_provider (providers a)) (ks_mls (mls_keystore a)) t now (s, g) = (Ok out, p') ->
       MaxRatchet.fits out) ->
  len from = 32 -> decode_server_msg_id mid = Ok m ->
  exists b1, receive_one chat open_plain from env ts mid b =
      (Ok (Some {| message_id := m; chat_id := chat; dm_sender := from; timestamp := ts; text := lossy t |}), b1) /\ in_step chat a1 b1.
Proof.
  intros (ga & sa & gb & Hga & Hsa & Hgb & Hgw & Hcl & Hsp & Hsync) Hsend Hseal Hfits Hfrom Hmid.
  destruct (send_mls_text_Ok _ _ _ _ _ _ Hsend Hgw ltac:(eauto) ltac:(eauto)) as (env2 & p2 & g & g1 & Hseal2 & _ & _ & Hg1 & Hs1 & Hgw1 & Hps & _).
  destruct Hseal as (g0 & s0 & Hg0 & Hs0 & Hseal). destruct Hseal2 as (g2 & s2 & Hg2 & Hs2 & Hseal2).
  rewrite Hga in Hg0, Hg2. rewrite Hsa in Hs0, Hs2. injection Hg0 as <-. injection Hs0 as <-. injection Hg2 as <-. injection Hs2 as <-.
  rewrite Hseal in Hseal2. injection Hseal2 as <- <-.
  unfold MaxRatchet.seal_text, sbind at 1, sget in Hseal. cbn [snd] in Hseal. rewrite Hcl in Hseal.
  apply sbind_Ok in Hseal as (out & q & Henc & [= <- <-]).
  pose proof (MaxRatchet.authenticated_sent _ _ _ _ _ _ _ Henc) as [Hsent _].
  apply MaxRatchet.sent_keeps in Hsent as [Hcfg Hcs]. cbn [fst snd] in *.
  destruct (MaxRatchet.sent_text_read lossy (MaxRatchet.mls_provider (providers a)) (MaxRatchet.pq_dispatch (providers b) gb) (ks_mls (mls_keystore a)) t now
    (sa, ga) out q gb (providers b) Henc) as (gb1 & Hr & Hsy & _ & Hcsb); [by rewrite Hcfg|by eapply Hfits|done|done|].
  eexists. split.
  - unfold receive_one, sbind, slift, sget, open_plain, parse_peer_id_from_bytes, rguard. rewrite Hmid, (proj2 (Z.eqb_eq _ _) Hfrom). cbn [negb rmap_err rbind].
    unfold decrypt_text. rewrite Hgb. unfold MaxRatchet.wire in Hr. rewrite Hr. reflexivity.
  - exists q.2, q.1, gb1. unfold get_group in *. cbn [groups set_chat providers]. rewrite lookup_insert_eq, Hcfg, Hcs, Hps.
    unfold MaxRatchet.pq_dispatch in *. rewrite Hcsb. done.
Qed.

Lemma says_received chat a s a2 b l :
  says chat a s a2 -> carries s l -> in_step chat a b ->
  exists ms b', inbox (receive_one chat open_plain) l b = (Ok ms, b') /\ (text <$> ms) = lossy <$> s.*1 /\ in_step chat a2 b'.
Proof.
  intros Hsays Hc. revert a b Hsays. induction Hc as [|t env s from ts id mid l Hf Hd Hc IH|s p l Hp Hc IH]; intros a b Hsays Hst.
  - inversion Hsays; subst. by exists [], b.
  - inversion Hsays as [|? ? ? ? a1 ? p' ? ? Hsend Hseal Hfits Hrest]; subst.
    destruct (step_delivered chat t now id0 a a1 env p' b from ts id mid Hst Hsend Hseal Hfits Hf Hd) as (b1 & Hr & Hst1).
    destruct (IH a1 b1 Hrest Hst1) as (ms & b2 & Hi & Ht & Hst2). eexists _, b2.
    split; [cbn [inbox]; unfold sbind; rewrite Hr, Hi; reflexivity|]. split; [|done]. cbn. by rewrite Ht.
  - destruct (IH a b Hsays Hst) as (ms & b' & Hi & Hx). exists ms, b'. split; [|done]. by destruct p.
Qed.

(** C9. Whatever sequence of texts a client sends in a chat with a classical suite and
    authentication on, a client in step with it that receives their envelopes, in order and among any other frames, reads exactly those texts in that
    order from one inbox call, and the two are in step again. *)
Theorem conversation_delivered chat a s a2 b l g g' fuel :
  in_step chat a b -> says chat a s a2 -> carries s l -> gateway b = Some g -> feeds g l g' -> (length l < fuel)%nat ->
  exists ms b', fetch_mls_inbox fuel chat b = (Ok ms, b') /\ (text <$> ms) = lossy <$> s.*1 /\ in_step chat a2 b'.
Proof.
  intros Hst Hsays Hc Hg Hf Hl. destruct (says_received chat a s a2 b l Hsays Hc Hst) as (ms & b' & Hi & Ht & Hst').
  exists ms, (set_conn b' (Some g')). split; [|by split].
  unfold fetch_mls_inbox, sbind at 1, sget. rewrite Hg, <- (set_conn_id b g Hg).
  eapply drain_ok; [intros; by apply receive_conn_free|done..].
Qed.

(** *** Sealed-sender chats *)

(** A run of envelopes handed over one by one, each acknowledged before the next. *)
Inductive exchanges : Conn -> list (list byte * list byte) -> Conn -> Prop :=
| exchanges_nil g : exchanges g [] g
| exchanges_cons g to env g1 mid g2 l g' :
    send_envelope (SendMessage to env) g = (None, g1) -> recv_envelope g1 = (Some (inr (SendAck mid)), g2) ->
    exchanges g2 l g' -> exchanges g ((to, env) :: l) g'.

Lemma send_peers_Ok ct peers first c id c' g :
  gateway c = Some g -> send_peers ct peers first c = (Ok id, c') ->
  exists envs g', exchanges g envs g' /\ envs.*1 = peers /\
    forall peer env, (peer, env) ∈ envs -> exists x r r', lookup_peer_x25519 c peer = Some x /\
      SealedSender.seal (ks_sealed (mls_keystore c)) x ct r = (Ok env, r').
Proof.
  revert first c g. induction peers as [|peer peers IH]; intros first c g Hg Hs; cbn [send_peers] in Hs.
  { exists [], g. split; [constructor|]. split; [done|]. set_solver. }
  unfold sbind at 1, sget in Hs. apply sbind_Ok in Hs as (x & c1 & Hx & Hs). apply slift_Ok in Hx as [Hx ->]. apply ok_or_Ok in Hx.
  apply sbind_Ok in Hs as (env & c1 & He & Hs). apply sbind_Ok in Hs as (i & c2 & Hack & Hs).
  unfold sealed_sender_seal_for_secret in He. destruct (SealedSender.seal _ x ct (rng c)) as [r rn] eqn:Hseal. injection He as He <-.
  destruct r as [e| |]; [|done..]. apply Ok_inj in He as ->.
  apply send_and_ack_Ok in Hack as (ga & gb & gc & mid & Hga & Hsend & Hrecv & _ & ->). cbn [gateway set_rng] in Hga. rewrite Hg in Hga. injection Hga as <-.
  destruct (IH _ (set_conn (set_rng c rn) (Some gc)) gc eq_refl Hs) as (envs & g' & Hex & Hp & Hall).
  exists ((peer, env) :: envs), g'. split; [by econstructor|]. split; [cbn; by rewrite Hp|].
  intros q e' Hin. apply elem_of_cons in Hin as [[= -> ->]|Hin]; [by eauto|]. apply Hall in Hin. exact Hin.
Qed.

Lemma send_peers_groups ct peers first c r c' : send_peers ct peers first c = (r, c') -> groups c' = groups c.
Proof.
  revert first c. induction peers as [|peer peers IH]; intros first c Hs; cbn [send_peers] in Hs; [by injection Hs as _ <-|].
  unfold sbind at 1, sget, sbind at 1, slift in Hs. destruct (ok_or _ _) as [x| |]; [|by injection Hs as _ <-..].
  unfold sbind at 1, sealed_sender_seal_for_secret in Hs. destruct (SealedSender.seal _ x ct (rng c)) as [[e| |] rn];
    cbn [rmap_err] in Hs; [|by injection Hs as _ <-..].
  unfold sbind at 1 in Hs. destruct (send_and_ack peer e (set_rng c rn)) as [r1 c1] eqn:Hack.
  assert (Hg : groups c1 = groups c).
  { unfold send_and_ack, gw_recv, gw_poll, gw_send, sbind in Hack. cbn [gateway set_rng] in Hack.
    destruct (gateway c) as [g|]; [|by injection Hack as _ <-]. destruct (send_envelope _ g) as [[?|] g1]; [by injection Hack as _ <-|].
    cbn [gateway set_conn] in Hack. destruct (recv_envelope g1) as [[[?|[]]|] g2]; by injection Hack as _ <-. }
  destruct r1 as [i| |]; [|by injection Hs as _ <-..]. apply IH in Hs. congruence.
Qed.

Lemma mls_not_bundle b : head b <> Some Byte.xff -> MaxRatchet.try_decode_v3 b = Ok None.
Proof.
  intros Hh. unfold MaxRatchet.try_decode_v3. destruct (len b <? MaxRatchet.V3_MIN_LEN) eqn:Hl; [done|].
  destruct b as [|x b]; [done|]. change (index (E := unit) 0 (x :: b)) with (Ok (E := unit) x). cbn [rbind].
  destruct (Z.eqb_spec (u8 x) MaxRatchet.V3_MARKER) as [Hx|]; [|done]. exfalso. apply Hh. cbn. f_equal.
  apply u8_inj. rewrite Hx. done.
Qed.

(** C18. A text sent in a sealed-sender chat is handed over once for each other member, addressed to
    that member; whoever of them receives its envelope with a matching key store and a group in
    step reads the text, attributed to the sender's identity by the seal and not by the server.
    (A serialized MLS message starts with the protocol version, so never with 0xff.) *)
Theorem secret_text_delivered chat t a id a' ga g xs :
  (forall i P sg p m i1 b, Mls.create_message i P sg p = (Some m, i1) -> Mls.tls_serialize m = Some b -> head b <> Some Byte.xff) ->
  SealedSender.genuine (ks_sealed (mls_keystore a)) xs ->
  send_secret_text chat t a = (Ok id, a') -> get_group a chat = Some ga -> gateway a = Some g ->
  exists envs g', exchanges g envs g' /\
    (forall gm, get_group a' chat = Some gm -> envs.*1 = filter (fun m => m <> own_identity a) (Mls.member_identities gm)) /\
    forall peer env b gb xb from ts mid m, (peer, env) ∈ envs ->
      lookup_peer_x25519 a peer = Some (SealedSender.identity_x25519_public (ks_sealed (mls_keystore b))) ->
      SealedSender.genuine (ks_sealed (mls_keystore b)) xb -> get_group b chat = Some gb ->
      Mls.synced (Mls.inner ga) (MaxRatchet.mls_provider (providers a)) (Mls.inner gb) (MaxRatchet.mls_provider (providers b)) ->
      decode_server_msg_id mid = Ok m ->
      exists b', receive_one chat open_sealed from env ts mid b =
        (Ok (Some {| message_id := m; chat_id := chat; dm_sender := SealedSender.identity_public (ks_sealed (mls_keystore a));
                     timestamp := ts; text := lossy t |}), b').
Proof.
  intros Hframe Hgen Hs Hga Hg. unfold send_secret_text, sbind at 1, sget in Hs. rewrite Hg, Hga in Hs.
  apply sbind_Ok in Hs as (ct & a1 & He & Hs). unfold on_group in He.
  destruct (Mls.encrypt_application _ _ _ _) as [r g1] eqn:Henc. injection He as He <-. destruct r as [ct'| |]; [|done..]. apply Ok_inj in He as ->.
  unfold sbind at 1, sget, get_group in Hs. cbn [groups set_chat] in Hs. rewrite lookup_insert_eq in Hs.
  set (a1 := set_chat a _ _) in Hs. change (own_identity a1) with (own_identity a) in Hs.
  assert (Hopen : forall env b gb xb from ts mid m x r r', SealedSender.seal (ks_sealed (mls_keystore a)) x ct r = (Ok env, r') ->
      x = SealedSender.identity_x25519_public (ks_sealed (mls_keystore b)) ->
      SealedSender.genuine (ks_sealed (mls_keystore b)) xb -> get_group b chat = Some gb ->
      Mls.synced (Mls.inner ga) (MaxRatchet.mls_provider (providers a)) (Mls.inner gb) (MaxRatchet.mls_provider (providers b)) ->
      decode_server_msg_id mid = Ok m ->
      exists b', receive_one chat open_sealed from env ts mid b =
        (Ok (Some {| message_id := m; chat_id := chat; dm_sender := SealedSender.identity_public (ks_sealed (mls_keystore a));
                     timestamp := ts; text := lossy t |}), b')).
  { intros env b gb xb from ts mid m x r r' Hseal -> Hgb Hgg Hsy Hm.
    apply (SealedSender.seal_opens _ xs _ xb) in Hseal; [|done..].
    destruct (MaxRatchet.application_delivered _ _ _ _ _ _ _ gb Hsy Henc) as (i & gb1 & Hp & _).
    apply MaxRatchet.encrypt_application_Ok in Henc as (sg & mm & i1 & Hcm & Hser & _). apply (Hframe _ _ _ _ _ _ _ Hcm) in Hser.
    eexists. unfold receive_one, sbind, slift, sget, open_sealed, sealed_sender_unseal_for_secret. rewrite Hm, Hseal. cbn [rmap_err rbind].
    unfold decrypt_text. rewrite Hgg. unfold MaxRatchet.decrypt_text_with_fallback. cbn [SealedSender.message].
    rewrite mls_not_bundle by done. rewrite Hp. reflexivity. }
  case_bool_decide as Hnil.
  - injection Hs as <- <-. exists [], g. split; [constructor|]. split; [|set_solver].
    intros gm. unfold get_group, a1. cbn [groups set_chat]. rewrite lookup_insert_eq. intros [= <-]. by rewrite Hnil.
  - pose proof Hs as Hs0. apply (send_peers_Ok _ _ _ _ _ _ g) in Hs as (envs & g' & Hex & Hp & Hall); [|done].
    exists envs, g'. split; [done|]. split.
    + intros gm Hgm. apply send_peers_groups in Hs0. unfold get_group in Hgm. rewrite Hs0 in Hgm. unfold a1 in Hgm.
      cbn [groups set_chat] in Hgm. rewrite lookup_insert_eq in Hgm. injection Hgm as <-. exact Hp.
    + intros peer env b gb xb from ts mid m Hin Hx. apply Hall in Hin as (x & r & r' & Hlk & Hseal).
      change (lookup_peer_x25519 a1 peer) with (lookup_peer_x25519 a peer) in Hlk. rewrite Hx in Hlk. injection Hlk as <-.
      by eapply Hopen.
Qed.
End Conversation.

(** A text of a sealed-sender chat whose group is not registered is handed over as it is. *)
Lemma secret_text_in_clear chat t c g g1 mid g2 :
  get_group c chat = None -> gateway c = Some g -> send_envelope (SendMessage chat t) g = (None, g1) ->
  recv_envelope g1 = (Some (inr (SendAck mid)), g2) ->
  send_secret_text chat t c = (rmap_err Failed (decode_server_msg_id mid), set_conn c (Some g2)).
Proof.
  intros Hc Hg Hs Hr. unfold send_secret_text, sbind at 1, sget. rewrite Hg, Hc. by rewrite (send_and_ack_exact _ _ _ _ _ _ _ Hg Hs Hr).
Qed.

(** ** Joining and adding *)

(** A welcome is registered under the group id it names: when a chat with that id exists, its
    group and its ratchet are replaced, whoever made the welcome; other chats are untouched. *)
Lemma welcome_replaces_chat w now c chat cs c' :
  open_mls_group_from_welcome w now c = (Ok (chat, cs), c') ->
  exists g, Mls.join_from_welcome (MaxRatchet.mls_provider (providers c)) (ks_mls (mls_keystore c)) 0 w Mls.Private now = Ok g /\
    group_id (Mls.inner g) = chat /\ get_group c' chat = Some g /\ get_ratchet_state c' chat = Some MaxRatchet.state_new /\
    forall other, other <> chat -> get_group c' other = get_group c other.
Proof.
  unfold open_mls_group_from_welcome, sbind at 1, sget, lift. intros Hj. apply sbind_Ok in Hj as (g & c1 & Hg & Hj).
  apply slift_Ok in Hg as [Hg ->]. cbn zeta in Hj. apply sguard_Ok in Hj as [_ Hj]. injection Hj as <- <- <-.
  exists g. destruct (Mls.join_from_welcome _ _ _ _ _ _) as [g'| |]; [|done..]. apply Ok_inj in Hg as ->. split; [done|]. split; [done|].
  unfold get_group, get_ratchet_state. cbn [groups ratchet_states register_group set_chat]. rewrite !lookup_insert_eq.
  split; [done|]. split; [done|]. intros other Ho. by rewrite lookup_insert_ne.
Qed.

(** Adding a member hands the welcome to the new member only: nothing is sent over the gateway,
    so the commit of the addition reaches none of the other members. *)
Lemma add_member_tells_only_new chat peer kp now c w c' :
  mls_add_member chat peer kp now c = (Ok w, c') ->
  gateway c' = gateway c /\ welcome_inbox c' = <[peer := default [] (welcome_inbox c !! peer) ++ [w]]> (welcome_inbox c) /\
  exists g g' outcome kp', get_group c chat = Some g /\ get_group c' chat = Some g' /\ Mls.mc_welcome outcome = Some w /\
    Mls.add_members (MaxRatchet.mls_provider (providers c)) (ks_mls (mls_keystore c)) [kp'] now g = (Ok outcome, g').
Proof.
  unfold mls_add_member, sbind at 1, sget. intros Ha. apply sbind_Ok in Ha as (g & c1 & Hg & Ha). apply slift_Ok in Hg as [Hg ->]. apply ok_or_Ok in Hg.
  apply sbind_Ok in Ha as (ki & c1 & Hk & Ha). apply slift_Ok in Hk as [_ ->].
  apply sbind_Ok in Ha as (kp' & c1 & Hk & Ha). apply slift_Ok in Hk as [_ ->]. apply sguard_Ok in Ha as [_ Ha].
  apply sbind_Ok in Ha as (o & c1 & Ho & Ha). unfold on_group in Ho.
  destruct (Mls.add_members _ _ _ _ g) as [r g1] eqn:Hadd. injection Ho as Ho <-. destruct r as [o'| |]; [|done..]. apply Ok_inj in Ho as ->.
  apply sbind_Ok in Ha as (w' & c1 & Hw & Ha). apply slift_Ok in Hw as [Hw ->]. apply ok_or_Ok in Hw. injection Ha as <- <-.
  split; [done|]. split; [done|]. exists g, g1, o, kp'. unfold get_group. cbn [groups push_welcome set_peers set_chat]. by rewrite lookup_insert_eq.
Qed.

(** ** Restoring the history *)
Class CloudKeysLaws := {
  honest : CloudWire.WrappingParams -> CloudWire.WrappedKey -> list CloudWire.ServerUnwrapShare -> Prop;
  unwrap_wrap : forall p k aad r w r' sh, wrap_message_key p k aad r = (Ok w, r') -> honest p w sh -> unwrap_message_key p w aad sh = Ok k
}.

Section History.
Context {CL : CloudKeysLaws} {PB : Pq.PqBackend} {CCL : CloudWire.CloudCryptoLaws}.

(** The unwrap servers answer every request with honest shares for the key it names. *)
Definition answers (p : CloudWire.WrappingParams) : Prop := forall req u, exists sh u', unwrap_dispatch req u = (Ok sh, u') /\
  forall w, CloudWire.ephemeral_r w = CloudRequest.ephemeral_r req -> honest p w sh.

(** Texts with their message ids and times, published one after the other. *)
Inductive publishes (chat : list byte) : ClientCore -> list (list byte * list byte * Z) -> ClientCore -> Prop :=
| publishes_nil c : publishes chat c [] c
| publishes_cons c t id ms c1 l c2 : cloud_publish_at_rest chat t id ms c = (Ok tt, c1) -> publishes chat c1 l c2 ->
    publishes chat c ((t, id, ms) :: l) c2.

Definition entry_of (p : CloudWire.WrappingParams) (own chat : list byte) (e : CloudHistoryEntry) (x : list byte * list byte * Z) : Prop :=
  exists k r r', wrap_message_key p k (history_aad own own chat (msg_seq e)) r = (Ok (wrapped_key e), r') /\
    ciphertext_at_rest e = CloudWire.chacha_encrypt k (CloudWire.canonical_nonce chat (msg_seq e)) x.1.1
                             (CloudWire.canonical_bytes (history_aad own own chat (msg_seq e))) /\
    sender e = own /\ msg_id e = x.1.2 /\ sent_ts_ms e = x.2.

Lemma publish_entry chat t id ms c c1 :
  cloud_publish_at_rest chat t id ms c = (Ok tt, c1) ->
  exists e, history c1 chat = history c chat ++ [e] /\ entry_of (wrapping_params c) (own_identity c) chat e (t, id, ms) /\
    wrapping_params c1 = wrapping_params c /\ own_identity c1 = own_identity c.
Proof.
  intros Hp. unfold cloud_publish_at_rest, sbind, sget, sput, lift, slift, next_cloud_msg_seq in Hp. fold (counter c chat) in Hp.
  destruct (counter c chat =? U64_MAX); [done|]. destruct (Pq.fill_bytes _ _) as [mk r1].
  destruct (wrap_message_key _ _ _ _) as [[w|e|] r2] eqn:Hw; cbn [rmap_err] in Hp; [|done..].
  apply (f_equal snd) in Hp as Hc. cbn [snd] in Hc. subst c1. clear Hp.
  eexists. unfold history. cbn [snd cloud_history set_rng set_cloud push_cloud_history]. rewrite lookup_insert_eq.
  split; [reflexivity|]. split; [|done]. exists mk, r1, r2. cbn [msg_seq ciphertext_at_rest wrapped_key sender msg_id sent_ts_ms fst snd]. done.
Qed.

Lemma publishes_entries chat c l c' :
  publishes chat c l c' ->
  exists es, history c' chat = history c chat ++ es /\ Forall2 (entry_of (wrapping_params c) (own_identity c) chat) es l /\
    wrapping_params c' = wrapping_params c /\ own_identity c' = own_identity c.
Proof.
  induction 1 as [c|c t id ms c1 l c2 Hp _ (es & Hh & Hes & Hps & Hown)]; [exists []; rewrite app_nil_r; by repeat constructor|].
  apply publish_entry in Hp as (e & He & Hent & Hps1 & Hown1). exists (e :: es).
  split; [rewrite Hh, He, <- app_assoc; done|]. split; [|split; congruence]. constructor; [done|]. by rewrite <- Hps1, <- Hown1.
Qed.

Definition restored (own chat : list byte) (x : list byte * list byte * Z) : DecryptedMessage :=
  {| message_id := x.1.2; chat_id := chat; dm_sender := own; timestamp := x.2; text := lossy x.1.1 |}.

Lemma sync_request_Ok own chat e :
  exists req, sync_request own chat e = Ok req /\ CloudRequest.ephemeral_r req = CloudWire.ephemeral_r (wrapped_key e).
Proof. unfold sync_request. by eexists. Qed.
Lemma bind_run {A B} (m : Op A) (k : A -> Op B) c a c' : m c = (Ok a, c') -> sbind m k c = k a c'.
Proof. intros Hm. unfold sbind. by rewrite Hm. Qed.

Lemma sync_restores p own chat es l c :
  answers p -> wrapping_params c = p -> Forall2 (entry_of p own chat) es l ->
  exists c', sync_entries own chat es c = (Ok (restored own chat <$> l), c').
Proof.
  intros Ha Hp Hes. revert c Hp. induction Hes as [|e x es l (k & r & r' & Hw & Hct & Hsn & Hid & Hts) _ IH]; intros c Hp; [by exists c|].
  cbn [sync_entries]. destruct (sync_request_Ok own chat e) as (req & Hreq & Her). destruct (Ha req (unwrap_transport c)) as (sh & u' & Hd & Hh).
  unfold lift. rewrite Hreq, Hsn. erewrite bind_run by reflexivity.
  erewrite bind_run by (unfold dispatch; rewrite Hd; reflexivity). erewrite bind_run by reflexivity. cbn [wrapping_params set_transport].
  rewrite Hp, (unwrap_wrap p k _ r (wrapped_key e) r' sh Hw) by (apply Hh; done). erewrite bind_run by reflexivity.
  rewrite Hct, CloudWire.chacha_correct. erewrite bind_run by reflexivity. destruct (IH (set_transport c u') Hp) as [c' Hc'].
  rewrite (bind_run _ _ _ _ _ Hc'). exists c'. rewrite fmap_cons. unfold sret, restored at 2. by rewrite Hid, Hts.
Qed.

(** C29. Every text a client published for a chat that had no history comes back, in order and with
    its id and time, when the same identity asks for the history since an earlier time, provided
    the unwrap servers answer honestly. *)
Theorem history_restored chat c l c1 since :
  answers (wrapping_params c) -> history c chat = [] -> l <> [] -> publishes chat c l c1 ->
  exists c2, cloud_sync_history_impl chat since c1 =
      (Ok (restored (own_identity c) chat <$> filter (fun x => default 0 since < x.2) l), c2).
Proof.
  intros Ha Hh Hl Hp. apply publishes_entries in Hp as (es & He & Hes & Hps & Hown). rewrite Hh in He. cbn [app] in He.
  assert (Hlk : cloud_history c1 !! chat = Some es).
  { unfold history in He. destruct (cloud_history c1 !! chat); cbn in He; [by subst|]. subst es. inversion Hes. by subst. }
  unfold cloud_sync_history_impl, sbind at 1, sget, drain_cloud_history. rewrite Hlk. unfold sbind at 1, sput.
  change (own_identity (set_cloud c1 _ _)) with (own_identity c1). rewrite Hown. eapply sync_restores; [exact Ha|done|].
  clear Hlk He Hl. induction Hes as [|e x es l Hx Hes IH]; [constructor|]. rewrite !filter_cons.
  pose proof Hx as (_ & _ & _ & _ & _ & _ & _ & Hts). rewrite Hts. case_decide; [by constructor|done].
Qed.
End History.
End Client.

(** ** Concrete runs: a scripted connection and toy libraries *)
#[local] Existing Instances Mls.toy_mls MaxRatchet.toy_spqr MaxRatchet.toy_spqr_laws Pq.toy_pq Pq.toy_pq_ed Pq.toy_rng SealedSender.toy_envelope SealedSender.toy_envelope_laws CloudWire.toy_cloud.
#[export] Instance toy_gateway : GatewayOps := {|
  Conn := list ServerPayload * list ClientPayload; GatewayTransportError := unit;
  send_envelope p c := (None, (c.1, c.2 ++ [p]));
  recv_envelope c := match c.1 with [] => (None, c) | f :: l => (Some (inr f), (l, c.2)) end
|}.
#[export] Instance toy_client_mls : ClientMls Mls.toy_mls := {|
  group_id _ := replicate 32 Byte.x07; key_package_validate _ _ := Some (tt : @Mls.KeyPackage Mls.toy_mls);
  key_package_credential _ := replicate 32 Byte.x09; hex_decode s := Some (take 16 s)
|}.
#[export] Instance toy_keys : CloudKeys Z unit := {|
  wrap_message_key _ k _ r := (Ok {| CloudWire.version := 1; CloudWire.ephemeral_r := k; CloudWire.aead_blob := [] |}, r);
  unwrap_message_key _ w _ _ := Ok (CloudWire.ephemeral_r w);
  unwrap_dispatch _ u := (Ok [], u)
|}.
#[export] Instance toy_keys_laws : CloudKeysLaws (R := Z) (U := unit).
Proof. refine {| honest := fun _ _ _ => True |}. by intros p k aad r w r' sh [= <- <-] _. Defined.

Definition toy_conn (frames : list ServerPayload) : Conn := (frames, []).
Definition toy_chat : list byte := replicate 32 Byte.x07.
Definition toy_id : list byte := replicate 32 Byte.x30.
Definition toy_classical : Mls.UmbrellaGroup (O := Mls.toy_mls) :=
  {| Mls.inner := 7 : @Mls.MlsGroup Mls.toy_mls; Mls.policy := Mls.Private; Mls.ciphersuite := Mls.Mls128X25519ChaChaSha256Ed25519;
     Mls.device_index := 0; Mls.last_rekey_at_unix := 5 |}.
Definition toy_params : CloudWire.WrappingParams :=
  {| CloudWire.wp_version := 1; CloudWire.main_pubkey := []; CloudWire.server_pubkeys := []; CloudWire.config := CloudWire.config_default |}.
Definition ToyCore : Type := ClientCore (OM := Mls.toy_mls) (R := Z) (U := unit).
Definition toy_core (key : byte) (frames : list ServerPayload) : ToyCore := {|
  groups := {[ toy_chat := toy_classical ]}; ratchet_states := {[ toy_chat := MaxRatchet.state_new ]};
  cloud_msg_seq_counters := ∅; peer_x25519_directory := ∅; cloud_history := ∅; welcome_inbox := ∅;
  gateway := Some (toy_conn frames); unwrap_transport := tt; rng := 4; providers := MaxRatchet.toy_ps;
  mls_keystore := {| ks_mls := MaxRatchet.toy_ks; ks_sealed := SealedSender.toy_keystore key |};
  wrapping_params := toy_params; default_ciphersuite := 3 |}.

Definition toy_peer : list byte := replicate 32 Byte.x02.
Definition run_res {S E A} (r : res E A * S) : res E A := r.1.
Lemma run_eq {S E A} (r : res E A * S) a : run_res r = Ok a -> r = (Ok a, r.2).
Proof. destruct r. cbn. by intros ->. Qed.

Lemma client_state_invariant_witness :
  is_Some (get_group (run_op id (OCreate (Some 3) 9) (set_chat (toy_core Byte.x01 []) ∅ ∅)) toy_chat) <->
    is_Some (get_ratchet_state (run_op id (OCreate (Some 3) 9) (set_chat (toy_core Byte.x01 []) ∅ ∅)) toy_chat).
Proof.
  apply (client_state_invariant id (set_chat (toy_core Byte.x01 []) ∅ ∅)); [done|].
  eapply rtc_once. by exists (OCreate (Some 3) 9).
Defined.

(** A chat message between frames of other kinds; then one with a malformed sender. *)
Definition toy_good : ServerPayload := IncomingMessage (replicate 32 Byte.x05) MaxRatchet.toy_msg 11 toy_id.
Definition toy_bad : ServerPayload := IncomingMessage [] MaxRatchet.toy_msg 12 toy_id.
Lemma inbox_exact_witness :
  exists e g2, feeds g2 [] (toy_conn []) /\
    fetch_mls_inbox id 4 toy_peer (toy_core Byte.x01 [AuthOk; toy_good; toy_bad]) =
      (Err (Failed e), set_conn (toy_core Byte.x01 [AuthOk; toy_good; toy_bad]) (Some g2)).
Proof.
  refine (proj2 (inbox_exact id toy_peer [AuthOk; toy_good; toy_bad] (toy_conn [AuthOk; toy_good; toy_bad]) (toy_conn [])
    (toy_core Byte.x01 [AuthOk; toy_good; toy_bad])
    [{| message_id := take 16 toy_id; chat_id := toy_peer; dm_sender := replicate 32 Byte.x05; timestamp := 11; text := MaxRatchet.toy_msg |}]
    (toy_core Byte.x01 [AuthOk; toy_good; toy_bad]) 4 eq_refl _ _) [AuthOk; toy_good] _ _ _ _ [] eq_refl _ _); [|cbn; lia|reflexivity|right; done].
  do 3 (eapply feeds_cons; [reflexivity|]). by apply feeds_nil.
Defined.

(** One client sends a text, another in step reads it. *)
Definition toy_sender : ToyCore := toy_core Byte.x01 [SendAck toy_id].
Definition toy_sent_env : list byte := Eval vm_compute in
  match (MaxRatchet.seal_text MaxRatchet.toy_ps MaxRatchet.toy_ks MaxRatchet.toy_msg 9 (MaxRatchet.state_new, toy_classical)).1 with Ok e => e | _ => [] end.
Definition toy_sent_out : MaxRatchet.MaxRatchetOutgoing := Eval vm_compute in
  MaxRatchet.out_of (MaxRatchet.encrypt_with_rekey_authenticated (O := Mls.toy_mls) tt MaxRatchet.toy_ks MaxRatchet.toy_msg 9 (MaxRatchet.state_new, toy_classical)).1.
Definition toy_incoming : ServerPayload := IncomingMessage (replicate 32 Byte.x01) toy_sent_env 11 toy_id.
Definition toy_receiver : ToyCore := toy_core Byte.x02 [AuthOk; toy_incoming].
Lemma toy_sent_ok : run_res (send_mls_text toy_chat MaxRatchet.toy_msg 9 toy_sender) = Ok (take 16 toy_id).
Proof. vm_cast_no_check (eq_refl (Ok (E := Stop) (take 16 toy_id))). Qed.
Lemma toy_sealed_ok : run_res (MaxRatchet.seal_text MaxRatchet.toy_ps MaxRatchet.toy_ks MaxRatchet.toy_msg 9 (MaxRatchet.state_new, toy_classical)) = Ok toy_sent_env.
Proof. vm_cast_no_check (eq_refl (Ok (E := Mls.MlsError) toy_sent_env)). Qed.
Lemma toy_encrypted_ok : run_res (MaxRatchet.encrypt_with_rekey_authenticated (O := Mls.toy_mls) tt MaxRatchet.toy_ks MaxRatchet.toy_msg 9
  (MaxRatchet.state_new, toy_classical)) = Ok toy_sent_out.
Proof. vm_cast_no_check (eq_refl (Ok (E := Mls.MlsError) toy_sent_out)). Qed.
Lemma toy_group_at key l : get_group (toy_core key l) toy_chat = Some toy_classical.
Proof. reflexivity. Qed.
Lemma toy_state_at key l : get_ratchet_state (toy_core key l) toy_chat = Some MaxRatchet.state_new.
Proof. reflexivity. Qed.

Lemma toy_says : says toy_chat toy_sender [(MaxRatchet.toy_msg, toy_sent_env)] (send_mls_text toy_chat MaxRatchet.toy_msg 9 toy_sender).2.
Proof.
  eapply (says_cons toy_chat toy_sender MaxRatchet.toy_msg 9 (take 16 toy_id));
    [exact (run_eq _ _ toy_sent_ok)|exists toy_classical, MaxRatchet.state_new; split; [apply toy_group_at|split; [apply toy_state_at|]];
     exact (run_eq _ _ toy_sealed_ok)| |constructor].
  intros g s out Hg Hs. unfold toy_sender in Hg, Hs. rewrite toy_group_at in Hg. rewrite toy_state_at in Hs. injection Hg as <-. injection Hs as <-. intros He.
  assert (out = toy_sent_out) as ->.
  { pose proof toy_encrypted_ok as Ho. unfold run_res in Ho. apply (f_equal fst) in He. cbn [fst] in He.
    change (MaxRatchet.mls_provider (providers toy_sender)) with (tt : @Mls.Provider Mls.toy_mls) in He.
    change (ks_mls (mls_keystore toy_sender)) with MaxRatchet.toy_ks in He. rewrite Ho in He. by apply Ok_inj in He. }
  split; vm_compute; congruence.
Qed.

Lemma conversation_delivered_witness :
  exists ms b', fetch_mls_inbox id 3 toy_chat toy_receiver = (Ok ms, b') /\ (text <$> ms) = [MaxRatchet.toy_msg].
Proof.
  destruct (conversation_delivered id toy_chat toy_sender [(MaxRatchet.toy_msg, toy_sent_env)]
    (send_mls_text toy_chat MaxRatchet.toy_msg 9 toy_sender).2 toy_receiver [AuthOk; toy_incoming] (toy_conn [AuthOk; toy_incoming]) (toy_conn []) 3)
    as (ms & b' & Hf & Ht & _).
  - exists toy_classical, MaxRatchet.state_new, toy_classical. repeat split; try reflexivity. by eexists.
  - exact toy_says.
  - constructor; [done|]. eapply carries_msg; [reflexivity|reflexivity|constructor].
  - reflexivity.
  - do 2 (eapply feeds_cons; [reflexivity|]). by apply feeds_nil.
  - cbn. lia.
  - exists ms, b'. split; [exact Hf|exact Ht].
Defined.

Lemma history_restored_witness :
  exists c2, cloud_sync_history_impl id toy_chat None
    (cloud_publish_at_rest toy_chat MaxRatchet.toy_msg toy_id 11 toy_sender).2 =
    (Ok [restored id (own_identity toy_sender) toy_chat (MaxRatchet.toy_msg, toy_id, 11)], c2).
Proof.
  refine (history_restored id (CCL := CloudWire.toy_cloud_laws) toy_chat toy_sender [(MaxRatchet.toy_msg, toy_id, 11)]
    (cloud_publish_at_rest toy_chat MaxRatchet.toy_msg toy_id 11 toy_sender).2 None _ _ _ _); [|reflexivity|done|].
  - intros req u. by exists [], u.
  - eapply publishes_cons; [|constructor]. by apply run_eq.
Defined.

Definition toy_secret_sender : ToyCore :=
  register_peer_x25519 toy_sender toy_peer (SealedSender.identity_x25519_public (SealedSender.toy_keystore Byte.x02)).
Lemma toy_secret_ok : run_res (send_secret_text toy_chat MaxRatchet.toy_msg toy_secret_sender) = Ok (take 16 toy_id).
Proof. vm_cast_no_check (eq_refl (Ok (E := Stop) (take 16 toy_id))). Qed.
Lemma toy_secret_group : get_group (send_secret_text toy_chat MaxRatchet.toy_msg toy_secret_sender).2 toy_chat = Some toy_classical.
Proof. vm_cast_no_check (eq_refl (Some toy_classical)). Qed.
Lemma secret_text_delivered_witness :
  exists env b', receive_one id toy_chat open_sealed [] env 11 toy_id (toy_core Byte.x02 []) =
    (Ok (Some {| message_id := take 16 toy_id; chat_id := toy_chat; dm_sender := replicate 32 Byte.x01; timestamp := 11;
                 text := MaxRatchet.toy_msg |}), b').
Proof.
  destruct (secret_text_delivered id toy_chat MaxRatchet.toy_msg toy_secret_sender (take 16 toy_id)
    (send_secret_text toy_chat MaxRatchet.toy_msg toy_secret_sender).2 toy_classical (toy_conn [SendAck toy_id]) (replicate 32 Byte.x01))
    as (envs & g' & _ & Hp & Hall).
  - by intros i P sg p m i1 b [= <- <-] [= <-].
  - apply SealedSender.toy_genuine.
  - exact (run_eq _ _ toy_secret_ok).
  - reflexivity.
  - reflexivity.
  - specialize (Hp toy_classical toy_secret_group). change (filter _ _) with [toy_peer] in Hp.
    destruct envs as [|[peer env] envs]; [discriminate Hp|]. injection Hp as -> _. exists env.
    refine (Hall toy_peer env (toy_core Byte.x02 []) toy_classical (replicate 32 Byte.x02) [] 11 toy_id (take 16 toy_id)
      (list_elem_of_here _ _) _ (SealedSender.toy_genuine Byte.x02) _ _ _); reflexivity.
Defined.
End Client.
