(* ===== verification/Calls.v ===== *)
(** * Calls: routing policy, identity fingerprints and sessions
    ([crates/umbrella-calls/src/policy.rs], [level.rs], [dtls/fingerprint.rs];
    [crates/umbrella-client/src/call/], [transport/call_relay.rs], [transport/stub.rs])

    The policy that chooses how a call is routed, the mode of a chat that restricts it, the
    DTLS fingerprints bound to identities, the ICE agent, the SRTP pipeline and the call session
    that ties them to SFrame.  SHA-256, webrtc-ice and webrtc-srtp are parameters; random values
    are arguments.  The media callbacks a session keeps are never called by this code. *)
From Stdlib Require Import Ascii.
From S2P Require Import Prelude Bytes SframeWire SframeReplay Sframe ClientError.
Local Open Scope string_scope.
Local Open Scope list_scope.
Local Open Scope Z_scope.

Module Calls.

(** ** Levels and routing ([level.rs], [policy.rs]) *)
Inductive CallSecurityLevel := E2eDirect | E2eSingleRelay | E2eDoubleRelay | NotE2eServerMixed.
Definition is_e2e (l : CallSecurityLevel) : bool := match l with NotE2eServerMixed => false | _ => true end.
Definition hides_ip (l : CallSecurityLevel) : bool := match l with E2eSingleRelay | E2eDoubleRelay => true | _ => false end.

Inductive RoutingMode := DirectP2P | SingleRelay | DoubleRelay | CloudRelayFallback.
Definition to_security_level (r : RoutingMode) : CallSecurityLevel :=
  match r with DirectP2P => E2eDirect | SingleRelay | CloudRelayFallback => E2eSingleRelay | DoubleRelay => E2eDoubleRelay end.

Record CallPolicy := { default_routing : RoutingMode; sensitive_contacts : gset (list byte); allow_p2p_global : bool }.
Definition policy_default : CallPolicy := {| default_routing := SingleRelay; sensitive_contacts := ∅; allow_p2p_global := false |}.
Definition effective_routing (p : CallPolicy) (peer : list byte) : RoutingMode :=
  if bool_decide (peer ∈ sensitive_contacts p) then DoubleRelay
  else match default_routing p with
       | DirectP2P => if negb (allow_p2p_global p) then SingleRelay else DirectP2P
       | other => other
       end.
Definition effective_level (p : CallPolicy) (peer : list byte) : CallSecurityLevel := to_security_level (effective_routing p peer).
Definition set_sensitive (p : CallPolicy) (s : gset (list byte)) : CallPolicy :=
  {| default_routing := default_routing p; sensitive_contacts := s; allow_p2p_global := allow_p2p_global p |}.
Definition mark_sensitive (p : CallPolicy) (peer : list byte) : bool * CallPolicy :=
  (bool_decide (peer ∉ sensitive_contacts p), set_sensitive p ({[peer]} ∪ sensitive_contacts p)).
Definition unmark_sensitive (p : CallPolicy) (peer : list byte) : bool * CallPolicy :=
  (bool_decide (peer ∈ sensitive_contacts p), set_sensitive p (sensitive_contacts p ∖ {[peer]})).

(** ** Mode of the chat ([mode_enforcement.rs]) *)
Inductive ModeEnforcement := CloudMode | SecretMode.
#[global] Instance ModeEnforcement_eq : EqDecision ModeEnforcement.
Proof. solve_decision. Defined.
Definition strip_p2p (r : RoutingMode) : RoutingMode := match r with DirectP2P => SingleRelay | other => other end.
Definition apply (m : ModeEnforcement) (user_policy : CallPolicy) : CallPolicy :=
  match m with
  | CloudMode => user_policy
  | SecretMode => {| default_routing := strip_p2p (default_routing user_policy);
                     sensitive_contacts := sensitive_contacts user_policy; allow_p2p_global := false |}
  end.

(** ** Fingerprints ([dtls/fingerprint.rs], [dtls_runner.rs]) *)
Section Fingerprints.
Context (sha256 : list byte -> list byte).

Definition DOMAIN_IDENTITY : list byte := bytes_of_string "umbrellax-dtls-identity-v1".
Definition DOMAIN_MUTUAL : list byte := bytes_of_string "umbrellax-dtls-mutual-v1".
Definition derive (identity_pubkey session_nonce : list byte) : list byte := sha256 (DOMAIN_IDENTITY ++ identity_pubkey ++ session_nonce).
Definition verify_constant_time (self other : list byte) : bool := bool_decide (self = other).
Definition verify_or_err (self expected : list byte) : res SframeWire.CallError unit :=
  if verify_constant_time self expected then Ok tt else Err SframeWire.IdentityBindingFailed.

(** The order of [[u8; 32]]. *)
Fixpoint bytes_le (a b : list byte) : bool :=
  match a, b with
  | [], _ => true
  | _, [] => false
  | x :: a, y :: b => if u8 x <? u8 y then true else if u8 y <? u8 x then false else bytes_le a b
  end.
Definition compute_mutual_identity_binding (local peer session_nonce : list byte) : list byte :=
  let '(lo, hi) := if bytes_le local peer then (local, peer) else (peer, local) in
  sha256 (DOMAIN_MUTUAL ++ lo ++ hi ++ session_nonce).

Record DtlsRunner := { local_fingerprint : list byte; session_nonce : list byte }.
Definition runner_new (identity nonce : list byte) : DtlsRunner := {| local_fingerprint := derive identity nonce; session_nonce := nonce |}.
Definition verify_remote {N} (d : DtlsRunner) (peer_identity remote_fingerprint : list byte) : res (ClientError N) unit :=
  let expected := derive peer_identity (session_nonce d) in
  rmap_err Call (verify_or_err expected remote_fingerprint).

Definition collision (x y : list byte) : Prop := x <> y /\ sha256 x = sha256 y.

Lemma bytes_le_antisym a b : bytes_le a b = true -> bytes_le b a = true -> a = b.
Proof.
  revert b. induction a as [|x a IH]; intros [|y b]; cbn [bytes_le]; try done.
  destruct (Z.ltb_spec (u8 x) (u8 y)), (Z.ltb_spec (u8 y) (u8 x)); try done; try lia.
  intros Ha Hb. f_equal; [apply u8_inj; lia|by apply IH].
Qed.
Lemma bytes_le_total a b : bytes_le a b = false -> bytes_le b a = true.
Proof.
  revert b. induction a as [|x a IH]; intros [|y b]; cbn [bytes_le]; try done.
  destruct (Z.ltb_spec (u8 x) (u8 y)), (Z.ltb_spec (u8 y) (u8 x)); try done; try lia. apply IH.
Qed.

Lemma pair_inj (x y x' y' r r' : list byte) :
  len x = 32 -> len x' = 32 -> len y = 32 -> len y' = 32 -> x ++ y ++ r = x' ++ y' ++ r' -> x = x' /\ y = y' /\ r = r'.
Proof.
  intros Hx Hx' Hy Hy' He. apply app_inj_len in He as [-> He]; [|congruence].
  by apply app_inj_len in He as [-> ->]; [|congruence].
Qed.
Lemma hash_eq x y : sha256 x = sha256 y -> x = y \/ exists x y, collision x y.
Proof. destruct (decide (x = y)); [by left|]. right. by exists x, y. Qed.
Lemma binding_sym a b n : compute_mutual_identity_binding a b n = compute_mutual_identity_binding b a n.
Proof.
  unfold compute_mutual_identity_binding. destruct (bytes_le a b) eqn:Hab, (bytes_le b a) eqn:Hba; try done.
  - by rewrite (bytes_le_antisym a b Hab Hba).
  - apply bytes_le_total in Hab. congruence.
Qed.
Lemma verify_remote_exact {N} d b fp : verify_remote (N := N) d b fp =
  if bool_decide (fp = derive b (session_nonce d)) then Ok tt else Err (Call SframeWire.IdentityBindingFailed).
Proof. unfold verify_remote, verify_or_err, verify_constant_time. do 2 case_bool_decide; congruence || done. Qed.
Lemma derive_inj a b n m : len a = 32 -> len b = 32 -> derive a n = derive b m -> (a = b /\ n = m) \/ exists x y, collision x y.
Proof.
  intros La Lb He. apply hash_eq in He as [He|He]; [left|by right].
  apply app_inv_head, app_inj_len in He; [done|congruence].
Qed.

(** Both ends of a call compute one mutual binding, whatever the order of their keys; two equal
    bindings name the same pair of keys and the same nonce, and a fingerprint is accepted exactly
    when it is the one of the expected identity and the verifier's own nonce, so that an accepted
    fingerprint of an identity names that identity and nonce, unless SHA-256 collides. *)
Theorem call_binding_exact N a b c d n m fp :
  len a = 32 -> len b = 32 -> len c = 32 -> len d = 32 ->
  compute_mutual_identity_binding a b n = compute_mutual_identity_binding b a n /\
  (compute_mutual_identity_binding a b n = compute_mutual_identity_binding c d m ->
     (n = m /\ (a = c /\ b = d \/ a = d /\ b = c)) \/ exists x y, collision x y) /\
  (verify_remote (N := N) (runner_new a n) b fp = Ok tt <-> fp = derive b n) /\
  (verify_remote (N := N) (runner_new a n) b (derive c m) = Ok tt -> (b = c /\ n = m) \/ exists x y, collision x y).
Proof.
  intros La Lb Lc Ld. split; [apply binding_sym|]. rewrite !verify_remote_exact. cbn [session_nonce runner_new].
  split; [|split; [case_bool_decide; split; congruence|]].
  - unfold compute_mutual_identity_binding. destruct (bytes_le a b), (bytes_le c d); intros He;
    (apply hash_eq in He as [He|He]; [left|by right]); apply app_inv_head, pair_inj in He as (-> & -> & ->); tauto || done.
  - case_bool_decide as He; [|done]. intros _. symmetry in He. by apply derive_inj.
Qed.
End Fingerprints.

(** ** The relay ([transport/call_relay.rs], [StubCallRelayTransport]) *)
Inductive CallSecurityLevelWire := Default | Sensitive | AllowP2pGlobal.
Definition level_as_u8 (l : CallSecurityLevelWire) : Z := match l with Default => 0 | Sensitive => 1 | AllowP2pGlobal => 2 end.
Record TurnAllocation := {
  primary_url : string; secondary_url : option string; username : string; password_hmac_hex : string; valid_until_ms : Z
}.
Record StubCallRelay := { allocations : Z; last_request : option (list byte * CallSecurityLevelWire) }.

Definition hex_digit (z : Z) : ascii := ascii_of_nat (Z.to_nat (if z <? 10 then 48 + z else 87 + z)).
Definition hex_byte (b : byte) : string := String (hex_digit (u8 b / 16)) (String (hex_digit (u8 b mod 16)) EmptyString).
Fixpoint hex_encode (l : list byte) : string := match l with [] => EmptyString | b :: l => hex_byte b +:+ hex_encode l end.
(** [{:0>64}]. *)
Definition pad_zero_left (n : nat) (s : string) : string :=
  String.concat EmptyString (replicate (n - String.length s) "0"%string) +:+ s.
Definition allocate {E} (peer : list byte) (level : CallSecurityLevelWire) : st StubCallRelay E TurnAllocation := fun t =>
  let peer_hex_prefix := hex_encode (take 4 peer) in
  (Ok {| primary_url := "turn:stub-" +:+ peer_hex_prefix +:+ ".local:3478?transport=udp"; secondary_url := None;
         username := "stub-user-" +:+ peer_hex_prefix; password_hmac_hex := pad_zero_left 64 peer_hex_prefix;
         valid_until_ms := 1716700000000 + 24 * 60 * 60 * 1000 |},
   {| allocations := sat_add U32_MAX (allocations t) 1; last_request := Some (peer, level) |}).

(** ** ICE ([ice_agent.rs]) *)
Inductive NetworkType := Udp4 | Udp6.
Inductive CandidateType := Unspecified | Host | ServerReflexive | PeerReflexive | Relay.
Record TurnConfig := { url : string; tc_username : string; tc_password : string }.
Record AgentConfig (U : Type) := { network_types : list NetworkType; candidate_types : list CandidateType; urls : list U }.
Arguments network_types {_} _.
Arguments candidate_types {_} _.
Arguments urls {_} _.

(** webrtc-ice: URLs with their credential fields, agents, the candidates an agent gathered. *)
Class IceLib := {
  IceUrl : Type; IceError : Type; Agent : Type;
  parse_url : string -> IceError + IceUrl;
  with_credentials : string -> string -> IceUrl -> IceUrl;
  agent_new : AgentConfig IceUrl -> IceError + Agent;
  agent_candidates : Agent -> IceError + list CandidateType
}.
(** [AgentConfig::candidate_types] limits what an agent gathers. *)
Class IceLaws `{IceLib} : Prop := {
  gathers_configured : forall cfg a cs c, agent_new cfg = inr a -> agent_candidates a = inr cs -> c ∈ cs -> c ∈ candidate_types cfg
}.

Inductive CallNet `{IceLib} := NParse (e : IceError) | NAgent (e : IceError) | NAgentNoP2p (e : IceError) | NCandidates (e : IceError).
Definition or_net `{IceLib} {A} (f : IceError -> CallNet) (r : IceError + A) : res (ClientError CallNet) A :=
  match r with inl e => Err (Network (f e)) | inr a => Ok a end.
Record IceAgent `{IceLib} := { inner : Agent; no_p2p : bool }.
Definition parse_turn_url `{IceLib} (turn : TurnConfig) : res (ClientError CallNet) IceUrl :=
  let? u := or_net NParse (parse_url (url turn)) in
  Ok (with_credentials (tc_username turn) (tc_password turn) u).
Definition agent_config `{IceLib} (types : list CandidateType) (u : IceUrl) : AgentConfig IceUrl :=
  {| network_types := [Udp4; Udp6]; candidate_types := types; urls := [u] |}.
Definition new_with_p2p `{IceLib} (turn : TurnConfig) : res (ClientError CallNet) IceAgent :=
  let? u := parse_turn_url turn in
  let? a := or_net NAgent (agent_new (agent_config [Host; ServerReflexive; Relay] u)) in
  Ok {| inner := a; no_p2p := false |}.
Definition new_no_p2p `{IceLib} (turn : TurnConfig) : res (ClientError CallNet) IceAgent :=
  let? u := parse_turn_url turn in
  let? a := or_net NAgentNoP2p (agent_new (agent_config [Relay] u)) in
  Ok {| inner := a; no_p2p := true |}.
Definition get_local_candidates `{IceLib} (a : IceAgent) : res (ClientError CallNet) (list CandidateType) :=
  or_net NCandidates (agent_candidates (inner a)).

(** ** SRTP ([srtp_pipeline.rs]) *)
Definition SRTP_KEY_LEN : Z := 32.
Definition SRTP_SALT_LEN : Z := 12.
Definition SRTP_REPLAY_WINDOW : Z := 64.
Inductive SrtpProfile := AeadAes256Gcm.
#[global] Instance SrtpProfile_eq : EqDecision SrtpProfile.
Proof. solve_decision. Defined.
Record SrtpKeyingMaterial := { key : list byte; salt : list byte; profile : SrtpProfile }.

(** webrtc-srtp: one-way contexts, with a replay window on the receiving side. *)
Inductive SrtpError := RtpFailedToVerifyAuthTag | AesGcm | SrtpSsrcDuplicated (ssrc seq : Z) | OtherSrtp (what : string).
Class SrtpLib := {
  SrtpCtx : Type;
  ctx_new : list byte -> list byte -> option Z -> SrtpError + SrtpCtx;
  ctx_encrypt : list byte -> SrtpCtx -> (SrtpError + list byte) * SrtpCtx;
  ctx_decrypt : list byte -> SrtpCtx -> (SrtpError + list byte) * SrtpCtx
}.
(** Documented behaviour: keys of the profile's lengths are accepted; a receiver keyed like the
    sender and [in_step] with it reads the next packet, stays in step, and refuses it again.
    [follows p e]: the sequence number of the RTP packet [p] follows those [e] encrypted. *)
Class SrtpLaws `{SrtpLib} := {
  in_step : SrtpCtx -> SrtpCtx -> Prop;
  follows : list byte -> SrtpCtx -> Prop;
  new_total : forall k s w, len k = SRTP_KEY_LEN -> len s = SRTP_SALT_LEN -> exists c, ctx_new k s w = inr c;
  new_in_step : forall k s w e d, ctx_new k s None = inr e -> ctx_new k s (Some w) = inr d -> in_step e d;
  encrypt_total : forall p e, follows p e -> exists w e', ctx_encrypt p e = (inr w, e');
  decrypt_next : forall p e d w e', in_step e d -> follows p e -> ctx_encrypt p e = (inr w, e') ->
    exists d', ctx_decrypt w d = (inr p, d') /\ in_step e' d' /\
      exists ssrc seq, ctx_decrypt w d' = (inl (SrtpSsrcDuplicated ssrc seq), d')
}.

Section Pipeline.
Context {IL : IceLib} {SL : SrtpLib}.
Local Notation Error := (ClientError CallNet).
Record PipelineState := { encrypt_ctx : SrtpCtx; decrypt_ctx : SrtpCtx; ps_profile : SrtpProfile }.
Definition SrtpPipeline := option PipelineState.
Definition pipeline_new : SrtpPipeline := None.

Definition map_srtp_error (e : SrtpError) : Error :=
  match e with
  | RtpFailedToVerifyAuthTag | AesGcm => Call SframeWire.AeadAuthFailure
  | SrtpSsrcDuplicated _ _ => Internal "SRTP: replay detected"
  | OtherSrtp what => Internal ("SRTP: " +:+ what)
  end.
Definition or_internal {A} (what : string) (r : SrtpError + A) : res Error A :=
  match r with inl _ => Err (Internal what) | inr a => Ok a end.
Definition set_keying (material : SrtpKeyingMaterial) : st SrtpPipeline Error unit :=
  let expected_key_len := SRTP_KEY_LEN * 2 in
  let expected_salt_len := SRTP_SALT_LEN * 2 in
  fail_if negb (bool_decide (profile material = AeadAes256Gcm)) with Internal "SRTP: unsupported profile" ;;
  fail_if negb (len (key material) =? expected_key_len) with Internal "SRTP: key length" ;;
  fail_if negb (len (salt material) =? expected_salt_len) with Internal "SRTP: salt length" ;;
  let (local_key, remote_key) := (take (Z.to_nat SRTP_KEY_LEN) (key material), drop (Z.to_nat SRTP_KEY_LEN) (key material)) in
  let (local_salt, remote_salt) := (take (Z.to_nat SRTP_SALT_LEN) (salt material), drop (Z.to_nat SRTP_SALT_LEN) (salt material)) in
  let! enc := slift (or_internal "SRTP: encrypt Context::new failed" (ctx_new local_key local_salt None)) in
  let! dec := slift (or_internal "SRTP: decrypt Context::new failed" (ctx_new remote_key remote_salt (Some SRTP_REPLAY_WINDOW))) in
  sput (Some {| encrypt_ctx := enc; decrypt_ctx := dec; ps_profile := profile material |}).
Definition is_keyed (p : SrtpPipeline) : bool := bool_decide (is_Some p).
Definition encrypt_rtp (plaintext : list byte) : st SrtpPipeline Error (list byte) := fun p =>
  match p with
  | None => (Err (Internal "SRTP: encrypt_rtp called pre-keying"), p)
  | Some s => let '(r, c) := ctx_encrypt plaintext (encrypt_ctx s) in
      (match r with inl e => Err (map_srtp_error e) | inr w => Ok w end,
       Some {| encrypt_ctx := c; decrypt_ctx := decrypt_ctx s; ps_profile := ps_profile s |})
  end.
Definition decrypt_rtp (srtp : list byte) : st SrtpPipeline Error (list byte) := fun p =>
  match p with
  | None => (Err (Internal "SRTP: decrypt_rtp called pre-keying"), p)
  | Some s => let '(r, c) := ctx_decrypt srtp (decrypt_ctx s) in
      (match r with inl e => Err (map_srtp_error e) | inr m => Ok m end,
       Some {| encrypt_ctx := encrypt_ctx s; decrypt_ctx := c; ps_profile := ps_profile s |})
  end.
Definition pipeline_profile (p : SrtpPipeline) : option SrtpProfile := ps_profile <$> p.
End Pipeline.

(** ** The session ([session.rs]) *)
Section Session.
Context {IL : IceLib} {SL : SrtpLib} {SC : SframeCrypto} (sha256 : list byte -> list byte).
Local Notation Error := (ClientError CallNet).

Inductive CallTerminationReason := LocalHangup | RemoteHangup | IceFailure | DtlsFailure | IdentityMismatch | NetworkFailure.
Inductive CallState := Signalling | IceGathering | IceChecking | DtlsHandshake | Connected | Reconnecting
| Terminated (reason : CallTerminationReason).
Record CallSession := {
  call_id : list byte; peer : list byte; effective_policy : CallPolicy; state : CallState; ice_agent : IceAgent;
  dtls_runner : DtlsRunner; srtp_pipeline : SrtpPipeline; sframe_context : Sframe.SframeContext
}.
Definition derive_call_security_level (enforcement : ModeEnforcement) (p : CallPolicy) : CallSecurityLevelWire :=
  match enforcement with
  | SecretMode => Sensitive
  | CloudMode => if allow_p2p_global p then AllowP2pGlobal else Sensitive
  end.
Definition turn_config_from_allocation (a : TurnAllocation) : TurnConfig :=
  {| url := primary_url a; tc_username := username a; tc_password := password_hmac_hex a |}.

(** What a session uses of the client: the keys it signs with and the relay. *)
Record CallCore := { hw_verifying_key : option (list byte); identity_public : option (list byte); call_relay_transport : StubCallRelay }.
Definition identity_verifying_key (c : CallCore) : res Error (list byte) :=
  match hw_verifying_key c with
  | Some vk => Ok vk
  | None => ok_or (identity_public c) (Internal "ClientCore invariant violated: neither identity nor hw_verifying_key is populated")
  end.
Definition on_relay {A} (m : st StubCallRelay Error A) : st CallCore Error A := fun c =>
  let '(r, t) := m (call_relay_transport c) in
  (r, {| hw_verifying_key := hw_verifying_key c; identity_public := identity_public c; call_relay_transport := t |}).

(** [rand_id] and [rand_nonce] are the two readings of [rand::random]. *)
Definition start_with_enforcement (rand_id rand_nonce peer : list byte) (user_policy : CallPolicy) (enforcement : ModeEnforcement)
    : st CallCore Error CallSession :=
  let effective := apply enforcement user_policy in
  let! allocation := on_relay (allocate peer (derive_call_security_level enforcement effective)) in
  let turn := turn_config_from_allocation allocation in
  let! agent := slift (match enforcement with
                       | CloudMode => if allow_p2p_global effective then new_with_p2p turn else new_no_p2p turn
                       | SecretMode => new_no_p2p turn
                       end) in
  let! core := sget in
  let! identity_pub := slift (identity_verifying_key core) in
  sret {| call_id := rand_id; peer := peer; effective_policy := effective; state := Signalling; ice_agent := agent;
          dtls_runner := runner_new sha256 identity_pub rand_nonce; srtp_pipeline := pipeline_new; sframe_context := Sframe.new |}.
(** [CloudChat::start_call] and [SecretChat::start_call]. *)
Definition cloud_start_call rand_id rand_nonce peer user_policy := start_with_enforcement rand_id rand_nonce peer user_policy CloudMode.
Definition secret_start_call rand_id rand_nonce peer user_policy := start_with_enforcement rand_id rand_nonce peer user_policy SecretMode.

Definition Op (A : Type) := st CallSession Error A.
Definition with_state (s : CallSession) (x : CallState) : CallSession :=
  {| call_id := call_id s; peer := peer s; effective_policy := effective_policy s; state := x; ice_agent := ice_agent s;
     dtls_runner := dtls_runner s; srtp_pipeline := srtp_pipeline s; sframe_context := sframe_context s |}.
Definition with_media (s : CallSession) (p : SrtpPipeline) (f : Sframe.SframeContext) : CallSession :=
  {| call_id := call_id s; peer := peer s; effective_policy := effective_policy s; state := state s; ice_agent := ice_agent s;
     dtls_runner := dtls_runner s; srtp_pipeline := p; sframe_context := f |}.
Definition on_srtp {A} (m : st SrtpPipeline Error A) : Op A := fun s =>
  let '(r, p) := m (srtp_pipeline s) in (r, with_media s p (sframe_context s)).
Definition on_sframe {A} (m : st Sframe.SframeContext SframeWire.CallError A) : Op A := fun s =>
  let '(r, f) := m (sframe_context s) in (rmap_err Call r, with_media s (srtp_pipeline s) f).
Definition write_state (x : CallState) : Op unit := fun s => (Ok tt, with_state s x).

Definition hangup : Op unit := write_state (Terminated LocalHangup).
Definition local_dtls_fingerprint (s : CallSession) : list byte := local_fingerprint (dtls_runner s).
Definition dtls_session_nonce (s : CallSession) : list byte := session_nonce (dtls_runner s).
Definition verify_remote_dtls_fingerprint (peer_identity remote : list byte) (s : CallSession) : res Error unit :=
  verify_remote sha256 (dtls_runner s) peer_identity remote.
Definition install_srtp_keying (material : SrtpKeyingMaterial) : Op unit := on_srtp (set_keying material).
Definition is_srtp_keyed (s : CallSession) : bool := is_keyed (srtp_pipeline s).
Definition srtp_encrypt_rtp (plaintext : list byte) : Op (list byte) := on_srtp (encrypt_rtp plaintext).
Definition srtp_decrypt_rtp (srtp : list byte) : Op (list byte) := on_srtp (decrypt_rtp srtp).
Definition begin_ice_gathering : Op unit := write_state IceGathering.
Definition mark_ice_complete : Op unit := write_state DtlsHandshake.
Definition mark_connected : Op unit :=
  let! s := sget in
  fail_if negb (is_srtp_keyed s) with Internal "mark_connected: SRTP pipeline not keyed" ;;
  write_state Connected.
Definition mark_terminated (reason : CallTerminationReason) : Op unit := write_state (Terminated reason).
Definition install_sframe_epoch (out : list byte) (cs : Sframe.SframeCiphersuite) (epoch : Z) : Op unit :=
  on_sframe (fun f => (Ok tt, Sframe.advance_epoch (Sframe.from_mls_exporter out cs epoch) f)).
Definition sframe_current_epoch (s : CallSession) : option Z := Sframe.current_epoch (sframe_context s).
Definition sframe_encrypt_frame (sender_leaf counter : Z) (plaintext : list byte) : Op (list byte) :=
  on_sframe (Sframe.encrypt_frame sender_leaf counter plaintext).
Definition sframe_decrypt_frame (bytes : list byte) : Op Sframe.DecryptedFrame := on_sframe (Sframe.decrypt_frame bytes).

(** ** What a session can do after it was started *)
Inductive Event :=
| EvHangup | EvInstall (m : SrtpKeyingMaterial) | EvEncrypt (p : list byte) | EvDecrypt (w : list byte) | EvGather | EvIceComplete
| EvConnected | EvTerminated (r : CallTerminationReason) | EvEpoch (out : list byte) (cs : Sframe.SframeCiphersuite) (epoch : Z)
| EvFrameOut (leaf counter : Z) (m : list byte) | EvFrameIn (w : list byte).
Definition step (s : CallSession) (ev : Event) : CallSession :=
  match ev with
  | EvHangup => (hangup s).2
  | EvInstall m => (install_srtp_keying m s).2
  | EvEncrypt p => (srtp_encrypt_rtp p s).2
  | EvDecrypt w => (srtp_decrypt_rtp w s).2
  | EvGather => (begin_ice_gathering s).2
  | EvIceComplete => (mark_ice_complete s).2
  | EvConnected => (mark_connected s).2
  | EvTerminated r => (mark_terminated r s).2
  | EvEpoch out cs e => (install_sframe_epoch out cs e s).2
  | EvFrameOut l k m => (sframe_encrypt_frame l k m s).2
  | EvFrameIn w => (sframe_decrypt_frame w s).2
  end.
Definition run : CallSession -> list Event -> CallSession := foldl step.

Lemma run_inv (P : CallSession -> Prop) : (forall s ev, P s -> P (step s ev)) -> forall evs s, P s -> P (run s evs).
Proof. intros Hstep evs. induction evs; cbn; auto. Qed.

(** The fields no operation writes. *)
Definition fixed (s : CallSession) := (call_id s, peer s, effective_policy s, ice_agent s, dtls_runner s).
Lemma step_fixed s ev : fixed (step s ev) = fixed s.
Proof.
  destruct ev; cbn [step]; unfold hangup, install_srtp_keying, srtp_encrypt_rtp, srtp_decrypt_rtp, begin_ice_gathering, mark_ice_complete,
    mark_connected, mark_terminated, install_sframe_epoch, sframe_encrypt_frame, sframe_decrypt_frame, on_srtp, on_sframe, write_state,
    sbind, sget, sguard; try done; repeat (case_match; simplify_eq; try done).
Qed.
Lemma run_fixed s evs : fixed (run s evs) = fixed s.
Proof. apply (run_inv (fun s' => fixed s' = fixed s)); [|done]. intros s' ev <-. apply step_fixed. Qed.

(** The pipeline, once keyed, stays keyed, and only a keyed session is connected. *)
Lemma set_keying_result m p r p' : set_keying m p = (r, p') -> r = Ok tt /\ is_keyed p' = true \/ r <> Ok tt /\ p' = p.
Proof.
  unfold set_keying, sguard, sbind, slift, sput, or_internal. intros H.
  repeat case_match; simplify_eq; first [left; split; done | right; split; done].
Qed.
Lemma encrypt_rtp_keyed p pl : is_keyed (encrypt_rtp pl p).2 = is_keyed p.
Proof. destruct p as [?|]; [|done]. cbn. by destruct (ctx_encrypt _ _). Qed.
Lemma decrypt_rtp_keyed p w : is_keyed (decrypt_rtp w p).2 = is_keyed p.
Proof. destruct p as [?|]; [|done]. cbn. by destruct (ctx_decrypt _ _). Qed.
Definition media_ready (s : CallSession) : Prop := state s = Connected -> is_srtp_keyed s = true.
Lemma on_srtp_eq {A} (m : st SrtpPipeline Error A) s :
  state (on_srtp m s).2 = state s /\ srtp_pipeline (on_srtp m s).2 = (m (srtp_pipeline s)).2 /\ (on_srtp m s).1 = (m (srtp_pipeline s)).1.
Proof. unfold on_srtp. by destruct (m _). Qed.
Lemma on_sframe_eq {A} (m : st Sframe.SframeContext SframeWire.CallError A) s :
  state (on_sframe m s).2 = state s /\ srtp_pipeline (on_sframe m s).2 = srtp_pipeline s.
Proof. unfold on_sframe. by destruct (m _). Qed.
Lemma mark_connected_eq s : mark_connected s =
  if is_srtp_keyed s then (Ok tt, with_state s Connected) else (Err (Internal "mark_connected: SRTP pipeline not keyed"), s).
Proof. unfold mark_connected, sbind, sget, sguard. by destruct (is_srtp_keyed s). Qed.
Lemma step_keyed s ev : is_srtp_keyed s = true -> is_srtp_keyed (step s ev) = true.
Proof.
  unfold is_srtp_keyed. intros Hk. destruct ev; cbn [step]; try done;
    unfold install_srtp_keying, srtp_encrypt_rtp, srtp_decrypt_rtp, install_sframe_epoch, sframe_encrypt_frame, sframe_decrypt_frame;
    try (match goal with |- context [(on_srtp ?m s).2] => destruct (on_srtp_eq m s) as (_ & -> & _) end);
    try (match goal with |- context [(on_sframe ?m s).2] => by destruct (on_sframe_eq m s) as (_ & ->) end);
    rewrite ?encrypt_rtp_keyed, ?decrypt_rtp_keyed; try done.
  - destruct (set_keying m (srtp_pipeline s)) as [r p'] eqn:He. destruct (set_keying_result _ _ _ _ He) as [[_ ?]|[_ ->]]; done.
  - rewrite mark_connected_eq. by case_match.
Qed.
Lemma step_ready s ev : media_ready s -> media_ready (step s ev).
Proof.
  intros Hr. destruct ev; try done;
    try (intros Hc; apply step_keyed, Hr; revert Hc; cbn [step];
         unfold install_srtp_keying, srtp_encrypt_rtp, srtp_decrypt_rtp, install_sframe_epoch, sframe_encrypt_frame, sframe_decrypt_frame;
         first [ match goal with |- context [(on_srtp ?m s).2] => by destruct (on_srtp_eq m s) as (-> & _) end
               | match goal with |- context [(on_sframe ?m s).2] => by destruct (on_sframe_eq m s) as (-> & _) end ]).
  cbn [step]. rewrite mark_connected_eq. destruct (is_srtp_keyed s) eqn:Hk; [by intros _|done].
Qed.

(** ** Starting a call *)
Definition peer_turn (peer : list byte) : TurnConfig :=
  match (allocate (E := Error) peer Sensitive {| allocations := 0; last_request := None |}).1 with
  | Ok a => turn_config_from_allocation a
  | _ => {| url := ""; tc_username := ""; tc_password := "" |}
  end.
Definition choose_agent (m : ModeEnforcement) (p : CallPolicy) (peer : list byte) : res Error IceAgent :=
  if bool_decide (m = CloudMode) && allow_p2p_global p then new_with_p2p (peer_turn peer) else new_no_p2p (peer_turn peer).

(** Every outcome of starting a call. *)
Lemma start_exact ri rn p pol m c :
  start_with_enforcement ri rn p pol m c =
  ((let? agent := choose_agent m (apply m pol) p in
    let? vk := identity_verifying_key c in
    Ok {| call_id := ri; peer := p; effective_policy := apply m pol; state := Signalling; ice_agent := agent;
          dtls_runner := runner_new sha256 vk rn; srtp_pipeline := None; sframe_context := Sframe.new |}),
   {| hw_verifying_key := hw_verifying_key c; identity_public := identity_public c;
      call_relay_transport := {| allocations := sat_add U32_MAX (allocations (call_relay_transport c)) 1;
                                 last_request := Some (p, derive_call_security_level m (apply m pol)) |} |}).
Proof.
  unfold start_with_enforcement, choose_agent, sbind, on_relay, allocate, slift, sget, sret. destruct m; cbn [apply].
  - rewrite bool_decide_true by done. cbn [andb]. destruct (allow_p2p_global pol).
    + change (turn_config_from_allocation _) with (peer_turn p). destruct (new_with_p2p (peer_turn p)); try done.
      unfold identity_verifying_key. cbn. destruct (hw_verifying_key c); [done|]. by destruct (identity_public c).
    + change (turn_config_from_allocation _) with (peer_turn p). destruct (new_no_p2p (peer_turn p)); try done.
      unfold identity_verifying_key. cbn. destruct (hw_verifying_key c); [done|]. by destruct (identity_public c).
  - rewrite bool_decide_false by done. cbn [andb]. change (turn_config_from_allocation _) with (peer_turn p).
    destruct (new_no_p2p (peer_turn p)); try done.
    unfold identity_verifying_key. cbn. destruct (hw_verifying_key c); [done|]. by destruct (identity_public c).
Qed.
Lemma start_Ok ri rn p pol m c s c' :
  start_with_enforcement ri rn p pol m c = (Ok s, c') ->
  exists vk, choose_agent m (apply m pol) p = Ok (ice_agent s) /\ identity_verifying_key c = Ok vk /\
    dtls_runner s = runner_new sha256 vk rn /\ effective_policy s = apply m pol /\ state s = Signalling /\ srtp_pipeline s = None /\
    last_request (call_relay_transport c') = Some (p, derive_call_security_level m (apply m pol)).
Proof.
  rewrite start_exact. intros H. injection H as He <-.
  destruct (choose_agent _ _ _) as [agent| |]; cbn [rbind] in He; try done.
  destruct (identity_verifying_key c) as [vk| |]; cbn [rbind] in He; try done.
  injection He as <-. by exists vk.
Qed.
Lemma new_no_p2p_Ok t a : new_no_p2p t = Ok a -> no_p2p a = true /\ exists u, agent_new (agent_config [Relay] u) = inr (inner a).
Proof.
  unfold new_no_p2p, or_net. intros H. res_inv H. destruct (agent_new _) eqn:He; simplify_eq. cbn. eauto.
Qed.
Lemma new_with_p2p_Ok t a :
  new_with_p2p t = Ok a -> no_p2p a = false /\ exists u, agent_new (agent_config [Host; ServerReflexive; Relay] u) = inr (inner a).
Proof.
  unfold new_with_p2p, or_net. intros H. res_inv H. destruct (agent_new _) eqn:He; simplify_eq. cbn. eauto.
Qed.
Lemma strip_hides pol q : hides_ip (effective_level (apply SecretMode pol) q) = true.
Proof.
  unfold effective_level, effective_routing. cbn [apply sensitive_contacts default_routing allow_p2p_global].
  case_bool_decide; [done|]. by destruct (default_routing pol).
Qed.

(** C21. A call of a secret chat is relayed: whatever policy the user has, the relay server is asked for
    forced relaying, every peer's level hides the address, sensitive contacts keep their two
    relays, and along any run of the session the agent gathers relayed candidates only. *)
Theorem secret_call_relays `{!IceLaws} ri rn p pol c s c' evs :
  secret_start_call ri rn p pol c = (Ok s, c') ->
  last_request (call_relay_transport c') = Some (p, Sensitive) /\
  no_p2p (ice_agent (run s evs)) = true /\ allow_p2p_global (effective_policy (run s evs)) = false /\
  (forall q, hides_ip (effective_level (effective_policy (run s evs)) q) = true) /\
  (forall q, q ∈ sensitive_contacts pol -> effective_routing (effective_policy (run s evs)) q = DoubleRelay) /\
  (forall cs x, get_local_candidates (ice_agent (run s evs)) = Ok cs -> x ∈ cs -> x = Relay).
Proof.
  intros Hs. destruct (start_Ok _ _ _ _ _ _ _ _ Hs) as (vk & Ha & _ & _ & Hp & _ & _ & Hl).
  pose proof (run_fixed s evs) as Hf. unfold fixed in Hf. injection Hf as _ _ -> -> _.
  unfold choose_agent in Ha. rewrite bool_decide_false in Ha by done. apply new_no_p2p_Ok in Ha as (Hn & u & Ha).
  rewrite Hp. split_and!; try done.
  - apply strip_hides.
  - intros q Hq. unfold effective_routing. by rewrite bool_decide_true.
  - unfold get_local_candidates, or_net. intros cs x Hc Hx. destruct (agent_candidates _) eqn:He; simplify_eq.
    pose proof (gathers_configured _ _ _ _ Ha He Hx) as Hin. by apply list_elem_of_singleton in Hin.
Qed.

(** A cloud call with direct connections allowed ignores the sensitive contacts: the policy
    routes the contact over two relays, yet the agent gathers host and reflexive candidates and
    the relay server is told that direct connections are allowed. *)
Theorem sensitive_contact_exposed ri rn p pol c s c' :
  cloud_start_call ri rn p pol c = (Ok s, c') -> p ∈ sensitive_contacts pol -> allow_p2p_global pol = true ->
  effective_routing (effective_policy s) p = DoubleRelay /\ no_p2p (ice_agent s) = false /\
  (exists u, agent_new (agent_config [Host; ServerReflexive; Relay] u) = inr (inner (ice_agent s))) /\
  last_request (call_relay_transport c') = Some (p, AllowP2pGlobal).
Proof.
  intros Hs Hp Hg. destruct (start_Ok _ _ _ _ _ _ _ _ Hs) as (vk & Ha & _ & _ & He & _ & _ & Hl). cbn [apply] in *.
  unfold choose_agent in Ha. rewrite bool_decide_true, Hg in Ha by done. apply new_with_p2p_Ok in Ha as (Hn & Hu).
  rewrite He, Hl. unfold effective_routing, derive_call_security_level. by rewrite bool_decide_true, Hg.
Qed.

(** Along every run of a started session, the session is connected only while its SRTP pipeline
    is keyed; and nothing else guards the transition: a terminated session that is keyed becomes
    connected again. *)
Theorem connected_is_keyed ri rn p pol m c s c' evs :
  start_with_enforcement ri rn p pol m c = (Ok s, c') ->
  media_ready (run s evs) /\
  (forall r, is_srtp_keyed (run s evs) = true -> state (run s (evs ++ [EvTerminated r; EvConnected])) = Connected) /\
  (is_srtp_keyed (run s evs) = false -> step (run s evs) EvConnected = run s evs /\ (mark_connected (run s evs)).1 <> Ok tt).
Proof.
  intros Hs. destruct (start_Ok _ _ _ _ _ _ _ _ Hs) as (vk & _ & _ & _ & _ & Hst & _).
  split; [|split].
  - apply run_inv; [apply step_ready|]. unfold media_ready. by rewrite Hst.
  - intros r Hk. unfold run. rewrite foldl_app. cbn [foldl]. cbn [step]. rewrite mark_connected_eq.
    change (is_srtp_keyed (mark_terminated r _).2) with (is_srtp_keyed (run s evs)). by rewrite Hk.
  - intros Hk. cbn [step]. rewrite mark_connected_eq, Hk. done.
Qed.

(** Two clients that start a call with each other draw their own nonces, and each checks the
    other's fingerprint under its own: with distinct nonces the genuine fingerprint of the
    genuine identity is refused, unless SHA-256 collides. *)
Theorem honest_peers_refused ri rn p pol m c s c' ri' rn' q pol' m' d r d' ka kb :
  start_with_enforcement ri rn p pol m c = (Ok s, c') -> start_with_enforcement ri' rn' q pol' m' d = (Ok r, d') ->
  identity_verifying_key c = Ok ka -> identity_verifying_key d = Ok kb -> len kb = 32 -> rn <> rn' ->
  verify_remote_dtls_fingerprint kb (local_dtls_fingerprint r) s = Err (Call SframeWire.IdentityBindingFailed) \/
  exists x y, collision sha256 x y.
Proof.
  intros Hs Hr Ha Hb Lb Hn. destruct (start_Ok _ _ _ _ _ _ _ _ Hs) as (va & _ & Ha' & Hda & _).
  destruct (start_Ok _ _ _ _ _ _ _ _ Hr) as (vb & _ & Hb' & Hdb & _). rewrite Hb in Hb'. injection Hb' as <-.
  unfold verify_remote_dtls_fingerprint, local_dtls_fingerprint. rewrite verify_remote_exact, Hda, Hdb. cbn [runner_new local_fingerprint session_nonce].
  case_bool_decide as He; [right|by left]. apply derive_inj in He as [[_ ?]|?]; congruence || done.
Qed.

(** ** Media between two sessions *)
Fixpoint each {S E A B} (f : A -> st S E B) (l : list A) : st S E (list B) :=
  match l with
  | [] => sret []
  | x :: l => let! y := f x in let! ys := each f l in sret (y :: ys)
  end.
(** The keying material of the other end: the halves swapped. *)
Definition mirrored (m : SrtpKeyingMaterial) : SrtpKeyingMaterial :=
  {| key := drop 32 (key m) ++ take 32 (key m); salt := drop 12 (salt m) ++ take 12 (salt m); profile := profile m |}.
Fixpoint follow_all `{!SrtpLaws} (ps : list (list byte)) (e : SrtpCtx) : Prop :=
  match ps with
  | [] => True
  | p :: ps => follows p e /\ follow_all ps (ctx_encrypt p e).2
  end.

Lemma keying_Ok m p : len (key m) = 64 -> len (salt m) = 24 ->
  forall e d, ctx_new (take 32 (key m)) (take 12 (salt m)) None = inr e ->
    ctx_new (drop 32 (key m)) (drop 12 (salt m)) (Some SRTP_REPLAY_WINDOW) = inr d ->
  set_keying m p = (Ok tt, Some {| encrypt_ctx := e; decrypt_ctx := d; ps_profile := profile m |}).
Proof.
  intros Hk Hs e d He Hd. unfold set_keying, sguard, sbind, slift, sput, or_internal.
  rewrite Hk, Hs. rewrite bool_decide_true by (by destruct (profile m)). cbn [negb Z.eqb SRTP_KEY_LEN SRTP_SALT_LEN Z.mul Pos.mul Pos.eqb].
  change (Z.to_nat SRTP_KEY_LEN) with 32%nat. change (Z.to_nat SRTP_SALT_LEN) with 12%nat. by rewrite He, Hd.
Qed.
Lemma half_lens (m : SrtpKeyingMaterial) : len (key m) = 64 -> len (salt m) = 24 ->
  (len (take 32 (key m)) = 32 /\ len (drop 32 (key m)) = 32) /\ (len (take 12 (salt m)) = 12 /\ len (drop 12 (salt m)) = 12).
Proof. intros Hk Hs. rewrite !len_take, !len_drop. lia. Qed.
Lemma mirrored_halves (m : SrtpKeyingMaterial) : len (key m) = 64 -> len (salt m) = 24 ->
  (take 32 (key (mirrored m)) = drop 32 (key m) /\ drop 32 (key (mirrored m)) = take 32 (key m)) /\
  (take 12 (salt (mirrored m)) = drop 12 (salt m) /\ drop 12 (salt (mirrored m)) = take 12 (salt m)).
Proof.
  intros Hk Hs. destruct (half_lens m Hk Hs) as ((_ & ?) & (_ & ?)). unfold mirrored. cbn [key salt]. unfold len in *.
  rewrite !take_app_length', !drop_app_length' by lia. done.
Qed.

Lemma media_step `{!SrtpLaws} ps : forall s r ps1 ps2,
  srtp_pipeline s = Some ps1 -> srtp_pipeline r = Some ps2 -> in_step (encrypt_ctx ps1) (decrypt_ctx ps2) -> follow_all ps (encrypt_ctx ps1) ->
  exists ws s' r', each srtp_encrypt_rtp ps s = (Ok ws, s') /\ each srtp_decrypt_rtp ws r = (Ok ps, r') /\
    forall w, last ws = Some w -> (srtp_decrypt_rtp w r').1 = Err (Internal "SRTP: replay detected").
Proof.
  induction ps as [|p ps IH]; intros s r ps1 ps2 Hs Hr Hi; cbn [follow_all]; [intros _; by exists [], s, r|]. intros [Hf Hps].
  destruct (encrypt_total p (encrypt_ctx ps1) Hf) as (w & e' & He).
  destruct (decrypt_next p _ _ w e' Hi Hf He) as (d' & Hd & Hi' & ssrc & seq & Hrep). rewrite He in Hps. cbn [snd] in Hps.
  set (s1 := with_media s (Some {| encrypt_ctx := e'; decrypt_ctx := decrypt_ctx ps1; ps_profile := ps_profile ps1 |}) (sframe_context s)).
  set (r1 := with_media r (Some {| encrypt_ctx := encrypt_ctx ps2; decrypt_ctx := d'; ps_profile := ps_profile ps2 |}) (sframe_context r)).
  assert (Hse : srtp_encrypt_rtp p s = (Ok w, s1)) by (unfold srtp_encrypt_rtp, on_srtp; rewrite Hs; cbn; by rewrite He).
  assert (Hre : srtp_decrypt_rtp w r = (Ok p, r1)) by (unfold srtp_decrypt_rtp, on_srtp; rewrite Hr; cbn; by rewrite Hd).
  destruct (IH s1 r1 _ _ eq_refl eq_refl Hi' Hps) as (ws & s' & r' & Hws & Hps' & Hlast).
  exists (w :: ws), s', r'. cbn [each]. unfold sbind at 1. rewrite Hse. unfold sbind. rewrite Hws, Hre, Hps'. split_and!; try done.
  intros w0 Hw0. destruct ws as [|w1 ws]; [|by apply Hlast]. injection Hw0 as <-.
  assert (r' = r1) as -> by (cbn in Hps'; by injection Hps').
  unfold srtp_decrypt_rtp, on_srtp, r1. cbn. by rewrite Hrep.
Qed.

(** Keyed with mirrored material, the packets one session encrypts in order are exactly those
    the other decrypts, in both directions, and the last packet is refused when it is delivered
    again; keying material of another length is refused and leaves the pipeline as it was. *)
Theorem call_media_delivered `{!SrtpLaws} m s r ps :
  len (key m) = 64 -> len (salt m) = 24 ->
  (forall e, ctx_new (take 32 (key m)) (take 12 (salt m)) None = inr e -> follow_all ps e) ->
  (exists s1 r1 ws s' r', install_srtp_keying m s = (Ok tt, s1) /\ install_srtp_keying (mirrored m) r = (Ok tt, r1) /\
    mirrored (mirrored m) = m /\ each srtp_encrypt_rtp ps s1 = (Ok ws, s') /\ each srtp_decrypt_rtp ws r1 = (Ok ps, r') /\
    forall w, last ws = Some w -> (srtp_decrypt_rtp w r').1 = Err (Internal "SRTP: replay detected")) /\
  (forall m' s1, len (key m') <> 64 \/ len (salt m') <> 24 -> install_srtp_keying m' s = s1 -> (exists e, s1.1 = Err e) /\ srtp_pipeline s1.2 = srtp_pipeline s).
Proof.
  intros Hk Hs Hf. split.
  - destruct (half_lens m Hk Hs) as ((Hk1 & Hk2) & (Hs1 & Hs2)). destruct (mirrored_halves m Hk Hs) as ((Mk1 & Mk2) & (Ms1 & Ms2)).
    destruct (new_total _ _ None Hk1 Hs1) as (e & He). destruct (new_total _ _ (Some SRTP_REPLAY_WINDOW) Hk1 Hs1) as (d & Hd).
    destruct (new_total _ _ None Hk2 Hs2) as (e2 & He2). destruct (new_total _ _ (Some SRTP_REPLAY_WINDOW) Hk2 Hs2) as (d2 & Hd2).
    assert (Hmk : len (key (mirrored m)) = 64) by (cbn; rewrite len_app; lia).
    assert (Hms : len (salt (mirrored m)) = 24) by (cbn; rewrite len_app; lia).
    pose proof (keying_Ok m (srtp_pipeline s) Hk Hs e d2 He Hd2) as Hset.
    pose proof (keying_Ok (mirrored m) (srtp_pipeline r) Hmk Hms e2 d) as Hset'. rewrite Mk1, Mk2, Ms1, Ms2 in Hset'. specialize (Hset' He2 Hd).
    set (s1 := with_media s (Some {| encrypt_ctx := e; decrypt_ctx := d2; ps_profile := profile m |}) (sframe_context s)).
    set (r1 := with_media r (Some {| encrypt_ctx := e2; decrypt_ctx := d; ps_profile := profile (mirrored m) |}) (sframe_context r)).
    destruct (media_step ps s1 r1 _ _ eq_refl eq_refl (new_in_step _ _ _ _ _ He Hd) (Hf e He)) as (ws & s' & r' & Hws & Hrs & Hl).
    exists s1, r1, ws, s', r'. split_and!; try done.
    + unfold install_srtp_keying, on_srtp. by rewrite Hset.
    + unfold install_srtp_keying, on_srtp. by rewrite Hset'.
    + unfold mirrored at 1. rewrite Mk1, Mk2, Ms1, Ms2, !take_drop. by destruct m.
  - intros m' s1 Hl <-. destruct (on_srtp_eq (set_keying m') s) as (_ & Hp & Hr). unfold install_srtp_keying. rewrite Hp, Hr.
    unfold set_keying, sguard. case_match; [by split; [eauto|]|]. case_match; [by split; [eauto|]|]. case_match; [by split; [eauto|]|].
    exfalso. rewrite !negb_false_iff, !Z.eqb_eq in *. unfold SRTP_KEY_LEN, SRTP_SALT_LEN in *. lia.
Qed.
End Session.

(** ** A concrete library for the witnesses: agents are their configurations, a packet is sent
    behind the key, a receiver remembers the packets it has read *)
Definition toy_ice : IceLib := {|
  IceUrl := string; IceError := unit; Agent := AgentConfig string;
  parse_url u := inr u; with_credentials _ _ u := u; agent_new := inr; agent_candidates a := inr (candidate_types a)
|}.
#[local] Existing Instance toy_ice.
Lemma toy_ice_laws : IceLaws.
Proof. split. cbn. intros cfg a cs c [= <-] [= <-]. done. Qed.
Definition toy_srtp : SrtpLib := {|
  SrtpCtx := list byte * list byte * list (list byte);
  ctx_new k s _ := inr (k, s, []);
  ctx_encrypt p '(k, s, seen) := (inr (k ++ p), (k, s, p :: seen));
  ctx_decrypt w '(k, s, seen) :=
    let p := drop (length k) w in
    if bool_decide (take (length k) w = k) then
      if bool_decide (p ∈ seen) then (inl (SrtpSsrcDuplicated 0 0), (k, s, seen)) else (inr p, (k, s, p :: seen))
    else (inl AesGcm, (k, s, seen))
|}.
#[local] Existing Instance toy_srtp.
#[local] Existing Instance Sframe.toy_crypto.
#[local] Instance toy_srtp_laws : SrtpLaws.
Proof.
  refine {| in_step := eq; follows p e := p ∉ e.2 |}.
  - eauto.
  - by intros k s w e d [= <-] [= <-].
  - intros p [[k s] seen] _. cbn. eauto.
  - intros p [[k s] seen] d w e' <- Hf [= <- <-]. cbn in Hf |- *.
    rewrite take_app_length, drop_app_length, !bool_decide_true, bool_decide_false by done.
    eexists. split_and!; [done|done|]. cbn. rewrite take_app_length, drop_app_length, !bool_decide_true by (done || left). by exists 0, 0.
Defined.

Definition toy_sha (x : list byte) : list byte := x.
Definition key_a : list byte := replicate 32 Byte.x01.
Definition key_b : list byte := replicate 32 Byte.x02.
Definition toy_core (k : list byte) : CallCore :=
  {| hw_verifying_key := None; identity_public := Some k; call_relay_transport := {| allocations := 0; last_request := None |} |}.
Definition toy_policy : CallPolicy := {| default_routing := DirectP2P; sensitive_contacts := {[key_b]}; allow_p2p_global := true |}.
Definition toy_start (m : ModeEnforcement) (k nonce p : list byte) := start_with_enforcement toy_sha [] nonce p toy_policy m (toy_core k).
Definition toy_agent (b : bool) (p : list byte) : IceAgent :=
  {| inner := agent_config (if b then [Relay] else [Host; ServerReflexive; Relay]) (url (peer_turn p)) : @Agent toy_ice; no_p2p := b |}.
Definition toy_session (m : ModeEnforcement) (k nonce p : list byte) : CallSession :=
  {| call_id := []; peer := p; effective_policy := apply m toy_policy; state := Signalling;
     ice_agent := toy_agent (bool_decide (m = SecretMode)) p; dtls_runner := runner_new toy_sha k nonce; srtp_pipeline := None; sframe_context := Sframe.new |}.
Lemma toy_started m k nonce p : toy_start m k nonce p = (Ok (toy_session m k nonce p), (toy_start m k nonce p).2).
Proof. unfold toy_start. rewrite start_exact. by destruct m. Qed.

Lemma call_binding_exact_witness :
  compute_mutual_identity_binding toy_sha key_a key_b [] = compute_mutual_identity_binding toy_sha key_b key_a [] /\
  verify_remote (N := unit) toy_sha (runner_new toy_sha key_a []) key_b (derive toy_sha key_b []) = Ok tt.
Proof.
  destruct (call_binding_exact toy_sha unit key_a key_b key_a key_b [] [] (derive toy_sha key_b []) eq_refl eq_refl eq_refl eq_refl)
    as (He & _ & Hv & _). split; [exact He|]. by apply Hv.
Defined.
Lemma secret_call_relays_witness :
  no_p2p (ice_agent (run (toy_session SecretMode key_a [] key_b) [EvGather; EvConnected])) = true /\
  effective_routing (effective_policy (run (toy_session SecretMode key_a [] key_b) [EvGather; EvConnected])) key_b = DoubleRelay.
Proof.
  destruct (@secret_call_relays toy_ice toy_srtp Sframe.toy_crypto toy_sha toy_ice_laws [] [] key_b toy_policy (toy_core key_a)
    _ _ [EvGather; EvConnected] (toy_started SecretMode key_a [] key_b)) as (_ & Hn & _ & _ & Hr & _).
  split; [exact Hn|]. apply Hr. by vm_compute.
Defined.
Lemma sensitive_contact_exposed_witness : no_p2p (ice_agent (toy_session CloudMode key_a [] key_b)) = false.
Proof.
  destruct (sensitive_contact_exposed toy_sha [] [] key_b toy_policy (toy_core key_a) _ _ (toy_started CloudMode key_a [] key_b)) as (_ & H & _).
  - by vm_compute.
  - reflexivity.
  - exact H.
Defined.
Lemma connected_is_keyed_witness : media_ready (run (toy_session CloudMode key_a [] key_b) [EvGather; EvIceComplete; EvConnected]).
Proof.
  apply (proj1 (connected_is_keyed toy_sha [] [] key_b toy_policy CloudMode (toy_core key_a) _ _
    [EvGather; EvIceComplete; EvConnected] (toy_started CloudMode key_a [] key_b))).
Defined.
Lemma honest_peers_refused_witness :
  verify_remote_dtls_fingerprint toy_sha key_b (local_dtls_fingerprint (toy_session CloudMode key_b [Byte.x02] key_a)) (toy_session CloudMode key_a [Byte.x01] key_b)
    = Err (Call SframeWire.IdentityBindingFailed).
Proof.
  destruct (honest_peers_refused toy_sha [] [Byte.x01] key_b toy_policy CloudMode (toy_core key_a) _ _ [] [Byte.x02] key_a toy_policy CloudMode
    (toy_core key_b) _ _ key_a key_b (toy_started CloudMode key_a [Byte.x01] key_b) (toy_started CloudMode key_b [Byte.x02] key_a)
    eq_refl eq_refl eq_refl ltac:(discriminate)) as [H|(x & y & Hn & He)]; [exact H|by destruct Hn].
Defined.
Definition toy_material : SrtpKeyingMaterial := {| key := key_a ++ key_b; salt := replicate 24 Byte.x03; profile := AeadAes256Gcm |}.
Lemma call_media_delivered_witness :
  exists s1 r1 ws s' r', install_srtp_keying toy_material (toy_session CloudMode key_a [] key_b) = (Ok tt, s1) /\
    install_srtp_keying (mirrored toy_material) (toy_session CloudMode key_b [] key_a) = (Ok tt, r1) /\
    each srtp_encrypt_rtp [[Byte.x00]; [Byte.x01]] s1 = (Ok ws, s') /\ each srtp_decrypt_rtp ws r1 = (Ok [[Byte.x00]; [Byte.x01]], r').
Proof.
  destruct (call_media_delivered toy_material (toy_session CloudMode key_a [] key_b) (toy_session CloudMode key_b [] key_a) [[Byte.x00]; [Byte.x01]])
    as ((s1 & r1 & ws & s' & r' & Hi & Hi' & _ & He & Hd & _) & _); [reflexivity|reflexivity| |by exists s1, r1, ws, s', r'].
  intros e [= <-]. cbn. split_and!; [by apply not_elem_of_nil|by intros [=]%list_elem_of_singleton|done].
Defined.
End Calls.
