(* ===== verification/Transport.v ===== *)
(** * Retries, gateway fallback and channel choice
    ([crates/umbrella-client/src/transport/retry.rs], [gateway.rs];
    [crates/umbrella-threshold-identity/src/transport.rs])

    The loop that repeats a failed request with a growing, jittered delay, the connection that
    falls back from QUIC to WebSocket, and the choice of a reachable channel.  An operation, a
    connection attempt and a probe are parameters; times are milliseconds. *)
From S2P Require Import Prelude Bytes.
Local Open Scope string_scope.
Local Open Scope list_scope.
Local Open Scope Z_scope.

Module Transport.

(** ** Retries *)
Definition DEFAULT_MAX_ATTEMPTS : Z := 3.
Definition INITIAL_BACKOFF : Z := 500.
Definition MAX_BACKOFF : Z := 10000.

(** [gen_range half g] draws from [0..half] with the generator [g]. *)
Class Jitter (G : Type) := { gen_range : Z -> G -> Z * G }.
Class JitterLaws (G : Type) `{Jitter G} : Prop := { gen_range_in : forall half g, 0 < half -> 0 <= (gen_range half g).1 < half }.

Section Retry.
Context {St E T G : Type} `{Jitter G} (operation : st St E T) (retryable : E -> bool).

Definition jitter_millis_with_rng (backoff : Z) (g : G) : Z * G :=
  let half_ms := backoff / 2 in
  if half_ms =? 0 then (0, g) else gen_range half_ms g.

(** What a call leaves behind: its result, the state of the operation, how often it ran and the
    delays between the runs. *)
Record Outcome := { result : res E T; final : St; attempts : Z; sleeps : list Z; generator : G }.

(** The [loop]; [None] stands for a loop that is still running when the fuel is used up. *)
Fixpoint retry_loop (fuel : nat) (max_attempts attempt backoff : Z) (slept : list Z) (s : St) (g : G) : option Outcome :=
  match fuel with
  | O => None
  | S fuel =>
      let attempt := sat_add U32_MAX attempt 1 in
      match operation s with
      | (Err e, s) =>
          if retryable e && (attempt <? max_attempts) then
            let '(jitter_ms, g) := jitter_millis_with_rng backoff g in
            let sleep_for := backoff + jitter_ms in
            retry_loop fuel max_attempts attempt (Z.min (2 * backoff) MAX_BACKOFF) (slept ++ [sleep_for]) s g
          else Some {| result := Err e; final := s; attempts := attempt; sleeps := slept; generator := g |}
      | (r, s) => Some {| result := r; final := s; attempts := attempt; sleeps := slept; generator := g |}
      end
  end.
(** [retry_with_backoff] of a release build, which skips the [debug_assert!]. *)
Definition retry_with_backoff (max_attempts : Z) (s : St) (g : G) : option Outcome :=
  retry_loop (S (Z.to_nat max_attempts)) max_attempts 0 INITIAL_BACKOFF [] s g.

(** The state before run [i + 1], the result of run [i + 1], the delay before run [i + 2]. *)
Definition state_at (i : nat) (s : St) : St := Nat.iter i (fun s => (operation s).2) s.
Definition result_at (i : nat) (s : St) : res E T := (operation (state_at i s)).1.
Definition backoff_at (i : nat) : Z := Z.min (INITIAL_BACKOFF * 2 ^ Z.of_nat i) MAX_BACKOFF.
Definition again (r : res E T) : bool := match r with Err e => retryable e | _ => false end.

Lemma state_at_S i s : state_at (S i) s = (operation (state_at i s)).2.
Proof. done. Qed.
Lemma backoff_at_S i : backoff_at (S i) = Z.min (2 * backoff_at i) MAX_BACKOFF.
Proof. unfold backoff_at, INITIAL_BACKOFF, MAX_BACKOFF. rewrite Nat2Z.inj_succ, Z.pow_succ_r by lia. lia. Qed.
Lemma backoff_at_range i : INITIAL_BACKOFF <= backoff_at i <= MAX_BACKOFF.
Proof.
  unfold backoff_at, INITIAL_BACKOFF, MAX_BACKOFF. assert (0 < 2 ^ Z.of_nat i) by (apply Z.pow_pos_nonneg; lia). lia.
Qed.

(** A delay the loop may choose before run [i + 2]. *)
Definition delay_ok (i : nat) (d : Z) : Prop := backoff_at i <= d < backoff_at i + backoff_at i / 2.
Lemma jitter_ok `{!JitterLaws G} i g : delay_ok i (backoff_at i + (jitter_millis_with_rng (backoff_at i) g).1).
Proof.
  unfold delay_ok, jitter_millis_with_rng. pose proof (backoff_at_range i) as Hb. unfold INITIAL_BACKOFF in Hb.
  assert (0 < backoff_at i / 2) by (apply Z.div_str_pos; lia).
  destruct (Z.eqb_spec (backoff_at i / 2) 0); [lia|]. pose proof (gen_range_in (backoff_at i / 2) g). lia.
Qed.

(** What one call does, as a reference: it runs until the first result that is not retried. *)
Record exact (max_attempts : Z) (s : St) (o : Outcome) : Prop := {
  ran : exists n : nat, attempts o = Z.of_nat n + 1 /\ result o = result_at n s /\ final o = state_at (S n) s /\
          (forall i, (i < n)%nat -> again (result_at i s) = true) /\
          (again (result_at n s) = true -> max_attempts <= Z.of_nat n + 1) /\ Z.of_nat n < Z.max 1 max_attempts /\
          length (sleeps o) = n /\ forall i d, sleeps o !! i = Some d -> delay_ok i d
}.

Lemma retry_loop_exact `{!JitterLaws G} max s : is_u32 max -> forall fuel n slept g,
  (forall i, (i < n)%nat -> again (result_at i s) = true) -> (n = O \/ Z.of_nat n < max) ->
  length slept = n -> (forall i d, slept !! i = Some d -> delay_ok i d) -> Z.max 1 max - Z.of_nat n <= Z.of_nat fuel ->
  exists o, retry_loop fuel max (Z.of_nat n) (backoff_at n) slept (state_at n s) g = Some o /\ exact max s o.
Proof.
  intros Hmax. induction fuel as [|fuel IH]; intros n slept g Hagain Hn Hlen Hd Hf; [lia|].
  cbn [retry_loop]. unfold sat_add, is_u32, U32_MAX in *. rewrite Z.min_r by lia.
  destruct (operation (state_at n s)) as [r s'] eqn:Hop.
  assert (Hs' : s' = state_at (S n) s) by (by rewrite state_at_S, Hop).
  assert (Hr : r = result_at n s) by (unfold result_at; by rewrite Hop).
  assert (Hstop : (again r = true -> max <= Z.of_nat n + 1) ->
    exact max s {| result := r; final := s'; attempts := Z.of_nat n + 1; sleeps := slept; generator := g |}).
  { intros Hmx. split. exists n. cbn [attempts result final sleeps]. rewrite <- Hr, <- Hs'. split_and!; try done. lia. }
  destruct r as [a|e|]; [eexists; split; [done|by apply Hstop]| |eexists; split; [done|by apply Hstop]].
  destruct (retryable e) eqn:Hre; cbn [andb]; [|eexists; split; [done|apply Hstop; cbn [again]; congruence]].
  destruct (Z.ltb_spec (Z.of_nat n + 1) max) as [Hlt|Hge]; [|eexists; split; [done|apply Hstop; cbn [again]; lia]].
  destruct (jitter_millis_with_rng (backoff_at n) g) as [j g'] eqn:Hj.
  replace (Z.of_nat n + 1) with (Z.of_nat (S n)) by lia. rewrite <- backoff_at_S, Hs'. apply IH.
  - intros i Hi. destruct (decide (i = n)) as [->|]; [|apply Hagain; lia]. by rewrite <- Hr.
  - lia.
  - rewrite length_app. cbn. lia.
  - intros i d. pose proof (jitter_ok n g) as Ho. rewrite Hj in Ho. cbn [fst] in Ho.
    rewrite lookup_app_Some. intros [?|[Hi Hx]]; [by apply Hd|]. rewrite Hlen in *.
    destruct (i - n)%nat as [|k] eqn:Hk; [|done]. injection Hx as <-. by replace i with n by lia.
  - lia.
Qed.
End Retry.
Arguments Outcome : clear implicits.
Arguments retry_with_backoff {_ _ _ _ _}.
Arguments exact {_ _ _ _}.

(** C31. Retrying always ends: for every operation, every classification of errors and every limit the
    loop stops within the limit, returns the result of the first run that is not to be repeated
    or of the last one allowed, and waits between the runs at least the doubled, capped backoff
    and less than one and a half times it. *)
Theorem retry_terminates {St E T G} `{!Jitter G, !JitterLaws G} (operation : st St E T) (retryable : E -> bool) max s g :
  is_u32 max -> exists o : Outcome St E T G, retry_with_backoff operation retryable max s g = Some o /\ exact operation retryable max s o.
Proof.
  intros Hmax. unfold retry_with_backoff. apply (retry_loop_exact operation retryable max s Hmax _ O []).
  - intros i Hi. lia.
  - by left.
  - done.
  - intros i d Hd. done.
  - unfold is_u32 in Hmax. lia.
Qed.

(** [is_reqwest_retryable]: what the function reads of an error. *)
Record ReqwestError := { is_timeout : bool; is_connect : bool; status : option Z }.
Definition is_5xx (e : ReqwestError) : bool := match status e with Some s => (500 <=? s) && (s <? 600) | None => false end.
Definition is_reqwest_retryable (e : ReqwestError) : bool := is_timeout e || is_connect e || is_5xx e.

(** ** The gateway *)
Inductive NegotiatedSubprotocol := ProtobufV1 | MessagePackV1.
Inductive NegotiatedTransport := TQuic | TWebSocket (p : NegotiatedSubprotocol).
Definition metric_label (t : NegotiatedTransport) : string :=
  match t with TQuic => "quic" | TWebSocket ProtobufV1 => "ws-pb" | TWebSocket MessagePackV1 => "ws-mpack" end.

Section Gateway.
Context {N QuicConn WsConn QuicError WsError : Type} (ws_negotiated : WsConn -> NegotiatedSubprotocol).
Inductive GatewayTransportError := EQuic (e : QuicError) | EWebSocket (e : WsError) | BothFailed (quic : QuicError) (websocket : WsError).
Inductive GatewayConnection := Quic (c : QuicConn) | WebSocket (c : WsConn).
(** The transports act on the network [N]. *)
Record GatewayTransport := { quic : option (N -> (QuicError + QuicConn) * N); websocket : N -> (WsError + WsConn) * N }.
Definition connect (t : GatewayTransport) : st N GatewayTransportError GatewayConnection := fun n =>
  let fallback (quic_err : option QuicError) n :=
    match websocket t n with
    | (inr conn, n) => (Ok (WebSocket conn), n)
    | (inl ws_err, n) => (Err (match quic_err with Some q => BothFailed q ws_err | None => EWebSocket ws_err end), n)
    end in
  match quic t with
  | Some q => match q n with
              | (inr conn, n) => (Ok (Quic conn), n)
              | (inl e, n) => fallback (Some e) n
              end
  | None => fallback None n
  end.
Definition negotiated (c : GatewayConnection) : NegotiatedTransport :=
  match c with Quic _ => TQuic | WebSocket c => TWebSocket (ws_negotiated c) end.
Definition is_quic (c : GatewayConnection) : bool := match c with Quic _ => true | WebSocket _ => false end.

(** Both methods of a connection go to the transport that was negotiated. *)
Definition dispatch {A} (on_quic : QuicConn -> st N QuicError A) (on_ws : WsConn -> st N WsError A) (c : GatewayConnection) : st N GatewayTransportError A := fun n =>
  match c with
  | Quic c => let '(r, n) := on_quic c n in (rmap_err EQuic r, n)
  | WebSocket c => let '(r, n) := on_ws c n in (rmap_err EWebSocket r, n)
  end.

(** A connection is refused only when every transport that was tried refused it, in order, and
    QUIC is preferred whenever it answers. *)
Lemma connect_exact t n :
  (forall c n', connect t n = (Ok (Quic c), n') <-> exists q, quic t = Some q /\ q n = (inr c, n')) /\
  (forall q w n', connect t n = (Err (BothFailed q w), n') <->
     exists f n1, quic t = Some f /\ f n = (inl q, n1) /\ websocket t n1 = (inl w, n')) /\
  (forall c n', connect t n = (Ok (WebSocket c), n') <->
     exists n1, match quic t with Some f => exists e, f n = (inl e, n1) | None => n1 = n end /\ websocket t n1 = (inr c, n')).
Proof.
  unfold connect. destruct (quic t) as [f|]; [destruct (f n) as [[e|x] n1] eqn:Hf|].
  all: try destruct (websocket t n1) as [[?|?] ?] eqn:Hw; try destruct (websocket t n) as [[?|?] ?] eqn:Hw'.
  all: (split; [|split]); intros; split; intros Hc;
    repeat match goal with H : ex _ |- _ => destruct H | H : _ /\ _ |- _ => destruct H end; simplify_eq; try congruence; eauto 10.
Qed.
End Gateway.
Definition default_quic_fallback_budget : Z := 500.

(** ** Channels of the threshold servers *)
Inductive TransportChannel := DirectTls | TorSocks | Mixnet | AlternativeIp.
Definition expected_rtt_ms (c : TransportChannel) : Z :=
  match c with DirectTls => 50 | AlternativeIp => 80 | TorSocks => 500 | Mixnet => 2000 end.
Record TransportSelector := { fallback_chain : list TransportChannel; probe_timeout : Z }.
Definition selector_default : TransportSelector :=
  {| fallback_chain := [DirectTls; AlternativeIp; TorSocks; Mixnet]; probe_timeout := 5000 |}.
Definition pick (s : TransportSelector) (probe : TransportChannel -> Z -> bool) : option TransportChannel :=
  List.find (fun channel => probe channel (probe_timeout s)) (fallback_chain s).

(** The default choice is the reachable channel with the smallest expected round trip, and there is
    none exactly when no channel is reachable. *)
Lemma pick_default_fastest probe :
  let reach c := probe c (probe_timeout selector_default) = true in
  (forall c, pick selector_default probe = Some c <->
     reach c /\ forall c', reach c' -> expected_rtt_ms c <= expected_rtt_ms c') /\
  (pick selector_default probe = None <-> forall c, ~ reach c).
Proof.
  cbn zeta. unfold pick, selector_default. cbn [fallback_chain probe_timeout List.find].
  assert (Hmin : forall c c', expected_rtt_ms c <= expected_rtt_ms c' -> expected_rtt_ms c' <= expected_rtt_ms c -> c = c')
    by (intros [] []; cbn; done || lia).
  split; [intros c; split|split].
  - intros Hc. repeat case_match; simplify_eq; (split; [done|]); intros []; cbn; congruence || lia.
  - intros [Hc Hle]. repeat case_match; try (f_equal; apply Hmin; [|by apply Hle]; destruct c; cbn; congruence || lia).
    by destruct c; congruence.
  - repeat case_match; try done. intros _ []; congruence.
  - intros Hn. repeat case_match; try (exfalso; eapply Hn; eassumption). done.
Qed.

(** ** A concrete generator and operation for the witness: two time-outs, then an answer *)
Definition toy_jitter : Jitter unit := {| gen_range _ g := (0, g) |}.
#[local] Existing Instance toy_jitter.
Lemma toy_jitter_laws : JitterLaws unit.
Proof. split. cbn. lia. Qed.
Definition toy_operation : st Z ReqwestError Z := fun n =>
  (if n <? 2 then Err {| is_timeout := true; is_connect := false; status := None |} else Ok n, n + 1).
Lemma retry_terminates_witness :
  exists o : Outcome Z ReqwestError Z unit,
    retry_with_backoff toy_operation is_reqwest_retryable DEFAULT_MAX_ATTEMPTS 0 tt = Some o /\ result o = Ok 2 /\ attempts o = 3 /\ sleeps o = [500; 1000].
Proof.
  destruct (@retry_terminates Z ReqwestError Z unit toy_jitter toy_jitter_laws toy_operation is_reqwest_retryable DEFAULT_MAX_ATTEMPTS 0 tt)
    as (o & Ho & _); [by vm_compute|]. exists o. split; [exact Ho|]. vm_compute in Ho. injection Ho as <-. done.
Defined.
End Transport.
