(* ===== verification/Pinning.v ===== *)
(** * Certificate pins and the production endpoints
    ([crates/umbrella-client/src/transport/pinning.rs], [http2_client.rs])

    A TLS connection of the client is accepted when the platform accepts the certificate and its
    public key is pinned for the host.  The production configuration names the services and their
    pins; hosts that look like a test setup are refused, for which addresses are parsed as
    [std::net] does.  X.509, SHA-256, URLs and the platform's verifier are parameters. *)
From S2P Require Import Prelude Bytes ClientError.
From stdpp Require Import sorting.
From Stdlib Require Import Ascii.
Local Open Scope string_scope.
Local Open Scope list_scope.
Local Open Scope Z_scope.

Module Pinning.

(** ** Strings *)
Definition to_lower (c : ascii) : ascii := let n := nat_of_ascii c in if bool_decide (65 <= n <= 90)%nat then ascii_of_nat (n + 32) else c.
Definition to_ascii_lowercase (s : string) : string := String.string_of_list_ascii (to_lower <$> String.list_ascii_of_string s).
Fixpoint drop_char (c : ascii) (l : list ascii) : list ascii :=
  match l with x :: l' => if decide (x = c) then drop_char c l' else l | [] => [] end.
Definition trim_start_matches (c : ascii) (s : string) : string := String.string_of_list_ascii (drop_char c (String.list_ascii_of_string s)).
Definition trim_end_matches (c : ascii) (s : string) : string :=
  String.string_of_list_ascii (reverse (drop_char c (reverse (String.list_ascii_of_string s)))).
Definition ends_with (s suffix : string) : bool :=
  bool_decide (reverse (String.list_ascii_of_string suffix) `prefix_of` reverse (String.list_ascii_of_string s)).
Definition normalize_dns_host (host : string) : string := to_ascii_lowercase (trim_end_matches "." host).

(** ** Pins ([pinning.rs]) *)
Definition SPKI_PIN_LEN : Z := 32.
Definition SpkiPin : Type := list byte.
Record PinningConfig := { primary : SpkiPin; backup : option SpkiPin }.
#[export] Instance pinning_eq : EqDecision PinningConfig.
Proof. solve_decision. Defined.
Definition single (primary : SpkiPin) : PinningConfig := {| primary := primary; backup := None |}.
Definition dual (primary backup : SpkiPin) : PinningConfig := {| primary := primary; backup := Some backup |}.
Definition pin_matches (c : PinningConfig) (candidate : SpkiPin) : bool :=
  bool_decide (primary c = candidate) || match backup c with Some b => bool_decide (b = candidate) | None => false end.
Inductive PinningVerifierError :=
| InvalidCertificateDer | MissingPins (server_name : string) | PinMismatch (server_name : string) | UnsupportedServerName (server_name : string).
Inductive ServerName := DnsName (name : string) | IpAddress (text : string) | OtherName (text : string).

(** [Certificate::from_der], [to_der] of the key of a certificate, SHA-256; the verifier that is
    strengthened and what it is asked. *)
Class Tls := {
  Certificate : Type; from_der : list byte -> option Certificate; spki_to_der : Certificate -> option (list byte);
  sha256 : list byte -> list byte;
  RustlsError : Type; General : PinningVerifierError -> RustlsError; ServerCertVerified : Type
}.
Section Verifier.
Context `{Tls}.
Record CertQuestion := { end_entity : list byte; intermediates : list (list byte); server_name : ServerName; ocsp_response : list byte; now : Z }.
Definition InnerVerifier : Type := CertQuestion -> res RustlsError ServerCertVerified.
Definition from_spki_der (spki_der : list byte) : SpkiPin := sha256 spki_der.
Definition extract_spki_pin_from_cert_der (certificate_der : list byte) : res PinningVerifierError SpkiPin :=
  reject bool_decide (certificate_der = []) with InvalidCertificateDer ;;
  let? certificate := ok_or (from_der certificate_der) InvalidCertificateDer in
  let? spki_der := ok_or (spki_to_der certificate) InvalidCertificateDer in
  Ok (from_spki_der spki_der).

Record SpkiPinningVerifier := { inner : InnerVerifier; vpins : gmap string PinningConfig }.
(** A [BTreeMap] is iterated in the order of its keys. *)
#[local] Instance key_order_dec : RelDecision (fun x y : string * PinningConfig => Is_true (String.leb x.1 y.1)).
Proof. intros x y. apply _. Defined.
Definition btree_entries (m : gmap string PinningConfig) : list (string * PinningConfig) :=
  merge_sort (fun x y => Is_true (String.leb x.1 y.1)) (map_to_list m).
Fixpoint insert_normalized (l : list (string * PinningConfig)) (normalized : gmap string PinningConfig)
  : res PinningVerifierError (gmap string PinningConfig) :=
  match l with
  | [] => Ok normalized
  | (raw_host, pins) :: l =>
      let host := normalize_dns_host raw_host in
      reject bool_decide (host = "") with UnsupportedServerName raw_host ;;
      insert_normalized l (<[host := pins]> normalized)
  end.
Definition verifier_new (inner : InnerVerifier) (pins_by_host : gmap string PinningConfig) : res PinningVerifierError SpkiPinningVerifier :=
  let? normalized := insert_normalized (btree_entries pins_by_host) ∅ in
  Ok {| inner := inner; vpins := normalized |}.
Definition server_name_to_dns_host (n : ServerName) : res PinningVerifierError string :=
  match n with
  | DnsName name => Ok (normalize_dns_host name)
  | IpAddress text => Err (UnsupportedServerName text)
  | OtherName text => Err (UnsupportedServerName text)
  end.
Definition verify_pin (v : SpkiPinningVerifier) (n : ServerName) (certificate_der : list byte) : res PinningVerifierError unit :=
  let? host := server_name_to_dns_host n in
  let? configured := ok_or (vpins v !! host) (MissingPins host) in
  let? candidate := extract_spki_pin_from_cert_der certificate_der in
  if pin_matches configured candidate then Ok tt else Err (PinMismatch host).
Definition verify_server_cert (v : SpkiPinningVerifier) (q : CertQuestion) : res RustlsError ServerCertVerified :=
  let? verified := inner v q in
  let? _ := rmap_err General (verify_pin v (server_name q) (end_entity q)) in
  Ok verified.
End Verifier.

(** ** Addresses ([std::net] parsing, as [str::parse::<IpAddr>] does) *)
Inductive IpAddr := V4 (a b c d : Z) | V6 (segments : list Z).
Definition to_digit (radix : Z) (c : ascii) : option Z :=
  let n := Z.of_nat (nat_of_ascii c) in
  let d := if (48 <=? n) && (n <=? 57) then n - 48 else if (97 <=? n) && (n <=? 102) then n - 87
           else if (65 <=? n) && (n <=? 70) then n - 55 else 16 in
  if d <? radix then Some d else None.
Fixpoint span_digits (radix : Z) (l : list ascii) : list Z * list ascii :=
  match l with
  | c :: l' => match to_digit radix c with Some d => let '(ds, rest) := span_digits radix l' in (d :: ds, rest) | None => ([], l) end
  | [] => ([], [])
  end.
Definition digits_value (radix : Z) (ds : list Z) : Z := foldl (fun v d => v * radix + d) 0 ds.
Definition read_number (radix max_digits limit : Z) (allow_zero_prefix : bool) (l : list ascii) : option (Z * list ascii) :=
  let '(ds, rest) := span_digits radix l in
  if bool_decide (ds = []) || (max_digits <? len ds) || (limit <? digits_value radix ds)
     || (negb allow_zero_prefix && bool_decide (head ds = Some 0) && (1 <? len ds)) then None
  else Some (digits_value radix ds, rest).
Definition read_given_char (c : ascii) (l : list ascii) : option (list ascii) :=
  match l with x :: l' => if decide (x = c) then Some l' else None | [] => None end.
Definition read_octet : list ascii -> option (Z * list ascii) := read_number 10 3 255 false.
Definition read_ipv4_addr (l : list ascii) : option (Z * Z * Z * Z * list ascii) :=
  '(a, l) ← read_octet l; l ← read_given_char "." l; '(b, l) ← read_octet l; l ← read_given_char "." l;
  '(c, l) ← read_octet l; l ← read_given_char "." l; '(d, l) ← read_octet l; Some (a, b, c, d, l).
Definition read_separator {A} (first : bool) (inner : list ascii -> option A) (l : list ascii) : option A :=
  if first then inner l else l ← read_given_char ":" l; inner l.
(** The groups read, whether they end in an IPv4 address, and the rest; [k] slots are left. *)
Fixpoint read_groups (k : nat) (first : bool) (l : list ascii) : list Z * bool * list ascii :=
  match k with
  | O => ([], false, l)
  | S k' =>
      match (if (1 <=? k')%nat then read_separator first read_ipv4_addr l else None) with
      | Some (a, b, c, d, rest) => ([256 * a + b; 256 * c + d], true, rest)
      | None => match read_separator first (read_number 16 4 65535 true) l with
                | None => ([], false, l)
                | Some (g, rest) => let '(gs, v4, rest) := read_groups k' false rest in (g :: gs, v4, rest)
                end
      end
  end.
Definition read_ipv6_addr (l : list ascii) : option (list Z * list ascii) :=
  let '(hd, head_ipv4, l) := read_groups 8 true l in
  if bool_decide (length hd = 8%nat) then Some (hd, l)
  else if head_ipv4 then None
  else l ← read_given_char ":" l; l ← read_given_char ":" l;
       let '(tl, _, l) := read_groups (8 - (length hd + 1)) true l in
       Some (hd ++ replicate (8 - length hd - length tl) 0 ++ tl, l).
Definition parse_ip (s : string) : option IpAddr :=
  let finish {A} (r : A) (rest : list ascii) := match rest with [] => Some r | _ => None end in
  match read_ipv4_addr (String.list_ascii_of_string s) with
  | Some (a, b, c, d, rest) => finish (V4 a b c d) rest
  | None => match read_ipv6_addr (String.list_ascii_of_string s) with Some (segs, rest) => finish (V6 segs) rest | None => None end
  end.

(** ** Production hosts ([http2_client.rs]) *)
Definition is_forbidden_production_ip4 (a b c d : Z) : bool :=
  bool_decide ([a; b; c; d] = [0; 0; 0; 0]) || (a =? 127)
  || ((a =? 10) || ((a =? 172) && (16 <=? b) && (b <=? 31)) || ((a =? 192) && (b =? 168)))
  || ((a =? 169) && (b =? 254))
  || bool_decide ([a; b; c; d] = [255; 255; 255; 255])
  || ((a =? 100) && ((64 <=? b) && (b <=? 127)))
  || ((a =? 192) && (b =? 0) && (c =? 2))
  || ((a =? 198) && (b =? 51) && (c =? 100))
  || ((a =? 203) && (b =? 0) && (c =? 113)).
Definition mapped_ipv4_from_v6 (segments : list Z) : option (Z * Z * Z * Z) :=
  match segments with
  | [s0; s1; s2; s3; s4; s5; s6; s7] =>
      if negb (bool_decide ([s0; s1; s2; s3; s4] = [0; 0; 0; 0; 0])) || negb (s5 =? 65535) then None
      else Some (Z.shiftr s6 8 mod 256, s6 mod 256, Z.shiftr s7 8 mod 256, s7 mod 256)
  | _ => None
  end.
Definition is_forbidden_production_ip (ip : IpAddr) : bool :=
  match ip with
  | V4 a b c d => is_forbidden_production_ip4 a b c d
  | V6 segments =>
      let segment i := default 0 (segments !! i) in
      bool_decide (segments = replicate 8 0) || bool_decide (segments = replicate 7 0 ++ [1])
      || (Z.land (segment 0%nat) 65024 =? 64512)
      || (Z.land (segment 0%nat) 65472 =? 65152)
      || ((segment 0%nat =? 8193) && (segment 1%nat =? 3512))
      || match mapped_ipv4_from_v6 segments with Some (a, b, c, d) => is_forbidden_production_ip4 a b c d | None => false end
  end.
Definition is_forbidden_production_host (host : string) : bool :=
  let trimmed := trim_end_matches "." host in
  let h := to_ascii_lowercase (trim_end_matches "]" (trim_start_matches "[" trimmed)) in
  if bool_decide (h = "") || bool_decide (h = "localhost") || ends_with h ".localhost" || bool_decide (h = "local") || ends_with h ".local"
     || bool_decide (h = "test") || ends_with h ".test" || bool_decide (h = "example") || ends_with h ".example"
     || bool_decide (h = "example.com") || ends_with h ".example.com" || bool_decide (h = "example.net") || ends_with h ".example.net"
     || bool_decide (h = "example.org") || ends_with h ".example.org" || ends_with h ".invalid" || ends_with h ".example.invalid"
  then true
  else match parse_ip h with Some ip => is_forbidden_production_ip ip | None => false end.

(** [Url::parse] with [scheme] and [host_str]. *)
Class Urls := { url_parse : string -> string + string * option string }.
Record Http2Config := {
  connect_timeout : Z; request_timeout : Z; total_timeout : Z; http2_keepalive_interval : Z; user_agent : string
}.
Definition http2_default (version : string) : Http2Config :=
  {| connect_timeout := 5; request_timeout := 30; total_timeout := 60; http2_keepalive_interval := 30;
     user_agent := String.append "UmbrellaX/" (String.append version " (rust; stage-7)") |}.
Record PinnedServiceEndpoint := { url : string; pins : PinningConfig }.
Record ProductionHttp2Config := {
  sealed_servers : list PinnedServiceEndpoint; postman : PinnedServiceEndpoint; kt : PinnedServiceEndpoint; call_relay : PinnedServiceEndpoint
}.
Definition SEALED_SERVER_COUNT : Z := 5.
(** What the texts of the [Network] errors are made of. *)
Inductive Role := SealedServer (idx : Z) | PostmanUrl | KtUrl | CallRelayUrl.
Inductive HttpReason :=
| WrongServerCount (got : Z) | RoleParse (role : Role) (e : string) | NotHttps (role : Role) | MissingHost (role : Role)
| TestHost (role : Role) (host : string) | EndpointParse (e : string) | EndpointMissingHost | ConflictingPins (host : string)
| PlatformVerifier (e : string) | PinningVerifier (e : PinningVerifierError) | Tls13Config (e : string) | ClientBuild (e : string).
Local Notation ClientError := (ClientError.ClientError HttpReason).
Local Notation Network := (ClientError.Network (N := HttpReason)).

Section Production.
Context `{Tls} `{Urls}.
Definition validate_production_endpoint (role : Role) (endpoint : PinnedServiceEndpoint) : res ClientError unit :=
  match url_parse (url endpoint) with
  | inl e => Err (Network (RoleParse role e))
  | inr (scheme, host_str) =>
      reject negb (bool_decide (scheme = "https")) with Network (NotHttps role) ;;
      let? host := ok_or host_str (Network (MissingHost role)) in
      reject is_forbidden_production_host host with Network (TestHost role host) ;;
      Ok tt
  end.
Fixpoint validate_sealed (idx : Z) (l : list PinnedServiceEndpoint) : res ClientError unit :=
  match l with
  | [] => Ok tt
  | endpoint :: l => let? _ := validate_production_endpoint (SealedServer idx) endpoint in validate_sealed (idx + 1) l
  end.
Definition validate (p : ProductionHttp2Config) : res ClientError unit :=
  reject negb (len (sealed_servers p) =? SEALED_SERVER_COUNT) with Network (WrongServerCount (len (sealed_servers p))) ;;
  let? _ := validate_sealed 0 (sealed_servers p) in
  let? _ := validate_production_endpoint PostmanUrl (postman p) in
  let? _ := validate_production_endpoint KtUrl (kt p) in
  let? _ := validate_production_endpoint CallRelayUrl (call_relay p) in
  Ok tt.
Definition insert_endpoint_pins (m : gmap string PinningConfig) (endpoint : PinnedServiceEndpoint) : res ClientError (gmap string PinningConfig) :=
  match url_parse (url endpoint) with
  | inl e => Err (Network (EndpointParse e))
  | inr (_, host_str) =>
      let? host := ok_or host_str (Network EndpointMissingHost) in
      let host := normalize_dns_host host in
      match m !! host with
      | Some existing => if bool_decide (existing = pins endpoint) then Ok m else Err (Network (ConflictingPins host))
      | None => Ok (<[host := pins endpoint]> m)
      end
  end.
Fixpoint insert_all (m : gmap string PinningConfig) (l : list PinnedServiceEndpoint) : res ClientError (gmap string PinningConfig) :=
  match l with [] => Ok m | e :: l => let? m := insert_endpoint_pins m e in insert_all m l end.
Definition pins_by_host (p : ProductionHttp2Config) : res ClientError (gmap string PinningConfig) :=
  let? _ := validate p in
  let? m := insert_all ∅ (sealed_servers p) in
  let? m := insert_endpoint_pins m (postman p) in
  let? m := insert_endpoint_pins m (kt p) in
  let? m := insert_endpoint_pins m (call_relay p) in
  Ok m.

(** The client that is built: its settings and the verifier of its TLS backend ([None]: the default
    backend, TLS 1.3 at least).  The outcomes of the libraries are arguments. *)
Record HttpClient := {
  settings : Http2Config; keep_alive_timeout : Z; keep_alive_while_idle : bool; tcp_nodelay : bool; https_only : bool; http2_prior_knowledge : bool;
  backend : option SpkiPinningVerifier
}.
Definition HTTP2_KEEPALIVE_TIMEOUT : Z := 10.
Definition built_client (config : Http2Config) (backend : option SpkiPinningVerifier) : HttpClient := {|
  settings := config; keep_alive_timeout := HTTP2_KEEPALIVE_TIMEOUT; keep_alive_while_idle := true; tcp_nodelay := true; https_only := true;
  http2_prior_knowledge := true; backend := backend |}.
Definition build_http2_client_with_builder (config : Http2Config) (backend : option SpkiPinningVerifier) (built : option string)
  : res ClientError HttpClient :=
  match built with
  | Some e => Err (Network (ClientBuild e))
  | None => Ok (built_client config backend)
  end.
Definition build_http2_client (config : Http2Config) (built : option string) : res ClientError HttpClient :=
  build_http2_client_with_builder config None built.
Definition build_production_http2_client (config : Http2Config) (production : ProductionHttp2Config)
  (platform : string + InnerVerifier) (tls13 built : option string) : res ClientError HttpClient :=
  let? m := pins_by_host production in
  let? platform_verifier := match platform with inl e => Err (Network (PlatformVerifier e)) | inr v => Ok v end in
  let? pinning_verifier := rmap_err (fun e => Network (PinningVerifier e)) (verifier_new platform_verifier m) in
  let? _ := match tls13 with Some e => Err (Network (Tls13Config e)) | None => Ok tt end in
  build_http2_client_with_builder config (Some pinning_verifier) built.
End Production.

(** ** Normalization of hosts *)
Lemma to_lower_idem c : to_lower (to_lower c) = to_lower c.
Proof. by destruct c as [[] [] [] [] [] [] [] []]; vm_compute. Qed.
Lemma to_lower_dot c : to_lower c = "."%char -> c = "."%char.
Proof. by destruct c as [[] [] [] [] [] [] [] []]; vm_compute. Qed.
Lemma drop_char_fix c (f : ascii -> ascii) l : (forall x, f x = c -> x = c) -> drop_char c (f <$> drop_char c l) = f <$> drop_char c l.
Proof.
  intros Hf. induction l as [|x l IH]; [done|]. cbn [drop_char]. destruct (decide (x = c)); [done|].
  cbn [fmap list_fmap drop_char]. rewrite decide_False; [done|]. intros Hx. by apply Hf in Hx.
Qed.
Lemma normalize_idem h : normalize_dns_host (normalize_dns_host h) = normalize_dns_host h.
Proof.
  unfold normalize_dns_host, to_ascii_lowercase, trim_end_matches. rewrite !String.list_ascii_of_string_of_list_ascii.
  f_equal. rewrite <- fmap_reverse, reverse_involutive. rewrite drop_char_fix by (intros x; apply to_lower_dot).
  rewrite <- (fmap_reverse to_lower), <- !list_fmap_compose, !fmap_reverse. f_equal. apply list_fmap_ext. intros ? x _. apply to_lower_idem.
Qed.
Lemma normalize_empty h : normalize_dns_host h = "" -> is_forbidden_production_host h = true.
Proof.
  unfold normalize_dns_host, to_ascii_lowercase. intros He. apply (f_equal String.list_ascii_of_string) in He.
  rewrite String.list_ascii_of_string_of_list_ascii in He. apply fmap_nil_inv in He.
  unfold is_forbidden_production_host. apply (f_equal String.string_of_list_ascii) in He. rewrite String.string_of_list_ascii_of_string in He.
  by rewrite He.
Qed.

(** ** The map of pins *)
Lemma entries_perm m : btree_entries m ≡ₚ map_to_list m.
Proof. apply merge_sort_Permutation. Qed.
Lemma insert_normalized_ok l : forall acc, NoDup l.*1 -> Forall (fun kv => normalize_dns_host kv.1 = kv.1 /\ kv.1 <> "") l ->
  insert_normalized l acc = Ok (list_to_map l ∪ acc).
Proof.
  induction l as [|[k v] l IH]; intros acc Hn Hk; [by rewrite list_to_map_nil, (left_id_L ∅ (∪))|].
  inversion Hn as [|? ? Hnin Hn']; subst. inversion Hk as [|? ? [Hid Hne] Hk']; subst. cbn [fst] in *. cbn [insert_normalized list_to_map foldr fst snd]. rewrite Hid. unfold rguard.
  rewrite bool_decide_false by done. rewrite IH by done. f_equal.
  rewrite <- insert_union_r by (by apply not_elem_of_list_to_map). by rewrite insert_union_l.
Qed.

Section Exact.
Context `{Tls} `{Urls}.

Lemma verifier_new_normal v m : (forall k c, m !! k = Some c -> normalize_dns_host k = k /\ k <> "") ->
  verifier_new v m = Ok {| inner := v; vpins := m |}.
Proof.
  intros Hm. unfold verifier_new. assert (Hnd : NoDup (btree_entries m).*1) by (rewrite entries_perm; apply NoDup_fst_map_to_list).
  rewrite insert_normalized_ok; [|done|].
  - cbn. rewrite (right_id_L ∅ (∪)). rewrite (list_to_map_proper _ (map_to_list m)) by (done || apply entries_perm).
    by rewrite list_to_map_to_list.
  - apply Forall_forall. intros [k c] Hin. rewrite entries_perm in Hin. apply elem_of_map_to_list in Hin. by apply Hm in Hin.
Qed.

Definition endpoints (p : ProductionHttp2Config) : list PinnedServiceEndpoint := sealed_servers p ++ [postman p; kt p; call_relay p].
Definition endpoint_host (e : PinnedServiceEndpoint) : option string :=
  match url_parse (url e) with inr (_, Some h) => Some (normalize_dns_host h) | _ => None end.
Definition pins_ok (l : list PinnedServiceEndpoint) (m : gmap string PinningConfig) : Prop :=
  forall h c, m !! h = Some c <-> exists e, e ∈ l /\ endpoint_host e = Some h /\ pins e = c.

Lemma insert_endpoint_ok l m e m' : pins_ok l m -> insert_endpoint_pins m e = Ok m' -> pins_ok (l ++ [e]) m'.
Proof.
  unfold insert_endpoint_pins. intros Hl Hi. assert (Hnew : forall h c, (exists x, x ∈ l ++ [e] /\ endpoint_host x = Some h /\ pins x = c) <->
    m !! h = Some c \/ (endpoint_host e = Some h /\ pins e = c)).
  { intros h c. rewrite (Hl h c). setoid_rewrite elem_of_app. setoid_rewrite list_elem_of_singleton. naive_solver. }
  unfold endpoint_host in Hnew at 2. destruct (url_parse (url e)) as [|[sch [h|]]]; try done. cbn [ok_or rbind] in Hi.
  destruct (m !! normalize_dns_host h) as [x|] eqn:Hx.
  - case_bool_decide as Hp; [|done]. injection Hi as <-. intros k c. rewrite Hnew. split; [by left|]. intros [?|[[= <-] <-]]; [done|by subst x].
  - injection Hi as <-. intros k c. rewrite Hnew. destruct (decide (k = normalize_dns_host h)) as [->|Hk].
    + rewrite lookup_insert_eq. split; [intros [= <-]; by right|]. intros [?|[_ <-]]; [congruence|done].
    + rewrite lookup_insert_ne by done. split; [by left|]. intros [?|[[= <-] _]]; done.
Qed.
Lemma insert_all_ok l : forall m m', insert_all m l = Ok m' -> forall l0, pins_ok l0 m -> pins_ok (l0 ++ l) m'.
Proof.
  induction l as [|e l IH]; intros m m' Hi l0 Hl; cbn [insert_all] in Hi; [injection Hi as <-; by rewrite app_nil_r|].
  apply rbind_Ok in Hi as (m1 & H1 & Hi). rewrite cons_middle, app_assoc. eapply IH; [done|]. by eapply insert_endpoint_ok.
Qed.
Lemma pins_by_host_ok p m : pins_by_host p = Ok m -> validate p = Ok tt /\ pins_ok (endpoints p) m.
Proof.
  unfold pins_by_host. intros Hp. apply rbind_Ok in Hp as ([] & Hv & Hp). split; [done|].
  apply rbind_Ok in Hp as (m1 & H1 & Hp). apply rbind_Ok in Hp as (m2 & H2 & Hp). apply rbind_Ok in Hp as (m3 & H3 & Hp).
  apply rbind_Ok in Hp as (m4 & H4 & [= <-]).
  pose proof (insert_all_ok _ _ _ H1 [] ltac:(intros h c; split; [by rewrite lookup_empty|set_solver])) as Hall.
  eapply insert_endpoint_ok in H2; [|done]. eapply insert_endpoint_ok in H3; [|done]. eapply insert_endpoint_ok in H4; [|done].
  unfold endpoints. by rewrite <- !app_assoc in H4.
Qed.

(** What validation checks of an endpoint. *)
Definition public_endpoint (e : PinnedServiceEndpoint) : Prop :=
  exists h, url_parse (url e) = inr ("https", Some h) /\ is_forbidden_production_host h = false.
Lemma validate_endpoint_exact role e : validate_production_endpoint role e = Ok tt <-> public_endpoint e.
Proof.
  unfold validate_production_endpoint, public_endpoint, rguard. destruct (url_parse (url e)) as [x|[sch [h|]]]; cbn.
  - split; [done|naive_solver].
  - case_bool_decide as Hs; cbn; [subst sch|naive_solver]. destruct (is_forbidden_production_host h) eqn:Hf; [split; [done|intros (? & [= <-] & ?); congruence]|].
    split; [by exists h|done].
  - case_bool_decide; cbn; naive_solver.
Qed.
Lemma validate_sealed_exact l : forall idx, validate_sealed idx l = Ok tt <-> Forall public_endpoint l.
Proof.
  induction l as [|e l IH]; intros idx; cbn [validate_sealed]; [done|]. rewrite Forall_cons. rewrite <- (IH (idx + 1)).
  rewrite <- (validate_endpoint_exact (SealedServer idx) e). destruct (validate_production_endpoint _ e) as [[]| |]; cbn; naive_solver.
Qed.
Lemma validate_exact p : validate p = Ok tt <-> len (sealed_servers p) = 5 /\ Forall public_endpoint (endpoints p).
Proof.
  unfold validate, endpoints, rguard. rewrite Forall_app, !Forall_cons, Forall_nil.
  rewrite <- (validate_sealed_exact _ 0), <- (validate_endpoint_exact PostmanUrl), <- (validate_endpoint_exact KtUrl), <- (validate_endpoint_exact CallRelayUrl).
  unfold SEALED_SERVER_COUNT. destruct (Z.eqb_spec (len (sealed_servers p)) 5); cbn [negb]; [|split; [done|tauto]].
  destruct (validate_sealed _ _) as [[]| |]; cbn [rbind]; [|naive_solver..].
  destruct (validate_production_endpoint PostmanUrl _) as [[]| |]; cbn [rbind]; [|naive_solver..].
  destruct (validate_production_endpoint KtUrl _) as [[]| |]; cbn [rbind]; [|naive_solver..].
  destruct (validate_production_endpoint CallRelayUrl _) as [[]| |]; cbn [rbind]; naive_solver.
Qed.

Lemma matches_exact c pin : pin_matches c pin = true <-> primary c = pin \/ backup c = Some pin.
Proof.
  unfold pin_matches. rewrite orb_true_iff, bool_decide_eq_true. destruct (backup c) as [b|]; [|naive_solver].
  rewrite bool_decide_eq_true. naive_solver.
Qed.
Lemma verify_exact v m l q ok : pins_ok l m ->
  verify_server_cert {| inner := v; vpins := m |} q = Ok ok <->
    v q = Ok ok /\ exists dns e pin, server_name q = DnsName dns /\ e ∈ l /\ endpoint_host e = Some (normalize_dns_host dns) /\
      extract_spki_pin_from_cert_der (end_entity q) = Ok pin /\ (primary (pins e) = pin \/ backup (pins e) = Some pin).
Proof.
  intros Hm. unfold verify_server_cert, verify_pin. cbn [inner vpins]. split.
  - intros Hv. apply rbind_Ok in Hv as (verified & Hi & Hv). apply rbind_Ok in Hv as ([] & Hp & [= <-]). split; [done|].
    destruct (server_name q) as [dns|x|x]; cbn [server_name_to_dns_host rbind] in Hp; [|done..].
    destruct (m !! normalize_dns_host dns) as [c|] eqn:Hc; cbn [ok_or rbind] in Hp; [|done]. apply Hm in Hc as (e & He & Hh & <-).
    destruct (extract_spki_pin_from_cert_der _) as [pin| |]; cbn [rbind] in Hp; [|done..].
    destruct (pin_matches (pins e) pin) eqn:Hpm; [|done]. apply matches_exact in Hpm. by exists dns, e, pin.
  - intros (Hi & dns & e & pin & -> & He & Hh & Hx & Hpm). rewrite Hi. cbn [rbind server_name_to_dns_host].
    assert (Hc : m !! normalize_dns_host dns = Some (pins e)) by (apply Hm; by exists e). rewrite Hc, Hx. cbn [ok_or rbind].
    apply matches_exact in Hpm. by rewrite Hpm.
Qed.

(** The configurations that are accepted: five sealed servers, every endpoint at a public https
    host, and endpoints that share a host share their pins. *)
Definition consistent (l : list PinnedServiceEndpoint) : Prop :=
  forall e1 e2, e1 ∈ l -> e2 ∈ l -> endpoint_host e1 = endpoint_host e2 -> pins e1 = pins e2.
Definition production_accepts (p : ProductionHttp2Config) : Prop :=
  len (sealed_servers p) = 5 /\ Forall public_endpoint (endpoints p) /\ consistent (endpoints p).

Lemma insert_all_app l1 l2 : forall m, insert_all m (l1 ++ l2) = (let? m := insert_all m l1 in insert_all m l2).
Proof.
  induction l1 as [|e l1 IH]; intros m; [done|]. cbn [app insert_all]. destruct (insert_endpoint_pins m e); cbn [rbind]; [apply IH|done..].
Qed.
Lemma pins_by_host_all p : pins_by_host p = (let? _ := validate p in insert_all ∅ (endpoints p)).
Proof.
  unfold pins_by_host, endpoints. destruct (validate p); cbn [rbind]; [|done..]. rewrite insert_all_app.
  destruct (insert_all ∅ _) as [m| |]; cbn [rbind insert_all]; [|done..].
  destruct (insert_endpoint_pins m _) as [m1| |]; cbn [rbind]; [|done..].
  by destruct (insert_endpoint_pins m1 _) as [m2| |].
Qed.
Lemma public_host e : public_endpoint e -> exists h, endpoint_host e = Some (normalize_dns_host h) /\ normalize_dns_host h <> "".
Proof.
  intros (h & Hu & Hf). exists h. unfold endpoint_host. rewrite Hu. split; [done|]. intros He. apply normalize_empty in He. congruence.
Qed.
Lemma insert_all_total l : forall l0 m, pins_ok l0 m -> Forall public_endpoint l -> consistent (l0 ++ l) -> exists m', insert_all m l = Ok m'.
Proof.
  induction l as [|e l IH]; intros l0 m Hm Hp Hc; [by exists m|]. inversion Hp as [|? ? He Hp']; subst.
  assert (exists m', insert_endpoint_pins m e = Ok m') as [m' Hm'].
  { pose proof He as (h & Hu & _). unfold insert_endpoint_pins. rewrite Hu. cbn [ok_or rbind].
    destruct (m !! _) as [x|] eqn:Hx; [|by eexists]. apply Hm in Hx as (e' & Hin & Hh & Hpe). rewrite bool_decide_true; [by eexists|].
    rewrite <- Hpe. apply Hc; [set_solver..|]. unfold endpoint_host at 2. by rewrite Hu. }
  cbn [insert_all]. rewrite Hm'. cbn [rbind]. apply (IH (l0 ++ [e])); [by eapply insert_endpoint_ok|done|by rewrite <- app_assoc].
Qed.
Lemma pins_normal l m : pins_ok l m -> Forall public_endpoint l -> forall k c, m !! k = Some c -> normalize_dns_host k = k /\ k <> "".
Proof.
  intros Hm Hp k c Hk. apply Hm in Hk as (e & Hin & Hh & _). rewrite Forall_forall in Hp. destruct (public_host e (Hp e Hin)) as (h & He & Hne).
  rewrite Hh in He. injection He as ->. split; [apply normalize_idem|done].
Qed.
Lemma pins_consistent l m : pins_ok l m -> Forall public_endpoint l -> consistent l.
Proof.
  intros Hm Hp e1 e2 H1 H2 He. rewrite Forall_forall in Hp. destruct (public_host e1 (Hp e1 H1)) as (h & Hh & _).
  assert (Ha : m !! normalize_dns_host h = Some (pins e1)) by (apply Hm; by exists e1).
  assert (Hb : m !! normalize_dns_host h = Some (pins e2)) by (apply Hm; exists e2; rewrite <- He; done). congruence.
Qed.

(** C39. The production client is built exactly from the accepted configurations, and its TLS then
    accepts exactly the certificates that the platform accepts, for a DNS name that is, up to case
    and trailing dots, the host of an endpoint, whose key is the primary or the backup pin of that
    endpoint.  An address as the name of a server is never accepted. *)
Theorem production_tls_exact config p v :
  (forall client, build_production_http2_client config p (inr v) None None = Ok client -> production_accepts p) /\
  (production_accepts p -> exists pv,
     build_production_http2_client config p (inr v) None None =
       Ok (built_client config (Some pv)) /\
     forall q ok, verify_server_cert pv q = Ok ok <->
       v q = Ok ok /\ exists dns e pin, server_name q = DnsName dns /\ e ∈ endpoints p /\ endpoint_host e = Some (normalize_dns_host dns) /\
         extract_spki_pin_from_cert_der (end_entity q) = Ok pin /\ (primary (pins e) = pin \/ backup (pins e) = Some pin)).
Proof.
  split.
  - intros client Hb. unfold build_production_http2_client in Hb. apply rbind_Ok in Hb as (m & Hm & _).
    apply pins_by_host_ok in Hm as [Hv Hm]. apply validate_exact in Hv as [Hl Hp]. repeat split; [done..|]. by eapply pins_consistent.
  - intros (Hl & Hp & Hc). destruct (insert_all_total (endpoints p) [] ∅) as [m Hm]; [|done|done|].
    { intros h c. split; [by rewrite lookup_empty|set_solver]. }
    pose proof (insert_all_ok _ _ _ Hm [] ltac:(intros h c; split; [by rewrite lookup_empty|set_solver])) as Hok. cbn [app] in Hok.
    exists {| inner := v; vpins := m |}. split.
    + unfold build_production_http2_client. rewrite pins_by_host_all, (proj2 (validate_exact p)) by done. cbn [rbind]. rewrite Hm.
      cbn [rbind]. by rewrite verifier_new_normal by (by eapply pins_normal).
    + intros q ok. apply verify_exact. exact Hok.
Qed.
End Exact.

(** ** Addresses as hosts *)
Definition digit (n : Z) : ascii := ascii_of_nat (48 + Z.to_nat n).
Definition show_octet (n : Z) : list ascii :=
  if n <? 10 then [digit n] else if n <? 100 then [digit (n / 10); digit (n mod 10)] else [digit (n / 100); digit (n / 10 mod 10); digit (n mod 10)].
Definition show_ipv4 (a b c d : Z) : list ascii :=
  show_octet a ++ "."%char :: show_octet b ++ "."%char :: show_octet c ++ "."%char :: show_octet d.
Definition is_octet (n : Z) : Prop := 0 <= n < 256.
Definition no_digit (l : list ascii) : Prop := match l with c :: _ => to_digit 10 c = None | [] => True end.

(** A decidable fact about digits, by running through all of them. *)
Lemma all_digits (f : Z -> bool) : forallb f (Z.of_nat <$> seq 0 10) = true -> forall n, 0 <= n < 10 -> f n = true.
Proof.
  rewrite forallb_forall. intros Hf n Hn. apply Hf, list_elem_of_In, list_elem_of_fmap. exists (Z.to_nat n).
  split; [lia|]. apply elem_of_seq. lia.
Qed.
Lemma to_digit_digit n : 0 <= n < 10 -> to_digit 10 (digit n) = Some n.
Proof.
  intros Hn. pose proof (all_digits (fun n => bool_decide (to_digit 10 (digit n) = Some n)) eq_refl n Hn) as Hd. by apply bool_decide_eq_true in Hd.
Qed.
Lemma digit_plain n : 0 <= n < 10 -> to_lower (digit n) = digit n /\ digit n <> "."%char /\ digit n <> "["%char /\ digit n <> "]"%char.
Proof.
  intros Hn. pose proof (all_digits (fun n => bool_decide (to_lower (digit n) = digit n /\ digit n <> "."%char /\ digit n <> "["%char /\ digit n <> "]"%char))
    eq_refl n Hn) as Hd. by apply bool_decide_eq_true in Hd.
Qed.
Lemma span_digit n l : 0 <= n < 10 -> span_digits 10 (digit n :: l) = (n :: (span_digits 10 l).1, (span_digits 10 l).2).
Proof. intros. cbn [span_digits]. rewrite to_digit_digit by done. by destruct (span_digits 10 l). Qed.
Lemma span_stop l : no_digit l -> span_digits 10 l = ([], l).
Proof. destruct l as [|c l]; [done|]. cbn [no_digit span_digits]. by intros ->. Qed.

(** The digits of an octet: how many, their values, and that only zero starts with one. *)
Lemma octet_digits n : is_octet n -> exists ds, show_octet n = digit <$> ds /\ Forall (fun d => 0 <= d < 10) ds /\ ds <> [] /\ len ds <= 3 /\
  digits_value 10 ds = n /\ (head ds = Some 0 -> len ds = 1).
Proof.
  unfold is_octet, show_octet, digits_value. intros Hn.
  assert (Hm : 0 <= n mod 10 < 10) by (apply Z.mod_pos_bound; lia). assert (Hm2 : 0 <= n / 10 mod 10 < 10) by (apply Z.mod_pos_bound; lia).
  pose proof (Z.div_mod n 10 ltac:(lia)) as Hd. pose proof (Z.div_mod (n / 10) 10 ltac:(lia)) as Hd2.
  rewrite Z.div_div in Hd2 by lia. change (10 * 10) with 100 in Hd2.
  destruct (Z.ltb_spec n 10); [|destruct (Z.ltb_spec n 100)].
  - exists [n]. repeat split; try done; repeat constructor; lia.
  - exists [n / 10; n mod 10]. repeat split; try done; [repeat constructor; lia|cbn; lia|]. intros [= Hx]. lia.
  - exists [n / 100; n / 10 mod 10; n mod 10]. repeat split; try done; [repeat constructor; lia|cbn; lia|]. intros [= Hx]. lia.
Qed.
Lemma span_octet ds rest : Forall (fun d => 0 <= d < 10) ds -> no_digit rest -> span_digits 10 ((digit <$> ds) ++ rest) = (ds, rest).
Proof.
  intros Hds Hr. induction Hds as [|d ds Hd Hds IH]; [by apply span_stop|]. cbn [fmap list_fmap app]. by rewrite span_digit, IH.
Qed.
Lemma read_octet_show n rest : is_octet n -> no_digit rest -> read_octet (show_octet n ++ rest) = Some (n, rest).
Proof.
  intros Hn Hr. destruct (octet_digits n Hn) as (ds & -> & Hds & Hne & Hl & Hv & Hz). unfold read_octet, read_number.
  rewrite span_octet by done. rewrite bool_decide_false, Hv by done. unfold is_octet in Hn.
  rewrite (proj2 (Z.ltb_ge _ _)) by lia. rewrite (proj2 (Z.ltb_ge _ _)) by lia. cbn [orb negb andb].
  case_bool_decide as H0; [|done]. by rewrite (Hz H0).
Qed.
Lemma read_ipv4_show a b c d : is_octet a -> is_octet b -> is_octet c -> is_octet d ->
  read_ipv4_addr (show_ipv4 a b c d) = Some (a, b, c, d, []).
Proof.
  intros Ha Hb Hc Hd. unfold read_ipv4_addr, show_ipv4.
  assert (Hdot : forall l, read_given_char "." ("."%char :: l) = Some l) by done.
  do 3 (rewrite read_octet_show by done; cbn [mbind option_bind]; rewrite Hdot; cbn [mbind option_bind]).
  by rewrite <- (app_nil_r (show_octet d)), (read_octet_show d) by done.
Qed.

(** The characters of a printed address, and what trimming and lower case leave of it. *)
Lemma show_octet_digits n : is_octet n -> Forall (fun c => exists d, 0 <= d < 10 /\ c = digit d) (show_octet n).
Proof. intros Hn. destruct (octet_digits n Hn) as (ds & -> & Hds & _). induction Hds; constructor; eauto. Qed.
Lemma show_octet_first n : is_octet n -> exists d l, 0 <= d < 10 /\ show_octet n = digit d :: l.
Proof.
  intros Hn. destruct (octet_digits n Hn) as (ds & -> & Hds & Hne & _). destruct Hds as [|d ds Hd]; [done|]. by exists d, (digit <$> ds).
Qed.
Lemma show_octet_last n : is_octet n -> exists d l, 0 <= d < 10 /\ show_octet n = l ++ [digit d].
Proof.
  intros Hn. destruct (octet_digits n Hn) as (ds & -> & Hds & Hne & _). destruct ds as [|d ds _] using rev_ind; [done|].
  rewrite Forall_app, Forall_singleton in Hds. exists d, (digit <$> ds). split; [tauto|]. by rewrite fmap_app.
Qed.

Lemma drop_char_run c n l : drop_char c (replicate n c ++ l) = drop_char c l.
Proof. induction n as [|n IH]; [done|]. cbn [replicate app drop_char]. by rewrite decide_True. Qed.
Lemma drop_char_stop c x l : x <> c -> drop_char c (x :: l) = x :: l.
Proof. intros. cbn [drop_char]. by rewrite decide_False. Qed.
Lemma show_shape a b c d : is_octet a -> is_octet b -> is_octet c -> is_octet d ->
  (exists x l, show_ipv4 a b c d = digit x :: l /\ 0 <= x < 10) /\ (exists y l, show_ipv4 a b c d = l ++ [digit y] /\ 0 <= y < 10) /\
  to_lower <$> show_ipv4 a b c d = show_ipv4 a b c d.
Proof.
  intros Ha Hb Hc Hd. unfold show_ipv4. split; [|split].
  - destruct (show_octet_first a Ha) as (x & l & Hx & ->). eexists _, _. by split.
  - destruct (show_octet_last d Hd) as (y & l & Hy & ->). exists y, (show_octet a ++ "."%char :: show_octet b ++ "."%char :: show_octet c ++ "."%char :: l).
    split; [|done]. by do 3 (rewrite <- app_assoc; cbn [app]).
  - assert (Hl : forall n, is_octet n -> to_lower <$> show_octet n = show_octet n).
    { intros n Hn. pose proof (show_octet_digits n Hn) as Hds. induction Hds as [|? ? (x & Hx & ->) _ IH]; [done|].
      cbn [fmap list_fmap]. by rewrite (proj1 (digit_plain x Hx)), IH. }
    rewrite !fmap_app, !fmap_cons, !fmap_app, !fmap_cons, !fmap_app, !fmap_cons, !Hl by done. reflexivity.
Qed.
(** A host that ends in a digit is none of the reserved names. *)
Lemma not_suffix l y suffix : 0 <= y < 10 ->
  match reverse (String.list_ascii_of_string suffix) with c :: _ => to_digit 10 c = None | [] => False end ->
  ends_with (String.string_of_list_ascii (l ++ [digit y])) suffix = false /\ String.string_of_list_ascii (l ++ [digit y]) <> suffix.
Proof.
  intros Hy Hs. assert (Hne : forall r x, reverse (l ++ [digit y]) = reverse (String.list_ascii_of_string suffix) ++ r ->
    reverse (String.list_ascii_of_string suffix) = x -> False).
  { intros r x Hr _. rewrite reverse_app in Hr. cbn in Hr. destruct (reverse (String.list_ascii_of_string suffix)) as [|c s] eqn:E; [done|].
    injection Hr as Hc _. rewrite <- Hc, to_digit_digit in Hs by done. done. }
  split.
  - unfold ends_with. apply bool_decide_eq_false. rewrite String.list_ascii_of_string_of_list_ascii. intros [r Hr]. by eapply Hne.
  - intros He. eapply (Hne []); [|done]. rewrite app_nil_r. by rewrite <- He, String.list_ascii_of_string_of_list_ascii.
Qed.

(** An IPv4 address written out, with any number of dots after it, is a forbidden production host
    exactly when the address is unspecified, loopback, private, link-local, shared, broadcast or
    reserved for documentation. *)
Theorem ipv4_hosts_exact a b c d dots : is_octet a -> is_octet b -> is_octet c -> is_octet d ->
  is_forbidden_production_host (String.string_of_list_ascii (show_ipv4 a b c d ++ replicate dots "."%char)) = is_forbidden_production_ip4 a b c d.
Proof.
  intros Ha Hb Hc Hd. destruct (show_shape a b c d Ha Hb Hc Hd) as ((x & l & Hfst & Hx) & (y & k & Hlst & Hy) & Hlow).
  destruct (digit_plain x Hx) as (_ & _ & Hopen & _). destruct (digit_plain y Hy) as (_ & Hdot & _ & Hclose).
  assert (Htrim : to_ascii_lowercase (trim_end_matches "]" (trim_start_matches "[" (trim_end_matches "."
    (String.string_of_list_ascii (show_ipv4 a b c d ++ replicate dots "."%char))))) = String.string_of_list_ascii (show_ipv4 a b c d)).
  { unfold to_ascii_lowercase, trim_end_matches, trim_start_matches. rewrite !String.list_ascii_of_string_of_list_ascii. f_equal.
    rewrite reverse_app, reverse_replicate, drop_char_run.
    assert (Hend : forall z, digit y <> z -> reverse (drop_char z (reverse (show_ipv4 a b c d))) = show_ipv4 a b c d).
    { intros z Hz. rewrite Hlst, reverse_app. cbn [reverse rev_append app]. rewrite drop_char_stop by done.
      by rewrite reverse_cons, reverse_involutive. }
    rewrite (Hend _ Hdot). rewrite Hfst at 1. rewrite drop_char_stop by done. rewrite <- Hfst, (Hend _ Hclose). exact Hlow. }
  unfold is_forbidden_production_host. rewrite Htrim. unfold parse_ip. rewrite String.list_ascii_of_string_of_list_ascii.
  rewrite read_ipv4_show by done. cbn [is_forbidden_production_ip]. rewrite Hlst.
  repeat match goal with
  | |- context [ends_with ?s ?suf] => rewrite (proj1 (not_suffix k y suf Hy ltac:(vm_compute; exact eq_refl)))
  | |- context [bool_decide (String.string_of_list_ascii _ = ?suf)] =>
      rewrite (bool_decide_false (String.string_of_list_ascii _ = suf)) by (apply not_suffix; [done|vm_compute; exact eq_refl] || (intros He; apply (f_equal String.list_ascii_of_string) in He; rewrite String.list_ascii_of_string_of_list_ascii in He; by destruct k))
  end.
  done.
Qed.

(** ** Concrete hosts *)
Example reserved_hosts : forallb is_forbidden_production_host
  ["LocalHost."; "a.test"; "10.1.2.3"; "[::1]"; "[fe80::1]"; "[2001:db8::7]"; "[::ffff:192.168.0.1]"; "203.0.113.9.."; "example.com"; ""] = true.
Proof. by vm_compute. Qed.
(** Every other reserved top-level name is refused on its own too; [invalid] is not.  An address is
    let through although no certificate for an address is ever accepted. *)
Example let_through : existsb is_forbidden_production_host ["invalid"; "8.8.8.8"; "[2606:4700::1111]"; "umbrella.example.co"] = false.
Proof. by vm_compute. Qed.
(** Two spellings of one host given to the verifier itself: the pins of the later one win. *)
Example spellings_overwrite (pin1 pin2 : SpkiPin) :
  insert_normalized (btree_entries {[ "A.net" := single pin1; "a.net" := single pin2 ]}) ∅ = Ok {[ "a.net" := single pin2 ]}.
Proof. reflexivity. Qed.

#[local] Instance toy_urls : Urls := {| url_parse s := inr ("https", Some s) |}.
#[local] Instance toy_tls : Tls := {|
  Certificate := list byte; from_der b := Some b; spki_to_der c := Some c; sha256 b := b;
  RustlsError := PinningVerifierError; General e := e; ServerCertVerified := unit
|}.
Definition toy_endpoint (host : string) (k : byte) : PinnedServiceEndpoint := {| url := host; pins := dual [k] [Byte.x09] |}.
Definition toy_production : ProductionHttp2Config := {|
  sealed_servers := [toy_endpoint "s1.net" Byte.x01; toy_endpoint "s2.net" Byte.x02; toy_endpoint "s3.net" Byte.x03;
                     toy_endpoint "s4.net" Byte.x04; toy_endpoint "s5.net" Byte.x05];
  postman := toy_endpoint "p.net" Byte.x06; kt := toy_endpoint "P.net." Byte.x06; call_relay := toy_endpoint "c.net" Byte.x08 |}.
Lemma toy_accepts : production_accepts toy_production.
Proof.
  split; [done|split].
  - repeat (apply Forall_cons; split; [by eexists|]). constructor.
  - assert (Hall : Forall (fun e1 => Forall (fun e2 => endpoint_host e1 = endpoint_host e2 -> pins e1 = pins e2) (endpoints toy_production)) (endpoints toy_production)).
    { repeat constructor; vm_compute; congruence. }
    intros e1 e2 H1 H2. rewrite Forall_forall in Hall. specialize (Hall e1 H1). rewrite Forall_forall in Hall. by apply Hall.
Qed.
(** A certificate with the backup key, for a host in capitals. *)
Definition toy_question : CertQuestion := {| end_entity := [Byte.x09]; intermediates := []; server_name := DnsName "P.NET"; ocsp_response := []; now := 0 |}.
Lemma production_tls_exact_witness : exists pv,
  build_production_http2_client (http2_default "1") toy_production (inr (fun _ => Ok tt)) None None =
    Ok (built_client (http2_default "1") (Some pv)) /\
  verify_server_cert pv toy_question = Ok tt.
Proof.
  destruct (proj2 (production_tls_exact (http2_default "1") toy_production (fun _ => Ok (tt : @ServerCertVerified toy_tls))) toy_accepts) as (pv & Hb & Hv).
  exists pv. split; [exact Hb|]. apply Hv. split; [done|]. exists "P.NET", (toy_endpoint "p.net" Byte.x06), [Byte.x09].
  split; [done|]. split; [apply elem_of_app; right; left|]. split; [by vm_compute|]. split; [by vm_compute|by right].
Defined.
Lemma ipv4_hosts_exact_witness :
  is_forbidden_production_host (String.string_of_list_ascii (show_ipv4 172 31 0 9 ++ replicate 1 "."%char)) = is_forbidden_production_ip4 172 31 0 9.
Proof. apply (ipv4_hosts_exact 172 31 0 9 1); unfold is_octet; lia. Defined.
End Pinning.
