(* ===== verification/Gateway.v ===== *)
(** * The gateway connections
    ([crates/umbrella-client/src/transport/websocket.rs], [quic.rs], [gateway.rs])

    The two wires to the gateway: one Protobuf envelope per binary WebSocket frame, or envelopes
    with a length prefix on one QUIC stream, cut by the network wherever it likes.  What the
    network libraries report is an input: a list of events for reading and a list of outcomes for
    writing.  The Protobuf library is a parameter with its round-trip laws; the messages are those
    of [proto/ws.proto].  Texts of errors are kept up to the part a library writes.  A connection
    implements the interface [GatewayOps] the chats are proved against. *)
From S2P Require Import Prelude Bytes Crypto SealedSender Mls MaxRatchet Client Transport Pinning.
Local Open Scope string_scope.
Local Open Scope list_scope.
Local Open Scope Z_scope.

Module Gateway.
Import Client.
#[local] Remove Hints toy_gateway : typeclass_instances.

(** ** Envelopes ([ws.proto], and the translations of [websocket.rs]) *)
Inductive ProtoClientPayload :=
| PPing (client_ts_ms : Z) | PPresence (online : bool) | PSendMessage (to_user_id ciphertext : list byte)
| PDeliveryProbe (probe_id : list byte) (sent_ts_ms : Z) | PAuth (token : string) (device_id : list byte) | PClose.
Record ClientEnvelope := { ce_seq : Z; ce_payload : option ProtoClientPayload }.
Inductive ProtoServerPayload :=
| PPong (client_ts_ms server_ts_ms : Z) | PSendAck (msg_id : list byte) | PServerProbe (probe_id : list byte) (sent_ts_ms : Z)
| PError (code : list byte) | PAuthOk | PInbound (from_user_id ciphertext : list byte) (sent_ts_ms : Z) (msg_id : list byte).
Record ServerEnvelope := { se_seq : Z; se_payload : option ProtoServerPayload }.

(** prost: varints and messages.  [None] of [decode_varint] is any error: too short or malformed. *)
Class Prost := {
  encode_varint : Z -> list byte;
  decode_varint : list byte -> option (Z * list byte);
  encode_client : ClientEnvelope -> list byte;
  decode_server : list byte -> option ServerEnvelope
}.

Record ServerFrame := { seq : Z; payload : ServerPayload }.
Definition build_client_envelope (seq : Z) (p : ClientPayload) : ClientEnvelope :=
  {| ce_seq := seq;
     ce_payload := Some match p with
       | CPing ts => PPing ts | CAuth token device => PAuth token device | CPresence online => PPresence online
       | SendMessage to ct => PSendMessage to ct | CDeliveryProbe id ts => PDeliveryProbe id ts | CClose => PClose
       end |}.
Definition translate (p : ProtoServerPayload) : ServerPayload :=
  match p with
  | PPong c s => Pong c s | PSendAck id => SendAck id | PAuthOk => AuthOk | PError code => SError code
  | PServerProbe id ts => SDeliveryProbe id ts | PInbound from ct ts id => IncomingMessage from ct ts id
  end.

(** ** WebSocket *)
Inductive WsTransportError :=
| InvalidUrl (what : string) | WsTls (what : string) | WsHandshake (what : string)
| SubprotocolRejected (offered : list string) (server_selected : option string)
| WsAuthRejected (code : list byte) | WsUnexpectedAuthFrame (frame : ServerPayload) | UnknownServerPayload | WsClosed
| WsIo (what : string) | WsCodec (what : string) | WsTimeout (after : Z).
(** [decode_server_envelope], shared by both wires. *)
Definition decode_server_envelope (env : ServerEnvelope) : WsTransportError + ServerFrame :=
  match se_payload env with
  | None => inl UnknownServerPayload
  | Some p => inr {| seq := se_seq env; payload := translate p |}
  end.

(** The errors of tungstenite the code distinguishes, with their texts. *)
Inductive TungsteniteError :=
| TConnectionClosed | TAlreadyClosed | TIo (what : string) | TTls (what : string) | TUrl (what : string) | THttp (status : string)
| THttpFormat (what : string) | TProtocol (what : string) | TOther (what : string).
Definition display_other (e : TungsteniteError) : string :=
  match e with
  | TConnectionClosed => "Connection closed normally" | TAlreadyClosed => "Trying to work with closed connection"
  | TIo what | TTls what | TUrl what | THttp what | THttpFormat what | TProtocol what | TOther what => what
  end.
Definition map_tungstenite_handshake_error (e : TungsteniteError) : WsTransportError :=
  match e with
  | TTls t => WsTls t
  | TUrl u => InvalidUrl u
  | THttp status => WsHandshake ("server responded " +:+ status +:+ " (expected 101)")
  | THttpFormat f => WsHandshake ("HTTP format: " +:+ f)
  | TProtocol p => WsHandshake ("protocol: " +:+ p)
  | TIo io => WsIo io
  | other => WsHandshake (display_other other)
  end.
Definition map_tungstenite_io_error (e : TungsteniteError) : WsTransportError :=
  match e with
  | TConnectionClosed | TAlreadyClosed => WsClosed
  | TIo io => WsIo io
  | TTls t => WsTls t
  | other => WsIo (display_other other)
  end.

(** [str::trim] and [eq_ignore_ascii_case]. *)
Definition is_space (c : Ascii.ascii) : bool := let n := Ascii.nat_of_ascii c in bool_decide (n = 32 \/ (9 <= n <= 13))%nat.
Fixpoint trim_start (l : list Ascii.ascii) : list Ascii.ascii :=
  match l with c :: l' => if is_space c then trim_start l' else l | [] => [] end.
Definition trim (s : string) : string :=
  String.string_of_list_ascii (reverse (trim_start (reverse (trim_start (String.list_ascii_of_string s))))).
Definition eq_ignore_ascii_case (a b : string) : bool := bool_decide (Pinning.to_ascii_lowercase a = Pinning.to_ascii_lowercase b).

Definition as_str (p : Transport.NegotiatedSubprotocol) : string := match p with Transport.ProtobufV1 => "umx.pb.v1" | Transport.MessagePackV1 => "umx.v1" end.
Definition parse (value : string) : option Transport.NegotiatedSubprotocol :=
  let trimmed := trim value in
  if eq_ignore_ascii_case trimmed "umx.pb.v1" then Some Transport.ProtobufV1
  else if eq_ignore_ascii_case trimmed "umx.v1" then Some Transport.MessagePackV1 else None.
(** [raw] is the header of the response, when it is a string. *)
Definition parse_negotiated_subprotocol (offered : list string) (raw : option string) : res WsTransportError Transport.NegotiatedSubprotocol :=
  match raw ≫= parse with
  | Some p => if existsb (fun o => eq_ignore_ascii_case o (as_str p)) offered then Ok p
              else Err (SubprotocolRejected offered raw)
  | None => Err (SubprotocolRejected offered raw)
  end.
Definition production_subprotocols : list string := ["umx.pb.v1"; "umx.v1"].

(** What reading the socket gives next. *)
Inductive WsEvent :=
| WsBinary (bytes : list byte) | WsText (t : string) | WsCloseFrame | WsPing | WsPong | WsFrame | WsFault (e : TungsteniteError) | WsEnd.
(** [w_outcomes]: the results of the next writes, successes when the list ends.  A failed write ends
    the connection, so what part of it was sent is not recorded. *)
Record WebSocketConnection := {
  w_incoming : list WsEvent; w_sent : list (list byte); w_outcomes : list (option TungsteniteError);
  w_negotiated : Transport.NegotiatedSubprotocol; w_next_seq : Z
}.
Definition ws_connected (incoming : list WsEvent) (negotiated : Transport.NegotiatedSubprotocol) : WebSocketConnection :=
  {| w_incoming := incoming; w_sent := []; w_outcomes := []; w_negotiated := negotiated; w_next_seq := 1 |}.
(** [connect]: the request is built, the handshake ends in time or not, the subprotocol is checked.
    [handshake] is the header of the answer. *)
Definition ws_connect (offered : list string) (connect_timeout : Z) (request : option string)
  (handshake : option (TungsteniteError + option string)) (incoming : list WsEvent) : res WsTransportError WebSocketConnection :=
  let? _ := match request with Some e => Err (InvalidUrl e) | None => Ok tt end in
  let? response := match handshake with
                   | None => Err (WsTimeout connect_timeout)
                   | Some (inl e) => Err (map_tungstenite_handshake_error e)
                   | Some (inr header) => Ok header
                   end in
  let? negotiated := parse_negotiated_subprotocol offered response in
  Ok (ws_connected incoming negotiated).

Definition fetch_add (n : Z) : Z := (n + 1) mod 2 ^ 64.

Section Wires.
Context `{Prost}.

Definition ws_send_envelope (p : ClientPayload) : st WebSocketConnection WsTransportError Z := fun c =>
  let seq := w_next_seq c in
  let buf := encode_client (build_client_envelope seq p) in
  let c' := fun sent outcomes => {| w_incoming := w_incoming c; w_sent := sent; w_outcomes := outcomes; w_negotiated := w_negotiated c;
                                    w_next_seq := fetch_add (w_next_seq c) |} in
  match w_outcomes c with
  | Some e :: rest => (Err (map_tungstenite_io_error e), c' (w_sent c) rest)
  | None :: rest => (Ok seq, c' (w_sent c ++ [buf]) rest)
  | [] => (Ok seq, c' (w_sent c ++ [buf]) [])
  end.

(** One pass of the loop per event; [None] when the caller stops waiting. *)
Fixpoint ws_recv (incoming : list WsEvent) : option (WsTransportError + ServerFrame) * list WsEvent :=
  match incoming with
  | [] => (None, [])
  | ev :: rest =>
      match ev with
      | WsBinary bytes => match decode_server bytes with
                          | None => (Some (inl (WsCodec "decode ServerEnvelope: ")), rest)
                          | Some env => (Some (decode_server_envelope env), rest)
                          end
      | WsText t => (Some (inl (WsCodec ("expected binary Protobuf frame, got text frame: " +:+ t))), rest)
      | WsCloseFrame => (Some (inl WsClosed), rest)
      | WsFault e => (Some (inl (map_tungstenite_io_error e)), rest)
      | WsEnd => (Some (inl WsClosed), rest)
      | WsPing | WsPong | WsFrame => ws_recv rest
      end
  end.
Definition ws_set_incoming (c : WebSocketConnection) (l : list WsEvent) : WebSocketConnection :=
  {| w_incoming := l; w_sent := w_sent c; w_outcomes := w_outcomes c; w_negotiated := w_negotiated c; w_next_seq := w_next_seq c |}.
Definition ws_recv_envelope (c : WebSocketConnection) : option (WsTransportError + ServerFrame) * WebSocketConnection :=
  let '(r, l) := ws_recv (w_incoming c) in (r, ws_set_incoming c l).
(** [authenticate]; without an answer the call is still waiting ([None]). *)
Definition ws_authenticate (token : string) (device_id : list byte) (c : WebSocketConnection)
  : option (res WsTransportError unit) * WebSocketConnection :=
  match ws_send_envelope (CAuth token device_id) c with
  | (Ok _, c) =>
      let '(r, c) := ws_recv_envelope c in
      (match r with
       | None => None
       | Some (inl e) => Some (Err e)
       | Some (inr frame) => Some match payload frame with
                                  | AuthOk => Ok tt
                                  | SError code => Err (WsAuthRejected code)
                                  | other => Err (WsUnexpectedAuthFrame other)
                                  end
       end, c)
  | (Err e, c) => (Some (Err e), c)
  | (Panic, c) => (Some Panic, c)
  end.

(** ** QUIC *)
Definition ALPN_UMX_QUIC_V1 : list byte := bytes_of_string "umx-quic-v1".
Definition QUIC_MAX_FRAME_BYTES : Z := 262144.
Definition QUIC_RECV_CHUNK_BYTES : Z := 4096.
Inductive QuicTransportError :=
| AlpnConfigMissing (got : list (list byte)) | Bind (what : string) | QTls (what : string) | QHandshake (what : string)
| AlpnRejected (offered : list byte) (server_selected : option (list byte))
| QAuthRejected (code : list byte) | QUnexpectedAuthFrame (frame : ServerPayload) | QUnknownServerPayload | QClosed
| QIo (what : string) | QCodec (what : string) | FrameTooLarge (announced limit : Z) | QTimeout (after : Z).

(** The errors of quinn, with their texts. *)
Inductive ConnectionError :=
| TimedOut | TransportErr (what : string) | ApplicationClosed (reason code : string) | ConnectionClosed (reason code : string)
| CReset | LocallyClosed | VersionMismatch | CidsExhausted.
Inductive WriteError := WStopped | WClosedStream | WConnectionLost (e : ConnectionError) | WOther (what : string).
Inductive ReadError := RReset | RClosedStream | RConnectionLost (e : ConnectionError) | ROther (what : string).
Definition map_connection_error (e : ConnectionError) : QuicTransportError :=
  match e with
  | TimedOut => QHandshake "connection timed out"
  | TransportErr t => QHandshake ("transport: " +:+ t)
  | ApplicationClosed reason code => QHandshake ("peer closed: " +:+ reason +:+ " (" +:+ code +:+ ")")
  | ConnectionClosed reason code => QHandshake ("peer closed (transport): " +:+ reason +:+ " (" +:+ code +:+ ")")
  | CReset => QClosed
  | LocallyClosed => QClosed
  | VersionMismatch => QHandshake "QUIC version mismatch"
  | CidsExhausted => QHandshake "connection IDs exhausted"
  end.
Definition map_write_error (e : WriteError) : QuicTransportError :=
  match e with
  | WStopped | WClosedStream | WConnectionLost LocallyClosed => QClosed
  | WConnectionLost ce => map_connection_error ce
  | WOther what => QIo what
  end.
Definition map_read_error (e : ReadError) : QuicTransportError :=
  match e with
  | RReset | RClosedStream | RConnectionLost LocallyClosed => QClosed
  | RConnectionLost ce => map_connection_error ce
  | ROther what => QIo what
  end.

(** What reading the stream gives next, and the connection. *)
Inductive QuicRead := Chunk (bytes : list byte) | Finished | ReadFault (e : ReadError).
Record QuicConnection := {
  q_buf : list byte; q_incoming : list QuicRead; q_sent : list byte; q_outcomes : list (option WriteError); q_next_seq : Z
}.
Definition quic_new (alpn_protocols : list (list byte)) (bind tls : option string) : res QuicTransportError unit :=
  reject negb (existsb (fun p => bool_decide (p = ALPN_UMX_QUIC_V1)) alpn_protocols) with AlpnConfigMissing alpn_protocols ;;
  let? _ := match bind with Some e => Err (Bind e) | None => Ok tt end in
  match tls with Some e => Err (QTls e) | None => Ok tt end.
(** [handshake]: [None] when it takes too long, otherwise the protocol the server selected. *)
Definition quic_connect (connect_timeout : Z) (start : option string) (handshake : option (ConnectionError + option (list byte)))
  (open_bi : option string) (incoming : list QuicRead) : res QuicTransportError QuicConnection :=
  let? _ := match start with Some e => Err (QHandshake e) | None => Ok tt end in
  let? alpn := match handshake with
               | None => Err (QTimeout connect_timeout)
               | Some (inl e) => Err (map_connection_error e)
               | Some (inr alpn) => Ok alpn
               end in
  reject negb (bool_decide (alpn = Some ALPN_UMX_QUIC_V1)) with AlpnRejected ALPN_UMX_QUIC_V1 alpn ;;
  let? _ := match open_bi with Some e => Err (QIo ("open_bi: " +:+ e)) | None => Ok tt end in
  Ok {| q_buf := []; q_incoming := incoming; q_sent := []; q_outcomes := []; q_next_seq := 1 |}.

(** One attempt to cut an envelope off the buffer; every error of the varint counts as too short. *)
Definition try_decode_length_delimited (buf : list byte) : res QuicTransportError (option ServerEnvelope * list byte) :=
  match decode_varint buf with
  | None => Ok (None, buf)
  | Some (payload_len, peek) =>
      reject QUIC_MAX_FRAME_BYTES <? payload_len with FrameTooLarge payload_len QUIC_MAX_FRAME_BYTES ;;
      let prefix_len := len buf - len peek in
      let total := prefix_len + payload_len in
      reject U64_MAX <? total with FrameTooLarge U64_MAX QUIC_MAX_FRAME_BYTES ;;
      if len buf <? total then Ok (None, buf)
      else
        let? payload := slice prefix_len total buf in
        let? envelope := ok_or (decode_server payload) (QCodec "decode ServerEnvelope: ") in
        let? rest := slice_from total buf in
        Ok (Some envelope, rest)
  end.

(** The loop of [recv_envelope]: decode, or read once more. *)
Fixpoint quic_recv (buf : list byte) (incoming : list QuicRead)
  : option (res QuicTransportError ServerFrame) * (list byte * list QuicRead) :=
  match try_decode_length_delimited buf with
  | Ok (Some envelope, buf) =>
      (Some match decode_server_envelope envelope with inl _ => Err (QCodec "translate: ") | inr f => Ok f end, (buf, incoming))
  | Ok (None, buf) =>
      match incoming with
      | [] => (None, (buf, []))
      | Chunk bytes :: rest => quic_recv (buf ++ bytes) rest
      | Finished :: rest => (Some (Err QClosed), (buf, rest))
      | ReadFault e :: rest => (Some (Err (map_read_error e)), (buf, rest))
      end
  | Err e => (Some (Err e), (buf, incoming))
  | Panic => (Some Panic, (buf, incoming))
  end.
Definition quic_recv_envelope (c : QuicConnection) : option (res QuicTransportError ServerFrame) * QuicConnection :=
  let '(r, (buf, incoming)) := quic_recv (q_buf c) (q_incoming c) in
  (r, {| q_buf := buf; q_incoming := incoming; q_sent := q_sent c; q_outcomes := q_outcomes c; q_next_seq := q_next_seq c |}).

Definition delimited (bytes : list byte) : list byte := encode_varint (len bytes) ++ bytes.
Definition quic_send_envelope (p : ClientPayload) : st QuicConnection QuicTransportError Z := fun c =>
  let seq := q_next_seq c in
  let buf := delimited (encode_client (build_client_envelope seq p)) in
  let c' := fun sent outcomes => {| q_buf := q_buf c; q_incoming := q_incoming c; q_sent := sent; q_outcomes := outcomes;
                                    q_next_seq := fetch_add (q_next_seq c) |} in
  match q_outcomes c with
  | Some e :: rest => (Err (map_write_error e), c' (q_sent c) rest)
  | None :: rest => (Ok seq, c' (q_sent c ++ buf) rest)
  | [] => (Ok seq, c' (q_sent c ++ buf) [])
  end.
Definition quic_authenticate (token : string) (device_id : list byte) (c : QuicConnection)
  : option (res QuicTransportError unit) * QuicConnection :=
  match quic_send_envelope (CAuth token device_id) c with
  | (Ok _, c) =>
      let '(r, c) := quic_recv_envelope c in
      (match r with
       | None => None
       | Some (Err e) => Some (Err e)
       | Some Panic => Some Panic
       | Some (Ok frame) => Some match payload frame with
                                 | AuthOk => Ok tt
                                 | SError code => Err (QAuthRejected code)
                                 | other => Err (QUnexpectedAuthFrame other)
                                 end
       end, c)
  | (Err e, c) => (Some (Err e), c)
  | (Panic, c) => (Some Panic, c)
  end.
End Wires.

(** ** QUIC: proofs *)

(** What Protobuf documents of varints: decoding reads one varint off the front, needs all of it,
    and gives up for good after ten bytes. *)
Class ProstLaws `{Prost} : Prop := {
  varint_inverse n (rest : list byte) : 0 <= n <= U64_MAX -> decode_varint (encode_varint n ++ rest) = Some (n, rest);
  varint_short n (p q : list byte) : 0 <= n <= U64_MAX -> encode_varint n = p ++ q -> q <> [] -> decode_varint p = None;
  varint_suffix (b : list byte) n rest : decode_varint b = Some (n, rest) -> 0 <= n <= U64_MAX /\ exists p, b = p ++ rest /\ len p <= 10;
  varint_malformed (b rest : list byte) : decode_varint b = None -> 10 <= len b -> decode_varint (b ++ rest) = None
}.

Section Quic.
Context `{ProstLaws}.

(** An answer of the server: the bytes of a message within the limit and what they decode to. *)
Record Answer := { bytes_of : list byte; envelope_of : ServerEnvelope }.
Definition answer_ok (a : Answer) : Prop := decode_server (bytes_of a) = Some (envelope_of a) /\ len (bytes_of a) <= QUIC_MAX_FRAME_BYTES.
Definition result_of (a : Answer) : res QuicTransportError ServerFrame :=
  match decode_server_envelope (envelope_of a) with inl _ => Err (QCodec "translate: ") | inr f => Ok f end.
Definition wire (l : list Answer) : list byte := concat ((fun a => delimited (bytes_of a)) <$> l).

Lemma max_frame_u64 (p : list byte) : len p <= QUIC_MAX_FRAME_BYTES -> 0 <= len p <= U64_MAX.
Proof. unfold QUIC_MAX_FRAME_BYTES, U64_MAX. pose proof (len_nonneg p). lia. Qed.
Lemma varint_len n : 0 <= n <= U64_MAX -> len (encode_varint n) <= 10.
Proof.
  intros Hn. pose proof (varint_inverse n [] Hn) as Hd. rewrite app_nil_r in Hd. apply varint_suffix in Hd as [_ (p & Hp & Hl)].
  rewrite app_nil_r in Hp. by subst.
Qed.
Lemma varint_nil : decode_varint [] = None.
Proof.
  assert (0 <= 0 <= U64_MAX /\ 0 <= 1 <= U64_MAX) as [Hz Ho] by (unfold U64_MAX; lia).
  destruct (encode_varint 0) eqn:E0; [|by apply (varint_short 0 [] (encode_varint 0)); [| |rewrite E0]].
  pose proof (varint_inverse 0 (encode_varint 1) Hz) as Ha. pose proof (varint_inverse 1 [] Ho) as Hb.
  rewrite E0 in Ha. rewrite app_nil_r in Hb. cbn in Ha. congruence.
Qed.

(** The attempt on a buffer whose varint decodes, and on one whose varint does not. *)
Lemma try_decode_varint v n peek : decode_varint (v ++ peek) = Some (n, peek) -> 0 <= n <= QUIC_MAX_FRAME_BYTES -> len v <= 10 ->
  try_decode_length_delimited (v ++ peek) =
    if len peek <? n then Ok (None, v ++ peek)
    else let p := take (Z.to_nat n) peek in
         match decode_server p with Some e => Ok (Some e, drop (Z.to_nat n) peek) | None => Err (QCodec "decode ServerEnvelope: ") end.
Proof.
  intros Hd Hn Hv. unfold try_decode_length_delimited. rewrite Hd. unfold rguard. rewrite (proj2 (Z.ltb_ge _ _)) by lia.
  rewrite len_app. replace (len v + len peek - len peek) with (len v) by lia.
  rewrite (proj2 (Z.ltb_ge _ _)) by (unfold U64_MAX, QUIC_MAX_FRAME_BYTES in *; lia).
  destruct (Z.ltb_spec (len peek) n) as [Hl|Hl]; [by rewrite (proj2 (Z.ltb_lt _ _)) by lia|].
  rewrite (proj2 (Z.ltb_ge _ _)) by lia. rewrite slice_skip_len by lia.
  replace (len v - len v) with 0 by lia. replace (len v + n - len v) with n by lia.
  rewrite slice_in_range by lia. cbn. rewrite drop_0, Z.sub_0_r. destruct (decode_server _); [|done]. cbn.
  unfold slice_from. rewrite len_app, slice_skip_len by lia.
  replace (len v + n - len v) with n by lia. replace (len v + len peek - len v) with (len peek) by lia.
  rewrite slice_in_range by lia. cbn. f_equal. f_equal. apply take_ge. rewrite length_drop. unfold len in *. lia.
Qed.

(** A whole message at the front of the buffer is cut off; of a part of one nothing is. *)
Lemma try_decode_message p rest : len p <= QUIC_MAX_FRAME_BYTES ->
  try_decode_length_delimited (delimited p ++ rest) =
    match decode_server p with Some e => Ok (Some e, rest) | None => Err (QCodec "decode ServerEnvelope: ") end.
Proof.
  intros Hl. pose proof (max_frame_u64 _ Hl) as Hu. pose proof (len_nonneg rest). unfold delimited. rewrite <- app_assoc.
  rewrite (try_decode_varint _ (len p)) by (auto using varint_inverse, varint_len || lia).
  rewrite len_app, (proj2 (Z.ltb_ge _ _)) by lia. cbn. unfold len. by rewrite Nat2Z.id, take_app_length, drop_app_length.
Qed.
Lemma try_decode_partial p b q : len p <= QUIC_MAX_FRAME_BYTES -> delimited p = b ++ q -> q <> [] ->
  try_decode_length_delimited b = Ok (None, b).
Proof.
  intros Hl Hb Hq. pose proof (max_frame_u64 _ Hl) as Hu.
  assert (0 < len q) by (destruct q; [done|]; unfold len; cbn [length]; lia).
  apply app_eq_inv in Hb as [(k & Hk & Hp)|(k & Hk & Hp)].
  - destruct (decide (k = [])) as [->|Hk0].
    + rewrite app_nil_r in Hk. rewrite <- Hk, <- (app_nil_r (encode_varint _)). cbn in Hp. subst q.
      rewrite (try_decode_varint _ (len p)) by (auto using varint_inverse, varint_len || lia).
      by rewrite (proj2 (Z.ltb_lt _ _)) by (change (len (@nil byte)) with 0; lia).
    + unfold try_decode_length_delimited. by rewrite (varint_short (len p) b k).
  - subst b. assert (len p = len k + len q) by (by rewrite Hp, len_app).
    rewrite (try_decode_varint _ (len p)) by (auto using varint_inverse, varint_len || lia).
    by rewrite (proj2 (Z.ltb_lt _ _)) by lia.
Qed.

(** Wherever the chunks cut the stream, the next message is received, and what follows stays. *)
Lemma recv_message a tail chunks more : answer_ok a -> forall buf, buf ++ concat chunks = delimited (bytes_of a) ++ tail ->
  exists buf' chunks', quic_recv buf (map Chunk chunks ++ more) = (Some (result_of a), (buf', map Chunk chunks' ++ more)) /\ buf' ++ concat chunks' = tail.
Proof.
  intros [Hd Hl]. assert (Hwhole : forall rest, try_decode_length_delimited (delimited (bytes_of a) ++ rest) = Ok (Some (envelope_of a), rest))
    by (intros; by rewrite try_decode_message, Hd).
  induction chunks as [|ch chunks IH]; intros buf Hb.
  - cbn in Hb. rewrite app_nil_r in Hb. subst buf. exists tail, []. cbn [quic_recv map app concat]. rewrite app_nil_r.
    destruct more; cbn [quic_recv]; by rewrite Hwhole.
  - apply app_eq_inv in Hb as [(k & -> & Hp)|(k & Hk & Hp)].
    + exists k, (ch :: chunks). cbn [map app quic_recv]. by rewrite Hwhole.
    + destruct (decide (k = [])) as [->|Hk0].
      * rewrite app_nil_r in Hk. cbn in Hp. exists [], (ch :: chunks). cbn [map app quic_recv].
        rewrite <- Hk, <- (app_nil_r (delimited _)), Hwhole. by split.
      * cbn [map app quic_recv]. rewrite (try_decode_partial (bytes_of a) buf k) by done. apply IH.
        cbn [concat] in Hp. by rewrite Hk, <- !app_assoc, <- Hp.
Qed.

(** Receiving [n] times. *)
Fixpoint receives (n : nat) (c : QuicConnection) : list (option (res QuicTransportError ServerFrame)) * QuicConnection :=
  match n with
  | O => ([], c)
  | S n => let '(r, c) := quic_recv_envelope c in let '(rs, c) := receives n c in (r :: rs, c)
  end.

(** Bytes that are no message yet are kept until what comes after the chunks. *)
Lemma recv_partial p q tail chunks more : len p <= QUIC_MAX_FRAME_BYTES -> delimited p = tail ++ q -> q <> [] ->
  forall buf, buf ++ concat chunks = tail -> quic_recv buf (map Chunk chunks ++ more) = quic_recv tail more.
Proof.
  intros Hl Hp Hq. induction chunks as [|ch chunks IH]; intros buf Hb; cbn [map app concat] in *.
  - by rewrite app_nil_r in Hb; subst.
  - assert (Hsplit : delimited p = buf ++ ((ch ++ concat chunks) ++ q)) by (by rewrite Hp, <- Hb, !app_assoc).
    assert (Hnil : (ch ++ concat chunks) ++ q <> []) by (intros Hx; apply app_eq_nil in Hx; tauto).
    cbn [quic_recv]. rewrite (try_decode_partial p buf _ Hl Hsplit Hnil). apply IH. by rewrite <- app_assoc.
Qed.
Lemma delimited_ne p : delimited p <> [].
Proof.
  unfold delimited. intros Hx. apply app_eq_nil in Hx as [Hx ->]. assert (Hz : 0 <= 0 <= U64_MAX) by (unfold U64_MAX; lia).
  pose proof (varint_inverse 0 [] Hz) as Hd. change (len (@nil byte)) with 0 in Hx. rewrite Hx in Hd. cbn in Hd. by rewrite varint_nil in Hd.
Qed.

Lemma receives_stream l more : Forall answer_ok l -> forall tail chunks c,
  q_incoming c = map Chunk chunks ++ more -> q_buf c ++ concat chunks = wire l ++ tail ->
  exists chunks' buf', q_buf c ++ concat chunks = wire l ++ (buf' ++ concat chunks') /\ buf' ++ concat chunks' = tail /\
    receives (length l) c = (map (fun a => Some (result_of a)) l,
      {| q_buf := buf'; q_incoming := map Chunk chunks' ++ more; q_sent := q_sent c; q_outcomes := q_outcomes c; q_next_seq := q_next_seq c |}).
Proof.
  induction 1 as [|a l Ha Hl IH]; intros tail chunks c Hi Hb.
  { exists chunks, (q_buf c). split; [done|]. split; [done|]. cbn. rewrite <- Hi. by destruct c. }
  cbn [wire fmap list_fmap concat] in Hb. rewrite <- app_assoc in Hb.
  destruct (recv_message a (wire l ++ tail) chunks more Ha (q_buf c) Hb) as (buf1 & chunks1 & Hr & Hb1).
  destruct (IH tail chunks1 {| q_buf := buf1; q_incoming := map Chunk chunks1 ++ more; q_sent := q_sent c; q_outcomes := q_outcomes c;
    q_next_seq := q_next_seq c |} eq_refl Hb1) as (chunks2 & buf2 & Hb2 & Ht & Hrs).
  exists chunks2, buf2. split; [cbn; by rewrite Hb, Ht, <- app_assoc|]. split; [done|].
  cbn [length receives map]. unfold quic_recv_envelope. rewrite Hi, Hr, Hrs. done.
Qed.

(** However the network cuts the stream into chunks, receiving gives exactly the messages that were
    written to it, in order, one per call; the bytes after them stay.  While these are only the
    beginning of a message, the next call waits and keeps them all; at the end of the stream it
    reports the closed connection. *)
Theorem quic_stream_reassembled l tail chunks more c :
  Forall answer_ok l -> q_incoming c = map Chunk chunks ++ more -> q_buf c ++ concat chunks = wire l ++ tail ->
  exists c', receives (length l) c = (map (fun a => Some (result_of a)) l, c') /\
    q_sent c' = q_sent c /\ q_next_seq c' = q_next_seq c /\
    (forall p q, delimited p = tail ++ q -> q <> [] -> len p <= QUIC_MAX_FRAME_BYTES ->
       (more = [] -> (quic_recv_envelope c').1 = None /\ q_buf (quic_recv_envelope c').2 = tail) /\
       (forall more', more = Finished :: more' -> (quic_recv_envelope c').1 = Some (Err QClosed))).
Proof.
  intros Hl Hi Hb. destruct (receives_stream l more Hl tail chunks c Hi Hb) as (chunks' & buf' & _ & Ht & Hr).
  eexists. split; [exact Hr|]. cbn [q_sent q_next_seq]. split; [done|]. split; [done|]. intros p q Hp Hq Hlen.
  unfold quic_recv_envelope. cbn [q_buf q_incoming]. rewrite (recv_partial p q tail chunks' more Hlen Hp Hq buf' Ht).
  assert (Hnone : try_decode_length_delimited tail = Ok (None, tail)) by (by eapply try_decode_partial).
  split; [intros ->|intros more' ->]; cbn [quic_recv]; by rewrite Hnone.
Qed.

(** ** A connection that is stuck *)
Lemma receives_same r n c : quic_recv_envelope c = (r, c) -> receives n c = (replicate n r, c).
Proof. intros Hr. induction n as [|n IH]; [done|]. cbn [receives replicate]. by rewrite Hr, IH. Qed.
Lemma recv_error e c : try_decode_length_delimited (q_buf c) = Err e -> quic_recv_envelope c = (Some (Err e), c).
Proof. intros He. unfold quic_recv_envelope. destruct c as [buf inc]. cbn [q_buf q_incoming] in *. by destruct inc; cbn [quic_recv]; rewrite He. Qed.
Lemma recv_waits chunks : forall buf, decode_varint buf = None -> 10 <= len buf -> quic_recv buf (map Chunk chunks) = (None, (buf ++ concat chunks, [])).
Proof.
  induction chunks as [|ch chunks IH]; intros buf Hd Hl; cbn [map quic_recv concat]; unfold try_decode_length_delimited; rewrite Hd.
  - by rewrite app_nil_r.
  - pose proof (len_nonneg ch). rewrite IH; [by rewrite <- app_assoc|by apply varint_malformed|rewrite len_app; lia].
Qed.

(** One bad frame ends the use of a connection.  A message that does not decode, or one announced
    larger than the limit, stays in the buffer, so every later call fails the same way and never
    reads on; after a malformed length every call waits, and whatever arrives piles up in the
    buffer without limit. *)
Theorem quic_stuck c n :
  (forall p rest, q_buf c = delimited p ++ rest -> len p <= QUIC_MAX_FRAME_BYTES -> decode_server p = None ->
     receives n c = (replicate n (Some (Err (QCodec "decode ServerEnvelope: "))), c)) /\
  (forall m rest, q_buf c = encode_varint m ++ rest -> QUIC_MAX_FRAME_BYTES < m <= U64_MAX ->
     receives n c = (replicate n (Some (Err (FrameTooLarge m QUIC_MAX_FRAME_BYTES))), c)) /\
  (forall chunks, decode_varint (q_buf c) = None -> 10 <= len (q_buf c) -> q_incoming c = map Chunk chunks ->
     exists c', receives (S n) c = (replicate (S n) None, c') /\ q_buf c' = q_buf c ++ concat chunks).
Proof.
  split; [|split].
  - intros p rest Hb Hl Hd. apply receives_same, recv_error. by rewrite Hb, try_decode_message, Hd.
  - intros m rest Hb Hm. apply receives_same, recv_error. rewrite Hb. unfold try_decode_length_delimited.
    rewrite varint_inverse by (unfold QUIC_MAX_FRAME_BYTES in *; lia). unfold rguard. by rewrite (proj2 (Z.ltb_lt _ _)) by lia.
  - intros chunks Hd Hl Hi. cbn [receives]. unfold quic_recv_envelope at 1. rewrite Hi, recv_waits by done.
    set (c1 := Build_QuicConnection _ _ _ _ _). exists c1. split; [|done].
    assert (Hsame : quic_recv_envelope c1 = (None, c1)).
    { unfold quic_recv_envelope. subst c1. cbn [q_buf q_incoming q_sent q_outcomes q_next_seq]. rewrite (recv_waits []).
      - cbn [concat]. by rewrite app_nil_r.
      - by apply varint_malformed.
      - rewrite len_app. pose proof (len_nonneg (concat chunks)). lia. }
    by rewrite (receives_same None n c1 Hsame).
Qed.

(** No bytes a server sends make the client panic. *)
Lemma try_decode_no_panic buf : try_decode_length_delimited buf <> Panic.
Proof.
  unfold try_decode_length_delimited. destruct (decode_varint buf) as [[n peek]|] eqn:Hd; [|done].
  apply varint_suffix in Hd as [Hn (v & -> & Hv)]. unfold rguard. destruct (_ <? n) eqn:Hm; [done|]. apply Z.ltb_ge in Hm.
  rewrite len_app. replace (len v + len peek - len peek) with (len v) by lia. pose proof (len_nonneg v).
  destruct (U64_MAX <? _); [done|]. destruct (Z.ltb_spec (len v + len peek) (len v + n)); [done|].
  rewrite slice_in_range by (rewrite ?len_app; lia). cbn [rbind]. destruct (decode_server _); [|done]. cbn [ok_or rbind].
  unfold slice_from. rewrite slice_in_range by (rewrite ?len_app; lia). done.
Qed.
Lemma quic_no_panic incoming : forall buf, (quic_recv buf incoming).1 <> Some Panic.
Proof.
  induction incoming as [|ev incoming IH]; intros buf; cbn [quic_recv]; pose proof (try_decode_no_panic buf);
    destruct (try_decode_length_delimited buf) as [[[env|] rest]| |]; try done; try (by destruct (decode_server_envelope env)).
  destruct ev; [apply IH|done..].
Qed.
End Quic.

(** ** Sending *)
Section Sending.
Context `{Prost}.

(** Sequence numbers from [s] on, wrapping as the counter does. *)
Fixpoint numbered (s : Z) (l : list ClientPayload) : list ClientEnvelope :=
  match l with [] => [] | p :: l => build_client_envelope s p :: numbered (fetch_add s) l end.
Fixpoint send_all {C E} (send : ClientPayload -> st C E Z) (l : list ClientPayload) : st C E (list Z) :=
  match l with
  | [] => sret []
  | p :: l => let! s := send p in let! ss := send_all send l in sret (s :: ss)
  end.
Lemma send_all_cons {C E} (send : ClientPayload -> st C E Z) p l c s c1 ss c2 :
  send p c = (Ok s, c1) -> send_all send l c1 = (Ok ss, c2) -> send_all send (p :: l) c = (Ok (s :: ss), c2).
Proof. intros Hp Hl. cbn [send_all]. unfold sbind. by rewrite Hp, Hl. Qed.

Lemma quic_sends l : forall c, q_outcomes c = [] ->
  exists c', send_all quic_send_envelope l c = (Ok (ce_seq <$> numbered (q_next_seq c) l), c') /\
    q_sent c' = q_sent c ++ concat ((fun e => delimited (encode_client e)) <$> numbered (q_next_seq c) l) /\ q_outcomes c' = [] /\
    q_buf c' = q_buf c /\ q_incoming c' = q_incoming c.
Proof.
  induction l as [|p l IH]; intros c Ho; [exists c; cbn; rewrite app_nil_r; by destruct c|].
  set (c1 := (quic_send_envelope p c).2). assert (Ho1 : q_outcomes c1 = []) by (subst c1; unfold quic_send_envelope; by rewrite Ho).
  assert (Hn : q_next_seq c1 = fetch_add (q_next_seq c)) by (subst c1; unfold quic_send_envelope; by rewrite Ho). destruct (IH c1 Ho1) as (c' & Hs & Hw & Hx). rewrite Hn in Hs, Hw. exists c'. split.
  - eapply send_all_cons; [|exact Hs]. subst c1. unfold quic_send_envelope. by rewrite Ho.
  - rewrite Hw. split; [|destruct Hx as (? & Hx); revert Hx]; subst c1; unfold quic_send_envelope; rewrite Ho; [cbn; by rewrite <- app_assoc|done].
Qed.
Lemma ws_sends l : forall c, w_outcomes c = [] ->
  exists c', send_all ws_send_envelope l c = (Ok (ce_seq <$> numbered (w_next_seq c) l), c') /\
    w_sent c' = w_sent c ++ (encode_client <$> numbered (w_next_seq c) l) /\ w_outcomes c' = [] /\ w_incoming c' = w_incoming c.
Proof.
  induction l as [|p l IH]; intros c Ho; [exists c; cbn; rewrite app_nil_r; by destruct c|].
  set (c1 := (ws_send_envelope p c).2). assert (Ho1 : w_outcomes c1 = []) by (subst c1; unfold ws_send_envelope; by rewrite Ho).
  assert (Hn : w_next_seq c1 = fetch_add (w_next_seq c)) by (subst c1; unfold ws_send_envelope; by rewrite Ho). destruct (IH c1 Ho1) as (c' & Hs & Hw & Hx). rewrite Hn in Hs, Hw. exists c'. split.
  - eapply send_all_cons; [|exact Hs]. subst c1. unfold ws_send_envelope. by rewrite Ho.
  - rewrite Hw. split; [|destruct Hx as (? & Hx); revert Hx]; subst c1; unfold ws_send_envelope; rewrite Ho; [cbn; by rewrite <- app_assoc|done].
Qed.
Lemma numbered_lookup l : forall s i, 0 <= s < 2 ^ 64 -> numbered s l !! i = build_client_envelope ((s + Z.of_nat i) mod 2 ^ 64) <$> l !! i.
Proof.
  induction l as [|p l IH]; intros s i Hs; [done|]. destruct i as [|i]; cbn [numbered lookup list_lookup fmap option_fmap option_map].
  - by rewrite Z.add_0_r, Z.mod_small.
  - rewrite IH by (apply Z.mod_pos_bound; lia). unfold fetch_add. rewrite Z.add_mod_idemp_l by lia. do 3 f_equal. lia.
Qed.

(** ** The connection the chats use ([gateway.rs]) *)
Definition Connection : Type := @Transport.GatewayConnection QuicConnection WebSocketConnection.
Definition ConnectionFault : Type := @Transport.GatewayTransportError QuicTransportError WsTransportError.
Definition gateway_send (p : ClientPayload) (c : Connection) : option ConnectionFault * Connection :=
  match c with
  | Transport.Quic c => let '(r, c) := quic_send_envelope p c in
      (match r with Err e => Some (Transport.EQuic e) | _ => None end, Transport.Quic c)
  | Transport.WebSocket c => let '(r, c) := ws_send_envelope p c in
      (match r with Err e => Some (Transport.EWebSocket e) | _ => None end, Transport.WebSocket c)
  end.
(** The chats only look at the payload of a frame.  No call panics ([quic_no_panic]). *)
Definition gateway_recv (c : Connection) : option (ConnectionFault + ServerPayload) * Connection :=
  match c with
  | Transport.Quic c => let '(r, c) := quic_recv_envelope c in
      (match r with
       | Some (Ok f) => Some (inr (payload f))
       | Some (Err e) => Some (inl (Transport.EQuic e))
       | Some Panic | None => None
       end, Transport.Quic c)
  | Transport.WebSocket c => let '(r, c) := ws_recv_envelope c in
      (match r with
       | Some (inr f) => Some (inr (payload f))
       | Some (inl e) => Some (inl (Transport.EWebSocket e))
       | None => None
       end, Transport.WebSocket c)
  end.
#[export] Instance gateway_ops : GatewayOps := {|
  Conn := Connection; GatewayTransportError := ConnectionFault; send_envelope := gateway_send; recv_envelope := gateway_recv
|}.
End Sending.

(** ** Chats over the wires *)
Section Chats.
Context `{ProstLaws}.

(** The frame an answer carries, and the events a WebSocket delivers frames with. *)
Definition carries_payload (a : Answer) (p : ServerPayload) : Prop :=
  exists pp, se_payload (envelope_of a) = Some pp /\ translate pp = p.
Inductive ws_events : list ServerPayload -> list WsEvent -> Prop :=
| ws_events_nil : ws_events [] []
| ws_events_control ev l evs : ev = WsPing \/ ev = WsPong \/ ev = WsFrame -> ws_events l evs -> ws_events l (ev :: evs)
| ws_events_frame bytes env p l evs :
    decode_server bytes = Some env -> carries_payload {| bytes_of := bytes; envelope_of := env |} p ->
    ws_events l evs -> ws_events (p :: l) (WsBinary bytes :: evs).
(** The connection delivers the frames [l] and then nothing, by either wire. *)
Inductive delivers : Connection -> list ServerPayload -> Prop :=
| delivers_quic c chunks answers l :
    q_incoming c = map Chunk chunks -> q_buf c ++ concat chunks = wire answers -> Forall answer_ok answers ->
    Forall2 carries_payload answers l -> delivers (Transport.Quic c) l
| delivers_ws c l : ws_events l (w_incoming c) -> delivers (Transport.WebSocket c) l.

Lemma quic_feeds answers l : Forall2 carries_payload answers l -> Forall answer_ok answers -> forall chunks c,
  q_incoming c = map Chunk chunks -> q_buf c ++ concat chunks = wire answers -> exists g', feeds (GW := gateway_ops) (Transport.Quic c) l g'.
Proof.
  induction 1 as [|a p answers l (pp & Hpp & Htr) Hl IH]; intros Hok chunks c Hi Hb.
  - eexists. apply feeds_nil. cbn. unfold gateway_recv, quic_recv_envelope. rewrite Hi, <- (app_nil_r (map Chunk chunks)).
    rewrite (recv_partial [] (delimited []) [] chunks [] ltac:(done) eq_refl (delimited_ne []) (q_buf c) Hb).
    cbn [quic_recv]. unfold try_decode_length_delimited. rewrite varint_nil. reflexivity.
  - inversion Hok as [|? ? Ha Hok']; subst.
    destruct (recv_message a (wire answers) chunks [] Ha (q_buf c) Hb) as (buf' & chunks' & Hr & Hb').
    rewrite !app_nil_r in Hr.
    destruct (IH Hok' chunks' {| q_buf := buf'; q_incoming := map Chunk chunks'; q_sent := q_sent c; q_outcomes := q_outcomes c;
      q_next_seq := q_next_seq c |} eq_refl Hb') as [g' Hg'].
    exists g'. eapply feeds_cons; [|exact Hg']. cbn. unfold gateway_recv, quic_recv_envelope. rewrite Hi, Hr.
    unfold result_of, decode_server_envelope. by rewrite Hpp.
Qed.
Lemma ws_feeds l evs : ws_events l evs -> forall c, w_incoming c = evs -> exists g', feeds (GW := gateway_ops) (Transport.WebSocket c) l g'.
Proof.
  induction 1 as [|ev l evs Hev Hl IH|bytes env p l evs Hd (pp & Hpp & Htr) Hl IH]; intros c Hi.
  - eexists. apply feeds_nil. cbn. unfold gateway_recv, ws_recv_envelope. rewrite Hi. reflexivity.
  - destruct (IH (ws_set_incoming c evs) eq_refl) as [g' Hg']. exists g'.
    assert (Hsame : recv_envelope (GatewayOps := gateway_ops) (Transport.WebSocket c) =
      recv_envelope (GatewayOps := gateway_ops) (Transport.WebSocket (ws_set_incoming c evs))).
    { cbn. unfold gateway_recv, ws_recv_envelope. rewrite Hi. cbn [w_incoming ws_set_incoming].
      by destruct Hev as [->|[->| ->]]; cbn [ws_recv]; destruct (ws_recv evs). }
    inversion Hg' as [? ? Hr|? ? ? ? ? Hr Hrest]; subst; rewrite <- Hsame in Hr; by econstructor.
  - destruct (IH (ws_set_incoming c evs) eq_refl) as [g' Hg']. exists g'. eapply feeds_cons; [|exact Hg']. cbn.
    unfold gateway_recv, ws_recv_envelope. rewrite Hi. cbn [ws_recv]. rewrite Hd. unfold decode_server_envelope.
    cbn in Hpp. rewrite Hpp. cbn. by rewrite Htr.
Qed.
Lemma delivers_feeds (g : Connection) l : delivers g l -> exists g', feeds (GW := gateway_ops) g l g'.
Proof. destruct 1 as [c chunks answers l Hi Hb Hok Hp|c l Hw]; [by eapply quic_feeds|by eapply ws_feeds]. Qed.

(** C10. Whatever sequence of texts a client sends in a chat with a classical suite and
    authentication on, a client in step with it reads exactly those texts, in order, from one inbox call over a real wire: a QUIC stream that carries the
    envelopes cut into chunks anywhere, the last read having left any part of them in the buffer,
    or a WebSocket that carries one per binary frame among control frames. *)
Theorem conversation_over_wires {OM : Mls.OpenMls} {CM : ClientMls OM} {SC : MaxRatchet.SpqrCrypto} {OL : Mls.OpenMlsLaws OM}
  {SL : MaxRatchet.SpqrLaws} {R U : Type} lossy chat (a a2 b : ClientCore (GW := gateway_ops) (R := R) (U := U)) s l (g : Connection) fuel :
  in_step chat a b -> says chat a s a2 -> carries s l -> gateway b = Some g -> delivers g l -> (length l < fuel)%nat ->
  exists ms b', fetch_mls_inbox lossy fuel chat b = (Ok ms, b') /\ (text <$> ms) = lossy <$> s.*1 /\ in_step chat a2 b'.
Proof.
  intros Hst Hsays Hc Hg Hd Hl. destruct (delivers_feeds g l Hd) as [g' Hf].
  destruct (says_received lossy chat a s a2 b l Hsays Hc Hst) as (ms & b' & Hi & Ht & Hst').
  exists ms, (set_conn b' (Some (g' : Conn))). split; [|by split].
  unfold fetch_mls_inbox, sbind at 1, sget. rewrite Hg, <- (set_conn_id b g Hg).
  eapply drain_ok; [intros; by apply receive_conn_free|done..].
Qed.
End Chats.

(** ** Negotiation *)

(** The handshake ends in a connection exactly when the server names, up to case and blanks, a
    protocol the client knows and offered; otherwise the error carries both lists.  With the
    production list this includes the MessagePack protocol, whose frames nothing here decodes. *)
Theorem ws_negotiation offered timeout header incoming :
  match ws_connect offered timeout None (Some (inr header)) incoming with
  | Ok c => exists raw, header = Some raw /\ parse raw = Some (w_negotiated c) /\ w_next_seq c = 1 /\
              exists o, o ∈ offered /\ Pinning.to_ascii_lowercase o = as_str (w_negotiated c)
  | Err e => e = SubprotocolRejected offered header /\
              forall raw p o, header = Some raw -> parse raw = Some p -> o ∈ offered -> Pinning.to_ascii_lowercase o <> as_str p
  | Panic => False
  end.
Proof.
  assert (Hlow : forall p, Pinning.to_ascii_lowercase (as_str p) = as_str p) by (by intros []).
  unfold ws_connect, parse_negotiated_subprotocol. cbn [rbind].
  destruct (header ≫= parse) as [p|] eqn:Hp; cbn [rbind].
  - apply bind_Some in Hp as (raw & -> & Hp). destruct (existsb _ offered) eqn:He; cbn [rbind].
    + apply existsb_exists in He as (o & Ho & He). apply bool_decide_eq_true in He. rewrite Hlow in He.
      exists raw. repeat split; [done|]. exists o. split; [by apply list_elem_of_In|done].
    + split; [done|]. intros raw' p' o [= <-] Hp' Ho Heq. rewrite Hp in Hp'. injection Hp' as <-.
      assert (existsb (fun o => eq_ignore_ascii_case o (as_str p)) offered = true); [|congruence].
      apply existsb_exists. exists o. split; [by apply list_elem_of_In|]. apply bool_decide_eq_true. by rewrite Hlow.
  - split; [done|]. intros raw p o -> Hr. cbn in Hp. congruence.
Qed.
Lemma production_accepts_msgpack incoming :
  ws_connect production_subprotocols 10 None (Some (inr (Some "umx.v1"))) incoming = Ok (ws_connected incoming Transport.MessagePackV1).
Proof. reflexivity. Qed.

(** ** Concrete runs: base-128 varints and a small code for messages *)
Fixpoint toy_enc (f : nat) (n : Z) : list byte :=
  match f with
  | O => []
  | S f => if n <? 128 then [as_u8 n] else as_u8 (128 + n mod 128) :: toy_enc f (n / 128)
  end.
Fixpoint toy_dec (f : nat) (b : list byte) : option (Z * list byte) :=
  match f, b with
  | S f, x :: r => if u8 x <? 128 then Some (u8 x, r)
                   else match toy_dec f r with Some (m, r') => Some (u8 x - 128 + 128 * m, r') | None => None end
  | _, _ => None
  end.
Definition toy_answer (code : byte) (rest : list byte) : option ProtoServerPayload :=
  match u8 code with
  | 1 => Some PAuthOk
  | 2 => Some (PSendAck toy_id)
  | 3 => Some (PInbound (replicate 32 Byte.x01) rest 11 toy_id)
  | _ => None
  end.
#[local] Instance toy_prost : Prost := {|
  encode_varint := toy_enc 10;
  decode_varint b := match toy_dec 10 b with Some (n, r) => if n <=? U64_MAX then Some (n, r) else None | None => None end;
  encode_client e := to_be 8 (ce_seq e);
  decode_server b := match b with code :: rest => (fun p => {| se_seq := 1; se_payload := Some p |}) <$> toy_answer code rest | [] => None end
|}.

Lemma toy_step f x r : toy_dec (S f) (x :: r) =
  if u8 x <? 128 then Some (u8 x, r) else match toy_dec f r with Some (m, r') => Some (u8 x - 128 + 128 * m, r') | None => None end.
Proof. done. Qed.
Lemma toy_enc_step f n : 128 <= n -> toy_enc (S f) n = as_u8 (128 + n mod 128) :: toy_enc f (n / 128).
Proof. intros. cbn [toy_enc]. by rewrite (proj2 (Z.ltb_ge _ _)) by lia. Qed.
Lemma toy_low n : 0 <= n < 128 -> u8 (as_u8 n) = n.
Proof. intros. rewrite u8_as_u8. apply Z.mod_small. lia. Qed.
Lemma toy_high n : u8 (as_u8 (128 + n mod 128)) = 128 + n mod 128.
Proof. pose proof (Z.mod_pos_bound n 128). rewrite u8_as_u8. apply Z.mod_small. lia. Qed.
Lemma toy_range f n : 128 <= n < 128 ^ Z.of_nat (S (S f)) -> 0 <= n / 128 < 128 ^ Z.of_nat (S f).
Proof.
  intros [Hlo Hhi]. rewrite Nat2Z.inj_succ, Z.pow_succ_r in Hhi by lia.
  split; [apply Z.div_pos; lia|apply Z.div_lt_upper_bound; lia].
Qed.
Lemma toy_inverse f : forall n rest, 0 <= n < 128 ^ Z.of_nat (S f) -> toy_dec (S f) (toy_enc (S f) n ++ rest) = Some (n, rest).
Proof.
  induction f as [|f IH]; intros n rest Hn; (destruct (Z.ltb_spec n 128) as [Hs|Hs];
    [cbn [toy_enc]; rewrite (proj2 (Z.ltb_lt _ _)) by lia; cbn [app]; rewrite toy_step, toy_low by lia; by rewrite (proj2 (Z.ltb_lt _ _)) by lia|]).
  { change (128 ^ Z.of_nat 1) with 128 in Hn. lia. }
  rewrite toy_enc_step by lia. cbn [app]. rewrite toy_step, toy_high, IH by (apply toy_range; lia).
  pose proof (Z.mod_pos_bound n 128). rewrite (proj2 (Z.ltb_ge _ _)) by lia. do 2 f_equal. pose proof (Z.div_mod n 128). lia.
Qed.
Lemma toy_short f : forall n p q, 0 <= n < 128 ^ Z.of_nat (S f) -> toy_enc (S f) n = p ++ q -> q <> [] -> toy_dec (S f) p = None.
Proof.
  induction f as [|f IH]; intros n p q Hn He Hq; (destruct p as [|x p]; [done|]); cbn [app] in He.
  - cbn in He. change (128 ^ Z.of_nat 1) with 128 in Hn. rewrite (proj2 (Z.ltb_lt _ _)) in He by lia. injection He as _ He.
    symmetry in He. apply app_eq_nil in He. tauto.
  - destruct (Z.ltb_spec n 128) as [Hs|Hs].
    + cbn [toy_enc] in He. rewrite (proj2 (Z.ltb_lt _ _)) in He by lia. injection He as _ He. symmetry in He. apply app_eq_nil in He. tauto.
    + rewrite toy_enc_step in He by lia. injection He as <- He. rewrite toy_step, toy_high.
      pose proof (Z.mod_pos_bound n 128). rewrite (proj2 (Z.ltb_ge _ _)) by lia.
      by rewrite (IH (n / 128) p q) by (done || (apply toy_range; lia)).
Qed.
Lemma toy_suffix f : forall b n rest, toy_dec f b = Some (n, rest) -> 0 <= n /\ exists p, b = p ++ rest /\ len p <= Z.of_nat f.
Proof.
  induction f as [|f IH]; intros b n rest Hd; [done|]. destruct b as [|x r]; [done|]. rewrite toy_step in Hd. pose proof (u8_range x).
  destruct (Z.ltb_spec (u8 x) 128).
  - injection Hd as <- <-. split; [lia|]. exists [x]. split; [done|]. unfold len. cbn [length]. lia.
  - destruct (toy_dec f r) as [[m r']|] eqn:Hr; [|done]. injection Hd as <- <-. apply IH in Hr as [Hm (p & -> & Hl)].
    split; [lia|]. exists (x :: p). split; [done|]. unfold len in *. cbn [length]. lia.
Qed.
Lemma toy_app f rest : forall b, Z.of_nat f <= len b ->
  toy_dec f (b ++ rest) = match toy_dec f b with Some (n, r) => Some (n, r ++ rest) | None => None end.
Proof.
  induction f as [|f IH]; intros b Hl; [done|]. destruct b as [|x r]; [unfold len in Hl; cbn [length] in Hl; lia|]. cbn [app].
  rewrite !toy_step. destruct (u8 x <? 128); [done|]. rewrite IH by (unfold len in *; cbn [length] in Hl; lia).
  by destruct (toy_dec f r) as [[m r']|].
Qed.
Lemma toy_u64 n : 0 <= n <= U64_MAX -> 0 <= n < 128 ^ Z.of_nat 10.
Proof. change (128 ^ Z.of_nat 10) with 1180591620717411303424. unfold U64_MAX. lia. Qed.
#[local] Instance toy_prost_laws : ProstLaws.
Proof.
  split; cbn [encode_varint decode_varint toy_prost].
  - intros n rest Hn. rewrite toy_inverse by (by apply toy_u64). by rewrite (proj2 (Z.leb_le _ _)) by lia.
  - intros n p q Hn He Hq. by rewrite (toy_short 9 n p q (toy_u64 n Hn) He Hq).
  - intros b n rest Hd. destruct (toy_dec 10 b) as [[m r]|] eqn:Hm; [|done]. destruct (Z.leb_spec m U64_MAX); [|done].
    injection Hd as <- <-. apply toy_suffix in Hm as [? Hp]. by split.
  - intros b rest Hd Hl. rewrite toy_app by done. destruct (toy_dec 10 b) as [[m r]|]; [|done]. by destruct (m <=? U64_MAX).
Qed.

Definition toy_quic (buf : list byte) (incoming : list QuicRead) : QuicConnection :=
  {| q_buf := buf; q_incoming := incoming; q_sent := []; q_outcomes := []; q_next_seq := 1 |}.
Definition toy_auth : Answer := {| bytes_of := [Byte.x01]; envelope_of := {| se_seq := 1; se_payload := Some PAuthOk |} |}.

(** Two answers and the beginning of a third, in chunks that respect no border. *)
Lemma quic_stream_reassembled_witness :
  exists c', receives 2 (toy_quic [Byte.x01] (map Chunk [[Byte.x01; Byte.x01]; []; [Byte.x01; Byte.x05]])) =
    ([Some (result_of toy_auth); Some (result_of toy_auth)], c') /\ q_next_seq c' = 1.
Proof.
  destruct (quic_stream_reassembled [toy_auth; toy_auth] [Byte.x05] [[Byte.x01; Byte.x01]; []; [Byte.x01; Byte.x05]] []
    (toy_quic [Byte.x01] (map Chunk [[Byte.x01; Byte.x01]; []; [Byte.x01; Byte.x05]]))) as (c' & Hr & _ & Hs & _).
  - repeat constructor; by vm_compute.
  - reflexivity.
  - reflexivity.
  - by exists c'.
Defined.
Lemma quic_stuck_witness :
  receives 3 (toy_quic [Byte.x01; Byte.x09; Byte.x01; Byte.x01] []) =
    (replicate 3 (Some (Err (QCodec "decode ServerEnvelope: "))), toy_quic [Byte.x01; Byte.x09; Byte.x01; Byte.x01] []).
Proof.
  apply (proj1 (quic_stuck (toy_quic [Byte.x01; Byte.x09; Byte.x01; Byte.x01] []) 3) [Byte.x09] [Byte.x01; Byte.x01]); by vm_compute.
Defined.

(** A text sent over a WebSocket and read from a QUIC stream. *)
#[local] Existing Instances Mls.toy_mls MaxRatchet.toy_spqr MaxRatchet.toy_spqr_laws.
Definition WireCore : Type := ClientCore (OM := Mls.toy_mls) (GW := gateway_ops) (R := Z) (U := unit).
Definition wire_core (key : byte) (g : Connection) : WireCore := {|
  groups := {[ toy_chat := toy_classical ]}; ratchet_states := {[ toy_chat := MaxRatchet.state_new ]};
  cloud_msg_seq_counters := ∅; peer_x25519_directory := ∅; cloud_history := ∅; welcome_inbox := ∅;
  gateway := Some (g : @Conn gateway_ops); unwrap_transport := tt; rng := 4; providers := MaxRatchet.toy_ps;
  mls_keystore := {| ks_mls := MaxRatchet.toy_ks; ks_sealed := SealedSender.toy_keystore key |};
  wrapping_params := toy_params; default_ciphersuite := 3 |}.
Definition wire_sender : WireCore := wire_core Byte.x01 (Transport.WebSocket (ws_connected [WsBinary [Byte.x02]] Transport.ProtobufV1)).
Definition wire_message : Answer :=
  {| bytes_of := Byte.x03 :: toy_sent_env;
     envelope_of := {| se_seq := 1; se_payload := Some (PInbound (replicate 32 Byte.x01) toy_sent_env 11 toy_id) |} |}.
Definition wire_stream : list (list byte) := let w := wire [toy_auth; wire_message] in [take 1 w; take 7 (drop 1 w); drop 8 w].
Definition wire_receiver : WireCore := wire_core Byte.x02 (Transport.Quic (toy_quic [] (map Chunk wire_stream))).
Definition outcome {S E A} (r : res E A * S) : option A := match r.1 with Ok a => Some a | _ => None end.
Lemma outcome_eq {S E A} (r : res E A * S) a : outcome r = Some a -> r = (Ok a, r.2).
Proof. destruct r as [[]]; cbn; by intros [= ->]. Qed.
Lemma wire_sent_ok : outcome (send_mls_text toy_chat MaxRatchet.toy_msg 9 wire_sender) = Some (take 16 toy_id).
Proof. vm_cast_no_check (eq_refl (Some (take 16 toy_id))). Qed.
Lemma wire_says : says toy_chat wire_sender [(MaxRatchet.toy_msg, toy_sent_env)] (send_mls_text toy_chat MaxRatchet.toy_msg 9 wire_sender).2.
Proof.
  assert (Hg0 : get_group wire_sender toy_chat = Some toy_classical) by reflexivity.
  assert (Hs0 : get_ratchet_state wire_sender toy_chat = Some MaxRatchet.state_new) by reflexivity.
  eapply (says_cons toy_chat wire_sender MaxRatchet.toy_msg 9 (take 16 toy_id));
    [exact (outcome_eq _ _ wire_sent_ok)|exists toy_classical, MaxRatchet.state_new; split; [exact Hg0|split; [exact Hs0|]];
     exact (run_eq _ _ toy_sealed_ok)| |constructor].
  intros g s out Hg Hs. rewrite Hg0 in Hg. rewrite Hs0 in Hs. injection Hg as <-. injection Hs as <-. intros He.
  assert (out = toy_sent_out) as ->.
  { pose proof toy_encrypted_ok as Ho. unfold run_res in Ho. apply (f_equal fst) in He. cbn [fst] in He.
    change (MaxRatchet.mls_provider (providers wire_sender)) with (tt : @Mls.Provider Mls.toy_mls) in He.
    change (ks_mls (mls_keystore wire_sender)) with MaxRatchet.toy_ks in He. rewrite Ho in He. by apply Ok_inj in He. }
  split; vm_compute; congruence.
Qed.
Lemma conversation_over_wires_witness :
  exists ms b', fetch_mls_inbox id 3 toy_chat wire_receiver = (Ok ms, b') /\ (text <$> ms) = [MaxRatchet.toy_msg].
Proof.
  destruct (conversation_over_wires id toy_chat wire_sender (send_mls_text toy_chat MaxRatchet.toy_msg 9 wire_sender).2 wire_receiver
    [(MaxRatchet.toy_msg, toy_sent_env)] [AuthOk; toy_incoming] (Transport.Quic (toy_quic [] (map Chunk wire_stream))) 3) as (ms & b' & Hf & Ht & _).
  - exists toy_classical, MaxRatchet.state_new, toy_classical. repeat split; try reflexivity. by eexists.
  - exact wire_says.
  - constructor; [done|]. eapply carries_msg; [reflexivity|reflexivity|constructor].
  - reflexivity.
  - eapply delivers_quic with (answers := [toy_auth; wire_message]); [reflexivity|vm_compute; reflexivity| |].
    + repeat constructor; by vm_compute.
    + constructor; [by eexists|]. constructor; [by eexists|constructor].
  - cbn. lia.
  - exists ms, b'. split; [exact Hf|exact Ht].
Defined.
End Gateway.
