(* ===== verification/RowStore.v ===== *)
(** * The message store on disk
    ([crates/umbrella-client/src/keystore/row_cipher.rs], [sqlite_store.rs])

    Rows are encrypted one by one under a nonce derived from the table and the primary key, and
    written and read with SQL.  HKDF, ChaCha20-Poly1305, the order in which SQLite returns rows
    of equal time and the validation of UTF-8 are parameters; a failure of the pool or of SQLite
    is an argument of the operations. *)
From S2P Require Import Prelude Bytes ClientError.
From stdpp Require Import sorting.
Local Open Scope string_scope.
Local Open Scope list_scope.
Local Open Scope Z_scope.

Module RowStore.
Definition Error := ClientError Empty_set.

(** HKDF-SHA512 without salt (key, info, length); detached ChaCha20-Poly1305 (key, nonce,
    associated data, message) with its 16-byte tag. *)
Class RowCrypto := {
  hkdf_sha512 : list byte -> list byte -> Z -> list byte;
  chacha_encrypt : list byte -> list byte -> list byte -> list byte -> option (list byte * list byte);
  chacha_decrypt : list byte -> list byte -> list byte -> list byte -> list byte -> option (list byte)
}.
(** Documented behaviour: lengths, the inverse, and that the ciphertext is the message combined
    with a key stream of the key and the nonce (RFC 8439). *)
Definition xor_byte (a b : byte) : byte := as_u8 (Z.lxor (u8 a) (u8 b)).
Class RowCryptoLaws `{RowCrypto} := {
  key_stream : list byte -> list byte -> nat -> list byte;
  hkdf_len : forall k info n, 0 <= n -> len (hkdf_sha512 k info n) = n;
  encrypt_total : forall k n a m, len m < 2 ^ 38 - 64 -> exists c t, chacha_encrypt k n a m = Some (c, t);
  tag_len : forall k n a m c t, chacha_encrypt k n a m = Some (c, t) -> len t = 16;
  decrypt_encrypt : forall k n a m c t, chacha_encrypt k n a m = Some (c, t) -> chacha_decrypt k n a c t = Some m;
  stream_len : forall k n l, length (key_stream k n l) = l;
  encrypt_stream : forall k n a m c t, chacha_encrypt k n a m = Some (c, t) -> c = zip_with xor_byte m (key_stream k n (length m))
}.

Section Store.
Context `{RowCrypto}.

(** ** Rows ([RowCipher]) *)
Definition NONCE_INFO_PREFIX : list byte := bytes_of_string "umbrellax-sqlite-row-nonce-v1".
Record RowCipher := { master_key : list byte }.
Definition derive_nonce (c : RowCipher) (context row_id : list byte) : list byte :=
  hkdf_sha512 (master_key c) (NONCE_INFO_PREFIX ++ context ++ row_id) 12.
Definition encrypt_row (c : RowCipher) (context row_id plaintext : list byte) : res Error (list byte * list byte * list byte) :=
  let nonce := derive_nonce c context row_id in
  match chacha_encrypt (master_key c) nonce context plaintext with
  | Some (ct, tag) => Ok (ct, nonce, tag)
  | None => Err (Storage "aead encrypt")
  end.
Definition decrypt_row_zeroizing (c : RowCipher) (context row_id ciphertext nonce tag : list byte) : res Error (list byte) :=
  let expected_nonce := derive_nonce c context row_id in
  reject negb (bool_decide (expected_nonce = nonce)) with Storage "nonce mismatch (tamper or row-swap attack)" ;;
  ok_or (chacha_decrypt (master_key c) nonce context ciphertext tag) (Storage "aead decrypt").
Definition decrypt_row (c : RowCipher) (context row_id ciphertext nonce tag : list byte) : res Error (list byte) :=
  decrypt_row_zeroizing c context row_id ciphertext nonce tag.

(** ** The table [messages] *)
Record Row := {
  r_message_id : list byte; r_chat_id : list byte; r_timestamp_ms : Z; r_sender : list byte;
  enc_text : list byte; enc_nonce : list byte; enc_tag : list byte
}.
(** [timestamp_ms as i64] and back. *)
Definition as_i64 (z : Z) : Z := let w := z mod 2 ^ 64 in if w <? 2 ^ 63 then w else w - 2 ^ 64.
Definition as_u64 (z : Z) : Z := z mod 2 ^ 64.

Record Store := { rows : list Row; cipher : RowCipher }.
Definition store_open (master_key : list byte) (existing : list Row) : Store := {| rows := existing; cipher := {| master_key := master_key |} |}.
(** [INSERT OR REPLACE] with [message_id] as primary key. *)
Definition insert_or_replace (r : Row) (t : list Row) : list Row := filter (fun x => r_message_id x <> r_message_id r) t ++ [r].

Definition TEXT_CONTEXT : list byte := bytes_of_string "messages.text".
Record StoredMessage := { message_id : list byte; timestamp_ms : Z; sender : list byte; text : list byte }.
Definition put_message (fault : option string) (mid chat : list byte) (ts : Z) (from txt : list byte) : st Store Error unit := fun s =>
  match encrypt_row (cipher s) TEXT_CONTEXT mid txt with
  | Ok (ct, nonce, tag) =>
      match fault with
      | Some what => (Err (Storage what), s)
      | None => (Ok tt, {| rows := insert_or_replace {| r_message_id := mid; r_chat_id := chat; r_timestamp_ms := as_i64 ts; r_sender := from;
                                                        enc_text := ct; enc_nonce := nonce; enc_tag := tag |} (rows s); cipher := cipher s |})
      end
  | Err e => (Err e, s)
  | Panic => (Panic, s)
  end.

(** [ORDER BY timestamp_ms DESC]: some descending rearrangement of the selected rows. *)
Context (order_by : list Row -> list Row) (utf8_valid : list byte -> bool).
Definition descending (l : list Z) : Prop := StronglySorted (fun a b => b <= a) l.
Definition order_law : Prop := forall l, order_by l ≡ₚ l /\ descending (r_timestamp_ms <$> order_by l).

Definition fixed_array (n : Z) (src : list byte) (name : string) : res Error (list byte) :=
  reject negb (len src =? n) with Storage ("unexpected length: " +:+ name) ;; Ok src.
Definition read_row (c : RowCipher) (r : Row) : res Error StoredMessage :=
  let? mid := fixed_array 16 (r_message_id r) "message_id" in
  let? nonce := fixed_array 12 (enc_nonce r) "enc_nonce" in
  let? tag := fixed_array 16 (enc_tag r) "enc_tag" in
  let? snd := fixed_array 32 (r_sender r) "sender" in
  let? text_bytes := decrypt_row_zeroizing c TEXT_CONTEXT mid (enc_text r) nonce tag in
  reject negb (utf8_valid text_bytes) with Storage "utf-8 decode text" ;;
  Ok {| message_id := mid; timestamp_ms := as_u64 (r_timestamp_ms r); sender := snd; text := text_bytes |}.
Fixpoint read_rows (c : RowCipher) (l : list Row) : res Error (list StoredMessage) :=
  match l with
  | [] => Ok []
  | r :: l => let? m := read_row c r in let? ms := read_rows c l in Ok (m :: ms)
  end.
Definition fetch_messages (fault : option string) (chat : list byte) (limit : Z) (s : Store) : res Error (list StoredMessage) :=
  match fault with
  | Some what => Err (Storage what)
  | None => read_rows (cipher s) (take (Z.to_nat limit) (order_by (filter (fun r => r_chat_id r = chat) (rows s))))
  end.

(** ** What the store promises: a map from message ids to the last version written *)
Record Entry := { e_chat : list byte; e_ts : Z; e_sender : list byte; e_text : list byte }.
Definition stored (mid : list byte) (e : Entry) : StoredMessage :=
  {| message_id := mid; timestamp_ms := e_ts e; sender := e_sender e; text := e_text e |}.
Definition entry_ok (mid : list byte) (e : Entry) : Prop :=
  len mid = 16 /\ len (e_sender e) = 32 /\ is_u64 (e_ts e) /\ utf8_valid (e_text e) = true /\ len (e_text e) < 2 ^ 38 - 64.
(** The row that holds an entry. *)
Definition holds (c : RowCipher) (mid : list byte) (e : Entry) (r : Row) : Prop :=
  r_message_id r = mid /\ r_chat_id r = e_chat e /\ r_timestamp_ms r = as_i64 (e_ts e) /\ r_sender r = e_sender e /\
  encrypt_row c TEXT_CONTEXT mid (e_text e) = Ok (enc_text r, enc_nonce r, enc_tag r).
Definition refines (s : Store) (m : gmap (list byte) Entry) : Prop :=
  NoDup (r_message_id <$> rows s) /\ (forall mid e, m !! mid = Some e -> entry_ok mid e) /\
  (forall r, r ∈ rows s -> exists e, m !! r_message_id r = Some e /\ holds (cipher s) (r_message_id r) e r) /\
  (forall mid e, m !! mid = Some e -> exists r, r ∈ rows s /\ r_message_id r = mid).

Lemma as_u64_i64 z : is_u64 z -> as_u64 (as_i64 z) = z.
Proof.
  unfold is_u64, U64_MAX, as_u64, as_i64. intros Hz. rewrite (Z.mod_small z) by lia. cbn zeta. destruct (Z.ltb_spec z (2 ^ 63)).
  - rewrite Z.mod_small; lia.
  - replace (z - 2 ^ 64) with (z + -1 * 2 ^ 64) by lia. rewrite Z.mod_add, Z.mod_small; lia.
Qed.
Lemma insert_or_replace_NoDup r t : NoDup (r_message_id <$> t) -> NoDup (r_message_id <$> insert_or_replace r t).
Proof.
  intros Hn. unfold insert_or_replace. rewrite fmap_app. apply NoDup_app. split_and!.
  - eapply sublist_NoDup; [exact Hn|]. apply fmap_sublist, sublist_filter.
  - intros x Hx Hr. apply list_elem_of_fmap in Hx as (y & -> & Hy). apply list_elem_of_filter in Hy as [Hy _].
    cbn in Hr. apply list_elem_of_singleton in Hr. congruence.
  - apply NoDup_singleton.
Qed.
Lemma elem_insert_or_replace r t x : x ∈ insert_or_replace r t <-> x = r \/ (x ∈ t /\ r_message_id x <> r_message_id r).
Proof. unfold insert_or_replace. rewrite elem_of_app, list_elem_of_filter, list_elem_of_singleton. tauto. Qed.

Context {RL : RowCryptoLaws}.
Lemma encrypt_row_Ok c ctx mid m ct n t : encrypt_row c ctx mid m = Ok (ct, n, t) ->
  n = derive_nonce c ctx mid /\ chacha_encrypt (master_key c) n ctx m = Some (ct, t) /\ len n = 12 /\ len t = 16.
Proof.
  unfold encrypt_row. destruct (chacha_encrypt _ _ _ _) as [[ct' t']|] eqn:He; [|done]. intros [= <- <- <-].
  split_and!; try done; [apply hkdf_len; lia|by eapply tag_len].
Qed.
Lemma read_row_holds c mid e r : entry_ok mid e -> holds c mid e r -> read_row c r = Ok (stored mid e).
Proof.
  intros (Lm & Ls & Ht & Hu & _) (Hm & _ & Hts & Hs & He). apply encrypt_row_Ok in He as (Hn & He & Ln & Lt).
  unfold read_row, fixed_array, rguard. rewrite Hm, Hs, Hts, Lm, Ls, Ln, Lt. cbn [Z.eqb Pos.eqb negb rbind].
  unfold decrypt_row_zeroizing, rguard. rewrite <- Hn, bool_decide_true by done. cbn [negb].
  rewrite (decrypt_encrypt _ _ _ _ _ _ He). cbn [ok_or rbind]. rewrite Hu. cbn [negb]. by rewrite as_u64_i64.
Qed.
Lemma put_Ok c mid e s : cipher s = c -> entry_ok mid e ->
  exists r, holds c mid e r /\
    put_message None mid (e_chat e) (e_ts e) (e_sender e) (e_text e) s = (Ok tt, {| rows := insert_or_replace r (rows s); cipher := c |}).
Proof.
  intros <- (_ & _ & _ & _ & Hl). destruct (encrypt_total (master_key (cipher s)) (derive_nonce (cipher s) TEXT_CONTEXT mid) TEXT_CONTEXT (e_text e) Hl) as (ct & t & He).
  unfold put_message. assert (Hr : encrypt_row (cipher s) TEXT_CONTEXT mid (e_text e) = Ok (ct, derive_nonce (cipher s) TEXT_CONTEXT mid, t))
    by (unfold encrypt_row; by rewrite He).
  rewrite Hr. eexists. split; [|done]. by repeat split.
Qed.
Lemma put_refines mid e s m : refines s m -> entry_ok mid e ->
  refines (put_message None mid (e_chat e) (e_ts e) (e_sender e) (e_text e) s).2 (<[mid := e]> m).
Proof.
  intros (Hnd & Hok & Hrows & Hall) He. destruct (put_Ok _ mid e s eq_refl He) as (r & Hh & ->). pose proof Hh as (Hm & _). split_and!; cbn.
  - by apply insert_or_replace_NoDup.
  - intros mid' e'. rewrite lookup_insert_Some. intros [[<- <-]|[_ ?]]; auto.
  - intros x. rewrite elem_insert_or_replace. intros [->|[Hx Hne]].
    + exists e. rewrite Hm, lookup_insert_eq. done.
    + rewrite lookup_insert_ne by congruence. by apply Hrows.
  - intros mid' e'. rewrite lookup_insert_Some. intros [[<- <-]|[Hne Hl]].
    + exists r. by rewrite elem_insert_or_replace; split; [left|].
    + destruct (Hall _ _ Hl) as (x & Hx & Hid). exists x. rewrite elem_insert_or_replace. split; [right|done]. split; [done|congruence].
Qed.

(** Writing a list of messages, and the map it stands for. *)
Definition put_all (l : list (list byte * Entry)) (s : Store) : Store :=
  foldl (fun s p => (put_message None p.1 (e_chat p.2) (e_ts p.2) (e_sender p.2) (e_text p.2) s).2) s l.
Definition versions (l : list (list byte * Entry)) : gmap (list byte) Entry := foldl (fun m p => <[p.1 := p.2]> m) ∅ l.
Lemma put_all_refines l : forall s m, refines s m -> Forall (fun p => entry_ok p.1 p.2) l ->
  refines (put_all l s) (foldl (fun m p => <[p.1 := p.2]> m) m l).
Proof.
  induction l as [|[mid e] l IH]; intros s m Hr Hl; [done|]. apply Forall_cons in Hl as [He Hl]. apply IH; [|done]. by apply put_refines.
Qed.
Lemma open_refines k : refines (store_open k []) ∅.
Proof. split_and!; cbn; [constructor|by intros ? ?|by intros ? ?%not_elem_of_nil|by intros ? ?]. Qed.

(** The entry of a row in the map. *)
Definition entry_of (m : gmap (list byte) Entry) (r : Row) : option (list byte * Entry) := pair (r_message_id r) <$> m !! r_message_id r.
Lemma read_rows_refines m c l : (forall mid e, m !! mid = Some e -> entry_ok mid e) ->
  Forall (fun r => exists e, m !! r_message_id r = Some e /\ holds c (r_message_id r) e r) l ->
  read_rows c l = Ok ((fun p => stored p.1 p.2) <$> omap (entry_of m) l) /\
  r_timestamp_ms <$> l = (fun p => as_i64 (e_ts p.2)) <$> omap (entry_of m) l /\ length (omap (entry_of m) l) = length l.
Proof.
  intros Hok. induction l as [|r l IH]; intros Hl; [done|]. apply Forall_cons in Hl as [(e & He & Hh) Hl]. destruct (IH Hl) as (IH1 & IH2 & IH3).
  assert (Ho : omap (entry_of m) (r :: l) = (r_message_id r, e) :: omap (entry_of m) l) by (cbn; unfold entry_of at 1; by rewrite He).
  rewrite Ho, !fmap_cons. cbn [read_rows length fst snd].
  rewrite (read_row_holds c (r_message_id r) e r) by (try apply Hok; done). cbn [rbind]. rewrite IH1. cbn [rbind].
  split_and!; [done|rewrite <- IH2; f_equal; apply Hh|by f_equal].
Qed.

Lemma entry_ids m l : (fst <$> omap (entry_of m) l) `sublist_of` (r_message_id <$> l).
Proof.
  induction l as [|r l IH]; [constructor|]. cbn [omap list_omap]. unfold entry_of at 1. rewrite fmap_cons.
  by destruct (m !! r_message_id r); constructor.
Qed.
Lemma omap_take {A B} (f : A -> option B) n l : (forall x, x ∈ l -> is_Some (f x)) -> omap f (take n l) = take n (omap f l).
Proof.
  revert n. induction l as [|x l IH]; intros n Hall; [by destruct n|]. destruct n as [|n]; [done|]. cbn [take omap list_omap].
  destruct (Hall x) as [y ->]; [left|]. cbn [take]. f_equal. apply IH. intros z Hz. apply Hall. by right.
Qed.

(** C20. The store refines the map: after any messages were written, reading a chat returns the last
    version of each of its messages, none of another chat, newest first by the signed value of
    the time, and exactly as many as the limit allows; a fault leaves the store unchanged. *)
Theorem store_refines_map k l chat limit :
  order_law -> Forall (fun p => entry_ok p.1 p.2) l ->
  (exists ms, ms ≡ₚ filter (fun p => e_chat p.2 = chat) (map_to_list (versions l)) /\ descending ((fun p => as_i64 (e_ts p.2)) <$> ms) /\
    fetch_messages None chat limit (put_all l (store_open k [])) = Ok ((fun p => stored p.1 p.2) <$> take (Z.to_nat limit) ms)) /\
  (forall what mid c ts from txt s r s', put_message (Some what) mid c ts from txt s = (r, s') -> s' = s /\ r <> Ok tt).
Proof.
  intros Ho Hl. split.
  - pose proof (put_all_refines l _ _ (open_refines k) Hl) as Hr. fold (versions l) in Hr. set (s := put_all l (store_open k [])) in *.
    destruct Hr as (Hnd & Hok & Hrows & Hall). set (sel := filter (fun r => r_chat_id r = chat) (rows s)). destruct (Ho sel) as [Hp Hd].
    assert (Hf : Forall (fun r => exists e, versions l !! r_message_id r = Some e /\ holds (cipher s) (r_message_id r) e r) (order_by sel)).
    { rewrite Hp. apply Forall_forall. intros r Hr. apply list_elem_of_filter in Hr as [_ Hr]. by apply Hrows. }
    destruct (read_rows_refines (versions l) (cipher s) (order_by sel) Hok Hf) as (_ & Hts & _).
    exists (omap (entry_of (versions l)) (order_by sel)). split_and!.
    + rewrite Hp. apply NoDup_Permutation.
      * apply (NoDup_fmap_1 fst). eapply sublist_NoDup; [|apply entry_ids]. eapply sublist_NoDup; [exact Hnd|]. apply fmap_sublist, sublist_filter.
      * apply NoDup_filter, NoDup_map_to_list.
      * intros [mid e]. rewrite list_elem_of_omap, list_elem_of_filter, elem_of_map_to_list. cbn [fst snd]. split.
        -- intros (r & Hr & He). unfold entry_of in He. destruct (versions l !! r_message_id r) as [e'|] eqn:Hv; [|done]. injection He as <- <-.
           apply list_elem_of_filter in Hr as [Hc Hr]. destruct (Hrows r Hr) as (e2 & He2 & Hh). assert (e2 = e') as -> by congruence.
           split; [|done]. destruct Hh as (_ & <- & _). done.
        -- intros [Hc Hv]. destruct (Hall _ _ Hv) as (r & Hr & Hid). exists r. unfold entry_of. rewrite Hid, Hv. split; [|done].
           apply list_elem_of_filter. split; [|done]. destruct (Hrows r Hr) as (e2 & He2 & Hh). rewrite Hid in He2. assert (e2 = e) as -> by congruence.
           destruct Hh as (_ & -> & _). done.
    + by rewrite <- Hts.
    + unfold fetch_messages. fold sel. rewrite <- omap_take by (intros r Hr; apply Forall_forall with (x := r) in Hf as (e & He & _); [|done]; unfold entry_of; by rewrite He).
      apply (read_rows_refines (versions l)); [done|]. by apply Forall_take.
  - intros what mid c ts from txt s r s' Hput. unfold put_message in Hput. repeat case_match; by simplify_eq.
Qed.

(** ** What the encryption of a row binds *)
Lemma xor_byte_cancel a b k : xor_byte (xor_byte a k) (xor_byte b k) = xor_byte a b.
Proof.
  unfold xor_byte. apply u8_inj. rewrite !u8_as_u8.
  assert (Hm : forall x y, Z.lxor (u8 x) (u8 y) mod 256 = Z.lxor (u8 x) (u8 y)) by (intros; apply Z.mod_small, lxor_u8_range).
  rewrite !Hm. rewrite Z.lxor_assoc, (Z.lxor_comm (u8 b) (u8 k)), <- (Z.lxor_assoc (u8 k)), Z.lxor_nilpotent, Z.lxor_0_l. apply Hm.
Qed.
Lemma zip_xor_cancel : forall (a b k : list byte), length a = length k -> length b = length k ->
  zip_with xor_byte (zip_with xor_byte a k) (zip_with xor_byte b k) = zip_with xor_byte a b.
Proof.
  induction a as [|x a IH]; intros [|y b] [|z k]; cbn; try done. intros Ha Hb. rewrite xor_byte_cancel. f_equal. apply IH; lia.
Qed.
Definition with_columns (r : Row) (mid chat : list byte) (ts : Z) (from : list byte) : Row :=
  {| r_message_id := mid; r_chat_id := chat; r_timestamp_ms := ts; r_sender := from; enc_text := enc_text r; enc_nonce := enc_nonce r; enc_tag := enc_tag r |}.

(** What the encryption of a row protects: a text moved under another message id is refused unless
    the derived nonces coincide; chat, time and sender are not covered, a row with other values
    there reads as such; and two versions of one message are encrypted under one nonce, so that
    their ciphertexts reveal the difference of the texts. *)
Theorem row_protection c mid e r mid' chat ts from e' r' :
  holds c mid e r -> entry_ok mid e -> len mid' = 16 -> len from = 32 -> holds c mid e' r' -> length (e_text e') = length (e_text e) ->
  (read_row c (with_columns r mid' chat ts from) = Err (Storage "nonce mismatch (tamper or row-swap attack)") \/
     derive_nonce c TEXT_CONTEXT mid' = derive_nonce c TEXT_CONTEXT mid) /\
  read_row c (with_columns r mid chat ts from) = Ok {| message_id := mid; timestamp_ms := as_u64 ts; sender := from; text := e_text e |} /\
  enc_nonce r' = enc_nonce r /\ zip_with xor_byte (enc_text r) (enc_text r') = zip_with xor_byte (e_text e) (e_text e').
Proof.
  intros (Hm & _ & _ & _ & He) (Lm & _ & _ & Hu & _) Lm' Lf (_ & _ & _ & _ & He') Hlen.
  apply encrypt_row_Ok in He as (Hn & He & Ln & Lt). apply encrypt_row_Ok in He' as (Hn' & He' & _).
  unfold read_row, fixed_array, rguard, with_columns. cbn [r_message_id enc_nonce enc_tag r_sender enc_text r_timestamp_ms].
  rewrite Lm, Lm', Lf, Ln, Lt. cbn [Z.eqb Pos.eqb negb rbind]. unfold decrypt_row_zeroizing, rguard. split_and!.
  - rewrite Hn. destruct (decide (derive_nonce c TEXT_CONTEXT mid' = derive_nonce c TEXT_CONTEXT mid)) as [|Hne]; [by right|left].
    by rewrite bool_decide_false.
  - rewrite <- Hn, bool_decide_true by done. cbn [negb]. rewrite (decrypt_encrypt _ _ _ _ _ _ He). cbn [ok_or rbind]. by rewrite Hu.
  - by rewrite Hn, Hn'.
  - rewrite (encrypt_stream _ _ _ _ _ _ He), (encrypt_stream _ _ _ _ _ _ He'), Hn, Hn', Hlen. apply zip_xor_cancel; by rewrite stream_len.
Qed.
End Store.

(** ** A concrete cipher and order for the witnesses: a constant key stream, merge sort *)
Definition toy_rows : RowCrypto := {|
  hkdf_sha512 k info n := take (Z.to_nat n) (drop (length NONCE_INFO_PREFIX + length TEXT_CONTEXT) info ++ replicate (Z.to_nat n) Byte.x00);
  chacha_encrypt k n a m := Some (zip_with xor_byte m (replicate (length m) Byte.x2a), replicate 16 Byte.x00);
  chacha_decrypt k n a c t := Some (zip_with xor_byte c (replicate (length c) Byte.x2a))
|}.
#[local] Existing Instance toy_rows.
Lemma xor_byte_twice a k : xor_byte (xor_byte a k) k = a.
Proof.
  unfold xor_byte. apply u8_inj. rewrite !u8_as_u8, (Z.mod_small (Z.lxor (u8 a) (u8 k))) by apply lxor_u8_range.
  rewrite Z.lxor_assoc, Z.lxor_nilpotent, Z.lxor_0_r. apply Z.mod_small, u8_range.
Qed.
#[local] Instance toy_rows_laws : RowCryptoLaws.
Proof.
  refine {| key_stream k n l := replicate l Byte.x2a |}; cbn.
  - intros. rewrite len_take, len_app, len_replicate. match goal with |- context [len ?l] => pose proof (len_nonneg l) end. lia.
  - eauto.
  - by intros k n a m c t [= <- <-].
  - intros k n a m c t [= <- <-]. f_equal. rewrite length_zip_with, length_replicate, Nat.min_id.
    induction m as [|x m IH]; [done|]. cbn. by rewrite xor_byte_twice, IH.
  - intros. apply length_replicate.
  - by intros k n a m c t [= <- <-].
Defined.
Definition newer (a b : Row) : Prop := r_timestamp_ms b <= r_timestamp_ms a.
#[local] Instance newer_dec : RelDecision newer := fun a b => decide (r_timestamp_ms b <= r_timestamp_ms a).
Lemma toy_order_law : order_law (merge_sort newer).
Proof.
  intros l. split; [apply merge_sort_Permutation|]. assert (Hs : StronglySorted newer (merge_sort newer l)).
  { apply StronglySorted_merge_sort; [|intros a b; unfold newer; lia]. intros a b c. unfold newer. lia. }
  unfold descending. induction Hs as [|x k _ IH Hf]; [constructor|]. rewrite fmap_cons. constructor; [done|]. by apply Forall_fmap.
Qed.
Definition toy_id : list byte := replicate 16 Byte.x01.
Definition toy_entry (t : list byte) : Entry := {| e_chat := []; e_ts := 5; e_sender := replicate 32 Byte.x02; e_text := t |}.
Lemma toy_entry_ok t : len t < 2 ^ 38 - 64 -> entry_ok (fun _ => true) toy_id (toy_entry t).
Proof. intros Hl. split_and!; try done; by vm_compute. Qed.
Lemma store_refines_map_witness :
  exists ms, ms ≡ₚ [(toy_id, toy_entry [Byte.x62])] /\
    fetch_messages (merge_sort newer) (fun _ => true) None [] 10 (put_all [(toy_id, toy_entry [Byte.x61]); (toy_id, toy_entry [Byte.x62])] (store_open [] [])) =
    Ok ((fun p => stored p.1 p.2) <$> take 10 ms).
Proof.
  destruct (store_refines_map (merge_sort newer) (fun _ => true) [] [(toy_id, toy_entry [Byte.x61]); (toy_id, toy_entry [Byte.x62])] [] 10 toy_order_law)
    as [(ms & Hp & _ & Hf) _].
  - repeat constructor; by apply toy_entry_ok.
  - exists ms. split; [|exact Hf]. rewrite Hp. reflexivity.
Defined.
Definition toy_row (t : list byte) : Row :=
  match rows (put_message None toy_id [] 5 (replicate 32 Byte.x02) t (store_open [] [])).2 with r :: _ => r | [] => with_columns {| r_message_id := []; r_chat_id := []; r_timestamp_ms := 0; r_sender := []; enc_text := []; enc_nonce := []; enc_tag := [] |} [] [] 0 [] end.
Lemma row_protection_witness :
  zip_with xor_byte (enc_text (toy_row [Byte.x61])) (enc_text (toy_row [Byte.x62])) = zip_with xor_byte [Byte.x61] [Byte.x62].
Proof.
  destruct (row_protection (fun _ => true) {| master_key := [] |} toy_id (toy_entry [Byte.x61]) (toy_row [Byte.x61]) (replicate 16 Byte.x09) [] 7
    (replicate 32 Byte.x03) (toy_entry [Byte.x62]) (toy_row [Byte.x62])) as (_ & _ & _ & H); try exact H; try reflexivity.
  - by repeat split.
  - by apply toy_entry_ok.
  - by repeat split.
Defined.
End RowStore.
