(* ===== verification/Account.v ===== *)
(** * The account of a client: hardware keys, enrolment, rotation and self-monitoring
    ([crates/umbrella-client/src/]: [keystore/hw_callback.rs], [keystore/hw_backed.rs],
    [identity.rs], [device_authorization.rs], [kt_monitor.rs], and the identity part of [core.rs]
    and [transport/stub.rs])

    The keys of an account live in a key store in memory or behind a callback into the secure
    hardware of the platform.  The client signs and publishes entries of the key-transparency log
    with them, moves to a new identity, and checks its own entry.  The callback is an interface
    ([HwKeystore]) with the contract its documentation states ([HwLaws]); the source's own
    implementation for tests is an instance of both.  Texts of errors are kept up to their first
    interpolated value, or to the error of the callback they report. *)
From S2P Require Import Prelude Bytes Crypto KtError BackupError KtWitness DeviceAuth KtCodec KtLogState KtEntry Pq Identity ClientError.
Local Open Scope string_scope.
Local Open Scope list_scope.
Local Open Scope Z_scope.

Module Account.
Module DA := DeviceAuth.
Module LS := KtLogState.
Module ID := Identity.

Definition Error := ClientError string.

(** ** The hardware callback ([hw_callback.rs]) *)
Record HwKeyHandle := { label : string }.
#[global] Instance HwKeyHandle_eq_dec : EqDecision HwKeyHandle.
Proof. solve_decision. Defined.
#[global] Instance HwKeyHandle_countable : Countable HwKeyHandle :=
  inj_countable' label (fun l => {| label := l |}) (fun '{| label := _ |} => eq_refl).

Inductive HwKeystoreError :=
| UserDenied | HardwareUnavailable | KeyNotFound (what : string) | SigningFailed (what : string) | WrapFailed (what : string) | HwNative (what : string).

(** [to_string] of an error, and its conversion into a [ClientError]. *)
Definition hw_error_text (e : HwKeystoreError) : string :=
  match e with
  | UserDenied => "user denied keystore access"
  | HardwareUnavailable => "hardware keystore unavailable"
  | KeyNotFound what => "hw key not found: " +:+ what
  | SigningFailed what => "hw signing failed: " +:+ what
  | WrapFailed what => "hw wrap failed: " +:+ what
  | HwNative what => "hw native error: " +:+ what
  end.
Definition from_hw_error (e : HwKeystoreError) : Error := Platform (hw_error_text e).

Record RotatedIdentityArtifact := {
  new_identity_handle : HwKeyHandle; new_identity_pubkey : list byte;
  old_identity_signature : list byte; new_identity_signature : list byte
}.

(** [PersistentKeyStoreCallback]: the methods work on the state [H] of the platform. *)
Class HwKeystore (H : Type) := {
  generate_identity : string -> st H HwKeystoreError HwKeyHandle;
  sign_identity : HwKeyHandle -> list byte -> st H HwKeystoreError (list byte);
  wrap_secret : HwKeyHandle -> list byte -> st H HwKeystoreError (list byte);
  unwrap_secret : HwKeyHandle -> list byte -> st H HwKeystoreError (list byte);
  delete_identity : HwKeyHandle -> st H HwKeystoreError unit;
  verifying_key : HwKeyHandle -> st H HwKeystoreError (list byte);
  rotate_identity : HwKeyHandle -> string -> list byte -> Z -> Z -> list byte -> st H HwKeystoreError RotatedIdentityArtifact
    (* old handle, new label, old public key, time, reason tag, recovery proof *)
}.

(** [verify_strict] of ed25519-dalek, and the AEAD of the mock: key, message. *)
Class HwCrypto := {
  verify_strict : list byte -> list byte -> list byte -> bool;
  chacha_seal : list byte -> list byte -> option (list byte);
  chacha_open : list byte -> list byte -> option (list byte)
}.

(** The default body of [rotate_identity] in the trait. *)
Definition default_rotate_identity {H} (hd : HwKeyHandle) (l : string) (old : list byte) (ts tag : Z) (proof : list byte)
  : st H HwKeystoreError RotatedIdentityArtifact :=
  slift (Err (HwNative "rotate_identity not implemented by this PersistentKeyStoreCallback impl (default impl reject; override required for F-CLIENT-FACADE-1 session 9d rotation orchestration)")).

Section Mock.
Context {R : Type} `{!Pq.Rng R, !Pq.PqBackend, !HwCrypto}.

(** The mutex around [keys] is never held across a panic, so it is never poisoned.  [os_rng] is the
    generator of the operating system. *)
Record MockHwKeystore := { keys : gmap HwKeyHandle (list byte); os_rng : R }.
Definition mock_len (m : MockHwKeystore) : Z := Z.of_nat (size (keys m)).
Definition mock_is_empty (m : MockHwKeystore) : bool := mock_len m =? 0.

Definition material (hd : HwKeyHandle) (m : MockHwKeystore) : res HwKeystoreError (list byte) :=
  ok_or (keys m !! hd) (KeyNotFound (label hd)).

Definition mock_generate_identity (l : string) : st MockHwKeystore HwKeystoreError HwKeyHandle := fun m =>
  let '(seed, rng) := Pq.fill_bytes 32 (os_rng m) in
  let handle := {| label := l |} in
  (Ok handle, {| keys := <[handle := seed]> (keys m); os_rng := rng |}).
Definition mock_sign_identity (hd : HwKeyHandle) (data : list byte) : st MockHwKeystore HwKeystoreError (list byte) :=
  let! m := sget in
  let! seed := slift (material hd m) in
  sret (Pq.ed_sign seed data).
Definition mock_wrap_secret (hd : HwKeyHandle) (plaintext : list byte) : st MockHwKeystore HwKeystoreError (list byte) :=
  let! m := sget in
  let! seed := slift (material hd m) in
  slift (ok_or (chacha_seal seed plaintext) (WrapFailed "aead encrypt: aead::Error")).
Definition mock_unwrap_secret (hd : HwKeyHandle) (ciphertext : list byte) : st MockHwKeystore HwKeystoreError (list byte) :=
  let! m := sget in
  let! seed := slift (material hd m) in
  slift (ok_or (chacha_open seed ciphertext) (WrapFailed "aead decrypt: aead::Error")).
Definition mock_delete_identity (hd : HwKeyHandle) : st MockHwKeystore HwKeystoreError unit :=
  let! m := sget in
  let! _ := slift (material hd m) in
  sput {| keys := delete hd (keys m); os_rng := os_rng m |}.
Definition mock_verifying_key (hd : HwKeyHandle) : st MockHwKeystore HwKeystoreError (list byte) :=
  let! m := sget in
  let! seed := slift (material hd m) in
  sret (Pq.ed_public seed).
(** The generator is used before the old key is looked up. *)
Definition mock_rotate_identity (old_hd : HwKeyHandle) (l : string) (old_pk : list byte) (ts tag : Z) (proof : list byte)
  : st MockHwKeystore HwKeystoreError RotatedIdentityArtifact :=
  let! reason := slift (ok_or (DA.reason_from_tag tag) (HwNative "unknown rotation_reason_tag")) in
  let! m := sget in
  let '(new_seed, rng) := Pq.fill_bytes 32 (os_rng m) in
  let new_pk := Pq.ed_public new_seed in
  let canonical := DA.canonical_signing_input_rotation DA.AUTHORIZATION_WIRE_VERSION old_pk new_pk ts reason proof in
  let! _ := sput {| keys := keys m; os_rng := rng |} in
  let! old_seed := slift (material old_hd m) in
  let old_sig := Pq.ed_sign old_seed canonical in
  let new_sig := Pq.ed_sign new_seed canonical in
  let handle := {| label := l |} in
  let! _ := sput {| keys := <[handle := new_seed]> (keys m); os_rng := rng |} in
  sret {| new_identity_handle := handle; new_identity_pubkey := new_pk;
          old_identity_signature := old_sig; new_identity_signature := new_sig |}.

#[export] Instance mock_hw : HwKeystore MockHwKeystore := {|
  generate_identity := mock_generate_identity; sign_identity := mock_sign_identity; wrap_secret := mock_wrap_secret;
  unwrap_secret := mock_unwrap_secret; delete_identity := mock_delete_identity; verifying_key := mock_verifying_key;
  rotate_identity := mock_rotate_identity
|}.
End Mock.
Arguments MockHwKeystore : clear implicits.

Section Hw.
Context {H : Type} `{!HwKeystore H, !Ed25519, !HwCrypto}.

Definition PROBE : list byte := bytes_of_string "umbrellax-tee-identity-probe-v1".
Definition bootstrap_hw_identity (l : string) : st H HwKeystoreError (HwKeyHandle * list byte) :=
  let! handle := generate_identity l in
  let! sig := sign_identity handle PROBE in
  fail_if negb (len sig =? 64) with SigningFailed "hw signature wrong length" ;;
  let! vk := verifying_key handle in
  fail_if negb (vk_valid vk) with SigningFailed "verifying_key invalid" ;;
  fail_if negb (verify_strict vk PROBE sig) with SigningFailed "probe sig verify" ;;
  sret (handle, vk).

(** ** The key store behind the callback ([hw_backed.rs]) *)

(** The callback itself is the state [H]. *)
Record HwBackedKeyStore := { hw_account : Z; hw_identity_handle : HwKeyHandle; identity_public_cached : list byte }.
Definition hw_backed_new (account : Z) (hd : HwKeyHandle) (vk : list byte) : res ID.IdentityError HwBackedKeyStore :=
  let? identity_public := ID.public_from_bytes vk in
  Ok {| hw_account := account; hw_identity_handle := hd; identity_public_cached := identity_public |}.

(** [unwrap_or_else(panic)] and [assert_eq] on the length. *)
Definition hw_sign_with_identity (k : HwBackedKeyStore) (message : list byte) : st H ID.IdentityError (list byte) := fun h =>
  match sign_identity (hw_identity_handle k) message h with
  | (Ok sig, h) => if len sig =? 64 then (Ok sig, h) else (Panic, h)
  | (_, h) => (Panic, h)
  end.
Definition hw_sign_with_device (k : HwBackedKeyStore) (index : Z) : res ID.IdentityError (list byte) := Err (ID.UnknownDevice index).
Definition hw_add_device (k : HwBackedKeyStore) : res ID.IdentityError ID.DeviceAttestation :=
  Err (ID.HwBackedUnsupported "add_device" "device-key generation + DeviceAttestation issuance via TEE requires expanding PersistentKeyStoreCallback with generate_device_handle/sign_device methods (F-IDENT-DEVICE-1 v1.2.x)").
Definition hw_revoke_device (k : HwBackedKeyStore) (index : Z) : res ID.IdentityError unit := Err (ID.UnknownDevice index).
(** [unimplemented!]. *)
Definition hw_identity_x25519_public (k : HwBackedKeyStore) : res ID.IdentityError (list byte) := Panic.
Definition hw_device_public (k : HwBackedKeyStore) (index : Z) : option (list byte) := None.
Definition hw_device_attestation (k : HwBackedKeyStore) (index : Z) : option ID.DeviceAttestation := None.
Definition hw_active_device_indices (k : HwBackedKeyStore) : list Z := [].
End Hw.

(** ** The log transport of the tests ([stub.rs]) *)
Record StubKtTransport := {
  published_entries : list (list byte);
  staged_entries : gmap (list byte * Z) KtEntry.KtEntry;
  staged_signed_roots : gmap Z KtWitness.SignedEpochRoot
}.
Definition kt_default : StubKtTransport := {| published_entries := []; staged_entries := ∅; staged_signed_roots := ∅ |}.
Definition push_staged_entry (account_id : list byte) (epoch : Z) (entry : KtEntry.KtEntry) (t : StubKtTransport) : StubKtTransport :=
  {| published_entries := published_entries t; staged_entries := <[(account_id, epoch) := entry]> (staged_entries t);
     staged_signed_roots := staged_signed_roots t |}.
Definition fetch_staged_entry (account_id : list byte) (epoch : Z) (t : StubKtTransport) : option KtEntry.KtEntry :=
  staged_entries t !! (account_id, epoch).
Definition push_staged_signed_root (epoch_key : Z) (signed : KtWitness.SignedEpochRoot) (t : StubKtTransport) : StubKtTransport :=
  {| published_entries := published_entries t; staged_entries := staged_entries t;
     staged_signed_roots := <[epoch_key := signed]> (staged_signed_roots t) |}.
Definition fetch_staged_signed_root (epoch_key : Z) (t : StubKtTransport) : option KtWitness.SignedEpochRoot :=
  staged_signed_roots t !! epoch_key.
Definition publish (entry_bytes : list byte) (t : StubKtTransport) : StubKtTransport :=
  {| published_entries := published_entries t ++ [entry_bytes]; staged_entries := staged_entries t;
     staged_signed_roots := staged_signed_roots t |}.

(** ** The identity part of the client ([core.rs]) *)

(** [dyn KeyStore]: one of the two implementations. *)
Inductive KeyStore := InMemory (k : ID.InMemoryKeyStore) | HwBacked (k : HwBackedKeyStore).
Definition ks_account (k : KeyStore) : Z := match k with InMemory k => ID.ks_account k | HwBacked k => hw_account k end.
Definition identity_public (k : KeyStore) : list byte :=
  match k with InMemory k => ID.ik_public (ID.ks_identity k) | HwBacked k => identity_public_cached k end.
Definition identity_x25519_public (k : KeyStore) : res ID.IdentityError (list byte) :=
  match k with InMemory k => Ok (ID.xk_public (ID.ks_x25519 k)) | HwBacked k => hw_identity_x25519_public k end.
(** The in-memory store locks its mutex; reading leaves the store as it was. *)
Definition device_public (index : Z) (k : KeyStore) : res ID.IdentityError (option (list byte)) :=
  match k with InMemory k => (ID.device_public index k).1 | HwBacked k => Ok (hw_device_public k index) end.

Record HwIdentityState := { handle : option HwKeyHandle; hw_verifying_key : option (list byte) }.

(** [hw_callback] tells whether the core holds a callback; its state is [H] below. *)
Record ClientCore := {
  identity : option ID.IdentityKey; hw_callback : bool; hw_identity_state : HwIdentityState;
  keystore : option KeyStore; mls_keystore : KeyStore;
  kt_transport : StubKtTransport; kt_witness_set : KtWitness.WitnessSet
}.
Definition with_keystores (ks : option KeyStore) (mls : KeyStore) (hw : HwIdentityState) (c : ClientCore) : ClientCore :=
  {| identity := identity c; hw_callback := hw_callback c; hw_identity_state := hw; keystore := ks; mls_keystore := mls;
     kt_transport := kt_transport c; kt_witness_set := kt_witness_set c |}.
Definition with_transport (t : StubKtTransport) (c : ClientCore) : ClientCore :=
  {| identity := identity c; hw_callback := hw_callback c; hw_identity_state := hw_identity_state c; keystore := keystore c;
     mls_keystore := mls_keystore c; kt_transport := t; kt_witness_set := kt_witness_set c |}.
Definition has_hw_identity (c : ClientCore) : bool := hw_callback c && bool_decide (is_Some (handle (hw_identity_state c))).
Definition hw_identity_handle_of (c : ClientCore) : option HwKeyHandle := handle (hw_identity_state c).
Definition swap_hw_identity (hd : HwKeyHandle) (vk : list byte) (c : ClientCore) : ClientCore :=
  with_keystores (keystore c) (mls_keystore c) {| handle := Some hd; hw_verifying_key := Some vk |} c.
Definition swap_keystore (k : option KeyStore) (c : ClientCore) : ClientCore := with_keystores k (mls_keystore c) (hw_identity_state c) c.
Definition swap_mls_keystore (k : KeyStore) (c : ClientCore) : ClientCore := with_keystores (keystore c) k (hw_identity_state c) c.
Definition set_kt_witness_set (ws : KtWitness.WitnessSet) (c : ClientCore) : ClientCore :=
  {| identity := identity c; hw_callback := hw_callback c; hw_identity_state := hw_identity_state c; keystore := keystore c;
     mls_keystore := mls_keystore c; kt_transport := kt_transport c; kt_witness_set := ws |}.
Definition identity_verifying_key (c : ClientCore) : res Error (list byte) :=
  match hw_verifying_key (hw_identity_state c) with
  | Some vk => Ok vk
  | None => match identity c with
            | Some id => Ok (ID.ik_public id)
            | None => Err (Internal "ClientCore invariant violated: neither identity nor hw_verifying_key is populated")
            end
  end.
Definition id_err {A} (m : res ID.IdentityError A) : res Error A := rmap_err IdentityFailed m.

Section Core.
Context {R H : Type} `{!Pq.PqBackend, !Ed25519, !Pq.Rng R, !ID.IdBackend R, !HwKeystore H, !HwCrypto}.

(** [InMemoryKeyStore::open] followed by [add_device(0, None)]; [now] is the clock. *)
Definition open_with_device (now : Z) (sd : ID.IdentitySeed) : res ID.IdentityError ID.InMemoryKeyStore :=
  let? k := ID.open_store (R := R) sd 0 in
  let '(r, k) := ID.add_device (R := R) now 0 None k in
  let? _ := r in
  Ok k.
Definition new_for_test (now : Z) (sd : ID.IdentitySeed) : res Error ClientCore :=
  let? id := id_err (ID.identity_derive_from_seed_bytes (R := R) (ID.seed sd) 0) in
  let? k := id_err (open_with_device now sd) in
  Ok {| identity := Some id; hw_callback := false; hw_identity_state := {| handle := None; hw_verifying_key := None |};
        keystore := None; mls_keystore := InMemory k; kt_transport := kt_default; kt_witness_set := KtWitness.ws_new |}.
(** [mls_seed] is the freshly generated seed of the key store for MLS. *)
Definition new_with_hw_callback (now : Z) (mls_seed : ID.IdentitySeed) (l : string) : st H Error ClientCore := fun h =>
  match bootstrap_hw_identity l h with
  | (Ok (hd, vk), h) =>
      (let? hw := id_err (hw_backed_new 0 hd vk) in
       let? k := id_err (open_with_device now mls_seed) in
       Ok {| identity := None; hw_callback := true; hw_identity_state := {| handle := Some hd; hw_verifying_key := Some vk |};
             keystore := Some (HwBacked hw); mls_keystore := InMemory k; kt_transport := kt_default;
             kt_witness_set := KtWitness.ws_new |}, h)
  | (Err e, h) => (Err (from_hw_error e), h)
  | (Panic, h) => (Panic, h)
  end.

(** ** Publishing entries ([device_authorization.rs], [identity.rs]) *)

(** The core and the platform; a call of the callback with the error it is mapped to. *)
Record World := { core : ClientCore; hw : H }.
Definition call_hw {A} (m : st H HwKeystoreError A) (what : string) : st World Error A := fun w =>
  let '(r, h) := m (hw w) in
  (rmap_err (fun e => Platform (what +:+ hw_error_text e)) r, {| core := core w; hw := h |}).
Definition on_core (f : ClientCore -> ClientCore) : st World Error unit := fun w => (Ok tt, {| core := f (core w); hw := hw w |}).
Definition publish_entry (wire : list byte) : st World Error unit := on_core (fun c => with_transport (publish wire (kt_transport c)) c).

Definition IDENTITY_SIGNATURE_LEN : Z := 64.
Record DeviceAuthorizationPublishOutcome := { da_published_entry_size : Z; da_timestamp : Z }.

Definition publish_device_authorization_approval (new_pk approver_pk : list byte) (since cutoff flags : Z) (sig : list byte)
  : st World Error DeviceAuthorizationPublishOutcome :=
  fail_if negb (Z.land flags DA.POLICY_FLAGS_RESERVED_MASK =? 0) with Kt (InvalidAuthorizationEntryWire "policy_flags_reserved_bits_set") ;;
  let record := {| DA.ap_version := DA.AUTHORIZATION_WIRE_VERSION; DA.new_device_pubkey := new_pk;
                   DA.approver_device_pubkey := approver_pk; DA.authorized_since_timestamp := since;
                   DA.history_cutoff_timestamp := cutoff; DA.policy_flags := flags; DA.approver_signature := sig |} in
  let! _ := slift (rmap_err (fun _ => Internal "device authorization approval local verify failed pre-publish")
                     (DA.approval_verify_self_consistent record)) in
  let wire := KtCodec.encode_kt_entry_device_authorization_approval record in
  let! _ := publish_entry wire in
  sret {| da_published_entry_size := len wire; da_timestamp := since |}.

Definition publish_device_authorization_revocation (revoked revoker : list byte) (ts : Z) (sig : list byte)
  : st World Error DeviceAuthorizationPublishOutcome :=
  let record := {| DA.rv_version := DA.AUTHORIZATION_WIRE_VERSION; DA.revoked_device_pubkey := revoked;
                   DA.revoker_device_pubkey := revoker; DA.revocation_timestamp := ts; DA.revoker_signature := sig |} in
  let! _ := slift (rmap_err (fun _ => Internal "device authorization revocation local verify failed pre-publish")
                     (DA.revocation_verify_self_consistent record)) in
  let wire := KtCodec.encode_kt_entry_device_authorization_revocation record in
  let! _ := publish_entry wire in
  sret {| da_published_entry_size := len wire; da_timestamp := ts |}.

Definition initiate_device_transfer (approver : HwKeyHandle) (new_pk : list byte) (since cutoff flags : Z)
  : st World Error DeviceAuthorizationPublishOutcome :=
  fail_if negb (Z.land flags DA.POLICY_FLAGS_RESERVED_MASK =? 0) with Kt (InvalidAuthorizationEntryWire "policy_flags_reserved_bits_set") ;;
  let! approver_pk := call_hw (verifying_key approver) "initiate_device_transfer: hw_callback.verifying_key(approver_handle) failed: " in
  fail_if bool_decide (new_pk = approver_pk) with Internal "initiate_device_transfer: self-approval not allowed" ;;
  let canonical := DA.canonical_signing_input_approval DA.AUTHORIZATION_WIRE_VERSION new_pk approver_pk since cutoff flags in
  let! sig := call_hw (sign_identity approver canonical)
                "initiate_device_transfer: hw_callback.sign_identity over canonical_signing_input_approval failed: " in
  fail_if negb (len sig =? IDENTITY_SIGNATURE_LEN) with Internal "initiate_device_transfer: hw_callback.sign_identity returned" ;;
  publish_device_authorization_approval new_pk approver_pk since cutoff flags sig.

Record RotationOutcome := { ro_old : list byte; ro_new : list byte; ro_timestamp : Z; ro_published_entry_size : Z }.
Definition rotate_identity_publish (new_pk : list byte) (reason : DA.RotationReason) (ts : Z) (proof old_sig new_sig : list byte)
  : st World Error RotationOutcome :=
  let! w := sget in
  let old_pk := identity_public (mls_keystore (core w)) in
  fail_if bool_decide (old_pk = new_pk) with Kt (InvalidAuthorizationEntryWire "old_and_new_identity_pubkeys_identical") ;;
  let record := {| DA.ir_version := DA.AUTHORIZATION_WIRE_VERSION; DA.old_identity_pubkey := old_pk; DA.new_identity_pubkey := new_pk;
                   DA.rotation_timestamp := ts; DA.rotation_reason := reason; DA.old_identity_signature := old_sig;
                   DA.new_identity_signature := new_sig; DA.code_recovery_public_half_proof := proof |} in
  let! _ := slift (rmap_err (fun _ => Internal "identity rotation record local verify failed pre-publish") (DA.rotation_verify record)) in
  let wire := KtCodec.encode_kt_entry_identity_rotation record in
  let! _ := publish_entry wire in
  sret {| ro_old := old_pk; ro_new := new_pk; ro_timestamp := ts; ro_published_entry_size := len wire |}.

Record RotationOutcomeFull := {
  rf_old : list byte; rf_new : list byte; rf_handle : HwKeyHandle; rf_timestamp : Z; rf_published_entry_size : Z
}.
Definition rotate_identity_full (old_hd : HwKeyHandle) (new_label : string) (reason : DA.RotationReason) (ts : Z) (proof : list byte)
  : st World Error RotationOutcomeFull :=
  let! w := sget in
  let mls_old_pk := identity_public (mls_keystore (core w)) in
  let! hw_old_pk := call_hw (verifying_key old_hd) "rotation pre-flight: hw_callback.verifying_key(old_handle) failed: " in
  fail_if negb (bool_decide (mls_old_pk = hw_old_pk)) with Internal "rotation pre-flight: old_identity_pubkey mismatch" ;;
  let! art := call_hw (rotate_identity old_hd new_label mls_old_pk ts (DA.reason_tag reason) proof) "hw_callback.rotate_identity failed: " in
  let! out := rotate_identity_publish (new_identity_pubkey art) reason ts proof (old_identity_signature art) (new_identity_signature art) in
  let! w := sget in
  let account := ks_account (mls_keystore (core w)) in
  let! new_hw := slift (rmap_err (fun _ => Internal "post-rotation HwBackedKeyStore construction failed")
                          (hw_backed_new account (new_identity_handle art) (new_identity_pubkey art))) in
  let! _ := on_core (swap_mls_keystore (HwBacked new_hw)) in
  let! _ := on_core (swap_keystore (Some (HwBacked new_hw))) in
  let! _ := on_core (swap_hw_identity (new_identity_handle art) (new_identity_pubkey art)) in
  sret {| rf_old := mls_old_pk; rf_new := new_identity_pubkey art; rf_handle := new_identity_handle art; rf_timestamp := ts;
          rf_published_entry_size := ro_published_entry_size out |}.
End Core.
Arguments World : clear implicits.

(** ** Self-monitoring ([kt_monitor.rs]) *)
Section Monitor.
Context (sha256 : list byte -> list byte) `{!Ed25519}.

Definition verify_own_kt_entry_for_epoch (epoch : Z) (c : ClientCore) : res Error unit :=
  let identity_ed25519 := identity_public (mls_keystore c) in
  let? identity_x25519 := id_err (identity_x25519_public (mls_keystore c)) in
  let account_id := KtEntry.derive_account_id sha256 identity_ed25519 in
  let? entry := ok_or (fetch_staged_entry account_id epoch (kt_transport c)) (Kt (SelfMonitoringMismatch "entry_absent_from_log")) in
  let? device := id_err (device_public 0 (mls_keystore c)) in
  let? device_pub := ok_or device (Internal "ClientCore bootstrap invariant violation: device_public(0) is None — KT self-monitoring requires at least the primary device registered in mls_keystore") in
  let expected := {| KtEntry.exp_ed25519 := identity_ed25519; KtEntry.exp_x25519 := identity_x25519; KtEntry.exp_devices := [(0, device_pub)] |} in
  rmap_err Kt (KtEntry.verify_own_entry sha256 entry expected).

Definition verify_kt_witness_signatures_for_epoch (epoch threshold : Z) (c : ClientCore) : res Error unit :=
  let? signed := ok_or (fetch_staged_signed_root epoch (kt_transport c)) (Kt (InsufficientValidSignatures 0 threshold)) in
  reject negb (KtWitness.epoch signed =? epoch) with Kt (SelfMonitoringMismatch "signed_epoch_mismatch") ;;
  rmap_err Kt (KtWitness.verify_signed_epoch signed (kt_witness_set c) threshold).

Definition run_kt_self_monitor_once (epoch threshold : Z) (c : ClientCore) : res Error unit :=
  let? _ := verify_own_kt_entry_for_epoch epoch c in
  verify_kt_witness_signatures_for_epoch epoch threshold c.

(** The fetcher is a network client. *)
Definition verify_kt_witness_signatures_for_epoch_via_fetcher (fetch_signed_root_frames : Z -> res Error (list (list byte)))
  (epoch threshold : Z) (c : ClientCore) : res Error unit :=
  let? frames := fetch_signed_root_frames epoch in
  reject negb (len frames =? 1) with Kt (SelfMonitoringMismatch "expected_single_signed_root_frame") ;;
  let? frame := match frames with frame :: _ => Ok frame | [] => Panic end in
  let? signed := rmap_err Kt (KtCodec.decode_signed_epoch_root frame) in
  reject negb (KtWitness.epoch signed =? epoch) with Kt (SelfMonitoringMismatch "signed_epoch_mismatch") ;;
  rmap_err Kt (KtWitness.verify_signed_epoch signed (kt_witness_set c) threshold).
End Monitor.

(** ** Publishing: proofs *)

(** The entry a log record stands for, and that its signatures verify. *)
Definition entry_signed `{!Ed25519} (e : KtCodec.KtAuthorizationEntry) : Prop :=
  match e with
  | KtCodec.Approval a => DA.approval_verify_self_consistent a = Ok tt
  | KtCodec.Revocation r => DA.revocation_verify_self_consistent r = Ok tt
  | KtCodec.IdentityRotation r => DA.rotation_verify r = Ok tt
  end.
Definition genuine `{!Ed25519} (wire : list byte) : Prop :=
  exists e, KtCodec.decode_kt_authorization_entry wire = Ok e /\ entry_signed e.

Lemma genuine_entry `{!Ed25519} e : KtCodec.wf_entry e -> entry_signed e -> genuine (KtCodec.encode_entry e).
Proof. intros Hw Hs. exists e. split; [|done]. by apply (proj1 (KtCodec.authorization_entry_laws e [])). Qed.

(** The Rust types of what the callback returns. *)
Class HwTyped (H : Type) `{!HwKeystore H} : Prop := {
  verifying_key_len hd h pk h' : verifying_key hd h = (Ok pk, h') -> len pk = 32;
  artifact_len hd l old ts tag proof h art h' : rotate_identity hd l old ts tag proof h = (Ok art, h') ->
    len (new_identity_pubkey art) = 32 /\ len (old_identity_signature art) = 64 /\ len (new_identity_signature art) = 64
}.

Section Publishing.
Context {H : Type} `{!HwKeystore H, !Ed25519, !HwTyped H}.

Inductive Op :=
| OApprove (new_pk approver_pk : list byte) (since cutoff flags : Z) (sig : list byte)
| ORevoke (revoked revoker : list byte) (ts : Z) (sig : list byte)
| OTransfer (approver : HwKeyHandle) (new_pk : list byte) (since cutoff flags : Z)
| ORotatePublish (new_pk : list byte) (reason : DA.RotationReason) (ts : Z) (proof old_sig new_sig : list byte)
| ORotate (old_hd : HwKeyHandle) (new_label : string) (reason : DA.RotationReason) (ts : Z) (proof : list byte).
(** The widths of the arguments. *)
Definition op_ok (o : Op) : Prop :=
  match o with
  | OApprove n a since cutoff flags sig => len n = 32 /\ len a = 32 /\ is_u64 since /\ is_u64 cutoff /\ is_u8 flags /\ len sig = 64
  | ORevoke d r ts sig => len d = 32 /\ len r = 32 /\ is_u64 ts /\ len sig = 64
  | OTransfer _ n since cutoff flags => len n = 32 /\ is_u64 since /\ is_u64 cutoff /\ is_u8 flags
  | ORotatePublish n _ ts proof s1 s2 => len n = 32 /\ is_u64 ts /\ len proof = 32 /\ len s1 = 64 /\ len s2 = 64
  | ORotate _ _ _ ts proof => is_u64 ts /\ len proof = 32
  end.
Definition forget {A} (m : st (World H) Error A) : st (World H) Error unit := let! _ := m in sret tt.
Definition exec (o : Op) : st (World H) Error unit :=
  match o with
  | OApprove n a since cutoff flags sig => forget (publish_device_authorization_approval n a since cutoff flags sig)
  | ORevoke d r ts sig => forget (publish_device_authorization_revocation d r ts sig)
  | OTransfer hd n since cutoff flags => forget (initiate_device_transfer hd n since cutoff flags)
  | ORotatePublish n reason ts proof s1 s2 => forget (rotate_identity_publish n reason ts proof s1 s2)
  | ORotate hd l reason ts proof => forget (rotate_identity_full hd l reason ts proof)
  end.

Definition published (w : World H) : list (list byte) := published_entries (kt_transport (core w)).
Definition typed (w : World H) : Prop := len (identity_public (mls_keystore (core w))) = 32.

(** What every operation does: on success one genuine entry is appended, otherwise the core stays. *)
Definition outcome {A} (m : st (World H) Error A) : Prop := forall w r w', typed w -> m w = (r, w') ->
  typed w' /\
  match r with
  | Ok _ => exists wire, published w' = published w ++ [wire] /\ genuine wire
  | _ => core w' = core w
  end.

Lemma outcome_forget {A} (m : st (World H) Error A) : outcome m -> outcome (forget m).
Proof.
  intros Hm w r w' Ht. unfold forget, sbind, sret. destruct (m w) as [r1 w1] eqn:He. destruct (Hm _ _ _ Ht He) as [? ?].
  destruct r1; intros [= <- <-]; done.
Qed.

Lemma approval_outcome n a since cutoff flags sig :
  op_ok (OApprove n a since cutoff flags sig) -> outcome (publish_device_authorization_approval (H := H) n a since cutoff flags sig).
Proof.
  intros (Hn & Ha & Hs & Hc & Hf & Hg) w r w' Ht. unfold publish_device_authorization_approval, sguard.
  destruct (Z.eqb_spec (Z.land flags DA.POLICY_FLAGS_RESERVED_MASK) 0) as [Hz|]; cbn [negb]; [|by intros [= <- <-]].
  unfold sbind, slift. set (rec := {| DA.ap_version := _ |}).
  destruct (DA.approval_verify_self_consistent rec) as [[]|e|] eqn:Hv; cbn [rmap_err]; intros [= <- <-]; try done.
  split; [done|]. eexists. split; [reflexivity|]. by apply (genuine_entry (KtCodec.Approval rec)).
Qed.

Lemma revocation_outcome d v ts sig :
  op_ok (ORevoke d v ts sig) -> outcome (publish_device_authorization_revocation (H := H) d v ts sig).
Proof.
  intros (Hn & Ha & Hs & Hg) w r w' Ht. unfold publish_device_authorization_revocation, sbind, slift. set (rec := {| DA.rv_version := _ |}).
  destruct (DA.revocation_verify_self_consistent rec) as [[]|e|] eqn:Hv; cbn [rmap_err]; intros [= <- <-]; try done.
  split; [done|]. eexists. split; [reflexivity|]. by apply (genuine_entry (KtCodec.Revocation rec)).
Qed.

Lemma call_hw_core {A} (m : st H HwKeystoreError A) what w r w' : call_hw m what w = (r, w') ->
  core w' = core w /\ forall a, r = Ok a -> m (hw w) = (Ok a, hw w').
Proof. unfold call_hw. destruct (m (hw w)) as [[]]; intros [= <- <-]; naive_solver. Qed.
Lemma typed_core w w' : core w' = core w -> typed w -> typed w'.
Proof. unfold typed. by intros ->. Qed.

(** An outcome after a call that leaves the core. *)
Lemma outcome_after {A B} (m : st H HwKeystoreError A) what (k : A -> st (World H) Error B) :
  (forall a h h', m h = (Ok a, h') -> outcome (k a)) -> outcome (let! a := call_hw m what in k a).
Proof.
  intros Hk w r w' Ht. unfold sbind. destruct (call_hw m what w) as [r1 w1] eqn:He. apply call_hw_core in He as [Hc Hr].
  destruct r1 as [a|e|]; [|intros [= <- <-]; by split; [eapply typed_core|]..].
  intros Hx. destruct (Hk _ _ _ (Hr _ eq_refl) _ _ _ (typed_core _ _ Hc Ht) Hx) as [Ht' Ho]. split; [done|].
  unfold published in *. by rewrite Hc in Ho.
Qed.
Lemma outcome_guard {A} c e (m : st (World H) Error A) : (c = false -> outcome m) -> outcome (fail_if c with e ;; m).
Proof. intros Hm w r w' Ht. unfold sguard, slift. destruct c; [by intros [= <- <-]|by apply Hm]. Qed.

Lemma transfer_outcome hd n since cutoff flags :
  op_ok (OTransfer hd n since cutoff flags) -> outcome (initiate_device_transfer (H := H) hd n since cutoff flags).
Proof.
  intros (Hn & Hs & Hc & Hf). apply outcome_guard. intros _. apply outcome_after. intros pk h h' Hpk.
  apply verifying_key_len in Hpk. apply outcome_guard. intros _. apply outcome_after. intros sig _ _ _.
  apply outcome_guard. intros Hl. apply approval_outcome. zbool. done.
Qed.

(** The record a rotation publishes, and the core after it. *)
Definition rotation_record (old new : list byte) reason ts proof s1 s2 : DA.IdentityRotationRecord :=
  {| DA.ir_version := DA.AUTHORIZATION_WIRE_VERSION; DA.old_identity_pubkey := old; DA.new_identity_pubkey := new;
     DA.rotation_timestamp := ts; DA.rotation_reason := reason; DA.old_identity_signature := s1;
     DA.new_identity_signature := s2; DA.code_recovery_public_half_proof := proof |}.
Definition after_publish (wire : list byte) (w : World H) : World H :=
  {| core := with_transport (publish wire (kt_transport (core w))) (core w); hw := hw w |}.

Lemma rotation_publish_exact n reason ts proof s1 s2 (w : World H) :
  let old := identity_public (mls_keystore (core w)) in
  let rec := rotation_record old n reason ts proof s1 s2 in
  rotate_identity_publish n reason ts proof s1 s2 w =
  if bool_decide (old = n) then (Err (Kt (InvalidAuthorizationEntryWire "old_and_new_identity_pubkeys_identical")), w)
  else match DA.rotation_verify rec with
       | Ok _ => let wire := KtCodec.encode_entry (KtCodec.IdentityRotation rec) in
           (Ok {| ro_old := old; ro_new := n; ro_timestamp := ts; ro_published_entry_size := len wire |}, after_publish wire w)
       | Err _ => (Err (Internal "identity rotation record local verify failed pre-publish"), w)
       | Panic => (Panic, w)
       end.
Proof.
  cbn zeta. unfold rotate_identity_publish, sbind, sget, sguard, slift. destruct (bool_decide _); [done|].
  fold (rotation_record (identity_public (mls_keystore (core w))) n reason ts proof s1 s2).
  by destruct (DA.rotation_verify _).
Qed.

Lemma rotation_wf (w : World H) n reason ts proof s1 s2 : typed w -> op_ok (ORotatePublish n reason ts proof s1 s2) ->
  identity_public (mls_keystore (core w)) <> n ->
  KtCodec.wf_entry (KtCodec.IdentityRotation (rotation_record (identity_public (mls_keystore (core w))) n reason ts proof s1 s2)).
Proof. intros Ht (Hn & Hs & Hp & H1 & H2) Hne. by split. Qed.

Lemma rotation_publish_outcome n reason ts proof s1 s2 :
  op_ok (ORotatePublish n reason ts proof s1 s2) -> outcome (rotate_identity_publish (H := H) n reason ts proof s1 s2).
Proof.
  intros Ho w r w' Ht. rewrite rotation_publish_exact. case_bool_decide as Hne; [by intros [= <- <-]|].
  destruct (DA.rotation_verify _) as [[]|e|] eqn:Hv; intros [= <- <-]; [|done..].
  split; [done|]. eexists. split; [reflexivity|]. apply (genuine_entry (KtCodec.IdentityRotation _)); [by apply rotation_wf|done].
Qed.

Lemma rotation_verify_key rec : DA.rotation_verify rec = Ok tt -> vk_valid (DA.new_identity_pubkey rec) = true.
Proof.
  unfold DA.rotation_verify, DA.dalek_verify. intros Hv. res_inv Hv. zbool. by destruct (vk_valid (DA.new_identity_pubkey rec)).
Qed.

(** The core after a full rotation. *)
Definition rotated (art : RotatedIdentityArtifact) (wire : list byte) (c : ClientCore) : ClientCore :=
  let k := HwBacked {| hw_account := ks_account (mls_keystore c); hw_identity_handle := new_identity_handle art;
                       identity_public_cached := new_identity_pubkey art |} in
  with_keystores (Some k) k {| handle := Some (new_identity_handle art); hw_verifying_key := Some (new_identity_pubkey art) |}
    (with_transport (publish wire (kt_transport c)) c).

(** A full rotation succeeds exactly when the two views of the old key agree, the platform
    rotates and the record verifies; otherwise the core stays as it was. *)
Lemma rotate_full_exact hd l reason ts proof (w w' : World H) r :
  let old := identity_public (mls_keystore (core w)) in
  rotate_identity_full hd l reason ts proof w = (r, w') ->
  match r with
  | Ok out => exists h1 art, verifying_key hd (hw w) = (Ok old, h1) /\
      rotate_identity hd l old ts (DA.reason_tag reason) proof h1 = (Ok art, hw w') /\ old <> new_identity_pubkey art /\
      let rec := rotation_record old (new_identity_pubkey art) reason ts proof (old_identity_signature art) (new_identity_signature art) in
      DA.rotation_verify rec = Ok tt /\ core w' = rotated art (KtCodec.encode_entry (KtCodec.IdentityRotation rec)) (core w) /\
      rf_old out = old /\ rf_new out = new_identity_pubkey art /\ rf_handle out = new_identity_handle art
  | _ => core w' = core w
  end.
Proof.
  cbn zeta. unfold rotate_identity_full. unfold sbind at 1. cbn [sget]. unfold sbind at 1.
  destruct (call_hw (verifying_key hd) _ w) as [r1 w1] eqn:E1. apply call_hw_core in E1 as [C1 R1].
  destruct r1 as [pk|e|]; [|by intros [= <- <-]..]. specialize (R1 _ eq_refl). unfold sguard.
  destruct (bool_decide_reflect (identity_public (mls_keystore (core w)) = pk)) as [<-|]; [|by intros [= <- <-]]. cbn [negb].
  unfold sbind at 1. destruct (call_hw (rotate_identity _ _ _ _ _ _) _ w1) as [r2 w2] eqn:E2. apply call_hw_core in E2 as [C2 R2].
  destruct r2 as [art|e|]; [|intros [= <- <-]; congruence..]. specialize (R2 _ eq_refl).
  unfold sbind at 1. rewrite rotation_publish_exact, C2, C1. case_bool_decide as Hne; [intros [= <- <-]; congruence|].
  destruct (DA.rotation_verify _) as [[]|e|] eqn:Hv; [|intros [= <- <-]; congruence..].
  unfold sbind, sget, slift, hw_backed_new, ID.public_from_bytes. rewrite (rotation_verify_key _ Hv : vk_valid (new_identity_pubkey art) = true).
  cbn [rbind rmap_err]. intros [= <- <-]. exists (hw w1), art. split_and!; try done.
  unfold after_publish, rotated. cbn [core hw]. by rewrite C2, C1.
Qed.

Lemma rotate_outcome hd l reason ts proof :
  op_ok (ORotate hd l reason ts proof) -> outcome (rotate_identity_full (H := H) hd l reason ts proof).
Proof.
  intros [Hs Hp] w r w' Ht Hx. apply rotate_full_exact in Hx. destruct r as [out|e|]; [|by split; [eapply typed_core|]..].
  destruct Hx as (h1 & art & _ & Hr & Hne & Hv & Hc & _). apply artifact_len in Hr as (L1 & L2 & L3).
  unfold typed, published. rewrite Hc. split; [done|]. eexists. split; [reflexivity|].
  apply (genuine_entry (KtCodec.IdentityRotation _)); [by apply rotation_wf|done].
Qed.

Lemma exec_outcome o : op_ok o -> outcome (exec o).
Proof.
  intros Ho. destruct o; cbn [exec]; apply outcome_forget;
    [by apply approval_outcome|by apply revocation_outcome|by apply transfer_outcome|by apply rotation_publish_outcome|by apply rotate_outcome].
Qed.

(** A run of operations: the results and the last state. *)
Fixpoint run_ops (os : list Op) (w : World H) : list (res Error unit) * World H :=
  match os with
  | [] => ([], w)
  | o :: os => let '(r, w) := exec o w in let '(rs, w) := run_ops os w in (r :: rs, w)
  end.
Definition is_ok {A} (r : res Error A) : bool := match r with Ok _ => true | _ => false end.
Definition successes (rs : list (res Error unit)) : nat := length (filter (fun r => is_ok r = true) rs).

Lemma run_ops_genuine os w : typed w -> Forall op_ok os ->
  typed (run_ops os w).2 /\
  exists wires, published (run_ops os w).2 = published w ++ wires /\ Forall genuine wires /\ length wires = successes (run_ops os w).1.
Proof.
  intros Ht Hos. revert w Ht. induction Hos as [|o os Ho _ IH]; intros w Ht; cbn [run_ops].
  { split; [done|]. exists []. by rewrite app_nil_r. }
  destruct (exec o w) as [r w1] eqn:He. destruct (exec_outcome o Ho _ _ _ Ht He) as [Ht1 Hr].
  destruct (IH w1 Ht1) as (Ht2 & wires & Hp & Hg & Hl). destruct (run_ops os w1) as [rs w2]. cbn [fst snd] in *.
  split; [done|]. unfold successes in *. destruct r as [[]|e|]; rewrite ?filter_cons_True, ?filter_cons_False by done.
  - destruct Hr as (wire & Hw & Hgw). exists (wire :: wires). rewrite Hp, Hw, <- app_assoc. cbn. auto.
  - exists wires. unfold published in *. rewrite Hp, Hr. auto.
  - exists wires. unfold published in *. rewrite Hp, Hr. auto.
Qed.

(** C17. Whatever the platform does, every entry the client publishes along any run of enrolments,
    revocations and rotations is a well-formed log entry with valid signatures, one for each
    operation that succeeds; an operation that fails leaves the client as it was. *)
Theorem published_entries_genuine (os : list Op) (w : World H) :
  typed w -> Forall op_ok os -> published w = [] ->
  Forall genuine (published (run_ops os w).2) /\ length (published (run_ops os w).2) = successes (run_ops os w).1 /\
  (forall o r w', op_ok o -> exec o (run_ops os w).2 = (r, w') -> is_ok r = false -> core w' = core (run_ops os w).2).
Proof.
  intros Ht Hos He. destruct (run_ops_genuine os w Ht Hos) as (Ht2 & wires & Hp & Hg & Hl).
  rewrite Hp, He. cbn. split_and!; [done|done|]. intros o r w' Ho Hx Hr.
  destruct (exec_outcome o Ho _ _ _ Ht2 Hx) as [_ Hc]. by destruct r.
Qed.
End Publishing.

(** ** The contract of the callback *)

(** What the documentation of the callback asks of the platform; [hw_key] is the public key behind
    a handle that is present and may be used. *)
Class HwLaws (H : Type) `{!HwKeystore H, !Ed25519, !HwCrypto} := {
  hw_key : H -> HwKeyHandle -> option (list byte);
  hw_key_ok h hd pk : hw_key h hd = Some pk -> len pk = 32 /\ vk_valid pk = true;
  generate_ok l h hd h' : generate_identity l h = (Ok hd, h') -> is_Some (hw_key h' hd);
  verifying_key_ok h hd pk : hw_key h hd = Some pk ->
    exists h', verifying_key hd h = (Ok pk, h') /\ forall x, hw_key h' x = hw_key h x;
  sign_ok h hd pk m : hw_key h hd = Some pk ->
    exists sig h', sign_identity hd m h = (Ok sig, h') /\ (forall x, hw_key h' x = hw_key h x) /\
      len sig = 64 /\ ed_verify pk m sig = true /\ verify_strict pk m sig = true;
  rotate_ok h hd pk l ts reason proof : hw_key h hd = Some pk ->
    exists art h', rotate_identity hd l pk ts (DA.reason_tag reason) proof h = (Ok art, h') /\
      hw_key h' (new_identity_handle art) = Some (new_identity_pubkey art) /\
      len (old_identity_signature art) = 64 /\ len (new_identity_signature art) = 64 /\
      let canonical := DA.canonical_signing_input_rotation DA.AUTHORIZATION_WIRE_VERSION pk (new_identity_pubkey art) ts reason proof in
      ed_verify pk canonical (old_identity_signature art) = true /\
      ed_verify (new_identity_pubkey art) canonical (new_identity_signature art) = true
}.

(** The mock keeps the contract: keys of 32 random bytes, and a signature scheme that accepts its
    own signatures, strictly too. *)
Class MockLaws (R : Type) `{!Pq.Rng R, !Pq.PqBackend, !Ed25519, !HwCrypto} : Prop := {
  fill_len n r : 0 <= n -> len (Pq.fill_bytes n r).1 = n;
  public_ok k : len k = 32 -> len (Pq.ed_public k) = 32 /\ vk_valid (Pq.ed_public k) = true;
  signature_ok k m : len (Pq.ed_sign k m) = 64 /\ ed_verify (Pq.ed_public k) m (Pq.ed_sign k m) = true /\
    verify_strict (Pq.ed_public k) m (Pq.ed_sign k m) = true
}.

Section MockContract.
Context {R : Type} `{!Pq.Rng R, !Pq.PqBackend, !Ed25519, !HwCrypto, !MockLaws R}.

Definition mock_key (m : MockHwKeystore R) (hd : HwKeyHandle) : option (list byte) :=
  match keys m !! hd with Some seed => if len seed =? 32 then Some (Pq.ed_public seed) else None | None => None end.
Lemma mock_key_Some m hd pk : mock_key m hd = Some pk -> exists seed, keys m !! hd = Some seed /\ len seed = 32 /\ pk = Pq.ed_public seed.
Proof. unfold mock_key. intros Hk. repeat case_match; simplify_eq. zbool. eauto. Qed.
Lemma mock_generate_key l m hd m' : mock_generate_identity l m = (Ok hd, m') -> is_Some (mock_key m' hd).
Proof.
  unfold mock_generate_identity. pose proof (fill_len 32 (os_rng m) ltac:(lia)) as Hl.
  destruct (Pq.fill_bytes 32 (os_rng m)) as [seed rng]. intros [= <- <-]. unfold mock_key. cbn [keys fst] in *.
  rewrite lookup_insert_eq, Hl. cbn. eauto.
Qed.
Lemma mock_rotates m hd seed l ts reason proof : keys m !! hd = Some seed ->
  exists new_seed rng, Pq.fill_bytes 32 (os_rng m) = (new_seed, rng) /\ len new_seed = 32 /\
    let canonical := DA.canonical_signing_input_rotation DA.AUTHORIZATION_WIRE_VERSION (Pq.ed_public seed) (Pq.ed_public new_seed) ts reason proof in
    mock_rotate_identity hd l (Pq.ed_public seed) ts (DA.reason_tag reason) proof m =
      (Ok {| new_identity_handle := {| label := l |}; new_identity_pubkey := Pq.ed_public new_seed;
             old_identity_signature := Pq.ed_sign seed canonical; new_identity_signature := Pq.ed_sign new_seed canonical |},
       {| keys := <[{| label := l |} := new_seed]> (keys m); os_rng := rng |}).
Proof.
  intros Hk. pose proof (fill_len 32 (os_rng m) ltac:(lia)) as Hl. destruct (Pq.fill_bytes 32 (os_rng m)) as [new_seed rng] eqn:Hf.
  exists new_seed, rng. split; [done|]. split; [done|]. unfold mock_rotate_identity, sbind, sget, slift, material.
  by rewrite DA.reason_from_tag_tag, Hf, Hk.
Qed.

#[export] Instance mock_laws : HwLaws (MockHwKeystore R).
Proof.
  refine {| hw_key := mock_key |}.
  - intros m hd pk (seed & _ & Hl & ->)%mock_key_Some. by apply public_ok.
  - apply mock_generate_key.
  - intros m hd pk (seed & Hs & Hl & ->)%mock_key_Some. exists m. split; [|done].
    cbn. unfold mock_verifying_key, sbind, sget, slift, material. by rewrite Hs.
  - intros m hd pk msg (seed & Hs & Hl & ->)%mock_key_Some. exists (Pq.ed_sign seed msg), m.
    cbn. unfold mock_sign_identity, sbind, sget, slift, material. rewrite Hs. split; [done|]. split; [done|]. apply signature_ok.
  - intros m hd pk l ts reason proof (seed & Hs & Hl & ->)%mock_key_Some.
    destruct (mock_rotates m hd seed l ts reason proof Hs) as (new_seed & rng & _ & Hn & Hr). eexists _, _. split; [exact Hr|].
    cbn. unfold mock_key. cbn [keys]. rewrite lookup_insert_eq, Hn. cbn.
    split_and!; try apply signature_ok. done.
Defined.
End MockContract.

(** ** From the client to the log *)
Section EndToEnd.
Context {H : Type} `{!HwKeystore H, !Ed25519, !HwCrypto, !HwLaws H}.

(** When the mirror of the log applies an entry. *)
Lemma rotation_applies ws k r sg s :
  LS.verify_epoch_transition ws k s sg = Ok tt -> DA.old_identity_pubkey r <> DA.new_identity_pubkey r -> DA.rotation_verify r = Ok tt ->
  LS.current_identity_pubkey s = Some (DA.old_identity_pubkey r) ->
  (forall p, LS.recovery_proof s = Some p -> p = DA.code_recovery_public_half_proof r) ->
  exists s', LS.apply_identity_rotation ws k r sg s = (Ok tt, s').
Proof.
  intros He Hne Hv Hc Hp. unfold LS.apply_identity_rotation, sbind, sget, slift, sguard. rewrite He, bool_decide_false by done.
  rewrite Hv. cbn [rmap_err]. rewrite Hc, bool_decide_true by done. cbn [negb].
  destruct (LS.recovery_proof s) as [p|]; [rewrite (Hp p), bool_decide_true by done|]; eexists; reflexivity.
Qed.
Lemma approval_applies ws k a sg s st :
  LS.verify_epoch_transition ws k s sg = Ok tt -> DA.approval_verify_self_consistent a = Ok tt ->
  LS.require_active (DA.approver_device_pubkey a) s = Ok tt ->
  LS.device_entries s !! DA.new_device_pubkey a = Some st -> LS.flag st = LS.Pending ->
  exists s', LS.apply_authorization_approval ws k a sg s = (Ok tt, s').
Proof.
  intros He Hv Ha Hd Hf. unfold LS.apply_authorization_approval, sbind, sget, slift. rewrite He, Hv, Ha, Hd. cbn [rmap_err].
  rewrite bool_decide_true by done. eexists. reflexivity.
Qed.

Lemma call_hw_Ok {A} (m : st H HwKeystoreError A) what (w : World H) a h :
  m (hw w) = (Ok a, h) -> call_hw m what w = (Ok a, {| core := core w; hw := h |}).
Proof. unfold call_hw. by intros ->. Qed.

Lemma verify_intro pk m sg : vk_valid pk = true -> ed_verify pk m sg = true -> DA.dalek_verify pk m sg = Ok tt.
Proof. unfold DA.dalek_verify. by intros -> ->. Qed.

Lemma rotation_verify_intro r : let m := DA.rotation_signing_input r in
  vk_valid (DA.old_identity_pubkey r) = true -> ed_verify (DA.old_identity_pubkey r) m (DA.old_identity_signature r) = true ->
  vk_valid (DA.new_identity_pubkey r) = true -> ed_verify (DA.new_identity_pubkey r) m (DA.new_identity_signature r) = true ->
  DA.rotation_verify r = Ok tt.
Proof. cbn zeta. intros. unfold DA.rotation_verify. by rewrite !verify_intro. Qed.

(** Rotation succeeds when the key store and the platform agree on the old key and the new key differs. *)
Lemma rotate_full_succeeds hd l reason ts proof (w : World H) :
  let old := identity_public (mls_keystore (core w)) in
  hw_key (hw w) hd = Some old ->
  (forall r h art h', verifying_key hd (hw w) = (r, h) -> rotate_identity hd l old ts (DA.reason_tag reason) proof h = (Ok art, h') ->
     new_identity_pubkey art <> old) ->
  exists out w', rotate_identity_full hd l reason ts proof w = (Ok out, w') /\ hw_key (hw w') (rf_handle out) = Some (rf_new out).
Proof.
  intros old Hk Hfresh. destruct (verifying_key_ok _ _ _ Hk) as (h1 & Hv & Hs1).
  rewrite <- (Hs1 hd) in Hk. destruct (rotate_ok _ _ _ l ts reason proof Hk) as (art & h2 & Hr & Hn & L1 & L2 & Vo & Vn).
  pose proof (Hfresh _ _ _ _ Hv Hr) as Hne. destruct (hw_key_ok _ _ _ Hk) as [_ Ko], (hw_key_ok _ _ _ Hn) as [_ Kn].
  unfold rotate_identity_full. unfold sbind at 1. cbn [sget]. unfold sbind at 1. rewrite (call_hw_Ok _ _ _ _ _ Hv).
  unfold sguard. rewrite bool_decide_true by done. cbn [negb]. unfold sbind at 1. rewrite (call_hw_Ok _ _ _ art h2) by exact Hr.
  unfold sbind at 1. rewrite rotation_publish_exact. cbn [core]. fold old. rewrite bool_decide_false by done.
  assert (DA.rotation_verify (rotation_record old (new_identity_pubkey art) reason ts proof (old_identity_signature art) (new_identity_signature art)) = Ok tt) as ->.
  { by apply rotation_verify_intro. }
  unfold sbind, sget, slift, hw_backed_new, ID.public_from_bytes. rewrite Kn. eexists _, _. split; [reflexivity|]. exact Hn.
Qed.

(** Rotation is refused before anything is signed when the platform holds another key than the
    key store for MLS. *)
Lemma rotate_mismatch hd l reason ts proof (w : World H) vk :
  hw_key (hw w) hd = Some vk -> vk <> identity_public (mls_keystore (core w)) ->
  exists h, rotate_identity_full hd l reason ts proof w =
    (Err (Internal "rotation pre-flight: old_identity_pubkey mismatch"), {| core := core w; hw := h |}).
Proof.
  intros Hk Hne. destruct (verifying_key_ok _ _ _ Hk) as (h1 & Hv & _). exists h1.
  unfold rotate_identity_full. unfold sbind at 1. cbn [sget]. unfold sbind at 1. rewrite (call_hw_Ok _ _ _ _ _ Hv).
  unfold sguard. by rewrite bool_decide_false.
Qed.

(** From the hardware to the log, when both hold the same identity. *)
Lemma rotation_reaches_log hd l reason ts proof (w : World H) :
  let old := identity_public (mls_keystore (core w)) in
  hw_key (hw w) hd = Some old -> is_u64 ts -> len proof = 32 ->
  (forall r h art h', verifying_key hd (hw w) = (r, h) -> rotate_identity hd l old ts (DA.reason_tag reason) proof h = (Ok art, h') ->
     new_identity_pubkey art <> old) ->
  exists out w' wire r, rotate_identity_full hd l reason ts proof w = (Ok out, w') /\
    identity_verifying_key (core w') = Ok (rf_new out) /\ identity_public (mls_keystore (core w')) = rf_new out /\
    (identity_public <$> keystore (core w')) = Some (rf_new out) /\ rf_new out <> old /\
    published_entries (kt_transport (core w')) = published_entries (kt_transport (core w)) ++ [wire] /\
    KtCodec.decode_kt_authorization_entry wire = Ok (KtCodec.IdentityRotation r) /\
    DA.old_identity_pubkey r = old /\ DA.new_identity_pubkey r = rf_new out /\
    forall ws k sg s, LS.verify_epoch_transition ws k s sg = Ok tt -> LS.current_identity_pubkey s = Some old ->
      (forall p, LS.recovery_proof s = Some p -> p = proof) ->
      exists s', LS.apply_identity_rotation ws k r sg s = (Ok tt, s') /\ LS.current_identity_pubkey s' = Some (rf_new out) /\
        LS.device_entries s' = LS.cascade_revoke old <$> LS.device_entries s.
Proof.
  intros old Hk Hts Hp Hfresh. destruct (rotate_full_succeeds hd l reason ts proof w Hk Hfresh) as (out & w' & Hr & Hn).
  exists out, w'. pose proof (rotate_full_exact _ _ _ _ _ _ _ _ Hr) as (h1 & art & Hvk & Ha & Hne & Hv & Hc & Ho & Hnw & Hh). fold old in Hvk, Ha, Hne, Hv, Hc.
  assert (len (old_identity_signature art) = 64 /\ len (new_identity_signature art) = 64) as Ls.
  { destruct (verifying_key_ok _ _ _ Hk) as (h2 & Hvk2 & Hs2). rewrite Hvk in Hvk2. injection Hvk2 as <-.
    rewrite <- (Hs2 hd) in Hk. destruct (rotate_ok _ _ _ l ts reason proof Hk) as (art2 & h3 & Hr2 & _ & L1 & L2 & _).
    rewrite Ha in Hr2. by injection Hr2 as <-. }
  set (r := rotation_record _ _ _ _ _ _ _) in *. exists (KtCodec.encode_entry (KtCodec.IdentityRotation r)), r.
  destruct (hw_key_ok _ _ _ Hk) as [Lo _], (hw_key_ok _ _ _ Hn) as [Ln _]. rewrite Hnw in Ln |- *. rewrite Hc.
  split_and!; try done.
  - apply (proj1 (KtCodec.authorization_entry_laws _ [])). by split.
  - intros ws k sg s He Hcur Hpr. destruct (rotation_applies ws k r sg s) as [s' Hs]; [done..|].
    exists s'. apply LS.rotation_inv in Hs as Hi. naive_solver.
Qed.

(** Enrolment of a device from the hardware to the log: a transfer approved by a key of the
    hardware succeeds, the published entry is read back as the approval, and a mirror of the log
    where the approver is active and the device pending activates it with the given times. *)
Theorem enrolment_end_to_end hd new_pk since cutoff flags approver (w : World H) :
  hw_key (hw w) hd = Some approver -> len new_pk = 32 -> new_pk <> approver -> is_u64 since -> is_u64 cutoff ->
  is_u8 flags -> Z.land flags DA.POLICY_FLAGS_RESERVED_MASK = 0 ->
  exists out w' wire a, initiate_device_transfer hd new_pk since cutoff flags w = (Ok out, w') /\
    published_entries (kt_transport (core w')) = published_entries (kt_transport (core w)) ++ [wire] /\
    da_published_entry_size out = len wire /\ KtCodec.decode_kt_authorization_entry wire = Ok (KtCodec.Approval a) /\
    DA.approver_device_pubkey a = approver /\ DA.new_device_pubkey a = new_pk /\
    forall ws k sg s d, LS.verify_epoch_transition ws k s sg = Ok tt -> LS.require_active approver s = Ok tt ->
      LS.device_entries s !! new_pk = Some d -> LS.flag d = LS.Pending ->
      exists s', LS.apply_authorization_approval ws k a sg s = (Ok tt, s') /\
        LS.device_entries s' !! new_pk = Some {| LS.flag := LS.Active; LS.authorized_since := since; LS.history_cutoff := cutoff;
          LS.identity_pubkey_at_publish := LS.identity_pubkey_at_publish d |}.
Proof.
  intros Hk Hn Hne Hs Hc Hf Hz. destruct (verifying_key_ok _ _ _ Hk) as (h1 & Hv & Hs1), (hw_key_ok _ _ _ Hk) as [La Ka].
  set (m := DA.canonical_signing_input_approval DA.AUTHORIZATION_WIRE_VERSION new_pk approver since cutoff flags).
  rewrite <- (Hs1 hd) in Hk. destruct (sign_ok _ _ _ m Hk) as (sig & h2 & Hg & _ & Lg & Vg & _).
  set (a := {| DA.ap_version := DA.AUTHORIZATION_WIRE_VERSION; DA.new_device_pubkey := new_pk; DA.approver_device_pubkey := approver;
               DA.authorized_since_timestamp := since; DA.history_cutoff_timestamp := cutoff; DA.policy_flags := flags;
               DA.approver_signature := sig |}).
  assert (DA.approval_verify_self_consistent a = Ok tt) as Hva by by apply verify_intro.
  eexists _, _, (KtCodec.encode_entry (KtCodec.Approval a)), a. split.
  { unfold initiate_device_transfer, sguard. rewrite Hz. cbn [Z.eqb negb]. unfold sbind at 1. rewrite (call_hw_Ok _ _ _ _ _ Hv).
    rewrite bool_decide_false by done. unfold sbind at 1. rewrite (call_hw_Ok _ _ _ sig h2) by exact Hg. rewrite Lg. cbn [negb Z.eqb].
    unfold publish_device_authorization_approval, sguard. rewrite Hz. cbn [Z.eqb negb]. unfold sbind, slift. fold a.
    rewrite Hva. reflexivity. }
  split_and!; try done.
  - apply (proj1 (KtCodec.authorization_entry_laws _ [])). by split.
  - intros ws k sg s d He Ha Hd Hp. destruct (approval_applies ws k a sg s d) as [s' Hap]; [done..|]. exists s'. split; [done|].
    apply LS.approval_inv in Hap as (_ & _ & _ & d' & Hd' & _ & ->). cbn in Hd'. simplify_eq. cbn. apply lookup_insert_eq.
Qed.
End EndToEnd.

(** ** Self-monitoring: proofs *)

(** What the check of one epoch accepts for a store in memory: the staged entry names the account's
    keys and its first device alone, and the staged root of the epoch has enough witnesses. *)
Definition monitored `{!Ed25519} (sha256 : list byte -> list byte) (k : ID.InMemoryKeyStore) (epoch threshold : Z) (c : ClientCore) : Prop :=
  let pk := ID.ik_public (ID.ks_identity k) in
  exists e d, fetch_staged_entry (sha256 pk) epoch (kt_transport c) = Some e /\ ID.public <$> ID.devices k !! 0 = Some d /\
    KtEntry.identity_ed25519_pub e = pk /\ KtEntry.identity_x25519_pub e = ID.xk_public (ID.ks_x25519 k) /\
    KtEntry.account_id e = sha256 pk /\ (KtEntry.dev_key <$> KtEntry.devices e) = [(0, d)] /\
    exists signed, fetch_staged_signed_root epoch (kt_transport c) = Some signed /\ KtWitness.epoch signed = epoch /\
      KtWitness.verify_signed_epoch signed (kt_witness_set c) threshold = Ok tt.

Lemma memory_device_public k i : ID.poisoned k = false -> device_public i (InMemory k) = Ok (ID.public <$> ID.devices k !! i).
Proof. intros Hp. unfold device_public, ID.device_public, ID.locked. by rewrite Hp. Qed.

Lemma own_entry_exact sha256 k epoch c : mls_keystore c = InMemory k -> ID.poisoned k = false ->
  verify_own_kt_entry_for_epoch sha256 epoch c = Ok tt <->
  exists e d, fetch_staged_entry (sha256 (ID.ik_public (ID.ks_identity k))) epoch (kt_transport c) = Some e /\
    ID.public <$> ID.devices k !! 0 = Some d /\
    KtEntry.identity_ed25519_pub e = ID.ik_public (ID.ks_identity k) /\ KtEntry.identity_x25519_pub e = ID.xk_public (ID.ks_x25519 k) /\
    KtEntry.account_id e = sha256 (ID.ik_public (ID.ks_identity k)) /\ (KtEntry.dev_key <$> KtEntry.devices e) = [(0, d)].
Proof.
  intros Hm Hp. unfold verify_own_kt_entry_for_epoch. rewrite Hm. cbn [identity_public identity_x25519_public id_err rmap_err rbind].
  unfold KtEntry.derive_account_id. destruct (fetch_staged_entry _ _ _) as [e|]; [|naive_solver]. cbn [ok_or rbind].
  rewrite memory_device_public by done. cbn [id_err rmap_err rbind].
  destruct (ID.public <$> ID.devices k !! 0) as [d|]; [|naive_solver]. cbn [ok_or rbind].
  set (x := {| KtEntry.exp_ed25519 := _ |}). assert (NoDup (KtEntry.exp_devices x)) as Hn by apply NoDup_singleton.
  pose proof (KtEntry.verify_own_entry_Ok sha256 e x Hn) as Hv. cbn [KtEntry.exp_ed25519 KtEntry.exp_x25519 KtEntry.exp_devices x] in Hv.
  transitivity (KtEntry.verify_own_entry sha256 e x = Ok tt); [by destruct (KtEntry.verify_own_entry _ _ _) as [[]| |]|].
  rewrite Hv. clear. split.
  - intros (? & ? & ? & Hd). exists e, d. split_and!; [done..|]. symmetry in Hd. by apply Permutation_singleton_l in Hd.
  - intros (e' & d' & [= <-] & [= <-] & ? & ? & ? & Hd). by rewrite Hd.
Qed.

Lemma witness_exact `{!Ed25519} epoch threshold c :
  verify_kt_witness_signatures_for_epoch epoch threshold c = Ok tt <->
  exists signed, fetch_staged_signed_root epoch (kt_transport c) = Some signed /\ KtWitness.epoch signed = epoch /\
    KtWitness.verify_signed_epoch signed (kt_witness_set c) threshold = Ok tt.
Proof.
  unfold verify_kt_witness_signatures_for_epoch. destruct (fetch_staged_signed_root _ _) as [signed|]; [|naive_solver]. cbn [ok_or rbind].
  rewrite rguard_Ok, negb_false_iff, Z.eqb_eq. split.
  - intros [He Hv]. exists signed. split_and!; try done. by eapply LS.rmap_err_Ok.
  - intros (? & [= <-] & He & ->). done.
Qed.

Section Limits.
Context {R H : Type} (sha256 : list byte -> list byte).
Context `{!Pq.PqBackend, !Ed25519, !Pq.Rng R, !ID.IdBackend R, !HwKeystore H, !HwCrypto, !HwLaws H}.

(** Self-monitoring accepts exactly when the log shows the account's keys with device 0 alone and
    enough witnesses signed a root of the epoch; an account whose entry lists a second device is
    always reported, and the root takes part through its signatures only, no inclusion of the
    entry under it being checked. *)
Theorem self_monitor_exact k epoch threshold c :
  mls_keystore c = InMemory k -> ID.poisoned k = false ->
  (run_kt_self_monitor_once sha256 epoch threshold c = Ok tt <-> monitored sha256 k epoch threshold c) /\
  (forall e, fetch_staged_entry (sha256 (ID.ik_public (ID.ks_identity k))) epoch (kt_transport c) = Some e ->
     (1 < length (KtEntry.devices e))%nat -> run_kt_self_monitor_once sha256 epoch threshold c <> Ok tt).
Proof.
  intros Hm Hp. assert (run_kt_self_monitor_once sha256 epoch threshold c = Ok tt <-> monitored sha256 k epoch threshold c) as Hx.
  { unfold run_kt_self_monitor_once. split.
    - intros Hr. apply rbind_Ok in Hr as ([] & Ho & Hw). apply (own_entry_exact _ k) in Ho as (e & d & ? & ? & ? & ? & ? & ?); [|done..].
      exists e, d. split_and!; try done. by apply witness_exact.
    - intros (e & d & ? & ? & ? & ? & ? & ? & Hs). rewrite (proj2 (own_entry_exact sha256 k epoch c Hm Hp)) by eauto 10.
      by apply witness_exact. }
  split; [done|]. intros e He Hl Hr. apply Hx in Hr as (e' & d & He' & _ & _ & _ & _ & Hd & _). simplify_eq.
  apply (f_equal length) in Hd. rewrite length_fmap in Hd. cbn in Hd. lia.
Qed.

Lemma bootstrap_key l h hd vk h' : bootstrap_hw_identity l h = (Ok (hd, vk), h') -> hw_key h' hd = Some vk.
Proof.
  unfold bootstrap_hw_identity. intros Hb. st_step Hb. apply generate_ok in Hx as [pk Hk].
  destruct (sign_ok _ _ _ PROBE Hk) as (sig & h2 & Hg & Hs2 & _). unfold sbind at 1 in Hb. rewrite Hg in Hb.
  apply sguard_Ok in Hb as [_ Hb]. rewrite <- (Hs2 x) in Hk. destruct (verifying_key_ok _ _ _ Hk) as (h3 & Hv & Hs3). unfold sbind at 1 in Hb. rewrite Hv in Hb.
  repeat apply sguard_Ok in Hb as [_ Hb]. injection Hb as <- <- <-. by rewrite Hs3.
Qed.

Lemma add_device_identity now i ttl k : ID.ks_identity (ID.add_device (R := R) now i ttl k).2 = ID.ks_identity k.
Proof.
  unfold ID.add_device, ID.locked, sbind, sget, slift, sguard, sput, sret.
  destruct (ID.poisoned k); [done|]. destruct (bool_decide _); [done|].
  destruct (ID.device_derive _ _ _) as [d|e|]; [|done..]. by destruct (ID.hybrid_device_derive _ _ _).
Qed.
Lemma open_with_device_identity now sd k : open_with_device (R := R) now sd = Ok k ->
  ID.identity_derive_from_seed_bytes (R := R) (ID.seed sd) 0 = Ok (ID.ks_identity k).
Proof.
  unfold open_with_device. intros Ho. apply rbind_Ok in Ho as (k0 & Ho & Ha).
  pose proof (add_device_identity now 0 None k0) as Hi. destruct (ID.add_device _ _ _ _) as [r k1]. cbn in Hi.
  apply rbind_Ok in Ha as (? & _ & Ha). apply Ok_inj in Ha as <-. rewrite Hi.
  unfold ID.open_store in Ho. apply rbind_Ok in Ho as (idk & -> & Ho). res_inv Ho. apply Ok_inj in Ho as <-. done.
Qed.

(** The two identities of a client made with a callback: the hardware key, and the identity of
    the MLS key store, which comes from its own random seed. *)
Lemma hw_client_identities now mls_seed lbl (h : H) c h' :
  new_with_hw_callback (R := R) now mls_seed lbl h = (Ok c, h') ->
  exists hd vk id, hw_identity_handle_of c = Some hd /\ identity_verifying_key c = Ok vk /\ hw_key h' hd = Some vk /\
    ID.identity_derive_from_seed_bytes (R := R) (ID.seed mls_seed) 0 = Ok id /\ identity_public (mls_keystore c) = ID.ik_public id.
Proof.
  intros Hc. unfold new_with_hw_callback in Hc. destruct (bootstrap_hw_identity lbl h) as [[[hd vk]|e|] h1] eqn:Hb; [|done..].
  apply bootstrap_key in Hb. injection Hc as Hc <-. apply rbind_Ok in Hc as (hwk & _ & Hc).
  apply rbind_Ok in Hc as (k & Hk & Hc). apply Ok_inj in Hc as <-. apply LS.rmap_err_Ok, open_with_device_identity in Hk.
  exists hd, vk, (ID.ks_identity k). by split_and!.
Qed.

(** C16. Identity rotation through the hardware depends on one condition, that the key store for
    MLS names the key the hardware holds.  If it does and the new key is new, the rotation
    succeeds, every part of the client then names the new identity, the published entry is read
    back as the rotation from the old to the new key, and a mirror of the log that holds the old
    identity accepts it and revokes the devices published under it.  If it does not, the rotation
    is refused and the client is unchanged; so it is for a client made with a callback, whose MLS
    key store has the identity of its own random seed, unless the two keys happen to be equal. *)
Theorem rotation_end_to_end hd l reason ts proof (w : World H) :
  let old := identity_public (mls_keystore (core w)) in
  (hw_key (hw w) hd = Some old -> is_u64 ts -> len proof = 32 ->
   (forall r h art h', verifying_key hd (hw w) = (r, h) -> rotate_identity hd l old ts (DA.reason_tag reason) proof h = (Ok art, h') ->
      new_identity_pubkey art <> old) ->
   exists out w' wire r, rotate_identity_full hd l reason ts proof w = (Ok out, w') /\
     identity_verifying_key (core w') = Ok (rf_new out) /\ identity_public (mls_keystore (core w')) = rf_new out /\
     (identity_public <$> keystore (core w')) = Some (rf_new out) /\ rf_new out <> old /\
     published_entries (kt_transport (core w')) = published_entries (kt_transport (core w)) ++ [wire] /\
     KtCodec.decode_kt_authorization_entry wire = Ok (KtCodec.IdentityRotation r) /\
     DA.old_identity_pubkey r = old /\ DA.new_identity_pubkey r = rf_new out /\
     forall ws k sg s, LS.verify_epoch_transition ws k s sg = Ok tt -> LS.current_identity_pubkey s = Some old ->
       (forall p, LS.recovery_proof s = Some p -> p = proof) ->
       exists s', LS.apply_identity_rotation ws k r sg s = (Ok tt, s') /\ LS.current_identity_pubkey s' = Some (rf_new out) /\
         LS.device_entries s' = LS.cascade_revoke old <$> LS.device_entries s) /\
  (forall vk, hw_key (hw w) hd = Some vk -> vk <> old ->
     exists h, rotate_identity_full hd l reason ts proof w =
       (Err (Internal "rotation pre-flight: old_identity_pubkey mismatch"), {| core := core w; hw := h |})) /\
  (forall now mls_seed lbl h0, new_with_hw_callback (R := R) now mls_seed lbl h0 = (Ok (core w), hw w) ->
     exists own vk id, hw_identity_handle_of (core w) = Some own /\ identity_verifying_key (core w) = Ok vk /\
       hw_key (hw w) own = Some vk /\
       ID.identity_derive_from_seed_bytes (R := R) (ID.seed mls_seed) 0 = Ok id /\ old = ID.ik_public id).
Proof.
  intros old. split; [apply rotation_reaches_log|]. split; [apply rotate_mismatch|].
  intros now mls_seed lbl h0. apply hw_client_identities.
Qed.

(** Limits of hardware-backed accounts: a client made with a callback keeps an MLS key store from
    its own random seed, so its rotation with its own handle is refused and changes nothing, unless
    the random identity equals the hardware key; and after any successful rotation the check of
    the own entry panics, the hardware store having no X25519 key. *)
Theorem hw_account_limits now mls_seed lbl (h : H) c h' l reason ts proof :
  new_with_hw_callback (R := R) now mls_seed lbl h = (Ok c, h') ->
  (exists hd vk id, hw_identity_handle_of c = Some hd /\ identity_verifying_key c = Ok vk /\
    ID.identity_derive_from_seed_bytes (R := R) (ID.seed mls_seed) 0 = Ok id /\ identity_public (mls_keystore c) = ID.ik_public id /\
    (ID.ik_public id <> vk -> exists h2, rotate_identity_full hd l reason ts proof {| core := c; hw := h' |} =
       (Err (Internal "rotation pre-flight: old_identity_pubkey mismatch"), {| core := c; hw := h2 |}))) /\
  (forall hd w out w' epoch threshold, rotate_identity_full (H := H) hd l reason ts proof w = (Ok out, w') ->
     run_kt_self_monitor_once sha256 epoch threshold (core w') = Panic).
Proof.
  intros Hc. split.
  - destruct (hw_client_identities _ _ _ _ _ _ Hc) as (hd & vk & id & Hh & Hvk & Hk & Hid & Hp).
    exists hd, vk, id. split_and!; try done. intros Hne.
    apply (rotate_mismatch hd l reason ts proof {| core := c; hw := h' |} vk Hk). cbn [core]. rewrite Hp. congruence.
  - intros hd w out w' epoch threshold Hr. apply rotate_full_exact in Hr as (h1 & art & _ & _ & _ & _ & Hw & _). by rewrite Hw.
Qed.
End Limits.

(** ** Witnesses *)
#[local] Existing Instances Pq.toy_pq Pq.toy_pq_ed Pq.toy_rng Pq.toy_pq_laws ID.toy_id.
Definition toy_hw_crypto : HwCrypto := {| verify_strict := ed_verify; chacha_seal _ m := Some m; chacha_open _ m := Some m |}.
#[local] Existing Instance toy_hw_crypto.
#[local] Instance toy_mock_laws : MockLaws Z.
Proof.
  split.
  - intros n r Hn. cbn. rewrite len_replicate. lia.
  - intros k Hk. cbn. by rewrite Hk.
  - intros k m. split; [exact (Pq.ed_sign_len k m)|]. split; exact (Pq.ed_correct k m).
Qed.
Definition toy_handle : HwKeyHandle := {| label := "old" |}.
Definition toy_old : list byte := replicate 32 Byte.x07.
Definition toy_mock : MockHwKeystore Z := {| keys := {[ toy_handle := toy_old ]}; os_rng := 9 |}.
Definition toy_core : ClientCore := {|
  identity := None; hw_callback := true; hw_identity_state := {| handle := Some toy_handle; hw_verifying_key := Some toy_old |};
  keystore := None; mls_keystore := HwBacked {| hw_account := 0; hw_identity_handle := toy_handle; identity_public_cached := toy_old |};
  kt_transport := kt_default; kt_witness_set := KtWitness.ws_new |}.
Definition toy_world : World (MockHwKeystore Z) := {| core := toy_core; hw := toy_mock |}.
Definition toy_proof : list byte := replicate 32 Byte.x05.

(** A client whose two stores agree rotates; the same client with another key in the hardware does not. *)
Definition toy_other_mock : MockHwKeystore Z := {| keys := {[ toy_handle := replicate 32 Byte.x08 ]}; os_rng := 9 |}.

Lemma rotation_end_to_end_witness :
  (exists out w', rotate_identity_full toy_handle "new" DA.PlannedRotation 5 toy_proof toy_world = (Ok out, w') /\
     identity_public (mls_keystore (core w')) = rf_new out) /\
  (exists h, rotate_identity_full toy_handle "new" DA.PlannedRotation 5 toy_proof {| core := toy_core; hw := toy_other_mock |} =
     (Err (Internal "rotation pre-flight: old_identity_pubkey mismatch"), {| core := toy_core; hw := h |})).
Proof.
  split.
  - destruct (rotation_end_to_end (R := Z) toy_handle "new" DA.PlannedRotation 5 toy_proof toy_world) as (Hok & _).
    destruct Hok as (out & w' & wire & r & Hr & _ & Hi & _).
    + reflexivity.
    + unfold is_u64, U64_MAX. lia.
    + reflexivity.
    + intros r h art h' Hv Hr. vm_compute in Hv. injection Hv as <- <-. vm_compute in Hr. injection Hr as <- <-. discriminate.
    + exists out, w'. split; [exact Hr|exact Hi].
  - destruct (rotation_end_to_end (R := Z) toy_handle "new" DA.PlannedRotation 5 toy_proof {| core := toy_core; hw := toy_other_mock |})
      as (_ & Hno & _).
    apply (Hno (replicate 32 Byte.x08)); [reflexivity|discriminate].
Defined.
Lemma enrolment_end_to_end_witness :
  exists out w', initiate_device_transfer toy_handle toy_proof 5 0 0 toy_world = (Ok out, w').
Proof.
  destruct (enrolment_end_to_end toy_handle toy_proof 5 0 0 toy_old toy_world) as (out & w' & wire & a & Hr & _);
    [reflexivity|reflexivity|discriminate|unfold is_u64, U64_MAX; lia|unfold is_u64, U64_MAX; lia|unfold is_u8, U8_MAX; lia|reflexivity|].
  exists out, w'. exact Hr.
Defined.

(** A platform with one fixed key that cannot rotate. *)
Definition toy_callback : HwKeystore unit := {|
  generate_identity l := sret {| label := l |}; sign_identity hd m := sret (Pq.ed_sign toy_old m); wrap_secret hd m := sret m;
  unwrap_secret hd m := sret m; delete_identity hd := sret tt; verifying_key hd := sret toy_old;
  rotate_identity hd l old ts tag proof := default_rotate_identity hd l old ts tag proof |}.
Lemma toy_callback_typed : @HwTyped unit toy_callback.
Proof. split; [by intros hd h pk h' [= <- <-]|by intros]. Qed.
Definition toy_ops : list Op := [OTransfer toy_handle toy_proof 5 0 0; ORotate toy_handle "new" DA.PlannedRotation 6 toy_proof].
Lemma published_entries_genuine_witness :
  Forall genuine (published (run_ops (HwKeystore0 := toy_callback) toy_ops {| core := toy_core; hw := tt |}).2) /\
  length (published (run_ops (HwKeystore0 := toy_callback) toy_ops {| core := toy_core; hw := tt |}).2) = 1%nat.
Proof.
  destruct (@published_entries_genuine unit toy_callback Pq.toy_pq_ed toy_callback_typed toy_ops {| core := toy_core; hw := tt |}) as (Hg & Hl & _).
  - reflexivity.
  - repeat constructor; reflexivity || discriminate.
  - reflexivity.
  - split; [exact Hg|]. rewrite Hl. vm_compute. reflexivity.
Defined.

Lemma hw_account_limits_witness :
  exists c h hd h2, new_with_hw_callback (R := Z) 100 ID.toy_seed "tee" toy_mock = (Ok c, h) /\
    rotate_identity_full hd "new" DA.PlannedRotation 5 toy_proof {| core := c; hw := h |} =
      (Err (Internal "rotation pre-flight: old_identity_pubkey mismatch"), {| core := c; hw := h2 |}).
Proof.
  destruct (new_with_hw_callback (R := Z) 100 ID.toy_seed "tee" toy_mock) as [[c|e|] h] eqn:Hc; [|vm_compute in Hc; discriminate Hc..].
  destruct (hw_account_limits Pq.sha256 100 ID.toy_seed "tee" toy_mock c h "new" DA.PlannedRotation 5 toy_proof Hc)
    as ((hd & vk & id & _ & Hvk & Hid & _ & Hr) & _).
  destruct Hr as [h2 Hr]; [|exists c, h, hd, h2; split; [reflexivity|exact Hr]].
  vm_compute in Hc. injection Hc as <- <-. vm_compute in Hvk. injection Hvk as <-. vm_compute in Hid. injection Hid as <-. vm_compute. discriminate.
Defined.

(** A staged entry and a root signed by one witness. *)
Definition toy_ks : ID.InMemoryKeyStore := (ID.add_device (R := Z) 100 0 None ID.toy_store).2.
Definition toy_dev : list byte := match ID.public <$> ID.devices toy_ks !! 0 with Some d => d | None => [] end.
Definition toy_entry : KtEntry.KtEntry := {|
  KtEntry.account_id := Pq.sha256 (ID.ik_public (ID.ks_identity toy_ks)); KtEntry.identity_ed25519_pub := ID.ik_public (ID.ks_identity toy_ks);
  KtEntry.identity_x25519_pub := ID.xk_public (ID.ks_x25519 toy_ks);
  KtEntry.devices := [{| KtEntry.device_index := 0; KtEntry.device_pub := toy_dev; KtEntry.attestation_valid_until := 0 |}]; KtEntry.epoch := 3 |}.
Definition toy_signed : KtWitness.SignedEpochRoot :=
  let p := KtWitness.canonical_sign_payload 3 toy_old 4 1000 in
  {| KtWitness.epoch := 3; KtWitness.root := toy_old; KtWitness.log_size := 4; KtWitness.timestamp_unix_millis := 1000;
     KtWitness.signatures := [{| KtWitness.witness := toy_old; KtWitness.signature := Pq.ed_sign toy_old p |}] |}.
Definition toy_monitored : ClientCore := {|
  identity := None; hw_callback := false; hw_identity_state := {| handle := None; hw_verifying_key := None |};
  keystore := None; mls_keystore := InMemory toy_ks;
  kt_transport := push_staged_signed_root 3 toy_signed (push_staged_entry (Pq.sha256 (ID.ik_public (ID.ks_identity toy_ks))) 3 toy_entry kt_default);
  kt_witness_set := KtWitness.ws_add toy_old KtWitness.ws_new |}.
Lemma self_monitor_exact_witness : run_kt_self_monitor_once Pq.sha256 3 1 toy_monitored = Ok tt.
Proof.
  apply (proj1 (self_monitor_exact Pq.sha256 toy_ks 3 1 toy_monitored eq_refl eq_refl)).
  exists toy_entry, toy_dev. split; [vm_compute; reflexivity|]. split; [vm_compute; reflexivity|].
  split; [reflexivity|]. split; [reflexivity|]. split; [reflexivity|]. split; [vm_compute; reflexivity|].
  exists toy_signed. split; [vm_compute; reflexivity|]. split; vm_compute; reflexivity.
Defined.
End Account.
