(* ===== verification/Services.v ===== *)
(** * The HTTP services of the client
    ([crates/umbrella-client/src/transport/kt_transport.rs], [blind_postman.rs], [cloud_backup.rs],
     [call_relay.rs])

    The calls to the key log, the postman and the call relay, the length-prefixed lists their
    answers carry, and the request to the five sealed servers at once.  The network is a state
    with a function that answers a request; the order in which the sealed servers answer is an
    explicit sequence of events.  [hex], URLs and JSON are parameters. *)
From S2P Require Import Prelude Bytes Crypto KtError KtWitness KtCodec KtLogState BackupError CloudRequest CloudWire ClientError Account Calls.
From stdpp Require Import pretty.
Local Open Scope string_scope.
Local Open Scope list_scope.
Local Open Scope Z_scope.

Module Services.
Local Notation Error := Account.Error.
Local Notation Network := (ClientError.Network (N := string)).

(** ** Length-prefixed lists *)

(** The loop of [parse_length_prefixed] and [parse_length_prefixed_strict], which differ in the
    text of the error; [usize] has 64 bits, so no cursor overflows.  A pass moves the cursor by four
    bytes at least, so the length of the input is fuel enough. *)
Fixpoint parse_from (what : string) (fuel : nat) (bytes : list byte) (cursor : Z) (out : list (list byte)) : res Error (list (list byte)) :=
  match fuel with
  | O => Ok out
  | S fuel =>
      if negb (cursor <? len bytes) then Ok out
      else
        reject len bytes <? cursor + 4 with Network ("truncated " +:+ what +:+ " response: missing length prefix") ;;
        let? len_bytes := slice cursor (cursor + 4) bytes in
        let n := from_be len_bytes in
        let cursor := cursor + 4 in
        reject len bytes <? cursor + n with Network ("truncated " +:+ what +:+ " response: payload shorter than length prefix") ;;
        let? frame := slice cursor (cursor + n) bytes in
        parse_from what fuel bytes (cursor + n) (out ++ [frame])
  end.
Definition parse_length_prefixed (bytes : list byte) : res Error (list (list byte)) := parse_from "inbox" (S (length bytes)) bytes 0 [].
Definition parse_length_prefixed_strict (bytes : list byte) : res Error (list (list byte)) := parse_from "signed-roots" (S (length bytes)) bytes 0 [].

(** ** Requests *)
Inductive Method := GET | POST | DELETE.
Record HttpRequest := { method : Method; target : string; content_type : option string; body : list byte }.
(** [read]: the body, or the error of reading it. *)
Inductive HttpOutcome := SendFailed (e : string) | Answered (status : Z) (read : string + list byte).
Class Web (N : Type) := {
  serve : HttpRequest -> N -> HttpOutcome * N;
  join : string -> string -> string + string;       (* [Url::join]: base, path *)
  hex_encode : list byte -> string;
  allocation_request : string -> Z -> string + list byte; (* [serde_json::to_vec] of the request *)
  allocation_parse : list byte -> string + Calls.TurnAllocation
}.
Definition is_success (status : Z) : bool := (200 <=? status) && (status <? 300).

Section Web.
Context {N : Type} `{Web N}.
Definition send (r : HttpRequest) : st N Error HttpOutcome := fun n => let '(o, n) := serve r n in (Ok o, n).
(** A call that looks at the status only, and one that reads the body. *)
Definition call_status (what url_what base path : string) (m : Method) (ct : option string) (b : list byte) : st N Error (string + list byte) :=
  let! url := slift (match join base path with inl e => Err (Network ("url " +:+ url_what +:+ ": " +:+ e)) | inr u => Ok u end) in
  let! resp := send {| method := m; target := url; content_type := ct; body := b |} in
  match resp with
  | SendFailed e => slift (Err (Network (what +:+ ": " +:+ e)))
  | Answered status read =>
      fail_if negb (is_success status) with Network (what +:+ " status " +:+ pretty status) ;;
      sret read
  end.
Definition call_body (what url_what base path : string) (m : Method) (ct : option string) (b : list byte) : st N Error (list byte) :=
  let! read := call_status what url_what base path m ct b in
  slift (match read with inl e => Err (Network (what +:+ " body: " +:+ e)) | inr bytes => Ok bytes end).
Definition octets : option string := Some "application/octet-stream".

(** *** The key log *)
Definition fetch_epoch (base : string) (account_id : list byte) (epoch : Z) : st N Error (list byte) :=
  call_body "kt fetch_epoch" "/kt/account" base ("/kt/account/" +:+ hex_encode account_id +:+ "/epoch/" +:+ pretty epoch) GET None [].
Definition fetch_signed_roots (base : string) (epoch : Z) : st N Error (list (list byte)) :=
  let! bytes := call_body "kt signed_roots" "/kt/signed-roots" base ("/kt/signed-roots/" +:+ pretty epoch) GET None [] in
  slift (parse_length_prefixed_strict bytes).
Definition fetch_signed_root_frames : string -> Z -> st N Error (list (list byte)) := fetch_signed_roots.
Definition publish (base : string) (entry_bytes : list byte) : st N Error unit :=
  let! _ := call_status "kt publish" "/kt/publish" base "/kt/publish" POST octets entry_bytes in sret tt.

(** *** The postman *)
Definition deliver (base : string) (envelope : list byte) : st N Error unit :=
  let! _ := call_status "deliver" "/deliver" base "/deliver" POST octets envelope in sret tt.
Definition fetch_inbox (base : string) (since_ms : Z) : st N Error (list (list byte)) :=
  let! bytes := call_body "inbox" "/inbox" base ("/inbox?since=" +:+ pretty since_ms) GET None [] in
  slift (parse_length_prefixed bytes).
Definition ack (base : string) (message_id : list byte) : st N Error unit :=
  let! _ := call_status "ack" "/inbox/id" base ("/inbox/" +:+ hex_encode message_id) DELETE None [] in sret tt.

(** *** The call relay: the URL is joined before the request is serialized *)
Definition allocate (base : string) (peer_id : list byte) (level : Calls.CallSecurityLevelWire) : st N Error Calls.TurnAllocation :=
  let! _ := slift (match join base "/turn/allocate" with inl e => Err (Network ("url /turn/allocate: " +:+ e)) | inr _ => Ok tt end) in
  let! payload := slift (match allocation_request (hex_encode peer_id) (Calls.level_as_u8 level) with
                         | inl e => Err (Network ("turn allocate serialize: " +:+ e)) | inr p => Ok p end) in
  let! bytes := call_body "turn allocate" "/turn/allocate" base "/turn/allocate" POST (Some "application/json") payload in
  slift (match allocation_parse bytes with inl e => Err (Network ("turn allocate parse: " +:+ e)) | inr a => Ok a end).
End Web.

(** ** The sealed servers ([Http2UnwrapTransport::dispatch]) *)
Definition SEALED_SERVER_COUNT : Z := 5.
Definition EARLY_RETURN_THRESHOLD : Z := 3.
(** The worker of server [idx]: the share it sends to the channel, if any. *)
Definition worker (idx : Z) (o : HttpOutcome) : option CloudWire.ServerUnwrapShare :=
  let witness_index := idx + 1 in
  match o with
  | SendFailed _ => None
  | Answered status read =>
      if negb (is_success status) then None
      else match read with
           | inl _ => None
           | inr bytes => match CloudWire.share_from_bytes bytes with
                          | Ok share => if CloudWire.witness_index share =? witness_index then Some share else None
                          | _ => None
                          end
           end
  end.
(** What happens while the call waits: a worker ends, or the deadline passes.  When all workers have
    ended the channel is closed. *)
Inductive FanEvent := WorkerEnds (idx : Z) (o : HttpOutcome) | Deadline.
Fixpoint collect (events : list FanEvent) (shares : list CloudWire.ServerUnwrapShare) : list CloudWire.ServerUnwrapShare :=
  match events with
  | [] => shares
  | Deadline :: _ => shares
  | WorkerEnds idx o :: events =>
      match worker idx o with
      | None => collect events shares
      | Some s => let shares := shares ++ [s] in if EARLY_RETURN_THRESHOLD <=? len shares then shares else collect events shares
      end
  end.
(** Every server gets the same request; the requests sent, and the result. *)
Definition dispatch (server_urls : list string) (request : CloudRequest.SignedUnwrapRequest) (events : list FanEvent)
  : list HttpRequest * res BackupError (list CloudWire.ServerUnwrapShare) :=
  let payload := CloudRequest.to_bytes request in
  ((fun url => {| method := POST; target := url; content_type := octets; body := payload |}) <$> server_urls, Ok (collect events [])).

(** ** Lists: the parsers are exact *)
Definition encode_frames (l : list (list byte)) : list byte := concat ((fun f => to_be 4 (len f) ++ f) <$> l).
Definition frame_fits (f : list byte) : Prop := len f < 2 ^ 32.

Lemma frames_cons f l : encode_frames (f :: l) = to_be 4 (len f) ++ f ++ encode_frames l.
Proof. unfold encode_frames. cbn [fmap list_fmap concat]. by rewrite <- app_assoc. Qed.
Lemma parse_step what fuel pre f rest out : frame_fits f ->
  parse_from what (S fuel) (pre ++ to_be 4 (len f) ++ f ++ rest) (len pre) out =
  parse_from what fuel (pre ++ to_be 4 (len f) ++ f ++ rest) (len pre + 4 + len f) (out ++ [f]).
Proof.
  intros Hf. unfold frame_fits in Hf. pose proof (len_nonneg pre). pose proof (len_nonneg f). pose proof (len_nonneg rest).
  set (bs := pre ++ to_be 4 (len f) ++ f ++ rest). assert (Hl : len bs = len pre + 4 + len f + len rest) by (subst bs; rewrite !len_app, len_to_be; lia).
  cbn [parse_from]. rewrite (proj2 (Z.ltb_lt _ _)) by lia. cbn [negb]. unfold rguard. rewrite (proj2 (Z.ltb_ge _ _)) by lia.
  assert (Hs1 : forall E, slice (E := E) (len pre) (len pre + 4) bs = Ok (to_be 4 (len f))).
  { intros E. subst bs. rewrite slice_skip_len by lia. apply slice_hit; [lia|]. rewrite len_to_be. lia. }
  rewrite Hs1. cbn [rbind]. rewrite from_be_to_be by (change (256 ^ Z.of_nat 4) with (2 ^ 32); lia). rewrite (proj2 (Z.ltb_ge _ _)) by lia.
  assert (Hs2 : forall E, slice (E := E) (len pre + 4) (len pre + 4 + len f) bs = Ok f); [|by rewrite Hs2].
  intros E. subst bs. rewrite slice_skip_len by lia. rewrite (slice_skip 4) by (rewrite ?len_to_be; lia). apply slice_hit; lia.
Qed.
Lemma parse_complete what l : Forall frame_fits l -> forall fuel pre out, (length l < fuel)%nat ->
  parse_from what fuel (pre ++ encode_frames l) (len pre) out = Ok (out ++ l).
Proof.
  induction 1 as [|f l Hf Hl IH]; intros fuel pre out Hfu; (destruct fuel as [|fuel]; [lia|]).
  - cbn [parse_from]. change (encode_frames []) with (@nil byte). rewrite !app_nil_r, (proj2 (Z.ltb_ge _ _)) by lia. done.
  - cbn [length] in Hfu. rewrite frames_cons, parse_step by done. specialize (IH fuel (pre ++ to_be 4 (len f) ++ f) (out ++ [f]) ltac:(lia)).
    rewrite <- !app_assoc in IH. cbn [app] in IH. rewrite <- IH. f_equal. rewrite !len_app, len_to_be. lia.
Qed.
Lemma parse_sound what fuel : forall pre rest out res, parse_from what fuel (pre ++ rest) (len pre) out = Ok res -> (length rest < fuel)%nat ->
  exists l, res = out ++ l /\ rest = encode_frames l /\ Forall frame_fits l.
Proof.
  induction fuel as [|fuel IH]; intros pre rest out res Hp Hfu; [lia|]. cbn [parse_from] in Hp. pose proof (len_nonneg pre). pose proof (len_nonneg rest).
  destruct (Z.ltb_spec (len pre) (len (pre ++ rest))) as [Hlt|Hge]; cbn [negb] in Hp.
  2:{ injection Hp as <-. exists []. rewrite app_nil_r. repeat split; [|constructor]. rewrite len_app in Hge. destruct rest; [done|]. unfold len in Hge. cbn [length] in Hge. lia. }
  apply rguard_Ok in Hp as [Hl4 Hp]. apply Z.ltb_ge in Hl4. rewrite len_app in Hl4. apply rbind_Ok in Hp as (lb & Hlb & Hp).
  rewrite slice_skip_len in Hlb by lia. apply rguard_Ok in Hp as [Hln Hp]. apply Z.ltb_ge in Hln. rewrite len_app in Hln.
  apply rbind_Ok in Hp as (f & Hf & Hp). rewrite slice_skip_len in Hf by lia.
  replace (len pre - len pre) with 0 in Hlb by lia. replace (len pre + 4 - len pre) with 4 in Hlb by lia.
  replace (len pre + 4 - len pre) with 4 in Hf by lia. replace (len pre + 4 + from_be lb - len pre) with (4 + from_be lb) in Hf by lia.
  pose proof (slice_ok_len _ _ _ _ Hlb) as Hlbl. pose proof (slice_ok_len _ _ _ _ Hf) as Hfl.
  assert (Hb : 0 <= from_be lb < 2 ^ 32) by (pose proof (from_be_range lb) as Hr; rewrite Hlbl in Hr; exact Hr).
  assert (Hrest : rest = lb ++ f ++ drop (Z.to_nat (4 + from_be lb)) rest).
  { pose proof (slice_glue _ _ _ _ _ _ Hlb Hf) as Hg. apply slice_Ok_inv in Hg as (_ & _ & _ & Hg). rewrite app_assoc, Hg, Z.sub_0_r.
    cbn [Z.to_nat drop]. by rewrite take_drop. }
  set (tl := drop _ rest) in *. rewrite Hrest in Hp, Hfu |- *. rewrite !length_app in Hfu. unfold len in Hlbl.
  replace (len pre + 4 + from_be lb) with (len (pre ++ lb ++ f)) in Hp by (rewrite !len_app; unfold len at 2; lia).
  replace (pre ++ lb ++ f ++ tl) with ((pre ++ lb ++ f) ++ tl) in Hp by (by rewrite <- !app_assoc).
  apply IH in Hp as (l & -> & Htl & Hfits); [|lia]. exists (f :: l). rewrite <- app_assoc. split; [done|]. rewrite frames_cons, <- Htl.
  replace (len f) with (from_be lb) by lia. rewrite to_be_from_be_n by (unfold len; lia). split; [done|]. constructor; [unfold frame_fits; lia|done].
Qed.

Lemma frames_length l : (length l <= length (encode_frames l))%nat.
Proof. induction l as [|f l IH]; [done|]. rewrite frames_cons, !length_app, length_to_be. cbn [length]. lia. Qed.
Lemma frames_no_panic what bytes fuel : forall cursor out, 0 <= cursor -> parse_from what fuel bytes cursor out <> Panic.
Proof.
  induction fuel as [|fuel IH]; intros cursor out Hc; [done|]. cbn [parse_from]. destruct (negb _); [done|]. unfold rguard.
  destruct (Z.ltb_spec (len bytes) (cursor + 4)); [done|]. rewrite slice_in_range by lia. cbn [rbind].
  set (lb := take _ _). pose proof (from_be_range lb). destruct (Z.ltb_spec (len bytes) (cursor + 4 + from_be lb)); [done|].
  rewrite slice_in_range by lia. cbn [rbind]. apply IH. lia.
Qed.

(** The answers of the services are read exactly: a body parses to a list of frames if and only if
    it is the concatenation of these frames, each after its length in four bytes, so no byte is
    skipped, invented or left over, and no body makes the client panic. *)
Theorem frames_exact what bytes l :
  (parse_from what (S (length bytes)) bytes 0 [] = Ok l <-> bytes = encode_frames l /\ Forall frame_fits l) /\
  parse_from what (S (length bytes)) bytes 0 [] <> Panic.
Proof.
  split; [|by apply frames_no_panic]. split.
  - intros Hp. apply (parse_sound what _ [] bytes) in Hp as (l' & -> & ? & ?); [done|lia].
  - intros [-> Hf]. apply (parse_complete what l Hf _ [] []). pose proof (frames_length l). lia.
Qed.

(** ** The key log over HTTP *)
Section Monitor.
Context {N : Type} `{Web N} `{!Ed25519}.

Lemma call_body_Ok what uw base path m ct b n bytes n' : call_body what uw base path m ct b n = (Ok bytes, n') <->
  exists url status, join base path = inr url /\ serve {| method := m; target := url; content_type := ct; body := b |} n = (Answered status (inr bytes), n') /\
    200 <= status < 300.
Proof.
  unfold call_body, call_status, sbind, slift, send, sguard, sret, is_success. destruct (join base path) as [e|url].
  { split; [done|]. by intros (? & ? & ? & _). }
  destruct (serve _ n) as [o n1] eqn:Hs. split.
  - destruct o as [e|status read]; [done|]. destruct (Z.leb_spec 200 status), (Z.ltb_spec status 300); cbn [andb negb]; try done.
    destruct read as [e|bs]; [done|]. intros [= <- <-]. by exists url, status.
  - intros (u & status & [= <-] & Ho & Hst). rewrite Hs in Ho. injection Ho as -> ->.
    by rewrite (proj2 (Z.leb_le _ _)), (proj2 (Z.ltb_lt _ _)) by lia.
Qed.

(** A client that checks an epoch through the network accepts it exactly when the log answers the
    request for that epoch with success and one frame that decodes to a signed root of that very
    epoch with enough valid witness signatures. *)
Theorem epoch_over_http base epoch threshold c n :
  Account.verify_kt_witness_signatures_for_epoch_via_fetcher (fun e => (fetch_signed_root_frames base e n).1) epoch threshold c = Ok tt <->
  exists url status frame signed n', join base ("/kt/signed-roots/" +:+ pretty epoch) = inr url /\
    serve {| method := GET; target := url; content_type := None; body := [] |} n = (Answered status (inr (to_be 4 (len frame) ++ frame)), n') /\
    200 <= status < 300 /\ len frame < 2 ^ 32 /\ KtCodec.decode_signed_epoch_root frame = Ok signed /\ KtWitness.epoch signed = epoch /\
    KtWitness.verify_signed_epoch signed (Account.kt_witness_set c) threshold = Ok tt.
Proof.
  unfold Account.verify_kt_witness_signatures_for_epoch_via_fetcher, fetch_signed_root_frames, fetch_signed_roots. split.
  - intros Hv. apply rbind_Ok in Hv as (frames & Hf & Hv). unfold sbind in Hf.
    destruct (call_body _ _ _ _ _ _ _ n) as [r n'] eqn:Hc. destruct r as [bytes| |]; [|done..]. cbn [fst slift] in Hf.
    apply call_body_Ok in Hc as (url & status & Hj & Hs & Hst). apply rguard_Ok in Hv as [Hl Hv].
    destruct frames as [|frame [|]]; [done| |]; [|unfold len in Hl; cbn [length] in Hl; apply negb_false_iff, Z.eqb_eq in Hl; lia].
    cbn [rbind] in Hv. apply rbind_Ok in Hv as (signed & Hd & Hv). apply rguard_Ok in Hv as [He Hv]. apply negb_false_iff, Z.eqb_eq in He.
    apply KtLogState.rmap_err_Ok in Hd. apply KtLogState.rmap_err_Ok in Hv.
    apply (parse_sound _ _ [] bytes) in Hf as (l & Hl1 & -> & Hfits); [|lia]. cbn [app] in Hl1. subst l. inversion Hfits; subst.
    exists url, status, frame, signed, n'. rewrite frames_cons in Hs. change (encode_frames []) with (@nil byte) in Hs. rewrite app_nil_r in Hs. done.
  - intros (url & status & frame & signed & n' & Hj & Hs & Hst & Hl & Hd & He & Hv).
    assert (Hc : call_body "kt signed_roots" "/kt/signed-roots" base ("/kt/signed-roots/" +:+ pretty epoch) GET None [] n = (Ok (to_be 4 (len frame) ++ frame), n'))
      by (apply call_body_Ok; by exists url, status).
    unfold sbind. rewrite Hc. cbn [fst slift]. unfold parse_length_prefixed_strict.
    assert (Hb : to_be 4 (len frame) ++ frame = encode_frames [frame]) by (rewrite frames_cons; change (encode_frames []) with (@nil byte); by rewrite app_nil_r).
    rewrite Hb. pose proof (parse_complete "signed-roots" [frame] ltac:(by constructor) (S (length (encode_frames [frame]))) [] []) as Hp.
    cbn [app] in Hp. change (len (@nil byte)) with 0 in Hp. rewrite Hp by (pose proof (frames_length [frame]); lia).
    cbn [rbind rguard]. change (len [frame]) with 1. cbn [Z.eqb negb rguard Pos.eqb]. rewrite Hd. cbn [rmap_err rbind]. unfold rguard. rewrite He, Z.eqb_refl. cbn [negb].
    by rewrite Hv.
Qed.
End Monitor.

(** ** The sealed servers *)
Definition is_deadline (ev : FanEvent) : bool := match ev with Deadline => true | _ => false end.
Fixpoint in_time (events : list FanEvent) : list FanEvent :=
  match events with [] => [] | Deadline :: _ => [] | ev :: events => ev :: in_time events end.
Definition share_of (ev : FanEvent) : option CloudWire.ServerUnwrapShare := match ev with WorkerEnds idx o => worker idx o | Deadline => None end.
(** The valid shares that arrive before the deadline, in the order of their arrival. *)
Definition arrivals (events : list FanEvent) : list CloudWire.ServerUnwrapShare := omap share_of (in_time events).
Definition workers (events : list FanEvent) : list Z := omap (fun ev => match ev with WorkerEnds idx _ => Some idx | Deadline => None end) events.

Lemma collect_spec events : forall shares, (length shares < 3)%nat -> collect events shares = take 3 (shares ++ arrivals events).
Proof.
  assert (Hshort : forall shares : list CloudWire.ServerUnwrapShare, (length shares < 3)%nat -> shares = take 3 (shares ++ [])).
  { intros shares Hl. rewrite app_nil_r, take_ge by lia. done. }
  induction events as [|ev events IH]; intros shares Hl; [by apply Hshort|]. destruct ev as [idx o|]; [|by apply Hshort].
  cbn [collect]. unfold arrivals in *. cbn [in_time omap list_omap share_of]. destruct (worker idx o) as [s|]; [|by apply IH].
  replace (shares ++ s :: omap share_of (in_time events)) with ((shares ++ [s]) ++ omap share_of (in_time events)) by (by rewrite <- app_assoc).
  cbv zeta. unfold EARLY_RETURN_THRESHOLD, len. destruct (Z.leb_spec 3 (Z.of_nat (length (shares ++ [s])))) as [Hge|Hlt].
  - rewrite length_app in Hge. cbn [length] in Hge.
    assert (Hl3 : length (shares ++ [s]) = 3%nat) by (rewrite length_app; cbn [length]; lia).
    by rewrite take_app_le, take_ge by lia.
  - rewrite length_app in Hlt. cbn [length] in Hlt. apply IH. rewrite length_app. cbn [length]. lia.
Qed.
Lemma worker_Some idx o s : worker idx o = Some s ->
  CloudWire.witness_index s = idx + 1 /\ exists status, 200 <= status < 300 /\ o = Answered status (inr (CloudWire.share_to_bytes s)).
Proof.
  unfold worker, is_success. destruct o as [|status [|bytes]]; [done|by destruct (negb _)|].
  destruct (Z.leb_spec 200 status), (Z.ltb_spec status 300); cbn [andb negb]; try done.
  destruct (CloudWire.share_from_bytes bytes) as [sh| |] eqn:Hd; [|done..]. destruct (Z.eqb_spec (CloudWire.witness_index sh) (idx + 1)); [|done].
  intros [= <-]. split; [done|]. exists status. apply CloudWire.share_enc_dec in Hd as [-> _]. done.
Qed.
Lemma in_time_mem ev events : ev ∈ in_time events -> ev ∈ events.
Proof. induction events as [|[]]; cbn; set_solver. Qed.
Lemma arrivals_nodup events : NoDup (workers events) -> NoDup (CloudWire.witness_index <$> arrivals events).
Proof.
  unfold arrivals. induction events as [|[idx o|] events IH]; intros Hnd; [constructor| |constructor].
  cbn [workers omap list_omap] in Hnd. apply NoDup_cons in Hnd as [Hnin Hnd]. cbn [in_time omap list_omap share_of].
  destruct (worker idx o) as [s|] eqn:Hw; [|by apply IH]. cbn [fmap list_fmap]. apply NoDup_cons. split; [|by apply IH].
  intros Hin. apply list_elem_of_fmap in Hin as (s' & Hs & Hin). apply list_elem_of_omap in Hin as (ev & Hev & Hsh). apply in_time_mem in Hev.
  destruct ev as [j o'|]; [|done]. apply worker_Some in Hw as [Hi _]. apply worker_Some in Hsh as [Hj _]. apply Hnin.
  apply list_elem_of_omap. exists (WorkerEnds j o'). split; [done|]. f_equal. lia.
Qed.

(** C34. Whatever the order in which the sealed servers answer, a request to them gives the first three
    valid shares that arrive before the deadline, or all of them if there are fewer: shares of
    different servers, each the body of a successful answer of the server it names.  Every server
    was sent the same request. *)
Theorem fan_out_exact urls request events : NoDup (workers events) ->
  Forall (fun r => method r = POST /\ body r = CloudRequest.to_bytes request) (dispatch urls request events).1 /\
  target <$> (dispatch urls request events).1 = urls /\
  exists shares, (dispatch urls request events).2 = Ok shares /\ shares = take 3 (arrivals events) /\ NoDup (CloudWire.witness_index <$> shares) /\
    forall s, s ∈ shares -> exists status, 200 <= status < 300 /\
      WorkerEnds (CloudWire.witness_index s - 1) (Answered status (inr (CloudWire.share_to_bytes s))) ∈ events.
Proof.
  intros Hnd. cbn [dispatch fst snd]. split; [by apply Forall_fmap, Forall_true|]. split; [rewrite <- list_fmap_compose; apply list_fmap_id|].
  exists (take 3 (arrivals events)). split; [by rewrite collect_spec by (cbn; lia)|]. split; [done|]. split.
  - rewrite fmap_take. eapply sublist_NoDup; [by apply arrivals_nodup|apply sublist_take].
  - intros s Hs. apply (subseteq_take 3) in Hs. apply list_elem_of_omap in Hs as (ev & Hev & Hsh). apply in_time_mem in Hev.
    destruct ev as [idx o|]; [|done]. apply worker_Some in Hsh as (Hi & status & Hst & ->). exists status. split; [done|].
    by replace (CloudWire.witness_index s - 1) with idx by lia.
Qed.

Lemma in_time_app e1 e2 : Forall (fun ev => is_deadline ev = false) e1 -> in_time (e1 ++ e2) = e1 ++ in_time e2.
Proof. induction 1 as [|[] e1]; cbn; [done|by f_equal|done]. Qed.
(** The three fastest servers decide alone.  Once three shares have arrived, no later answer is
    looked at: a wrong share among the three, well formed and with the right index, is in the
    result whatever the other two servers send, and there is no other set of three to try. *)
Theorem three_fastest_decide e1 : Forall (fun ev => is_deadline ev = false) e1 -> (3 <= length (arrivals e1))%nat ->
  forall urls request later, (dispatch urls request (e1 ++ later)).2 = Ok (take 3 (arrivals e1)) /\ length (take 3 (arrivals e1)) = 3%nat.
Proof.
  intros Hd Hl urls request later. split; [|rewrite length_take; lia]. cbn [dispatch snd]. rewrite collect_spec by (cbn; lia). cbn [app]. f_equal.
  unfold arrivals in *. rewrite in_time_app, omap_app by done. rewrite <- (app_nil_r e1) in Hl at 1. rewrite in_time_app in Hl by done.
  cbn [in_time] in Hl. rewrite app_nil_r in Hl. rewrite take_app_le by done. rewrite <- (app_nil_r e1) at 2. rewrite in_time_app by done.
  cbn [in_time]. by rewrite app_nil_r.
Qed.

(** ** Concrete runs *)
Definition toy_share (idx : Z) : list byte := as_u8 (idx + 1) :: replicate 32 Byte.x07.
Definition toy_answer (idx : Z) : FanEvent := WorkerEnds idx (Answered 200 (inr (toy_share idx))).
(** An answer under the index of another server and a failed one, then shares until the deadline. *)
Definition toy_events : list FanEvent :=
  [WorkerEnds 0 (Answered 200 (inr (toy_share 1))); toy_answer 4; WorkerEnds 2 (Answered 503 (inr [])); toy_answer 1; Deadline; toy_answer 3].
Lemma fan_out_exact_witness : exists shares, (dispatch ["a"; "b"] CloudRequest.w_request toy_events).2 = Ok shares /\ CloudWire.witness_index <$> shares = [5; 2].
Proof.
  destruct (fan_out_exact ["a"; "b"] CloudRequest.w_request toy_events) as (_ & _ & shares & Hd & Hs & _);
    [by apply (bool_decide_unpack (NoDup (workers toy_events))); vm_compute|].
  exists shares. split; [exact Hd|]. rewrite Hs. vm_compute. reflexivity.
Defined.
Lemma three_fastest_decide_witness : (dispatch [] CloudRequest.w_request ([toy_answer 0; toy_answer 3; toy_answer 2] ++ [toy_answer 1; toy_answer 4])).2 =
  Ok (take 3 (arrivals [toy_answer 0; toy_answer 3; toy_answer 2])).
Proof.
  apply (three_fastest_decide [toy_answer 0; toy_answer 3; toy_answer 2]); [by repeat constructor|vm_compute; lia].
Defined.
End Services.
