(* ===== verification/DiscoveryBudget.v ===== *)
(** * Discovery budgets and nonce replay ([crates/umbrella-discovery/src/rate_limit.rs],
    [error.rs])

    The client's hourly and daily query budget with its back-off, and the sliding window of
    server nonces.  The clock is the argument [now] of the call, in seconds.  The abstract
    specifications are the list of accepted times and the list of accepted nonces. *)
From Stdlib Require Import Sorting.Sorted.
From S2P Require Import Prelude Bytes OprfRequest.
Local Open Scope Z_scope.

Module DiscoveryBudget.

Inductive KtBindKind := ProofMissing | ProofMismatch | RootForked | ProofShapeInvalid | LeafPayloadMismatch.

Inductive DiscoveryError :=
| Oprf (e : OprfRequest.OprfError)
| KtBindFailed (kind : KtBindKind)
| ReplayDetected
| AnonIdReuse
| RateLimited (retry_after_secs : Z)
| InvalidPsiBatchSize (got max : Z)
| WireDecode (reason : string)
| CryptoInternal (what : string)
| InsufficientResponses (valid required : Z)
| InputRejected (what : string)
| UsernameForgeDetected.

Definition NONCE_WINDOW_SIZE : Z := 1000.
Definition DEFAULT_BUDGET_PER_HOUR : Z := 100.
Definition DEFAULT_BUDGET_PER_DAY : Z := 5000.
Definition MIN_BACKOFF_SECS : Z := 5.

(** ** The budget *)
Record ClientBudgetState := {
  per_hour : Z;
  per_day : Z;
  timestamps_hour : list Z;
  timestamps_day : list Z;
  burst_misses : Z
}.

Definition with_limits (h d : Z) : ClientBudgetState :=
  {| per_hour := h; per_day := d; timestamps_hour := []; timestamps_day := []; burst_misses := 0 |}.
Definition budget_new : ClientBudgetState := with_limits DEFAULT_BUDGET_PER_HOUR DEFAULT_BUDGET_PER_DAY.

(** [while let Some(&oldest) = q.front() { if now.saturating_sub(oldest) >= w { pop } else { break } }]. *)
Fixpoint expire (w now : Z) (q : list Z) : list Z :=
  match q with
  | oldest :: rest => if w <=? sat_sub now oldest then expire w now rest else q
  | [] => []
  end.

Definition set_queues (s : ClientBudgetState) (h d : list Z) (misses : Z) : ClientBudgetState :=
  {| per_hour := per_hour s; per_day := per_day s; timestamps_hour := h; timestamps_day := d;
     burst_misses := misses |}.

(** [front().map(|&t| t + w - now).unwrap_or(dflt)]. *)
Definition front_free (w now dflt : Z) (q : list Z) : Z :=
  match q with t :: _ => wrap64 (t + w - now) | [] => dflt end.

Definition check_and_register (now : Z) : st ClientBudgetState DiscoveryError unit :=
  let! s := sget in
  let hour := expire 3600 now (timestamps_hour s) in
  let day := expire 86400 now (timestamps_day s) in
  if per_hour s <=? wrap32 (len hour) then
    let misses := sat_add U32_MAX (burst_misses s) 1 in
    let exp_backoff := sat_mul U64_MAX MIN_BACKOFF_SECS (Z.min U64_MAX (2 ^ Z.min misses 8)) in
    let next_free := front_free 3600 now MIN_BACKOFF_SECS hour in
    let retry_after_secs := Z.max exp_backoff next_free in
    let! _ := sput (set_queues s hour day misses) in
    slift (Err (RateLimited retry_after_secs))
  else if per_day s <=? wrap32 (len day) then
    let! _ := sput (set_queues s hour day (burst_misses s)) in
    slift (Err (RateLimited (front_free 86400 now 86400 day)))
  else sput (set_queues s (hour ++ [now]) (day ++ [now]) 0).

Definition current_hourly_count (s : ClientBudgetState) : Z := len (timestamps_hour s).

(** ** The nonce window *)
Record NonceReplayGuard := { seen : gset (list byte); order : list (list byte); cap : Z }.

Definition guard_with_capacity (c : Z) : NonceReplayGuard := {| seen := ∅; order := []; cap := c |}.
Definition guard_new : NonceReplayGuard := guard_with_capacity NONCE_WINDOW_SIZE.

Definition register (nonce : list byte) : st NonceReplayGuard DiscoveryError unit :=
  let! g := sget in
  fail_if bool_decide (nonce ∈ seen g) with ReplayDetected ;;
  let '(s, o) :=
    if cap g <=? len (order g) then
      match order g with
      | evicted :: rest => (seen g ∖ {[ evicted ]}, rest)
      | [] => (seen g, [])
      end
    else (seen g, order g) in
  sput {| seen := {[ nonce ]} ∪ s; order := o ++ [nonce]; cap := cap g |}.

Definition current_size (g : NonceReplayGuard) : Z := len (order g).

(** ** Runs *)

(** Times of the accepted queries of a run, newest last. *)
Fixpoint run (times : list Z) (s : ClientBudgetState) : list Z * ClientBudgetState :=
  match times with
  | [] => ([], s)
  | now :: times =>
      let '(r, s1) := check_and_register now s in
      let '(ok, s2) := run times s1 in
      (match r with Ok _ => now :: ok | _ => ok end, s2)
  end.

Fixpoint run_nonces (ns : list (list byte)) (g : NonceReplayGuard) : list (list byte) * NonceReplayGuard :=
  match ns with
  | [] => ([], g)
  | n :: ns =>
      let '(r, g1) := register n g in
      let '(ok, g2) := run_nonces ns g1 in
      (match r with Ok _ => n :: ok | _ => ok end, g2)
  end.

(** ** The queues hold exactly the recent accepted times *)
Definition recent (w now : Z) (l : list Z) : list Z := filter (fun t => now - t < w) l.

Lemma expire_recent w now q :
  StronglySorted Z.le q -> Forall (fun t => t <= now) q -> 0 < w -> expire w now q = recent w now q.
Proof.
  intros Hs Hn Hw. unfold recent. induction q as [|t q IH]; [done|]. cbn [expire].
  inversion Hs as [|? ? Hs' Hle]; subst. inversion Hn as [|? ? Ht Hn']; subst. unfold sat_sub.
  destruct (w <=? Z.max 0 (now - t)) eqn:He; zbool.
  - rewrite filter_cons_False by lia. by apply IH.
  - symmetry. apply list_filter_all. constructor; [lia|]. rewrite Forall_forall in Hle, Hn' |- *.
    intros x Hx. specialize (Hle x Hx). specialize (Hn' x Hx). lia.
Qed.

Lemma recent_later w t t' l : t <= t' -> recent w t' (recent w t l) = recent w t' l.
Proof. intros Ht. unfold recent. rewrite list_filter_filter. apply list_filter_iff. intros x. lia. Qed.

Lemma recent_app w t l k : recent w t (l ++ k) = recent w t l ++ recent w t k.
Proof. unfold recent. apply filter_app. Qed.

Lemma recent_now w t : 0 < w -> recent w t [t] = [t].
Proof. intros Hw. unfold recent. by rewrite filter_cons_True by lia. Qed.

(** Every window of [w] seconds holds at most [lim] of the times. *)
Definition within (w lim : Z) (acc : list Z) : Prop :=
  forall T, len (filter (fun x => T - w < x <= T) acc) <= lim.

(** The state reached by a run whose accepted times are [acc], at clock [t]. *)
Record tracks (s : ClientBudgetState) (acc : list Z) (t : Z) : Prop := {
  tr_sorted : StronglySorted Z.le acc;
  tr_past : Forall (fun x => 0 <= x <= t) acc;
  tr_hour : timestamps_hour s = recent 3600 t acc;
  tr_day : timestamps_day s = recent 86400 t acc;
  tr_limits : is_u32 (per_hour s) /\ is_u32 (per_day s);
  tr_hour_le : len (timestamps_hour s) <= per_hour s;
  tr_day_le : len (timestamps_day s) <= per_day s;
  tr_hour_window : within 3600 (per_hour s) acc;
  tr_day_window : within 86400 (per_day s) acc
}.

Lemma filter_strongly_sorted (P : Z -> Prop) `{!forall x, Decision (P x)} l :
  StronglySorted Z.le l -> StronglySorted Z.le (filter P l).
Proof.
  induction 1 as [|x l Hs IH Hle]; [constructor|]. rewrite filter_cons. destruct (decide (P x)); [|done].
  constructor; [done|]. rewrite Forall_forall in Hle |- *. intros y Hy%list_elem_of_filter. naive_solver.
Qed.

Lemma snoc_strongly_sorted l x :
  StronglySorted Z.le l -> Forall (fun y => y <= x) l -> StronglySorted Z.le (l ++ [x]).
Proof.
  induction 1 as [|y l Hs IH Hle]; intros Hx; [repeat constructor|]. inversion Hx; subst. cbn.
  constructor; [auto|]. apply Forall_app. split; [done|by repeat constructor].
Qed.

Lemma recent_past w t l : Forall (fun x => 0 <= x <= t) l -> Forall (fun x => x <= t) (recent w t l).
Proof. rewrite !Forall_forall. intros Hl x Hx%list_elem_of_filter. apply Hl. tauto. Qed.

Lemma expired_queue w t now acc :
  StronglySorted Z.le acc -> Forall (fun x => 0 <= x <= t) acc -> t <= now -> 0 < w ->
  expire w now (recent w t acc) = recent w now acc.
Proof.
  intros Hs Hp Ht Hw. rewrite expire_recent; [by apply recent_later|by apply filter_strongly_sorted| |done].
  eapply Forall_impl; [by apply recent_past|]. cbn. lia.
Qed.

Lemma recent_le w t now l : t <= now -> len (recent w now l) <= len (recent w t l).
Proof.
  intros Ht. rewrite <- (recent_later w t now l Ht). unfold recent, len.
  pose proof (length_filter (fun x => now - x < w) (filter (fun x => t - x < w) l)). lia.
Qed.

(** Appending the newest time keeps the windows, if the ones ending there are within. *)
Lemma within_snoc w lim acc now :
  Forall (fun x => 0 <= x <= now) acc -> within w lim acc -> len (recent w now (acc ++ [now])) <= lim ->
  within w lim (acc ++ [now]).
Proof.
  intros Hp Hw Hr T. destruct (decide (T < now)) as [HT|HT].
  - rewrite filter_app, (filter_cons_False _ now) by lia. rewrite app_nil_r. apply Hw.
  - etrans; [|exact Hr]. unfold len, recent. apply inj_le.
    rewrite (list_filter_iff (fun x => T - w < x <= T) (fun x => T - w < x <= T /\ now - x < w)) by (intros x; lia).
    rewrite <- list_filter_filter. apply length_filter.
Qed.

Lemma step_tracks s acc t now r s' :
  tracks s acc t -> t <= now -> 0 <= now -> check_and_register now s = (r, s') ->
  (r = Ok tt /\ tracks s' (acc ++ [now]) now) \/ ((exists k, r = Err (RateLimited k)) /\ tracks s' acc now).
Proof.
  intros [Hs Hp Hh Hd [Uh Ud] Lh Ld Wh Wd] Ht H0. unfold check_and_register, sbind, sget, sput, slift.
  rewrite Hh, Hd in *. rewrite !(expired_queue _ t now) by (done || lia).
  pose proof (recent_le 3600 t now acc Ht). pose proof (recent_le 86400 t now acc Ht).
  pose proof (len_nonneg (recent 3600 now acc)). pose proof (len_nonneg (recent 86400 now acc)).
  unfold is_u32, U32_MAX in *. rewrite !wrap32_id by (unfold is_u32, U32_MAX; lia).
  assert (Hp' : Forall (fun x => 0 <= x <= now) acc) by (eapply Forall_impl; [exact Hp|cbn; lia]).
  destruct (per_hour s <=? _) eqn:E1; zbool.
  { intros [= <- <-]. right. split; [eauto|]. split; cbn; try done; lia. }
  destruct (per_day s <=? _) eqn:E2; zbool.
  { intros [= <- <-]. right. split; [eauto|]. split; cbn; try done; lia. }
  intros [= <- <-]. left. split; [done|]. split; cbn; try done.
  - apply snoc_strongly_sorted; [done|]. eapply Forall_impl; [exact Hp'|cbn; lia].
  - apply Forall_app. split; [done|repeat constructor; lia].
  - by rewrite recent_app, recent_now.
  - by rewrite recent_app, recent_now.
  - rewrite len_app, len_cons, len_nil. lia.
  - rewrite len_app, len_cons, len_nil. lia.
  - apply within_snoc; [done..|]. rewrite recent_app, recent_now, len_app, len_cons, len_nil; lia.
  - apply within_snoc; [done..|]. rewrite recent_app, recent_now, len_app, len_cons, len_nil; lia.
Qed.

(** Clock readings of a run: never backwards. *)
Definition monotone_from (t : Z) (times : list Z) : Prop :=
  Forall (fun x => t <= x) times /\ StronglySorted Z.le times.

Lemma check_limits now s r s' :
  check_and_register now s = (r, s') -> per_hour s' = per_hour s /\ per_day s' = per_day s.
Proof.
  unfold check_and_register, sbind, sget, sput, slift. repeat case_match; by intros [= <- <-].
Qed.

Lemma run_tracks_upto times : forall s acc t now ok s',
  tracks s acc t -> 0 <= t -> t <= now -> monotone_from t times -> Forall (fun x => x <= now) times ->
  run times s = (ok, s') ->
  exists t', t' <= now /\ tracks s' (acc ++ ok) t' /\ per_hour s' = per_hour s /\ per_day s' = per_day s.
Proof.
  induction times as [|u times IH]; intros s acc t now ok s' Htr H0 Hnow [Hf Hs] Hn Hr; cbn [run] in Hr.
  { injection Hr as <- <-. exists t. rewrite app_nil_r. done. }
  inversion Hf as [|? ? Htn _]; subst. inversion Hs as [|? ? Hs' Hle]; subst. inversion Hn; subst.
  destruct (check_and_register u s) as [r s1] eqn:Hc. destruct (run times s1) as [ok1 s2] eqn:Hr1.
  injection Hr as <- <-. destruct (check_limits _ _ _ _ Hc) as [<- <-].
  destruct (step_tracks _ _ _ _ _ _ Htr Htn ltac:(lia) Hc) as [[-> Htr1]|[[k ->] Htr1]];
    destruct (IH _ _ _ now _ _ Htr1 ltac:(lia) ltac:(lia) (conj Hle Hs') ltac:(done) Hr1) as (t' & Ht' & Hfin & ?);
    exists t'; (split; [lia|]); (split; [|done]); [|done].
  by rewrite <- app_assoc in Hfin.
Qed.

Lemma tracks_new h d t : is_u32 h -> is_u32 d -> tracks (with_limits h d) [] t.
Proof.
  intros Hh Hd. unfold is_u32 in *. split; cbn; rewrite ?len_nil; try done; try lia; try constructor;
    intros T; rewrite filter_nil, len_nil; lia.
Qed.

Lemma run_sublist times : forall s ok s', run times s = (ok, s') -> sublist ok times.
Proof.
  induction times as [|u times IH]; intros s ok s' Hr; cbn [run] in Hr; [by injection Hr as <- <-|].
  destruct (check_and_register u s) as [r s1], (run times s1) as [ok1 s2] eqn:Hr1.
  apply (f_equal fst) in Hr. cbn in Hr. subst ok.
  destruct r; [apply sublist_skip|apply sublist_cons..]; eauto.
Qed.

(** ** Waiting as told *)

(** The caller of the budget: on a refusal it waits the time it was told and asks again. *)
Fixpoint follow (n : nat) (now : Z) (s : ClientBudgetState) : option Z :=
  match n with
  | O => None
  | S n => match check_and_register now s with
           | (Ok _, _) => Some now
           | (Err (RateLimited k), s') => follow n (now + k) s'
           | _ => None
           end
  end.

Lemma front_expires w now now' acc f q :
  recent w now acc = f :: q -> now <= now' -> f + w <= now' -> len (recent w now' acc) < len (recent w now acc).
Proof.
  intros Hr Hn Hf. rewrite <- (recent_later w now now' acc Hn), Hr. unfold recent, len.
  rewrite filter_cons_False by lia. pose proof (length_filter (fun t => now' - t < w) q). cbn [length]. lia.
Qed.

Lemma front_free_spec w now dflt acc :
  Forall (fun x => 0 <= x <= now) acc -> 0 < w <= 86400 -> 0 < len (recent w now acc) ->
  0 < front_free w now dflt (recent w now acc) <= w /\
  forall now', now + front_free w now dflt (recent w now acc) <= now' ->
    len (recent w now' acc) < len (recent w now acc).
Proof.
  intros Hp Hw Hl. destruct (recent w now acc) as [|f q] eqn:Hr; [done|].
  assert (Hin : f ∈ recent w now acc) by (rewrite Hr; left).
  apply list_elem_of_filter in Hin as [Hfw Hin]. rewrite Forall_forall in Hp. specialize (Hp f Hin).
  cbn [front_free]. rewrite wrap64_id by (unfold is_u64, U64_MAX; lia). split; [lia|].
  intros now' Hn. rewrite <- Hr. apply (front_expires w now now' acc f q Hr); lia.
Qed.

(** What a refusal says: after the told time the hourly budget is free, and so is the daily one
    unless the refusal was the hourly one. *)
Lemma refusal s acc t now e s' :
  tracks s acc t -> t <= now -> 0 <= now -> 0 < per_hour s -> 0 < per_day s ->
  check_and_register now s = (Err e, s') ->
  exists k, e = RateLimited k /\ per_hour s' = per_hour s /\ per_day s' = per_day s /\
    forall now', now + k <= now' ->
      len (recent 3600 now' acc) < per_hour s /\
      (0 < k <= 3600 /\ per_hour s <= len (recent 3600 now acc) \/
       0 < k <= 86400 /\ len (recent 86400 now' acc) < per_day s).
Proof.
  intros [Hs Hp Hh Hd [Uh Ud] Lh Ld Wh Wd] Ht H0 P1 P2. unfold check_and_register, sbind, sget, sput, slift.
  rewrite Hh, Hd in *. rewrite !(expired_queue _ t now) by (done || lia).
  pose proof (recent_le 3600 t now acc Ht). pose proof (recent_le 86400 t now acc Ht).
  pose proof (len_nonneg (recent 3600 now acc)). pose proof (len_nonneg (recent 86400 now acc)).
  unfold is_u32, U32_MAX in *. rewrite !wrap32_id by (unfold is_u32, U32_MAX; lia).
  assert (Hp' : Forall (fun x => 0 <= x <= now) acc) by (eapply Forall_impl; [exact Hp|cbn; lia]).
  destruct (per_hour s <=? _) eqn:E1; zbool.
  - intros [= <- <-].
    destruct (front_free_spec 3600 now MIN_BACKOFF_SECS acc Hp' ltac:(lia) ltac:(lia)) as [Hk Hfree].
    eexists. split; [done|]. split; [done|]. split; [done|]. intros now' Hn.
    specialize (Hfree now' ltac:(lia)). split; [lia|]. left. split; [|done].
    unfold sat_mul, MIN_BACKOFF_SECS, U64_MAX in *. set (m := sat_add _ _ _) in *.
    assert (Hb : 2 ^ Z.min m 8 <= 2 ^ 8) by (apply Z.pow_le_mono_r; lia).
    revert Hb. generalize (2 ^ Z.min m 8). lia.
  - destruct (per_day s <=? _) eqn:E2; zbool; [|done]. intros [= <- <-].
    destruct (front_free_spec 86400 now 86400 acc Hp' ltac:(lia) ltac:(lia)) as [Hk Hfree].
    eexists. split; [done|]. split; [done|]. split; [done|]. intros now' Hn.
    specialize (Hfree now' ltac:(lia)). pose proof (recent_le 3600 now now' acc ltac:(lia)). lia.
Qed.

(** With room in both windows the query is accepted, and with room in the hourly one the only
    refusal left is the daily one. *)
Lemma check_free s acc t now :
  tracks s acc t -> t <= now -> 0 <= now -> len (recent 3600 now acc) < per_hour s ->
  len (recent 86400 now acc) < per_day s -> exists s', check_and_register now s = (Ok tt, s').
Proof.
  intros Htr Ht H0 L1 L2. destruct (check_and_register now s) as [r s'] eqn:Hc. exists s'. f_equal.
  revert Hc. destruct Htr as [Hs Hp Hh Hd [Uh Ud] _ _ _ _]. unfold check_and_register, sbind, sget, sput, slift.
  rewrite Hh, Hd. rewrite !(expired_queue _ t now) by (done || lia). unfold is_u32, U32_MAX in *.
  pose proof (len_nonneg (recent 3600 now acc)). pose proof (len_nonneg (recent 86400 now acc)).
  rewrite !wrap32_id by (unfold is_u32, U32_MAX; lia).
  rewrite (proj2 (Z.leb_gt _ _) L1), (proj2 (Z.leb_gt _ _) L2). by intros [= <- _].
Qed.

Lemma refused_tracks s acc t now e s' :
  tracks s acc t -> t <= now -> 0 <= now -> check_and_register now s = (Err e, s') -> tracks s' acc now.
Proof. intros Htr Ht H0 Hc. by destruct (step_tracks _ _ _ _ _ _ Htr Ht H0 Hc) as [[? _]|[_ ?]]. Qed.

Lemma never_panics s acc t now s' :
  tracks s acc t -> t <= now -> 0 <= now -> check_and_register now s = (Panic, s') -> False.
Proof. intros Htr Ht H0 Hc. by destruct (step_tracks _ _ _ _ _ _ Htr Ht H0 Hc) as [[? _]|[[? ?] _]]. Qed.

(** With the hourly budget free, at most one wait for the daily one remains. *)
Lemma follow_hour_free s acc t now :
  tracks s acc t -> t <= now -> 0 <= now -> 0 < per_hour s -> 0 < per_day s ->
  len (recent 3600 now acc) < per_hour s ->
  exists T, follow 2 now s = Some T /\ now <= T <= now + 86400.
Proof.
  intros Htr Ht H0 P1 P2 L. cbn [follow]. destruct (check_and_register now s) as [[[]|e|] s'] eqn:Hc.
  - exists now. split; [done|lia].
  - pose proof (refused_tracks _ _ _ _ _ _ Htr Ht H0 Hc) as Htr'.
    destruct (refusal _ _ _ _ _ _ Htr Ht H0 P1 P2 Hc) as (k & -> & E1 & E2 & Hk).
    destruct (Hk (now + k) ltac:(lia)) as [L1 [[_ ?]|[? L2]]]; [lia|].
    destruct (check_free s' acc now (now + k)) as [s2 Hs2]; [done|lia..|rewrite E1; lia|rewrite E2; lia|].
    rewrite Hs2. exists (now + k). split; [done|lia].
  - by destruct (never_panics _ _ _ _ _ Htr Ht H0 Hc).
Qed.

(** A client that always waits as long as it was told is served within three attempts and
    within an hour and a day, from any state a run of the budget reaches: the hourly refusal
    is followed by at most one daily refusal, and that by an acceptance. *)
Theorem retry_converges h d times ok s now :
  is_u32 h -> is_u32 d -> 0 < h -> 0 < d -> monotone_from 0 times ->
  run times (with_limits h d) = (ok, s) -> Forall (fun t => t <= now) times -> 0 <= now ->
  exists T, follow 3 now s = Some T /\ now <= T <= now + 3600 + 86400.
Proof.
  intros Hh Hd P1 P2 Hm Hr Hn H0.
  destruct (run_tracks_upto times _ [] 0 now ok s (tracks_new h d 0 Hh Hd) ltac:(lia) H0 Hm Hn Hr)
    as (t & Ht & Htr & E1 & E2). cbn [with_limits per_hour per_day] in E1, E2. cbn [app] in Htr.
  cbn [follow]. destruct (check_and_register now s) as [[[]|e|] s'] eqn:Hc.
  - exists now. split; [done|lia].
  - pose proof (refused_tracks _ _ _ _ _ _ Htr Ht H0 Hc) as Htr'.
    destruct (refusal _ _ _ _ _ _ Htr Ht H0 ltac:(lia) ltac:(lia) Hc) as (k & -> & E3 & E4 & Hk).
    destruct (Hk (now + k) ltac:(lia)) as [L1 Hcase].
    destruct (follow_hour_free s' ok now (now + k)) as (T & HT & HB); [done|lia..|].
    exists T. split; [exact HT|]. destruct Hcase as [[? _]|[? L2]]; [lia|].
    destruct (check_free s' ok now (now + k)) as [s2 Hs2]; [done|lia..|].
    cbn [follow] in HT. rewrite Hs2 in HT. injection HT as <-. lia.
  - by destruct (never_panics _ _ _ _ _ Htr Ht H0 Hc).
Qed.

Lemma retry_converges_witness :
  exists T, follow 3 5 (snd (run [0; 2; 4] (with_limits 2 3))) = Some T /\ 5 <= T <= 5 + 3600 + 86400.
Proof.
  eapply (retry_converges 2 3 [0; 2; 4] [0; 2]); [done|done|lia|lia| | | |lia].
  - split; repeat constructor; lia.
  - by vm_compute.
  - repeat constructor; lia.
Defined.

(** ** Budgets after any history, under a clock that steps back *)

(** After any calls at all the queues are no longer than their budgets. *)
Definition bounded (s : ClientBudgetState) : Prop :=
  is_u32 (per_hour s) /\ is_u32 (per_day s) /\
  len (timestamps_hour s) <= per_hour s /\ len (timestamps_day s) <= per_day s.

Lemma len_expire w now q : len (expire w now q) <= len q.
Proof.
  induction q as [|t q IH]; [done|]. cbn [expire]. destruct (_ <=? _); [|done].
  etrans; [exact IH|]. rewrite len_cons. lia.
Qed.

Lemma step_bounded now s r s' : bounded s -> check_and_register now s = (r, s') -> bounded s'.
Proof.
  intros (Uh & Ud & Lh & Ld). unfold check_and_register, sbind, sget, sput, slift, bounded.
  pose proof (len_expire 3600 now (timestamps_hour s)). pose proof (len_expire 86400 now (timestamps_day s)).
  pose proof (len_nonneg (expire 3600 now (timestamps_hour s))). pose proof (len_nonneg (expire 86400 now (timestamps_day s))).
  unfold is_u32, U32_MAX in *. rewrite !wrap32_id by (unfold is_u32, U32_MAX; lia).
  destruct (per_hour s <=? _) eqn:E1; zbool; [|destruct (per_day s <=? _) eqn:E2; zbool];
    intros [= <- <-]; cbn [set_queues per_hour per_day timestamps_hour timestamps_day]; rewrite ?len_app, ?len_cons, ?len_nil;
    change (len (@nil Z)) with 0; repeat split; lia.
Qed.

Lemma run_limits times : forall s ok s', run times s = (ok, s') -> per_hour s' = per_hour s /\ per_day s' = per_day s.
Proof.
  induction times as [|now times IH]; intros s ok s' Hr; cbn [run] in Hr; [by injection Hr as _ <-|].
  destruct (check_and_register now s) as [r s1] eqn:Hc. destruct (run times s1) as [ok1 s2] eqn:Hr1.
  injection Hr as _ <-. destruct (check_limits _ _ _ _ Hc) as [<- <-]. by eapply IH.
Qed.

Lemma run_bounded times s ok s' : bounded s -> run times s = (ok, s') -> bounded s'.
Proof.
  revert s ok. induction times as [|now times IH]; intros s ok Hb Hr; cbn [run] in Hr; [by injection Hr as _ <-|].
  destruct (check_and_register now s) as [r s1] eqn:Hc. destruct (run times s1) as [ok1 s2] eqn:Hr1.
  injection Hr as _ <-. eapply IH; [by eapply step_bounded|done].
Qed.

(** Entries that are not expired survive, whatever lies before them in the queue. *)
Lemma recent_expire w now q : 0 < w -> sublist (recent w now q) (expire w now q).
Proof.
  intros Hw. unfold recent. induction q as [|t q IH]; [done|]. cbn [expire]. unfold sat_sub.
  destruct (w <=? Z.max 0 (now - t)) eqn:He; zbool; [by rewrite filter_cons_False by lia|]. apply sublist_filter.
Qed.

Lemma filter_sublist_mono (P : Z -> Prop) `{!forall x, Decision (P x)} l k : sublist l k -> sublist (filter P l) (filter P k).
Proof. induction 1; rewrite ?filter_cons; try case_decide; auto using sublist_nil, sublist_skip, sublist_cons. Qed.

Lemma recent_kept w t now acc q :
  0 < w -> t <= now -> sublist (recent w t acc) q -> sublist (recent w now acc) (expire w now q).
Proof.
  intros Hw Ht Hq. etrans; [|by apply recent_expire]. rewrite <- (recent_later w t now acc Ht). unfold recent at 1 3.
  by apply filter_sublist_mono.
Qed.
(** A stretch of calls with accepted times [acc], at clock [t]: what is recent of it is in the
    queues, whatever they held before. *)
Record keeps (s : ClientBudgetState) (acc : list Z) (t : Z) : Prop := {
  kp_past : Forall (fun x => 0 <= x <= t) acc;
  kp_hour : sublist (recent 3600 t acc) (timestamps_hour s);
  kp_day : sublist (recent 86400 t acc) (timestamps_day s);
  kp_bounded : bounded s;
  kp_hour_window : within 3600 (per_hour s) acc;
  kp_day_window : within 86400 (per_day s) acc
}.

Lemma accept_within w lim t now acc q :
  0 < w -> t <= now -> Forall (fun x => 0 <= x <= t) acc -> sublist (recent w t acc) q -> within w lim acc ->
  len (expire w now q) < lim ->
  sublist (recent w now (acc ++ [now])) (expire w now q ++ [now]) /\ within w lim (acc ++ [now]).
Proof.
  intros Hw Ht Hp Hq Hin Hl. pose proof (recent_kept w t now acc q Hw Ht Hq) as Hk.
  rewrite recent_app, recent_now by done. split; [by apply sublist_app|].
  apply within_snoc; [eapply Forall_impl; [exact Hp|cbn; lia]|done|].
  rewrite recent_app, recent_now, len_app, len_cons, len_nil by done. apply sublist_length in Hk. unfold len in *. lia.
Qed.

Lemma budget_step_keeps s acc t now r s' :
  keeps s acc t -> t <= now -> 0 <= now -> check_and_register now s = (r, s') ->
  (r = Ok tt /\ keeps s' (acc ++ [now]) now) \/ ((exists k, r = Err (RateLimited k)) /\ keeps s' acc now).
Proof.
  intros [Hp Hh Hd Hb Wh Wd] Ht H0 Hc. pose proof (step_bounded _ _ _ _ Hb Hc) as Hb'.
  assert (Hp' : Forall (fun x => 0 <= x <= now) acc) by (eapply Forall_impl; [exact Hp|cbn; lia]).
  destruct Hb as (Uh & Ud & Lh & Ld). revert Hc. unfold check_and_register, sbind, sget, sput, slift.
  pose proof (len_expire 3600 now (timestamps_hour s)). pose proof (len_expire 86400 now (timestamps_day s)).
  pose proof (len_nonneg (expire 3600 now (timestamps_hour s))). pose proof (len_nonneg (expire 86400 now (timestamps_day s))).
  unfold is_u32, U32_MAX in Uh, Ud. rewrite !wrap32_id by (unfold is_u32, U32_MAX; lia).
  pose proof (recent_kept 3600 t now acc _ ltac:(lia) Ht Hh). pose proof (recent_kept 86400 t now acc _ ltac:(lia) Ht Hd).
  destruct (per_hour s <=? _) eqn:E1; zbool.
  { intros [= <- <-]. right. split; [eauto|]. by split. }
  destruct (per_day s <=? _) eqn:E2; zbool.
  { intros [= <- <-]. right. split; [eauto|]. by split. }
  destruct (accept_within 3600 (per_hour s) t now acc (timestamps_hour s)) as [Sh Wh']; [done..|].
  destruct (accept_within 86400 (per_day s) t now acc (timestamps_day s)) as [Sd Wd']; [done..|].
  intros [= <- <-]. left. split; [done|]. split; try done.
  apply Forall_app. split; [done|repeat constructor; lia].
Qed.

Lemma run_keeps times : forall s acc t ok s',
  keeps s acc t -> 0 <= t -> monotone_from t times -> run times s = (ok, s') ->
  exists t', keeps s' (acc ++ ok) t' /\ per_hour s' = per_hour s /\ per_day s' = per_day s.
Proof.
  induction times as [|u times IH]; intros s acc t ok s' Hk H0 [Hf Hs] Hr; cbn [run] in Hr.
  { injection Hr as <- <-. exists t. by rewrite app_nil_r. }
  inversion Hf as [|? ? Htn _]; subst. inversion Hs as [|? ? Hs' Hle]; subst.
  destruct (check_and_register u s) as [r s1] eqn:Hc. destruct (run times s1) as [ok1 s2] eqn:Hr1.
  injection Hr as <- <-. destruct (check_limits _ _ _ _ Hc) as [<- <-].
  destruct (budget_step_keeps _ _ _ _ _ _ Hk Htn ltac:(lia) Hc) as [[-> Hk1]|[[k ->] Hk1]];
    destruct (IH _ _ _ _ _ Hk1 ltac:(lia) (conj Hle Hs') Hr1) as (t' & Hfin & ?); exists t'; (split; [|done]); [|done].
  by rewrite <- app_assoc in Hfin.
Qed.

(** C35. After any calls whatever, with any clock readings: as long as the clock then does not
    step back, no window of 3600 seconds contains more than the hourly budget of the queries
    accepted since and none of 86400 seconds more than the daily budget, and the accepted
    queries are among the calls, in their order.  (With [before] empty: under a clock that never
    steps back the budgets hold for the whole run.) *)
Theorem budget_respected h d before times ok0 s0 ok s :
  is_u32 h -> is_u32 d -> Forall is_u64 times -> StronglySorted Z.le times ->
  run before (with_limits h d) = (ok0, s0) -> run times s0 = (ok, s) ->
  within 3600 h ok /\ within 86400 d ok /\ sublist ok times.
Proof.
  intros Hh Hd Hu Hs Hb Hr. destruct (run_limits _ _ _ _ Hb) as [E1 E2]. cbn [with_limits per_hour per_day] in E1, E2.
  assert (Hk : keeps s0 [] 0).
  { split; try done; try apply sublist_nil_l; [|intros T; cbn; rewrite ?E1, ?E2; apply Hh || apply Hd..].
    eapply run_bounded; [|exact Hb]. unfold bounded. cbn. repeat split; try apply Hh; try apply Hd. }
  destruct (run_keeps times s0 [] 0 ok s Hk ltac:(lia)) as (t & [_ _ _ _ Wh Wd] & E3 & E4); [|done|].
  { split; [|done]. eapply Forall_impl; [exact Hu|]. unfold is_u64. lia. }
  cbn [app] in Wh, Wd. rewrite E3, E1 in Wh. rewrite E4, E2 in Wd. split; [done|]. split; [done|].
  by apply (run_sublist times s0 ok s).
Qed.

(** The clock jumped ahead and was set back: the calls that follow are within the budget. *)
Lemma budget_respected_witness :
  run [0; 0; 4000] (with_limits 2 5) = ([0; 0; 4000], (run [0; 0; 4000] (with_limits 2 5)).2) /\
  within 3600 2 [1] /\ within 86400 5 [1] /\ sublist [1] [1; 2].
Proof.
  split; [by vm_compute|].
  eapply (budget_respected 2 5 [0; 0; 4000] [1; 2]); [done|done|repeat constructor; done|repeat constructor; lia|by vm_compute|by vm_compute].
Defined.

(** Across a step back the budget does not hold: with two queries per hour, a clock that jumps
    ahead by more than an hour and is set back lets three queries of the first seconds through. *)
Example budget_exceeded_by_step_back :
  (run [0; 0; 4000; 1] (with_limits 2 5)).1 = [0; 0; 4000; 1] /\ ~ within 3600 2 [0; 0; 4000; 1].
Proof. split; [by vm_compute|]. intros Hw. specialize (Hw 1). vm_compute in Hw. by apply Hw. Qed.

(** ** The window holds exactly the last accepted nonces *)
Definition window (c : Z) (acc : list (list byte)) : list (list byte) :=
  drop (length acc - Z.to_nat (Z.max c 1)) acc.

Record guards (g : NonceReplayGuard) (c : Z) (acc : list (list byte)) : Prop := {
  gd_cap : cap g = c;
  gd_order : order g = window c acc;
  gd_seen : seen g = list_to_set (order g);
  gd_nodup : NoDup (order g)
}.

Lemma window_snoc c acc n :
  window c (acc ++ [n]) =
    (if c <=? len (window c acc) then tail (window c acc) else window c acc) ++ [n].
Proof.
  unfold window, len. rewrite length_app, length_drop. cbn [length]. set (m := Z.to_nat (Z.max c 1)).
  assert (1 <= m)%nat by lia. rewrite drop_app_le by lia. f_equal.
  destruct (c <=? _) eqn:E; zbool; [|f_equal; lia].
  destruct (decide (m <= length acc)%nat).
  - replace (length acc + 1 - m)%nat with (length acc - m + 1)%nat by lia. rewrite <- drop_drop. by destruct (drop _ acc).
  - destruct acc; [by rewrite !drop_nil|]. cbn [length] in *. lia.
Qed.

Lemma register_step g c acc n r g' :
  guards g c acc -> register n g = (r, g') ->
  (n ∈ window c acc /\ r = Err ReplayDetected /\ g' = g) \/
  (n ∉ window c acc /\ r = Ok tt /\ guards g' c (acc ++ [n])).
Proof.
  intros [Hc Ho Hs Hd]. unfold register, sbind, sget, sput, sguard, slift.
  case_bool_decide as Hin; rewrite Hs, elem_of_list_to_set, Ho in Hin.
  { intros [= <- <-]. by left. }
  rewrite Hc. rewrite Ho in *. destruct (c <=? len (window c acc)) eqn:E; [destruct (window c acc) as [|e q] eqn:Hw|];
    rewrite ?Hw in *; intros [= <- <-]; right; (split; [done|]); (split; [done|]); split; cbn; rewrite ?window_snoc, ?Hw, ?E, ?Hs; try done.
  - apply NoDup_singleton.
  - apply NoDup_cons in Hd as [He Hd]. apply leibniz_equiv_iff. set_solver.
  - apply NoDup_cons in Hd as [He Hd]. apply NoDup_app. pose proof (NoDup_singleton n). set_solver.
  - apply leibniz_equiv_iff. set_solver.
  - apply NoDup_app. pose proof (NoDup_singleton n). set_solver.
Qed.

Lemma run_guards ns : forall g c acc ok g',
  guards g c acc -> run_nonces ns g = (ok, g') -> guards g' c (acc ++ ok).
Proof.
  induction ns as [|n ns IH]; intros g c acc ok g' Hg Hr; cbn [run_nonces] in Hr.
  { injection Hr as <- <-. by rewrite app_nil_r. }
  destruct (register n g) as [r g1] eqn:Hreg, (run_nonces ns g1) as [ok1 g2] eqn:Hr1. injection Hr as <- <-.
  destruct (register_step _ _ _ _ _ _ Hg Hreg) as [(_ & -> & ->)|(_ & -> & Hg1)]; [by eapply IH|].
  specialize (IH _ _ _ _ _ Hg1 Hr1). by rewrite <- app_assoc in IH.
Qed.

(** After any sequence of nonces the guard refuses exactly the last [cap] accepted ones (the
    last one if the capacity is zero): the queue is that window, without repetition, and the set
    kept beside it never disagrees with it. *)
Theorem nonce_window_exact c ns ok g :
  run_nonces ns (guard_with_capacity c) = (ok, g) ->
  order g = window c ok /\ seen g = list_to_set (order g) /\ NoDup (order g) /\
  current_size g <= Z.max c 1 /\
  forall n, fst (register n g) = if decide (n ∈ window c ok) then Err ReplayDetected else Ok tt.
Proof.
  intros Hr. assert (Hg : guards g c ok).
  { apply (run_guards ns _ c [] ok g) in Hr; [done|]. by split; [|unfold window; rewrite drop_nil| |constructor]. }
  pose proof Hg as [_ Ho Hs Hd]. split_and!; [done..| |].
  - unfold current_size, len. rewrite Ho. unfold window. rewrite length_drop. lia.
  - intros n. destruct (register n g) as [r g'] eqn:Hreg.
    destruct (register_step _ _ _ _ _ _ Hg Hreg) as [(Hn & -> & _)|(Hn & -> & _)]; by case_decide.
Qed.

Lemma nonce_window_exact_witness :
  let n (b : byte) := replicate 16 b in
  let g := snd (run_nonces [n Byte.x01; n Byte.x02; n Byte.x01; n Byte.x03; n Byte.x01] (guard_with_capacity 2)) in
  order g = window 2 [n Byte.x01; n Byte.x02; n Byte.x03; n Byte.x01] /\
  fst (register (n Byte.x03) g) = Err ReplayDetected.
Proof.
  intros n g. destruct (nonce_window_exact 2 [n Byte.x01; n Byte.x02; n Byte.x01; n Byte.x03; n Byte.x01]
    [n Byte.x01; n Byte.x02; n Byte.x03; n Byte.x01] g) as (Ho & _ & _ & _ & Hn); [by vm_compute|].
  split; [exact Ho|]. rewrite Hn. by vm_compute.
Defined.
End DiscoveryBudget.
