(* ===== verification/DiscoveryWire.v ===== *)
(** * Discovery wire formats and anonymous ids ([crates/umbrella-discovery/src/wire.rs],
    [anonymous_query.rs], [psi.rs])

    Requests and responses of contact discovery and username lookup, with the fixed-width and
    the length-prefixed fields of the source, and the derivation of the pseudonym a client
    shows to each server.  HKDF is a parameter. *)
From S2P Require Import Prelude Bytes DeviceAuth OprfRequest DiscoveryBudget.
Local Open Scope string_scope.
Local Open Scope list_scope.
Local Open Scope Z_scope.

Module DiscoveryWire.
Import DiscoveryBudget.

Definition WIRE_VERSION : Z := 1.
Definition POINT_LEN : Z := 32.
Definition ANON_ID_LEN : Z := 32.
Definition DEVICE_PUBKEY_LEN : Z := 32.
Definition SERVER_NONCE_LEN : Z := 32.
Definition TRANSCRIPT_TAG_LEN : Z := 32.
Definition NODE_HASH_LEN : Z := 32.
Definition MAX_PSI_BATCH : Z := 1024.
Definition MAX_USERNAME_RECORD_LEN : Z := 256.

Definition bad (reason : string) : DiscoveryError := WireDecode reason.

(** ** Entries of a batch: two 32-byte fields each *)
Record PsiQueryEntry := { q_anon_id : list byte; q_blinded : list byte }.
Record PsiResponseEntry := { r_anon_id : list byte; r_evaluation : list byte }.

(** [for _ in 0..n { a = bytes[pos..pos+32]; pos += 32; b = bytes[pos..pos+32]; pos += 32; push }]. *)
Fixpoint read_pairs {A} (mk : list byte -> list byte -> A) (n : nat) (pos : Z) (bytes : list byte)
  : res DiscoveryError (list A * Z) :=
  match n with
  | O => Ok ([], pos)
  | S n =>
      let? a := slice pos (pos + ANON_ID_LEN) bytes in
      let pos := pos + ANON_ID_LEN in
      let? b := slice pos (pos + POINT_LEN) bytes in
      let pos := pos + POINT_LEN in
      let? (rest, pos) := read_pairs mk n pos bytes in
      Ok (mk a b :: rest, pos)
  end.

(** ** [PsiRequest] *)
Record PsiRequest := {
  pq_version : Z;
  pq_entries : list PsiQueryEntry;
  pq_client_nonce : list byte;
  pq_witness_index : Z
}.

Definition psi_request_encode (r : PsiRequest) : list byte :=
  [as_u8 (pq_version r)] ++ [as_u8 (pq_witness_index r)] ++ to_be 2 (len (pq_entries r)) ++
  concat (map (fun e => q_anon_id e ++ q_blinded e) (pq_entries r)) ++ pq_client_nonce r.

Definition psi_request_decode (bytes : list byte) : res DiscoveryError PsiRequest :=
  reject len bytes <? 1 + 1 + 2 + SERVER_NONCE_LEN with bad "psi request bytes too short" ;;
  let? version := index 0 bytes in
  reject negb (u8 version =? WIRE_VERSION) with bad "psi request wire version mismatch" ;;
  let? witness_index := index 1 bytes in
  let? b2 := index 2 bytes in
  let? b3 := index 3 bytes in
  let n := from_be ([b2] ++ [b3]) in
  reject (n =? 0) || (MAX_PSI_BATCH <? n) with bad "psi request batch size out of range" ;;
  let body_len := n * (ANON_ID_LEN + POINT_LEN) in
  let expected_len := 4 + body_len + SERVER_NONCE_LEN in
  reject negb (len bytes =? expected_len) with bad "psi request length mismatch" ;;
  let? (entries, pos) := read_pairs Build_PsiQueryEntry (Z.to_nat n) 4 bytes in
  let? client_nonce := slice pos (pos + SERVER_NONCE_LEN) bytes in
  Ok {| pq_version := u8 version; pq_entries := entries; pq_client_nonce := client_nonce;
        pq_witness_index := u8 witness_index |}.

(** ** [PsiResponse] *)
Record PsiResponse := {
  pr_version : Z;
  pr_entries : list PsiResponseEntry;
  pr_server_nonce : list byte;
  pr_transcript_tag : list byte
}.

Definition psi_response_encode (r : PsiResponse) : list byte :=
  [as_u8 (pr_version r)] ++ to_be 2 (len (pr_entries r)) ++
  concat (map (fun e => r_anon_id e ++ r_evaluation e) (pr_entries r)) ++
  pr_server_nonce r ++ pr_transcript_tag r.

Definition psi_response_decode (bytes : list byte) : res DiscoveryError PsiResponse :=
  reject len bytes <? 1 + 2 + SERVER_NONCE_LEN + TRANSCRIPT_TAG_LEN with bad "psi response bytes too short" ;;
  let? version := index 0 bytes in
  reject negb (u8 version =? WIRE_VERSION) with bad "psi response wire version mismatch" ;;
  let? b1 := index 1 bytes in
  let? b2 := index 2 bytes in
  let n := from_be ([b1] ++ [b2]) in
  reject (n =? 0) || (MAX_PSI_BATCH <? n) with bad "psi response batch size out of range" ;;
  let body_len := n * (ANON_ID_LEN + POINT_LEN) in
  let expected := 3 + body_len + SERVER_NONCE_LEN + TRANSCRIPT_TAG_LEN in
  reject negb (len bytes =? expected) with bad "psi response length mismatch" ;;
  let? (entries, pos) := read_pairs Build_PsiResponseEntry (Z.to_nat n) 3 bytes in
  let? server_nonce := slice pos (pos + SERVER_NONCE_LEN) bytes in
  let pos := pos + SERVER_NONCE_LEN in
  let? transcript_tag := slice pos (pos + TRANSCRIPT_TAG_LEN) bytes in
  Ok {| pr_version := u8 version; pr_entries := entries; pr_server_nonce := server_nonce;
        pr_transcript_tag := transcript_tag |}.

(** ** [UsernameRequest] *)
Record UsernameRequest := {
  uq_version : Z;
  uq_witness_index : Z;
  uq_anon_id : list byte;
  uq_blinded : list byte;
  uq_client_nonce : list byte
}.

Definition username_request_encode (r : UsernameRequest) : list byte :=
  [as_u8 (uq_version r)] ++ [as_u8 (uq_witness_index r)] ++ uq_anon_id r ++ uq_blinded r ++ uq_client_nonce r.

Definition username_request_decode (bytes : list byte) : res DiscoveryError UsernameRequest :=
  let expected := 1 + 1 + ANON_ID_LEN + POINT_LEN + SERVER_NONCE_LEN in
  reject negb (len bytes =? expected) with bad "username request length mismatch" ;;
  let? version := index 0 bytes in
  reject negb (u8 version =? WIRE_VERSION) with bad "username request wire version mismatch" ;;
  let? witness_index := index 1 bytes in
  let? anon_id := slice 2 (2 + ANON_ID_LEN) bytes in
  let off := 2 + ANON_ID_LEN in
  let? blinded := slice off (off + POINT_LEN) bytes in
  let? client_nonce := slice (off + POINT_LEN) (off + POINT_LEN + SERVER_NONCE_LEN) bytes in
  Ok {| uq_version := WIRE_VERSION; uq_witness_index := u8 witness_index; uq_anon_id := anon_id;
        uq_blinded := blinded; uq_client_nonce := client_nonce |}.

(** ** [UsernameResponse] *)
Record KtInclusionProof := {
  epoch_root : list byte;
  tree_size : Z;
  leaf_index : Z;
  leaf_payload : list byte;
  siblings : list (list byte)
}.

Record UsernameResponse := {
  ur_version : Z;
  ur_anon_id : list byte;
  ur_evaluation : list byte;
  encrypted_record : list byte;
  kt_proof : KtInclusionProof;
  ur_server_nonce : list byte;
  ur_transcript_tag : list byte
}.

Definition username_response_encode (r : UsernameResponse) : list byte :=
  let p := kt_proof r in
  [as_u8 (ur_version r)] ++ ur_anon_id r ++ ur_evaluation r ++
  to_be 2 (len (encrypted_record r)) ++ encrypted_record r ++
  epoch_root p ++ to_be 8 (tree_size p) ++ to_be 8 (leaf_index p) ++
  to_be 2 (len (leaf_payload p)) ++ leaf_payload p ++
  to_be 2 (len (siblings p)) ++ concat (siblings p) ++
  ur_server_nonce r ++ ur_transcript_tag r.

(** The closure [need]. *)
Definition need (p n : Z) (src : list byte) : res DiscoveryError unit :=
  reject len src <? p + n with bad "username response truncated" ;; Ok tt.

(** [need(pos, n, bytes)?; bytes[pos..pos + n]]. *)
Definition field (pos n : Z) (bytes : list byte) : res DiscoveryError (list byte) :=
  let? _ := need pos n bytes in slice pos (pos + n) bytes.

Fixpoint read_siblings (n : nat) (pos : Z) (bytes : list byte) : res DiscoveryError (list (list byte) * Z) :=
  match n with
  | O => Ok ([], pos)
  | S n =>
      let? s := slice pos (pos + NODE_HASH_LEN) bytes in
      let? (rest, pos) := read_siblings n (pos + NODE_HASH_LEN) bytes in
      Ok (s :: rest, pos)
  end.

Definition username_response_decode (bytes : list byte) : res DiscoveryError UsernameResponse :=
  reject len bytes =? 0 with bad "username response empty" ;;
  let? version := index 0 bytes in
  reject negb (u8 version =? WIRE_VERSION) with bad "username response wire version mismatch" ;;
  let pos := 1 in
  let? anon_id := field pos ANON_ID_LEN bytes in
  let pos := pos + ANON_ID_LEN in
  let? eval := field pos POINT_LEN bytes in
  let pos := pos + POINT_LEN in
  let? rl := field pos 2 bytes in
  let rec_len := from_be rl in
  let pos := pos + 2 in
  reject MAX_USERNAME_RECORD_LEN <? rec_len with bad "username record too large" ;;
  let? record := field pos rec_len bytes in
  let pos := pos + rec_len in
  let? root := field pos NODE_HASH_LEN bytes in
  let pos := pos + NODE_HASH_LEN in
  let? ts := field pos 8 bytes in
  let pos := pos + 8 in
  let? li := field pos 8 bytes in
  let pos := pos + 8 in
  let? ll := field pos 2 bytes in
  let leaf_len := from_be ll in
  let pos := pos + 2 in
  let? payload := field pos leaf_len bytes in
  let pos := pos + leaf_len in
  let? sc := field pos 2 bytes in
  let sib_count := from_be sc in
  let pos := pos + 2 in
  reject 64 <? sib_count with bad "too many KT proof siblings" ;;
  let? _ := need pos (sib_count * NODE_HASH_LEN) bytes in
  let? (sibs, pos) := read_siblings (Z.to_nat sib_count) pos bytes in
  let? server_nonce := field pos SERVER_NONCE_LEN bytes in
  let pos := pos + SERVER_NONCE_LEN in
  let? transcript_tag := field pos TRANSCRIPT_TAG_LEN bytes in
  let pos := pos + TRANSCRIPT_TAG_LEN in
  reject negb (pos =? len bytes) with bad "username response trailing bytes" ;;
  Ok {| ur_version := WIRE_VERSION; ur_anon_id := anon_id; ur_evaluation := eval; encrypted_record := record;
        kt_proof := {| epoch_root := root; tree_size := from_be ts; leaf_index := from_be li;
                       leaf_payload := payload; siblings := sibs |};
        ur_server_nonce := server_nonce; ur_transcript_tag := transcript_tag |}.

(** ** Anonymous ids *)
Definition PER_QUERY_ANON_ID_LABEL : list byte := bytes_of_string "umbrella-r7/discovery/per-query-anon-id/v1".
Definition SALT_LEN : Z := 32.

Section AnonIds.
(** [Hkdf::<Sha256>::new(None, ikm).expand(info, &mut [0; n])]. *)
Context (hkdf : list byte -> list byte -> Z -> option (list byte)).

Definition anon_id_info (server_id : Z) (query_salt : list byte) : list byte :=
  to_be 2 server_id ++ query_salt ++ PER_QUERY_ANON_ID_LABEL.

Definition derive_per_query_anon_id (master_key : list byte) (server_id : Z) (query_salt : list byte)
  : res DiscoveryError (list byte) :=
  reject (server_id =? 0) || (5 <? server_id) with InputRejected "server_id must be 1..=5" ;;
  ok_or (hkdf master_key (anon_id_info server_id query_salt) ANON_ID_LEN)
        (CryptoInternal "HKDF expand per-query anon-id").

(** A loop that fills a vector with fallible results, in order. *)
Fixpoint collect {A} (l : list A) (f : A -> res DiscoveryError (list byte)) : res DiscoveryError (list (list byte)) :=
  match l with
  | [] => Ok []
  | x :: l => let? y := f x in let? ys := collect l f in Ok (y :: ys)
  end.

Definition derive_per_query_anon_ids_all_servers (master_key query_salt : list byte)
  : res DiscoveryError (list (list byte)) :=
  collect [0; 1; 2; 3; 4] (fun i => derive_per_query_anon_id master_key (i + 1) query_salt).

(** [salt[0] ^= (i & 0xFF) as u8; salt[1] ^= ((i >> 8) & 0xFF) as u8]. *)
Definition contact_salt (base_salt : list byte) (i : Z) : res DiscoveryError (list byte) :=
  match base_salt with
  | s0 :: s1 :: rest =>
      Ok (as_u8 (Z.lxor (u8 s0) (Z.land i 255)) :: as_u8 (Z.lxor (u8 s1) (Z.land (Z.shiftr i 8) 255)) :: rest)
  | _ => Panic
  end.

Definition derive_per_contact_anon_ids (master_key : list byte) (server_id : Z) (base_salt : list byte)
    (n_contacts : Z) : res DiscoveryError (list (list byte)) :=
  collect (seqZ 0 n_contacts) (fun i =>
    let? salt := contact_salt base_salt i in derive_per_query_anon_id master_key server_id salt).
End AnonIds.

(** ** Well-formed values *)
Record wf_psi_request (r : PsiRequest) : Prop := {
  wpq_version : pq_version r = WIRE_VERSION;
  wpq_index : is_u8 (pq_witness_index r);
  wpq_count : 0 < len (pq_entries r) <= MAX_PSI_BATCH;
  wpq_entries : Forall (fun e => len (q_anon_id e) = 32 /\ len (q_blinded e) = 32) (pq_entries r);
  wpq_nonce : len (pq_client_nonce r) = 32
}.
Record wf_psi_response (r : PsiResponse) : Prop := {
  wpr_version : pr_version r = WIRE_VERSION;
  wpr_count : 0 < len (pr_entries r) <= MAX_PSI_BATCH;
  wpr_entries : Forall (fun e => len (r_anon_id e) = 32 /\ len (r_evaluation e) = 32) (pr_entries r);
  wpr_nonce : len (pr_server_nonce r) = 32;
  wpr_tag : len (pr_transcript_tag r) = 32
}.
Record wf_username_request (r : UsernameRequest) : Prop := {
  wuq_version : uq_version r = WIRE_VERSION;
  wuq_index : is_u8 (uq_witness_index r);
  wuq_anon : len (uq_anon_id r) = 32;
  wuq_blinded : len (uq_blinded r) = 32;
  wuq_nonce : len (uq_client_nonce r) = 32
}.
Record wf_username_response (r : UsernameResponse) : Prop := {
  wur_version : ur_version r = WIRE_VERSION;
  wur_anon : len (ur_anon_id r) = 32;
  wur_eval : len (ur_evaluation r) = 32;
  wur_record : len (encrypted_record r) <= MAX_USERNAME_RECORD_LEN;
  wur_root : len (epoch_root (kt_proof r)) = 32;
  wur_tree : is_u64 (tree_size (kt_proof r));
  wur_index : is_u64 (leaf_index (kt_proof r));
  wur_payload : len (leaf_payload (kt_proof r)) <= U16_MAX;
  wur_siblings : len (siblings (kt_proof r)) <= 64;
  wur_hashes : Forall (fun h => len h = 32) (siblings (kt_proof r));
  wur_nonce : len (ur_server_nonce r) = 32;
  wur_tag : len (ur_transcript_tag r) = 32
}.

(** ** Loops over fixed-width records *)
Section Pairs.
Context {A : Type} (mk : list byte -> list byte -> A) (f g : A -> list byte).
Context (Hf : forall a b, f (mk a b) = a) (Hg : forall a b, g (mk a b) = b) (Heta : forall e, mk (f e) (g e) = e).
Let wf_pair (e : A) : Prop := len (f e) = 32 /\ len (g e) = 32.
Let body (es : list A) : list byte := concat (map (fun e => f e ++ g e) es).

Lemma len_pairs es : Forall wf_pair es -> len (body es) = 64 * len es.
Proof.
  unfold body. induction 1 as [|e es [He1 He2] _ IH]; [done|]. cbn [map concat]. autorewrite with umb_len.
  rewrite IH. lia.
Qed.

Lemma read_pairs_enc es : forall pre post,
  Forall wf_pair es ->
  read_pairs mk (length es) (len pre) (pre ++ body es ++ post) = Ok (es, len pre + 64 * len es).
Proof.
  unfold body. induction es as [|e es IH]; intros pre post Hw; cbn [read_pairs length map concat].
  { do 2 f_equal. change (len (@nil A)) with 0. lia. }
  apply Forall_cons in Hw as [[He1 He2] Hw]. unfold ANON_ID_LEN, POINT_LEN. rewrite <- !app_assoc.
  rd_slice (f e). rd_slice (g e).
  replace (len pre + 32 + 32) with (len ((pre ++ f e) ++ g e)) by len_lia.
  specialize (IH ((pre ++ f e) ++ g e) post Hw). rewrite <- !app_assoc in IH. rewrite <- !app_assoc, IH.
  cbn [rbind]. rewrite Heta. do 2 f_equal. len_lia.
Qed.

Lemma read_pairs_at pre post n pos es l :
  Forall wf_pair es -> l = pre ++ body es ++ post -> pos = len pre -> n = length es ->
  read_pairs mk n pos l = Ok (es, pos + 64 * len es).
Proof. intros Hw -> -> ->. by apply read_pairs_enc. Qed.

Lemma read_pairs_inv n : forall pos b es p,
  0 <= pos <= len b -> read_pairs mk n pos b = Ok (es, p) ->
  slice (E := DiscoveryError) pos p b = Ok (body es) /\ length es = n /\ p = pos + 64 * Z.of_nat n /\ Forall wf_pair es.
Proof.
  unfold body. induction n as [|n IH]; intros pos b es p Hp Hr; cbn [read_pairs] in Hr.
  { injection Hr as <- <-. rewrite slice_in_range by lia. rewrite Z.sub_diag. repeat split; [lia|constructor]. }
  unfold ANON_ID_LEN, POINT_LEN in Hr. inv_slice Hr x S1 L1. inv_slice Hr y S2 L2.
  apply rbind_Ok in Hr as ([rest p'] & Hrest & Hr). injection Hr as <- <-.
  pose proof (slice_Ok_inv _ _ _ _ S2) as (_ & Hb & _).
  apply IH in Hrest as (S3 & Hl & -> & Hw); [|lia]. cbn [map concat length]. rewrite Hf, Hg, <- app_assoc.
  split; [glue_slices|]. repeat split; [lia|lia|]. constructor; [|done]. unfold wf_pair. rewrite Hf, Hg. lia.
Qed.

Lemma read_pairs_total n : forall pos b,
  0 <= pos -> pos + 64 * Z.of_nat n <= len b -> exists es, read_pairs mk n pos b = Ok (es, pos + 64 * Z.of_nat n).
Proof.
  induction n as [|n IH]; intros pos b H0 Hl; cbn [read_pairs]; [exists []; do 2 f_equal; lia|].
  unfold ANON_ID_LEN, POINT_LEN.
  destruct (slice_no_panic (E := DiscoveryError) pos (pos + 32) b) as [x ->]; [lia..|]. cbn [rbind].
  destruct (slice_no_panic (E := DiscoveryError) (pos + 32) (pos + 32 + 32) b) as [y ->]; [lia..|]. cbn [rbind].
  destruct (IH (pos + 32 + 32) b) as [es ->]; [lia..|]. cbn [rbind]. eexists. do 2 f_equal. lia.
Qed.
End Pairs.

Lemma to_be_2 z : to_be 2 z = [as_u8 (z / 256)] ++ [as_u8 z].
Proof. cbn [to_be app]. change (256 ^ Z.of_nat 0) with 1. by rewrite Z.div_1_r. Qed.

Ltac disc_lens := unfold WIRE_VERSION, POINT_LEN, ANON_ID_LEN, DEVICE_PUBKEY_LEN, SERVER_NONCE_LEN,
  TRANSCRIPT_TAG_LEN, NODE_HASH_LEN, MAX_PSI_BATCH, MAX_USERNAME_RECORD_LEN, U16_MAX in *.
Lemma version_ok : (u8 (as_u8 1) =? 1) = true.
Proof. done. Qed.

Lemma psi_request_dec_enc r : wf_psi_request r -> psi_request_decode (psi_request_encode r) = Ok r.
Proof.
  destruct r as [v es n w]. intros [Hv Hw Hc He Hn]. cbn [pq_version pq_witness_index pq_entries pq_client_nonce] in *.
  pose proof (len_pairs q_anon_id q_blinded es He) as Hb.
  unfold psi_request_encode, psi_request_decode. cbn [pq_version pq_witness_index pq_entries pq_client_nonce].
  rewrite to_be_2, <- app_assoc. disc_lens. subst v. cbn zeta.
  rewrite (proj2 (Z.ltb_ge _ _)) by len_lia. cbn [rguard]. rd_index (as_u8 1). rewrite version_ok. cbn [negb rguard].
  rd_index (as_u8 w). rd_index (as_u8 (len es / 256)). rd_index (as_u8 (len es)).
  rewrite <- to_be_2, from_be_to_be_u16 by (unfold is_u16, U16_MAX; lia).
  rewrite (proj2 (Z.eqb_neq (len es) 0)), (proj2 (Z.ltb_ge _ (len es))) by lia. cbn [orb rguard].
  rewrite (proj2 (Z.eqb_eq _ _)) by len_lia. cbn [negb rguard].
  rewrite (read_pairs_at Build_PsiQueryEntry q_anon_id q_blinded (fun e => ltac:(by destruct e))
    ([as_u8 1] ++ [as_u8 w] ++ [as_u8 (len es / 256)] ++ [as_u8 (len es)]) n _ _ es);
    [|done|by rewrite <- !app_assoc|done|unfold len; lia].
  cbn [rbind]. rd_slice n. by rewrite !DeviceAuth.u8_as_u8_id.
Qed.

Lemma psi_request_enc_dec b r : psi_request_decode b = Ok r -> psi_request_encode r = b /\ wf_psi_request r.
Proof.
  unfold psi_request_decode. disc_lens. cbn zeta. intros Hd. apply rguard_Ok in Hd as [Hl Hd].
  inv_index Hd v S0. apply rguard_Ok in Hd as [Hv Hd]. inv_index Hd w S1. inv_index Hd b2 S2. inv_index Hd b3 S3.
  apply rguard_Ok in Hd as [Hn Hd]. apply rguard_Ok in Hd as [Hlen Hd].
  apply rbind_Ok in Hd as ([es p] & Hes & Hd). inv_slice Hd cn Scn Lcn. injection Hd as <-. zbool.
  assert (Hnb : from_be ([b2] ++ [b3]) <> 0 /\ from_be ([b2] ++ [b3]) <= 1024) by lia.
  pose proof (from_be_range ([b2] ++ [b3])).
  apply (read_pairs_inv Build_PsiQueryEntry q_anon_id q_blinded) in Hes as (Ses & Les & -> & Wes); [|done..|lia].
  assert (Le : len es = from_be ([b2] ++ [b3])) by (unfold len; lia). split.
  - unfold psi_request_encode. cbn [pq_version pq_witness_index pq_entries pq_client_nonce].
    rewrite Le, to_be_from_be_n, !as_u8_u8, <- app_assoc by done.
    eapply (slices_cover (E := DiscoveryError)); [glue_slices|lia].
  - pose proof (u8_range w). split; cbn [pq_version pq_witness_index pq_entries pq_client_nonce]; unfold is_u8, U8_MAX; disc_lens; done || lia.
Qed.

Lemma psi_request_total b : psi_request_decode b <> Panic.
Proof.
  unfold psi_request_decode. disc_lens. intros Hp. cbn zeta in Hp. do 8 no_panic_step Hp.
  pose proof (from_be_range ([b2] ++ [b3])).
  destruct (read_pairs_total Build_PsiQueryEntry (Z.to_nat (from_be ([b2] ++ [b3]))) 4 b) as [es Hes]; [lia..|].
  rewrite Hes in Hp. cbn [rbind] in Hp. no_panic Hp.
Qed.

#[global] Instance psi_request_codec : Codec DiscoveryError PsiRequest := {|
  enc := psi_request_encode; dec := psi_request_decode; wf := wf_psi_request;
  dec_enc := psi_request_dec_enc; enc_dec := psi_request_enc_dec; dec_total := psi_request_total
|}.

Lemma psi_response_dec_enc r : wf_psi_response r -> psi_response_decode (psi_response_encode r) = Ok r.
Proof.
  destruct r as [v es n t]. intros [Hv Hc He Hn Ht]. cbn [pr_version pr_entries pr_server_nonce pr_transcript_tag] in *.
  pose proof (len_pairs r_anon_id r_evaluation es He) as Hb.
  unfold psi_response_encode, psi_response_decode. cbn [pr_version pr_entries pr_server_nonce pr_transcript_tag].
  rewrite to_be_2, <- app_assoc. disc_lens. subst v. cbn zeta.
  rewrite (proj2 (Z.ltb_ge _ _)) by len_lia. cbn [rguard]. rd_index (as_u8 1). rewrite version_ok. cbn [negb rguard].
  rd_index (as_u8 (len es / 256)). rd_index (as_u8 (len es)).
  rewrite <- to_be_2, from_be_to_be_u16 by (unfold is_u16, U16_MAX; lia).
  rewrite (proj2 (Z.eqb_neq (len es) 0)), (proj2 (Z.ltb_ge _ (len es))) by lia. cbn [orb rguard].
  rewrite (proj2 (Z.eqb_eq _ _)) by len_lia. cbn [negb rguard].
  rewrite (read_pairs_at Build_PsiResponseEntry r_anon_id r_evaluation (fun e => ltac:(by destruct e))
    ([as_u8 1] ++ [as_u8 (len es / 256)] ++ [as_u8 (len es)]) (n ++ t) _ _ es);
    [|done|by rewrite <- !app_assoc|done|unfold len; lia].
  cbn [rbind]. rd_slice n. rd_slice t. by rewrite DeviceAuth.u8_as_u8_id.
Qed.

Lemma psi_response_enc_dec b r : psi_response_decode b = Ok r -> psi_response_encode r = b /\ wf_psi_response r.
Proof.
  unfold psi_response_decode. disc_lens. cbn zeta. intros Hd. apply rguard_Ok in Hd as [Hl Hd].
  inv_index Hd v S0. apply rguard_Ok in Hd as [Hv Hd]. inv_index Hd b2 S2. inv_index Hd b3 S3.
  apply rguard_Ok in Hd as [Hn Hd]. apply rguard_Ok in Hd as [Hlen Hd].
  apply rbind_Ok in Hd as ([es p] & Hes & Hd). inv_slice Hd nn Snn Lnn. inv_slice Hd tg Stg Ltg.
  injection Hd as <-. zbool. pose proof (from_be_range ([b2] ++ [b3])).
  apply (read_pairs_inv Build_PsiResponseEntry r_anon_id r_evaluation) in Hes as (Ses & Les & -> & Wes); [|done..|lia].
  assert (Le : len es = from_be ([b2] ++ [b3])) by (unfold len; lia). split.
  - unfold psi_response_encode. cbn [pr_version pr_entries pr_server_nonce pr_transcript_tag].
    rewrite Le, to_be_from_be_n, !as_u8_u8, <- app_assoc by done.
    eapply (slices_cover (E := DiscoveryError)); [glue_slices|lia].
  - split; cbn [pr_version pr_entries pr_server_nonce pr_transcript_tag]; disc_lens; done || lia.
Qed.

Lemma psi_response_total b : psi_response_decode b <> Panic.
Proof.
  unfold psi_response_decode. disc_lens. intros Hp. cbn zeta in Hp. do 7 no_panic_step Hp.
  pose proof (from_be_range ([b1] ++ [b2])).
  destruct (read_pairs_total Build_PsiResponseEntry (Z.to_nat (from_be ([b1] ++ [b2]))) 3 b) as [es Hes]; [lia..|].
  rewrite Hes in Hp. cbn [rbind] in Hp. no_panic Hp.
Qed.

#[global] Instance psi_response_codec : Codec DiscoveryError PsiResponse := {|
  enc := psi_response_encode; dec := psi_response_decode; wf := wf_psi_response;
  dec_enc := psi_response_dec_enc; enc_dec := psi_response_enc_dec; dec_total := psi_response_total
|}.

Lemma username_request_dec_enc r :
  wf_username_request r -> username_request_decode (username_request_encode r) = Ok r.
Proof.
  destruct r as [v w a bl n]. intros [Hv Hw Ha Hb Hn].
  cbn [uq_version uq_witness_index uq_anon_id uq_blinded uq_client_nonce] in *.
  unfold username_request_encode, username_request_decode. cbn [uq_version uq_witness_index uq_anon_id uq_blinded uq_client_nonce].
  disc_lens. subst v. cbn zeta. rewrite (proj2 (Z.eqb_eq _ _)) by len_lia. cbn [negb rguard].
  rd_index (as_u8 1). rewrite version_ok. cbn [negb rguard]. rd_index (as_u8 w). rd_slice a. rd_slice bl. rd_slice n.
  by rewrite DeviceAuth.u8_as_u8_id.
Qed.

Lemma username_request_enc_dec b r :
  username_request_decode b = Ok r -> username_request_encode r = b /\ wf_username_request r.
Proof.
  unfold username_request_decode. disc_lens. cbn zeta. intros Hd. apply rguard_Ok in Hd as [Hl Hd].
  inv_index Hd v S0. apply rguard_Ok in Hd as [Hv Hd]. inv_index Hd w S1.
  inv_slice Hd a Sa La. inv_slice Hd bl Sb Lb. inv_slice Hd n Sn Ln. injection Hd as <-. zbool. split.
  - unfold username_request_encode. cbn [uq_version uq_witness_index uq_anon_id uq_blinded uq_client_nonce].
    rewrite as_u8_u8. replace (as_u8 1) with v by (apply u8_inj; by rewrite Hv).
    eapply (slices_cover (E := DiscoveryError)); [glue_slices|lia].
  - pose proof (u8_range w). split; cbn [uq_version uq_witness_index uq_anon_id uq_blinded uq_client_nonce];
      unfold is_u8, U8_MAX; disc_lens; done || lia.
Qed.

Lemma username_request_total b : username_request_decode b <> Panic.
Proof. unfold username_request_decode. disc_lens. intros Hp. no_panic Hp. Qed.

#[global] Instance username_request_codec : Codec DiscoveryError UsernameRequest := {|
  enc := username_request_encode; dec := username_request_decode; wf := wf_username_request;
  dec_enc := username_request_dec_enc; enc_dec := username_request_enc_dec; dec_total := username_request_total
|}.

(** ** The cursor of the username response *)
Lemma field_Ok p n b x : field p n b = Ok x -> slice (E := DiscoveryError) p (p + n) b = Ok x /\ len x = n.
Proof.
  unfold field, need. intros Hf. apply rbind_Ok in Hf as (_ & _ & Hs). split; [done|].
  apply slice_ok_len in Hs. lia.
Qed.

Lemma field_at p n b x : slice (E := DiscoveryError) p (p + n) b = Ok x -> p + n <= len b -> field p n b = Ok x.
Proof. intros Hs Hl. unfold field, need. rewrite (proj2 (Z.ltb_ge _ _)) by lia. exact Hs. Qed.

Lemma rbind_field_Panic {B} p n b (k : list byte -> res DiscoveryError B) :
  rbind (field p n b) k = Panic -> 0 <= p -> 0 <= n -> exists x, len x = n /\ p + n <= len b /\ k x = Panic.
Proof.
  unfold field, need. intros Hp H0 Hn. destruct (len b <? p + n) eqn:E; cbn [rguard rbind] in Hp; [done|]. zbool.
  apply rbind_slice_Panic in Hp as (x & _ & Hl & Hk); [|lia..]. exists x. split; [lia|]. done.
Qed.

Lemma len_concat_hashes (l : list (list byte)) : Forall (fun h => len h = 32) l -> len (concat l) = 32 * len l.
Proof.
  induction 1 as [|h l Hh _ IH]; [done|]. cbn [concat]. autorewrite with umb_len. lia.
Qed.

Lemma read_siblings_enc l : forall pre post,
  Forall (fun h => len h = 32) l ->
  read_siblings (length l) (len pre) (pre ++ concat l ++ post) = Ok (l, len pre + 32 * len l).
Proof.
  induction l as [|h l IH]; intros pre post Hw; cbn [read_siblings length concat].
  { do 2 f_equal. change (len (@nil (list byte))) with 0. lia. }
  apply Forall_cons in Hw as [Hh Hw]. unfold NODE_HASH_LEN. rewrite <- app_assoc. rd_slice h.
  specialize (IH (pre ++ h) post Hw). rewrite <- app_assoc in IH.
  replace (len pre + 32) with (len (pre ++ h)) by len_lia. rewrite IH. cbn [rbind]. do 2 f_equal. len_lia.
Qed.

Lemma read_siblings_inv n : forall pos b l p,
  0 <= pos <= len b -> read_siblings n pos b = Ok (l, p) ->
  slice (E := DiscoveryError) pos p b = Ok (concat l) /\ length l = n /\ p = pos + 32 * Z.of_nat n /\
  Forall (fun h => len h = 32) l.
Proof.
  induction n as [|n IH]; intros pos b l p Hp Hr; cbn [read_siblings] in Hr.
  { injection Hr as <- <-. rewrite slice_in_range by lia. rewrite Z.sub_diag. repeat split; [lia|constructor]. }
  unfold NODE_HASH_LEN in Hr. inv_slice Hr x S1 L1. apply rbind_Ok in Hr as ([rest p'] & Hrest & Hr).
  injection Hr as <- <-. pose proof (slice_Ok_inv _ _ _ _ S1) as (_ & Hb & _).
  apply IH in Hrest as (S3 & Hl & -> & Hw); [|lia]. cbn [concat length].
  split; [glue_slices|]. repeat split; [lia|lia|]. constructor; [lia|done].
Qed.

Lemma read_siblings_total n : forall pos b,
  0 <= pos -> pos + 32 * Z.of_nat n <= len b -> exists l, read_siblings n pos b = Ok (l, pos + 32 * Z.of_nat n).
Proof.
  induction n as [|n IH]; intros pos b H0 Hl; cbn [read_siblings]; [exists []; do 2 f_equal; lia|].
  unfold NODE_HASH_LEN.
  destruct (slice_no_panic (E := DiscoveryError) pos (pos + 32) b) as [x ->]; [lia..|]. cbn [rbind].
  destruct (IH (pos + 32) b) as [l ->]; [lia..|]. cbn [rbind]. eexists. do 2 f_equal. lia.
Qed.

Ltac rd_field x :=
  match goal with |- rbind (field ?p ?n ?b) _ = _ =>
    let Hs := fresh in assert (Hs : field p n b = Ok x) by (apply field_at; [slice_find|len_lia]);
    rewrite Hs; clear Hs end; cbn [rbind].
Ltac inv_field H x S L := apply rbind_Ok in H as (x & S & H); apply field_Ok in S as [S L].
Ltac field_total H :=
  apply rbind_field_Panic in H; [|lia|lia];
  let x := fresh "x" in let Hl := fresh "Hl" in let Hb := fresh "Hb" in destruct H as (x & Hl & Hb & H);
  pose proof (from_be_range x).

Lemma username_response_dec_enc r :
  wf_username_response r -> username_response_decode (username_response_encode r) = Ok r.
Proof.
  destruct r as [v a ev rc [rt ts li pl sb] nn tg].
  intros [Hv Ha He Hr Hrt Hts Hli Hpl Hsb Hsh Hn Ht].
  cbn [ur_version ur_anon_id ur_evaluation encrypted_record kt_proof epoch_root tree_size leaf_index leaf_payload
    siblings ur_server_nonce ur_transcript_tag] in *. pose proof (len_concat_hashes sb Hsh) as Hc.
  unfold username_response_encode, username_response_decode.
  cbn [ur_version ur_anon_id ur_evaluation encrypted_record kt_proof epoch_root tree_size leaf_index leaf_payload
    siblings ur_server_nonce ur_transcript_tag]. disc_lens. subst v. cbn zeta.
  pose proof (len_nonneg rc). pose proof (len_nonneg pl). pose proof (len_nonneg sb).
  rewrite (proj2 (Z.eqb_neq _ _)) by len_lia. cbn [rguard]. rd_index (as_u8 1). rewrite version_ok. cbn [negb rguard].
  rd_field a. rd_field ev. rd_field (to_be 2 (len rc)). rewrite from_be_to_be_u16 by (unfold is_u16, U16_MAX; lia).
  rewrite (proj2 (Z.ltb_ge _ _)) by lia. cbn [rguard]. rd_field rc. rd_field rt. rd_field (to_be 8 ts).
  rd_field (to_be 8 li). rewrite !from_be_to_be_u64 by done.
  rd_field (to_be 2 (len pl)). rewrite from_be_to_be_u16 by (unfold is_u16, U16_MAX; lia). rd_field pl.
  rd_field (to_be 2 (len sb)). rewrite from_be_to_be_u16 by (unfold is_u16, U16_MAX; lia).
  rewrite (proj2 (Z.ltb_ge _ _)) by lia. cbn [rguard].
  unfold need at 1. rewrite (proj2 (Z.ltb_ge _ _)) by len_lia. cbn [rguard rbind].
  set (pre := [as_u8 1] ++ a ++ ev ++ to_be 2 (len rc) ++ rc ++ rt ++ to_be 8 ts ++ to_be 8 li ++ to_be 2 (len pl) ++ pl ++ to_be 2 (len sb)).
  pose proof (read_siblings_enc sb pre (nn ++ tg) Hsh) as Hs. unfold pre in Hs. rewrite <- !app_assoc in Hs.
  replace (len _) with (1 + 32 + 32 + 2 + len rc + 32 + 8 + 8 + 2 + len pl + 2) in Hs by len_lia.
  replace (Z.to_nat (len sb)) with (length sb) by (unfold len; lia). rewrite Hs. cbn [rbind].
  rd_field nn. rd_field tg. rewrite (proj2 (Z.eqb_eq _ _)) by len_lia. done.
Qed.

Lemma username_response_enc_dec b r :
  username_response_decode b = Ok r -> username_response_encode r = b /\ wf_username_response r.
Proof.
  unfold username_response_decode. disc_lens. cbn zeta. intros Hd. apply rguard_Ok in Hd as [Hl Hd].
  inv_index Hd v S0. apply rguard_Ok in Hd as [Hv Hd].
  inv_field Hd a Sa La. inv_field Hd ev Se Le. inv_field Hd rl Srl Lrl. apply rguard_Ok in Hd as [Hrl Hd].
  inv_field Hd rc Src Lrc. inv_field Hd rt Srt Lrt. inv_field Hd ts Sts Lts. inv_field Hd li Sli Lli.
  inv_field Hd ll Sll Lll. inv_field Hd pl Spl Lpl. inv_field Hd cnt Ssc Lsc. apply rguard_Ok in Hd as [Hsc Hd].
  apply rbind_Ok in Hd as (_ & _ & Hd). apply rbind_Ok in Hd as ([sb p] & Hsb & Hd).
  inv_field Hd nn Snn Lnn. inv_field Hd tg Stg Ltg. apply rguard_Ok in Hd as [Hend Hd]. injection Hd as <-. zbool.
  pose proof (from_be_range rl). pose proof (from_be_range ll). pose proof (from_be_range cnt) as Rsc.
  pose proof (from_be_u16 ll Lll). unfold is_u16 in *.
  pose proof (slice_Ok_inv _ _ _ _ Ssc) as (? & ? & _).
  apply read_siblings_inv in Hsb as (Ssb & Lsb & -> & Wsb); [|lia].
  assert (Lb : len sb = from_be cnt) by (unfold len; lia). split.
  - unfold username_response_encode.
    cbn [ur_version ur_anon_id ur_evaluation encrypted_record kt_proof epoch_root tree_size leaf_index leaf_payload
      siblings ur_server_nonce ur_transcript_tag].
    rewrite Lrc, Lpl, Lb, !to_be_from_be_n by done. replace (as_u8 1) with v by (apply u8_inj; by rewrite Hv).
    eapply (slices_cover (E := DiscoveryError)); [glue_slices|lia].
  - split; cbn [ur_version ur_anon_id ur_evaluation encrypted_record kt_proof epoch_root tree_size leaf_index
      leaf_payload siblings ur_server_nonce ur_transcript_tag];
      first [by apply from_be_u64 | disc_lens; done | disc_lens; lia].
Qed.

Lemma username_response_total b : username_response_decode b <> Panic.
Proof.
  unfold username_response_decode. disc_lens. intros Hp. cbn zeta in Hp. pose proof (len_nonneg b).
  do 3 no_panic_step Hp. do 3 field_total Hp. no_panic_step Hp. do 7 field_total Hp. no_panic_step Hp.
  unfold need in Hp at 1. destruct (len b <? _) eqn:E in Hp; cbn [rguard rbind] in Hp; [done|]. zbool.
  match type of Hp with context [read_siblings (Z.to_nat ?n) ?q b] =>
    destruct (read_siblings_total (Z.to_nat n) q b) as [l Hs]; [lia..|]; rewrite Hs in Hp end. cbn [rbind] in Hp.
  do 2 field_total Hp. no_panic Hp.
Qed.

#[global] Instance username_response_codec : Codec DiscoveryError UsernameResponse := {|
  enc := username_response_encode; dec := username_response_decode; wf := wf_username_response;
  dec_enc := username_response_dec_enc; enc_dec := username_response_enc_dec; dec_total := username_response_total
|}.

(** ** Distinct pseudonyms *)
Lemma collect_Ok {A} (l : list A) f ys : collect l f = Ok ys -> Forall2 (fun x y => f x = Ok y) l ys.
Proof.
  revert ys. induction l as [|x l IH]; intros ys Hc; cbn [collect] in Hc; [by injection Hc as <-|].
  apply rbind_Ok in Hc as (y & Hy & Hc). apply rbind_Ok in Hc as (zs & Hz & Hc). injection Hc as <-.
  constructor; auto.
Qed.

(** Values computed from distinct inputs are distinct, or two inputs collide. *)
Lemma Forall2_distinct {A} (D : A -> Prop) (R : A -> list byte -> Prop) (P : Prop) l ys :
  Forall2 R l ys -> Forall D l -> NoDup l ->
  (forall x x' y, D x -> D x' -> R x y -> R x' y -> x <> x' -> P) -> NoDup ys \/ P.
Proof.
  intros HR HD Hl HP. induction HR as [|x y l ys Hxy HR IH]; [left; constructor|].
  apply NoDup_cons in Hl as [Hx Hl]. apply Forall_cons in HD as [Dx HD].
  destruct (IH HD Hl) as [Hys|]; [|by right]. destruct (decide (y ∈ ys)) as [Hin|]; [|left; by constructor].
  right. apply list_elem_of_lookup in Hin as [i Hi]. destruct (Forall2_lookup_r _ _ _ _ _ HR Hi) as (x' & Hx' & Hr).
  apply (HP x x' y Dx (Forall_lookup_1 _ _ _ _ HD Hx') Hxy Hr). intros ->. apply Hx. by eapply list_elem_of_lookup_2.
Qed.

Lemma anon_id_info_inj s1 s2 t1 t2 :
  is_u16 s1 -> is_u16 s2 -> len t1 = len t2 -> anon_id_info s1 t1 = anon_id_info s2 t2 -> s1 = s2 /\ t1 = t2.
Proof.
  unfold anon_id_info. intros H1 H2 Hl He. apply app_inj_len in He as [E1 He]; [|by rewrite !len_to_be].
  apply app_inj_len in He as [E2 _]; [|done]. split; [|done].
  by rewrite <- (from_be_to_be_u16 s1), E1, from_be_to_be_u16.
Qed.

(** Two different inputs of the key derivation give one pseudonym. *)
Definition hkdf_collision (hkdf : list byte -> list byte -> Z -> option (list byte)) (master_key : list byte) : Prop :=
  exists i1 i2 x, i1 <> i2 /\ hkdf master_key i1 ANON_ID_LEN = Some x /\ hkdf master_key i2 ANON_ID_LEN = Some x.

Lemma derived_id hkdf mk s t x :
  derive_per_query_anon_id hkdf mk s t = Ok x ->
  (s <> 0 /\ s <= 5) /\ hkdf mk (anon_id_info s t) ANON_ID_LEN = Some x.
Proof.
  unfold derive_per_query_anon_id. intros Hd. apply rguard_Ok in Hd as [Hs Hd]. apply ok_or_Ok in Hd. zbool. split; [lia|done].
Qed.

Lemma byte_xor_inj b i j : 0 <= i < 256 -> 0 <= j < 256 ->
  as_u8 (Z.lxor (u8 b) i) = as_u8 (Z.lxor (u8 b) j) -> i = j.
Proof.
  intros Hi Hj He. apply (f_equal u8) in He. rewrite !u8_as_u8 in He. change 256 with (2 ^ 8) in *.
  rewrite <- (Z.mod_small i (2 ^ 8)), <- (Z.mod_small j (2 ^ 8)) by done.
  apply Z.bits_inj'. intros n Hn. apply (f_equal (fun z => Z.testbit z n)) in He. revert He.
  destruct (decide (n < 8)); [|by rewrite !Z.mod_pow2_bits_high by lia].
  rewrite !Z.mod_pow2_bits_low, !Z.lxor_spec by lia.
  by destruct (Z.testbit (u8 b) n), (Z.testbit i n), (Z.testbit j n).
Qed.

Lemma contact_salt_inj salt i j t :
  0 <= i < 65536 -> 0 <= j < 65536 -> contact_salt salt i = Ok t -> contact_salt salt j = Ok t -> i = j.
Proof.
  intros Hi Hj. destruct salt as [|s0 [|s1 rest]]; cbn; [done..|]. intros H1 H2. rewrite <- H1 in H2.
  apply Ok_inj in H2. injection H2 as E0 E1.
  change 255 with (Z.ones 8) in E0, E1. rewrite !Z.land_ones in E0, E1 by lia. rewrite !Z.shiftr_div_pow2 in E1 by lia.
  change (2 ^ 8) with 256 in E0, E1.
  apply byte_xor_inj in E0; [|apply Z.mod_pos_bound; lia..]. apply byte_xor_inj in E1; [|apply Z.mod_pos_bound; lia..].
  rewrite !(Z.mod_small (_ / _)) in E1 by (split; [apply Z.div_pos|apply Z.div_lt_upper_bound]; lia).
  rewrite (Z.div_mod i 256), (Z.div_mod j 256) by lia. lia.
Qed.

Lemma contact_salt_len salt i t : contact_salt salt i = Ok t -> len t = len salt.
Proof. destruct salt as [|s0 [|s1 rest]]; [done..|]. intros [= <-]. by rewrite !len_cons. Qed.

(** The five pseudonyms of a query, and the pseudonyms of up to 65536 contacts of a batch,
    are pairwise distinct unless the key derivation collides on two different inputs. *)
Theorem anon_ids_distinct hkdf mk salt sid n five ids :
  (derive_per_query_anon_ids_all_servers hkdf mk salt = Ok five ->
     len five = 5 /\ (NoDup five \/ hkdf_collision hkdf mk)) /\
  (0 <= n <= 65536 -> 0 <= sid -> derive_per_contact_anon_ids hkdf mk sid salt n = Ok ids ->
     len ids = n /\ (NoDup ids \/ hkdf_collision hkdf mk)).
Proof.
  assert (U : forall x, 0 <= x <= 5 -> is_u16 x) by (unfold is_u16, U16_MAX; lia). split.
  - intros Hc%collect_Ok. split; [apply Forall2_length in Hc; unfold len; cbn in Hc; lia|].
    eapply (Forall2_distinct (fun i => 0 <= i)); [exact Hc|repeat constructor; lia|by apply (bool_decide_unpack _)|].
    intros x x' y Dx Dx' Hx Hx' Hne. apply derived_id in Hx as [? Hx], Hx' as [? Hx'].
    exists (anon_id_info (x + 1) salt), (anon_id_info (x' + 1) salt), y. split; [|done].
    intros He. apply anon_id_info_inj in He as [? _]; [lia|apply U; lia..|done].
  - intros Hn Hs Hc%collect_Ok. split; [apply Forall2_length in Hc; rewrite length_seqZ in Hc; unfold len; lia|].
    eapply (Forall2_distinct (fun i => 0 <= i < n)); [exact Hc| |apply NoDup_seqZ|].
    { apply Forall_forall. intros i Hi%elem_of_seqZ. lia. }
    intros x x' y Dx Dx' Hx Hx' Hne. apply rbind_Ok in Hx as (t & Ht & Hx), Hx' as (t' & Ht' & Hx').
    apply derived_id in Hx as [? Hx], Hx' as [? Hx'].
    exists (anon_id_info sid t), (anon_id_info sid t'), y. split; [|done].
    intros He. apply anon_id_info_inj in He as [_ ->]; [|apply U; lia..|by rewrite (contact_salt_len _ _ _ Ht), (contact_salt_len _ _ _ Ht')].
    apply Hne, (contact_salt_inj salt x x' t'); [lia..|done|done].
Qed.

(** The four discovery messages decode to what was encoded, only encodings of well-formed
    messages are accepted (so a message has one encoding), and no input makes a decoder panic. *)
Theorem discovery_wire_exact (q : PsiRequest) (a : PsiResponse) (u : UsernameRequest) (v : UsernameResponse) (b : list byte) :
  ((wf_psi_request q -> psi_request_decode (psi_request_encode q) = Ok q) /\
   (psi_request_decode b = Ok q -> psi_request_encode q = b /\ wf_psi_request q) /\ psi_request_decode b <> Panic) /\
  ((wf_psi_response a -> psi_response_decode (psi_response_encode a) = Ok a) /\
   (psi_response_decode b = Ok a -> psi_response_encode a = b /\ wf_psi_response a) /\ psi_response_decode b <> Panic) /\
  ((wf_username_request u -> username_request_decode (username_request_encode u) = Ok u) /\
   (username_request_decode b = Ok u -> username_request_encode u = b /\ wf_username_request u) /\
   username_request_decode b <> Panic) /\
  ((wf_username_response v -> username_response_decode (username_response_encode v) = Ok v) /\
   (username_response_decode b = Ok v -> username_response_encode v = b /\ wf_username_response v) /\
   username_response_decode b <> Panic).
Proof.
  split; [split_and!; [apply psi_request_dec_enc|apply psi_request_enc_dec|apply psi_request_total]|].
  split; [split_and!; [apply psi_response_dec_enc|apply psi_response_enc_dec|apply psi_response_total]|].
  split; [split_and!; [apply username_request_dec_enc|apply username_request_enc_dec|apply username_request_total]|].
  split_and!; [apply username_response_dec_enc|apply username_response_enc_dec|apply username_response_total].
Qed.
End DiscoveryWire.
