(* ===== verification/DiscoveryLookup.v ===== *)
(** * Username lookup and its key-transparency bind
    ([crates/umbrella-discovery/src/kt_bind.rs], [username_lookup.rs])

    The client blinds a handle, several servers evaluate it, the client combines the
    evaluations, derives the key of the encrypted record, opens it, and checks that the device
    key it found is the one published in the pinned epoch of the log.  Bytes drawn from the
    random generator are arguments, in the order in which the source draws them.  The OPRF is
    the interface [OprfOps] with its laws [OprfLaws]: blinding, threshold combination and
    unblinding are modelled over their group in [OprfClient] and [Shamir]. *)
From S2P Require Import Prelude Bytes KtError Merkle KtEntry OprfRequest DiscoveryBudget DiscoveryWire.
Local Open Scope string_scope.
Local Open Scope list_scope.
Local Open Scope Z_scope.

Module DiscoveryLookup.
Import DiscoveryBudget DiscoveryWire.
Module M := Merkle.

(** ** The bind ([kt_bind.rs]) *)
Definition DISCOVERY_LEAF_DOMAIN : list byte := bytes_of_string "umbrella-r7/discovery/kt-leaf/v1".

Definition canonical_leaf_payload (handle_kind : Z) (handle device_pubkey : list byte) (epoch : Z) : list byte :=
  DISCOVERY_LEAF_DOMAIN ++ [as_u8 handle_kind] ++ to_be 2 (len handle) ++ handle ++ device_pubkey ++ to_be 8 epoch.

Record DiscoveryBindExpectation := {
  ex_epoch : Z;
  pinned_epoch_root : list byte;
  expected_device_pubkey : option (list byte);
  ex_handle_kind : Z;
  ex_handle : list byte
}.

Definition as_audit_path (p : KtInclusionProof) : M.AuditPath := {| M.siblings := siblings p |}.

Section Bind.
Context (sha256 : list byte -> list byte).

Definition verify_discovery_bind (proof : KtInclusionProof) (expectation : DiscoveryBindExpectation)
  : res DiscoveryError (list byte) :=
  reject negb (bool_decide (epoch_root proof = pinned_epoch_root expectation)) with KtBindFailed RootForked ;;
  let min_expected_len := len DISCOVERY_LEAF_DOMAIN + 1 + 2 + len (ex_handle expectation) + DEVICE_PUBKEY_LEN + 8 in
  reject negb (len (leaf_payload proof) =? min_expected_len) with KtBindFailed LeafPayloadMismatch ;;
  let pk_off := len DISCOVERY_LEAF_DOMAIN + 1 + 2 + len (ex_handle expectation) in
  let? extracted_pk := slice pk_off (pk_off + DEVICE_PUBKEY_LEN) (leaf_payload proof) in
  reject match expected_device_pubkey expectation with
         | Some expected_pk => negb (bool_decide (extracted_pk = expected_pk))
         | None => false
         end with KtBindFailed LeafPayloadMismatch ;;
  let reconstructed := canonical_leaf_payload (ex_handle_kind expectation) (ex_handle expectation) extracted_pk
                         (ex_epoch expectation) in
  reject negb (bool_decide (reconstructed = leaf_payload proof)) with KtBindFailed LeafPayloadMismatch ;;
  let leaf := M.leaf_hash sha256 (leaf_payload proof) in
  match M.verify_inclusion sha256 leaf (leaf_index proof) (tree_size proof) (as_audit_path proof) (epoch_root proof) with
  | Ok _ => Ok extracted_pk
  | Err InclusionRootMismatch => Err (KtBindFailed ProofMismatch)
  | Err (InvalidProofLength _ _ _ _) | Err (LeafIndexOutOfRange _ _) | Err EmptyTree =>
      Err (KtBindFailed ProofShapeInvalid)
  | Err _ => Err (KtBindFailed ProofMismatch)
  | Panic => Panic
  end.

Lemma verify_inclusion_total leaf i n path root : M.verify_inclusion sha256 leaf i n path root <> Panic.
Proof.
  unfold M.verify_inclusion, rguard. destruct (fold_left _ _ _) as [[fn sn'] r]. by repeat case_match.
Qed.

(** Equal payloads of 16-bit handles and 32-byte keys have equal fields. *)
Lemma leaf_payload_inj k1 h1 p1 e1 k2 h2 p2 e2 :
  is_u8 k1 -> is_u8 k2 -> len h1 <= U16_MAX -> len h2 <= U16_MAX -> len p1 = 32 -> len p2 = 32 ->
  is_u64 e1 -> is_u64 e2 ->
  canonical_leaf_payload k1 h1 p1 e1 = canonical_leaf_payload k2 h2 p2 e2 ->
  k1 = k2 /\ h1 = h2 /\ p1 = p2 /\ e1 = e2.
Proof.
  intros K1 K2 L1 L2 P1 P2 U1 U2 He. unfold canonical_leaf_payload in He. apply app_inv_head in He.
  pose proof (len_nonneg h1). pose proof (len_nonneg h2). peel He Ek. peel He El.
  assert (Hl : len h1 = len h2).
  { rewrite <- (from_be_to_be_u16 (len h1)), El, from_be_to_be_u16; unfold is_u16; lia. }
  peel He Eh. peel He Ep. apply to_be_u64_inj in He; [|done..].
  injection Ek as Ek. apply (f_equal u8) in Ek. by rewrite !DeviceAuth.DeviceAuth.u8_as_u8_id in Ek.
Qed.

Lemma len_canonical_payload k h p e : len p = 32 ->
  len (canonical_leaf_payload k h p e) = len DISCOVERY_LEAF_DOMAIN + 1 + 2 + len h + 32 + 8.
Proof. intros Hp. unfold canonical_leaf_payload. autorewrite with umb_len. lia. Qed.

(** The accepted binds, exactly. *)
Lemma verify_bind_Ok proof x pk :
  verify_discovery_bind proof x = Ok pk <->
  epoch_root proof = pinned_epoch_root x /\ len pk = 32 /\
  leaf_payload proof = canonical_leaf_payload (ex_handle_kind x) (ex_handle x) pk (ex_epoch x) /\
  (forall e, expected_device_pubkey x = Some e -> e = pk) /\
  M.verify_inclusion sha256 (M.leaf_hash sha256 (leaf_payload proof)) (leaf_index proof) (tree_size proof)
    (as_audit_path proof) (pinned_epoch_root x) = Ok tt.
Proof.
  unfold verify_discovery_bind, DEVICE_PUBKEY_LEN. cbn zeta. split.
  - intros Hv. apply rguard_Ok in Hv as [Hr Hv]. apply rguard_Ok in Hv as [Hl Hv]. inv_slice Hv q Sq Lq.
    apply rguard_Ok in Hv as [He Hv]. apply rguard_Ok in Hv as [Hc Hv]. zbool.
    destruct (M.verify_inclusion _ _ _ _ _ _) as [[]|e|] eqn:Hi; [|by destruct e|done]. injection Hv as <-.
    split_and!; [done|lia|done| |by rewrite <- Hr].
    intros e Hx. rewrite Hx in He. zbool. done.
  - intros (Hr & Lp & Hl & He & Hi). rewrite bool_decide_true by done. cbn [negb rguard].
    rewrite Hl at 1. rewrite len_canonical_payload, Z.eqb_refl by done. cbn [negb rguard].
    assert (Hs : slice (E := DiscoveryError) (len DISCOVERY_LEAF_DOMAIN + 1 + 2 + len (ex_handle x))
      (len DISCOVERY_LEAF_DOMAIN + 1 + 2 + len (ex_handle x) + 32) (leaf_payload proof) = Ok pk).
    { pose proof (len_nonneg (ex_handle x)). pose proof (len_nonneg DISCOVERY_LEAF_DOMAIN). rewrite Hl. unfold canonical_leaf_payload. slice_find. }
    rewrite Hs. cbn [rbind].
    assert (Hm : match expected_device_pubkey x with
                 | Some expected_pk => negb (bool_decide (pk = expected_pk)) | None => false end = false).
    { destruct (expected_device_pubkey x) as [e|]; [|done]. rewrite (He e eq_refl). by rewrite bool_decide_true. }
    rewrite Hm, bool_decide_true by done. cbn [negb rguard]. by rewrite Hr, Hi.
Qed.

Lemma verify_bind_total proof x : verify_discovery_bind proof x <> Panic.
Proof.
  unfold verify_discovery_bind, DEVICE_PUBKEY_LEN. intros Hp. cbn zeta in Hp.
  pose proof (len_nonneg (ex_handle x)). pose proof (len_nonneg DISCOVERY_LEAF_DOMAIN). do 5 no_panic_step Hp.
  destruct (M.verify_inclusion _ _ _ _ _ _) as [|e|] eqn:Hi; [done|by destruct e|by apply verify_inclusion_total in Hi].
Qed.
End Bind.

(** ** The OPRF the lookup uses

    An interface to [umbrella-oprf]; its blinding, evaluation and combination are modelled in
    [OprfClient] and [Shamir] over MathComp fields.  No instance connects the two, so the laws
    [OprfLaws] are an assumption of the theorems that use them. *)
Record ThresholdConfig := { threshold : Z; total : Z }.

Class OprfOps (BlindingState : Type) := {
  blind : list byte -> list byte -> res OprfRequest.OprfError (list byte * BlindingState); (* input, randomness *)
  deserialize : list byte -> bool;                                  (* the bytes encode a group element *)
  evaluate_for_testing : list byte -> list byte -> res OprfRequest.OprfError (list byte);   (* blinded, share *)
  threshold_combine : list (Z * list byte) -> ThresholdConfig -> res OprfRequest.OprfError (list byte);
  finalize : BlindingState -> list byte -> list byte -> res OprfRequest.OprfError (list byte)  (* state, input, evaluation *)
}.

(** SHA-256, HKDF and ChaCha20-Poly1305. *)
Class LookupCrypto := {
  sha256 : list byte -> list byte;
  hkdf : list byte -> list byte -> Z -> option (list byte);                           (* key, info, length *)
  chacha_encrypt : list byte -> list byte -> list byte -> list byte -> option (list byte); (* key, nonce, msg, aad *)
  chacha_decrypt : list byte -> list byte -> list byte -> list byte -> option (list byte)  (* key, nonce, ct, aad *)
}.

Definition USERNAME_AEAD_KEY_LABEL : list byte := bytes_of_string "umbrella-r7/discovery/username-aead/v1".
Definition AEAD_KEY_LEN : Z := 32.
Definition AEAD_NONCE_LEN : Z := 12.

Section Lookup.
Context {BlindingState : Type} {Ops : OprfOps BlindingState} {Cr : LookupCrypto}.

Record UsernameQueryState := {
  salt : list byte;
  blinding : BlindingState;
  handle : list byte;
  client_nonce : list byte
}.

(** [From<OprfError>]: the [?] on OPRF results. *)
Definition oprf {A} (m : res OprfRequest.OprfError A) : res DiscoveryError A := rmap_err Oprf m.

Definition prepare_username_query (master_key handle_bytes : list byte) (witness_index : Z)
    (blind_randomness salt_bytes nonce_bytes : list byte) : res DiscoveryError (UsernameRequest * UsernameQueryState) :=
  reject (witness_index =? 0) || (5 <? witness_index) with InputRejected "witness_index must be 1..=5" ;;
  let? inp := rmap_err (fun _ => InputRejected "handle length out of OPRF range") (OprfRequest.input_new handle_bytes) in
  let? (req, state) := oprf (blind (OprfRequest.input_bytes inp) blind_randomness) in
  let? anon_id := derive_per_query_anon_id hkdf master_key witness_index salt_bytes in
  Ok ({| uq_version := WIRE_VERSION; uq_witness_index := witness_index; uq_anon_id := anon_id;
         uq_blinded := req; uq_client_nonce := nonce_bytes |},
      {| salt := salt_bytes; blinding := state; handle := handle_bytes; client_nonce := nonce_bytes |}).

Definition build_aead_aad (cn anon_id : list byte) : list byte := cn ++ anon_id.

Definition compute_username_transcript_tag (cn server_nonce anon_id eval record seed : list byte)
  : res DiscoveryError (list byte) :=
  let digest := sha256 (bytes_of_string "umbrella-r7/discovery/username-transcript/v1" ++ cn ++ server_nonce ++
    anon_id ++ eval ++ to_be 4 (len record) ++ record ++ seed) in
  slice 0 TRANSCRIPT_TAG_LEN digest.

Definition username_server_respond (request : UsernameRequest) (sk_share target_device_pubkey : list byte)
    (proof : KtInclusionProof) (aead_key_for_record : list byte) (nonce_bytes server_nonce : list byte)
  : res DiscoveryError UsernameResponse :=
  let? blinded := oprf (OprfRequest.point_from_bytes deserialize (uq_blinded request)) in
  let? eval := oprf (evaluate_for_testing blinded sk_share) in
  let plaintext := target_device_pubkey ++ epoch_root proof in
  let aad := build_aead_aad (uq_client_nonce request) (uq_anon_id request) in
  let? ciphertext := ok_or (chacha_encrypt aead_key_for_record nonce_bytes plaintext aad) (CryptoInternal "AEAD encrypt") in
  reject MAX_USERNAME_RECORD_LEN <? AEAD_NONCE_LEN + len ciphertext with CryptoInternal "encrypted record too large" ;;
  let record := nonce_bytes ++ ciphertext in
  let? tag := compute_username_transcript_tag (uq_client_nonce request) server_nonce (uq_anon_id request) eval
                record sk_share in
  Ok {| ur_version := WIRE_VERSION; ur_anon_id := uq_anon_id request; ur_evaluation := eval;
        encrypted_record := record; kt_proof := proof; ur_server_nonce := server_nonce; ur_transcript_tag := tag |}.

Definition aead_key_info (handle_bytes : list byte) : list byte :=
  USERNAME_AEAD_KEY_LABEL ++ to_be 2 (len handle_bytes) ++ handle_bytes.

Definition derive_aead_key_from_label (label handle_bytes : list byte) : res DiscoveryError (list byte) :=
  ok_or (hkdf label (aead_key_info handle_bytes) AEAD_KEY_LEN) (CryptoInternal "HKDF expand username AEAD key").

(** [for (wi, resp) in server_responses { partials.push((wi, from_bytes(resp.evaluation)?)) }]. *)
Fixpoint partials (responses : list (Z * UsernameResponse)) : res DiscoveryError (list (Z * list byte)) :=
  match responses with
  | [] => Ok []
  | (wi, resp) :: rest =>
      let? eval := oprf (OprfRequest.point_from_bytes deserialize (ur_evaluation resp)) in
      let? ps := partials rest in
      Ok ((wi, eval) :: ps)
  end.

(** Opening the record of the first response. *)
Definition open_record (state : UsernameQueryState) (aead_key : list byte) (primary : UsernameResponse)
  : res DiscoveryError (list byte * list byte) :=
  reject len (encrypted_record primary) <? AEAD_NONCE_LEN + 16 with UsernameForgeDetected ;;
  let? nonce := slice 0 AEAD_NONCE_LEN (encrypted_record primary) in
  let? ciphertext := slice_from AEAD_NONCE_LEN (encrypted_record primary) in
  let aad := build_aead_aad (client_nonce state) (ur_anon_id primary) in
  let? plaintext := ok_or (chacha_decrypt aead_key nonce ciphertext aad) UsernameForgeDetected in
  reject negb (len plaintext =? DEVICE_PUBKEY_LEN + NODE_HASH_LEN) with UsernameForgeDetected ;;
  let? device_pubkey := slice 0 DEVICE_PUBKEY_LEN plaintext in
  let? record_root := slice_from DEVICE_PUBKEY_LEN plaintext in
  Ok (device_pubkey, record_root).

Definition finalize_username_query (state : UsernameQueryState) (server_responses : list (Z * UsernameResponse))
    (pinned : list byte) (epoch : Z) (config : ThresholdConfig) : res DiscoveryError (list byte * KtInclusionProof) :=
  reject len server_responses <? threshold config
    with InsufficientResponses (len server_responses) (threshold config) ;;
  let? ps := partials server_responses in
  let? combined := oprf (threshold_combine ps config) in
  let? inp := rmap_err (fun _ => InputRejected "handle out of range") (OprfRequest.input_new (handle state)) in
  let? label := oprf (finalize (blinding state) (OprfRequest.input_bytes inp) combined) in
  let? aead_key := derive_aead_key_from_label label (handle state) in
  match server_responses with
  | [] => Panic
  | (_, primary) :: _ =>
      let? (device_pubkey, record_root) := open_record state aead_key primary in
      reject negb (bool_decide (record_root = epoch_root (kt_proof primary))) with KtBindFailed ProofMismatch ;;
      let exp := {| ex_epoch := epoch; pinned_epoch_root := pinned; expected_device_pubkey := Some device_pubkey;
                    ex_handle_kind := 1; ex_handle := handle state |} in
      let? _ := verify_discovery_bind sha256 (kt_proof primary) exp in
      Ok (device_pubkey, kt_proof primary)
  end.

(** ** What an accepted lookup rests on *)
Lemma oprf_Ok {A} (m : res OprfRequest.OprfError A) x : oprf m = Ok x <-> m = Ok x.
Proof. unfold oprf. destruct m; cbn; naive_solver. Qed.

Lemma input_new_Ok h inp :
  OprfRequest.input_new h = Ok inp <-> 0 < len h <= 512 /\ inp = {| OprfRequest.input_bytes := h |}.
Proof.
  unfold OprfRequest.input_new, OprfRequest.MAX_INPUT_BYTES. pose proof (len_nonneg h). split.
  - intros Hi. apply rguard_Ok in Hi as [H1 Hi]. apply rguard_Ok in Hi as [H2 Hi]. injection Hi as <-. zbool. split; [lia|done].
  - intros [Hl ->]. by rewrite (proj2 (Z.eqb_neq _ _)), (proj2 (Z.ltb_ge _ _)) by lia.
Qed.

Lemma open_record_Ok state key primary pk root :
  open_record state key primary = Ok (pk, root) ->
  len pk = 32 /\ exists nonce ct, encrypted_record primary = nonce ++ ct /\ len nonce = AEAD_NONCE_LEN /\
    chacha_decrypt key nonce ct (build_aead_aad (client_nonce state) (ur_anon_id primary)) = Some (pk ++ root).
Proof.
  unfold open_record, DEVICE_PUBKEY_LEN, NODE_HASH_LEN, AEAD_NONCE_LEN, slice_from. intros Ho. cbn zeta in Ho.
  apply rguard_Ok in Ho as [Hl Ho]. inv_slice Ho nn Sn Ln. inv_slice Ho ct Sc Lc.
  apply rbind_Ok in Ho as (pt & Hp & Ho). apply ok_or_Ok in Hp. apply rguard_Ok in Ho as [Hpl Ho].
  inv_slice Ho q Sq Lq. inv_slice Ho rt Sr Lr. apply Ok_inj in Ho. injection Ho as <- <-. zbool. split; [lia|].
  assert (Hpt : q ++ rt = pt) by (eapply (slices_cover (E := DiscoveryError)); [glue_slices|done]).
  assert (Hrec : nn ++ ct = encrypted_record primary) by (eapply (slices_cover (E := DiscoveryError)); [glue_slices|done]).
  exists nn, ct. rewrite Hpt. split; [done|]. split; [lia|done].
Qed.

Lemma finalize_sound state rs pinned epoch cfg pk proof :
  finalize_username_query state rs pinned epoch cfg = Ok (pk, proof) ->
  threshold cfg <= len rs /\ len pk = 32 /\ 0 < len (handle state) <= 512 /\ epoch_root proof = pinned /\
  leaf_payload proof = canonical_leaf_payload 1 (handle state) pk epoch /\
  M.verify_inclusion sha256 (M.leaf_hash sha256 (leaf_payload proof)) (leaf_index proof) (tree_size proof)
    (as_audit_path proof) pinned = Ok tt /\
  exists ps combined label key primary nonce ct,
    partials rs = Ok ps /\ threshold_combine ps cfg = Ok combined /\
    finalize (blinding state) (handle state) combined = Ok label /\
    derive_aead_key_from_label label (handle state) = Ok key /\
    head (snd <$> rs) = Some primary /\ proof = kt_proof primary /\ encrypted_record primary = nonce ++ ct /\
    chacha_decrypt key nonce ct (build_aead_aad (client_nonce state) (ur_anon_id primary)) = Some (pk ++ pinned).
Proof.
  unfold finalize_username_query. intros Hf. cbn zeta in Hf. apply rguard_Ok in Hf as [Ht Hf].
  apply rbind_Ok in Hf as (ps & Hps & Hf). apply rbind_Ok in Hf as (c & Hc & Hf). apply oprf_Ok in Hc.
  apply rbind_Ok in Hf as (inp & Hin & Hf). apply rbind_Ok in Hf as (lb & Hlb & Hf). apply oprf_Ok in Hlb.
  apply rbind_Ok in Hf as (key & Hkey & Hf). destruct rs as [|[wi primary] rs]; [done|].
  apply rbind_Ok in Hf as ([q rt] & Ho & Hf). apply rguard_Ok in Hf as [Hrt Hf].
  apply rbind_Ok in Hf as (vp & Hv & Hf). apply Ok_inj in Hf. injection Hf as <- <-. zbool. subst rt.
  assert (Hin' : OprfRequest.input_new (handle state) = Ok inp) by (by destruct (OprfRequest.input_new (handle state)); [injection Hin as ->|..]).
  apply input_new_Ok in Hin' as [Hh ->]. cbn [OprfRequest.input_bytes] in Hlb.
  apply open_record_Ok in Ho as (Lq & nn & ct & Hrec & _ & Hdec).
  apply verify_bind_Ok in Hv as (Hr & _ & Hpl & He & Hi).
  cbn [pinned_epoch_root ex_handle_kind ex_handle ex_epoch expected_device_pubkey] in *.
  specialize (He q eq_refl). subst vp. split_and!; [lia|lia|lia|lia|done|done|done|].
  exists ps, c, lb, key, primary, nn, ct. rewrite <- Hr. done.
Qed.

(** ** Laws of the primitives, and an honest run *)

(** Servers hold the shares [share 1 .. share total]; the unblinded combination of enough
    evaluations is [label] of the input, whichever servers answered. *)
Class OprfLaws (share : Z -> list byte) (label : list byte -> list byte) (cfg : ThresholdConfig) : Prop := {
  threshold_pos : 0 < threshold cfg;
  evaluate_ok inp r req st wi : blind inp r = Ok (req, st) -> 1 <= wi <= total cfg ->
    exists ev, evaluate_for_testing req (share wi) = Ok ev;
  evaluation_wire req sk ev : evaluate_for_testing req sk = Ok ev -> len ev = 32 /\ deserialize ev = true;
  combine_finalize inp r req st evs :
    blind inp r = Ok (req, st) -> NoDup (fst <$> evs) -> threshold cfg <= len evs ->
    Forall (fun e => 1 <= fst e <= total cfg /\ evaluate_for_testing req (share (fst e)) = Ok (snd e)) evs ->
    exists c, threshold_combine evs cfg = Ok c /\ finalize st inp c = Ok (label inp)
}.

Class LookupCryptoLaws : Prop := {
  sha256_len x : M.is_hash (sha256 x);
  chacha_inverse k n m a c : chacha_encrypt k n m a = Some c -> chacha_decrypt k n c a = Some m;
  chacha_len k n m a c : chacha_encrypt k n m a = Some c -> len c = len m + 16
}.

Section Honest.
Context (share : Z -> list byte) (label : list byte -> list byte) (cfg : ThresholdConfig).
Context {OL : OprfLaws share label cfg} {CL : LookupCryptoLaws}.

(** A server's answer and what it was computed from. *)
Definition honest_response (req : UsernameRequest) (pk : list byte) (proof : KtInclusionProof) (key : list byte)
    (e : Z * UsernameResponse) : Prop :=
  1 <= fst e <= total cfg /\ exists nonce sn', len nonce = AEAD_NONCE_LEN /\
    username_server_respond req (share (fst e)) pk proof key nonce sn' = Ok (snd e).

Lemma respond_Ok req sk pk proof key nn sn' resp :
  username_server_respond req sk pk proof key nn sn' = Ok resp ->
  ur_anon_id resp = uq_anon_id req /\ kt_proof resp = proof /\
  evaluate_for_testing (uq_blinded req) sk = Ok (ur_evaluation resp) /\
  exists ct, encrypted_record resp = nn ++ ct /\
    chacha_encrypt key nn (pk ++ epoch_root proof) (build_aead_aad (uq_client_nonce req) (uq_anon_id req)) = Some ct.
Proof.
  unfold username_server_respond. intros Hr. cbn zeta in Hr. apply rbind_Ok in Hr as (bl & Hb & Hr).
  apply rbind_Ok in Hr as (ev & He & Hr). apply rbind_Ok in Hr as (ct & Hc & Hr). apply ok_or_Ok in Hc.
  apply rguard_Ok in Hr as [_ Hr]. apply rbind_Ok in Hr as (tg & _ & Hr). injection Hr as <-.
  apply oprf_Ok in Hb, He. unfold OprfRequest.point_from_bytes in Hb. apply rguard_Ok in Hb as [_ Hb].
  apply rguard_Ok in Hb as [_ Hb]. injection Hb as <-. cbn. naive_solver.
Qed.

Lemma honest_partials req pk proof key rs :
  Forall (honest_response req pk proof key) rs ->
  partials rs = Ok ((fun e => (fst e, ur_evaluation (snd e))) <$> rs) /\
  Forall (fun e => 1 <= fst e <= total cfg /\ evaluate_for_testing (uq_blinded req) (share (fst e)) = Ok (snd e))
    ((fun e => (fst e, ur_evaluation (snd e))) <$> rs).
Proof.
  induction 1 as [|[wi resp] rs (Hw & nn & sn' & _ & Hr) _ [IH1 IH2]]; [by split|].
  apply respond_Ok in Hr as (_ & _ & He & _). cbn [fst snd] in *. destruct (evaluation_wire _ _ _ He) as [Hl Hd].
  cbn [partials fmap list_fmap fst snd]. split; [|by constructor].
  unfold OprfRequest.point_from_bytes, OprfRequest.POINT_LEN. rewrite Hl, Hd. cbn. by rewrite IH1.
Qed.

(** The record an honest server encrypted opens to the key and root it was made from. *)
Lemma honest_open state req pk proof key wi resp :
  honest_response req pk proof key (wi, resp) -> len pk = 32 -> len (epoch_root proof) = 32 ->
  client_nonce state = uq_client_nonce req ->
  open_record state key resp = Ok (pk, epoch_root proof).
Proof.
  intros (_ & nn & sn' & Ln & Hr) Lp Lr Hn. cbn [fst snd] in Hr.
  apply respond_Ok in Hr as (Ha & _ & _ & ct & Hrec & Hc). pose proof (chacha_len _ _ _ _ _ Hc) as Lc.
  rewrite len_app in Lc. apply chacha_inverse in Hc.
  unfold open_record, DEVICE_PUBKEY_LEN, NODE_HASH_LEN, AEAD_NONCE_LEN, slice_from in *. cbn zeta. rewrite Hrec, Ha, Hn.
  rewrite (proj2 (Z.ltb_ge _ _)) by len_lia. cbn [rguard]. rd_slice nn. rd_slice ct. rewrite Hc. cbn [ok_or rbind].
  rewrite (proj2 (Z.eqb_eq _ _)) by len_lia. cbn [negb rguard]. rd_slice pk. rd_slice (epoch_root proof). done.
Qed.

(** The proof the log hands out for the leaf at index [i]. *)
Definition honest_proof (leaves : list (list byte)) (i : Z) (payload : list byte) : KtInclusionProof :=
  {| epoch_root := M.merkle_root sha256 leaves; tree_size := len leaves; leaf_index := i;
     leaf_payload := payload; siblings := M.build_path_recursive sha256 leaves i |}.

(** C8. A lookup finds the published key: if the handle is published at some index of the log
    with a device key, and at least [threshold] distinct servers answered the prepared query,
    in any order, then finalizing against the root of that log returns the device key and the
    proof. *)
Theorem lookup_end_to_end mk h wi r1 r2 r3 req state leaves i pk epoch key rs :
  prepare_username_query mk h wi r1 r2 r3 = Ok (req, state) ->
  len leaves <= U64_MAX -> 0 <= i < len leaves -> len pk = 32 ->
  leaves !! Z.to_nat i = Some (M.leaf_hash sha256 (canonical_leaf_payload 1 h pk epoch)) ->
  Forall M.is_hash leaves ->
  derive_aead_key_from_label (label h) h = Ok key ->
  NoDup (fst <$> rs) -> threshold cfg <= len rs ->
  Forall (honest_response req pk (honest_proof leaves i (canonical_leaf_payload 1 h pk epoch)) key) rs ->
  finalize_username_query state rs (M.merkle_root sha256 leaves) epoch cfg =
    Ok (pk, honest_proof leaves i (canonical_leaf_payload 1 h pk epoch)).
Proof.
  intros Hp Hn Hi Lp Hleaf Hlv Hkey Hnd Ht Hrs. unfold prepare_username_query in Hp. apply rguard_Ok in Hp as [_ Hp].
  apply rbind_Ok in Hp as (inp & Hin & Hp). apply rbind_Ok in Hp as ([bl st] & Hb & Hp). apply oprf_Ok in Hb.
  apply rbind_Ok in Hp as (an & _ & Hp). injection Hp as <- <-.
  assert (Hin' : OprfRequest.input_new h = Ok inp) by (by destruct (OprfRequest.input_new h); [injection Hin as ->|..]).
  pose proof Hin' as Hh. apply input_new_Ok in Hh as [Hh ->]. cbn [OprfRequest.input_bytes] in Hb.
  destruct (honest_partials _ _ _ _ _ Hrs) as [Hps Hev]. cbn [uq_blinded] in Hev.
  destruct (fun Hn Hl => combine_finalize _ _ _ _ _ Hb Hn Hl Hev) as (c & Hc & Hfin).
  { by rewrite <- list_fmap_compose. } { by rewrite len_fmap. }
  pose proof threshold_pos as Hpos. pose proof (len_nonneg rs).
  unfold finalize_username_query. cbn [handle blinding]. rewrite (proj2 (Z.ltb_ge _ _)) by lia. cbn [rguard].
  rewrite Hps. cbn [rbind]. rewrite Hc, Hin'. cbn [oprf rmap_err rbind OprfRequest.input_bytes].
  rewrite Hfin. cbn [oprf rmap_err rbind]. rewrite Hkey. cbn [rbind].
  destruct rs as [|[w resp] rs]; [change (len (@nil (Z * UsernameResponse))) with 0 in Ht; lia|].
  apply Forall_cons in Hrs as [Hr _]. rewrite (honest_open _ _ _ _ _ _ _ Hr Lp); [|by apply M.is_hash_merkle_root; [apply sha256_len|]|done].
  cbn [rbind]. destruct Hr as (_ & nn & sn' & _ & Hr). cbn [fst snd] in Hr. apply respond_Ok in Hr as (_ & -> & _).
  rewrite bool_decide_true by done. cbn [negb rguard]. cbn zeta.
  rewrite (proj2 (verify_bind_Ok sha256 _ _ pk)); [done|].
  cbn [pinned_epoch_root ex_handle_kind ex_handle ex_epoch expected_device_pubkey epoch_root leaf_payload leaf_index tree_size honest_proof].
  split_and!; [done..|naive_solver|]. apply M.verify_inclusion_Ok; [done..|].
  destruct (M.honest_run sha256 leaves i (M.leaf_hash sha256 (canonical_leaf_payload 1 h pk epoch))) as [R1 R2]; [done..|].
  unfold M.computed_root, honest_proof, as_audit_path. cbn [M.siblings siblings]. rewrite R1, R2. done.
Qed.
End Honest.

(** Only the evaluations of the responses after the first one matter: their records and proofs
    are not compared with the first one's. *)
Lemma other_records_ignored state e rs1 rs2 pinned epoch cfg :
  (fun r => (fst r, ur_evaluation (snd r))) <$> rs1 = (fun r => (fst r, ur_evaluation (snd r))) <$> rs2 ->
  finalize_username_query state (e :: rs1) pinned epoch cfg = finalize_username_query state (e :: rs2) pinned epoch cfg.
Proof.
  intros He. assert (Hl : len rs1 = len rs2) by (apply (f_equal len) in He; by rewrite !len_fmap in He).
  assert (Hp : partials rs1 = partials rs2).
  { clear Hl. revert rs2 He. induction rs1 as [|[w1 r1] rs1 IH]; intros [|[w2 r2] rs2] He; try done.
    injection He as -> Hev He. cbn [fst snd] in Hev. cbn [partials]. by rewrite Hev, (IH rs2). }
  unfold finalize_username_query. destruct e as [w r]. cbn [partials]. by rewrite !len_cons, Hl, Hp.
Qed.

(** The byte strings hashed while a proof is checked. *)
Definition hashed_by (p : KtInclusionProof) : list (list byte) :=
  (M.LEAF_PREFIX :: leaf_payload p) ::
  M.hash_inputs sha256 (leaf_index p, tree_size p - 1, M.leaf_hash sha256 (leaf_payload p)) (siblings p).

(** Two lookups accepted against one root, for one index of a tree of one size, name the
    same handle, epoch and device key, or the bytes hashed while checking their proofs contain
    two different strings with one digest. *)
Theorem lookups_agree {CL : LookupCryptoLaws} s1 s2 rs1 rs2 root e1 e2 c1 c2 pk1 pk2 p1 p2 :
  is_u64 e1 -> is_u64 e2 -> tree_size p1 <= U64_MAX -> 0 <= leaf_index p1 < tree_size p1 ->
  leaf_index p1 = leaf_index p2 -> tree_size p1 = tree_size p2 ->
  Forall M.is_hash (siblings p1) -> Forall M.is_hash (siblings p2) ->
  finalize_username_query s1 rs1 root e1 c1 = Ok (pk1, p1) ->
  finalize_username_query s2 rs2 root e2 c2 = Ok (pk2, p2) ->
  (handle s1 = handle s2 /\ e1 = e2 /\ pk1 = pk2) \/
  exists a b, a ∈ hashed_by p1 /\ b ∈ hashed_by p2 /\ a <> b /\ sha256 a = sha256 b.
Proof.
  intros U1 U2 Hn Hi Ei En F1 F2 H1 H2.
  apply finalize_sound in H1 as (_ & L1 & Lh1 & _ & P1 & V1 & _). apply finalize_sound in H2 as (_ & L2 & Lh2 & _ & P2 & V2 & _).
  rewrite <- Ei, <- En in V2.
  destruct (KtEntry.leaf_data_bind sha256 sha256_len (leaf_index p1) (tree_size p1) root _ _ (as_audit_path p1) (as_audit_path p2) Hn Hi F1 F2 V1 V2)
    as [Heq|Hc]; [left|by right; unfold hashed_by; rewrite <- Ei, <- En].
  rewrite P1, P2 in Heq. apply leaf_payload_inj in Heq as (_ & -> & -> & ->); [done|done|done|unfold U16_MAX; lia..|done|done].
Qed.
End Lookup.

(** The bind accepts exactly the proofs whose root is the pinned one, whose payload is the
    canonical payload of the expected handle, kind and epoch with the returned 32-byte key (the
    expected one, if one is expected) and whose path leads from that payload to the pinned
    root; another root is reported as a fork before anything else is read, and no proof makes
    it panic. *)
Theorem bind_exact sha proof x pk :
  (verify_discovery_bind sha proof x = Ok pk <->
     epoch_root proof = pinned_epoch_root x /\ len pk = 32 /\
     leaf_payload proof = canonical_leaf_payload (ex_handle_kind x) (ex_handle x) pk (ex_epoch x) /\
     (forall e, expected_device_pubkey x = Some e -> e = pk) /\
     M.verify_inclusion sha (M.leaf_hash sha (leaf_payload proof)) (leaf_index proof) (tree_size proof)
       (as_audit_path proof) (pinned_epoch_root x) = Ok tt) /\
  (verify_discovery_bind sha proof x = Err (KtBindFailed RootForked) <-> epoch_root proof <> pinned_epoch_root x) /\
  verify_discovery_bind sha proof x <> Panic.
Proof.
  split; [apply verify_bind_Ok|]. split; [|apply verify_bind_total].
  unfold verify_discovery_bind, rguard, rbind. case_bool_decide as Hr; cbn [negb]; [|done].
  split; [|done]. repeat case_match; try done; intros [= ?]; simplify_eq; exfalso; by eapply slice_not_Err.
Qed.

(** ** Witnesses *)
Definition toy_crypto : LookupCrypto := {|
  sha256 := M.toy_sha;
  hkdf ikm info n := Some (take (Z.to_nat n) (ikm ++ replicate (Z.to_nat n) Byte.x00));
  chacha_encrypt k n m a := Some (m ++ replicate 16 Byte.x00);
  chacha_decrypt k n c a := Some (take (length c - 16) c)
|}.

(** A degenerate group: an evaluation is the blinded input. *)
Definition toy_oprf : OprfOps (list byte) := {|
  blind inp r := Ok (take 32 (inp ++ replicate 32 Byte.x00), inp);
  deserialize _ := true;
  evaluate_for_testing b sk := if len b =? 32 then Ok b else Err OprfRequest.InvalidScalarEncoding;
  threshold_combine evs cfg := ok_or (snd <$> head evs) OprfRequest.CryptoVerificationFailed;
  finalize st inp c := Ok inp
|}.

Definition toy_config : ThresholdConfig := {| threshold := 2; total := 3 |}.

Lemma toy_crypto_laws : LookupCryptoLaws (Cr := toy_crypto).
Proof.
  split; cbn.
  - apply M.toy_sha_len.
  - intros k n m a c [= <-]. f_equal. rewrite length_app. replace (_ - 16)%nat with (length m) by (cbn; lia). by rewrite take_app_length.
  - intros k n m a c [= <-]. by rewrite len_app.
Qed.

Lemma toy_oprf_laws : OprfLaws (Ops := toy_oprf) (fun _ => []) (fun h => h) toy_config.
Proof.
  split; cbn.
  - lia.
  - intros inp r req st wi [= <- <-] _. rewrite (proj2 (Z.eqb_eq _ _)); [eauto|]. pose proof (len_nonneg inp). len_lia.
  - intros req sk ev. destruct (len req =? 32) eqn:E; [|done]. intros [= <-]. zbool. done.
  - intros inp r req st [|[w e] evs] [= <- <-] _ Ht _; [done|]. cbn. eauto.
Qed.

Definition toy_handle : list byte := bytes_of_string "alice".
Definition toy_pk : list byte := replicate 32 Byte.x07.
Definition toy_payload : list byte := canonical_leaf_payload 1 toy_handle toy_pk 9.
Definition toy_log : list (list byte) :=
  [M.leaf_hash M.toy_sha [Byte.x0a]; M.leaf_hash M.toy_sha toy_payload; M.leaf_hash M.toy_sha [Byte.x0b]].
Definition toy_proof : KtInclusionProof := honest_proof (Cr := toy_crypto) toy_log 1 toy_payload.
Definition toy_key : list byte := take 32 (toy_handle ++ replicate 32 Byte.x00).

(** A prepared query and the answers of two servers. *)
Definition toy_query := prepare_username_query (Ops := toy_oprf) (Cr := toy_crypto)
  [] toy_handle 2 [] (replicate 32 Byte.x02) (replicate 32 Byte.x03).
Definition toy_answer (req : UsernameRequest) :=
  username_server_respond (Ops := toy_oprf) (Cr := toy_crypto) req [] toy_pk toy_proof toy_key
    (replicate 12 Byte.x05) (replicate 32 Byte.x06).

Lemma toy_run : exists req st resp, toy_query = Ok (req, st) /\ toy_answer req = Ok resp.
Proof. eexists _, _, _. split; [reflexivity|reflexivity]. Qed.

Lemma lookup_end_to_end_witness :
  exists req st resp, toy_query = Ok (req, st) /\ toy_answer req = Ok resp /\
  finalize_username_query (Ops := toy_oprf) (Cr := toy_crypto) st [(3, resp); (1, resp)]
    (M.merkle_root M.toy_sha toy_log) 9 toy_config = Ok (toy_pk, toy_proof).
Proof.
  destruct toy_run as (req & st & resp & Hq & Ha). exists req, st, resp. split; [exact Hq|]. split; [exact Ha|].
  eapply (lookup_end_to_end (Ops := toy_oprf) (Cr := toy_crypto) (fun _ => []) (fun h => h) toy_config
    (OL := toy_oprf_laws) (CL := toy_crypto_laws)
    [] toy_handle 2 [] (replicate 32 Byte.x02) (replicate 32 Byte.x03) req st toy_log 1 toy_pk 9 toy_key [(3, resp); (1, resp)]).
  - exact Hq.
  - by vm_compute.
  - by vm_compute.
  - done.
  - done.
  - repeat (constructor; [apply M.toy_sha_len|]). constructor.
  - done.
  - by apply (bool_decide_unpack _).
  - done.
  - assert (Hr : forall wi, 1 <= wi <= 3 -> honest_response (Ops := toy_oprf) (Cr := toy_crypto)
      (fun _ => []) toy_config req toy_pk toy_proof toy_key (wi, resp)).
    { intros wi Hw. split; [exact Hw|]. exists (replicate 12 Byte.x05), (replicate 32 Byte.x06). split; [done|exact Ha]. }
    constructor; [apply Hr; lia|]. constructor; [apply Hr; lia|]. constructor.
Defined.

Definition toy_state : UsernameQueryState (BlindingState := list byte) :=
  {| salt := []; blinding := toy_handle; handle := toy_handle; client_nonce := replicate 32 Byte.x03 |}.
Definition toy_response : UsernameResponse :=
  {| ur_version := 1; ur_anon_id := replicate 32 Byte.x04; ur_evaluation := replicate 32 Byte.x08;
     encrypted_record := replicate 12 Byte.x05 ++ toy_pk ++ M.merkle_root M.toy_sha toy_log ++ replicate 16 Byte.x00;
     kt_proof := toy_proof; ur_server_nonce := replicate 32 Byte.x06; ur_transcript_tag := replicate 32 Byte.x09 |}.

Lemma lookups_agree_witness :
  (handle toy_state = handle toy_state /\ 9 = 9 /\ toy_pk = toy_pk) \/
  exists a b, a ∈ hashed_by (Cr := toy_crypto) toy_proof /\ b ∈ hashed_by (Cr := toy_crypto) toy_proof /\ a <> b /\
    M.toy_sha a = M.toy_sha b.
Proof.
  assert (Hh : Forall M.is_hash (siblings toy_proof)) by (vm_compute; repeat constructor).
  assert (Hf : finalize_username_query (Ops := toy_oprf) (Cr := toy_crypto) toy_state [(3, toy_response); (1, toy_response)]
    (M.merkle_root M.toy_sha toy_log) 9 toy_config = Ok (toy_pk, toy_proof)) by (vm_compute; reflexivity).
  eapply (lookups_agree (Ops := toy_oprf) (Cr := toy_crypto) (CL := toy_crypto_laws) toy_state toy_state
    _ _ (M.merkle_root M.toy_sha toy_log) 9 9 toy_config toy_config toy_pk toy_pk toy_proof toy_proof);
    [by vm_compute|by vm_compute|by vm_compute|by vm_compute|done|done|exact Hh|exact Hh|exact Hf|exact Hf].
Defined.
End DiscoveryLookup.
