(* ===== verification/Unlock.v ===== *)
(** * Registration, unlocking and the life of a session
    ([crates/umbrella-client/src/keystore/distributed_identity_client.rs], [lifecycle.rs])

    Registration derives the pseudonyms of an account with a threshold OPRF; unlocking collects
    three shares from five servers, interpolates the secret and derives the session keys; the
    session is wiped by events of the platform.  The scalar field of the curve, the servers and
    the random values are parameters; the OPRF is the interface [OprfOps] of the lookup. *)
From Stdlib Require Import Field.
From S2P Require Import Prelude Bytes OprfRequest ThresholdIdentity DiscoveryBudget DiscoveryWire DiscoveryLookup ClientError.
Local Open Scope string_scope.
Local Open Scope list_scope.
Local Open Scope Z_scope.

Module Unlock.
Module TI := ThresholdIdentity.
Module DL := DiscoveryLookup.

(** The texts of the [Network] errors of this component. *)
Inductive NetworkReason := FewServers | FewOprfServers (got : Z) | InvalidServerId | Transport (what : string).
Definition Error := ClientError NetworkReason.

(** ** The scalar field of curve25519-dalek *)
Class ScalarField := {
  Scalar : Type; s0 : Scalar; s1 : Scalar;
  sadd : Scalar -> Scalar -> Scalar; smul : Scalar -> Scalar -> Scalar; ssub : Scalar -> Scalar -> Scalar;
  sopp : Scalar -> Scalar; sinv : Scalar -> Scalar;
  from_u64 : Z -> Scalar; from_bytes_mod_order : list byte -> Scalar; to_bytes : Scalar -> list byte
}.
(** It is a field in which the five server numbers are distinct and not zero, with a canonical
    encoding. *)
Class ScalarFieldLaws `{ScalarField} : Prop := {
  scalar_field : field_theory s0 s1 sadd smul ssub sopp (fun x y => smul x (sinv y)) sinv eq;
  server_numbers : forall i j, 0 <= i <= 5 -> 0 <= j <= 5 -> from_u64 i = from_u64 j -> i = j;
  from_u64_0 : from_u64 0 = s0;
  scalar_roundtrip : forall x, from_bytes_mod_order (to_bytes x) = x
}.

(** ** Interpolation *)
Section Lagrange.
Context `{ScalarField}.
(** The inner loop: numerator and denominator of one coefficient. *)
Definition lambda_step (x_i : Z) (nd : Scalar * Scalar) (x_j : Z) : Scalar * Scalar :=
  if x_j =? x_i then nd else (smul nd.1 (from_u64 x_j), smul nd.2 (ssub (from_u64 x_j) (from_u64 x_i))).
Definition lambda (xs : list Z) (x_i : Z) : Scalar :=
  let '(num, den) := foldl (lambda_step x_i) (s1, s1) xs in smul num (sinv den).
Definition lagrange_combine_shares (shares : list (Z * list byte)) : list byte :=
  let scalars := (fun s => (s.1, from_bytes_mod_order s.2)) <$> shares in
  to_bytes (foldl (fun acc s => sadd acc (smul s.2 (lambda (fst <$> scalars) s.1))) s0 scalars).

Context {L : ScalarFieldLaws}.
Add Field scalars : scalar_field.
(** The secret [a] shared by the polynomial [a + b x + c x^2]. *)
Definition poly (a b c : Scalar) (i : Z) : Scalar :=
  sadd a (smul (from_u64 i) (sadd b (smul c (from_u64 i)))).

Lemma from_u64_neq i j : 0 <= i <= 5 -> 0 <= j <= 5 -> i <> j -> ssub (from_u64 i) (from_u64 j) <> s0.
Proof.
  intros Hi Hj Hn Heq. apply Hn, server_numbers; try done.
  transitivity (sadd (ssub (from_u64 i) (from_u64 j)) (from_u64 j)); [ring|]. rewrite Heq. ring.
Qed.
Lemma from_u64_pos i : 1 <= i <= 5 -> from_u64 i <> s0.
Proof. intros Hi Heq. rewrite <- from_u64_0 in Heq. apply server_numbers in Heq; lia. Qed.

(** Three shares with pairwise distinct numbers: what the loops compute. *)
Lemma combine_three i j k yi yj yk :
  i <> j -> i <> k -> j <> k ->
  lagrange_combine_shares [(i, yi); (j, yj); (k, yk)] = to_bytes
    (let X := from_u64 i in let Y := from_u64 j in let Z := from_u64 k in
     sadd (sadd (smul (from_bytes_mod_order yi) (smul (smul Y Z) (sinv (smul (ssub Y X) (ssub Z X)))))
                (smul (from_bytes_mod_order yj) (smul (smul X Z) (sinv (smul (ssub X Y) (ssub Z Y))))))
          (smul (from_bytes_mod_order yk) (smul (smul X Y) (sinv (smul (ssub X Z) (ssub Y Z)))))).
Proof.
  intros Hij Hik Hjk. unfold lagrange_combine_shares, lambda. cbn [fmap list_fmap foldl fst snd]. unfold lambda_step. cbn [fst snd].
  rewrite !Z.eqb_refl. rewrite !(proj2 (Z.eqb_neq _ _)) by lia. cbn [fst snd]. f_equal.
  assert (Hone : forall x, smul s1 x = x) by (intros; ring). rewrite !Hone. ring.
Qed.
Lemma lagrange_three a b c i j k :
  1 <= i <= 5 -> 1 <= j <= 5 -> 1 <= k <= 5 -> i <> j -> i <> k -> j <> k ->
  lagrange_combine_shares [(i, to_bytes (poly a b c i)); (j, to_bytes (poly a b c j)); (k, to_bytes (poly a b c k))] = to_bytes a.
Proof.
  intros Hi Hj Hk Hij Hik Hjk. rewrite combine_three by done. cbn zeta. rewrite !scalar_roundtrip. unfold poly. f_equal.
  field. split_and!; apply from_u64_neq; lia.
Qed.
(** A wrong share moves the result: the interpolation does not detect it. *)
Lemma lagrange_wrong_share a b c i j k e :
  1 <= i <= 5 -> 1 <= j <= 5 -> 1 <= k <= 5 -> i <> j -> i <> k -> j <> k -> e <> s0 ->
  exists a', a' <> a /\
  lagrange_combine_shares [(i, to_bytes (sadd (poly a b c i) e)); (j, to_bytes (poly a b c j)); (k, to_bytes (poly a b c k))] = to_bytes a'.
Proof.
  intros Hi Hj Hk Hij Hik Hjk He. rewrite combine_three by done. cbn zeta. rewrite !scalar_roundtrip.
  set (X := from_u64 i). set (Y := from_u64 j). set (W := from_u64 k).
  exists (sadd a (smul e (smul (smul Y W) (sinv (smul (ssub Y X) (ssub W X)))))). split.
  - intros Heq. apply He.
    transitivity (smul (ssub (sadd a (smul e (smul (smul Y W) (sinv (smul (ssub Y X) (ssub W X)))))) a) (smul (smul (ssub Y X) (ssub W X)) (sinv (smul Y W)))).
    + field. split_and!; first [by apply from_u64_pos | apply from_u64_neq; lia].
    + rewrite Heq. ring.
  - f_equal. unfold poly, X, Y, W. field. split_and!; apply from_u64_neq; lia.
Qed.
End Lagrange.

(** ** Data *)
Record BootstrapInput := { pin : list byte; duress_pin : option (list byte); phone_e164 : option string; otp_secret : option (list byte) }.
Record BootstrapOutput := {
  identity_pk : list byte; account_local_salt : list byte; device_random_handle : list byte;
  initial_transcript : TI.DerivationTranscript; per_server_anonymous_ids : list (list byte)
}.
Record UnlockSession := { device_key : list byte; master_key : list byte; us_identity_pk : list byte }.

(** The servers: [unwrap_share server_id anonymous_id pin_root transcript] and
    [evaluate_anon_id server_id blinded]. *)
Definition ServerUnwrapClient := Z -> list byte -> list byte -> TI.DerivationTranscript -> res Error (list byte).
Definition ServerOprfClient := Z -> list byte -> res Error (list byte).

Section Client.
Context `{SF : ScalarField} {PC : PinCrypto} {BlindingState : Type} {Ops : DL.OprfOps BlindingState}.

Definition crypto {A} (what : string) (m : res TI.ThresholdIdentityError A) : res Error A := rmap_err (fun _ => Crypto what) m.
Definition oprf {A} (m : res OprfRequest.OprfError A) : res Error A := rmap_err Oprf m.

(** ** Unlocking *)
(** [1..=5]. *)
Definition all_servers : list Z := [1; 2; 3; 4; 5].
(** The loop over the servers; [got] is the filled part of [collected]. *)
Fixpoint collect (server : ServerUnwrapClient) (anon_ids : list (list byte)) (pin_root : list byte) (t : TI.DerivationTranscript)
    (ids : list Z) (got : list (Z * list byte)) : res Error (list (Z * list byte)) :=
  match ids with
  | [] => Ok got
  | id :: ids =>
      if 3 <=? len got then Ok got
      else match anon_ids !! Z.to_nat (id - 1) with
           | None => Panic
           | Some anon =>
               match server id anon pin_root t with
               | Ok share => collect server anon_ids pin_root t ids (got ++ [(id, share)])
               | Err WrongPin => Err WrongPin
               | Err _ => collect server anon_ids pin_root t ids got
               | Panic => Panic
               end
           end
  end.
Definition unlock_with_pin (pin : list byte) (bootstrap : BootstrapOutput) (device_random : list byte)
    (transcript : TI.DerivationTranscript) (server : ServerUnwrapClient) : res Error UnlockSession :=
  let? pin_root := crypto "PIN-KDF" (TI.derive_pin_root pin (account_local_salt bootstrap)) in
  let? collected := collect server (per_server_anonymous_ids bootstrap) pin_root transcript all_servers [] in
  reject len collected <? 3 with Network FewServers ;;
  let combined_share := lagrange_combine_shares collected in
  let? device_key := crypto "derive device_key" (TI.derive_device_key pin_root combined_share device_random transcript) in
  let? master_key := crypto "derive master_key" (TI.derive_master_key pin_root combined_share (account_local_salt bootstrap) transcript) in
  Ok {| device_key := device_key; master_key := master_key; us_identity_pk := identity_pk bootstrap |}.

(** [MockServerCluster]: five pairs of an expected PIN root and a share. *)
Definition mock_unwrap_share (shares : list (list byte * list byte)) : ServerUnwrapClient := fun server_id _ pin_root _ =>
  reject (server_id =? 0) || (len shares <? server_id) with Network InvalidServerId ;;
  match shares !! Z.to_nat (server_id - 1) with
  | None => Panic
  | Some (expected, share) => if bool_decide (expected = pin_root) then Ok share else Err WrongPin
  end.

(** ** Registration *)
Definition DEFAULT_TOTAL : Z := 5.
Definition witness_index_new (i : Z) : res OprfRequest.OprfError Z :=
  if (i =? 0) || (DEFAULT_TOTAL <? i) then Err (OprfRequest.UnknownWitnessIndex i) else Ok i.
Definition threshold_config_default : DL.ThresholdConfig := {| DL.threshold := 3; DL.total := 5 |}.
Fixpoint collect_evaluations (server : ServerOprfClient) (blinded : list byte) (ids : list Z) (got : list (Z * list byte))
    : res Error (list (Z * list byte)) :=
  match ids with
  | [] => Ok got
  | id :: ids =>
      if 3 <=? len got then Ok got
      else match server id blinded with
           | Ok eval => let? wi := oprf (witness_index_new id) in collect_evaluations server blinded ids (got ++ [(wi, eval)])
           | Err _ => collect_evaluations server blinded ids got
           | Panic => Panic
           end
  end.
Definition derive_anon_ids_via_oprf (pin_root : list byte) (server : ServerOprfClient) (blind_randomness : list byte)
    : res Error (list (list byte)) :=
  let? oprf_input := oprf (OprfRequest.input_new pin_root) in
  let? (blinded, blind_state) := oprf (DL.blind (OprfRequest.input_bytes oprf_input) blind_randomness) in
  let? collected := collect_evaluations server blinded all_servers [] in
  reject len collected <? 3 with Network (FewOprfServers (len collected)) ;;
  let? combined := oprf (DL.threshold_combine collected threshold_config_default) in
  let? oprf_label := oprf (DL.finalize blind_state (OprfRequest.input_bytes oprf_input) combined) in
  crypto "anon-id" (TI.derive_all_anonymous_ids oprf_label).
(** [salt], [handle] and [blind_randomness] are what the function draws from the generator. *)
Definition bootstrap_account (input : BootstrapInput) (identity_pk_from_server_dkg : list byte) (server : ServerOprfClient)
    (salt handle blind_randomness : list byte) : res Error BootstrapOutput :=
  let? pin_root := crypto "PIN-KDF bootstrap" (TI.derive_pin_root (pin input) salt) in
  let? ids := derive_anon_ids_via_oprf pin_root server blind_randomness in
  match ids with
  | [] => Panic
  | primary :: _ =>
      Ok {| identity_pk := identity_pk_from_server_dkg; account_local_salt := salt; device_random_handle := handle;
            initial_transcript := {| TI.dt_account_id := primary; TI.dt_epoch := 1 |}; per_server_anonymous_ids := ids |}
  end.

(** ** What the loop over the servers collects *)
(** The servers asked, in order: each answered with a share or failed without [WrongPin]. *)
Definition answers (server : ServerUnwrapClient) (anon_ids : list (list byte)) pin_root t (id : Z) : option (list byte) :=
  match anon_ids !! Z.to_nat (id - 1) with
  | Some anon => match server id anon pin_root t with Ok share => Some share | _ => None end
  | None => None
  end.
Definition reachable (server : ServerUnwrapClient) (anon_ids : list (list byte)) pin_root t (id : Z) : Prop :=
  exists anon, anon_ids !! Z.to_nat (id - 1) = Some anon /\ server id anon pin_root t <> Err WrongPin /\ server id anon pin_root t <> Panic.
Definition shares_of (server : ServerUnwrapClient) (anon_ids : list (list byte)) pin_root t (ids : list Z) : list (Z * list byte) :=
  omap (fun id => pair id <$> answers server anon_ids pin_root t id) ids.

Lemma collect_exact server anon pr t ids : forall got,
  Forall (reachable server anon pr t) ids -> len got <= 3 ->
  collect server anon pr t ids got = Ok (take 3 (got ++ shares_of server anon pr t ids)).
Proof.
  induction ids as [|id ids IH]; intros got Hall Hl; cbn [collect shares_of omap list_omap].
  - rewrite app_nil_r, take_ge; [done|unfold len in *; lia].
  - apply Forall_cons in Hall as [(a & Ha & Hw & Hp) Hall]. fold (shares_of server anon pr t ids).
    destruct (Z.leb_spec 3 (len got)).
    + rewrite take_app_le by (unfold len in *; lia). rewrite take_ge; [done|unfold len in *; lia].
    + unfold answers. rewrite Ha. destruct (server id a pr t) as [share|e|] eqn:Hs; [| |done]; cbn [fmap option_fmap option_map].
      * rewrite IH; [|done|rewrite len_app, len_cons, len_nil; lia]. by rewrite <- app_assoc.
      * destruct e; try done; by apply IH; try lia.
Qed.
Lemma collect_refused server anon_ids pr t id ids got anon :
  len got < 3 -> anon_ids !! Z.to_nat (id - 1) = Some anon -> server id anon pr t = Err WrongPin ->
  collect server anon_ids pr t (id :: ids) got = Err WrongPin.
Proof. intros Hl Ha Hs. cbn [collect]. rewrite (proj2 (Z.leb_gt _ _)) by lia. by rewrite Ha, Hs. Qed.
Lemma shares_of_ids server anon pr t ids : (fst <$> shares_of server anon pr t ids) `sublist_of` ids.
Proof.
  induction ids as [|id ids IH]; [constructor|]. cbn [shares_of omap list_omap].
  destruct (answers server anon pr t id) eqn:He; cbn [fmap option_fmap option_map]; [by constructor|by constructor].
Qed.
Lemma elem_shares_of server anon pr t ids i y : (i, y) ∈ shares_of server anon pr t ids -> answers server anon pr t i = Some y.
Proof.
  intros Hin. apply list_elem_of_omap in Hin as (id & _ & He). destruct (answers server anon pr t id) eqn:Ha; [|done].
  cbn in He. by injection He as <- <-.
Qed.
Lemma three_of (l : list (Z * list byte)) : 3 <= len l -> exists a b c, take 3 l = [a; b; c].
Proof. destruct l as [|a [|b [|c l]]]; unfold len; cbn [length]; try lia. intros _. by exists a, b, c. Qed.

(** ** Unlocking succeeds with any three servers *)
(** Server [id] answers with its point of the polynomial or fails without refusing the PIN. *)
Definition honest (a b c : Scalar) (server : ServerUnwrapClient) (anon_ids : list (list byte)) pin_root t (id : Z) : Prop :=
  reachable server anon_ids pin_root t id /\
  forall y, answers server anon_ids pin_root t id = Some y -> y = to_bytes (poly a b c id).
Lemma in_all id : id ∈ all_servers -> id = 1 \/ id = 2 \/ id = 3 \/ id = 4 \/ id = 5.
Proof. unfold all_servers. set_unfold. tauto. Qed.
Lemma all_in id : bool_decide (id ∈ all_servers) = true -> id ∈ all_servers.
Proof. apply bool_decide_eq_true_1. Qed.
Lemma shares_of_all server anon pr t (f : Z -> list byte) ids :
  (forall id, id ∈ ids -> answers server anon pr t id = Some (f id)) -> shares_of server anon pr t ids = (fun id => (id, f id)) <$> ids.
Proof.
  induction ids as [|id ids IH]; [done|]. intros Hall. cbn [shares_of omap list_omap fmap list_fmap].
  rewrite (Hall id) by left. cbn [fmap option_fmap option_map]. f_equal. apply IH. intros x Hx. apply Hall. by right.
Qed.
Lemma all_servers_NoDup : NoDup all_servers.
Proof. apply (bool_decide_unpack _). vm_compute. exact I. Qed.

(** What the keys of a session are, from the PIN root and the interpolated share. *)
Definition session_from (b : BootstrapOutput) (pin_root share device_random : list byte) (t : TI.DerivationTranscript) : res Error UnlockSession :=
  let? dk := crypto "derive device_key" (TI.derive_device_key pin_root share device_random t) in
  let? mk := crypto "derive master_key" (TI.derive_master_key pin_root share (account_local_salt b) t) in
  Ok {| device_key := dk; master_key := mk; us_identity_pk := identity_pk b |}.
Lemma unlock_reachable server pin bo dr t pr :
  TI.derive_pin_root pin (account_local_salt bo) = Ok pr ->
  Forall (reachable server (per_server_anonymous_ids bo) pr t) all_servers ->
  unlock_with_pin pin bo dr t server =
  let shares := shares_of server (per_server_anonymous_ids bo) pr t all_servers in
  if len shares <? 3 then Err (Network FewServers) else session_from bo pr (lagrange_combine_shares (take 3 shares)) dr t.
Proof.
  intros Hp Hr. unfold unlock_with_pin. rewrite Hp. cbn [crypto rmap_err rbind]. rewrite (collect_exact _ _ _ _ _ [] Hr) by done.
  cbn [rbind app]. cbn zeta. rewrite len_take. unfold rguard.
  set (l := shares_of _ _ _ _ _). destruct (Z.ltb_spec (len l) 3).
  - rewrite (proj2 (Z.ltb_lt _ _)) by lia. done.
  - rewrite (proj2 (Z.ltb_ge _ _)) by lia. done.
Qed.

Context {SL : ScalarFieldLaws}.
Lemma honest_combined a b c server anon pr t :
  Forall (honest a b c server anon pr t) all_servers -> 3 <= len (shares_of server anon pr t all_servers) ->
  lagrange_combine_shares (take 3 (shares_of server anon pr t all_servers)) = to_bytes a.
Proof.
  intros Hh Hl. destruct (three_of _ Hl) as ([i yi] & [j yj] & [k yk] & Ht).
  assert (Hin : forall x, x ∈ take 3 (shares_of server anon pr t all_servers) ->
    1 <= x.1 <= 5 /\ x.2 = to_bytes (poly a b c x.1)).
  { intros [x y] Hx. apply elem_of_take in Hx as (n & Hx & _). apply list_elem_of_lookup_2 in Hx.
    pose proof (elem_shares_of _ _ _ _ _ _ _ Hx) as Ha. apply (list_elem_of_fmap_2 fst) in Hx. cbn [fst] in Hx.
    assert (Hid : x ∈ all_servers) by (exact (elem_of_submseteq _ _ _ Hx (sublist_submseteq _ _ (shares_of_ids _ _ _ _ _)))).
    pose proof (proj1 (Forall_forall _ _) Hh x Hid) as [_ Hy]. cbn. split; [|by apply Hy].
    unfold all_servers in Hid. set_unfold. lia. }
  assert (Hnd : NoDup (fst <$> take 3 (shares_of server anon pr t all_servers))).
  { rewrite fmap_take. eapply sublist_NoDup; [|apply sublist_take]. eapply sublist_NoDup; [|apply shares_of_ids]. apply all_servers_NoDup. }
  rewrite Ht in *. cbn [fmap list_fmap fst] in Hnd.
  destruct (Hin (i, yi)) as [Hi Ei]; [set_solver|]. destruct (Hin (j, yj)) as [Hj Ej]; [set_solver|]. destruct (Hin (k, yk)) as [Hk Ek]; [set_solver|].
  cbn in *. subst. rewrite !NoDup_cons in Hnd. apply lagrange_three; try done; set_solver.
Qed.

(** Any three of the five servers unlock an account: whichever servers fail, when at least three
    answer with their points of the polynomial that shares [a], the session has the keys derived
    from [a]; with fewer answers unlocking fails as a network error. *)
Theorem unlock_any_three a b c server pin bo dr t pr :
  TI.derive_pin_root pin (account_local_salt bo) = Ok pr ->
  Forall (honest a b c server (per_server_anonymous_ids bo) pr t) all_servers ->
  unlock_with_pin pin bo dr t server =
  if len (shares_of server (per_server_anonymous_ids bo) pr t all_servers) <? 3 then Err (Network FewServers)
  else session_from bo pr (to_bytes a) dr t.
Proof.
  intros Hp Hh. rewrite (unlock_reachable server pin bo dr t pr Hp) by (eapply Forall_impl; [exact Hh|by intros ? []]).
  cbn zeta. destruct (Z.ltb_spec (len (shares_of server (per_server_anonymous_ids bo) pr t all_servers)) 3) as [|Hge]; [done|].
  by rewrite (honest_combined a b c).
Qed.

(** One server is enough to stop an unlock or to corrupt it: a [WrongPin] of a server that is
    asked ends the attempt whatever the others say, and a wrong share is not noticed, the session
    being made from another secret. *)
Theorem one_server_decides a b c e server pin bo dr t pr :
  TI.derive_pin_root pin (account_local_salt bo) = Ok pr -> e <> s0 ->
  (forall id anon, id ∈ all_servers -> per_server_anonymous_ids bo !! Z.to_nat (id - 1) = Some anon ->
     server id anon pr t = if id =? 1 then Ok (to_bytes (sadd (poly a b c 1) e)) else Ok (to_bytes (poly a b c id))) ->
  len (per_server_anonymous_ids bo) = 5 ->
  (exists a', a' <> a /\ unlock_with_pin pin bo dr t server = session_from bo pr (to_bytes a') dr t) /\
  (forall server', (exists anon, per_server_anonymous_ids bo !! 0%nat = Some anon /\ server' 1 anon pr t = Err WrongPin) ->
     unlock_with_pin pin bo dr t server' = Err WrongPin).
Proof.
  intros Hp He Hs Hl. split.
  - assert (Hans : forall id, id ∈ all_servers -> answers server (per_server_anonymous_ids bo) pr t id =
      Some (if id =? 1 then to_bytes (sadd (poly a b c 1) e) else to_bytes (poly a b c id)) /\ reachable server (per_server_anonymous_ids bo) pr t id).
    { intros id Hid. assert (Hr : 1 <= id <= 5) by (unfold all_servers in Hid; set_unfold; lia).
      destruct (lookup_lt_is_Some_2 (per_server_anonymous_ids bo) (Z.to_nat (id - 1))) as [anon Ha]; [unfold len in Hl; lia|].
      specialize (Hs id anon Hid Ha). unfold answers, reachable. rewrite Ha. split; [|exists anon; split; [done|]]; rewrite Hs; by destruct (id =? 1). }
    rewrite (unlock_reachable server pin bo dr t pr Hp) by (apply Forall_forall; intros; by apply Hans).
    pose proof (shares_of_all _ _ _ _ _ _ (fun id Hid => proj1 (Hans id Hid))) as Hsh.
    rewrite Hsh. destruct (lagrange_wrong_share a b c 1 2 3 e) as (a' & Ha & Hc); try lia; try done. exists a'. split; [done|].
    rewrite <- Hc. reflexivity.
  - intros server' (anon & Ha & Hw). unfold unlock_with_pin. rewrite Hp. cbn [crypto rmap_err rbind]. unfold all_servers.
    by rewrite (collect_refused server' _ _ _ _ _ _ anon).
Qed.

(** ** Registration does not depend on the servers that answer *)
Context (share : Z -> list byte) (label : list byte -> list byte) {OL : DL.OprfLaws (Ops := Ops) share label threshold_config_default}.
(** Server [id] evaluates with its share of the key or fails. *)
Definition oprf_honest (server : ServerOprfClient) (blinded : list byte) (id : Z) : Prop :=
  match server id blinded with
  | Ok ev => DL.evaluate_for_testing blinded (share id) = Ok ev
  | Err _ => True
  | Panic => False
  end.
Definition evals_of (server : ServerOprfClient) (blinded : list byte) (ids : list Z) : list (Z * list byte) :=
  omap (fun id => match server id blinded with Ok ev => Some (id, ev) | _ => None end) ids.

(** The loop asks no further once it has three evaluations, so [rest] may be anything. *)
Lemma collect_evaluations_exact server blinded ids rest : forall got,
  Forall (fun id => 1 <= id <= 5 /\ oprf_honest server blinded id) ids -> len got <= 3 ->
  3 <= len (got ++ evals_of server blinded ids) ->
  collect_evaluations server blinded (ids ++ rest) got = Ok (take 3 (got ++ evals_of server blinded ids)).
Proof.
  induction ids as [|id ids IH]; intros got Hall Hl Hge; cbn [app evals_of omap list_omap] in *.
  - rewrite app_nil_r in *. rewrite take_ge by (unfold len in *; lia).
    destruct rest; [done|]. cbn [collect_evaluations]. by rewrite (proj2 (Z.leb_le _ _)).
  - apply Forall_cons in Hall as [[Hr Hh] Hall]. fold (evals_of server blinded ids) in *. unfold oprf_honest in Hh. cbn [collect_evaluations].
    destruct (Z.leb_spec 3 (len got)).
    + rewrite take_app_le by (unfold len in *; lia). rewrite take_ge; [done|unfold len in *; lia].
    + destruct (server id blinded) as [ev|e|]; [| |done].
      * unfold witness_index_new, DEFAULT_TOTAL. rewrite (proj2 (Z.eqb_neq _ _)), (proj2 (Z.ltb_ge _ _)) by lia. cbn [orb oprf rmap_err rbind].
        rewrite IH; [|done|rewrite len_app, len_cons, len_nil; lia|by rewrite <- app_assoc]. by rewrite <- app_assoc.
      * by apply IH.
Qed.
Lemma evals_of_ids server blinded ids : (fst <$> evals_of server blinded ids) `sublist_of` ids.
Proof.
  induction ids as [|id ids IH]; [constructor|]. cbn [evals_of omap list_omap]. by destruct (server id blinded); constructor.
Qed.

Lemma anon_ids_oprf server ids rest r pr blinded bst :
  0 < len pr <= 512 -> DL.blind pr r = Ok (blinded, bst) -> all_servers = ids ++ rest ->
  Forall (oprf_honest server blinded) ids -> 3 <= len (evals_of server blinded ids) ->
  derive_anon_ids_via_oprf pr server r = crypto "anon-id" (TI.derive_all_anonymous_ids (label pr)).
Proof.
  intros Hl Hb Hall Hh Hge.
  assert (Hin : forall id, id ∈ ids -> 1 <= id <= 5).
  { intros id Hid. assert (Hid' : id ∈ all_servers) by (rewrite Hall; apply elem_of_app; by left). apply in_all in Hid'. lia. }
  assert (Hnd : NoDup ids) by (pose proof all_servers_NoDup as Hn; rewrite Hall in Hn; by apply NoDup_app in Hn as []).
  unfold derive_anon_ids_via_oprf. rewrite (proj2 (DL.input_new_Ok pr _) (conj Hl eq_refl)). cbn [oprf rmap_err rbind OprfRequest.input_bytes].
  rewrite Hb. cbn [oprf rmap_err rbind].
  rewrite Hall, collect_evaluations_exact; [|apply Forall_forall; intros id Hid; split; [by apply Hin|by eapply Forall_forall in Hh]|done|done].
  cbn [app rbind]. rewrite len_take. unfold rguard. rewrite (proj2 (Z.ltb_ge _ _)) by lia.
  assert (Hsub : take 3 (evals_of server blinded ids) `sublist_of` evals_of server blinded ids) by apply sublist_take.
  destruct (DL.combine_finalize pr r blinded bst (take 3 (evals_of server blinded ids)) Hb) as (cmb & Hc & Hf).
  - eapply sublist_NoDup; [|apply (fmap_sublist fst); exact Hsub]. eapply sublist_NoDup; [exact Hnd|apply evals_of_ids].
  - rewrite len_take. change (DL.threshold threshold_config_default) with 3. lia.
  - apply Forall_forall. intros [id ev] Hid. apply (fun H => elem_of_submseteq _ _ _ H (sublist_submseteq _ _ Hsub)) in Hid. apply list_elem_of_omap in Hid as (id' & Hi & He). cbn [fst snd].
    destruct (server id' blinded) as [ev'| |] eqn:Hs; [|done|done]. injection He as <- <-. split; [by apply Hin|].
    pose proof (proj1 (Forall_forall _ _) Hh id' Hi) as Ho. unfold oprf_honest in Ho. by rewrite Hs in Ho.
  - rewrite Hc. cbn [oprf rmap_err rbind]. rewrite Hf. done.
Qed.
Lemma derive_ids_len mk sids : forall ids, TI.derive_ids mk sids = Ok ids -> len ids = len sids.
Proof.
  induction sids as [|x sids IH]; cbn [TI.derive_ids]; intros ids Hd; [by injection Hd as <-|].
  apply rbind_Ok in Hd as (i & _ & Hd). apply rbind_Ok in Hd as (js & Hi & Hd). injection Hd as <-. rewrite !len_cons. by rewrite (IH _ Hi).
Qed.

(** The answer of a registered server: the share when the PIN root is the registered one. *)
Definition registered (a b c : Scalar) (pr : list byte) : list (list byte * list byte) := (fun id => (pr, to_bytes (poly a b c id))) <$> all_servers.
Lemma registered_lookup a b c pr id : id ∈ all_servers -> registered a b c pr !! Z.to_nat (id - 1) = Some (pr, to_bytes (poly a b c id)).
Proof.
  intros Hid. apply in_all in Hid. by destruct Hid as [->|[->|[->|[->| ->]]]].
Qed.
Lemma mock_answer a b c pr anon pr' t id : id ∈ all_servers ->
  mock_unwrap_share (registered a b c pr) id anon pr' t = if bool_decide (pr = pr') then Ok (to_bytes (poly a b c id)) else Err WrongPin.
Proof.
  intros Hid. assert (Hr : 1 <= id <= 5) by (unfold all_servers in Hid; set_unfold; lia).
  unfold mock_unwrap_share. change (len (registered a b c pr)) with 5.
  rewrite (proj2 (Z.eqb_neq _ _)), (proj2 (Z.ltb_ge _ _)) by lia. cbn [orb rguard]. by rewrite registered_lookup.
Qed.

Lemma registered_answers a b c pr anons t id : len anons = 5 -> id ∈ all_servers ->
  answers (mock_unwrap_share (registered a b c pr)) anons pr t id = Some (to_bytes (poly a b c id)) /\
  reachable (mock_unwrap_share (registered a b c pr)) anons pr t id.
Proof.
  intros Hl Hid. destruct (lookup_lt_is_Some_2 anons (Z.to_nat (id - 1))) as [anon Ha]; [apply in_all in Hid; unfold len in Hl; lia|].
  unfold answers, reachable. rewrite Ha. pose proof (mock_answer a b c pr anon pr t id Hid) as Hm. rewrite bool_decide_true in Hm by done.
  rewrite Hm. split; [done|]. exists anon. by rewrite Hm.
Qed.

(** Registration when the servers asked for the first three evaluations are honest. *)
Lemma bootstrap_honest inp pk server asked rest salt handle r pr blinded bst ids :
  TI.derive_pin_root (pin inp) salt = Ok pr -> 0 < len pr <= 512 -> DL.blind pr r = Ok (blinded, bst) ->
  all_servers = asked ++ rest -> Forall (oprf_honest server blinded) asked -> 3 <= len (evals_of server blinded asked) ->
  TI.derive_all_anonymous_ids (label pr) = Ok ids ->
  len ids = 5 /\ bootstrap_account inp pk server salt handle r = Ok
    {| identity_pk := pk; account_local_salt := salt; device_random_handle := handle;
       initial_transcript := {| TI.dt_account_id := default [] (head ids); TI.dt_epoch := 1 |}; per_server_anonymous_ids := ids |}.
Proof.
  intros Hp Hl Hb Hall Hh Hge Hids. pose proof (derive_ids_len _ _ _ Hids) as H5. change (len [1; 2; 3; 4; 5]) with 5 in H5. split; [done|].
  unfold bootstrap_account. rewrite Hp. cbn [crypto rmap_err rbind].
  rewrite (anon_ids_oprf server asked rest r pr blinded bst) by done. rewrite Hids. cbn [crypto rmap_err rbind]. by destruct ids.
Qed.

(** ** A registered cluster of which some servers are down *)
Definition cluster (up : Z -> bool) (a b c : Scalar) (pr : list byte) : ServerUnwrapClient := fun id anon pin_root t =>
  if up id then mock_unwrap_share (registered a b c pr) id anon pin_root t else Err (Network (Transport "unreachable")).

Lemma existsb_false_filter {A} (f : A -> bool) l : existsb f l = false -> List.filter f l = [].
Proof. induction l as [|x l IH]; [done|]. cbn. destruct (f x); [done|exact IH]. Qed.

Lemma cluster_shares up a b c pr anons t ids : len anons = 5 -> (forall id, id ∈ ids -> id ∈ all_servers) ->
  shares_of (cluster up a b c pr) anons pr t ids = (fun id => (id, to_bytes (poly a b c id))) <$> List.filter up ids.
Proof.
  intros Hl. induction ids as [|id ids IH]; intros Hall; [done|]. cbn [shares_of omap list_omap List.filter].
  fold (shares_of (cluster up a b c pr) anons pr t ids). rewrite IH by (intros x Hx; apply Hall; by right).
  destruct (registered_answers a b c pr anons t id Hl (Hall id ltac:(left))) as [Ha _]. unfold answers, cluster in *.
  destruct (up id); [by rewrite Ha|]. by destruct (anons !! _).
Qed.

Lemma cluster_honest up a b c pr anons t : len anons = 5 -> Forall (honest a b c (cluster up a b c pr) anons pr t) all_servers.
Proof.
  intros Hl. apply Forall_forall. intros id Hid.
  destruct (registered_answers a b c pr anons t id Hl Hid) as [Ha (anon & Hn & Hw & Hp)].
  unfold honest, reachable, answers, cluster in *. destruct (up id).
  - split; [by exists anon|]. rewrite Ha. by intros y [= <-].
  - split; [by exists anon|]. by rewrite Hn.
Qed.

(** A PIN with another root: the first server that is up refuses it. *)
Lemma cluster_refuses up a b c pr pr' anons t ids : len anons = 5 -> pr' <> pr -> (forall id, id ∈ ids -> id ∈ all_servers) ->
  existsb up ids = true -> collect (cluster up a b c pr) anons pr' t ids [] = Err WrongPin.
Proof.
  intros Hl Hne. induction ids as [|id ids IH]; intros Hall Hup; [done|]. cbn [existsb] in Hup. cbn [collect].
  pose proof (Hall id ltac:(left)) as Hid.
  destruct (lookup_lt_is_Some_2 anons (Z.to_nat (id - 1))) as [anon Hn]; [apply in_all in Hid; unfold len in Hl; lia|].
  change (3 <=? len []) with false. cbn match. rewrite Hn. unfold cluster at 1. destruct (up id).
  - rewrite mock_answer by done. by rewrite bool_decide_false by congruence.
  - apply IH; [intros x Hx; apply Hall; by right|done].
Qed.

(** C19. From registration to unlocking, with up to two OPRF servers that are never asked and may
    do anything, and with any two of the five share servers down.  When the servers asked until
    three have answered are honest (the others among them silent), registration succeeds and gives
    the pseudonyms of the PIN root under the shared OPRF key; afterwards the same PIN unlocks the
    account: the session exists and holds the 32-byte keys derived from the PIN root and the
    shared secret; and a PIN with another root is refused as wrong. *)
Theorem register_and_unlock {HL : HkdfLaws} up a b c inp pk server asked rest salt handle r pr blinded bst dr t pin' pr' :
  TI.derive_pin_root (pin inp) salt = Ok pr -> 0 < len pr <= 512 -> DL.blind pr r = Ok (blinded, bst) ->
  all_servers = asked ++ rest -> Forall (oprf_honest server blinded) asked -> 3 <= len (evals_of server blinded asked) ->
  3 <= len (List.filter up all_servers) -> TI.derive_pin_root pin' salt = Ok pr' ->
  exists bo ids dk mk, bootstrap_account inp pk server salt handle r = Ok bo /\
    TI.derive_all_anonymous_ids (label pr) = Ok ids /\ per_server_anonymous_ids bo = ids /\ identity_pk bo = pk /\
    unlock_with_pin (pin inp) bo dr t (cluster up a b c pr) = Ok {| device_key := dk; master_key := mk; us_identity_pk := pk |} /\
    TI.derive_device_key pr (to_bytes a) dr t = Ok dk /\ len dk = 32 /\
    TI.derive_master_key pr (to_bytes a) salt t = Ok mk /\ len mk = 32 /\
    (pr' <> pr -> unlock_with_pin pin' bo dr t (cluster up a b c pr) = Err WrongPin).
Proof.
  intros Hp Hl Hb Hall Hh Hge Hup Hp'. destruct (TI.derive_all_total (label pr)) as (ids & Hids & _).
  destruct (bootstrap_honest inp pk server asked rest salt handle r pr blinded bst ids) as [H5 Hbo]; try done.
  destruct (TI.session_keys_total pr (to_bytes a) dr salt t) as (dk & mk & Hdk & Ldk & Hmk & Lmk).
  eexists _, ids, dk, mk. split; [exact Hbo|]. cbn [per_server_anonymous_ids identity_pk]. split_and!; try done.
  - rewrite (unlock_any_three a b c _ _ _ dr t pr); cbn [account_local_salt per_server_anonymous_ids]; [|done|by apply cluster_honest].
    rewrite cluster_shares, len_fmap by done. rewrite (proj2 (Z.ltb_ge _ _)) by done.
    unfold session_from. cbn [account_local_salt identity_pk]. by rewrite Hdk, Hmk.
  - intros Hn. unfold unlock_with_pin. cbn [account_local_salt per_server_anonymous_ids]. rewrite Hp'. cbn [crypto rmap_err rbind].
    rewrite cluster_refuses; [done|done|done|done|].
    destruct (existsb up all_servers) eqn:He; [done|]. exfalso. rewrite (existsb_false_filter up all_servers He) in Hup. by vm_compute in Hup.
Qed.
End Client.

(** ** The session while the app runs ([lifecycle.rs]); times and durations in nanoseconds *)
Inductive LifecycleEvent := Background | Foreground | Inactive | ScreenLocked | Debugger | HeartbeatTick.
Record SessionState := { session : option UnlockSession; last_heartbeat_at : Z; background_wipe_at : option Z }.
Definition session_new (s : UnlockSession) (now : Z) : SessionState :=
  {| session := Some s; last_heartbeat_at := now; background_wipe_at := None |}.
Definition is_live (s : SessionState) : bool := bool_decide (is_Some (session s)).
Definition wipe (s : SessionState) : SessionState :=
  {| session := None; last_heartbeat_at := last_heartbeat_at s; background_wipe_at := None |}.
Definition set_deadline (s : SessionState) (d : option Z) : SessionState :=
  {| session := session s; last_heartbeat_at := last_heartbeat_at s; background_wipe_at := d |}.
(** The largest [SystemTime]; [now + background_grace] panics beyond it. *)
Definition SYSTEM_TIME_MAX : Z := (2 ^ 63 - 1) * TI.NANOS + (TI.NANOS - 1).
Definition on_event (event : LifecycleEvent) (now background_grace : Z) : st SessionState Empty_set bool := fun s =>
  match event with
  | Background => if SYSTEM_TIME_MAX <? now + background_grace then (Panic, s)
                  else (Ok false, set_deadline s (Some (now + background_grace)))
  | Foreground => (Ok false, set_deadline s None)
  | Inactive | ScreenLocked | Debugger => (Ok true, wipe s)
  | HeartbeatTick =>
      let s := {| session := session s; last_heartbeat_at := now; background_wipe_at := background_wipe_at s |} in
      match background_wipe_at s with
      | Some wipe_at => if wipe_at <=? now then (Ok true, wipe s) else (Ok false, s)
      | None => (Ok false, s)
      end
  end.
Definition since_heartbeat (s : SessionState) (now : Z) : Z := default 0 (TI.duration_since now (last_heartbeat_at s)).

(** [HeartbeatScheduler], whose counter wraps. *)
Record HeartbeatScheduler := { active : bool; interval : Z; ticks_sent : Z }.
Definition scheduler_new : HeartbeatScheduler := {| active := false; interval := TI.from_secs 30; ticks_sent := 0 |}.
Definition start (h : HeartbeatScheduler) : HeartbeatScheduler := {| active := true; interval := interval h; ticks_sent := ticks_sent h |}.
Definition stop (h : HeartbeatScheduler) : HeartbeatScheduler := {| active := false; interval := interval h; ticks_sent := ticks_sent h |}.
Definition fire_tick (h : HeartbeatScheduler) : HeartbeatScheduler :=
  if active h then {| active := active h; interval := interval h; ticks_sent := wrap64 (ticks_sent h + 1) |} else h.
Definition ticks (h : HeartbeatScheduler) : Z := ticks_sent h.

(** A run: events with the times at which they arrive. *)
Section Run.
Context (background_grace : Z).
Definition life (evs : list (LifecycleEvent * Z)) (s : SessionState) : SessionState :=
  foldl (fun s x => (on_event x.1 x.2 background_grace s).2) s evs.
(** The specification: the deadline set by the last change between background and foreground,
    and the events that end a session. *)
Definition deadline (evs : list (LifecycleEvent * Z)) : option Z :=
  foldl (fun d x => match x.1 with Background => Some (x.2 + background_grace) | Foreground => None | _ => d end) None evs.
Definition ends (before : list (LifecycleEvent * Z)) (x : LifecycleEvent * Z) : Prop :=
  match x.1 with
  | Inactive | ScreenLocked | Debugger => True
  | HeartbeatTick => exists d, deadline before = Some d /\ d <= x.2
  | _ => False
  end.
Definition in_range (x : LifecycleEvent * Z) : Prop := x.2 + background_grace <= SYSTEM_TIME_MAX.

Lemma life_snoc evs x s : life (evs ++ [x]) s = (on_event x.1 x.2 background_grace (life evs s)).2.
Proof. unfold life. by rewrite foldl_app. Qed.
Lemma deadline_snoc evs x : deadline (evs ++ [x]) =
  match x.1 with Background => Some (x.2 + background_grace) | Foreground => None | _ => deadline evs end.
Proof. unfold deadline. by rewrite foldl_app. Qed.
Lemma event_dead x s : session s = None -> session (on_event x.1 x.2 background_grace s).2 = None.
Proof. destruct x as [[] t], s as [? ? [d|]]; cbn; intros ->; repeat case_match; done. Qed.
Lemma splits_snoc (P : list (LifecycleEvent * Z) -> LifecycleEvent * Z -> Prop) evs x :
  (forall pre y post, evs ++ [x] = pre ++ y :: post -> P pre y) <-> (forall pre y post, evs = pre ++ y :: post -> P pre y) /\ P evs x.
Proof.
  split.
  - intros Hall. split; [|by apply (Hall evs x [])]. intros pre y post ->. apply (Hall pre y (post ++ [x])). by rewrite <- app_assoc.
  - intros [Hall Hx] pre y post. destruct post as [|z post _] using rev_ind; intros He.
    + apply app_inj_tail in He as [-> ->]. done.
    + change (y :: post ++ [z]) with ((y :: post) ++ [z]) in He. rewrite app_assoc in He. apply app_inj_tail in He as [-> _]. by eapply Hall.
Qed.

(** While the session is alive its deadline is the one of the specification, and it is alive
    exactly as long as no event ended it. *)
Lemma life_exact evs s now : Forall in_range evs ->
  let s' := life evs (session_new s now) in
  ((session s' = Some s /\ background_wipe_at s' = deadline evs) \/ session s' = None) /\
  (session s' = Some s <-> forall pre x post, evs = pre ++ x :: post -> ~ ends pre x).
Proof.
  intros Hr. cbn zeta. induction evs as [|x evs IH] using rev_ind.
  - split; [by left|]. split; [|done]. intros _ pre x post He. by destruct pre.
  - apply Forall_app in Hr as [Hr Hx]. apply Forall_cons in Hx as [Hx _]. specialize (IH Hr). destruct IH as [IH Hiff].
    rewrite life_snoc, deadline_snoc, (splits_snoc (fun p y => ~ ends p y)), <- Hiff. destruct x as [ev t]. unfold in_range in Hx. cbn [fst snd] in *.
    destruct IH as [[Hs Hd]|Hs].
    + unfold ends. cbn [fst snd]. destruct ev; cbn [on_event snd].
      * rewrite (proj2 (Z.ltb_ge _ _)) by lia. cbn. rewrite Hs. split; [by left|]. tauto.
      * cbn. rewrite Hs. split; [by left|]. tauto.
      * cbn. split; [by right|]. split; [done|]. tauto.
      * cbn. split; [by right|]. split; [done|]. tauto.
      * cbn. split; [by right|]. split; [done|]. tauto.
      * cbn [background_wipe_at]. rewrite Hd. destruct (deadline evs) as [d|] eqn:Hb.
        -- destruct (Z.leb_spec d t); cbn; rewrite ?Hs, ?Hd.
           ++ split; [by right|]. split; [done|]. intros [_ Hn]. exfalso. apply Hn. by exists d.
           ++ split; [by left|]. split; [|tauto]. intros _. split; [done|]. intros (d' & [= <-] & Hle). lia.
        -- cbn. rewrite Hs, ?Hd. split; [by left|]. split; [|tauto]. intros _. split; [done|]. by intros (d' & Hd' & _).
    + pose proof (event_dead (ev, t) _ Hs) as Hn. cbn [fst snd] in Hn. rewrite Hn. split; [by right|]. rewrite Hs. split; [done|]. by intros [? _].
Qed.
End Run.

(** The keys of a session live exactly until the first event that ends it: losing focus, the
    screen lock, a debugger, or a heartbeat tick at or after the deadline that the last change to
    the background set; afterwards they are gone for good.  Only a tick enforces the deadline: a
    session in the background without ticks stays alive, however long, and the next change to the
    foreground cancels the deadline. *)
Theorem session_lifetime grace s now evs :
  Forall (in_range grace) evs ->
  (session (life grace evs (session_new s now)) = Some s <-> forall pre x post, evs = pre ++ x :: post -> ~ ends grace pre x) /\
  (forall more, session (life grace evs (session_new s now)) = None -> session (life grace (evs ++ more) (session_new s now)) = None) /\
  (forall t t', in_range grace (Background, t) -> t + grace <= t' ->
     session (life grace [(Background, t); (HeartbeatTick, t')] (session_new s now)) = None /\
     session (life grace [(Background, t); (Foreground, t'); (HeartbeatTick, t' + 1)] (session_new s now)) = Some s).
Proof.
  intros Hr. destruct (life_exact grace evs s now Hr) as [_ Hiff]. split; [done|]. split.
  - intros more Hn. induction more as [|x more IH] using rev_ind; [by rewrite app_nil_r|]. rewrite app_assoc, life_snoc. by apply event_dead.
  - intros t t' Ht Hle. unfold in_range in Ht. unfold life. cbn [foldl on_event fst snd]. rewrite !(proj2 (Z.ltb_ge _ _)) by (cbn in Ht; lia).
    cbn. rewrite (proj2 (Z.leb_le _ _)) by lia. done.
Qed.

(** ** Concrete parameters for the witnesses: the field with seven elements *)
Inductive F7 := f0 | f1 | f2 | f3 | f4 | f5 | f6.
Definition f_val (x : F7) : Z := match x with f0 => 0 | f1 => 1 | f2 => 2 | f3 => 3 | f4 => 4 | f5 => 5 | f6 => 6 end.
Definition f_of (z : Z) : F7 :=
  match z mod 7 with 1 => f1 | 2 => f2 | 3 => f3 | 4 => f4 | 5 => f5 | 6 => f6 | _ => f0 end.
Definition toy_field : ScalarField := {|
  Scalar := F7; s0 := f0; s1 := f1;
  sadd x y := f_of (f_val x + f_val y); smul x y := f_of (f_val x * f_val y); ssub x y := f_of (f_val x - f_val y);
  sopp x := f_of (- f_val x); sinv x := f_of (f_val x ^ 5);
  from_u64 := f_of; from_bytes_mod_order l := f_of (from_be l); to_bytes x := [as_u8 (f_val x)]
|}.
#[local] Existing Instance toy_field.
#[local] Instance toy_field_laws : ScalarFieldLaws.
Proof.
  split; cbn.
  - split; [split| | |]; try (by intros [] []); try (by intros []); try (by intros [] [] []); try done.
  - intros i j Hi Hj. assert (i = 0 \/ i = 1 \/ i = 2 \/ i = 3 \/ i = 4 \/ i = 5) as Hi' by lia.
    assert (j = 0 \/ j = 1 \/ j = 2 \/ j = 3 \/ j = 4 \/ j = 5) as Hj' by lia.
    destruct Hi' as [->|[->|[->|[->|[-> | ->]]]]], Hj' as [->|[->|[->|[->|[-> | ->]]]]]; done.
  - done.
  - by intros [].
Qed.
#[local] Existing Instance TI.toy_crypto.

Definition t1 : @Scalar toy_field := f1.
Definition t2 : @Scalar toy_field := f2.
Definition t3 : @Scalar toy_field := f3.
Definition toy_pin : list byte := [Byte.x31; Byte.x32; Byte.x33; Byte.x34].
Definition toy_root (p : list byte) : list byte := match TI.derive_pin_root p [] with Ok r => r | _ => [] end.
Definition toy_t : TI.DerivationTranscript := {| TI.dt_account_id := []; TI.dt_epoch := 1 |}.
Definition toy_bootstrap : BootstrapOutput :=
  {| identity_pk := []; account_local_salt := []; device_random_handle := []; initial_transcript := toy_t;
     per_server_anonymous_ids := replicate 5 [] |}.
(** Servers 2 and 5 are down. *)
Definition toy_servers : ServerUnwrapClient := fun id _ _ _ =>
  if (id =? 2) || (id =? 5) then Err (Network (Transport "down")) else Ok (to_bytes (poly t3 t1 t2 id)).
Lemma toy_shares : shares_of toy_servers (replicate 5 []) (toy_root toy_pin) toy_t all_servers =
  (fun id => (id, to_bytes (poly t3 t1 t2 id))) <$> [1; 3; 4].
Proof. reflexivity. Qed.
Lemma unlock_any_three_witness :
  unlock_with_pin toy_pin toy_bootstrap [] toy_t toy_servers = session_from toy_bootstrap (toy_root toy_pin) (to_bytes t3) [] toy_t.
Proof.
  rewrite (unlock_any_three t3 t1 t2 toy_servers toy_pin toy_bootstrap [] toy_t (toy_root toy_pin)); [|reflexivity|].
  - cbn [toy_bootstrap per_server_anonymous_ids]. rewrite toy_shares. reflexivity.
  - apply Forall_forall. intros id Hid. apply in_all in Hid.
    split; [exists []|]; destruct Hid as [->|[->|[->|[->| ->]]]]; try done; by intros y [= <-].
Defined.
Definition toy_corrupt : ServerUnwrapClient := fun id _ _ _ =>
  if id =? 1 then Ok (to_bytes (sadd (poly t3 t1 t2 1) t1)) else Ok (to_bytes (poly t3 t1 t2 id)).
Lemma one_server_decides_witness :
  exists a', a' <> t3 /\ unlock_with_pin toy_pin toy_bootstrap [] toy_t toy_corrupt = session_from toy_bootstrap (toy_root toy_pin) (to_bytes a') [] toy_t.
Proof.
  destruct (one_server_decides t3 t1 t2 t1 toy_corrupt toy_pin toy_bootstrap [] toy_t (toy_root toy_pin)) as [H _];
    [reflexivity|discriminate| |reflexivity|exact H].
  intros id anon _ _. reflexivity.
Defined.
Lemma toy_oprf_laws5 : DL.OprfLaws (Ops := DL.toy_oprf) (fun _ => []) (fun h => h) threshold_config_default.
Proof.
  split; cbn.
  - lia.
  - intros inp r req st wi [= <- <-] _. rewrite (proj2 (Z.eqb_eq _ _)); [eauto|]. pose proof (len_nonneg inp). len_lia.
  - intros req sk ev. destruct (len req =? 32) eqn:E; [|done]. intros [= <-]. zbool. done.
  - intros inp r req st [|[w e] evs] [= <- <-] _ Ht _; [done|]. cbn. eauto.
Qed.
(** Two share servers are down, one OPRF server fails and the fifth would panic if asked: the
    right PIN gives a session and another one is refused. *)
Definition toy_up (id : Z) : bool := negb ((id =? 2) || (id =? 5)).
Definition toy_oprf_four : ServerOprfClient := fun id blinded => if id =? 5 then Panic else if id =? 1 then Err WrongPin else Ok blinded.
Definition toy_input : BootstrapInput := {| pin := toy_pin; duress_pin := None; phone_e164 := None; otp_secret := None |}.

Lemma register_and_unlock_witness :
  exists bo dk mk, bootstrap_account (Ops := DL.toy_oprf) toy_input [] toy_oprf_four [] [] [] = Ok bo /\
    unlock_with_pin toy_pin bo [] toy_t (cluster toy_up t3 t1 t2 (toy_root toy_pin)) =
      Ok {| device_key := dk; master_key := mk; us_identity_pk := [] |} /\ len dk = 32 /\ len mk = 32 /\
    unlock_with_pin [Byte.x39] bo [] toy_t (cluster toy_up t3 t1 t2 (toy_root toy_pin)) = Err WrongPin.
Proof.
  destruct (register_and_unlock (Ops := DL.toy_oprf) (fun _ => []) (fun h => h) (OL := toy_oprf_laws5) (HL := TI.toy_hkdf_laws) toy_up t3 t1 t2
    toy_input [] toy_oprf_four [1; 2; 3; 4] [5] [] [] [] (toy_root toy_pin)
    (take 32 (toy_root toy_pin ++ replicate 32 Byte.x00)) (toy_root toy_pin) [] toy_t [Byte.x39] (toy_root [Byte.x39]))
    as (bo & ids & dk & mk & Hb & _ & _ & _ & Hu & _ & Ld & _ & Lm & Hw);
    [reflexivity|by vm_compute|reflexivity|reflexivity| |by vm_compute|by vm_compute|reflexivity|].
  - repeat constructor.
  - exists bo, dk, mk. split; [exact Hb|]. split; [exact Hu|]. split; [exact Ld|]. split; [exact Lm|]. apply Hw. vm_compute. discriminate.
Defined.
Lemma session_lifetime_witness :
  session (life 120 [(Background, 5); (HeartbeatTick, 200)] (session_new {| device_key := []; master_key := []; us_identity_pk := [] |} 0)) = None.
Proof.
  destruct (session_lifetime 120 {| device_key := []; master_key := []; us_identity_pk := [] |} 0 []) as (_ & _ & H); [apply Forall_nil_2|].
  apply H; [by vm_compute|by vm_compute].
Defined.
End Unlock.
