(* ===== verification/Ffi.v ===== *)
(** * The foreign-function boundary ([crates/umbrella-ffi/src/])

    The errors and values that cross to Swift and Kotlin, the configuration of a client, and the
    onboarding handle ([export/onboarding.rs]) over registration and unlocking.  [hex], the
    seeded generator and the draws of the OPRF crate are parameters; readings of the clock are
    arguments.  Strings are their UTF-8 bytes.  The handle's mutex serialises its operations. *)
From S2P Require Import Prelude Bytes KtError BackupError SframeWire OprfRequest SealedSender Identity Padding Mls Pq ThresholdIdentity CloudWire DiscoveryLookup ClientError Calls Unlock.
Local Open Scope string_scope.
Local Open Scope list_scope.
Local Open Scope Z_scope.

Module Ffi.
Module TI := ThresholdIdentity.
Module DL := DiscoveryLookup.

(** ** Errors ([error.rs]) *)
(** What a text is made of: a constant, a constant with lengths or positions, or the [Display]
    of an inner error. *)
Inductive Text {N : Type} :=
| Lit (s : string) | WithLen (s : string) (got : Z) | WithIndex (s : string) (i got : Z)
| ShowCall (e : SframeWire.CallError) | ShowBackup (e : BackupError) | ShowMls (e : Mls.MlsError) | ShowKt (e : KtError)
| ShowOprf (e : OprfRequest.OprfError) | ShowSealed (e : SealedSender.SealedSenderError) | ShowIdentity (e : Identity.IdentityError)
| ShowPadding (e : Padding.PaddingError) | ShowNetwork (n : N) | ShowAttestation (e : AttestationError)
| ShowThreshold (e : TI.ThresholdIdentityError).
Arguments Text : clear implicits.

Inductive UmbrellaError {N : Type} :=
| UCall (t : Text N) | UBackup (t : Text N) | UMls (t : Text N) | UKt (t : Text N) | UOprf (t : Text N) | USealedSender (t : Text N)
| UIdentity (t : Text N) | UPadding (t : Text N) | UNetwork (t : Text N) | UStorage (t : Text N) | UAttestation (t : Text N)
| UPlatform (t : Text N) | UCancelled | UModeViolation (t : Text N) | UInternal (t : Text N) | UCrypto (t : Text N)
| UWrongPin | UAccountDeleted.
Arguments UmbrellaError : clear implicits.

Definition from_client_error {N} (err : ClientError N) : UmbrellaError N :=
  match err with
  | Call e => UCall (ShowCall e)
  | Backup e => UBackup (ShowBackup e)
  | MlsFailed e => UMls (ShowMls e)
  | Kt e => UKt (ShowKt e)
  | Oprf e => UOprf (ShowOprf e)
  | SealedSenderFailed e => USealedSender (ShowSealed e)
  | IdentityFailed e => UIdentity (ShowIdentity e)
  | PaddingFailed e => UPadding (ShowPadding e)
  | Network n => UNetwork (ShowNetwork n)
  | Storage s => UStorage (Lit s)
  | Attestation e => UAttestation (ShowAttestation e)
  | Platform s => UPlatform (Lit s)
  | Cancelled => UCancelled
  | ModeViolation s => UModeViolation (Lit s)
  | Internal s => UInternal (Lit s)
  | Crypto s => UCrypto (Lit s)
  | WrongPin => UWrongPin
  | AccountDeleted => UAccountDeleted
  | SpqrAuthFailed => UInternal (Lit "spqr_auth_failed")
  end.

(** The platform can tell every error of the client from every other, except a failed
    authentication of the post-quantum ratchet, which arrives as an internal error. *)
Theorem errors_distinguished {N} (e1 e2 : ClientError N) :
  from_client_error e1 = from_client_error e2 <->
  e1 = e2 \/ (e1 = SpqrAuthFailed /\ e2 = Internal "spqr_auth_failed") \/ (e2 = SpqrAuthFailed /\ e1 = Internal "spqr_auth_failed").
Proof.
  split; [|by intros [->|[[-> ->]|[-> ->]]]].
  destruct e1, e2; cbn; intros Heq; try discriminate; try (left; congruence).
  - right; right. split; [done|]. congruence.
  - right; left. split; [done|]. congruence.
Qed.

(** ** Identifiers and messages ([types/]) *)
Definition chat_id_try_from {N} (bytes : list byte) : res (UmbrellaError N) (list byte) :=
  reject negb (len bytes =? 32) with UInternal (WithLen "chat_id length, expected 32" (len bytes)) ;;
  Ok bytes.
Definition peer_id_try_from {N} (bytes : list byte) : res (UmbrellaError N) (list byte) :=
  reject negb (len bytes =? 32) with UInternal (WithLen "peer_id length, expected 32" (len bytes)) ;;
  Ok bytes.

(** ** Calls ([types/message.rs], [export/call.rs]) *)
Record CallPolicyFfi := { default_routing : Z; sensitive_peers : list (list byte); allow_p2p_global : bool }.
Definition call_policy_from (v : CallPolicyFfi) : Calls.CallPolicy := {|
  Calls.default_routing := match default_routing v with
    | 0 => Calls.DirectP2P | 1 => Calls.SingleRelay | 2 => Calls.DoubleRelay | _ => Calls.CloudRelayFallback end;
  Calls.sensitive_contacts := list_to_set (filter (fun p => len p = 32) (sensitive_peers v));
  Calls.allow_p2p_global := allow_p2p_global v
|}.
(** An identifier of the wrong length in the list is no identifier of a peer: the policy that
    crosses protects every peer of the list that can be called, whatever else is in the list, and
    no other; a peer outside the list is reached directly only when both the default routing and
    the global switch say so. *)
Theorem policy_crosses v peer : len peer = 32 ->
  (Calls.effective_routing (call_policy_from v) peer = Calls.DirectP2P <->
     peer ∉ sensitive_peers v /\ default_routing v = 0 /\ allow_p2p_global v = true) /\
  (peer ∈ sensitive_peers v -> Calls.effective_routing (call_policy_from v) peer = Calls.DoubleRelay) /\
  Calls.effective_routing (Calls.apply Calls.SecretMode (call_policy_from v)) peer <> Calls.DirectP2P.
Proof.
  intros Hl.
  assert (Hin : peer ∈ Calls.sensitive_contacts (call_policy_from v) <-> peer ∈ sensitive_peers v).
  { cbn [call_policy_from Calls.sensitive_contacts]. rewrite elem_of_list_to_set, list_elem_of_filter. tauto. }
  assert (Hd : Calls.default_routing (call_policy_from v) = Calls.DirectP2P <-> default_routing v = 0).
  { cbn [call_policy_from Calls.default_routing]. destruct (default_routing v) as [|[p|[p|p|]|]|p]; split; intros H; congruence. }
  unfold Calls.effective_routing. split_and!.
  - case_bool_decide as Hs; rewrite Hin in Hs; [split; [done|tauto]|].
    rewrite <- Hd. cbn [call_policy_from Calls.allow_p2p_global]. fold (call_policy_from v).
    destruct (Calls.default_routing (call_policy_from v)); [destruct (allow_p2p_global v); cbn|..]; naive_solver.
  - intros Hp. by rewrite bool_decide_true by by apply Hin.
  - cbn [Calls.apply Calls.sensitive_contacts Calls.default_routing Calls.allow_p2p_global].
    case_bool_decide; [done|]. unfold Calls.strip_p2p. by destruct (Calls.default_routing (call_policy_from v)).
Qed.

Inductive CallStateFfi :=
| FSignalling | FIceGathering | FIceChecking | FDtlsHandshake | FConnected | FReconnecting
| TerminatedLocalHangup | TerminatedRemoteHangup | TerminatedIceFailure | TerminatedDtlsFailure | TerminatedIdentityMismatch | TerminatedNetworkError.
Definition call_state_from (s : Calls.CallState) : CallStateFfi :=
  match s with
  | Calls.Signalling => FSignalling
  | Calls.IceGathering => FIceGathering
  | Calls.IceChecking => FIceChecking
  | Calls.DtlsHandshake => FDtlsHandshake
  | Calls.Connected => FConnected
  | Calls.Reconnecting => FReconnecting
  | Calls.Terminated Calls.LocalHangup => TerminatedLocalHangup
  | Calls.Terminated Calls.RemoteHangup => TerminatedRemoteHangup
  | Calls.Terminated Calls.IceFailure => TerminatedIceFailure
  | Calls.Terminated Calls.DtlsFailure => TerminatedDtlsFailure
  | Calls.Terminated Calls.IdentityMismatch => TerminatedIdentityMismatch
  | Calls.Terminated Calls.NetworkFailure => TerminatedNetworkError
  end.
Lemma call_state_inj s1 s2 : call_state_from s1 = call_state_from s2 -> s1 = s2.
Proof. destruct s1 as [| | | | | |[]], s2 as [| | | | | |[]]; done. Qed.

(** ** The configuration of a client ([export/client.rs], [umbrella-client/src/core.rs]) *)
Record ClientConfigFfi := {
  sealed_server_urls : list (list byte); postman_url : list byte; kt_url : list byte; call_relay_url : list byte;
  kt_monitor_interval_secs : Z; main_pubkey : list byte; server_pubkeys : list (list byte); wrapping_version : Z
}.
Record ClientConfig := {
  cc_sealed_server_urls : list (list byte); cc_postman_url : list byte; cc_kt_url : list byte; cc_call_relay_url : list byte;
  cc_kt_monitor_interval_secs : Z; wrapping_params : CloudWire.WrappingParams; default_ciphersuite : Z
}.
Definition UMBRELLA_CIPHERSUITE_PQ_HYBRID : Z := 0x004D.
Definition UMBRELLA_CIPHERSUITE_CLASSICAL_DEFAULT : Z := 0x0003.
(** [pq] is the feature of the build. *)
Definition DEFAULT_CIPHERSUITE (pq : bool) : Z := if pq then UMBRELLA_CIPHERSUITE_PQ_HYBRID else UMBRELLA_CIPHERSUITE_CLASSICAL_DEFAULT.
Definition config_default (pq : bool) : ClientConfig := {|
  cc_sealed_server_urls := []; cc_postman_url := []; cc_kt_url := []; cc_call_relay_url := []; cc_kt_monitor_interval_secs := 3600;
  wrapping_params := {| CloudWire.wp_version := 0; CloudWire.main_pubkey := replicate 32 Byte.x00;
                        CloudWire.server_pubkeys := replicate 5 (replicate 32 Byte.x00); CloudWire.config := CloudWire.config_default |};
  default_ciphersuite := DEFAULT_CIPHERSUITE pq
|}.

(** The loop over the server keys, from position [i]. *)
Fixpoint check_servers {N} (i : Z) (sps : list (list byte)) : res (UmbrellaError N) unit :=
  match sps with
  | [] => Ok tt
  | sp :: rest => reject negb (len sp =? 32) with UInternal (WithIndex "server_pubkeys[i] length, expected 32" i (len sp)) ;; check_servers (i + 1) rest
  end.
Definition client_config_try_from {N} (pq : bool) (v : ClientConfigFfi) : res (UmbrellaError N) ClientConfig :=
  reject negb (len (main_pubkey v) =? 32) with UInternal (WithLen "main_pubkey length, expected 32" (len (main_pubkey v))) ;;
  reject negb (len (server_pubkeys v) =? 5) with UInternal (WithLen "server_pubkeys length, expected exactly 5" (len (server_pubkeys v))) ;;
  let? _ := check_servers 0 (server_pubkeys v) in
  let? threshold := rmap_err (fun e => UInternal (ShowBackup e)) (CloudWire.config_new 3 5) in
  Ok {| cc_sealed_server_urls := sealed_server_urls v; cc_postman_url := postman_url v; cc_kt_url := kt_url v;
        cc_call_relay_url := call_relay_url v; cc_kt_monitor_interval_secs := kt_monitor_interval_secs v;
        wrapping_params := {| CloudWire.wp_version := wrapping_version v; CloudWire.main_pubkey := main_pubkey v;
                              CloudWire.server_pubkeys := server_pubkeys v; CloudWire.config := threshold |};
        default_ciphersuite := DEFAULT_CIPHERSUITE pq |}.

Definition production_bootstrap_unavailable {N} : UmbrellaError N :=
  UInternal (Lit "production bootstrap is not available: public FFI must not use test constructors until the production attestation verifier, mobile bridge, and server integration paths are wired end to end").
Section Bootstrap.
Context {R : Type} `{!Identity.IdBackend R} {N : Type}.
Definition bootstrap (pq : bool) (config : ClientConfigFfi) (mnemonic_phrase : list byte) : res (UmbrellaError N) Empty_set :=
  let? _seed := rmap_err (fun e => UIdentity (ShowIdentity e)) (Identity.seed_from_mnemonic mnemonic_phrase) in
  let? _rust_config := client_config_try_from pq config in
  Err production_bootstrap_unavailable.
(** The explicit constructors, each compiled in one kind of build. *)
Definition bootstrap_pq := bootstrap true.
Definition bootstrap_classical := bootstrap false.

Lemma check_servers_Ok i sps : check_servers (N := N) i sps = Ok tt <-> Forall (fun sp => len sp = 32) sps.
Proof.
  revert i. induction sps as [|sp sps IH]; intros i; cbn [check_servers]; [split; [by constructor|done]|].
  rewrite Forall_cons, <- (IH (i + 1)). unfold rguard. destruct (Z.eqb_spec (len sp) 32); cbn [negb]; [tauto|]. split; [done|tauto].
Qed.
(** The error names the first key of the wrong length. *)
Lemma check_servers_Err i sps e : check_servers (N := N) i sps = Err e <->
  exists pre sp post, sps = pre ++ sp :: post /\ Forall (fun sp => len sp = 32) pre /\ len sp <> 32 /\
    e = UInternal (WithIndex "server_pubkeys[i] length, expected 32" (i + len pre) (len sp)).
Proof.
  revert i. induction sps as [|sp sps IH]; intros i; cbn [check_servers].
  - split; [done|]. by intros ([|??] & ? & ? & ? & _).
  - unfold rguard. destruct (Z.eqb_spec (len sp) 32) as [Hl|Hl]; cbn [negb].
    + rewrite IH. split.
      * intros (pre & y & post & -> & Hf & Hy & ->). exists (sp :: pre), y, post. split_and!; [done|by constructor|done|].
        rewrite len_cons. do 2 f_equal. lia.
      * intros ([|x pre] & y & post & Heq & Hf & Hy & ->); injection Heq as <- ->; [done|]. apply Forall_cons in Hf as [_ Hf].
        exists pre, y, post. split_and!; try done. rewrite len_cons. do 2 f_equal. lia.
    + split.
      * intros [= <-]. exists [], sp, sps. split_and!; try done. by rewrite Z.add_0_r.
      * intros ([|x pre] & y & post & Heq & Hf & Hy & ->); injection Heq as <- ->; [by rewrite Z.add_0_r|].
        by apply Forall_cons in Hf as [? _].
Qed.

(** A configuration crosses exactly when its six keys have 32 bytes, and keeps every field; the
    version of the wrapping is not looked at, while the constructor of the parameters refuses every
    version but its own.  The production constructors stay closed whatever they are given: they
    only check the phrase and the configuration. *)
Theorem config_crosses pq v :
  ((exists c, client_config_try_from (N := N) pq v = Ok c) <->
     len (main_pubkey v) = 32 /\ len (server_pubkeys v) = 5 /\ Forall (fun sp => len sp = 32) (server_pubkeys v)) /\
  (forall c, client_config_try_from (N := N) pq v = Ok c ->
     CloudWire.config (wrapping_params c) = CloudWire.config_default /\ CloudWire.wp_version (wrapping_params c) = wrapping_version v /\
     ((exists p, CloudWire.params_new (wrapping_version v) (main_pubkey v) (server_pubkeys v) CloudWire.config_default = Ok p) <->
      wrapping_version v = CloudWire.PROTOCOL_VERSION)) /\
  (forall phrase, exists e, bootstrap pq v phrase = Err e).
Proof.
  assert (Hex : forall c, client_config_try_from (N := N) pq v = Ok c ->
    (len (main_pubkey v) = 32 /\ len (server_pubkeys v) = 5 /\ Forall (fun sp => len sp = 32) (server_pubkeys v)) /\
    CloudWire.config (wrapping_params c) = CloudWire.config_default /\ CloudWire.wp_version (wrapping_params c) = wrapping_version v).
  { unfold client_config_try_from. intros c Hc. apply rguard_Ok in Hc as [H1 Hc]. apply rguard_Ok in Hc as [H2 Hc].
    apply rbind_Ok in Hc as ([] & H3 & Hc). apply check_servers_Ok in H3. injection Hc as <-. zbool. done. }
  split_and!.
  - split; [intros [c Hc]; by apply Hex in Hc as [? _]|]. intros (H1 & H2 & H3).
    apply (check_servers_Ok 0) in H3. unfold client_config_try_from, rguard. rewrite H1, H2, H3. by eexists.
  - intros c Hc. destruct (Hex c Hc) as (_ & ? & ?). split_and!; try done. unfold CloudWire.params_new, rguard.
    destruct (Z.eqb_spec (wrapping_version v) CloudWire.PROTOCOL_VERSION); cbn [negb]; split; intros Hv; try done; [by eexists|by destruct Hv].
  - intros phrase. unfold bootstrap. destruct (Identity.seed_from_mnemonic phrase) as [sd|e|] eqn:Hs; cbn [rmap_err rbind]; [|by eexists|].
    + destruct (client_config_try_from pq v) as [c|e|] eqn:Hc; cbn [rbind]; [by eexists|by eexists|]. exfalso.
      unfold client_config_try_from in Hc. apply rguard_Panic in Hc as [_ Hc]. apply rguard_Panic in Hc as [_ Hc].
      destruct (check_servers 0 (server_pubkeys v)) eqn:Hk; [done|done|]. clear Hc. revert Hk. generalize 0. induction (server_pubkeys v); [done|].
      intros z. cbn [check_servers]. intros Hk. apply rguard_Panic in Hk as [_ Hk]. by apply IHl in Hk.
    + exfalso. unfold Identity.seed_from_mnemonic in Hs. cbn zeta in Hs. apply rguard_Panic in Hs as [_ Hs].
      destruct (Identity.mnemonic_parse _); cbn [ok_or rbind] in Hs; [|done]. by apply rguard_Panic in Hs as [_ Hs].
Qed.
End Bootstrap.
End Ffi.
