(* ===== verification/Onboarding.v ===== *)
(** * Onboarding across the foreign-function boundary
    ([crates/umbrella-ffi/src/export/onboarding.rs], the mock OPRF servers of
    [umbrella-client/src/keystore/distributed_identity_client.rs], [umbrella-oprf/src/threshold.rs])

    The handle an application holds: it creates an account with a PIN, unlocks it from the state
    the application stored, and keeps the unlocked sessions under opaque names.  [hex], the seeded
    generator and the draws of the OPRF crate are parameters with their documented laws. *)
From Stdlib Require Import Field.
From S2P Require Import Prelude Bytes OprfRequest Pq ThresholdIdentity DiscoveryLookup ClientError Unlock Ffi.
Local Open Scope string_scope.
Local Open Scope list_scope.
Local Open Scope Z_scope.

Module Onboarding.
Module TI := ThresholdIdentity.
Module DL := DiscoveryLookup.
Import Unlock.
Definition Error := Ffi.UmbrellaError NetworkReason.

Class Hex := { hex_encode : list byte -> list byte; hex_decode : list byte -> option (list byte) }.
Class HexLaws `{Hex} : Prop := { hex_inverse b : hex_decode (hex_encode b) = Some b }.

(** [ChaCha20Rng::seed_from_u64], [Scalar::random], the key of [OprfServer::new], the canonical
    decoding of a scalar, and what blinding draws. *)
Class Generator (R : Type) {SF : ScalarField} := {
  seed_from_u64 : Z -> R;
  scalar_random : R -> Scalar * R;
  generate_private_key : R -> list byte * R;
  from_canonical_bytes : list byte -> option Scalar;
  blind_draw : R -> list byte
}.

Section Onboarding.
Context {SF : ScalarField} {PC : PinCrypto} {BlindingState : Type} {Ops : DL.OprfOps BlindingState}
        {R : Type} {RG : Pq.Rng R} {G : Generator R} {HX : Hex}.

(** ** The mock OPRF servers *)
Fixpoint random_scalars (n : nat) (rng : R) : list Scalar * R :=
  match n with
  | O => ([], rng)
  | S n => let '(s, rng) := scalar_random rng in let '(l, rng) := random_scalars n rng in (s :: l, rng)
  end.
(** The inner loop: the value so far and the power of [sx]. *)
Definition eval_coeffs (coeffs : list Scalar) (sx : Scalar) : Scalar :=
  (foldl (fun (acc : Scalar * Scalar) coeff => (sadd acc.1 (smul coeff acc.2), smul acc.2 sx)) (s0, s1) coeffs).1.
Definition shamir_split_for_testing (k : Scalar) (config : DL.ThresholdConfig) (rng : R) : list (Z * Scalar) * R :=
  let '(rest, rng) := random_scalars (Z.to_nat (DL.threshold config - 1)) rng in
  ((fun x => (x, eval_coeffs (k :: rest) (from_u64 x))) <$> seqZ 1 (DL.total config), rng).
Definition mock_oprf_new {E} (rng : R) : res E (list (Z * list byte)) :=
  let '(master_sk, rng) := generate_private_key rng in
  match from_canonical_bytes master_sk with
  | None => Panic
  | Some k => Ok ((fun s => (s.1, to_bytes s.2)) <$> (shamir_split_for_testing k threshold_config_default rng).1)
  end.
Definition mock_evaluate_anon_id (shares : list (Z * list byte)) : ServerOprfClient := fun server_id blinded =>
  reject (server_id =? 0) || (len shares <? server_id) with Network InvalidServerId ;;
  match shares !! Z.to_nat (server_id - 1) with
  | None => Panic
  | Some (_, share_bytes) => oprf (DL.evaluate_for_testing blinded share_bytes)
  end.

(** ** The handle *)
Record OnboardingHandle := { inner : ServerUnwrapClient; oprf_inner : ServerOprfClient; sessions : gmap (list byte) UnlockSession }.
Record BootstrapOutputFfi := { f_identity_pk : list byte; f_salt : list byte; f_device_handle : list byte; f_anon_ids : list (list byte) }.
Definition output_from (v : BootstrapOutput) : BootstrapOutputFfi :=
  {| f_identity_pk := identity_pk v; f_salt := account_local_salt v; f_device_handle := device_random_handle v; f_anon_ids := per_server_anonymous_ids v |}.
Record UnlockResultFfi := { identity_pk_hex : list byte; session_handle : list byte }.
(** A handle with [SESSION_HANDLE_COUNTER], the counter of the process. *)
Record App := { handle : OnboardingHandle; counter : Z }.
Definition set_sessions (h : OnboardingHandle) (s : gmap (list byte) UnlockSession) : OnboardingHandle :=
  {| inner := inner h; oprf_inner := oprf_inner h; sessions := s |}.

Definition crypto_text (s : string) : Error := Ffi.UCrypto (Ffi.Lit s).
Definition HASH_MIX : Z := 0x9E3779B97F4A7C15.
(** The five constant shares that accompany the root. *)
Definition mock_shares (root : list byte) : list (list byte * list byte) :=
  (fun b => (root, replicate 32 b)) <$> [Byte.x11; Byte.x22; Byte.x33; Byte.x44; Byte.x55].
(** [now] is a reading of the clock in nanoseconds, truncated to 64 bits. *)
Definition mock_with_pin_root (pin_root_hex : list byte) (now : Z) : res Error OnboardingHandle :=
  let? root_bytes := ok_or (hex_decode pin_root_hex) (crypto_text "invalid pin_root hex") in
  reject negb (len root_bytes =? 32) with crypto_text "pin_root must be 32 bytes (hex 64 chars)" ;;
  let oprf_seed := wrap64 now in
  let? shares := mock_oprf_new (seed_from_u64 (wrap64 (oprf_seed * HASH_MIX))) in
  Ok {| inner := mock_unwrap_share (mock_shares root_bytes); oprf_inner := mock_evaluate_anon_id shares; sessions := ∅ |}.

(** ** Creating an account *)
Definition decode_otp (otp_secret_hex : option (list byte)) : res Error (option (list byte)) :=
  match otp_secret_hex with
  | None => Ok None
  | Some s =>
      let? raw := ok_or (hex_decode s) (crypto_text "invalid otp_secret hex") in
      reject negb (len raw =? 20) with crypto_text "otp_secret must be 20 bytes" ;;
      Ok (Some raw)
  end.
(** [bootstrap_account] with what it draws from the generator. *)
Definition bootstrap_with (input : BootstrapInput) (pk : list byte) (server : ServerOprfClient) (rng : R) : res Unlock.Error BootstrapOutput :=
  let '(salt, rng) := Pq.fill_bytes 16 rng in
  let '(device, rng) := Pq.fill_bytes 32 rng in
  bootstrap_account input pk server salt device (blind_draw rng).
Definition create_account_with_pin (h : OnboardingHandle) (pin : list byte) (phone : option string) (otp_secret_hex : option (list byte))
    (identity_pk_dkg_hex : list byte) (now : Z) : res Error BootstrapOutputFfi :=
  let? pk := ok_or (hex_decode identity_pk_dkg_hex) (crypto_text "invalid identity_pk hex") in
  reject negb (len pk =? 32) with crypto_text "identity_pk must be 32 bytes" ;;
  let? otp := decode_otp otp_secret_hex in
  let input := {| Unlock.pin := pin; duress_pin := None; phone_e164 := phone; otp_secret := otp |} in
  let now_seed := wrap64 now in
  let? out := rmap_err Ffi.from_client_error (bootstrap_with input pk (oprf_inner h) (seed_from_u64 now_seed)) in
  Ok (output_from out).

(** ** Unlocking *)
(** [anon_ids[i]] for the positions from [i] on. *)
Fixpoint decode_ids {E} (n : nat) (i : Z) (bytes : list byte) : res E (list (list byte)) :=
  match n with
  | O => Ok []
  | S n => let? id := slice (80 + i * 32) (80 + (i + 1) * 32) bytes in let? ids := decode_ids n (i + 1) bytes in Ok (id :: ids)
  end.
Definition decode_unlock_inputs (bootstrap_state_hex device_random_hex : list byte) : res Error (BootstrapOutput * list byte) :=
  let? bytes := ok_or (hex_decode bootstrap_state_hex) (crypto_text "invalid bootstrap_state hex") in
  reject negb (len bytes =? 240) with Ffi.UCrypto (Ffi.WithLen "bootstrap_state must be 240 bytes, got" (len bytes)) ;;
  let? salt := slice 0 16 bytes in
  let? device_handle := slice 16 48 bytes in
  let? pk := slice 48 80 bytes in
  let? anon_ids := decode_ids 5 0 bytes in
  match anon_ids with
  | [] => Panic
  | primary :: _ =>
      let boot := {| identity_pk := pk; account_local_salt := salt; device_random_handle := device_handle;
                     initial_transcript := {| TI.dt_account_id := primary; TI.dt_epoch := 1 |}; per_server_anonymous_ids := anon_ids |} in
      let? device_random := ok_or (hex_decode device_random_hex) (crypto_text "invalid device_random hex") in
      reject negb (len device_random =? 32) with crypto_text "device_random must be 32 bytes" ;;
      Ok (boot, device_random)
  end.
Definition perform_unlock (h : OnboardingHandle) (pin bootstrap_state_hex device_random_hex : list byte) : res Error UnlockSession :=
  let? (boot, device_random) := decode_unlock_inputs bootstrap_state_hex device_random_hex in
  rmap_err Ffi.from_client_error (unlock_with_pin pin boot device_random (initial_transcript boot) (inner h)).
Definition session_seed (c now : Z) : Z := wrap64 (c * HASH_MIX + wrap64 now).
Definition generate_session_handle (c now : Z) : list byte * Z :=
  (hex_encode (Pq.fill_bytes 16 (seed_from_u64 (session_seed c now))).1, wrap64 (c + 1)).
Definition unlock (pin bootstrap_state_hex device_random_hex : list byte) (now : Z) : st App Error UnlockResultFfi := fun a =>
  match perform_unlock (handle a) pin bootstrap_state_hex device_random_hex with
  | Ok session =>
      let '(name, c) := generate_session_handle (counter a) now in
      (Ok {| identity_pk_hex := hex_encode (us_identity_pk session); session_handle := name |},
       {| handle := set_sessions (handle a) (<[name := session]> (sessions (handle a))); counter := c |})
  | Err e => (Err e, a)
  | Panic => (Panic, a)
  end.
Definition release_session (a : App) (name : list byte) : App :=
  {| handle := set_sessions (handle a) (delete name (sessions (handle a))); counter := counter a |}.
Definition live_session_count (a : App) : Z := Z.min U32_MAX (Z.of_nat (size (sessions (handle a)))).
Definition is_duress_pin (candidate genuine_pin : list byte) : bool := TI.is_duress_reverse candidate genuine_pin.
Definition derive_pin_root (pin salt_hex : list byte) : res Error (list byte) :=
  let? salt := ok_or (hex_decode salt_hex) (crypto_text "invalid salt hex") in
  reject negb (len salt =? TI.SALT_LEN) with Ffi.UCrypto (Ffi.WithLen "salt must be bytes" TI.SALT_LEN) ;;
  let? root := rmap_err (fun e => Ffi.UCrypto (Ffi.ShowThreshold e)) (TI.derive_pin_root pin salt) in
  Ok (hex_encode root).

(** The test surface, which returns the keys. *)
Record UnlockResultTestRigFfi := { rig_identity_pk_hex : list byte; device_key_hex : list byte; master_key_hex : list byte }.
Definition unlock_with_pin_for_test_rig (h : OnboardingHandle) (pin bootstrap_state_hex device_random_hex : list byte) : res Error UnlockResultTestRigFfi :=
  let? session := perform_unlock h pin bootstrap_state_hex device_random_hex in
  Ok {| rig_identity_pk_hex := hex_encode (us_identity_pk session); device_key_hex := hex_encode (device_key session);
        master_key_hex := hex_encode (master_key session) |}.

(** ** The state the application stores, in the documented layout *)
Definition state_hex (o : BootstrapOutputFfi) : list byte := hex_encode (f_salt o ++ f_device_handle o ++ f_identity_pk o ++ concat (f_anon_ids o)).
(** Outputs of a registration: the fields have their lengths and the transcript is the first. *)
Record output_wf (b : BootstrapOutput) : Prop := {
  wf_salt : len (account_local_salt b) = 16; wf_handle : len (device_random_handle b) = 32; wf_pk : len (identity_pk b) = 32;
  wf_count : len (per_server_anonymous_ids b) = 5; wf_ids : Forall (fun id => len id = 32) (per_server_anonymous_ids b);
  wf_transcript : initial_transcript b = {| TI.dt_account_id := default [] (head (per_server_anonymous_ids b)); TI.dt_epoch := 1 |}
}.

Lemma decode_ids_exact {E} ids : forall pre k post bytes, bytes = pre ++ concat ids ++ post -> len pre = 80 + k * 32 -> Forall (fun id => len id = 32) ids ->
  decode_ids (E := E) (length ids) k bytes = Ok ids.
Proof.
  induction ids as [|id ids IH]; intros pre k post bytes -> Hp Hf; [done|]. apply Forall_cons in Hf as [Hi Hf]. cbn [length decode_ids concat].
  rewrite <- !app_assoc. rewrite (slice_skip (80 + k * 32)) by lia. rewrite slice_hit by lia. cbn [rbind].
  rewrite (IH (pre ++ id) (k + 1) post); [done|by rewrite <- !app_assoc|rewrite len_app; lia|done].
Qed.

Context {HL : HexLaws}.
Lemma decode_state b dr : output_wf b -> len dr = 32 -> decode_unlock_inputs (state_hex (output_from b)) (hex_encode dr) = Ok (b, dr).
Proof.
  intros [Hs Hh Hk Hc Hi Ht] Hd. destruct b as [pk salt device tr ids]; cbn in *. unfold decode_unlock_inputs, state_hex. cbn [f_salt f_device_handle f_identity_pk f_anon_ids output_from identity_pk account_local_salt device_random_handle per_server_anonymous_ids].
  rewrite !hex_inverse. cbn [ok_or rbind].
  assert (Hcat : len (concat ids) = 160).
  { destruct ids as [|i1 [|i2 [|i3 [|i4 [|i5 [|]]]]]]; unfold len in Hc; cbn [length] in Hc; try lia.
    rewrite !Forall_cons in Hi. cbn [concat]. rewrite !len_app, len_nil. lia. }
  unfold rguard. rewrite (proj2 (Z.eqb_eq _ _)) by (rewrite !len_app; lia). cbn [negb].
  rewrite slice_hit by lia. cbn [rbind]. rewrite (slice_skip 16), slice_hit by lia. cbn [rbind].
  rewrite (slice_skip 16), (slice_skip 32), slice_hit by lia. cbn [rbind].
  change 5%nat with (Z.to_nat 5). rewrite <- Hc. unfold len at 1. rewrite Nat2Z.id.
  rewrite (decode_ids_exact ids (salt ++ device ++ pk) 0 []); [|by rewrite app_nil_r, <- !app_assoc|rewrite !len_app; lia|done]. cbn [rbind].
  destruct ids as [|i1 ids]; [done|]. rewrite Hd. cbn in *. by rewrite Ht.
Qed.

(** ** Documented lengths of what the crates return *)
Class DrawLaws : Prop := {
  draw_len n r : 0 <= n -> len (Pq.fill_bytes n r).1 = n;
  hkdf_len s i f o : hkdf_sha256 s i f 32 = Some o -> len o = 32;
  argon_len p s r : argon2id p s = Some r -> len r = 32
}.
Context {DLaws : DrawLaws}.

Lemma derive_ids_lens mk sids : forall ids, TI.derive_ids mk sids = Ok ids -> Forall (fun id => len id = 32) ids.
Proof.
  induction sids as [|x sids IH]; cbn [TI.derive_ids]; intros ids Hd; [injection Hd as <-; constructor|].
  apply rbind_Ok in Hd as (i & Hi & Hd). apply rbind_Ok in Hd as (js & Hj & Hd). apply Ok_inj in Hd as <-. constructor; [|by apply IH].
  unfold TI.derive_anonymous_id in Hi. apply rguard_Ok in Hi as [_ Hi]. apply ok_or_Ok in Hi. by eapply hkdf_len.
Qed.
(** Every account that is created is one the state of which can be stored and read back. *)
Lemma bootstrap_wf input pk server rng b : len pk = 32 -> bootstrap_with input pk server rng = Ok b -> output_wf b.
Proof.
  intros Hk. unfold bootstrap_with. destruct (Pq.fill_bytes 16 rng) as [salt rng1] eqn:E1. destruct (Pq.fill_bytes 32 rng1) as [device rng2] eqn:E2.
  pose proof (draw_len 16 rng ltac:(lia)) as H1. rewrite E1 in H1. pose proof (draw_len 32 rng1 ltac:(lia)) as H2. rewrite E2 in H2. cbn [fst] in *.
  unfold bootstrap_account. intros Hb. apply rbind_Ok in Hb as (pr & _ & Hb). apply rbind_Ok in Hb as (ids & Hids & Hb).
  assert (Hd : exists l, TI.derive_all_anonymous_ids l = Ok ids).
  { unfold derive_anon_ids_via_oprf in Hids. apply rbind_Ok in Hids as (inp & _ & Hids). apply rbind_Ok in Hids as ([blinded bst] & _ & Hids).
    apply rbind_Ok in Hids as (got & _ & Hids). apply rguard_Ok in Hids as [_ Hids]. apply rbind_Ok in Hids as (cmb & _ & Hids).
    apply rbind_Ok in Hids as (lbl & _ & Hids). exists lbl. unfold crypto in Hids. by destruct (TI.derive_all_anonymous_ids _); [injection Hids as ->| |]. }
  destruct Hd as [l Hd]. pose proof (derive_ids_len _ _ _ Hd) as H5. apply derive_ids_lens in Hd.
  destruct ids as [|i1 ids]; [done|]. apply Ok_inj in Hb as <-. by split.
Qed.
Lemma create_Ok h pin phone otp pkh now out :
  create_account_with_pin h pin phone otp pkh now = Ok out ->
  exists b pk secret, out = output_from b /\ output_wf b /\ hex_decode pkh = Some pk /\ identity_pk b = pk /\
    bootstrap_with {| Unlock.pin := pin; duress_pin := None; phone_e164 := phone; otp_secret := secret |} pk (oprf_inner h) (seed_from_u64 (wrap64 now)) = Ok b.
Proof.
  unfold create_account_with_pin. intros Hc. apply rbind_Ok in Hc as (pk & Hpk & Hc). apply ok_or_Ok in Hpk. apply rguard_Ok in Hc as [Hl Hc].
  apply rbind_Ok in Hc as (secret & _ & Hc). apply rbind_Ok in Hc as (b & Hb & Hc). apply Ok_inj in Hc as <-.
  assert (Hb' : bootstrap_with {| Unlock.pin := pin; duress_pin := None; phone_e164 := phone; otp_secret := secret |} pk (oprf_inner h) (seed_from_u64 (wrap64 now)) = Ok b)
    by (destruct (bootstrap_with _ _ _ _); [by injection Hb as ->|done|done]). clear Hb.
  exists b, pk, secret. split_and!; try done.
  - eapply bootstrap_wf; [|done]. by zbool.
  - unfold bootstrap_with in Hb'. repeat case_match. unfold bootstrap_account in Hb'.
    apply rbind_Ok in Hb' as (pr & _ & Hb'). apply rbind_Ok in Hb' as (ids & _ & Hb'). destruct ids; [done|]. by apply Ok_inj in Hb' as <-.
Qed.
(** What an application stored after creating an account is what unlocking starts from. *)
Lemma perform_stored h pin phone otp pkh now out h' pin' dr :
  create_account_with_pin h pin phone otp pkh now = Ok out -> len dr = 32 ->
  exists b, out = output_from b /\ output_wf b /\
    perform_unlock h' pin' (state_hex out) (hex_encode dr) = rmap_err Ffi.from_client_error (unlock_with_pin pin' b dr (initial_transcript b) (inner h')).
Proof.
  intros Hc Hd. apply create_Ok in Hc as (b & pk & secret & -> & Hwf & _). exists b. split_and!; try done. unfold perform_unlock. by rewrite decode_state.
Qed.

(** ** The mock clusters *)
Definition mock_combined : list byte := lagrange_combine_shares [(1, replicate 32 Byte.x11); (2, replicate 32 Byte.x22); (3, replicate 32 Byte.x33)].
Definition mock_share (id : Z) : list byte :=
  replicate 32 (match id with 1 => Byte.x11 | 2 => Byte.x22 | 3 => Byte.x33 | 4 => Byte.x44 | _ => Byte.x55 end).
Lemma mock_shares_answer root id anon pr t : id ∈ all_servers ->
  mock_unwrap_share (mock_shares root) id anon pr t = if bool_decide (root = pr) then Ok (mock_share id) else Err WrongPin.
Proof. intros Hid. apply in_all in Hid. destruct Hid as [->|[->|[->|[->| ->]]]]; reflexivity. Qed.
Lemma mock_unlock root pin b dr t pr :
  len (per_server_anonymous_ids b) = 5 -> TI.derive_pin_root pin (account_local_salt b) = Ok pr ->
  unlock_with_pin pin b dr t (mock_unwrap_share (mock_shares root)) =
  if bool_decide (root = pr) then session_from b pr mock_combined dr t else Err WrongPin.
Proof.
  intros Hl Hp.
  assert (Hid : forall id, id ∈ all_servers -> exists anon, per_server_anonymous_ids b !! Z.to_nat (id - 1) = Some anon).
  { intros id Hid. apply lookup_lt_is_Some_2. apply in_all in Hid. unfold len in Hl. lia. }
  case_bool_decide as Hr.
  - assert (Hans : forall id, id ∈ all_servers -> answers (mock_unwrap_share (mock_shares root)) (per_server_anonymous_ids b) pr t id = Some (mock_share id)).
    { intros id Hin. destruct (Hid id Hin) as [anon Ha]. unfold answers. by rewrite Ha, mock_shares_answer, bool_decide_true. }
    rewrite (unlock_reachable _ _ _ _ _ pr Hp).
    + rewrite (shares_of_all _ _ _ _ mock_share) by done. reflexivity.
    + apply Forall_forall. intros id Hin. destruct (Hid id Hin) as [anon Ha]. exists anon. rewrite mock_shares_answer, bool_decide_true by done. done.
  - unfold unlock_with_pin. rewrite Hp. cbn [crypto rmap_err rbind]. unfold all_servers.
    assert (H1 : 1 ∈ all_servers) by (by apply all_in). destruct (Hid 1 H1) as [anon Ha].
    rewrite (collect_refused _ _ _ _ _ _ _ anon); [done|done|done|]. by rewrite mock_shares_answer, bool_decide_false.
Qed.

Context {SL : ScalarFieldLaws}.
Add Field mock_scalars : scalar_field.
(** The mock OPRF servers hold the points of a polynomial whose constant is the OPRF key. *)
Lemma mock_oprf_points {E} rng shares : mock_oprf_new (E := E) rng = Ok shares ->
  exists k a b, from_canonical_bytes (generate_private_key rng).1 = Some k /\ shares = (fun id => (id, to_bytes (poly k a b id))) <$> all_servers.
Proof.
  unfold mock_oprf_new. destruct (generate_private_key rng) as [sk rng1]. cbn [fst]. destruct (from_canonical_bytes sk) as [k|]; [|done].
  unfold shamir_split_for_testing. change (Z.to_nat (DL.threshold threshold_config_default - 1)) with 2%nat. cbn [random_scalars].
  destruct (scalar_random rng1) as [a rng2]. destruct (scalar_random rng2) as [b rng3]. intros Hs. apply Ok_inj in Hs as <-. exists k, a, b. split; [done|].
  change (seqZ 1 (DL.total threshold_config_default)) with all_servers. cbn [fst]. rewrite <- list_fmap_compose. apply list_fmap_ext. intros _ x _. cbn [compose fst snd].
  do 2 f_equal. unfold eval_coeffs, poly. cbn [foldl fst snd]. ring.
Qed.
Definition share_at (shares : list (Z * list byte)) (id : Z) : list byte := default [] (snd <$> shares !! Z.to_nat (id - 1)).
Lemma mock_evaluates shares id blinded : len shares = 5 -> id ∈ all_servers ->
  mock_evaluate_anon_id shares id blinded = oprf (DL.evaluate_for_testing blinded (share_at shares id)).
Proof.
  intros Hl Hid. assert (Hr : 1 <= id <= 5) by (apply in_all in Hid; lia). unfold mock_evaluate_anon_id, rguard, share_at.
  rewrite (proj2 (Z.eqb_neq _ _)), (proj2 (Z.ltb_ge _ _)) by lia. cbn [orb].
  destruct (lookup_lt_is_Some_2 shares (Z.to_nat (id - 1))) as [[w y] Hy]; [unfold len in Hl; lia|]. by rewrite Hy.
Qed.
Lemma mock_oprf_honest shares label pr r blinded bst : len shares = 5 -> DL.OprfLaws (share_at shares) label threshold_config_default ->
  DL.blind pr r = Ok (blinded, bst) ->
  Forall (oprf_honest (share_at shares) (mock_evaluate_anon_id shares) blinded) all_servers /\
  len (evals_of (mock_evaluate_anon_id shares) blinded all_servers) = 5.
Proof.
  intros Hl OL Hb.
  assert (Hev : forall id, id ∈ all_servers -> exists ev, DL.evaluate_for_testing blinded (share_at shares id) = Ok ev /\ mock_evaluate_anon_id shares id blinded = Ok ev).
  { intros id Hid. destruct (DL.evaluate_ok (OprfLaws := OL) pr r blinded bst id Hb) as [ev He]; [apply in_all in Hid; cbn; lia|].
    exists ev. rewrite mock_evaluates by done. by rewrite He. }
  split.
  - apply Forall_forall. intros id Hid. destruct (Hev id Hid) as (ev & He & Hm). unfold oprf_honest. by rewrite Hm.
  - unfold evals_of. unfold all_servers. cbn [omap list_omap].
    repeat match goal with |- context [mock_evaluate_anon_id shares ?n blinded] =>
      let H := fresh in destruct (Hev n) as (? & _ & H); [by apply all_in|]; rewrite H; clear H end. done.
Qed.

(** From an empty application to an unlocked account, across the boundary: the test handle
    registers the account with its OPRF servers, the state the application stores is what unlocking
    reads, and unlocking succeeds exactly with a PIN whose root is the one of the handle; any other
    PIN is reported as wrong. *)
Theorem onboarding_end_to_end root t0 shares label pin phone pk t1 salt pr ids dr pin' pr' :
  len root = 32 -> len pk = 32 -> len dr = 32 ->
  mock_oprf_new (E := Error) (seed_from_u64 (wrap64 (wrap64 t0 * HASH_MIX))) = Ok shares ->
  DL.OprfLaws (share_at shares) label threshold_config_default ->
  salt = (Pq.fill_bytes 16 (seed_from_u64 (wrap64 t1))).1 ->
  TI.derive_pin_root pin salt = Ok pr -> (forall r, exists x, DL.blind pr r = Ok x) ->
  TI.derive_all_anonymous_ids (label pr) = Ok ids -> TI.derive_pin_root pin' salt = Ok pr' ->
  exists h out b, mock_with_pin_root (hex_encode root) t0 = Ok h /\
    create_account_with_pin h pin phone None (hex_encode pk) t1 = Ok out /\ out = output_from b /\
    f_identity_pk out = pk /\ f_salt out = salt /\ f_anon_ids out = ids /\
    perform_unlock h pin' (state_hex out) (hex_encode dr) =
      if bool_decide (root = pr') then rmap_err Ffi.from_client_error (session_from b pr' mock_combined dr (initial_transcript b)) else Err Ffi.UWrongPin.
Proof.
  intros Hr Hk Hd Hs OL Hsalt Hp Hbl Hids Hp'.
  destruct (mock_oprf_points _ _ Hs) as (k & a & b & _ & Hpts). assert (Hl5 : len shares = 5) by (by rewrite Hpts).
  assert (Hh : mock_with_pin_root (hex_encode root) t0 = Ok {| inner := mock_unwrap_share (mock_shares root); oprf_inner := mock_evaluate_anon_id shares; sessions := ∅ |}).
  { unfold mock_with_pin_root. rewrite hex_inverse. cbn [ok_or rbind]. unfold rguard. rewrite (proj2 (Z.eqb_eq _ _) Hr). cbn [negb]. rewrite Hs. done. }
  assert (Hlen : len pr = 32).
  { unfold TI.derive_pin_root in Hp. repeat apply rguard_Ok in Hp as [_ Hp]. apply ok_or_Ok in Hp. by eapply argon_len. }
  destruct (Pq.fill_bytes 16 (seed_from_u64 (wrap64 t1))) as [salt' rng1] eqn:E1. cbn [fst] in Hsalt. subst salt'.
  destruct (Pq.fill_bytes 32 rng1) as [device rng2] eqn:E2. destruct (Hbl (blind_draw rng2)) as [[blinded bst] Hb].
  destruct (mock_oprf_honest shares label pr _ blinded bst Hl5 OL Hb) as [Hon Hge].
  destruct (bootstrap_honest (share_at shares) label {| Unlock.pin := pin; duress_pin := None; phone_e164 := phone; otp_secret := None |}
    pk (mock_evaluate_anon_id shares) all_servers [] salt device (blind_draw rng2) pr blinded bst ids) as [H5 Hbo]; try done; [lia|lia|].
  eexists _, _, _. split; [exact Hh|].
  assert (Hc : create_account_with_pin {| inner := mock_unwrap_share (mock_shares root); oprf_inner := mock_evaluate_anon_id shares; sessions := ∅ |}
      pin phone None (hex_encode pk) t1 = Ok (output_from {| identity_pk := pk; account_local_salt := salt; device_random_handle := device;
       initial_transcript := {| TI.dt_account_id := default [] (head ids); TI.dt_epoch := 1 |}; per_server_anonymous_ids := ids |})).
  { unfold create_account_with_pin. rewrite hex_inverse. cbn [ok_or rbind]. unfold rguard. rewrite (proj2 (Z.eqb_eq _ _) Hk). cbn [negb decode_otp rbind oprf_inner].
    unfold bootstrap_with. by rewrite E1, E2, Hbo. }
  split; [exact Hc|]. split; [reflexivity|]. split_and!; try done.
  destruct (create_Ok _ _ _ _ _ _ _ Hc) as (b' & _ & _ & Heq & Hwf & _).
  assert (Hwf' : output_wf {| identity_pk := pk; account_local_salt := salt; device_random_handle := device;
       initial_transcript := {| TI.dt_account_id := default [] (head ids); TI.dt_epoch := 1 |}; per_server_anonymous_ids := ids |}).
  { destruct Hwf as [W1 W2 W3 W4 W5 W6]. injection Heq as E3 E4 E5 E6. split; cbn; try congruence. }
  unfold perform_unlock. rewrite decode_state by done. cbn [rbind inner initial_transcript].
  rewrite (mock_unlock root pin' _ dr _ pr'); [|done|done]. by case_bool_decide.
Qed.

(** ** Sessions *)
Lemma unlock_Ok a pin sh dr now r a' : unlock pin sh dr now a = (Ok r, a') <->
  exists s, perform_unlock (handle a) pin sh dr = Ok s /\
    r = {| identity_pk_hex := hex_encode (us_identity_pk s); session_handle := (generate_session_handle (counter a) now).1 |} /\
    a' = {| handle := set_sessions (handle a) (<[session_handle r := s]> (sessions (handle a))); counter := wrap64 (counter a + 1) |}.
Proof.
  unfold unlock. destruct (perform_unlock (handle a) pin sh dr) as [s|e|]; cbn; split; try done.
  - intros [= <- <-]. by exists s.
  - by intros (s' & [= <-] & -> & ->).
  - by intros (s' & ? & _).
  - by intros (s' & ? & _).
Qed.
Lemma session_identity h pin sh dr s : perform_unlock h pin sh dr = Ok s ->
  exists b d, decode_unlock_inputs sh dr = Ok (b, d) /\ us_identity_pk s = identity_pk b.
Proof.
  unfold perform_unlock. intros H. apply rbind_Ok in H as ([b d] & Hd & H). exists b, d. split; [done|].
  destruct (unlock_with_pin pin b d (initial_transcript b) (inner h)) as [s'| |] eqn:Hu; [|done|done]. injection H as ->.
  unfold unlock_with_pin in Hu. apply rbind_Ok in Hu as (? & _ & Hu). apply rbind_Ok in Hu as (? & _ & Hu). apply rguard_Ok in Hu as [_ Hu].
  apply rbind_Ok in Hu as (? & _ & Hu). apply rbind_Ok in Hu as (? & _ & Hu). by injection Hu as <-.
Qed.

(** C38. The keys of a session do not cross the boundary: what a successful unlock returns is the same
    whatever the PIN, the servers and their shares were, so it tells nothing about the keys; they
    are found only under the name returned, until it is released, and neither unlocking nor
    releasing touches a session with another name.  A failed unlock changes nothing. *)
Theorem keys_stay_inside a1 a2 pin1 pin2 sh dr now r a1' :
  unlock pin1 sh dr now a1 = (Ok r, a1') ->
  (forall r2 a2', counter a2 = counter a1 -> unlock pin2 sh dr now a2 = (Ok r2, a2') -> r2 = r) /\
  (exists s, perform_unlock (handle a1) pin1 sh dr = Ok s /\ sessions (handle a1') !! session_handle r = Some s) /\
  (forall n, n <> session_handle r -> sessions (handle a1') !! n = sessions (handle a1) !! n) /\
  sessions (handle (release_session a1' (session_handle r))) = delete (session_handle r) (sessions (handle a1)) /\
  (forall e pin a2', unlock pin sh dr now a2 = (Err e, a2') -> a2' = a2).
Proof.
  intros H1. apply unlock_Ok in H1 as (s & Hs & -> & ->). cbn [session_handle handle set_sessions sessions]. split_and!.
  - intros r2 a2' Hc H2. apply unlock_Ok in H2 as (s2 & Hs2 & -> & _). apply session_identity in Hs as (b & d & Hd & ->).
    apply session_identity in Hs2 as (b2 & d2 & Hd2 & ->). rewrite Hd2 in Hd. injection Hd as -> ->. by rewrite Hc.
  - exists s. split; [done|]. apply lookup_insert_eq.
  - intros n Hn. by apply lookup_insert_ne.
  - cbn [release_session handle set_sessions sessions]. apply delete_insert_eq.
  - intros e pin a2' H2. unfold unlock in H2. by destruct (perform_unlock (handle a2) pin sh dr); [|injection H2 as <- <-|].
Qed.

(** ** Seeds *)
(** The multiplier is a unit modulo [2^64]. *)
Definition HASH_MIX_INV : Z := 0xF1DE83E19937733D.
Lemma mix_inj x y : is_u64 x -> is_u64 y -> (x * HASH_MIX) mod 2 ^ 64 = (y * HASH_MIX) mod 2 ^ 64 -> x = y.
Proof.
  intros Hx Hy Heq. unfold is_u64, U64_MAX in *.
  assert (Hu : forall z, 0 <= z <= 18446744073709551615 -> (((z * HASH_MIX) mod 2 ^ 64) * HASH_MIX_INV) mod 2 ^ 64 = z).
  { intros z Hz. rewrite Z.mul_mod_idemp_l by done. rewrite <- Z.mul_assoc.
    change (HASH_MIX * HASH_MIX_INV) with (1 + (HASH_MIX * HASH_MIX_INV / 2 ^ 64) * 2 ^ 64).
    rewrite Z.mul_add_distr_l, Z.mul_assoc, Z.mod_add by done. rewrite Z.mul_1_r. apply Z.mod_small. lia. }
  rewrite <- (Hu x), <- (Hu y) by lia. by rewrite Heq.
Qed.
Lemma session_seed_inj c1 c2 now : is_u64 c1 -> is_u64 c2 -> session_seed c1 now = session_seed c2 now -> c1 = c2.
Proof.
  intros H1 H2 Heq. unfold session_seed, wrap64 in Heq. apply mix_inj; [done|done|].
  apply (f_equal (fun z => (z - now mod 2 ^ 64) mod 2 ^ 64)) in Heq. rewrite !Zminus_mod_idemp_l in Heq.
  by rewrite !Z.add_simpl_r in Heq.
Qed.

(** Everything random in an account comes from 64 bits of the clock: the salt, the device handle
    and the blinding of the OPRF are functions of the nanosecond of the call, the same for two
    accounts created in the same nanosecond whatever their PINs, and two test handles made in the
    same nanosecond have the same OPRF key.  The names of sessions are made from distinct seeds
    within one nanosecond. *)
Theorem randomness_from_clock h h' pin pin' phone phone' otp otp' pkh pkh' now out out' :
  create_account_with_pin h pin phone otp pkh now = Ok out -> create_account_with_pin h' pin' phone' otp' pkh' now = Ok out' ->
  f_salt out = f_salt out' /\ f_device_handle out = f_device_handle out' /\
  f_salt out = (Pq.fill_bytes 16 (seed_from_u64 (wrap64 now))).1 /\
  (forall rh rh' m m', mock_with_pin_root rh now = Ok m -> mock_with_pin_root rh' now = Ok m' -> oprf_inner m = oprf_inner m') /\
  (forall c1 c2, is_u64 c1 -> is_u64 c2 -> session_seed c1 now = session_seed c2 now -> c1 = c2).
Proof.
  intros H1 H2. assert (Hdraw : forall h0 pin0 phone0 otp0 pkh0 out0, create_account_with_pin h0 pin0 phone0 otp0 pkh0 now = Ok out0 ->
    f_salt out0 = (Pq.fill_bytes 16 (seed_from_u64 (wrap64 now))).1 /\
    f_device_handle out0 = (Pq.fill_bytes 32 (Pq.fill_bytes 16 (seed_from_u64 (wrap64 now))).2).1).
  { intros h0 pin0 phone0 otp0 pkh0 out0 H. apply create_Ok in H as (b & pk & secret & -> & _ & _ & _ & Hb). unfold bootstrap_with in Hb.
    destruct (Pq.fill_bytes 16 _) as [salt rng1]. cbn [fst snd]. destruct (Pq.fill_bytes 32 rng1) as [device rng2]. cbn [fst].
    unfold bootstrap_account in Hb. apply rbind_Ok in Hb as (? & _ & Hb). apply rbind_Ok in Hb as (ids & _ & Hb). destruct ids; [done|].
    by injection Hb as <-. }
  apply Hdraw in H1 as [S1 D1]. apply Hdraw in H2 as [S2 D2]. split_and!; [congruence|congruence|done| |].
  - intros rh rh' m m' Hm Hm'. unfold mock_with_pin_root in Hm, Hm'. apply rbind_Ok in Hm as (? & _ & Hm). apply rguard_Ok in Hm as [_ Hm].
    apply rbind_Ok in Hm' as (? & _ & Hm'). apply rguard_Ok in Hm' as [_ Hm']. cbn zeta in Hm, Hm'.
    apply rbind_Ok in Hm as (sh & Hsh & Hm). rewrite Hsh in Hm'. cbn [rbind] in Hm'. by injection Hm as <-; injection Hm' as <-.
  - intros c1 c2 Hc1 Hc2. by apply session_seed_inj.
Qed.
End Onboarding.

(** ** Concrete parameters for the witnesses *)
#[local] Existing Instances Unlock.toy_field Unlock.toy_field_laws TI.toy_crypto DL.toy_oprf Pq.toy_rng.
#[local] Instance toy_hex : Hex := {| hex_encode b := b; hex_decode b := Some b |}.
#[local] Instance toy_hex_laws : HexLaws.
Proof. by split. Qed.
#[local] Instance toy_generator : Generator Z := {|
  seed_from_u64 z := z; scalar_random r := (f_of r, r + 1); generate_private_key r := ([], r + 1); from_canonical_bytes _ := Some f3; blind_draw _ := []
|}.
#[local] Instance toy_draws : DrawLaws.
Proof.
  split.
  - intros n r Hn. cbn. rewrite len_replicate. lia.
  - intros s i f o Ho. assert (He : Some (take (Z.to_nat 32) (f ++ i ++ replicate 32 Byte.x00)) = Some o) by exact Ho. apply (inj Some) in He as <-.
    rewrite len_take, !len_app, len_replicate. pose proof (len_nonneg f). pose proof (len_nonneg i). lia.
  - intros p s r Ho. assert (He : Some (take 32 (p ++ replicate 32 Byte.x00)) = Some r) by exact Ho. apply (inj Some) in He as <-.
    rewrite len_take, len_app, len_replicate. pose proof (len_nonneg p). lia.
Qed.
Lemma toy_oprf_any share : DL.OprfLaws share (fun h => h) threshold_config_default.
Proof.
  split; cbn.
  - lia.
  - intros inp r req st wi [= <- <-] _. rewrite (proj2 (Z.eqb_eq _ _)); [eauto|]. pose proof (len_nonneg inp). len_lia.
  - intros req sk ev. destruct (len req =? 32) eqn:E; [|done]. intros [= <-]. zbool. done.
  - intros inp r req st [|[w e] evs] [= <- <-] _ Ht _; [done|]. cbn. eauto.
Qed.
Definition toy_root : list byte := Unlock.toy_root Unlock.toy_pin.
Definition toy_key : list byte := replicate 32 Byte.x07.
Definition toy_mock_shares : list (Z * list byte) := Eval vm_compute in
  match mock_oprf_new (E := Error) (seed_from_u64 (wrap64 (wrap64 5 * HASH_MIX))) with Ok l => l | _ => [] end.
Definition toy_ids : list (list byte) := Eval vm_compute in match TI.derive_all_anonymous_ids toy_root with Ok l => l | _ => [] end.
Lemma onboarding_end_to_end_witness :
  exists h out b, mock_with_pin_root toy_root 5 = Ok h /\ create_account_with_pin h Unlock.toy_pin None None toy_key 9 = Ok out /\ out = output_from b /\
    perform_unlock h Unlock.toy_pin (state_hex out) toy_key =
      rmap_err Ffi.from_client_error (session_from b toy_root mock_combined toy_key (initial_transcript b)) /\
    perform_unlock h [Byte.x39] (state_hex out) toy_key = Err Ffi.UWrongPin.
Proof.
  assert (He : forall pin' pr', TI.derive_pin_root pin' (replicate 16 Byte.x09) = Ok pr' -> exists h out b, mock_with_pin_root (hex_encode toy_root) 5 = Ok h /\
    create_account_with_pin h Unlock.toy_pin None None (hex_encode toy_key) 9 = Ok out /\ out = output_from b /\
    f_identity_pk out = toy_key /\ f_salt out = replicate 16 Byte.x09 /\ f_anon_ids out = toy_ids /\
    perform_unlock h pin' (state_hex out) (hex_encode toy_key) =
      if bool_decide (toy_root = pr') then rmap_err Ffi.from_client_error (session_from b pr' mock_combined toy_key (initial_transcript b)) else Err Ffi.UWrongPin).
  { intros pin' pr' Hp'. apply (onboarding_end_to_end toy_root 5 toy_mock_shares (fun h => h) Unlock.toy_pin None toy_key 9 (replicate 16 Byte.x09) toy_root toy_ids toy_key pin' pr').
    - reflexivity.
    - reflexivity.
    - reflexivity.
    - vm_compute. reflexivity.
    - apply toy_oprf_any.
    - reflexivity.
    - reflexivity.
    - intros r. by eexists.
    - vm_compute. reflexivity.
    - exact Hp'. }
  destruct (He Unlock.toy_pin toy_root eq_refl) as (h & out & b & Hh & Hc & Ho & _ & _ & _ & Hu).
  destruct (He [Byte.x39] (Unlock.toy_root [Byte.x39]) eq_refl) as (h' & out' & b' & Hh' & Hc' & _ & _ & _ & _ & Hu').
  exists h, out, b. rewrite Hh' in Hh. injection Hh as ->. rewrite Hc' in Hc. injection Hc as ->. split_and!; [exact Hh'|exact Hc'|exact Ho|exact Hu|exact Hu'].
Defined.

(** Servers with other shares, for the same stored state. *)
Definition toy_state : list byte := replicate 240 Byte.x01.
Definition toy_app (root : list byte) : App :=
  {| handle := {| inner := mock_unwrap_share (mock_shares root); oprf_inner := fun _ _ => Err Cancelled; sessions := ∅ |}; counter := 7 |}.
Lemma toy_unlock : exists r a', unlock Unlock.toy_pin toy_state toy_key 3 (toy_app toy_root) = (Ok r, a').
Proof. eexists _, _. reflexivity. Qed.
Lemma keys_stay_inside_witness : exists r a', unlock Unlock.toy_pin toy_state toy_key 3 (toy_app toy_root) = (Ok r, a') /\
  is_Some (sessions (handle a') !! session_handle r) /\ sessions (handle (release_session a' (session_handle r))) = delete (session_handle r) ∅.
Proof.
  destruct toy_unlock as (r & a' & Hu). exists r, a'. split; [exact Hu|].
  destruct (keys_stay_inside (toy_app toy_root) (toy_app toy_root) Unlock.toy_pin Unlock.toy_pin toy_state toy_key 3 r a' Hu) as (_ & (s & _ & Hs) & _ & Hd & _).
  split; [by exists s|exact Hd].
Defined.
Definition toy_handle : OnboardingHandle := {| inner := mock_unwrap_share (mock_shares toy_root); oprf_inner := mock_evaluate_anon_id toy_mock_shares; sessions := ∅ |}.
Lemma toy_created pin : pin ∈ [Unlock.toy_pin; [Byte.x39]] -> exists out, create_account_with_pin toy_handle pin None None toy_key 9 = Ok out.
Proof. set_unfold. intros [->|[->|[]]]; eexists; vm_compute; reflexivity. Qed.
Lemma randomness_from_clock_witness : exists out out', create_account_with_pin toy_handle Unlock.toy_pin None None toy_key 9 = Ok out /\
  create_account_with_pin toy_handle [Byte.x39] None None toy_key 9 = Ok out' /\ f_salt out = f_salt out' /\ f_device_handle out = f_device_handle out'.
Proof.
  destruct (toy_created Unlock.toy_pin) as [out H1]; [left|]. destruct (toy_created [Byte.x39]) as [out' H2]; [right; left|].
  exists out, out'. split; [exact H1|]. split; [exact H2|].
  destruct (randomness_from_clock _ _ _ _ _ _ _ _ _ _ _ _ _ H1 H2) as (Hs & Hd & _). split; [exact Hs|exact Hd].
Defined.
End Onboarding.
