(* ===== verification/FfiChat.v ===== *)
(** * Chats across the foreign-function boundary
    ([crates/umbrella-ffi/src/export/client.rs], [cloud_chat.rs], [secret_chat.rs], [types/message.rs])

    The handles through which an application opens chats, sends, reads and manages members, over
    the client of [Client.v].  A handle is the identifier of its chat; the core is shared. *)
From S2P Require Import Prelude Bytes Crypto Pq CloudWire SealedSender Mls MaxRatchet ClientError Client Ffi.
Local Open Scope string_scope.
Local Open Scope list_scope.
Local Open Scope Z_scope.

Module FfiChat.

(** ** Messages ([types/message.rs]) *)
Record MessageFfi := { fm_message_id : list byte; fm_chat_id : list byte; fm_sender : list byte; timestamp_unix_millis : Z; fm_text : option (list byte) }.
(** What [Debug] prints of a message and of a call policy. *)
Record MessageDebug := { d_message_id : list byte; d_chat_id : list byte; d_sender : list byte; d_timestamp : Z; d_text_len : option Z; d_has_text : bool }.
Definition message_debug (m : MessageFfi) : MessageDebug := {|
  d_message_id := fm_message_id m; d_chat_id := fm_chat_id m; d_sender := fm_sender m; d_timestamp := timestamp_unix_millis m;
  d_text_len := len <$> fm_text m; d_has_text := bool_decide (is_Some (fm_text m))
|}.
Record PolicyDebug := { d_default_routing : Z; d_sensitive_peers_len : Z; d_allow_p2p_global : bool }.
Definition policy_debug (v : Ffi.CallPolicyFfi) : PolicyDebug :=
  {| d_default_routing := Ffi.default_routing v; d_sensitive_peers_len := len (Ffi.sensitive_peers v); d_allow_p2p_global := Ffi.allow_p2p_global v |}.

Section Chat.
Context {OM : Mls.OpenMls} {CM : Client.ClientMls OM} {SC : MaxRatchet.SpqrCrypto} {GW : Client.GatewayOps}
        {EC : SealedSender.EnvelopeCrypto} {Ed : Ed25519} {CC : CloudWire.CloudCrypto}
        {R U : Type} {RG : Pq.Rng R} {CK : Client.CloudKeys R U} (lossy : list byte -> list byte).
Local Notation Core := (Client.ClientCore (OM := OM) (R := R) (U := U)).
Local Notation Error := (Ffi.UmbrellaError Client.NetworkReason).

(** A call across the boundary fails with an error of the boundary, or still waits. *)
Inductive Stop := Failed (e : Error) | Pending.
Definition Call (A : Type) : Type := st Core Stop A.
Definition from_stop (s : Client.Stop) : Stop := match s with Client.Failed e => Failed (Ffi.from_client_error e) | Client.Pending => Pending end.
(** The [?] of a call into the client. *)
Definition client {A} (m : Client.Op (OM := OM) (R := R) (U := U) A) : Call A := fun c => let '(r, c) := m c in (rmap_err from_stop r, c).
Definition check {A} (r : res Error A) : Call A := slift (rmap_err Failed r).

Definition decrypted_to_ffi (m : Client.DecryptedMessage) : MessageFfi := {|
  fm_message_id := Client.message_id m; fm_chat_id := Client.chat_id m; fm_sender := Client.dm_sender m;
  timestamp_unix_millis := Client.timestamp m; fm_text := Some (Client.text m)
|}.

(** ** The facade calls that change no member ([facade/cloud_chat.rs], [facade/secret_chat.rs]) *)
Definition facade_add_participant (_peer : list byte) : Client.Op (OM := OM) (R := R) (U := U) unit := sret tt.
Definition facade_remove_participant (_peer : list byte) : Client.Op (OM := OM) (R := R) (U := U) unit := sret tt.
Definition facade_add_bot (_bot_id : list byte) : Client.Op (OM := OM) (R := R) (U := U) unit := sret tt.

(** ** Handles *)
Record ChatHandle := { chat : list byte; suite : Z }.
Definition open_chat (chat_id : list byte) : Call ChatHandle :=
  let! id := check (Ffi.chat_id_try_from chat_id) in
  let! c := sget in
  let '(chat, suite) := Client.chat_open c id in
  sret {| chat := chat; suite := suite |}.
Definition cloud_send_text (h : ChatHandle) (text : list byte) (now_unix now_millis : Z) : Call (list byte) :=
  client (Client.cloud_send_text (chat h) text now_unix now_millis).
Definition cloud_fetch_inbox (fuel : nat) (h : ChatHandle) : Call (list MessageFfi) :=
  let! msgs := client (Client.fetch_mls_inbox lossy fuel (chat h)) in
  sret (decrypted_to_ffi <$> msgs).
Definition cloud_sync_history (h : ChatHandle) (since_unix_millis : option Z) : Call (list MessageFfi) :=
  let! msgs := client (Client.cloud_sync_history_impl lossy (chat h) since_unix_millis) in
  sret (decrypted_to_ffi <$> msgs).
Definition secret_send_text (h : ChatHandle) (text : list byte) : Call (list byte) := client (Client.send_secret_text (chat h) text).
Definition secret_fetch_inbox (fuel : nat) (h : ChatHandle) : Call (list MessageFfi) :=
  let! msgs := client (Client.fetch_secret_inbox lossy fuel (chat h)) in
  sret (decrypted_to_ffi <$> msgs).
Definition add_participant (peer : list byte) : Call unit :=
  let! id := check (Ffi.peer_id_try_from peer) in client (facade_add_participant id).
Definition remove_participant (peer : list byte) : Call unit :=
  let! id := check (Ffi.peer_id_try_from peer) in client (facade_remove_participant id).
Definition chat_id (h : ChatHandle) : list byte := chat h.

(** ** An application: calls on handles it opened *)
Inductive call :=
| AOpen (id : list byte) | ASend (h : ChatHandle) (t : list byte) (now ms : Z) | AFetch (fuel : nat) (h : ChatHandle) | ASync (h : ChatHandle) (since : option Z)
| ASendSecret (h : ChatHandle) (t : list byte) | AFetchSecret (fuel : nat) (h : ChatHandle) | AAdd (peer : list byte) | ARemove (peer : list byte).
Definition run_call (x : call) (c : Core) : Core :=
  match x with
  | AOpen id => (open_chat id c).2
  | ASend h t now ms => (cloud_send_text h t now ms c).2
  | AFetch fuel h => (cloud_fetch_inbox fuel h c).2
  | ASync h since => (cloud_sync_history h since c).2
  | ASendSecret h t => (secret_send_text h t c).2
  | AFetchSecret fuel h => (secret_fetch_inbox fuel h c).2
  | AAdd p => (add_participant p c).2
  | ARemove p => (remove_participant p c).2
  end.
Definition run_calls (l : list call) (c : Core) : Core := foldl (fun c x => run_call x c) c l.
(** What a call is to the client: an operation, or nothing. *)
Definition to_op (x : call) : option (Client.cl_op (GW := GW)) :=
  match x with
  | ASend h t now ms => Some (Client.OSendCloud (chat h) t now ms)
  | AFetch fuel h => Some (Client.OFetchCloud fuel (chat h))
  | ASync h since => Some (Client.OSync (chat h) since)
  | ASendSecret h t => Some (Client.OSendSecret (chat h) t)
  | AFetchSecret fuel h => Some (Client.OFetchSecret fuel (chat h))
  | AOpen _ | AAdd _ | ARemove _ => None
  end.

Lemma client_state {A} (m : Client.Op (OM := OM) (R := R) (U := U) A) c : (client m c).2 = (m c).2.
Proof. unfold client. by destruct (m c). Qed.
Lemma bind_ret_state {A B} (m : Call A) (f : A -> B) c : (sbind m (fun a => sret (f a)) c).2 = (m c).2.
Proof. unfold sbind. by destruct (m c) as [[] ?]. Qed.
Lemma run_call_op x c : run_call x c = match to_op x with Some o => Client.run_op lossy o c | None => c end.
Proof.
  destruct x; cbn [run_call to_op Client.run_op]; unfold cloud_send_text, secret_send_text, cloud_fetch_inbox, cloud_sync_history, secret_fetch_inbox;
    rewrite ?bind_ret_state, ?client_state; try done.
  - unfold open_chat, check, Ffi.chat_id_try_from, rguard. by destruct (negb _).
  - unfold add_participant, check, Ffi.peer_id_try_from, rguard. by destruct (negb _).
  - unfold remove_participant, check, Ffi.peer_id_try_from, rguard. by destruct (negb _).
Qed.
Lemma decrypted_to_ffi_inj m1 m2 : decrypted_to_ffi m1 = decrypted_to_ffi m2 -> m1 = m2.
Proof. destruct m1, m2. unfold decrypted_to_ffi. cbn. by intros [= -> -> -> -> ->]. Qed.

(** What an application does to the client is what the client's own operations do: the state after
    any sequence of calls is the state after the corresponding operations, so the invariant of the
    client holds in every state an application reaches; opening a chat and the calls that add
    and remove a member correspond to no operation at all.  Reading gives the application exactly
    the messages the client decrypted, in their order. *)
Theorem application_refines_client l c :
  run_calls l c = foldl (fun c o => Client.run_op lossy o c) c (omap to_op l) /\
  (Client.core_wf c -> Client.core_wf (run_calls l c)) /\
  (forall fuel h r c', cloud_fetch_inbox fuel h c = (Ok r, c') <->
     exists ms, Client.fetch_mls_inbox lossy fuel (chat h) c = (Ok ms, c') /\ r = decrypted_to_ffi <$> ms) /\
  (forall ms ms' : list Client.DecryptedMessage, decrypted_to_ffi <$> ms = decrypted_to_ffi <$> ms' -> ms = ms').
Proof.
  split_and!.
  - unfold run_calls. revert c. induction l as [|x l IH]; intros c; [done|]. cbn [foldl omap list_omap]. rewrite IH, run_call_op. by destruct (to_op x).
  - unfold run_calls. revert c. induction l as [|x l IH]; intros c Hw; [done|]. cbn [foldl]. apply IH. rewrite run_call_op.
    destruct (to_op x); [by apply Client.step_wf|done].
  - intros fuel h r c'. unfold cloud_fetch_inbox, client, sbind. destruct (Client.fetch_mls_inbox lossy fuel (chat h) c) as [[ms|e|] c1]; cbn; split.
    + intros [= <- <-]. by exists ms.
    + by intros (ms' & [= <- <-] & ->).
    + done.
    + by intros (? & ? & _).
    + done.
    + by intros (? & ? & _).
  - intros ms. induction ms as [|m ms IH]; intros [|m' ms'] Heq; try done. cbn [fmap list_fmap] in Heq. assert (Hh := f_equal head Heq). assert (Ht := f_equal tail Heq).
    cbn [head tail] in Hh, Ht. apply (inj Some) in Hh. f_equal; [by apply decrypted_to_ffi_inj|by apply IH].
Qed.

(** Removing a member is answered with success for every well-formed identifier and changes nothing:
    the member stays in the group and goes on reading its messages. *)
Theorem removed_member_stays peer c :
  (len peer = 32 -> remove_participant peer c = (Ok tt, c)) /\
  (len peer <> 32 -> remove_participant peer c = (Err (Failed (Ffi.UInternal (Ffi.WithLen "peer_id length, expected 32" (len peer)))), c)) /\
  (forall chat m g, Client.get_group c chat = Some g -> m ∈ Mls.member_identities g ->
     exists g', Client.get_group (remove_participant peer c).2 chat = Some g' /\ m ∈ Mls.member_identities g').
Proof.
  assert (Hs : (remove_participant peer c).2 = c) by (unfold remove_participant, check, Ffi.peer_id_try_from, rguard; by destruct (negb _)).
  split_and!.
  - intros Hl. unfold remove_participant, check, Ffi.peer_id_try_from, rguard. by rewrite (proj2 (Z.eqb_eq _ _) Hl).
  - intros Hl. unfold remove_participant, check, Ffi.peer_id_try_from, rguard. by rewrite (proj2 (Z.eqb_neq _ _) Hl).
  - intros ch m g Hg Hm. rewrite Hs. by exists g.
Qed.
End Chat.

(** The text of a message and the sensitive contacts of a policy do not reach what [Debug] prints:
    it is the same for all texts of one length and for all lists of one length. *)
Theorem debug_redacted (i ch s : list byte) ts t1 t2 d l1 l2 b :
  len t1 = len t2 -> len l1 = len l2 ->
  message_debug {| fm_message_id := i; fm_chat_id := ch; fm_sender := s; timestamp_unix_millis := ts; fm_text := Some t1 |} =
  message_debug {| fm_message_id := i; fm_chat_id := ch; fm_sender := s; timestamp_unix_millis := ts; fm_text := Some t2 |} /\
  policy_debug {| Ffi.default_routing := d; Ffi.sensitive_peers := l1; Ffi.allow_p2p_global := b |} =
  policy_debug {| Ffi.default_routing := d; Ffi.sensitive_peers := l2; Ffi.allow_p2p_global := b |}.
Proof. intros H1 H2. unfold message_debug, policy_debug. cbn. by rewrite H1, H2. Qed.
End FfiChat.
