(* ===== verification/Attest.v ===== *)
(** * Sealing unwrap requests on the client
    ([crates/umbrella-client/src/attestation/provider_trait.rs], [unwrap_sealing.rs])

    A request for a message key carries a platform attestation bound to the server's nonce and the
    signature of the device.  The provider of attestations and the signer are parameters, as they
    are in the source; the server's side is [CloudRequest.v]. *)
From S2P Require Import Prelude Bytes Crypto BackupError PlatformVerifier CloudRequest ClientError.
Local Open Scope string_scope.
Local Open Scope list_scope.
Local Open Scope Z_scope.

Module Attest.
Module CR := CloudRequest.
Module PV := PlatformVerifier.

(** [trait AttestationProvider]. *)
Definition AttestationProvider : Type := list byte -> res AttestationError CR.PlatformAttestation.
Record StaticTestAttestationProvider := { static_platform : CR.Platform; token_prefix : list byte }.
Definition static_fresh_token (p : StaticTestAttestationProvider) : AttestationProvider := fun server_nonce =>
  rmap_err (fun _ => InvalidShape "invalid attestation shape")
    (CR.attestation_new (static_platform p) (token_prefix p ++ server_nonce)).

Definition seal_unwrap_request_with_async_attestation {N} (ephemeral_r chat_id recipient_device_pubkey : list byte) (timestamp_unix_millis : Z)
    (server_nonce : list byte) (attestation_provider : AttestationProvider) (signer : list byte -> res (ClientError N) (list byte))
    (device_pubkey_bytes : list byte) : res (ClientError N) CR.SignedUnwrapRequest :=
  let? attestation := rmap_err Attestation (attestation_provider server_nonce) in
  let canonical := CR.canonical_signing_input ephemeral_r chat_id recipient_device_pubkey timestamp_unix_millis server_nonce attestation in
  let? signature := signer canonical in
  Ok {| CR.ephemeral_r := ephemeral_r; CR.chat_id := chat_id; CR.recipient_device_pubkey := recipient_device_pubkey;
        CR.timestamp_unix_millis := timestamp_unix_millis; CR.server_nonce := server_nonce; CR.attestation := attestation;
        CR.device_signature := signature; CR.device_pubkey := device_pubkey_bytes |}.

Section Sealing.
Context {N : Type}.
(** The two sealing functions of the workspace agree: with providers and signers that give the same
    values they give the same requests, and one fails exactly when the other does. *)
Theorem sealing_agrees r chat pk ts nonce (p : CR.AttestationProvider) (pa : AttestationProvider) s (sa : list byte -> res (ClientError N) (list byte)) dpk :
  (forall a, p nonce = Ok a <-> pa nonce = Ok a) -> (forall m x, s m = Ok x <-> sa m = Ok x) ->
  forall req, CR.seal_unwrap_request r chat pk ts nonce p s dpk = Ok req <->
              seal_unwrap_request_with_async_attestation r chat pk ts nonce pa sa dpk = Ok req.
Proof.
  intros Hp Hs req. unfold CR.seal_unwrap_request, seal_unwrap_request_with_async_attestation. split; intros H.
  - apply rbind_Ok in H as (a & Ha & H). apply Hp in Ha. rewrite Ha. cbn [rmap_err rbind]. apply rbind_Ok in H as (x & Hx & H). apply Hs in Hx. rewrite Hx. by apply Ok_inj in H as <-.
  - apply rbind_Ok in H as (a & Ha & H). assert (pa nonce = Ok a) as Ha' by (destruct (pa nonce); cbn in Ha; [by injection Ha as <-|done|done]).
    apply Hp in Ha'. rewrite Ha'. cbn [rbind]. apply rbind_Ok in H as (x & Hx & H). apply Hs in Hx. rewrite Hx. by apply Ok_inj in H as <-.
Qed.

Context `{Ed25519} {G : Type} `{!PV.NonceGuard BackupError G}.
(** A device that signs with its key. *)
Definition signs (signer : list byte -> res (ClientError N) (list byte)) (dpk : list byte) : Prop :=
  forall m, exists s, signer m = Ok s /\ len s = 64 /\ sig_ok dpk m s = true.

(** C30. From the device to the server: a request sealed with the server's nonce survives the wire, and
    the production check accepts it exactly when the nonce is the expected one, the times are in
    their windows, the device is active for the envelope, the attestation is one of a real platform
    that the verifier accepts for this very nonce and key, and the nonce is new. *)
Theorem sealed_request_accepted r chat pk ts nonce pa sa dpk att ctx (g g' : G) :
  pa nonce = Ok att -> CR.wf_attestation att -> signs sa dpk ->
  len r = 32 -> len chat = 32 -> len pk = 32 -> len nonce = 32 -> len dpk = 32 -> is_u64 ts -> CR.wf_policy (CR.freshness ctx) ->
  exists req, seal_unwrap_request_with_async_attestation r chat pk ts nonce pa sa dpk = Ok req /\
    CR.from_bytes (CR.to_bytes req) = Ok req /\
    (CR.verify_signed_unwrap_request_for_production_with_context req ctx g = (Ok tt, g') <->
       nonce = CR.expected_server_nonce ctx /\
       CR.in_window (CR.now_unix_millis ctx) (CR.max_nonce_age_millis (CR.freshness ctx)) (CR.max_future_skew_millis (CR.freshness ctx)) (CR.server_nonce_issued_at_unix_millis ctx) /\
       CR.in_window (CR.now_unix_millis ctx) (CR.max_request_age_millis (CR.freshness ctx)) (CR.max_future_skew_millis (CR.freshness ctx)) ts /\
       CR.device_allowed (CR.device_state ctx) ts (CR.envelope_timestamp_unix_millis ctx) /\
       CR.platform att <> CR.Testing /\
       CR.verify_platform_attestation (CR.platform_verifier ctx)
         {| CR.in_platform := CR.platform att; CR.in_token := CR.token att; CR.in_server_nonce := nonce; CR.in_device_pubkey := dpk;
            CR.in_now_unix_millis := CR.now_unix_millis ctx |} = Ok tt /\
       PV.check_and_record_nonce nonce (CR.now_unix_millis ctx) g = (Ok tt, g')).
Proof.
  intros Hp Ha Hs Hr Hc Hk Hn Hd Ht Hf. destruct (Hs (CR.canonical_signing_input r chat pk ts nonce att)) as (sg & Hsg & Hl & Hok).
  eexists. split; [unfold seal_unwrap_request_with_async_attestation; rewrite Hp; cbn [rmap_err rbind]; rewrite Hsg; reflexivity|].
  split; [by apply CR.unwrap_request_dec_enc|].
  match goal with |- CR.verify_signed_unwrap_request_for_production_with_context ?q _ _ = _ <-> _ => set (req := q) end.
  destruct (CR.verify_signed_unwrap_request_for_production_with_context req ctx g) as [res1 g1] eqn:Hv.
  destruct (CR.production_gate _ _ _ _ _ Hf Hv) as [(Hna & Hne & ->)|[[A1 A2 A3 A4 A5 A6 A7] Hck]].
  - split; [by intros [= -> _]|]. intros (B1 & B2 & B3 & B4 & B5 & B6 & _). exfalso. apply Hna. by split.
  - rewrite <- Hck. split; [|by intros (_ & _ & _ & _ & _ & _ & B)]. intros B. by split_and!.
Qed.
End Sealing.

(** ** Witnesses *)
(** A scheme whose signatures always have their length. *)
Definition toy_ed : Ed25519 := {| vk_valid pk := len pk =? 32; ed_verify pk msg sig := bool_decide (sig = pk ++ replicate 32 Byte.x05) |}.
Definition toy_sign (_ : list byte) : res (ClientError unit) (list byte) := Ok (CR.w_key ++ replicate 32 Byte.x05).
Lemma sealed_request_accepted_witness :
  exists req, seal_unwrap_request_with_async_attestation (replicate 32 Byte.x01) (replicate 32 Byte.x02) (replicate 32 Byte.x03) 1000000 CR.w_nonce
      (fun _ => Ok CR.w_attestation) toy_sign CR.w_key = Ok req /\
    @CR.verify_signed_unwrap_request_for_production_with_context toy_ed _ CR.w_guard req CR.w_context [] = (Ok tt, [CR.w_nonce]).
Proof.
  destruct (@sealed_request_accepted unit toy_ed _ CR.w_guard (replicate 32 Byte.x01) (replicate 32 Byte.x02) (replicate 32 Byte.x03) 1000000 CR.w_nonce
    (fun _ => Ok CR.w_attestation) toy_sign CR.w_key CR.w_attestation CR.w_context [] [CR.w_nonce]) as (req & Hq & _ & Hv);
    [reflexivity|by split|intros m; eexists; split; [reflexivity|split; reflexivity]|reflexivity|reflexivity|reflexivity|reflexivity|reflexivity|by split|apply CR.w_policy|].
  exists req. split; [exact Hq|]. apply Hv. split_and!; try reflexivity; by vm_compute.
Defined.
End Attest.
