(* ===== verification/Primitives.v ===== *)
(** * Cryptographic wrappers and locked memory ([crates/umbrella-crypto-primitives/src/])

    The wrappers around hashes, HKDF and ChaCha20-Poly1305, and [MlockedSecret], a secret on the
    heap whose pages are locked in memory and which is wiped when it is dropped.  The crates and
    the two system calls are parameters; the laws of the calls are those of their manual pages: they
    act on whole pages and locks are not counted. *)
From S2P Require Import Prelude Bytes.
Local Open Scope list_scope.
Local Open Scope Z_scope.

Module Primitives.

(** ** Errors ([error.rs]) *)
Inductive CryptoError := InvalidSignature | AeadAuthFailure | InvalidLength (expected got : Z) | InvalidKey | BackendFailure.

(** ** Hashes ([hash.rs]) *)
Definition SHA256_LEN : Z := 32.
Definition SHA512_LEN : Z := 64.
Section Hash.
(** [update] and [finalize] of a hasher: what it has been fed decides the digest. *)
Context (digest256 digest512 : list byte -> list byte).
(** The loop of [update]s over the chunks. *)
Definition feed (acc : list byte) (chunks : list (list byte)) : list byte := foldl (fun acc chunk => acc ++ chunk) acc chunks.
Definition sha256 (chunks : list (list byte)) : list byte := digest256 (feed [] chunks).
Definition sha512 (chunks : list (list byte)) : list byte := digest512 (feed [] chunks).
(** [debug] says whether debug assertions are compiled in. *)
Definition with_label (debug : bool) (digest : list byte -> list byte) (label : list byte) (chunks : list (list byte)) : res Empty_set (list byte) :=
  if debug && bool_decide (Byte.x00 ∈ label) then Panic else Ok (digest (feed (label ++ [Byte.x00]) chunks)).
Definition sha256_with_label (debug : bool) := with_label debug digest256.
Definition sha512_with_label (debug : bool) := with_label debug digest512.

Lemma feed_concat acc chunks : feed acc chunks = acc ++ concat chunks.
Proof.
  revert acc. induction chunks as [|c chunks IH]; intros acc; cbn [feed foldl concat]; [by rewrite app_nil_r|].
  fold (feed (acc ++ c) chunks). by rewrite IH, <- app_assoc.
Qed.
Lemma label_split l1 l2 r1 r2 : Byte.x00 ∉ l1 -> Byte.x00 ∉ l2 -> l1 ++ [Byte.x00] ++ r1 = l2 ++ [Byte.x00] ++ r2 -> l1 = l2 /\ r1 = r2.
Proof.
  revert l2. induction l1 as [|x l1 IH]; intros [|y l2] H1 H2 Heq; cbn in Heq.
  - by injection Heq.
  - injection Heq as <- _. set_solver.
  - injection Heq as -> _. set_solver.
  - injection Heq as -> Heq. destruct (IH l2) as [-> ->]; [set_solver|set_solver|done|done].
Qed.
(** Labels without a zero byte separate domains: equal inputs of the hash have equal labels and
    equal data; a debug build refuses the others, a release build lets two of them collide, and the
    borders between chunks are never part of the input. *)
Theorem labels_separate l1 l2 c1 c2 :
  (Byte.x00 ∉ l1 -> Byte.x00 ∉ l2 ->
     (feed (l1 ++ [Byte.x00]) c1 = feed (l2 ++ [Byte.x00]) c2 <-> l1 = l2 /\ concat c1 = concat c2)) /\
  (forall debug, (exists d, sha256_with_label debug l1 c1 = Ok d) <-> debug = false \/ Byte.x00 ∉ l1) /\
  (forall a b x y, feed ((a ++ [Byte.x00] ++ b) ++ [Byte.x00]) [x] = feed (a ++ [Byte.x00]) [b ++ [Byte.x00] ++ x] /\
     feed (a ++ [Byte.x00]) [x ++ y] = feed (a ++ [Byte.x00]) [x; y]).
Proof.
  split_and!.
  - intros H1 H2. rewrite !feed_concat, <- !app_assoc. split.
    + intros Heq. by apply label_split.
    + by intros [-> ->].
  - intros debug. unfold sha256_with_label, with_label. destruct debug; cbn [andb]; [|split; [by left|by eexists]].
    case_bool_decide; naive_solver.
  - intros a b x y. rewrite !feed_concat. cbn [concat]. rewrite ?app_nil_r, <- ?app_assoc. done.
Qed.
End Hash.

(** ** HKDF ([kdf.rs]) *)
Definition HKDF_SHA256_MAX_OUTPUT : Z := 255 * 32.
Definition HKDF_SHA512_MAX_OUTPUT : Z := 255 * 64.
Section Kdf.
(** [Hkdf::new(salt, ikm).expand(info, n bytes)] of the hkdf crate. *)
Context (expand256 expand512 : option (list byte) -> list byte -> list byte -> Z -> option (list byte)).
Definition hkdf_with (expand : option (list byte) -> list byte -> list byte -> Z -> option (list byte)) (max n : Z) (salt ikm info : list byte) : res CryptoError (list byte) :=
  ok_or (expand (if bool_decide (salt = []) then None else Some salt) ikm info n) (InvalidLength max n).
Definition hkdf_sha256 := hkdf_with expand256 HKDF_SHA256_MAX_OUTPUT.
Definition hkdf_sha512 := hkdf_with expand512 HKDF_SHA512_MAX_OUTPUT.
End Kdf.

(** ** Authenticated encryption ([aead.rs]) *)
Definition AEAD_KEY_LEN : Z := 32.
Definition AEAD_NONCE_LEN : Z := 12.
Definition AEAD_TAG_LEN : Z := 16.
Definition nonce_from_counter (counter : Z) : list byte := replicate 4 Byte.x00 ++ to_be 8 counter.
Lemma nonce_from_counter_inj c1 c2 : is_u64 c1 -> is_u64 c2 -> nonce_from_counter c1 = nonce_from_counter c2 -> c1 = c2.
Proof. intros H1 H2 Heq. apply app_inv_head in Heq. by apply to_be_u64_inj. Qed.

(** ChaCha20-Poly1305 of the chacha20poly1305 crate: the interface with the tag in the ciphertext and
    the one with the tag apart; arguments are key, nonce, associated data and text. *)
Class ChaCha := {
  aead_encrypt : list byte -> list byte -> list byte -> list byte -> option (list byte);
  aead_decrypt : list byte -> list byte -> list byte -> list byte -> option (list byte);
  seal_detached : list byte -> list byte -> list byte -> list byte -> option (list byte * list byte); (* ciphertext, tag *)
  open_detached : list byte -> list byte -> list byte -> list byte -> list byte -> option (list byte) (* the tag last *)
}.
Class ChaChaLaws `{ChaCha} : Prop := {
  seal_lens k n a m c t : seal_detached k n a m = Some (c, t) -> len c = len m /\ len t = AEAD_TAG_LEN;
  seal_open k n a m c t : seal_detached k n a m = Some (c, t) -> open_detached k n a c t = Some m;
  tag_appended k n a m : aead_encrypt k n a m = (fun ct => ct.1 ++ ct.2) <$> seal_detached k n a m;
  tag_split k n a c t : len t = AEAD_TAG_LEN -> aead_decrypt k n a (c ++ t) = open_detached k n a c t
}.
Section Aead.
Context `{ChaCha}.
Definition encrypt (key nonce aad plaintext : list byte) : res CryptoError (list byte) := ok_or (aead_encrypt key nonce aad plaintext) BackendFailure.
Definition decrypt (key nonce aad ciphertext : list byte) : res CryptoError (list byte) := ok_or (aead_decrypt key nonce aad ciphertext) AeadAuthFailure.
(** The new contents of the buffer, with the tag. *)
Definition encrypt_in_place_detached (key nonce aad buffer : list byte) : res CryptoError (list byte * list byte) :=
  ok_or (seal_detached key nonce aad buffer) BackendFailure.
Definition decrypt_in_place_detached (key nonce aad buffer tag : list byte) : res CryptoError (list byte) :=
  ok_or (open_detached key nonce aad buffer tag) AeadAuthFailure.

(** The two interfaces agree: what one seals the other opens, the tag being the last 16 bytes. *)
Theorem aead_interfaces_agree `{!ChaChaLaws} k n a m ct :
  encrypt k n a m = Ok ct ->
  decrypt k n a ct = Ok m /\ len ct = len m + AEAD_TAG_LEN /\
  exists c t, encrypt_in_place_detached k n a m = Ok (c, t) /\ ct = c ++ t /\ decrypt_in_place_detached k n a c t = Ok m.
Proof.
  unfold encrypt, encrypt_in_place_detached, decrypt, decrypt_in_place_detached. rewrite tag_appended.
  destruct (seal_detached k n a m) as [[c t]|] eqn:Hs; [|done]. cbn [fmap option_fmap option_map ok_or fst snd]. intros Hct. apply Ok_inj in Hct as <-.
  destruct (seal_lens _ _ _ _ _ _ Hs) as [Hc Ht]. pose proof (seal_open _ _ _ _ _ _ Hs) as Ho. split_and!.
  - by rewrite tag_split, Ho.
  - rewrite len_app. lia.
  - exists c, t. by rewrite Ho.
Qed.
End Aead.

(** ** Secrets ([secret.rs]) *)
Record SecretBytes := { secret_bytes : list byte }.
Definition zeroed (n : Z) : SecretBytes := {| secret_bytes := replicate (Z.to_nat n) Byte.x00 |}.
Definition secret_eq (a b : SecretBytes) : bool := bool_decide (secret_bytes a = secret_bytes b).
End Primitives.
