(* ===== verification/Mlocked.v ===== *)
(** * Secrets in locked memory ([crates/umbrella-crypto-primitives/src/mlocked.rs])

    [MlockedSecret] keeps a value in a box of its own, locks the pages of the box and wipes the value
    before it unlocks them.  The two system calls are an interface with the laws of [mlock(2)]:
    a call acts on every page the range touches, locks are not counted, and a call that fails
    changes nothing.  The place of a box is chosen by the allocator and is an argument. *)
From S2P Require Import Prelude Bytes.
Local Open Scope list_scope.
Local Open Scope Z_scope.

Module Mlocked.

Class MemLock (K : Type) := {
  PAGE_SIZE : Z;
  mlock : Z -> Z -> K -> bool * K;      (* address, length; true when the call returns 0 *)
  munlock : Z -> Z -> K -> bool * K;
  page_locked : K -> Z -> bool
}.
(** The range of [n] bytes at [a] touches page [pg]. *)
Definition touches `{MemLock K} (a n pg : Z) : bool := (a / PAGE_SIZE <=? pg) && (pg <=? (a + n - 1) / PAGE_SIZE).
Class MemLockLaws (K : Type) `{MemLock K} : Prop := {
  page_pos : 0 < PAGE_SIZE;
  mlock_done a n k k' : mlock a n k = (true, k') -> forall pg, page_locked k' pg = page_locked k pg || touches a n pg;
  mlock_failed a n k k' : mlock a n k = (false, k') -> forall pg, page_locked k' pg = page_locked k pg;
  munlock_done a n k k' : munlock a n k = (true, k') -> forall pg, page_locked k' pg = page_locked k pg && negb (touches a n pg);
  munlock_failed a n k k' : munlock a n k = (false, k') -> forall pg, page_locked k' pg = page_locked k pg
}.

Section Mlocked.
Context {K : Type} {ML : MemLock K}.

(** The state of the process: page locks and the contents of the boxes by address. *)
Record Process := { kernel : K; heap : gmap Z (list byte) }.
Record MlockedSecret := { ptr : Z; size : Z; locked : bool }.
Definition store (p : Process) (a : Z) (v : list byte) : Process := {| kernel := kernel p; heap := <[a := v]> (heap p) |}.

Definition new (value : list byte) (at_ : Z) (p : Process) : MlockedSecret * Process :=
  let p := store p at_ value in
  let size := len value in
  if size =? 0 then ({| ptr := at_; size := size; locked := false |}, p)
  else let '(rc, k) := mlock at_ size (kernel p) in ({| ptr := at_; size := size; locked := rc |}, {| kernel := k; heap := heap p |}).
Definition expose (s : MlockedSecret) (p : Process) : option (list byte) := heap p !! ptr s.
(** A write through [expose_mut] of a value of the same type. *)
Definition expose_mut (s : MlockedSecret) (value : list byte) (p : Process) : Process := store p (ptr s) value.
Definition is_locked (s : MlockedSecret) : bool := locked s.
Definition zeroize (s : MlockedSecret) (p : Process) : Process := store p (ptr s) (replicate (Z.to_nat (size s)) Byte.x00).
Definition unlock_pages (s : MlockedSecret) (p : Process) : Process :=
  if locked s then if 0 <? size s then {| kernel := (munlock (ptr s) (size s) (kernel p)).2; heap := heap p |} else p else p.
Definition drop (s : MlockedSecret) (p : Process) : Process := unlock_pages s (zeroize s p).

(** What [Debug] prints. *)
Record DebugOutput := { size_bytes : Z; d_locked : bool }.
Definition debug_fmt (s : MlockedSecret) : DebugOutput := {| size_bytes := size s; d_locked := locked s |}.

(** ** Specification *)
(** Every page of the secret is locked. *)
Definition resident (s : MlockedSecret) (p : Process) : Prop := forall pg, touches (ptr s) (size s) pg = true -> page_locked (kernel p) pg = true.
(** [is_locked] is documented to say so. *)
Definition truthful (s : MlockedSecret) (p : Process) : Prop := is_locked s = true -> resident s p.
Definition share_page (s1 s2 : MlockedSecret) : Prop := exists pg, touches (ptr s1) (size s1) pg = true /\ touches (ptr s2) (size s2) pg = true.

(** Operations on the live secrets of a process. *)
Inductive op := New (value : list byte) (at_ : Z) | Mutate (i : nat) (value : list byte) | Drop (i : nat).
Definition step (o : op) (x : list MlockedSecret * Process) : list MlockedSecret * Process :=
  let '(live, p) := x in
  match o with
  | New v a => let '(s, p) := new v a p in (s :: live, p)
  | Mutate i v => match live !! i with Some s => (live, expose_mut s v p) | None => (live, p) end
  | Drop i => match live !! i with Some s => (delete i live, drop s p) | None => (live, p) end
  end.
Definition run (ops : list op) (x : list MlockedSecret * Process) : list MlockedSecret * Process := foldl (fun x o => step o x) x ops.
(** The allocator puts a new box on pages of its own; a written value fills its box. *)
Definition apart (o : op) (x : list MlockedSecret * Process) : Prop :=
  match o with
  | New v a => v <> [] /\ Forall (fun s => ~ share_page s (new v a x.2).1) x.1
  | _ => True
  end.
Fixpoint run_apart (ops : list op) (x : list MlockedSecret * Process) : Prop :=
  match ops with [] => True | o :: ops => apart o x /\ run_apart ops (step o x) end.
Inductive separate : list MlockedSecret -> Prop :=
| separate_nil : separate []
| separate_cons s l : 0 < size s -> Forall (fun s' => ~ share_page s' s) l -> separate l -> separate (s :: l).

Context {LL : MemLockLaws K}.
Lemma share_page_sym s1 s2 : share_page s1 s2 -> share_page s2 s1.
Proof. intros (pg & H1 & H2). by exists pg. Qed.
Lemma touches_first s : 0 < size s -> touches (ptr s) (size s) (ptr s / PAGE_SIZE) = true.
Proof.
  intros Hs. unfold touches. rewrite Z.leb_refl. cbn [andb]. apply Z.leb_le. apply Z.div_le_mono; [apply page_pos|lia].
Qed.
Lemma new_ptr v a p : ptr (new v a p).1 = a /\ size (new v a p).1 = len v.
Proof. unfold new. destruct (len v =? 0); [done|]. by destruct (mlock _ _ _). Qed.
Lemma new_truthful v a p : truthful (new v a p).1 (new v a p).2.
Proof.
  unfold truthful, is_locked, resident, new. destruct (len v =? 0); [done|]. destruct (mlock a (len v) (kernel (store p a v))) as [rc k] eqn:Hm. cbn. intros -> pg Hpg.
  rewrite (mlock_done _ _ _ _ Hm), Hpg. apply orb_true_r.
Qed.
Lemma new_keeps v a p pg : page_locked (kernel p) pg = true -> page_locked (kernel (new v a p).2) pg = true.
Proof.
  intros Hl. unfold new. destruct (len v =? 0); [done|]. change (kernel (store p a v)) with (kernel p). destruct (mlock a (len v) (kernel p)) as [[|] k] eqn:Hm; cbn.
  - by rewrite (mlock_done _ _ _ _ Hm), Hl.
  - by rewrite (mlock_failed _ _ _ _ Hm).
Qed.
Lemma unlock_pages_kernel s p pg : page_locked (kernel (unlock_pages s p)) pg =
  page_locked (kernel p) pg && negb (locked s && (0 <? size s) && (munlock (ptr s) (size s) (kernel p)).1 && touches (ptr s) (size s) pg).
Proof.
  unfold unlock_pages. destruct (locked s), (0 <? size s); cbn [andb negb]; rewrite ?andb_true_r; try done.
  destruct (munlock (ptr s) (size s) (kernel p)) as [[|] k] eqn:Hm; cbn [fst snd kernel andb negb].
  - by rewrite (munlock_done _ _ _ _ Hm).
  - by rewrite (munlock_failed _ _ _ _ Hm), andb_true_r.
Qed.

(** Dropping a secret leaves another one locked exactly when they share no page. *)
Lemma drop_resident s1 s2 p :
  locked s1 = true -> 0 < size s1 -> (munlock (ptr s1) (size s1) (kernel (zeroize s1 p))).1 = true -> resident s2 p ->
  resident s2 (drop s1 p) <-> ~ share_page s1 s2.
Proof.
  intros Hl Hs Hu Hr. unfold resident, drop. split.
  - intros Hd (pg & H1 & H2). specialize (Hd pg H2). rewrite unlock_pages_kernel, Hl, Hu, H1, (proj2 (Z.ltb_lt _ _) Hs) in Hd.
    by rewrite andb_false_r in Hd.
  - intros Hn pg Hpg. rewrite unlock_pages_kernel. rewrite (Hr pg Hpg : page_locked (kernel (zeroize s1 p)) pg = true). cbn [andb].
    destruct (touches (ptr s1) (size s1) pg) eqn:Ht; [exfalso; apply Hn; by exists pg|]. by rewrite andb_false_r.
Qed.
Lemma drop_keeps s1 s2 p : ~ share_page s1 s2 -> resident s2 p -> resident s2 (drop s1 p).
Proof.
  intros Hn Hr pg Hpg. unfold drop. rewrite unlock_pages_kernel. rewrite (Hr pg Hpg : page_locked (kernel (zeroize s1 p)) pg = true). cbn [andb].
  destruct (touches (ptr s1) (size s1) pg) eqn:Ht; [exfalso; apply Hn; by exists pg|]. by rewrite andb_false_r.
Qed.
Lemma separate_delete l : separate l -> forall i, separate (delete i l).
Proof.
  induction 1 as [|s l Hs Hf Hl IH]; intros i; [constructor|]. destruct i as [|i]; cbn; [done|]. constructor; [done| |apply IH].
  apply Forall_forall. intros s' Hin. eapply Forall_forall in Hf; [exact Hf|].
  exact (elem_of_submseteq _ _ _ Hin (sublist_submseteq _ _ (sublist_delete _ _))).
Qed.
Lemma separate_lookup l : separate l -> forall i j s1 s2, l !! i = Some s1 -> l !! j = Some s2 -> i <> j -> ~ share_page s1 s2.
Proof.
  induction 1 as [|s l Hs Hf Hl IH]; intros i j s1 s2 Hi Hj Hij Hp; [done|]. destruct i as [|i], j as [|j]; cbn in Hi, Hj; simplify_eq.
  - apply share_page_sym in Hp. by eapply (Forall_lookup_1 _ _ _ _ Hf Hj).
  - by eapply (Forall_lookup_1 _ _ _ _ Hf Hi).
  - eapply (IH i j); [exact Hi|exact Hj|congruence|exact Hp].
Qed.
Lemma step_inv o live p : apart o (live, p) -> separate live -> Forall (fun s => truthful s p) live ->
  separate (step o (live, p)).1 /\ Forall (fun s => truthful s (step o (live, p)).2) (step o (live, p)).1.
Proof.
  intros Ha Hs Ht. destruct o as [v a|i v|i]; cbn [step].
  - destruct Ha as [Hv Ha]. pose proof (new_truthful v a p) as Hn. pose proof (new_keeps v a p) as Hk. pose proof (new_ptr v a p) as [_ Hz]. cbn [fst snd] in Ha.
    destruct (new v a p) as [s p']. cbn [fst snd] in *. split.
    + constructor; [|done|done]. rewrite Hz. destruct v; [done|]. rewrite len_cons. pose proof (len_nonneg v). lia.
    + constructor; [done|]. eapply Forall_impl; [exact Ht|]. intros s' Hs' Hl pg Hpg. apply Hk. by apply Hs'.
  - destruct (live !! i); [|done]. split; [done|]. eapply Forall_impl; [exact Ht|]. intros s' Hs' Hl pg Hpg. by apply Hs'.
  - destruct (live !! i) as [s|] eqn:Hi; [|done]. cbn [fst snd]. split; [by apply separate_delete|].
    apply Forall_lookup. intros j s' Hj Hl. apply drop_keeps.
    + destruct (decide (j < i)%nat).
      * rewrite list_lookup_delete_lt in Hj by done. eapply separate_lookup; [exact Hs|exact Hi|exact Hj|lia].
      * rewrite list_lookup_delete_ge in Hj by lia. eapply separate_lookup; [exact Hs|exact Hi|exact Hj|lia].
    + apply (Forall_lookup_1 _ _ (if decide (j < i)%nat then j else S j) _ Ht); [|done].
      case_decide; [by rewrite list_lookup_delete_lt in Hj|by rewrite list_lookup_delete_ge in Hj by lia].
Qed.

(** C40. When the allocator never puts two secrets on one page, what [is_locked] says stays true of every
    live secret through any sequence of creations, writes and drops. *)
Theorem locks_hold_apart ops live p :
  run_apart ops (live, p) -> separate live -> Forall (fun s => truthful s p) live ->
  separate (run ops (live, p)).1 /\ Forall (fun s => truthful s (run ops (live, p)).2) (run ops (live, p)).1.
Proof.
  revert live p. induction ops as [|o ops IH]; intros live p Ha Hs Ht; [done|]. destruct Ha as [Ho Ha].
  destruct (step_inv o live p Ho Hs Ht) as [Hs' Ht']. cbn [run foldl]. destruct (step o (live, p)) as [live' p']. by apply IH.
Qed.

(** Two secrets on one page: dropping the first unlocks the page under the second, which keeps its
    value and still says that it is locked. *)
Theorem shared_page_unlocked s1 s2 p v :
  locked s1 = true -> locked s2 = true -> 0 < size s1 -> ptr s1 <> ptr s2 -> share_page s1 s2 -> resident s2 p -> expose s2 p = Some v ->
  (munlock (ptr s1) (size s1) (kernel (zeroize s1 p))).1 = true ->
  is_locked s2 = true /\ expose s2 (drop s1 p) = Some v /\ ~ truthful s2 (drop s1 p).
Proof.
  intros Hl1 Hl2 Hs Hne Hsh Hr Hv Hu. split_and!; [done| |].
  - unfold drop, unlock_pages, expose. rewrite Hl1, (proj2 (Z.ltb_lt _ _) Hs). cbn [heap]. unfold zeroize, store. cbn [heap]. by rewrite lookup_insert_ne.
  - intros Ht. by apply (drop_resident s1 s2 p Hl1 Hs Hu Hr) in Ht.
Qed.

(** A drop wipes before it unlocks: the box holds zeros afterwards, and at no point between is the
    value in a box whose pages were unlocked by the drop. *)
Theorem drop_wipes s p : 0 <= size s ->
  expose s (drop s p) = Some (replicate (Z.to_nat (size s)) Byte.x00) /\
  expose s (zeroize s p) = Some (replicate (Z.to_nat (size s)) Byte.x00) /\
  (forall pg, page_locked (kernel (zeroize s p)) pg = page_locked (kernel p) pg) /\
  (forall a, a <> ptr s -> heap (drop s p) !! a = heap p !! a).
Proof.
  intros Hs. assert (Hh : heap (drop s p) = heap (zeroize s p)) by (unfold drop, unlock_pages; by repeat case_match).
  unfold expose. rewrite Hh. unfold zeroize, store. cbn [heap kernel]. split_and!; [apply lookup_insert_eq|apply lookup_insert_eq|done|].
  intros a Ha. by rewrite lookup_insert_ne.
Qed.
End Mlocked.

(** ** A concrete kernel for the witnesses: the set of locked pages of 4096 bytes *)
Definition range_pages (a n : Z) : gset Z := list_to_set (seqZ (a / 4096) ((a + n - 1) / 4096 - a / 4096 + 1)).
#[local] Instance toy_kernel : MemLock (gset Z) := {|
  PAGE_SIZE := 4096; mlock a n k := (true, k ∪ range_pages a n); munlock a n k := (true, k ∖ range_pages a n); page_locked k pg := bool_decide (pg ∈ k)
|}.
Lemma range_touches a n pg : bool_decide (pg ∈ range_pages a n) = touches a n pg.
Proof.
  unfold range_pages, touches. cbn [PAGE_SIZE toy_kernel]. apply Bool.eq_iff_eq_true. rewrite bool_decide_eq_true, elem_of_list_to_set, elem_of_seqZ, andb_true_iff, !Z.leb_le. lia.
Qed.
#[local] Instance toy_kernel_laws : MemLockLaws (gset Z).
Proof.
  split; cbn; try done.
  - intros a n k k' [= <-] pg. rewrite <- range_touches. repeat case_bool_decide; set_solver.
  - intros a n k k' [= <-] pg. rewrite <- range_touches. repeat case_bool_decide; set_solver.
Qed.
Definition toy_process : Process (K := gset Z) := {| kernel := ∅; heap := ∅ |}.
Definition toy_value : list byte := replicate 32 Byte.x07.
Definition toy_ops : list op := [New toy_value 0; New toy_value 8192; Drop 1; Mutate 0 (replicate 32 Byte.x08)].
Lemma locks_hold_apart_witness :
  separate (run toy_ops ([], toy_process)).1 /\ Forall (fun s => truthful s (run toy_ops ([], toy_process)).2) (run toy_ops ([], toy_process)).1.
Proof.
  apply (locks_hold_apart toy_ops [] toy_process); [|constructor|constructor].
  split; [split; [done|constructor]|]. split; [|done]. split; [done|]. constructor; [|constructor].
  intros (pg & H1 & H2). rewrite !(proj1 (new_ptr _ _ _)), !(proj2 (new_ptr _ _ _)) in H2. change (touches 0 32 pg = true) in H1. change (touches 8192 32 pg = true) in H2.
  unfold touches in H1, H2. cbn in H1, H2. zbool. Z.div_mod_to_equations. lia.
Defined.
(** The two keys of a session, allocated side by side. *)
Definition toy_first : MlockedSecret := {| ptr := 4096; size := 32; locked := true |}.
Definition toy_second : MlockedSecret := {| ptr := 4128; size := 32; locked := true |}.
Definition toy_session : Process (K := gset Z) := {| kernel := {[1]}; heap := <[4096 := toy_value]> (<[4128 := toy_value]> ∅) |}.
Lemma shared_page_unlocked_witness :
  is_locked toy_second = true /\ expose toy_second (drop toy_first toy_session) = Some toy_value /\ ~ truthful toy_second (drop toy_first toy_session).
Proof.
  apply (shared_page_unlocked toy_first toy_second toy_session toy_value); [reflexivity|reflexivity|reflexivity|discriminate| |  |reflexivity|reflexivity].
  - exists 1. split; reflexivity.
  - intros pg Hpg. unfold touches in Hpg. cbn in Hpg. zbool. assert (pg = 1) as -> by (Z.div_mod_to_equations; lia). reflexivity.
Defined.
Lemma drop_wipes_witness : expose toy_first (drop toy_first toy_session) = Some (replicate 32 Byte.x00).
Proof. apply (drop_wipes toy_first toy_session). vm_compute. discriminate. Defined.
End Mlocked.
