(* ===== verification/Shamir.v ===== *)
(** * Threshold combination of shares ([crates/umbrella-oprf/src/threshold.rs],
    [crates/umbrella-backup/src/cloud_wrap/threshold.rs])

    Both crates recover a group element [k * R] from partial evaluations
    [f(i) * R] of five servers by Lagrange interpolation at zero.  The scalar field and the
    group of the curve library are parameters: any field and any vector space over it, with
    the point encoding as a partial inverse pair.  This file uses MathComp and stands apart
    from the other components, as the two crates' modules do. *)
From mathcomp Require Import boot order algebra.
Set Implicit Arguments.
Unset Strict Implicit.
Unset Printing Implicit Defensive.
Import GRing.Theory.
Local Open Scope ring_scope.

Module Shamir.

(** The errors the two functions raise; the names of the two enums coincide but for
    [InsufficientValidEvaluations] / [InsufficientUnwrapShares]. *)
Inductive CombineError :=
| InsufficientShares (valid required : nat)
| UnknownWitnessIndex (i : nat)
| DuplicateWitnessIndex (i : nat)
| InvalidRistrettoEncoding
| WireBufferOverflow.

Inductive result (A : Type) := Ok (a : A) | Err (e : CombineError).
Arguments Ok {A} a.
Arguments Err {A} e.

Definition DEFAULT_THRESHOLD : nat := 3.
Definition DEFAULT_TOTAL : nat := 5.

Definition witness_index_new (i : nat) : result nat :=
  if (i == 0%N) || (DEFAULT_TOTAL < i)%N then Err (UnknownWitnessIndex i) else Ok i.

Record ThresholdConfig := { threshold : nat; total : nat }.

Definition config_new (t n : nat) : result ThresholdConfig :=
  if t == 0%N then Err (InsufficientShares 0 0)
  else if (n < t)%N then Err (InsufficientShares n t)
  else if (DEFAULT_TOTAL < n)%N then Err (UnknownWitnessIndex n)
  else Ok {| threshold := t; total := n |}.

Section Combine.
Variables (F : fieldType) (V : lmodType F) (enc : Type).
Variables (decompress : enc -> option V) (compress : V -> enc).

(** [Scalar::from(u64::from(i))] *)
Definition scalar (i : nat) : F := i%:R.

(** The loop over the shares with the [seen] array. *)
Fixpoint check_indices (n : nat) (seen : seq bool) (shares : seq (nat * enc)) : option CombineError :=
  match shares with
  | [::] => None
  | (i, _) :: rest =>
      if (i == 0%N) || (n < i)%N then Some (UnknownWitnessIndex i)
      else if nth false seen i then Some (DuplicateWitnessIndex i)
      else check_indices n (set_nth false seen i true) rest
  end.

(** Decompressing the selected shares into the vector of capacity 8; [full] is the error
    the crate maps a failed push to. *)
Fixpoint decode_points (full : CombineError) (points : seq (nat * V)) (selected : seq (nat * enc)) :
    result (seq (nat * V)) :=
  match selected with
  | [::] => Ok points
  | (i, e) :: rest =>
      match decompress e with
      | None => Err InvalidRistrettoEncoding
      | Some pt => if (8 <= size points)%N then Err full
                   else decode_points full (rcons points (i, pt)) rest
      end
  end.

Definition lagrange_step (i : nat) (nd : F * F) (p : nat * V) : F * F :=
  if p.1 == i then nd else (nd.1 * scalar p.1, nd.2 * (scalar p.1 - scalar i)).

Definition lagrange_at_zero (i : nat) (points : seq (nat * V)) : F :=
  let nd := foldl (lagrange_step i) (1, 1) points in nd.1 * nd.2^-1.

(** The accumulation [acc += pt_i * lambda_i]. *)
Definition interpolate (points : seq (nat * V)) : V :=
  foldl (fun acc p => acc + lagrange_at_zero p.1 points *: p.2) 0 points.

(** The body the two crates share. *)
Definition combine_with (full : CombineError) (shares : seq (nat * enc)) (c : ThresholdConfig) : result V :=
  if [|| threshold c == 0%N, total c < threshold c | DEFAULT_TOTAL < total c]%N
  then Err (InsufficientShares 0 (threshold c))
  else match check_indices (total c) (nseq DEFAULT_TOTAL.+1 false) shares with
  | Some e => Err e
  | None =>
      if (size shares < threshold c)%N then Err (InsufficientShares (size shares) (threshold c))
      else match decode_points full [::] (take (threshold c) shares) with
           | Err e => Err e
           | Ok points => Ok (interpolate points)
           end
  end.

(** [cloud_wrap::threshold::threshold_combine]: the shared point. *)
Definition combine_point (shares : seq (nat * enc)) (c : ThresholdConfig) : result V :=
  combine_with WireBufferOverflow shares c.

(** [umbrella_oprf::threshold::threshold_combine]: the compressed evaluation. *)
Definition threshold_combine (shares : seq (nat * enc)) (c : ThresholdConfig) : result enc :=
  match combine_with (InsufficientShares 0 (threshold c)) shares c with
  | Ok v => Ok (compress v)
  | Err e => Err e
  end.

(** [shamir_split_for_testing]; the argument is the vector of coefficients, the secret first,
    then the random scalars. *)
Definition eval_step (sx : F) (acc : F * F) (coeff : F) : F * F :=
  (acc.1 + coeff * acc.2, acc.2 * sx).
Definition share_of (coeffs : seq F) (x : nat) : F := (foldl (eval_step (scalar x)) (0, 1) coeffs).1.
Definition shamir_split (coeffs : seq F) (n : nat) : seq (nat * F) :=
  [seq (x, share_of coeffs x) | x <- iota 1 n].

(** ** Arithmetic of the loops *)

Lemma foldl_sum (T : Type) (f : T -> V) acc l :
  foldl (fun a x => a + f x) acc l = acc + \sum_(x <- l) f x.
Proof.
elim: l acc => [|x l IH] acc /=; first by rewrite big_nil addr0.
by rewrite IH big_cons addrA.
Qed.

Lemma foldl_lagrange i pts n d :
  foldl (lagrange_step i) (n, d) pts =
    (n * \prod_(p <- pts | p.1 != i) scalar p.1, d * \prod_(p <- pts | p.1 != i) (scalar p.1 - scalar i)).
Proof.
elim: pts n d => [|p pts IH] n d /=; first by rewrite !big_nil !mulr1.
rewrite {2}/lagrange_step; rewrite !big_cons. case: (p.1 == i) => /=; rewrite IH //.
by rewrite !mulrA.
Qed.

Lemma foldl_horner sx fx xp coeffs :
  foldl (eval_step sx) (fx, xp) coeffs =
    (fx + xp * (Poly coeffs).[sx], xp * sx ^+ size coeffs).
Proof.
elim: coeffs fx xp => [|a l IH] fx xp /=; first by rewrite horner0 mulr0 addr0 expr0 mulr1.
rewrite IH /= horner_cons exprS !mulrA mulrDr mulrA [a * xp]mulrC -addrA.
by congr (_ + _, _); rewrite addrC mulrAC.
Qed.

Lemma share_ofE coeffs x : share_of coeffs x = (Poly coeffs).[scalar x].
Proof. by rewrite /share_of foldl_horner /= add0r mul1r. Qed.

(** ** Lagrange interpolation *)

(** The coefficient of [i] relative to a list of indices. *)
Definition lagw (l : seq nat) (i : nat) : F :=
  \prod_(j <- l | j != i) (scalar j / (scalar j - scalar i)).

Lemma lagrange_at_zeroE i (pts : seq (nat * V)) : lagrange_at_zero i pts = lagw (map fst pts) i.
Proof. by rewrite /lagrange_at_zero foldl_lagrange /= !mul1r /lagw big_map prodf_div. Qed.

Lemma interpolateE pts :
  interpolate pts = \sum_(p <- pts) lagw (map fst pts) p.1 *: p.2.
Proof.
rewrite /interpolate (foldl_sum (fun p => lagrange_at_zero p.1 pts *: p.2)) add0r.
by apply: eq_bigr => p _; rewrite lagrange_at_zeroE.
Qed.

(** The basis polynomial that is one at [i] and zero at the other indices. *)
Definition basis (l : seq nat) (i : nat) : {poly F} :=
  \prod_(j <- l | j != i) ((scalar j - scalar i)^-1 *: ((scalar j)%:P - 'X)).

Lemma basis_at l i x :
  (basis l i).[x] = \prod_(j <- l | j != i) ((scalar j - scalar i)^-1 * (scalar j - x)).
Proof.
by rewrite /basis horner_prod; apply: eq_bigr => j _; rewrite hornerZ hornerD hornerN hornerC hornerX.
Qed.

Definition factor (i j : nat) : {poly F} := (scalar j - scalar i)^-1 *: ((scalar j)%:P - 'X).

Lemma size_factors i (P : pred nat) m :
  leq (size (\prod_(j <- m | P j) factor i j)) (count P m).+1.
Proof.
elim: m => [|j m IH]; first by rewrite big_nil size_poly1.
rewrite big_cons /=; case: (P j) => //=.
apply: leq_trans (size_polyMleq _ _) _; have sf : leq (size (factor i j)) 2.
  by apply: leq_trans (size_scale_leq _ _) _; rewrite -opprB size_polyN size_XsubC.
by rewrite -subn1 leq_subLR; apply: leq_trans (leq_add sf IH) _; rewrite add2n.
Qed.

Lemma size_basis l i : uniq l -> i \in l -> (size (basis l i) <= size l)%N.
Proof.
move=> ul il; apply: leq_trans (size_factors i _ l) _.
have := count_predC (pred1 i) l; rewrite count_uniq_mem // il /= => <-.
by rewrite add1n ltnS; apply: sub_count.
Qed.

Section Interpolation.
Variables (l : seq nat).
Hypothesis ul : uniq l.
Hypothesis inj : {in l &, injective scalar}.

Lemma basis_nodes i k : i \in l -> k \in l -> (basis l i).[scalar k] = (i == k)%:R.
Proof.
move=> il kl; rewrite basis_at; case: eqP => [<-|/eqP ne].
  rewrite big_seq_cond big1 // => j /andP[jl ne]; rewrite mulVf // subr_eq0.
  by apply: contra ne => /eqP /(inj jl il) ->.
apply/eqP; rewrite prodf_seq_eq0; apply/hasP; exists k => //.
by rewrite eq_sym ne subrr mulr0 eqxx.
Qed.

(** A polynomial of degree below the number of nodes is determined by its values there. *)
Lemma lagrange_zero (p : {poly F}) :
  (size p <= size l)%N -> \sum_(i <- l) lagw l i * p.[scalar i] = p.[0].
Proof.
move=> sp; pose q : {poly F} := \sum_(i <- l) p.[scalar i] *: basis l i.
have pq : p = q.
  apply/eqP; rewrite -subr_eq0; apply/eqP.
  apply: (@roots_geq_poly_eq0 _ _ (map scalar l)); last 2 first.
  - by rewrite map_inj_in_uniq.
  - rewrite size_map; apply: leq_trans (size_polyD _ _) _; rewrite geq_max sp size_polyN.
    rewrite /q big_seq; apply: (big_ind (fun r : {poly F} => size r <= size l)%N).
    + by rewrite size_poly0.
    + by move=> x y sx sy; apply: leq_trans (size_polyD _ _) _; rewrite geq_max sx.
    + by move=> i il; apply: leq_trans (size_scale_leq _ _) _; apply: size_basis.
  apply/allP => _ /mapP[k kl ->]; rewrite /root hornerD hornerN horner_sum.
  rewrite (bigD1_seq k) //= hornerZ basis_nodes // eqxx mulr1 big_seq_cond big1 ?addr0 ?subrr //.
  by move=> i /andP[il ne]; rewrite hornerZ basis_nodes // (negPf ne) mulr0.
rewrite {2}pq horner_sum; apply: eq_bigr => i _; rewrite hornerZ basis_at mulrC.
by congr (_ * _); apply: eq_bigr => j _; rewrite subr0 mulrC.
Qed.

End Interpolation.

(** ** The checks *)

Definition indices_ok (n : nat) (idx : seq nat) : bool :=
  all (fun i => 0 < i <= n)%N idx && uniq idx.

Definition config_ok (c : ThresholdConfig) : bool :=
  [&& 0 < threshold c, threshold c <= total c & total c <= DEFAULT_TOTAL]%N.

Lemma check_indicesP n seen shares :
  check_indices n seen shares = None <->
    indices_ok n (map fst shares) && ~~ has (nth false seen) (map fst shares).
Proof.
rewrite /indices_ok; elim: shares seen => [|[i e] shares IH] seen //=.
have -> : (i == 0) || (n < i)%N = ~~ (0 < i <= n)%N by rewrite negb_and -eqn0Ngt -ltnNge.
case: (0 < i <= n)%N => //=; case: (boolP (nth false seen i)) => sn /=.
  by rewrite andbF.
apply: iff_trans (IH _) _ => /=; set m := map fst shares.
have -> : has (nth false (set_nth false seen i true)) m = (i \in m) || has (nth false seen) m.
  rewrite -has_pred1 -has_predU; apply: eq_has => j /=; rewrite nth_set_nth /=.
  by case: (j == i).
by rewrite negb_or; case: (all _ m); case: (uniq m); case: (i \in m).
Qed.

Lemma config_guard c :
  [|| threshold c == 0, total c < threshold c | DEFAULT_TOTAL < total c]%N = ~~ config_ok c.
Proof. by rewrite /config_ok !negb_and -eqn0Ngt -!ltnNge. Qed.

(** The decoded list, element by element. *)
Definition decodes (pts : seq (nat * V)) (sel : seq (nat * enc)) : Prop :=
  [seq (s.1, decompress s.2) | s <- sel] = [seq (p.1, Some p.2) | p <- pts].

Lemma decode_pointsP full acc sel out :
  (size acc + size sel <= 8)%N ->
  decode_points full acc sel = Ok out <-> exists2 pts, out = acc ++ pts & decodes pts sel.
Proof.
rewrite /decodes; elim: sel acc => [|[i e] sel IH] acc /= sz.
  split=> [[<-]|[[|//] -> _]]; last by rewrite cats0.
  by exists [::]; rewrite ?cats0.
case: (decompress e) => [pt|]; last by split=> // -[[|p pts] _] //= [].
have sa : (size acc < 8)%N by apply: leq_trans sz; rewrite addnS ltnS leq_addr.
rewrite leqNgt sa /=.
apply: iff_trans (IH _ _) _; first by rewrite size_rcons addSnnS.
split=> [[pts -> dp]|[[|[j v] pts] //= -> [<- <- dp]]].
  by exists ((i, pt) :: pts); rewrite ?cat_rcons //= dp.
by exists pts; rewrite ?cat_rcons.
Qed.

Lemma decode_points_err full acc sel e :
  (size acc + size sel <= 8)%N -> decode_points full acc sel = Err e -> e = InvalidRistrettoEncoding.
Proof.
elim: sel acc => [|[i b] sel IH] acc //= sz; case: (decompress b) => [pt|[] //].
have sa : (size acc < 8)%N by apply: leq_trans sz; rewrite addnS ltnS leq_addr.
by rewrite leqNgt sa /=; apply: IH; rewrite size_rcons addSnnS.
Qed.

Lemma selected_fit c shares : config_ok c -> (size (take (threshold c) shares : seq (nat * enc)) <= 8)%N.
Proof.
move=> /and3P[_ tn n5]; rewrite size_take_min; apply: leq_trans (geq_minl _ _) _.
by apply: leq_trans tn (leq_trans n5 _).
Qed.

Lemma check_indices_err n seen shares e :
  check_indices n seen shares = Some e ->
  exists2 i, i \in map fst shares & e = UnknownWitnessIndex i \/ e = DuplicateWitnessIndex i.
Proof.
elim: shares seen => [|[i b] shares IH] seen //=.
case: ifP => _; first by case=> <-; exists i; [rewrite inE eqxx|left].
case: ifP => _; first by case=> <-; exists i; [rewrite inE eqxx|right].
by move=> /IH[j jm ej]; exists j; rewrite ?inE ?jm ?orbT.
Qed.

(** What both crates' functions compute. *)
Lemma combine_withP full shares c v :
  combine_with full shares c = Ok v <->
    [/\ config_ok c, indices_ok (total c) (map fst shares), (threshold c <= size shares)%N &
      exists2 pts, decodes pts (take (threshold c) shares) &
        v = \sum_(p <- pts) lagw (map fst pts) p.1 *: p.2].
Proof.
rewrite /combine_with config_guard; case: (boolP (config_ok c)) => //= ok; last by split=> // -[].
have t8 := selected_fit shares ok.
have [ci _] := check_indicesP (total c) (nseq DEFAULT_TOTAL.+1 false) shares.
have [_ ic] := check_indicesP (total c) (nseq DEFAULT_TOTAL.+1 false) shares.
have unseen : ~~ has (nth false (nseq DEFAULT_TOTAL.+1 false)) (map fst shares).
  by apply/hasPn => i _; rewrite nth_nseq if_same.
case E: (check_indices _ _ _) => [err|].
  by split=> // -[_ io _ _]; move: E; rewrite ic // io.
have io : indices_ok (total c) (map fst shares) by case/andP: (ci E).
rewrite ltnNge; case: leqP => ts /=; last by split=> // -[].
case D: (decode_points full [::] _) => [pts|err].
  have [pts0 /= e0 dp] := proj1 (@decode_pointsP full [::] (take (threshold c) shares) pts t8) D.
  rewrite -{pts0}e0 in dp; split=> [[<-]|[_ _ _ [pts' dp' ->]]].
    by split=> //; exists pts => //; rewrite interpolateE.
  suff -> : pts' = pts by rewrite interpolateE.
  by apply: (inj_map _ (etrans (esym dp') dp)) => -[a b] [a' b'] [-> ->].
split=> // -[_ _ _ [pts dp _]].
have [_ /(_ _)] := @decode_pointsP full [::] (take (threshold c) shares) pts t8.
by rewrite D => H; have := H (ex_intro2 _ _ pts erefl dp).
Qed.

Lemma take_indices n t idx : indices_ok n idx -> indices_ok n (take t idx).
Proof.
case/andP=> a u; rewrite /indices_ok take_uniq // andbT; apply/allP => i /mem_take.
exact: (allP a).
Qed.

Lemma nth_split coeffs n i :
  (0 < i <= n)%N -> nth (0%N, 0) (shamir_split coeffs n) i.-1 = (i, share_of coeffs i).
Proof.
case: i => [//|i] /andP[_ lin] /=.
by rewrite (nth_map 0%N) ?size_iota // nth_iota.
Qed.

(** Interpolating evaluations of a polynomial of at most as many coefficients gives its value
    at zero. *)
Lemma interpolate_evaluations coeffs idx (R : V) :
  (size coeffs <= size idx)%N -> uniq idx -> {in idx &, injective scalar} ->
  interpolate [seq (i, (Poly coeffs).[scalar i] *: R) | i <- idx] = nth 0 coeffs 0 *: R.
Proof.
move=> sc ui inj; rewrite interpolateE -map_comp map_id_in // big_map /=.
under eq_bigr do rewrite scalerA.
rewrite -scaler_suml lagrange_zero //; last by rewrite horner_coef0 coef_Poly.
exact: leq_trans (size_Poly _) sc.
Qed.

(** Evaluations of a polynomial of fewer coefficients than the threshold combine to its value
    at zero. *)
Lemma combine_evaluations full c coeffs idx (R : V) :
  config_ok c ->
  (size coeffs <= threshold c)%N ->
  indices_ok (total c) idx ->
  (threshold c <= size idx)%N ->
  (forall i j, (i <= DEFAULT_TOTAL)%N -> (j <= DEFAULT_TOTAL)%N -> scalar i = scalar j -> i = j) ->
  (forall v, decompress (compress v) = Some v) ->
  combine_with full [seq (i, compress ((Poly coeffs).[scalar i] *: R)) | i <- idx] c
    = Ok (nth 0 coeffs 0 *: R).
Proof.
move=> ok sc io ti inj dc; apply/combine_withP.
rewrite size_map -map_comp map_id_in //; split=> //.
exists [seq (i, (Poly coeffs).[scalar i] *: R) | i <- take (threshold c) idx].
  by rewrite /decodes -map_take -!map_comp; apply: eq_map => i /=; rewrite dc.
have /andP[/allP ra ul] := take_indices (threshold c) io.
rewrite -interpolateE interpolate_evaluations //; first by rewrite size_takel.
move=> i j /ra /andP[_ ri] /ra /andP[_ rj]; have /and3P[_ _ n5] := ok.
by apply: inj; [apply: leq_trans ri n5|apply: leq_trans rj n5].
Qed.

(** The backup combination succeeds exactly when the configuration is valid, the indices
    of all shares are in range and distinct, at least [threshold] shares arrived and the first
    [threshold] of them decode; the result is then their Lagrange combination.  The
    buffer-overflow error of the fixed-capacity vector is unreachable. *)
Theorem combine_point_accepts shares c :
  (forall v, combine_point shares c = Ok v <->
    [/\ config_ok c, indices_ok (total c) (map fst shares), (threshold c <= size shares)%N &
      exists2 pts, decodes pts (take (threshold c) shares) &
        v = \sum_(p <- pts) lagw (map fst pts) p.1 *: p.2])
  /\ combine_point shares c <> Err WireBufferOverflow.
Proof.
split=> [v|]; first exact: combine_withP.
rewrite /combine_point /combine_with config_guard; case: (boolP (config_ok c)) => //= ok.
case E: (check_indices _ _ _) => [e|]; first by case: (check_indices_err E) => i _ [] ->.
case: ifP => // _; case D: (decode_points _ _ _) => // -[e].
by move: e; rewrite (decode_points_err (acc := [::]) (selected_fit shares ok) D).
Qed.

(** C27. Splitting a secret and combining any [threshold] or more of the shares' evaluations on
    a point, in any order of arrival, recovers the secret's evaluation on that point: with a
    polynomial of at most [threshold] coefficients, distinct indices between 1 and [total], a
    scalar field in which the indices up to [DEFAULT_TOTAL] differ, and an encoding that
    decompresses what it compressed, both crates' functions return [coeffs[0] * R]. *)
Theorem split_combine c (coeffs : seq F) (idx : seq nat) (R : V) :
  config_ok c ->
  (size coeffs <= threshold c)%N ->
  indices_ok (total c) idx ->
  (threshold c <= size idx)%N ->
  (forall i j, (i <= DEFAULT_TOTAL)%N -> (j <= DEFAULT_TOTAL)%N -> scalar i = scalar j -> i = j) ->
  (forall v, decompress (compress v) = Some v) ->
  let server i := nth (0, 0) (shamir_split coeffs (total c)) i.-1 in
  let shares := [seq ((server i).1, compress ((server i).2 *: R)) | i <- idx] in
  combine_point shares c = Ok (nth 0 coeffs 0 *: R)
  /\ threshold_combine shares c = Ok (compress (nth 0 coeffs 0 *: R)).
Proof.
move=> ok sc io ti inj dc server shares.
have -> : shares = [seq (i, compress ((Poly coeffs).[scalar i] *: R)) | i <- idx].
  case/andP: io => /allP a _; apply/eq_in_map => i /a ri.
  by rewrite /server nth_split // share_ofE.
suff c1 full : combine_with full [seq (i, compress ((Poly coeffs).[scalar i] *: R)) | i <- idx] c
    = Ok (nth 0 coeffs 0 *: R) by rewrite /combine_point /threshold_combine !c1.
exact: combine_evaluations.
Qed.

End Combine.

Lemma config_newP t n c : config_new t n = Ok c <-> c = {| threshold := t; total := n |} /\ config_ok c.
Proof.
rewrite /config_new /config_ok; case: eqP => [->|/eqP t0]; first by split=> // -[->].
case: ltnP => tn; first by split=> // -[-> /=]; rewrite [(t <= n)%N]leqNgt tn andbF.
case: ltnP => n5; first by split=> // -[-> /=]; rewrite [(n <= _)%N]leqNgt n5 !andbF.
by split=> [[<-]|[-> _] //] /=; rewrite lt0n t0 tn n5.
Qed.

Lemma witness_index_newP i : witness_index_new i = Ok i <-> (0 < i <= DEFAULT_TOTAL)%N.
Proof.
rewrite /witness_index_new; case: i => [|i] //=; rewrite ltnNge.
by case: (i < DEFAULT_TOTAL)%N.
Qed.

(** A 3-of-5 sharing over the rationals, four shares arriving out of order. *)
Lemma split_combine_witness :
  let server i := nth (0%N, 0 : rat) (shamir_split [:: 7; 1; 4%:R] 5) i.-1 in
  let shares := [seq ((server i).1, (server i).2 *: (2%:R : rat^o)) | i <- [:: 4; 1; 5; 2]%N] in
  combine_point (V := rat^o) Some shares {| threshold := 3; total := 5 |} = Ok (7 *: 2%:R).
Proof.
have [] // := @split_combine rat (rat^o) (rat^o) Some id {| threshold := 3; total := 5 |}
  [:: 7; 1; 4%:R] [:: 4; 1; 5; 2]%N 2%:R.
by move=> i j _ _ /eqP; rewrite /scalar Num.Theory.eqr_nat => /eqP.
Defined.

End Shamir.
