(* ===== verification/CloudUnwrap.v ===== *)
(** * Wrapping and unwrapping message keys ([crates/umbrella-backup/src/cloud_wrap/aead.rs],
    [wrap.rs], [unwrap.rs])

    A message key is sealed under the point [r * Y] of the servers' public key [Y]; a device
    collects shares of that point, tries the subsets of [threshold] shares one after the other
    and opens the blob with the first that fits.  As in [Shamir], the curve is a vector space
    over a field with a point encoding; HKDF and ChaCha20-Poly1305 are functions.  Byte strings
    are sequences of the bytes of the standard library. *)
From Stdlib Require Import Strings.Byte Strings.String.
From HB Require Import structures.
From mathcomp Require Import boot order algebra.
From S2P Require Import Shamir.
Set Implicit Arguments.
Unset Strict Implicit.
Unset Printing Implicit Defensive.
Import GRing.Theory.
Local Open Scope ring_scope.

Module CloudUnwrap.
Import Shamir.

Lemma byte_eqP : Equality.axiom Byte.eqb.
Proof. by move=> x y; apply: (iffP idP); [apply: Byte.byte_dec_bl|apply: Byte.byte_dec_lb]. Qed.
HB.instance Definition _ := hasDecEq.Build Byte.byte byte_eqP.

Abbreviation bytes := (seq Byte.byte).
Definition literal (s : string) : bytes := list_byte_of_string s.

(** [n.to_be_bytes()] of a [u64]. *)
Definition byte_of (n : nat) : Byte.byte :=
  if Byte.of_nat (n %% 256) is Some b then b else Byte.x00.
Definition be64 (n : nat) : bytes := [seq byte_of (n %/ 256 ^ (7 - i)) | i <- iota 0 8].

Definition PROTOCOL_VERSION : nat := 1.
Definition MESSAGE_KEY_LEN : nat := 32.
Definition NONCE_LEN : nat := 12.
Definition HKDF_IKM_SUFFIX : bytes := literal "umbrellax-cloud-wrap-v1".
Definition HKDF_INFO_PREFIX : bytes := literal "umbrellax-cloud-wrap-v1".
Definition NONCE_DERIVATION_SALT : bytes := literal "umbrellax-cloud-wrap-nonce-v1".
Definition MAX_RETRY_SUBSETS : nat := 10.

Inductive UnwrapError :=
| Combine (e : CombineError)                   (* the errors shared with the combination *)
| VersionMismatch (expected found : nat)
| AeadDecryptFailed
| AllSubsetsFailedUnwrap.

Inductive outcome (A : Type) := Done (a : A) | Fail (e : UnwrapError).
Arguments Done {A} a.
Arguments Fail {A} e.

Record CanonicalAad := {
  sender_identity_pubkey : bytes;
  recipient_device_pubkey : bytes;
  chat_id : bytes;
  msg_seq : nat
}.
Definition canonical_bytes (a : CanonicalAad) : bytes :=
  sender_identity_pubkey a ++ recipient_device_pubkey a ++ chat_id a ++ be64 (msg_seq a).

Record WrappingParams := { params_version : nat; main_pubkey : bytes; config : ThresholdConfig }.
Record WrappedKey := { wk_version : nat; ephemeral_r : bytes; aead_blob : bytes }.

(** ** Subsets of the share list ([subset_combinations]) *)

(** [cur[i] += 1; for j in i+1..t { cur[j] = cur[j-1] + 1 }]. *)
Definition bump (t i : nat) (cur : seq nat) : seq nat :=
  foldl (fun c j => set_nth 0 c j (nth 0 c j.-1).+1) (set_nth 0 cur i (nth 0 cur i).+1)%N
    (iota i.+1 (t - i.+1)).

(** The inner loop: from the right, the first position that can still grow. *)
Fixpoint advance (n t : nat) (cur : seq nat) (i : nat) : option (seq nat) :=
  match i with
  | 0 => None
  | i'.+1 =>
      let max_val := (n - (t - i'))%N in
      if (nth 0%N cur i' < max_val)%N then Some (bump t i' cur)
      else if i' == 0%N then None else advance n t cur i'
  end.

(** The outer loop runs while fewer than [MAX_RETRY_SUBSETS] subsets are listed; [room] is what
    is left. *)
Fixpoint list_subsets (room n t : nat) (cur : seq nat) (result : seq (seq nat)) : seq (seq nat) :=
  match room with
  | 0 => result
  | room'.+1 =>
      match advance n t cur t with
      | None => result
      | Some cur' =>
          let result' := rcons result cur' in
          if (n - t < nth 0 cur' 0)%N then result' else list_subsets room' n t cur' result'
      end
  end.

Definition subset_combinations (n t : nat) : seq (seq nat) :=
  let cur := iota 0 t in
  if (n < t)%N || (t == 0%N) then [::]
  else list_subsets (MAX_RETRY_SUBSETS - 1) n t cur [:: cur].

Section Unwrap.
Variables (F : fieldType) (V : lmodType F).
Variables (decompress : bytes -> option V) (compress : V -> bytes).
Variable basepoint : V.
(** [Hkdf::<Sha512>::new(Some(salt), ikm).expand(info, n)]. *)
Variable hkdf : bytes -> bytes -> bytes -> nat -> bytes.
(** [ChaCha20Poly1305]: key, nonce, message or ciphertext, associated data. *)
Variable encrypt : bytes -> bytes -> bytes -> bytes -> bytes.
Variable decrypt : bytes -> bytes -> bytes -> bytes -> option bytes.

Definition canonical_nonce (chat : bytes) (seq : nat) : bytes :=
  hkdf NONCE_DERIVATION_SALT chat (be64 seq) NONCE_LEN.

Definition decompress_point (b : bytes) : outcome V :=
  if decompress b is Some p then Done p else Fail (Combine InvalidRistrettoEncoding).

Definition derive_aead_key (shared_point_compressed chat recipient : bytes) : bytes :=
  let ikm := shared_point_compressed ++ HKDF_IKM_SUFFIX in
  let info := HKDF_INFO_PREFIX ++ [:: byte_of PROTOCOL_VERSION] ++ recipient in
  hkdf chat ikm info MESSAGE_KEY_LEN.

Definition aead_open (shared_point : V) (aad : CanonicalAad) (nonce blob : bytes) : outcome bytes :=
  let key := derive_aead_key (compress shared_point) (chat_id aad) (recipient_device_pubkey aad) in
  match decrypt key nonce blob (canonical_bytes aad) with
  | None => Fail AeadDecryptFailed
  | Some result => if size result != MESSAGE_KEY_LEN then Fail AeadDecryptFailed else Done result
  end.

Definition aead_seal (shared_point : V) (aad : CanonicalAad) (nonce message_key : bytes) : bytes :=
  let key := derive_aead_key (compress shared_point) (chat_id aad) (recipient_device_pubkey aad) in
  encrypt key nonce message_key (canonical_bytes aad).

(** [r_scalar] is the scalar drawn from the generator. *)
Definition wrap_message_key (params : WrappingParams) (message_key : bytes) (aad : CanonicalAad) (r_scalar : F)
  : outcome WrappedKey :=
  if params_version params != PROTOCOL_VERSION
  then Fail (VersionMismatch PROTOCOL_VERSION (params_version params))
  else match decompress_point (main_pubkey params) with
  | Fail e => Fail e
  | Done y =>
      let ephemeral_r_point := r_scalar *: basepoint in
      let shared_point := r_scalar *: y in
      let nonce := canonical_nonce (chat_id aad) (msg_seq aad) in
      Done {| wk_version := PROTOCOL_VERSION; ephemeral_r := compress ephemeral_r_point;
              aead_blob := aead_seal shared_point aad nonce message_key |}
  end.

(** Shares that decode, up to the capacity of the vector; the loop stops when it is full. *)
Fixpoint collect_valid (valid : seq (nat * V)) (shares : seq (nat * bytes)) : seq (nat * V) :=
  match shares with
  | [::] => valid
  | (i, e) :: rest =>
      match decompress e with
      | Some pt => if (8 <= size valid)%N then valid else collect_valid (rcons valid (i, pt)) rest
      | None => collect_valid valid rest
      end
  end.

(** The retry loop; only a failed decryption moves on to the next subset. *)
Fixpoint try_subsets (valid : seq (nat * V)) (aad : CanonicalAad) (nonce blob : bytes)
    (combos : seq (seq nat)) : outcome bytes :=
  match combos with
  | [::] => Fail AllSubsetsFailedUnwrap
  | combo :: rest =>
      let subset := [seq nth (0%N, 0) valid idx | idx <- combo] in
      match aead_open (interpolate subset) aad nonce blob with
      | Done mk => Done mk
      | Fail AeadDecryptFailed => try_subsets valid aad nonce blob rest
      | Fail other => Fail other
      end
  end.

Definition unwrap_message_key (params : WrappingParams) (wrapped : WrappedKey) (aad : CanonicalAad)
    (shares : seq (nat * bytes)) : outcome bytes :=
  let t := threshold (config params) in
  if (size shares < t)%N then Fail (Combine (InsufficientShares (size shares) t))
  else match check_indices (total (config params)) (nseq 6 false) shares with
  | Some e => Fail (Combine e)
  | None =>
      match decompress_point (ephemeral_r wrapped) with
      | Fail e => Fail e
      | Done _ =>
          let valid := collect_valid [::] shares in
          if (size valid < t)%N then Fail (Combine (InsufficientShares (size valid) t))
          else
            let nonce := canonical_nonce (chat_id aad) (msg_seq aad) in
            try_subsets valid aad nonce (aead_blob wrapped)
              (take MAX_RETRY_SUBSETS (subset_combinations (size valid) t))
      end
  end.

Definition unwrap_message_key_no_retry (params : WrappingParams) (wrapped : WrappedKey) (aad : CanonicalAad)
    (shares : seq (nat * bytes)) : outcome bytes :=
  match decompress_point (ephemeral_r wrapped) with
  | Fail e => Fail e
  | Done _ =>
      match combine_point decompress shares (config params) with
      | Err e => Fail (Combine e)
      | Ok shared_point =>
          aead_open shared_point aad (canonical_nonce (chat_id aad) (msg_seq aad)) (aead_blob wrapped)
      end
  end.
End Unwrap.

(** ** The subsets are all the subsets *)

(** Reference: the subsequences of [l] of size [t], in lexicographic order of positions. *)
Fixpoint choose (l : seq nat) (t : nat) : seq (seq nat) :=
  match t, l with
  | 0, _ => [:: [::]]
  | _.+1, [::] => [::]
  | t'.+1, x :: l' => map (cons x) (choose l' t') ++ choose l' t
  end.

Lemma mem_choose l t s : (s \in choose l t) = subseq s l && (size s == t).
Proof.
elim: l t s => [|x l IH] [|t] s.
- by rewrite /= inE; case: s.
- by case: s.
- by rewrite /= inE andbC; case: s => [|y s]; rewrite ?sub0seq.
rewrite [choose _ _]/= mem_cat IH; case: s => [|y s].
  by rewrite !andbF orbF; apply/negP => /mapP[].
have -> : (y :: s \in [seq x :: i | i <- choose l t]) = (y == x) && (s \in choose l t).
  apply/mapP/andP => [[u ui [-> ->]]|[/eqP -> si]]; [by rewrite eqxx|by exists s].
rewrite IH /= eqSS; case: (y =P x) => [->|_] //=; case: (size s == t); rewrite ?andbF ?andbT ?eqxx //=.
apply/orP/idP => [[//|xs]|->]; last by left.
exact: subseq_trans (subseq_cons s x) xs.
Qed.

(** A decidable statement on two numbers below a bound, by evaluation. *)
Lemma below2 (m : nat) (P : nat -> nat -> bool) :
  all (fun n => all (P n) (iota 0 m.+1)) (iota 0 m.+1) -> forall n t, (n <= m)%N -> (t <= n)%N -> P n t.
Proof.
move=> /allP a n t nm tn.
have nI : n \in iota 0 m.+1 by rewrite mem_iota add0n ltnS nm.
have tI : t \in iota 0 m.+1 by rewrite mem_iota add0n ltnS (leq_trans tn nm).
exact: (allP (a n nI) t tI).
Qed.

(** The loops of [subset_combinations] list exactly the first ten subsets of the reference, for
    every number of shares the vector can hold. *)
Lemma subset_combinationsE n t :
  (n <= 8)%N -> (0 < t <= n)%N ->
  subset_combinations n t = take MAX_RETRY_SUBSETS (choose (iota 0 n) t).
Proof.
move=> n8 /andP[t0 tn]; apply/eqP; rewrite lt0n in t0.
have := @below2 8 (fun n t => (t == 0%N) ||
  (subset_combinations n t == take MAX_RETRY_SUBSETS (choose (iota 0 n) t))) isT n t n8 tn.
by rewrite (negPf t0).
Qed.

(** With at most five shares no subset is cut off and none is listed twice. *)
Lemma subsets_small n t :
  (n <= 5)%N -> (0 < t <= n)%N ->
  subset_combinations n t = choose (iota 0 n) t /\ uniq (subset_combinations n t).
Proof.
move=> n5 /andP[t0 tn]; rewrite lt0n in t0.
have := @below2 5 (fun n t => (t == 0%N) ||
  (subset_combinations n t == choose (iota 0 n) t) && uniq (subset_combinations n t)) isT n t n5 tn.
by rewrite (negPf t0) => /andP[/eqP].
Qed.

(** At most ten subsets of up to five positions. *)
Lemma choose_small n t : (n <= 5)%N -> (size (choose (iota 0 n) t) <= MAX_RETRY_SUBSETS)%N.
Proof.
case: (leqP t n) => [tn n5|nt _].
  exact: (@below2 5 (fun n t => size (choose (iota 0 n) t) <= MAX_RETRY_SUBSETS)%N isT).
have e : choose (iota 0 n) t = [::].
  case E: (choose _ _) => [|c l] //; have : c \in choose (iota 0 n) t by rewrite E inE eqxx.
  rewrite mem_choose => /andP[/size_subseq]; rewrite size_iota => sn /eqP st.
  by rewrite st leqNgt nt in sn.
by rewrite e.
Qed.

(** The retry order is complete: for every number of shares the unwrap vector can hold, the
    two nested loops terminate with exactly the first ten subsets of [t] positions in
    lexicographic order, each once; for up to five shares, the number of servers, these are all
    the increasing position lists of length [t] and nothing else. *)
Theorem subsets_complete (n t : nat) :
  ((n <= 8)%N -> (0 < t <= n)%N ->
     subset_combinations n t = take MAX_RETRY_SUBSETS (choose (iota 0 n) t)) /\
  ((n <= 5)%N -> (0 < t)%N ->
     uniq (subset_combinations n t) /\
     forall s, (s \in subset_combinations n t) = subseq s (iota 0 n) && (size s == t)).
Proof.
split=> [n8 tn|n5 t0]; first exact: subset_combinationsE.
case: (leqP t n) => tn.
  have [e u] := subsets_small n5 (introT andP (conj t0 tn)); split=> // s.
  by rewrite e mem_choose.
rewrite /subset_combinations tn; split=> // s; apply/esym/negP => /andP[/size_subseq].
by rewrite size_iota => sn /eqP st; rewrite st leqNgt tn in sn.
Qed.

(** ** Recovery *)
Section Recovery.
Variables (F : fieldType) (V : lmodType F).
Variables (decompress : bytes -> option V) (compress : V -> bytes) (basepoint : V).
Variable hkdf : bytes -> bytes -> bytes -> nat -> bytes.
Variable encrypt : bytes -> bytes -> bytes -> bytes -> bytes.
Variable decrypt : bytes -> bytes -> bytes -> bytes -> option bytes.

Local Abbreviation open := (aead_open compress hkdf decrypt).
Local Abbreviation unwrap := (unwrap_message_key decompress compress hkdf decrypt).
Local Abbreviation wrap := (wrap_message_key decompress compress basepoint hkdf encrypt).

Definition decode_share (s : nat * bytes) : option (nat * V) := omap (pair s.1) (decompress s.2).

Lemma collect_validE acc shares :
  (size acc + size shares <= 8)%N -> collect_valid decompress acc shares = acc ++ pmap decode_share shares.
Proof.
elim: shares acc => [|[i e] shares IH] acc /= sz; first by rewrite cats0.
rewrite /decode_share /=; case: (decompress e) => [pt|] /=; last first.
  by apply: IH; apply: leq_trans sz; rewrite leq_add2l.
have sa : (size acc < 8)%N by apply: leq_trans sz; rewrite addnS ltnS leq_addr.
by rewrite leqNgt sa /= IH ?cat_rcons // size_rcons addSnnS.
Qed.

(** The loop stops at the first subset that opens. *)
Lemma try_subsets_hit valid aad nonce blob combos c mk :
  let point c := interpolate [seq nth (0%N, 0) valid idx | idx <- c] in
  c \in combos -> open (point c) aad nonce blob = Done mk ->
  (forall P, open P aad nonce blob = Done mk \/ open P aad nonce blob = Fail AeadDecryptFailed) ->
  try_subsets compress hkdf decrypt valid aad nonce blob combos = Done mk.
Proof.
move=> point; elim: combos => //= d combos IH; rewrite inE => /orP[/eqP <- -> //|cin] oc all_or.
by case: (all_or (point d)) => ->; last exact: IH.
Qed.

Lemma try_subsets_some valid aad nonce blob combos mk :
  try_subsets compress hkdf decrypt valid aad nonce blob combos = Done mk ->
  exists2 c, c \in combos & open (interpolate [seq nth (0%N, 0) valid idx | idx <- c]) aad nonce blob = Done mk.
Proof.
elim: combos => //= d combos IH; case E: (open _ _ _ _) => [m|[]] //.
  by case=> <-; exists d; rewrite ?inE ?eqxx.
by move=> /IH[c ci ec]; exists c; rewrite ?inE ?ci ?orbT.
Qed.

(** Whatever key is returned was opened with the interpolation of one of the listed subsets of
    the decoded shares. *)
Lemma unwrap_opened params w aad shares mk :
  let valid := collect_valid decompress [::] shares in
  unwrap params w aad shares = Done mk ->
  exists2 c, c \in subset_combinations (size valid) (threshold (config params)) &
    open (interpolate [seq nth (0%N, 0) valid idx | idx <- c]) aad
      (canonical_nonce hkdf (chat_id aad) (msg_seq aad)) (aead_blob w) = Done mk.
Proof.
move=> valid; rewrite /unwrap_message_key; case: ifP => // _; case: (check_indices _ _ _) => //.
case: (decompress_point _ _) => // _; case: ifP => // _ /try_subsets_some[c ci ec].
by exists c => //; apply: mem_take ci.
Qed.

Lemma indices_size n idx : (n <= 5)%N -> indices_ok n idx -> (size idx <= 5)%N.
Proof.
move=> n5 /andP[/allP a u]; rewrite -(size_iota 1 5); apply: uniq_leq_size => // i /a /andP[i0 ni].
by rewrite mem_iota i0 ltnS (leq_trans ni n5).
Qed.

Lemma check_indices_pass n (shares : seq (nat * bytes)) :
  indices_ok n (map fst shares) -> check_indices n (nseq 6 false) shares = None.
Proof.
move=> io; have [_ ->] // := check_indicesP n (nseq 6 false) shares; rewrite io andTb.
by apply/hasPn => i _; rewrite nth_nseq if_same.
Qed.

(** Positions of the first [t] honest entries of a list. *)
Definition honest_positions (h : pred (nat * V)) (t : nat) (valid : seq (nat * V)) : seq nat :=
  take t [seq p <- iota 0 (size valid) | h (nth (0%N, 0) valid p)].

Lemma honest_positionsP h t valid :
  (t <= count h valid)%N ->
  let pos := honest_positions h t valid in
  [/\ subseq pos (iota 0 (size valid)), size pos = t & all h [seq nth (0%N, 0) valid p | p <- pos]].
Proof.
move=> tc pos; have cnt : size [seq p <- iota 0 (size valid) | h (nth (0%N, 0) valid p)] = count h valid.
  by rewrite -[in RHS](mkseq_nth (0%N, 0) valid) /mkseq count_map size_filter.
split.
- by apply: subseq_trans (take_subseq _ _) _; apply: filter_subseq.
- by rewrite size_take_min cnt; apply/minn_idPl.
- apply/allP => q /mapP[p /mem_take pf ->]; by move: pf; rewrite mem_filter => /andP[].
Qed.

Lemma map_fst_valid shares : subseq (map fst (pmap decode_share shares)) (map fst shares).
Proof.
elim: shares => [|s shares IH] //; rewrite [pmap _ _]/= [map fst (_ :: _)]/=.
case E: (decode_share s) => [p|]; last exact: subseq_trans IH (subseq_cons _ _).
have <- : p.1 = s.1 by move: E; rewrite /decode_share; case: (decompress _) => //= pt [<-].
by rewrite /= eqxx.
Qed.

Lemma count_valid (hon : pred (nat * bytes)) (h : pred (nat * V)) shares :
  (forall s, hon s -> exists2 p, decode_share s = Some p & h p) ->
  (count hon shares <= count h (pmap decode_share shares))%N.
Proof.
move=> hh; elim: shares => //= s shares IH; case: (boolP (hon s)) => [/hh[p -> hp]|_] /=.
  by rewrite hp leq_add2l.
by rewrite add0n; case: (decode_share s) => [p|] //=; apply: leq_trans IH (leq_addl _ _).
Qed.

(** Distinct positions of a list with distinct indices carry distinct indices. *)
Lemma picked_indices (valid : seq (nat * V)) pos :
  uniq (map fst valid) -> subseq pos (iota 0 (size valid)) ->
  uniq (map fst [seq nth (0%N, 0) valid p | p <- pos]) /\
  {subset map fst [seq nth (0%N, 0) valid p | p <- pos] <= map fst valid}.
Proof.
move=> uv sp; have pr p : p \in pos -> (p < size valid)%N.
  by move=> /(mem_subseq sp); rewrite mem_iota.
have up : uniq pos by apply: subseq_uniq sp (iota_uniq _ _).
have -> : map fst [seq nth (0%N, 0) valid p | p <- pos] = [seq nth 0%N (map fst valid) p | p <- pos].
  by rewrite -map_comp; apply/eq_in_map => p /pr lp /=; rewrite (nth_map (0%N, 0)).
split; last by move=> _ /mapP[p /pr lp ->]; rewrite mem_nth ?size_map.
by rewrite map_inj_in_uniq // => p q /pr lp /pr lq /eqP; rewrite nth_uniq ?size_map // => /eqP.
Qed.

(** A subset of honest points interpolates to the secret times the point. *)
Lemma honest_subset coeffs (R : V) (sub : seq (nat * V)) :
  (size coeffs <= size sub)%N -> uniq (map fst sub) -> {in map fst sub &, injective (@scalar F)} ->
  all (fun p => p.2 == (Poly coeffs).[scalar F p.1] *: R) sub ->
  interpolate sub = nth 0 coeffs 0 *: R.
Proof.
move=> sc us inj /allP hs; have -> : sub = [seq (i, (Poly coeffs).[scalar F i] *: R) | i <- map fst sub].
  by rewrite -map_comp -[LHS]map_id; apply/eq_in_map => -[i P] /hs /eqP /= ->.
by apply: interpolate_evaluations; rewrite ?size_map.
Qed.

(** The server's honest answer: its share of the secret times the ephemeral point. *)
Definition honest_answer (coeffs : seq F) (r : F) (s : nat * bytes) : bool :=
  s.2 == compress (share_of coeffs s.1 *: (r *: basepoint)).

(** C7. End to end, a message key wrapped to the servers' public key is recovered from any set
    of answers with distinct indices of which at least [threshold] are honest, in any order and
    whatever the other servers send (undecodable or wrong points), within the ten attempts:
    the only requirement on the cipher is that it decrypts what it encrypted and that this blob
    does not open under the key of another point. *)
Theorem unwrap_recovers (params : WrappingParams) (aad : CanonicalAad) (mk : bytes) (r : F) (coeffs : seq F)
    (w : WrappedKey) (shares : seq (nat * bytes)) :
  config_ok (config params) ->
  (size coeffs <= threshold (config params))%N ->
  decompress (main_pubkey params) = Some (nth 0 coeffs 0 *: basepoint) ->
  size mk = MESSAGE_KEY_LEN ->
  wrap params mk aad r = Done w ->
  indices_ok (total (config params)) (map fst shares) ->
  (threshold (config params) <= count (honest_answer coeffs r) shares)%N ->
  (forall i j, (i <= DEFAULT_TOTAL)%N -> (j <= DEFAULT_TOTAL)%N -> scalar F i = scalar F j -> i = j) ->
  (forall v, decompress (compress v) = Some v) ->
  (forall k n m a, decrypt k n (encrypt k n m a) a = Some m) ->
  (forall P, P != r *: (nth 0 coeffs 0 *: basepoint) ->
     open P aad (canonical_nonce hkdf (chat_id aad) (msg_seq aad)) (aead_blob w) = Fail AeadDecryptFailed) ->
  unwrap params w aad shares = Done mk.
Proof.
move=> ok sc dy smk; set t := threshold _; set R := r *: basepoint; set k := nth 0 coeffs 0.
rewrite /wrap_message_key; case: eqP => //= _; rewrite /decompress_point dy => -[<-] /= io th inj dc de other.
have /and3P[t0 tn n5] := ok; have s5 := indices_size n5 io; rewrite size_map in s5.
have size_ok : (t <= size shares)%N by apply: leq_trans th (count_size _ _).
rewrite /unwrap_message_key -/t ltnNge size_ok /= check_indices_pass // /decompress_point dc.
rewrite collect_validE /= ?add0n ?(leq_trans s5) //; set valid := pmap _ _.
pose h (p : nat * V) := p.2 == (Poly coeffs).[scalar F p.1] *: R.
have hv : (t <= count h valid)%N.
  apply: leq_trans th _; apply: count_valid => -[i e] /eqP /= ->; rewrite /decode_share /= dc.
  by eexists; first reflexivity; rewrite /h /= share_ofE.
have fv := map_fst_valid shares; rewrite -/valid in fv.
have tv : (t <= size valid)%N by apply: leq_trans hv (count_size _ _).
have v5 : (size valid <= 5)%N by rewrite -(size_map fst); apply: leq_trans (size_subseq fv) _; rewrite size_map.
have [sp ssz ah] := honest_positionsP hv; set pos := honest_positions h t valid in sp ssz ah.
have uv : uniq (map fst valid) by apply: subseq_uniq fv _; case/andP: io.
have [us sb] := picked_indices uv sp.
have S : k *: R = r *: (k *: basepoint) by rewrite /R !scalerA mulrC.
rewrite ltnNge tv /=; apply: (@try_subsets_hit _ _ _ _ _ pos).
- have [-> _] := subsets_small v5 (introT andP (conj t0 tv)).
  by rewrite take_oversize ?choose_small // mem_choose sp ssz eqxx.
- have b5 i : i \in map fst [seq nth (0%N, 0) valid p | p <- pos] -> (i <= DEFAULT_TOTAL)%N.
    by move=> /sb /(mem_subseq fv); case/andP: io => /allP a _ /a /andP[_ /leq_trans]; apply.
  have -> : interpolate [seq nth (0%N, 0) valid p | p <- pos] = k *: R.
    apply: honest_subset => //; first by rewrite size_map ssz.
    by move=> i j /b5 i5 /b5 j5; apply: inj.
  by rewrite S /aead_open /aead_seal de smk eqxx.
move=> P; case: (P =P r *: (k *: basepoint)) => [->|/eqP /other ->]; [left|by right].
by rewrite /aead_open /aead_seal de smk eqxx.
Qed.
End Recovery.

(** ** Witness: a 3-of-5 sharing over the field with seven elements *)
Definition w_compress (v : 'F_7) : seq Byte.byte := nseq v Byte.x00.
Definition w_decompress (b : seq Byte.byte) : option 'F_7 := Some (size b)%:R.
Lemma w_dc (v : 'F_7) : w_decompress (w_compress v) = Some v.
Proof. by rewrite /w_decompress /w_compress size_nseq natr_Zp. Qed.
Definition w_hkdf (salt ikm info : seq Byte.byte) (n : nat) := ikm.
Definition w_encrypt (k n m a : seq Byte.byte) := k ++ m.
Definition w_decrypt (k n c a : seq Byte.byte) := if take (size k) c == k then Some (drop (size k) c) else None.
Lemma w_dec k n m a : w_decrypt k n (w_encrypt k n m a) a = Some m.
Proof. by rewrite /w_decrypt /w_encrypt take_size_cat // eqxx drop_size_cat. Qed.
Lemma w_inj i j : (i <= 5)%N -> (j <= 5)%N -> scalar 'F_7 i = scalar 'F_7 j -> i = j.
Proof.
move=> i5 j5 /(congr1 (@nat_of_ord _)); rewrite /scalar !val_Fp_nat // !modn_small //; exact: leq_trans (_ : 6 <= 7)%N.
Qed.
Definition w_params := {| params_version := 1; main_pubkey := w_compress 3%:R; config := {| threshold := 3; total := 5 |} |}.
Definition w_aad := {| sender_identity_pubkey := [::]; recipient_device_pubkey := [::]; chat_id := [::]; msg_seq := 4 |}.
Definition w_mk : bytes := nseq 32 Byte.x09.
Definition w_coeffs : seq 'F_7 := [:: 3%:R; 1; 2%:R].
Definition w_answer (i : nat) : nat * bytes :=
  (i, w_compress (share_of w_coeffs i *: ((2%:R : 'F_7) *: (1 : ('F_7)^o)))).
(** Servers 4, 1 and 5 are honest, server 2 sends a wrong point. *)
Definition w_shares : seq (nat * bytes) :=
  map w_answer [:: 4; 1]%N ++ [:: (2%N, w_compress 6%:R)] ++ map w_answer [:: 5]%N.
Definition w_wrapped : WrappedKey := {| wk_version := 1; ephemeral_r := w_compress 2%:R; aead_blob := w_compress 6%:R ++ HKDF_IKM_SUFFIX ++ w_mk |}.
Lemma w_wrong p : (p < 6)%N ->
  (take (size (nseq p Byte.x00 ++ HKDF_IKM_SUFFIX)) (nseq 6 Byte.x00 ++ HKDF_IKM_SUFFIX ++ w_mk)
     == nseq p Byte.x00 ++ HKDF_IKM_SUFFIX) = false.
Proof. by do 6! [case: p => [|p] //]. Qed.

Lemma w_six : ((6%:R : 'F_7) : nat) = 6%N.
Proof. by rewrite val_Fp_nat. Qed.

Lemma w_blob : aead_blob w_wrapped = nseq 6 Byte.x00 ++ HKDF_IKM_SUFFIX ++ w_mk.
Proof. by rewrite /w_wrapped /aead_blob /w_compress w_six. Qed.

Lemma unwrap_recovers_witness :
  unwrap_message_key (V := ('F_7)^o) w_decompress w_compress w_hkdf w_decrypt w_params w_wrapped w_aad w_shares = Done w_mk.
Proof.
have e6 : (2%:R : 'F_7) *: (3%:R *: (1 : ('F_7)^o)) = 6%:R by rewrite [_ *: 1]mulr1 -[_ *: _]natrM.
apply: (@unwrap_recovers 'F_7 ('F_7)^o w_decompress w_compress 1 w_hkdf w_encrypt w_decrypt w_params w_aad w_mk 2%:R w_coeffs).
- by [].
- by [].
- by rewrite w_dc [_ *: _]mulr1.
- by [].
- rewrite /wrap_message_key /decompress_point w_dc /= /aead_seal /w_encrypt /derive_aead_key /w_hkdf.
  by rewrite -catA -[2%:R *: 3%:R]natrM [2%:R *: 1]mulr1.
- by [].
- have hp : preim w_answer (@honest_answer 'F_7 ('F_7)^o w_compress 1 w_coeffs 2%:R) =1 predT by move=> i; apply: eqxx.
  by rewrite /w_shares !count_cat !count_map !(eq_count hp) !count_predT addnCA leq_addl.
- exact: w_inj.
- exact: w_dc.
- exact: w_dec.
move=> P; rewrite e6 => P6; rewrite w_blob /aead_open /w_decrypt /derive_aead_key /w_hkdf /w_compress.
rewrite w_wrong // ltn_neqAle -ltnS [(P < 7)%N](ltn_ord P) andbT.
by apply: contra P6 => /eqP p6; apply/eqP/val_inj; exact: etrans p6 (esym w_six).
Defined.

End CloudUnwrap.
