(* ===== verification/OprfClient.v ===== *)
(** * The OPRF client ([crates/umbrella-oprf/src/client.rs], [primitives.rs])

    Blinding, finalisation of a threshold evaluation into a label, and the batch operations of
    contact discovery.  The [voprf] library (blinding, unblinding and the hash of its output)
    and SHA-512 are parameters; the combination of the servers' evaluations is the one of
    [Shamir]. *)
From Stdlib Require Import Strings.Byte Strings.String.
From HB Require Import structures.
From mathcomp Require Import boot order algebra.
From S2P Require Import Shamir CloudUnwrap.
Set Implicit Arguments.
Unset Strict Implicit.
Unset Printing Implicit Defensive.
Import GRing.Theory.
Local Open Scope ring_scope.

Module OprfClient.
Import Shamir.
Abbreviation bytes := (seq Byte.byte).

Definition MAX_BATCH_SIZE : nat := 1024.
Definition LABEL_LEN : nat := 32.
Definition LABEL_DOMAIN_SEPARATOR : bytes := CloudUnwrap.literal "umbrellax-oprf-output-v1".

(** [(n as u16).to_be_bytes()]. *)
Definition be16 (n : nat) : bytes := [:: CloudUnwrap.byte_of (n %/ 256); CloudUnwrap.byte_of n].

Inductive ClientError :=
| Combination (e : CombineError)
| VoprfInternal (what : string)
| InvalidEncoding
| InvalidBatchSize (got max : nat).

Inductive outcome (A : Type) := Done (a : A) | Fail (e : ClientError).
Arguments Done {A} a.
Arguments Fail {A} e.

Section Client.
Variables (F : fieldType) (V : lmodType F).
Variables (decompress : bytes -> option V) (compress : V -> bytes).
(** [EvaluationElement::deserialize], which unlike the curve library refuses the identity. *)
Variable deserialize : bytes -> option V.
(** The client state of the library, its blinding (which draws from the generator of type [R])
    and its finalisation. *)
Variables (R State : Type).
Variable voprf_blind : bytes -> R -> option (V * State) * R.
Variable voprf_finalize : State -> bytes -> V -> option bytes.
Variable sha512 : bytes -> bytes.

Definition blind (input : bytes) (rng : R) : outcome (bytes * State) * R :=
  let: (result, rng) := voprf_blind input rng in
  match result with
  | None => (Fail (VoprfInternal "blind"), rng)
  | Some (message, state) => (Done (compress message, state), rng)
  end.

Definition finalize (state : State) (input : bytes) (evaluation : bytes) : outcome bytes :=
  match deserialize evaluation with
  | None => Fail InvalidEncoding
  | Some voprf_eval =>
      match voprf_finalize state input voprf_eval with
      | None => Fail (VoprfInternal "finalize")
      | Some raw_output =>
          let digest := sha512 (LABEL_DOMAIN_SEPARATOR ++ be16 (size input) ++ input ++ raw_output) in
          Done (take LABEL_LEN digest)
      end
  end.

(** [ContactQuery::finalize]. *)
Definition contact_finalize (evaluations : seq (nat * bytes)) (state : State) (input : bytes)
    (config : ThresholdConfig) : outcome bytes :=
  match threshold_combine decompress compress evaluations config with
  | Err e => Fail (Combination e)
  | Ok combined => finalize state input combined
  end.

Fixpoint blind_all (inputs : seq bytes) (requests : seq bytes) (states : seq State) (rng : R)
  : outcome (seq bytes * seq State) * R :=
  match inputs with
  | [::] => (Done (requests, states), rng)
  | inp :: rest =>
      let: (r, rng) := blind inp rng in
      match r with
      | Fail e => (Fail e, rng)
      | Done (req, state) => blind_all rest (rcons requests req) (rcons states state) rng
      end
  end.

Definition batch_contact_query (inputs : seq bytes) (rng : R) : outcome (seq bytes * seq State) * R :=
  if (size inputs == 0)%N || (MAX_BATCH_SIZE < size inputs)%N
  then (Fail (InvalidBatchSize (size inputs) MAX_BATCH_SIZE), rng)
  else blind_all inputs [::] [::] rng.

(** The loop over the positions; the three lists have one length. *)
Fixpoint finalize_all (evals : seq (seq (nat * bytes))) (states : seq State) (inputs : seq bytes)
    (config : ThresholdConfig) (labels : seq bytes) : outcome (seq bytes) :=
  match evals, states, inputs with
  | e :: evals, s :: states, i :: inputs =>
      match contact_finalize e s i config with
      | Fail err => Fail err
      | Done label => finalize_all evals states inputs config (rcons labels label)
      end
  | _, _, _ => Done labels
  end.

Definition batch_finalize (evals : seq (seq (nat * bytes))) (states : seq State) (inputs : seq bytes)
    (config : ThresholdConfig) : outcome (seq bytes) :=
  let n := size evals in
  if [|| n == 0, MAX_BATCH_SIZE < n, size states != n | size inputs != n]%N
  then Fail (InvalidBatchSize n MAX_BATCH_SIZE)
  else finalize_all evals states inputs config [::].

(** ** Correctness *)

(** What a label is, independent of blinding, servers and batching: [prf k input] is the output
    of the library for the key [k]. *)
Variable prf : F -> bytes -> bytes.
Definition label_of (k : F) (input : bytes) : bytes :=
  take LABEL_LEN (sha512 (LABEL_DOMAIN_SEPARATOR ++ be16 (size input) ++ input ++ prf k input)).

(** Documented behaviour of the library: finalising the evaluation [k * blinded] of the state
    that produced [blinded] gives [prf k input]. *)
Hypothesis voprf_correct : forall input rng message state rng' k,
  voprf_blind input rng = (Some (message, state), rng') ->
  voprf_finalize state input (k *: message) = Some (prf k input).
Hypothesis voprf_nonzero : forall input rng message state rng',
  voprf_blind input rng = (Some (message, state), rng') -> message != 0.
Hypothesis decompressK : forall v, decompress (compress v) = Some v.
Hypothesis deserializeK : forall v, v != 0 -> deserialize (compress v) = Some v.
Hypothesis small_scalars :
  forall i j, (i <= DEFAULT_TOTAL)%N -> (j <= DEFAULT_TOTAL)%N -> scalar F i = scalar F j -> i = j.

Variables (config : ThresholdConfig) (coeffs : seq F).
Hypothesis config_valid : config_ok config.
Hypothesis enough : (size coeffs <= threshold config)%N.
Hypothesis secret_nonzero : nth 0 coeffs 0 != 0.

(** The answers of the servers [idx] to one blinded request: each decompresses it and multiplies
    by its share. *)
Definition answers (idx : seq nat) (request : bytes) : seq (nat * bytes) :=
  if decompress request is Some point
  then [seq (i, compress (share_of coeffs i *: point)) | i <- idx] else [::].

Definition quorum (idx : seq nat) : bool := indices_ok (total config) idx && (threshold config <= size idx)%N.

(** The answers of a quorum to a blinded point finalise to the label of its input. *)
Lemma quorum_label idx input rng message state rng' :
  quorum idx -> voprf_blind input rng = (Some (message, state), rng') ->
  contact_finalize [seq (i, compress (share_of coeffs i *: message)) | i <- idx] state input config
    = Done (label_of (nth 0 coeffs 0) input).
Proof.
move=> /andP[io ti] E.
have sE i : (i, compress (share_of coeffs i *: message)) = (i, compress ((Poly coeffs).[scalar F i] *: message)).
  by rewrite share_ofE.
rewrite /contact_finalize (eq_map sE) /threshold_combine combine_evaluations //.
by rewrite /finalize deserializeK ?(voprf_correct _ E) // scaler_eq0 negb_or secret_nonzero (voprf_nonzero E).
Qed.

Lemma contact_roundtrip idx input rng req state rng' :
  quorum idx -> blind input rng = (Done (req, state), rng') ->
  contact_finalize (answers idx req) state input config = Done (label_of (nth 0 coeffs 0) input).
Proof.
move=> q; rewrite /blind; case E: (voprf_blind _ _) => [[[message st]|] rng1] //= [<- <- _].
by rewrite /answers decompressK (quorum_label q E).
Qed.

Lemma blind_all_finalize idx inputs reqs0 sts0 labels rng reqs sts rng' :
  all quorum idx -> size idx = size inputs ->
  blind_all inputs reqs0 sts0 rng = (Done (reqs, sts), rng') ->
  exists reqs1 sts1,
    [/\ reqs = reqs0 ++ reqs1, sts = sts0 ++ sts1, size reqs1 = size inputs, size sts1 = size inputs &
      finalize_all [seq answers p.1 p.2 | p <- zip idx reqs1] sts1 inputs config labels
        = Done (labels ++ [seq label_of (nth 0 coeffs 0) x | x <- inputs])].
Proof.
elim: inputs idx reqs0 sts0 labels rng => [|x inputs IH] [|q idx] // reqs0 sts0 labels rng /=.
  by move=> _ _ [<- <- _]; exists [::], [::]; rewrite !cats0.
move=> /andP[qq qs] [sz]; case B: (blind x rng) => [[[req st]|] rng1] //= A.
have [reqs1 [sts1 [-> -> s1 s2 fin]]] := IH idx _ _ (rcons labels (label_of (nth 0 coeffs 0) x)) _ qs sz A.
exists (req :: reqs1), (st :: sts1); rewrite !cat_rcons /= s1 s2; split=> //.
by rewrite (contact_roundtrip qq B) fin cat_rcons.
Qed.

(** Contact discovery end to end: every batch of 1 to 1024 inputs that the client blinds,
    answered at each position by its own quorum of servers (at least [threshold], in any order),
    finalises to the labels of the inputs, position by position; the labels depend only on the
    servers' secret and the input, not on the blinding, the quorum or the batch. *)
Theorem batch_labels (inputs : seq bytes) (idx : seq (seq nat)) (rng rng' : R) (reqs : seq bytes) (sts : seq State) :
  all quorum idx -> size idx = size inputs ->
  batch_contact_query inputs rng = (Done (reqs, sts), rng') ->
  batch_finalize [seq answers p.1 p.2 | p <- zip idx reqs] sts inputs config
    = Done [seq label_of (nth 0 coeffs 0) x | x <- inputs].
Proof.
move=> qs sz; rewrite /batch_contact_query; case: ifP => // /norP[n0 nb] A.
have [reqs1 [sts1 [/= -> -> s1 s2 fin]]] := blind_all_finalize [::] qs sz A.
rewrite /batch_finalize size_map size_zip s1 s2 sz minnn eqxx /= orbF (negPf n0) (negPf nb) /=.
exact: fin.
Qed.
End Client.

(** ** Witness: two inputs over the field with seven elements *)
Definition w_hash (input : bytes) : ('F_7)^o := if odd (size input) then 1 else 2%:R.
Definition w_blind (input : bytes) (rng : nat) : option (('F_7)^o * 'F_7) * nat :=
  (Some ((2%:R : 'F_7) *: w_hash input, 2%:R), rng.+1).
Definition w_finalize (state : 'F_7) (input : bytes) (e : ('F_7)^o) : option bytes :=
  Some (CloudUnwrap.w_compress (state^-1 *: e)).
Definition w_prf (k : 'F_7) (input : bytes) : bytes := CloudUnwrap.w_compress (k *: w_hash input).
Definition w_inputs : seq bytes := [:: [:: Byte.x01]; [:: Byte.x02; Byte.x03]].
Definition w_config : ThresholdConfig := {| threshold := 2; total := 5 |}.
Definition w_coeffs : seq 'F_7 := [:: 3%:R; 1].

Lemma w_two : (2%:R : 'F_7) != 0.
Proof. by []. Qed.

Lemma w_hash_nonzero input : (2%:R : 'F_7) *: w_hash input != 0.
Proof. by rewrite /w_hash; case: (odd _). Qed.

Lemma w_voprf input rng message (state : 'F_7) rng' k :
  w_blind input rng = (Some (message, state), rng') -> w_finalize state input (k *: message) = Some (w_prf k input).
Proof.
by case=> <- <- _; rewrite /w_finalize /w_prf !scalerA mulrAC mulVf ?w_two // mul1r.
Qed.

Lemma batch_labels_witness :
  exists reqs sts,
    batch_contact_query (V := ('F_7)^o) CloudUnwrap.w_compress w_blind w_inputs 0 = (Done (reqs, sts), 2%N) /\
    batch_finalize (V := ('F_7)^o) CloudUnwrap.w_decompress CloudUnwrap.w_compress CloudUnwrap.w_decompress w_finalize id
      [seq answers (V := ('F_7)^o) CloudUnwrap.w_decompress CloudUnwrap.w_compress w_coeffs p.1 p.2 | p <- zip [:: [:: 4; 1]; [:: 2; 5; 3]]%N reqs]
      sts w_inputs w_config = Done [seq label_of id w_prf 3%:R x | x <- w_inputs].
Proof.
eexists _, _; split; first by [].
apply: (@batch_labels 'F_7 ('F_7)^o CloudUnwrap.w_decompress CloudUnwrap.w_compress CloudUnwrap.w_decompress nat 'F_7
  w_blind w_finalize id w_prf _ _ _ _ _ w_config w_coeffs _ _ _ w_inputs [:: [:: 4; 1]; [:: 2; 5; 3]]%N 0%N) => //.
- exact: w_voprf.
- by move=> input rng message state rng' [<- _ _]; apply: w_hash_nonzero.
- exact: CloudUnwrap.w_dc.
- by move=> v _; apply: CloudUnwrap.w_dc.
- exact: CloudUnwrap.w_inj.
Defined.

End OprfClient.
