(* ===== verification/DiscoveryPsi.v ===== *)
(** * Private contact discovery ([crates/umbrella-discovery/src/psi.rs])

    The client blinds its contacts in one request, every server multiplies each point by its
    share, the client combines the answers of a quorum position by position into labels and
    looks them up in the published table.  The [voprf] library, HKDF and SHA-256 are
    parameters; blinding and finalisation are those of [OprfClient], the combination that of
    [Shamir].  The wire encodings of the messages are in [DiscoveryWire]. *)
From Stdlib Require Import Strings.Byte Strings.String.
From HB Require Import structures.
From mathcomp Require Import boot order algebra.
From S2P Require Import Shamir CloudUnwrap OprfClient.
Set Implicit Arguments.
Unset Strict Implicit.
Unset Printing Implicit Defensive.
Import GRing.Theory.
Local Open Scope ring_scope.

Module DiscoveryPsi.
Import Shamir CloudUnwrap.
Abbreviation bytes := (seq Byte.byte).

Definition WIRE_VERSION : nat := 1.
Definition MAX_PSI_BATCH : nat := 1024.
Definition MAX_INPUT_BYTES : nat := 512.
Definition ANON_ID_LEN : nat := 32.
Definition SALT_LEN : nat := 32.
Definition SERVER_NONCE_LEN : nat := 32.
Definition TRANSCRIPT_TAG_LEN : nat := 32.
Definition PER_QUERY_ANON_ID_LABEL : bytes := CloudUnwrap.literal "umbrella-r7/discovery/per-query-anon-id/v1".

Inductive PsiError :=
| OprfFailed (e : OprfClient.ClientError)
| InvalidScalarEncoding
| InvalidPsiBatchSize (got max : nat)
| InputRejected (what : string)
| CryptoInternal (what : string)
| WireDecode (reason : string)
| InsufficientResponses (valid required : nat).

Inductive psi (A : Type) := Good (a : A) | Bad (e : PsiError).
Arguments Good {A} a.
Arguments Bad {A} e.

Record PsiQueryEntry := { anon_id : bytes; blinded : bytes }.
Record PsiRequest := { q_version : nat; entries : seq PsiQueryEntry; client_nonce : bytes; witness_index : nat }.
Record PsiResponseEntry := { echo_id : bytes; evaluation : bytes }.
Record PsiResponse := { r_version : nat; answers_of : seq PsiResponseEntry; server_nonce : bytes; transcript_tag : bytes }.

Section Psi.
Variables (F : fieldType) (V : lmodType F).
Variables (decompress : bytes -> option V) (compress : V -> bytes) (deserialize : bytes -> option V).
Variables (R State : Type).
Variable voprf_blind : bytes -> R -> option (V * State) * R.
Variable voprf_finalize : State -> bytes -> V -> option bytes.
Variables (sha512 sha256 : bytes -> bytes).
(** [Hkdf::<Sha256>::new(None, ikm).expand(info, n)] and [RngCore::fill_bytes] for [n] bytes. *)
Variable hkdf : bytes -> bytes -> nat -> option bytes.
Variable fill_bytes : nat -> R -> bytes * R.

Record PsiQueryState := { q_salt : bytes; states : seq State; inputs : seq bytes; q_nonce : bytes }.

Definition derive_per_query_anon_id (master_key : bytes) (server_id : nat) (query_salt : bytes) : psi bytes :=
  if (server_id == 0)%N || (5 < server_id)%N then Bad (InputRejected "server_id must be 1..=5")
  else match hkdf master_key (OprfClient.be16 server_id ++ query_salt ++ PER_QUERY_ANON_ID_LABEL) ANON_ID_LEN with
       | None => Bad (CryptoInternal "HKDF expand per-query anon-id")
       | Some out => Good out
       end.

(** [OprfInput::new]. *)
Definition input_ok (c : bytes) : bool := (0 < size c <= MAX_INPUT_BYTES)%N.

Fixpoint blind_contacts (master_key : bytes) (wi : nat) (salt : bytes) (contacts : seq bytes)
    (es : seq PsiQueryEntry) (sts : seq State) (ins : seq bytes) (rng : R)
  : psi (seq PsiQueryEntry * seq State * seq bytes) * R :=
  match contacts with
  | [::] => (Good (es, sts, ins), rng)
  | c :: rest =>
      if ~~ input_ok c then (Bad (InputRejected "contact length out of OPRF range"), rng)
      else
        let: (r, rng) := OprfClient.blind compress voprf_blind c rng in
        match r with
        | OprfClient.Fail e => (Bad (OprfFailed e), rng)
        | OprfClient.Done (req, state) =>
            match derive_per_query_anon_id master_key wi salt with
            | Bad e => (Bad e, rng)
            | Good id =>
                blind_contacts master_key wi salt rest (rcons es {| anon_id := id; blinded := req |})
                  (rcons sts state) (rcons ins c) rng
            end
        end
  end.

Definition prepare_psi_query (master_key : bytes) (contacts : seq bytes) (wi : nat) (rng : R)
  : psi (PsiRequest * PsiQueryState) * R :=
  if (size contacts == 0)%N || (MAX_PSI_BATCH < size contacts)%N
  then (Bad (InvalidPsiBatchSize (size contacts) MAX_PSI_BATCH), rng)
  else if (wi == 0)%N || (5 < wi)%N then (Bad (InputRejected "witness_index must be 1..=5"), rng)
  else
    let: (salt, rng) := fill_bytes SALT_LEN rng in
    let: (r, rng) := blind_contacts master_key wi salt contacts [::] [::] [::] rng in
    match r with
    | Bad e => (Bad e, rng)
    | Good (es, sts, ins) =>
        let: (nonce, rng) := fill_bytes SERVER_NONCE_LEN rng in
        (Good ({| q_version := WIRE_VERSION; entries := es; client_nonce := nonce; witness_index := wi |},
               {| q_salt := salt; states := sts; inputs := ins; q_nonce := nonce |}), rng)
    end.

(** [BlindedRequest::from_bytes] and [evaluate_for_testing]. *)
Definition evaluate (request : bytes) (sk : F) : psi bytes :=
  match deserialize request with
  | None => Bad (OprfFailed OprfClient.InvalidEncoding)
  | Some p => if sk == 0 then Bad InvalidScalarEncoding else Good (compress (sk *: p))
  end.

Fixpoint evaluate_entries (sk : F) (es : seq PsiQueryEntry) (out : seq PsiResponseEntry) : psi (seq PsiResponseEntry) :=
  match es with
  | [::] => Good out
  | e :: rest =>
      match evaluate (blinded e) sk with
      | Bad err => Bad err
      | Good ev => evaluate_entries sk rest (rcons out {| echo_id := anon_id e; evaluation := ev |})
      end
  end.

(** [(n as u32).to_be_bytes()]. *)
Definition be32 (n : nat) : bytes := [seq CloudUnwrap.byte_of (n %/ 256 ^ (3 - i)) | i <- iota 0 4].

Definition compute_transcript_tag (cn sn : bytes) (es : seq PsiResponseEntry) (tag_seed : bytes) : bytes :=
  take TRANSCRIPT_TAG_LEN (sha256 (CloudUnwrap.literal "umbrella-r7/discovery/psi-transcript/v1" ++ cn ++ sn ++
    be32 (size es) ++ flatten [seq echo_id e ++ evaluation e | e <- es] ++ tag_seed)).

(** [sk_bytes] are the bytes of the share [sk]. *)
Definition psi_server_respond (request : PsiRequest) (sk : F) (sk_bytes : bytes) (rng : R) : psi PsiResponse * R :=
  match evaluate_entries sk (entries request) [::] with
  | Bad e => (Bad e, rng)
  | Good es =>
      let: (nonce, rng) := fill_bytes SERVER_NONCE_LEN rng in
      (Good {| r_version := WIRE_VERSION; answers_of := es; server_nonce := nonce;
               transcript_tag := compute_transcript_tag (client_nonce request) nonce es sk_bytes |}, rng)
  end.

(** The answers at position [i]; [resp.entries[i]] is in range because the lengths were checked. *)
Fixpoint partials_at (i : nat) (responses : seq (nat * PsiResponse)) : psi (seq (nat * bytes)) :=
  match responses with
  | [::] => Good [::]
  | (wi, resp) :: rest =>
      let ev := evaluation (nth {| echo_id := [::]; evaluation := [::] |} (answers_of resp) i) in
      match deserialize ev with
      | None => Bad (OprfFailed OprfClient.InvalidEncoding)
      | Some _ =>
          match partials_at i rest with
          | Bad e => Bad e
          | Good ps => Good ((wi, ev) :: ps)
          end
      end
  end.

Fixpoint finalize_positions (responses : seq (nat * PsiResponse)) (config : ThresholdConfig) (i : nat)
    (sts : seq State) (ins : seq bytes) (labels : seq bytes) : psi (seq bytes) :=
  match sts, ins with
  | s :: sts, c :: ins =>
      match partials_at i responses with
      | Bad e => Bad e
      | Good partials =>
          match threshold_combine decompress compress partials config with
          | Err e => Bad (OprfFailed (OprfClient.Combination e))
          | Ok combined =>
              if ~~ input_ok c then Bad (InputRejected "contact length out of range")
              else match OprfClient.finalize deserialize voprf_finalize sha512 s c combined with
                   | OprfClient.Fail e => Bad (OprfFailed e)
                   | OprfClient.Done label =>
                       finalize_positions responses config i.+1 sts ins (rcons labels label)
                   end
          end
      end
  | _, _ => Good labels
  end.

Definition finalize_psi_query (state : PsiQueryState) (responses : seq (nat * PsiResponse)) (config : ThresholdConfig)
  : psi (seq bytes) :=
  if (size responses < threshold config)%N then Bad (InsufficientResponses (size responses) (threshold config))
  else if has (fun r => size (answers_of r.2) != size (states state)) responses
  then Bad (WireDecode "psi response entries count mismatch")
  else finalize_positions responses config 0 (states state) (inputs state) [::].

Definition intersect_with_server_table (client_labels table : seq bytes) : seq nat :=
  [seq i <- iota 0 (size client_labels) | nth [::] client_labels i \in table].

Fixpoint simulate_server_table (master_sk : F) (registered : seq bytes) (table : seq (bytes * bytes)) (rng : R)
  : psi (seq (bytes * bytes)) * R :=
  match registered with
  | [::] => (Good table, rng)
  | contact :: rest =>
      if ~~ input_ok contact then (Bad (InputRejected "registered contact too long"), rng)
      else
        let: (r, rng) := OprfClient.blind compress voprf_blind contact rng in
        match r with
        | OprfClient.Fail e => (Bad (OprfFailed e), rng)
        | OprfClient.Done (req, state) =>
            match evaluate req master_sk with
            | Bad e => (Bad e, rng)
            | Good ev =>
                match OprfClient.finalize deserialize voprf_finalize sha512 state contact ev with
                | OprfClient.Fail e => (Bad (OprfFailed e), rng)
                | OprfClient.Done label => simulate_server_table master_sk rest (rcons table (label, contact)) rng
                end
            end
        end
  end.

(** ** Correctness *)
Variable prf : F -> bytes -> bytes.
Hypothesis voprf_correct : forall input rng message state rng' k,
  voprf_blind input rng = (Some (message, state), rng') ->
  voprf_finalize state input (k *: message) = Some (prf k input).
Hypothesis voprf_nonzero : forall input rng message state rng',
  voprf_blind input rng = (Some (message, state), rng') -> message != 0.
Hypothesis decompressK : forall v, decompress (compress v) = Some v.
Hypothesis deserializeK : forall v, v != 0 -> deserialize (compress v) = Some v.
Hypothesis small_scalars :
  forall i j, (i <= DEFAULT_TOTAL)%N -> (j <= DEFAULT_TOTAL)%N -> scalar F i = scalar F j -> i = j.
Variables (config : ThresholdConfig) (coeffs : seq F).
Hypothesis config_valid : config_ok config.
Hypothesis enough : (size coeffs <= threshold config)%N.
Hypothesis secret_nonzero : nth 0 coeffs 0 != 0.

Let label := OprfClient.label_of sha512 prf (nth 0 coeffs 0).

(** Entry by entry, the request blinds the contact and the state is the one of that blinding. *)
Definition blinds (c : bytes) (e : PsiQueryEntry) (s : State) : Prop :=
  input_ok c /\ exists message r r', voprf_blind c r = (Some (message, s), r') /\ blinded e = compress message.

Fixpoint blinded_as (cs : seq bytes) (es : seq PsiQueryEntry) (sts : seq State) : Prop :=
  match cs, es, sts with
  | c :: cs, e :: es, s :: sts => blinds c e s /\ blinded_as cs es sts
  | [::], [::], [::] => True
  | _, _, _ => False
  end.

Lemma blind_contacts_spec mk wi salt cs es0 sts0 ins0 rng es sts ins rng' :
  blind_contacts mk wi salt cs es0 sts0 ins0 rng = (Good (es, sts, ins), rng') ->
  exists es1 sts1, [/\ es = es0 ++ es1, sts = sts0 ++ sts1, ins = ins0 ++ cs & blinded_as cs es1 sts1].
Proof.
elim: cs es0 sts0 ins0 rng => [|c cs IH] es0 sts0 ins0 rng /=.
  by case=> <- <- <- _; exists [::], [::]; rewrite !cats0.
case ok: (input_ok c) => //=; rewrite /OprfClient.blind.
case E: (voprf_blind c rng) => [[[message st]|] rng1] //=; case: (derive_per_query_anon_id _ _ _) => // id /IH.
move=> [es1 [sts1 [-> -> -> ba]]]; exists ({| anon_id := id; blinded := compress message |} :: es1), (st :: sts1).
by rewrite !cat_rcons; split=> //; split=> //; split=> //; exists message, rng, rng1.
Qed.

Let no_entry := {| anon_id := [::]; blinded := [::] |}.
Let no_answer := {| echo_id := [::]; evaluation := [::] |}.

Lemma evaluate_entries_spec sk es out0 out :
  evaluate_entries sk es out0 = Good out ->
  exists out1, [/\ out = out0 ++ out1, size out1 = size es &
    forall j, (j < size es)%N -> evaluate (blinded (nth no_entry es j)) sk = Good (evaluation (nth no_answer out1 j))].
Proof.
elim: es out0 => [|e es IH] out0 /=; first by case=> <-; exists [::]; rewrite cats0.
case E: (evaluate _ _) => [ev|] // /IH[out1 [-> sz H]].
exists ({| echo_id := anon_id e; evaluation := ev |} :: out1); rewrite cat_rcons /= sz; split=> // -[|j] //= lt.
exact: H.
Qed.

(** A response computed by the server with index [r.1] from its share. *)
Definition honest (req : PsiRequest) (sk_bytes : nat -> bytes) (r : nat * PsiResponse) : Prop :=
  exists rng rng', psi_server_respond req (share_of coeffs r.1) (sk_bytes r.1) rng = (Good r.2, rng').

Lemma honest_answers req skb r :
  honest req skb r -> size (answers_of r.2) = size (entries req) /\
  forall j, (j < size (entries req))%N ->
    evaluate (blinded (nth no_entry (entries req) j)) (share_of coeffs r.1)
      = Good (evaluation (nth no_answer (answers_of r.2) j)).
Proof.
case=> rng [rng']; rewrite /psi_server_respond; case E: (evaluate_entries _ _ _) => [es|] //.
case: (fill_bytes _ _) => nonce rng1 [<- _] /=.
by have [out1 [/= -> sz H]] := evaluate_entries_spec E.
Qed.

Lemma evaluate_point m sk ev : m != 0 -> evaluate (compress m) sk = Good ev -> sk != 0 /\ ev = compress (sk *: m).
Proof. by move=> m0; rewrite /evaluate deserializeK //; case: ifP => // /negbT sk0 [<-]. Qed.

Lemma partials_point i (rs : seq (nat * PsiResponse)) m :
  m != 0 ->
  (forall r, List.In r rs ->
     evaluate (compress m) (share_of coeffs r.1) = Good (evaluation (nth no_answer (answers_of r.2) i))) ->
  partials_at i rs = Good [seq (j, compress (share_of coeffs j *: m)) | j <- map fst rs].
Proof.
move=> m0; elim: rs => [|[wi resp] rs IH] //= H.
have [sk0 /= ev] := evaluate_point m0 (H (wi, resp) (or_introl erefl)).
rewrite -/no_answer ev deserializeK ?scaler_eq0 ?negb_or ?sk0 // IH // => r rin.
by apply: H; right.
Qed.

Lemma finalize_positions_spec rs i cs es sts labels :
  OprfClient.quorum config (map fst rs) -> blinded_as cs es sts ->
  (forall r, List.In r rs -> forall j, (j < size es)%N ->
     evaluate (blinded (nth no_entry es j)) (share_of coeffs r.1)
       = Good (evaluation (nth no_answer (answers_of r.2) (i + j)))) ->
  finalize_positions rs config i sts cs labels = Good (labels ++ map label cs).
Proof.
move=> q; elim: cs es sts i labels => [|c cs IH] [|e es] [|s sts] // i labels /=; first by rewrite cats0.
move=> [[ok [m [r [r' [vb be]]]]] bas] H.
have m0 := voprf_nonzero vb.
have -> : partials_at i rs = Good [seq (j, compress (share_of coeffs j *: m)) | j <- map fst rs].
  by apply: partials_point => // x xin; have /= := H x xin 0%N isT; rewrite be addn0.
have := OprfClient.quorum_label sha512 voprf_correct voprf_nonzero decompressK deserializeK small_scalars config_valid enough
  secret_nonzero q vb.
rewrite /OprfClient.contact_finalize; case: (threshold_combine _ _ _ _) => // combined fin.
rewrite ok /= fin -cat_rcons; apply: IH bas _ => x xin j lt.
by have /= := H x xin j.+1 lt; rewrite addnS.
Qed.

Lemma simulate_spec registered table0 rng table rng' :
  simulate_server_table (nth 0 coeffs 0) registered table0 rng = (Good table, rng') ->
  table = table0 ++ [seq (label c, c) | c <- registered].
Proof.
elim: registered table0 rng => [|c cs IH] table0 rng /=; first by case=> <- _; rewrite cats0.
case: (input_ok c) => //=; rewrite /OprfClient.blind; case E: (voprf_blind c rng) => [[[m st]|] rng1] //=.
have m0 := voprf_nonzero E; rewrite /evaluate deserializeK // (negPf secret_nonzero) /OprfClient.finalize.
rewrite deserializeK ?scaler_eq0 ?negb_or ?secret_nonzero // (voprf_correct _ E) => /IH ->.
by rewrite cat_rcons.
Qed.

Lemma blinded_as_size cs es sts : blinded_as cs es sts -> size es = size cs /\ size sts = size cs.
Proof. by elim: cs es sts => [|c cs IH] [|e es] [|s sts] //= [_ /IH[-> ->]]. Qed.

(** C28. Private set intersection: when a quorum of servers answers a prepared request, in any
    order, finalizing succeeds, every registered contact of the client is reported by its
    position, and a reported position holds a contact whose label is the label of a registered
    one. *)
Theorem psi_intersection mk contacts wi rng rng1 req state (rs : seq (nat * PsiResponse)) skb registered rng2 rng3 table :
  prepare_psi_query mk contacts wi rng = (Good (req, state), rng1) ->
  (forall r, List.In r rs -> honest req skb r) -> OprfClient.quorum config (map fst rs) ->
  simulate_server_table (nth 0 coeffs 0) registered [::] rng2 = (Good table, rng3) ->
  exists labels, finalize_psi_query state rs config = Good labels /\ size labels = size contacts /\
    forall i, (i < size contacts)%N ->
      (nth [::] contacts i \in registered -> i \in intersect_with_server_table labels (map fst table)) /\
      (i \in intersect_with_server_table labels (map fst table) ->
         exists2 c, c \in registered & label c = label (nth [::] contacts i)).
Proof.
rewrite /prepare_psi_query; case: ifP => // _; case: ifP => // _; case: (fill_bytes _ _) => salt rngs.
case B: (blind_contacts _ _ _ _ _ _ _ _) => [[[[es sts] ins]|] rngb] //; case: (fill_bytes _ _) => nonce rngn.
have [es1 [sts1 [/= -> -> -> ba]]] := blind_contacts_spec B; move=> [<- <- _] hon q /simulate_spec -> {B}.
have [se ss] := blinded_as_size ba.
have fin : finalize_positions rs config 0 sts1 contacts [::] = Good (map label contacts).
  by rewrite (finalize_positions_spec (es := es1)) // => r /hon/honest_answers[_].
exists (map label contacts); rewrite size_map; split; last split=> //.
  have/andP[_ tq] := q; rewrite size_map in tq; rewrite /finalize_psi_query /= ltnNge tq /= ss.
  case: ifP => // bad; exfalso; move: bad; elim: rs hon {q tq fin} => [|r rs IH] //= hon /orP[|]; last first.
    by apply: IH => x xin; apply: hon; right.
  by have [-> _] := honest_answers (hon r (or_introl erefl)); rewrite /= se eqxx.
move=> i lt; rewrite /intersect_with_server_table mem_filter mem_iota size_map lt leq0n !andbT (nth_map [::]) //= -map_comp.
split; first by move=> cin; apply/mapP; exists (nth [::] contacts i).
by move/mapP=> [c cin /= ->]; exists c.
Qed.
End Psi.

(** ** Witness: two contacts, one of them registered, and the servers 5 and 1 *)
Definition w_hkdf (ikm info : bytes) (n : nat) : option bytes := Some (nseq n Byte.x01).
Definition w_fill (n : nat) (rng : nat) : bytes * nat := (nseq n Byte.x02, rng.+1).
Definition w_point (c : bytes) : ('F_7)^o := (2%:R : 'F_7) *: OprfClient.w_hash c.
Definition w_request : PsiRequest :=
  {| q_version := WIRE_VERSION; entries := [seq {| anon_id := nseq 32 Byte.x01; blinded := w_compress (w_point c) |} | c <- OprfClient.w_inputs];
     client_nonce := nseq 32 Byte.x02; witness_index := 2 |}.
Definition w_answers (i : nat) : seq PsiResponseEntry :=
  [seq {| echo_id := nseq 32 Byte.x01; evaluation := w_compress (share_of OprfClient.w_coeffs i *: w_point c) |}
     | c <- OprfClient.w_inputs].
Definition w_response (i : nat) : nat * PsiResponse :=
  (i, {| r_version := WIRE_VERSION; answers_of := w_answers i; server_nonce := nseq 32 Byte.x02;
         transcript_tag := compute_transcript_tag id (nseq 32 Byte.x02) (nseq 32 Byte.x02) (w_answers i) [::] |}).
Definition w_registered : seq bytes := [:: [:: Byte.x02; Byte.x03]; [:: Byte.x09]].

#[local] Arguments w_compress : simpl never.
#[local] Arguments w_decompress : simpl never.

Lemma w_share i : share_of OprfClient.w_coeffs i = (3 + i)%:R :> 'F_7.
Proof. by rewrite /share_of /= /eval_step /= add0r !mulr1 !mul1r -natrD. Qed.

Lemma w_honest i : ((3 + i)%:R : 'F_7) != 0 ->
  honest (V := ('F_7)^o) w_compress w_decompress id w_fill OprfClient.w_coeffs w_request (fun=> [::]) (w_response i).
Proof.
move=> nz; exists 0%N, 1%N.
by rewrite /psi_server_respond /= /evaluate !w_dc w_share (negPf nz) /w_response /w_answers /= w_share.
Qed.

Lemma psi_intersection_witness :
  exists state table labels,
    finalize_psi_query (V := ('F_7)^o) w_decompress w_compress w_decompress OprfClient.w_finalize id state
      [:: w_response 5; w_response 1] OprfClient.w_config = Good labels /\
    1%N \in intersect_with_server_table labels (map fst (table : seq (bytes * bytes))).
Proof.
have prep : prepare_psi_query (V := ('F_7)^o) w_compress OprfClient.w_blind w_hkdf w_fill [::] OprfClient.w_inputs 2 0
  = (Good (w_request, {| q_salt := nseq 32 Byte.x02; states := [:: 2%:R; 2%:R]; inputs := OprfClient.w_inputs;
                         q_nonce := nseq 32 Byte.x02 |}), 4%N) by [].
have [table sim] : exists table, simulate_server_table (V := ('F_7)^o) w_compress w_decompress OprfClient.w_blind
  OprfClient.w_finalize id (nth 0 OprfClient.w_coeffs 0) w_registered [::] 0 = (Good table, 2%N).
  by eexists.
have hon r : List.In r [:: w_response 5; w_response 1] ->
  honest (V := ('F_7)^o) w_compress w_decompress id w_fill OprfClient.w_coeffs w_request (fun=> [::]) r.
  by case=> [<-|[<-|//]]; apply: w_honest.
have [|||||||||labels [fin [sz H]]] := @psi_intersection 'F_7 ('F_7)^o w_decompress w_compress w_decompress nat 'F_7
  OprfClient.w_blind OprfClient.w_finalize id id w_hkdf w_fill OprfClient.w_prf _ _ _ _ _ OprfClient.w_config
  OprfClient.w_coeffs _ _ _ [::] OprfClient.w_inputs 2%N 0%N 4%N w_request _ [:: w_response 5; w_response 1] (fun=> [::])
  w_registered 0%N 2%N table prep hon _ sim => //.
- exact: OprfClient.w_voprf.
- by move=> input rng message state rng' [<- _ _]; apply: OprfClient.w_hash_nonzero.
- exact: w_dc.
- by move=> v _; apply: w_dc.
- exact: w_inj.
have [found _] := H 1%N isT.
eexists _, table, labels; split; first exact: fin.
by apply: found.
Defined.
End DiscoveryPsi.
